(* ===== verification/_CoqProject ===== *)
-Q . S2P
Prelude.v
XErrors.v
GoMonad.v
LedgerKeys.v
Iavl.v
Ledger.v
LedgerSpec.v
LedgerOps.v
LedgerProps.v
LedgerV0.v
LedgerV0Props.v
Units.v
HexBytes.v
Proto.v
GovParams.v
Account.v
TrxTypes.v
Signer.v
AcctCtrler.v
AcctSpec.v
AcctProps.v
VPowerItems.v
ValSet.v
Limiter.v
VPowerCtrler.v
VPowerInv.v
VPowerWp.v
VPowerTrx.v
VPowerRefund.v
VPowerProps.v
Proposal.v
ProposalProps.v
GovCtrler.v
GovInv.v
GovWp.v
GovProps.v
TrxProps.v
Numbers.v
Weights.v
SupplyCtrler.v
MintProps.v
SupplyProps.v
Merkle.v
TrxCtx.v
MetaDB.v
TrxExecutor.v
Bank.v
TrxPreparer.v
App.v
Making.v
Books.v
Native.v
ToyNode.v
EvmTransition.v
EvmCtrler.v
EvmProps.v
Precompiled.v
BlockProps.v
NativeProps.v
AppProps.v
Query.v
History.v
QueryProps.v
CallProps.v
Client.v
Rpc.v
Openapi.v
Genesis.v
Wallet.v
Commands.v
Rlp.v
RlpProps.v
Jsonx.v
SFilePV.v
SFilePVProps.v
GoJson.v
JsonForms.v
JsonProps.v
Web3.v
Web3Props.v
