(* ===== verification/Prelude.v ===== *)
(** * A verification of beatoz-go

    beatoz-go is an application on the Tendermint consensus engine: a
    proof-of-stake chain with accounts, staked voting power, governance by
    proposals, an inflation that rewards stakers, and go-ethereum's virtual
    machine.  The engine calls the application ([node/app.go]) to check a
    transaction, to begin a block, to deliver its transactions, to end it and to
    commit it; the application runs the transactions one by one through an
    executor, and every controller keeps its state in ledgers over an iavl tree.
    This library translates that program into Rocq definitions and proves what
    makes its parts correct.

    ** How the code is modelled

    - Integers are [Z] with their width written out at each operation ([i64],
      [u64], the 256-bit operations of [Units]); bytes are lists of [Z]; a nil
      slice and an empty one are both [[]], except for the parameters an option
      sets and the values read from JSON, where the code tells them apart
      ([GovParams.GovParamsRead]).
    - Stateful code is in the monad [M S A := S -> outcome A * S] of [GoMonad];
      [outcome] has a value, an error ([XErrors.error]) or a panic.  [try] is the
      test of a returned error, [ignore] a result that is dropped, [zoom] runs
      code on a part of the state through a lens.  [wp f Q s] says that running
      [f] from [s] ends in an outcome and a state in [Q]; theorems that say [okQ]
      say that there is neither an error nor a panic.
    - Objects that the code shares by pointer (accounts, delegatees, rewards) are
      cells of a store, and pointers are locations ([loc]), because the caches of
      the ledgers hand out the same object twice.
    - Code outside the repository is a class of operations, with a class of laws
      that states its documented behaviour: the iavl tree ([Iavl], [IavlLaws]),
      protobuf messages ([Proto]), RLP and the curve ([RlpLib], [CryptoLib]),
      decimals and fixed-point numbers ([DecimalLib], [FixedLib] with [FixedLaws]
      and [FixedNumLaws]), the gas pool
      ([GasPoolLib]), tm-db ([TmDB]), the state and the interpreter of the
      virtual machine ([EthStateDB], [EthVM]), Tendermint's sign bytes and files
      ([PVLib]), the ciphers of the wallet ([WalletLib]), certificates ([X509Lib])
      and the text of JSON ([JsonText]).  Each is instantiated in the witnesses of
      the theorems.
    - Where a controller only passes code of another package on, its file is
      proved against a class too, and another file implements the class: the JSON
      of parameters, answers and genesis ([GovJson], [QueryJson], [GenesisJson],
      [GenesisWrite]) by [JsonForms], the RLP of transactions ([RlpLib]) by [Rlp],
      and the laws the controllers rely on are proved there.
    - The goroutines that prepare the transactions of a block work on one shared
      state; a turn of a goroutine, which serves one request, is a step, and the
      theorems hold for every order of turns ([TrxPreparer.prep_step]).  Locks,
      logging and the events of the controllers are left out; the events of a
      transaction are kept.
    - Go's [sort.Slice] is insertion sort ([Prelude.go_sort]); where its result
      could depend on the algorithm a theorem shows that it does not.  The
      recursion is structural, on a list or on the number of a bounded loop, or,
      for the certificates, on the length of what is left of the input.  The
      definitions with fuel are [Numbers.PutUvarint], with the ten bytes a 64-bit
      number takes at most, and the reader of RLP items in [Rlp], with twice
      the bytes of the input, which [need_bound] shows to be enough.

    ** Files

    - Foundations: [Prelude], [XErrors] ([types/xerrors]), [GoMonad], [Units]
      ([types/unit.go], [types/address.go]), [HexBytes] ([types/bytes]), [Proto],
      [Numbers] ([libs/fxnum]), [Merkle] ([types/merkle]).
    - Ledgers ([ledger/v1]): [LedgerKeys], [Iavl], [Ledger] (the mutable, the
      memory and the state ledger), [LedgerSpec] and [LedgerOps] (coherence of
      cache, tree and store with a map), [LedgerProps]; the old ledger
      ([ledger/v0]): [LedgerV0] (the simple, the finality and the in-memory
      ledger), [LedgerV0Props].
    - Accounts ([ctrlers/account], [ctrlers/types/account.go]): [Account],
      [AcctCtrler], [AcctSpec] (the class [IAccountLaws] that every other
      controller is proved against), [AcctProps].
    - Transactions ([ctrlers/types]): [TrxTypes], [Signer]
      (with the hashes and keys of [types/crypto]), [TrxProps], [GovParams];
      [Rlp] (the RLP forms and [Equal] of
      transactions and payloads), with the wire format as the instance of its items),
      [RlpProps].
    - Voting power ([ctrlers/vpower]): [VPowerItems], [ValSet], [Limiter],
      [VPowerCtrler], [VPowerInv] (the invariant), [VPowerWp] (with
      slashing), [VPowerTrx] (with the bounds of the powers), [VPowerRefund],
      [VPowerProps], [Weights] (also in decimals and the other fixed-point form).
    - Governance ([ctrlers/gov]): [Proposal], [ProposalProps], [GovCtrler],
      [GovInv] (the items of the ledger), [GovWp], [GovProps].
    - Supply ([ctrlers/supply]): [SupplyCtrler], [MintProps],
      [SupplyProps].
    - Node ([node], [genesis]): [TrxCtx] (block and transaction contexts),
      [MetaDB], [TrxExecutor], [TrxPreparer], [App]; [Bank] is the
      abstract view of a block of transfers and of its preparation,
      [BlockProps] and [AppProps] its
      theorems; [Making] (what making a context needs), [Books] (all coins of the
      chain and the effect of each kind of transaction on them), [Native] and
      [NativeProps] are the same for blocks of every native kind, [ToyNode] the
      concrete node of the witnesses; [Client]
      ([node/client.go]) is the local client through which the engine calls the
      application and gets its answers.
    - Queries ([node/query.go] and the queries of the controllers): [Query];
      [History] (what no call of the node changes in committed versions),
      [QueryProps], and [CallProps] for the read-only calls of the virtual
      machine ([ctrlers/vm/evm/query.go]).
    - Outside the node: [Rpc] ([rpc]: routes, paths, heights, topics and the
      functions for Ethereum clients), [Openapi] ([tools/gen-openapi.go], the
      document of the routes), [Genesis] ([cmd/commands/init.go],
      [genesis/genesis.go]), [Commands] ([cmd/commands/web3/trx.go] and the
      commands of a validator), [Web3] and [Web3Props] (the client in
      [cmd/commands/web3]).
    - JSON: [Jsonx] ([libs/jsonx]: integers as strings, names of fields), [GoJson]
      (writing and reading Go values described by their types, in the dialects of
      [libs/jsonx] and of Tendermint), [JsonForms] (every [MarshalJSON] and
      [UnmarshalJSON], and the structures of the answers), [JsonProps];
      the module [ToyJson] of [JsonForms] is a text for the witnesses.
    - Virtual machine ([ctrlers/vm/evm]): [EvmTransition] (with the state),
      [EvmCtrler], [EvmProps], [Precompiled] (the contracts for P-256 and X.509).
    - Keys: [Wallet] ([types/crypto/wallet_key.go] and the command that resets
      the passphrase), [SFilePV], [SFilePVProps] ([types/crypto/sfile_pv.go], with
      its key and state files).

    ** What is shown

    - Ledgers: any interleaving of operations is that of a pair of maps, the
      delivered and the checked one; reverting restores; iteration visits each
      entry once; keys never collide.  The old finality ledger is two overlays of
      one committed map, and its commit does not depend on Go's order of maps.
    - Accounts: transfers move exactly the amount and conserve the total; the
      fees of a block are distributed without remainder.
    - Transactions: both encodings round-trip; what is signed determines the
      transaction, its payload and the chain; verification accepts exactly
      the signer recovered from the transaction's own signature.  A Merkle proof
      that verifies is that of the leaf, or a collision is found on its path.
    - Voting power: staking bonds what was paid for; unstaking and
      missing blocks conserve bonded plus frozen power, item by item; refunding
      pays each owner once, up to the first without an account; slashing credits
      what it takes; the reported updates turn the old validator set into the new one;
      the limiter bounds the change in a block.
    - Governance: the votes of the options are those of the voters, also after
      slashing; the major option is unique; the end of a block settles every
      proposal; in every reachable state the parameters only change by an option
      that two thirds of the voting power of a submitted proposal chose, and every
      key holds an item of its own kind.
    - Supply: weights add up, and in decimals they lie between zero and one; from
      weights that are not negative and a supply within the maximum, what is
      minted is the sum of the rewards and stays within the maximum; the records
      of rewards and supply are exactly those of the issuance; withdrawals move
      rewards to balances.
    - Node: however the goroutines interleave, a block of transfers gives what an
      abstract bank gives that runs them one by one, no transfer is executed
      twice, results come in the order of delivery and, unless the checks of a
      transaction panic, waiting for them ends;
      a block of any native transactions conserves the coins in accounts, bonded,
      frozen, in rewards and in fees, and no accepted transaction is repeated;
      a restarted process resumes from the last commit.  Each delivered
      transaction is answered once, in order, by the end of its block.
    - Queries: the answers from the ledgers at a committed height never change (of
      an account, while its code is answered the same; of the voting power, while
      the parameters it is asked with are the same); the total power is
      what is bonded, the stakes are those of the address; a call of the virtual
      machine is answered and changes nothing.
    - Outside the node: each route is answered with the value it is for; topics are
      rewritten to the text of the events; the genesis of [init] is accepted with
      exactly the supply asked for; a transaction that the commands make and sign
      is opened by every node; the client reads, through its HTTP provider, the values
      the node wrote; the generated document describes the routes with their arguments.
    - JSON: every form is read back to the value that was written.
    - Virtual machine: the pool of the block loses exactly the gas used; a
      validated contract transaction runs unless it creates a contract from too
      much data; a restarted controller begins the next
      block as the old one would; the certificate contract reads exactly the
      framed certificates and reports the subject of a verified chain.
    - Wallets: a key is recovered by its passphrase, also after a reset; the
      padding is the only test of a passphrase.
    - Validator keys: two signatures for one height, round and step are the same,
      also over crashes.
    - Behaviour that the code has and does not mean to have is stated as
      theorems too, among them [revert_crosses_commit], [mem_Del_not_reverted],
      [limiter_shared_with_check], [unfreeze_without_account_fails],
      [short_signature_panics], [lowered_max_overmints], [merkle_inner_verifies],
      [failed_context_halts], [oversized_creation_free],
      [wrong_passphrase_loses_key], [own_signature_refused],
      [plain_wallet_panics], [recreated_hidden], [mem_ledger_loses],
      [voting_power_leaves_out], [eth_block_latest], [codec_forgives] and
      [number_option_panics].

    ** What is not modelled

    - [node/node.go], [cmd/main.go], [cmd/config], [cmd/version], the commands
      that run, reset or describe a node: they pass configuration to
      Tendermint's constructors or only read and write files.
    - The transport of HTTP, Tendermint's RPC handlers and its own results: what
      they answer is a parameter of [Web3] and [Rpc], and [Web3Props] states what
      is assumed of the service between the client and the application.
    - The characters of JSON: [GoJson] works on trees, their text is a parameter.
    - Generated protobuf code: the messages are records, their encoding is the
      parameter [Proto].
    - [libs/fxnum/fixed_util.go] and [ledger/v0/sliceMap.go], which have no
      caller, and the decimal build of [libs/fxnum].
    - Opening and closing of databases, logging, metrics and the events of the
      controllers. *)
(** ** Prelude: machine integers, byte strings, sums and sorting *)
From stdpp Require Import base gmap list strings sorting.
From Stdlib Require Import ZArith Lia Permutation Sorted.

Declare Scope go_scope.
Delimit Scope go_scope with go.
Open Scope go_scope.
Open Scope Z_scope.

(** ** Machine integers *)

(** Go's fixed-width integers are kept as [Z] in their range; every operation
    that can leave the range is followed by the wrap-around below. *)
Definition i64 (z : Z) : Z := (z + 2 ^ 63) mod 2 ^ 64 - 2 ^ 63.
Definition i32 (z : Z) : Z := (z + 2 ^ 31) mod 2 ^ 32 - 2 ^ 31.
Definition u64 (z : Z) : Z := z mod 2 ^ 64.
Definition u256 (z : Z) : Z := z mod 2 ^ 256.

Definition MaxInt64 : Z := 2 ^ 63 - 1.

Definition in_i64 (z : Z) : Prop := - 2 ^ 63 <= z < 2 ^ 63.
Definition in_u256 (z : Z) : Prop := 0 <= z < 2 ^ 256.

(** Congruence modulo [2 ^ 64]: the relation under which [i64] is invisible. *)
Definition eqm64 (a b : Z) : Prop := a mod 2 ^ 64 = b mod 2 ^ 64.

#[global] Instance eqm64_equiv : Equivalence eqm64.
Proof. split; unfold eqm64; congruence. Qed.

#[global] Instance eqm64_add : Proper (eqm64 ==> eqm64 ==> eqm64) Z.add.
Proof.
  intros a a' Ha b b' Hb; unfold eqm64 in *.
  rewrite (Z.add_mod a b), (Z.add_mod a' b') by lia; congruence.
Qed.

#[global] Instance eqm64_opp : Proper (eqm64 ==> eqm64) Z.opp.
Proof.
  intros a a' Ha; unfold eqm64 in *.
  replace (- a) with ((-1) * a) by lia; replace (- a') with ((-1) * a') by lia.
  rewrite (Z.mul_mod _ a), (Z.mul_mod _ a') by lia; congruence.
Qed.

#[global] Instance eqm64_sub : Proper (eqm64 ==> eqm64 ==> eqm64) Z.sub.
Proof.
  intros a a' Ha b b' Hb; unfold Z.sub; now rewrite Ha, Hb.
Qed.

#[global] Instance eqm64_mul : Proper (eqm64 ==> eqm64 ==> eqm64) Z.mul.
Proof.
  intros a a' Ha b b' Hb; unfold eqm64 in *.
  rewrite (Z.mul_mod a b), (Z.mul_mod a' b') by lia; congruence.
Qed.

Lemma i64_eqm (a : Z) : eqm64 (i64 a) a.
Proof.
  unfold eqm64, i64.
  rewrite Zminus_mod_idemp_l. f_equal; lia.
Qed.

Lemma eqm64_i64 (a b : Z) : eqm64 a b -> i64 a = i64 b.
Proof.
  unfold eqm64, i64; intros H.
  rewrite (Z.add_mod a), (Z.add_mod b), H by lia; reflexivity.
Qed.

Lemma i32_small z : - 2 ^ 31 <= z < 2 ^ 31 -> i32 z = z.
Proof. intros Hz. unfold i32. rewrite Z.mod_small; lia. Qed.

Lemma i64_id (a : Z) : in_i64 a -> i64 a = a.
Proof.
  unfold in_i64, i64; intros H. rewrite Z.mod_small; lia.
Qed.

Lemma i64_range (a : Z) : in_i64 (i64 a).
Proof.
  unfold in_i64, i64. pose proof (Z.mod_pos_bound (a + 2 ^ 63) (2 ^ 64)). lia.
Qed.

(** Two [i64] results are equal as soon as the exact values agree modulo 2^64. *)
Ltac i64_ring :=
  apply eqm64_i64;
  repeat match goal with
  | |- context [i64 ?a] => rewrite (i64_eqm a)
  end;
  match goal with
  | |- eqm64 ?a ?b => replace a with b by lia; reflexivity
  end.

Lemma i64_i64 a : i64 (i64 a) = i64 a.
Proof. i64_ring. Qed.

Lemma i64_add_l a b : i64 (i64 a + b) = i64 (a + b).
Proof. i64_ring. Qed.

Lemma i64_add_r a b : i64 (a + i64 b) = i64 (a + b).
Proof. i64_ring. Qed.

Lemma i64_sub_l a b : i64 (i64 a - b) = i64 (a - b).
Proof. i64_ring. Qed.

Lemma i64_sub_r a b : i64 (a - i64 b) = i64 (a - b).
Proof. i64_ring. Qed.

Create HintDb i64.
Create Rewrite HintDb i64.
#[export] Hint Rewrite i64_i64 i64_add_l i64_add_r i64_sub_l i64_sub_r : i64.
#[export] Hint Resolve i64_range : i64.

Lemma u256_id (a : Z) : in_u256 a -> u256 a = a.
Proof. unfold in_u256, u256; intros; now apply Z.mod_small. Qed.

Lemma u256_range (a : Z) : in_u256 (u256 a).
Proof. unfold in_u256, u256; apply Z.mod_pos_bound; lia. Qed.

#[export] Hint Resolve u256_range : i64.

(** Go's [/] on signed integers truncates towards zero. *)
Definition go_div (a b : Z) : Z := Z.quot a b.

Lemma go_div_pos (a b : Z) : 0 <= a -> 0 < b -> go_div a b = a / b.
Proof. intros; unfold go_div; now rewrite Z.quot_div_nonneg. Qed.

(** ** Byte strings *)

(** A Go [[]byte] is a list of octets.  Where the code tells a [nil] slice from
    an empty one, the model uses [option bytes]. *)
Abbreviation bytes := (list Z).

(** [bytes.Equal] *)
Definition bytes_Equal (a b : bytes) : bool := bool_decide (a = b).

(** [bytes.Compare]: lexicographic order, a proper prefix first. *)
Fixpoint bytes_Compare (a b : bytes) : Z :=
  match a, b with
  | [], [] => 0
  | [], _ :: _ => -1
  | _ :: _, [] => 1
  | x :: a', y :: b' =>
      if x <? y then -1 else if y <? x then 1 else bytes_Compare a' b'
  end.

(** [bytes.HasPrefix] *)
Fixpoint bytes_HasPrefix (s prefix : bytes) {struct prefix} : bool :=
  match prefix, s with
  | [], _ => true
  | p :: prefix', x :: s' => (p =? x) && bytes_HasPrefix s' prefix'
  | _ :: _, [] => false
  end.

(** [binary.BigEndian.PutUint64] of an [n]-byte integer, and its inverse. *)
Fixpoint put_be (n : nat) (v : Z) : bytes :=
  match n with
  | O => []
  | S n' => put_be n' (v / 256) ++ [v mod 256]
  end.

Fixpoint get_be (b : bytes) (acc : Z) : Z :=
  match b with
  | [] => acc
  | x :: b' => get_be b' (acc * 256 + x)
  end.

Lemma bytes_Equal_true a b : bytes_Equal a b = true <-> a = b.
Proof. unfold bytes_Equal; apply bool_decide_eq_true. Qed.

Lemma bytes_Equal_refl a : bytes_Equal a a = true.
Proof. now apply bytes_Equal_true. Qed.

Lemma bytes_Equal_sym a b : bytes_Equal a b = bytes_Equal b a.
Proof. unfold bytes_Equal; apply bool_decide_ext; intuition congruence. Qed.

Lemma bytes_Compare_eq a b : bytes_Compare a b = 0 <-> a = b.
Proof.
  revert b; induction a as [|x a IH]; intros [|y b]; cbn; try easy.
  destruct (Z.ltb_spec x y); [split; [lia | intros [= -> ->]; lia]|].
  destruct (Z.ltb_spec y x); [split; [lia | intros [= -> ->]; lia]|].
  assert (x = y) as -> by lia. rewrite IH; split; congruence.
Qed.

Lemma bytes_Compare_values a b :
  bytes_Compare a b = -1 \/ bytes_Compare a b = 0 \/ bytes_Compare a b = 1.
Proof.
  revert b; induction a as [|x a IH]; intros [|y b]; cbn; auto.
  destruct (x <? y); auto. destruct (y <? x); auto.
Qed.

Lemma bytes_Compare_antisym a b : bytes_Compare a b = - bytes_Compare b a.
Proof.
  revert b; induction a as [|x a IH]; intros [|y b]; cbn; auto.
  destruct (Z.ltb_spec x y), (Z.ltb_spec y x); auto; lia.
Qed.

Lemma bytes_Compare_trans a b c :
  bytes_Compare a b < 0 -> bytes_Compare b c < 0 -> bytes_Compare a c < 0.
Proof.
  revert b c; induction a as [|x a IH]; intros [|y b] [|z c]; cbn; try lia.
  destruct (Z.ltb_spec x y), (Z.ltb_spec y x), (Z.ltb_spec y z), (Z.ltb_spec z y),
    (Z.ltb_spec x z), (Z.ltb_spec z x); try lia; eauto.
Qed.

Lemma bytes_HasPrefix_spec s p :
  bytes_HasPrefix s p = true <-> exists t, s = p ++ t.
Proof.
  revert s; induction p as [|x p IH]; intros s; cbn; [split; eauto|].
  destruct s as [|y s].
  { split; [discriminate | intros [t Ht]; discriminate]. }
  rewrite andb_true_iff, Z.eqb_eq, IH; split.
  - intros [-> [t ->]]; now exists t.
  - intros [t [= -> ->]]; split; eauto.
Qed.

Lemma bytes_HasPrefix_ge p k : bytes_HasPrefix k p = true -> bytes_Compare p k <= 0.
Proof.
  revert k; induction p as [|x p IH]; intros [|y k]; cbn; try lia; try discriminate.
  rewrite andb_true_iff, Z.eqb_eq. intros [-> Hp]. rewrite Z.ltb_irrefl. auto.
Qed.

(** The strings with a prefix are an interval of the order. *)
Lemma bytes_HasPrefix_convex p a b :
  bytes_Compare p a <= 0 -> bytes_Compare a b <= 0 ->
  bytes_HasPrefix b p = true -> bytes_HasPrefix a p = true.
Proof.
  revert a b; induction p as [|x p IH]; intros [|y a] [|z b]; cbn; try lia; try done.
  rewrite !andb_true_iff, !Z.eqb_eq. intros Hpa Hab [-> Hb].
  destruct (Z.ltb_spec z y), (Z.ltb_spec y z); try lia. split; [lia|].
  eapply IH; eauto.
Qed.

Lemma length_put_be n v : length (put_be n v) = n.
Proof. revert v; induction n; intros; cbn; [done|]; rewrite length_app, IHn; cbn; lia. Qed.

Lemma get_be_app a b acc : get_be (a ++ b) acc = get_be b (get_be a acc).
Proof. revert acc; induction a; cbn; auto. Qed.

Lemma get_put_be n v acc :
  get_be (put_be n v) acc = acc * 256 ^ Z.of_nat n + v mod 256 ^ Z.of_nat n.
Proof.
  revert v acc; induction n as [|n IH]; intros v acc; cbn [put_be].
  - cbn; rewrite Z.mod_1_r; lia.
  - rewrite get_be_app, IH; cbn [get_be].
    rewrite Nat2Z.inj_succ, Z.pow_succ_r by lia.
    rewrite (Z.rem_mul_r v) by lia. lia.
Qed.

Lemma put_be_inj n v w :
  put_be n v = put_be n w -> v mod 256 ^ Z.of_nat n = w mod 256 ^ Z.of_nat n.
Proof.
  intros H. apply (f_equal (fun b => get_be b 0)) in H.
  now rewrite !get_put_be in H.
Qed.

Create HintDb go.
Create Rewrite HintDb go.
#[export] Hint Rewrite bytes_Equal_true bytes_Equal_refl : go.

(** ** Sums *)

Fixpoint zsum (l : list Z) : Z :=
  match l with
  | [] => 0
  | x :: l' => x + zsum l'
  end.

Lemma zsum_app l1 l2 : zsum (l1 ++ l2) = zsum l1 + zsum l2.
Proof. induction l1; cbn; lia. Qed.

#[global] Instance zsum_perm : Proper (Permutation ==> eq) zsum.
Proof. induction 1; cbn; lia. Qed.

Lemma zsum_map_ext {A} (f g : A -> Z) l :
  (forall x, x ∈ l -> f x = g x) -> zsum (map f l) = zsum (map g l).
Proof.
  induction l as [|x l IH]; cbn; intros H; [done|].
  rewrite (H x), IH; [done| |left]. intros; apply H; now right.
Qed.

Lemma zsum_map_add {A} (f g : A -> Z) l :
  zsum (map (fun x => f x + g x) l) = zsum (map f l) + zsum (map g l).
Proof. induction l; cbn; lia. Qed.

Lemma zsum_nonneg l : Forall (fun x => 0 <= x) l -> 0 <= zsum l.
Proof. induction 1; cbn; lia. Qed.

Lemma zsum_elem_le l x : Forall (fun z => 0 <= z) l -> x ∈ l -> x <= zsum l.
Proof.
  intros Hl. induction Hl as [|y l Hy Hl IH]; intros Hx; [by apply not_elem_of_nil in Hx|].
  pose proof (zsum_nonneg l Hl). apply elem_of_cons in Hx as [->|Hx]; cbn; [|specialize (IH Hx)]; unfold zsum in *; lia.
Qed.

Lemma zsum_map_le {A} (f g : A -> Z) l :
  (forall x, x ∈ l -> f x <= g x) -> zsum (map f l) <= zsum (map g l).
Proof.
  induction l as [|x l IH]; cbn; intros H; [lia|].
  pose proof (H x ltac:(left)).
  enough (zsum (map f l) <= zsum (map g l)) by lia.
  apply IH; intros; apply H; now right.
Qed.

(** The sum of [f k v] over the entries of a finite map. *)
Section MapSum.
Context {K V : Type} `{Countable K}.
Implicit Types (m : gmap K V) (f : K -> V -> Z).

Definition msum f m : Z := map_fold (fun k v acc => f k v + acc) 0 m.

Lemma msum_empty f : msum f ∅ = 0.
Proof. apply map_fold_empty. Qed.

Lemma msum_insert_None f m k v :
  m !! k = None -> msum f (<[k := v]> m) = f k v + msum f m.
Proof.
  intros Hk; unfold msum. rewrite map_fold_insert_L; [done| |done].
  intros; lia.
Qed.

Lemma msum_lookup_delete f m k v :
  m !! k = Some v -> msum f m = f k v + msum f (delete k m).
Proof.
  intros Hk. rewrite <- msum_insert_None by apply lookup_delete_eq.
  now rewrite insert_delete_id.
Qed.

(** The contribution of one key, zero when the key is absent. *)
Definition at_key f m k : Z :=
  match m !! k with Some v => f k v | None => 0 end.

Lemma msum_delete f m k : msum f (delete k m) = msum f m - at_key f m k.
Proof.
  unfold at_key; destruct (m !! k) as [v|] eqn:E.
  - rewrite (msum_lookup_delete f m k v) by done; lia.
  - rewrite delete_id by done; lia.
Qed.

Lemma msum_insert f m k v :
  msum f (<[k := v]> m) = msum f m - at_key f m k + f k v.
Proof.
  rewrite <- insert_delete_eq, msum_insert_None by apply lookup_delete_eq.
  rewrite msum_delete; lia.
Qed.

Lemma msum_ext f g m :
  (forall k v, m !! k = Some v -> f k v = g k v) -> msum f m = msum g m.
Proof.
  induction m as [|k v m Hk IH] using map_ind; intros Hfg;
    [now rewrite !msum_empty|].
  rewrite !msum_insert_None by done.
  rewrite (Hfg k v) by apply lookup_insert_eq. f_equal.
  apply IH; intros k' v' Hk'; apply Hfg. rewrite lookup_insert_ne; congruence.
Qed.

Lemma msum_nonneg f m :
  (forall k v, m !! k = Some v -> 0 <= f k v) -> 0 <= msum f m.
Proof.
  induction m as [|k v m Hk IH] using map_ind; intros Hf;
    [rewrite msum_empty; lia|].
  rewrite msum_insert_None by done.
  pose proof (Hf k v (lookup_insert_eq _ _ _)).
  enough (0 <= msum f m) by lia.
  apply IH; intros k' v' Hk'; apply Hf. rewrite lookup_insert_ne; congruence.
Qed.

End MapSum.

(** ** Sorting *)

(** [sort.Sort]: Go sorts up to twelve elements by insertion, and every larger
    slice with an algorithm that agrees with it whenever [less] is a strict
    total order on the elements (see [go_sort_unique]). *)
Section GoSort.
Context {A : Type} (less : A -> A -> bool).

Fixpoint sort_insert (x : A) (l : list A) : list A :=
  match l with
  | [] => [x]
  | y :: l' => if less y x then y :: sort_insert x l' else x :: l
  end.

Fixpoint go_sort (l : list A) : list A :=
  match l with
  | [] => []
  | x :: l' => sort_insert x (go_sort l')
  end.

Definition not_after (x y : A) : Prop := less y x = false.

Lemma sort_insert_perm x l : Permutation (sort_insert x l) (x :: l).
Proof.
  induction l as [|y l IH]; cbn; [done|].
  destruct (less y x); [|done]. rewrite IH. apply perm_swap.
Qed.

Lemma go_sort_perm l : Permutation (go_sort l) l.
Proof. induction l; cbn; [done|]. now rewrite sort_insert_perm, IHl. Qed.

Lemma length_go_sort l : length (go_sort l) = length l.
Proof. apply Permutation_length, go_sort_perm. Qed.

Lemma elem_of_go_sort x l : x ∈ go_sort l <-> x ∈ l.
Proof. now rewrite go_sort_perm. Qed.

Hypothesis less_trans : forall x y z,
  less x y = false -> less y z = false -> less x z = false.
Hypothesis less_asym : forall x y, less x y = true -> less y x = false.

Lemma sort_insert_sorted x l :
  StronglySorted not_after l -> StronglySorted not_after (sort_insert x l).
Proof.
  induction 1 as [|y l Hl IH Hy]; cbn; [repeat constructor|].
  destruct (less y x) eqn:E.
  - constructor; [done|].
    rewrite sort_insert_perm. constructor; [|done]. now apply less_asym.
  - constructor; [now constructor|]. constructor; [done|].
    eapply Forall_impl; [exact Hy|]. intros z Hz; unfold not_after in *.
    eauto.
Qed.

Lemma go_sort_sorted l : StronglySorted not_after (go_sort l).
Proof. induction l; cbn; [constructor|]. now apply sort_insert_sorted. Qed.

(** When [less] decides any two distinct elements of the slice, the sorted
    permutation is unique: whatever algorithm sorts, the result is [go_sort]. *)
Definition decides (l : list A) : Prop :=
  forall x y, x ∈ l -> y ∈ l -> less x y = false -> less y x = false -> x = y.

Lemma sorted_perm_unique l1 l2 :
  decides l1 ->
  StronglySorted not_after l1 -> StronglySorted not_after l2 ->
  Permutation l1 l2 -> l1 = l2.
Proof.
  revert l2; induction l1 as [|x l1 IH]; intros l2 HD H1 H2 HP.
  - now apply Permutation_nil_l in HP.
  - destruct l2 as [|y l2]; [now apply Permutation_nil_r in HP|].
    inversion_clear H1 as [|? ? S1 F1]; inversion_clear H2 as [|? ? S2 F2].
    assert (x = y) as ->.
    { assert (Hx : x ∈ y :: l2) by (rewrite <- HP; left).
      assert (Hy : y ∈ x :: l1) by (rewrite HP; left).
      pose proof Hx as Hx'; pose proof Hy as Hy'.
      apply elem_of_cons in Hx as [->|Hx]; [done|].
      apply elem_of_cons in Hy as [->|Hy]; [done|].
      rewrite Forall_forall in F1, F2. apply HD; [left|done| |].
      - now apply F2.
      - now apply F1. }
    f_equal. apply IH; auto.
    + intros a b Ha Hb; apply HD; now right.
    + now apply Permutation_cons_inv in HP.
Qed.

Lemma go_sort_unique l l' :
  decides l' -> StronglySorted not_after l' -> Permutation l' l -> l' = go_sort l.
Proof.
  intros HD HS HP. apply sorted_perm_unique; auto using go_sort_sorted.
  now rewrite go_sort_perm.
Qed.

End GoSort.

(** ** Removing keys one by one *)

Lemma foldl_delete `{Countable K} {A} (ks : list K) (m : gmap K A) k :
  fold_left (fun m k => delete k m) ks m !! k = if bool_decide (k ∈ ks) then None else m !! k.
Proof.
  revert m. induction ks as [|k0 ks IH]; intros m; [done|]. cbn [fold_left]. rewrite IH.
  destruct (decide (k = k0)) as [->|Hne].
  - rewrite lookup_delete_eq. repeat case_bool_decide; set_solver.
  - rewrite lookup_delete_ne by done. repeat case_bool_decide; set_solver.
Qed.
