(* ===== verification/XErrors.v ===== *)
(** * XErrors: the error values of [types/xerrors]

    An [XError] of the code is a [*xerror] with a code, a message and a cause,
    which is any Go [error]: [XError] is one whose cause is [nil], [XErrorC] one
    with a cause.  [GoError] stands for an error made by
    [errors.New] or [fmt.Errorf], [JoinError] for [errors.Join].  Messages are
    kept as text because [Contains] compares text; the arguments a [Wrapf]
    formats are left out of the message. *)
From stdpp Require Import base list strings.
From Stdlib Require Import ZArith Lia.
From S2P Require Import Prelude.

Inductive error : Type :=
| XError (code : Z) (msg : string)
| XErrorC (code : Z) (msg : string) (cause : error)
| GoError (msg : string)
| JoinError (e1 e2 : error).

Section Codes.

Definition ErrCodeSuccess : Z := 0.
Definition ErrCodeOrdinary : Z := 1.
Definition ErrCodeInitChain : Z := 2.
Definition ErrCodeCheckTx : Z := 3.
Definition ErrCodeBeginBlock : Z := 4.
Definition ErrCodeDeliverTx : Z := 5.
Definition ErrCodeEndBlock : Z := 6.
Definition ErrCodeCommit : Z := 7.
Definition ErrCodeNotFoundAccount : Z := 8.
Definition ErrCodeInvalidAccountType : Z := 9.
Definition ErrCodeInvalidTrx : Z := 10.
Definition ErrCodeNotFoundTx : Z := 11.
Definition ErrCodeNotFoundDelegatee : Z := 12.
Definition ErrCodeNotFoundStake : Z := 13.
Definition ErrCodeNotFoundProposal : Z := 14.
Definition ErrCodeNotFoundVoter : Z := 15.
Definition ErrCodeNotFoundReward : Z := 16.
Definition ErrCodeUpdatableStakeRatio : Z := 17.
Definition ErrCodeQuery : Z := 1000.
Definition ErrCodeInvalidQueryPath : Z := 1001.
Definition ErrCodeInvalidQueryParams : Z := 1002.
Definition ErrCodeNotFoundResult : Z := 1003.

End Codes.

Definition New (code : Z) (msg : string) : error := XError code msg.

Definition NewOrdinary (msg : string) : error := XError ErrCodeOrdinary msg.

(** Is the value one of the package's own [*xerror]s? *)
Definition is_xerror (e : error) : bool :=
  match e with
  | XError _ _ | XErrorC _ _ _ => true
  | GoError _ | JoinError _ _ => false
  end.

(** [xerr.Code()]; a plain Go error has none, its callers hold an [XError]. *)
Definition Code (e : error) : Z :=
  match e with
  | XError c _ | XErrorC c _ _ => c
  | GoError _ | JoinError _ _ => ErrCodeOrdinary
  end.

Definition Msg (e : error) : string :=
  match e with
  | XError _ m | XErrorC _ m _ => m
  | GoError _ | JoinError _ _ => EmptyString
  end.

Definition Cause (e : error) : option error :=
  match e with
  | XErrorC _ _ c => Some c
  | _ => None
  end.

Definition newline : string := String (Ascii.ascii_of_nat 10) EmptyString.
Definition newline_tab : string :=
  String (Ascii.ascii_of_nat 10) (String (Ascii.ascii_of_nat 9) EmptyString).

(** [Error()] *)
Fixpoint Error (e : error) : string :=
  match e with
  | XError _ m => m
  | XErrorC _ m c => (m +:+ newline_tab +:+ Error c)%string
  | GoError m => m
  | JoinError a b => (Error a +:+ newline +:+ Error b)%string
  end.

(** [From(err)]: the text of [err] under the ordinary code, its cause lost. *)
Definition From_ (e : error) : error := NewOrdinary (Error e).

(** [xerr.Wrap(err)] puts [err] at the end of the chain of causes. *)
Fixpoint Wrap (x : error) (err : error) : error :=
  match x with
  | XErrorC c m cause =>
      if is_xerror cause then XErrorC c m (Wrap cause err)
      else XErrorC c m (JoinError cause err)
  | XError c m => XErrorC c m err
  | other => other
  end.

Definition Wrapf (x : error) (format : string) : error :=
  Wrap x (New ErrCodeOrdinary format).

(** [strings.HasPrefix] and [strings.Contains] *)
Fixpoint str_HasPrefix (s p : string) {struct p} : bool :=
  match p, s with
  | EmptyString, _ => true
  | String a p', String b s' => Ascii.eqb a b && str_HasPrefix s' p'
  | String _ _, EmptyString => false
  end.

Fixpoint str_Contains (s p : string) : bool :=
  str_HasPrefix s p ||
  match s with
  | EmptyString => false
  | String _ s' => str_Contains s' p
  end.

#[global] Instance error_eq_dec : EqDecision error.
Proof. solve_decision. Defined.

(** [errors.Is(err, target)]: [err] is [target], or one of the errors it joins
    is; an [*xerror] has no [Unwrap], so its cause is not looked at. *)
Fixpoint errors_Is (e target : error) : bool :=
  bool_decide (e = target) ||
  match e with
  | JoinError a b => errors_Is a target || errors_Is b target
  | _ => false
  end.

(** [xerr.Contains(other)] *)
Fixpoint Contains (x other : error) : bool :=
  if (Code x =? Code other) && str_Contains (Error x) (Error other) then true
  else match x with
       | XErrorC _ _ cause =>
           if is_xerror cause then Contains cause other else errors_Is cause other
       | _ => false
       end.

(** [xerr.Equal(other)] *)
Definition Equal (x other : error) : bool := Code x =? Code other.

Section Vars.

Definition ErrCommon := New ErrCodeOrdinary "beatoz error".
Definition ErrOverFlow := New ErrCodeOrdinary "overflow".
Definition ErrInitChain := New ErrCodeInitChain "InitChain failed".
Definition ErrCheckTx := New ErrCodeCheckTx "CheckTx failed".
Definition ErrBeginBlock := New ErrCodeBeginBlock "BeginBlock failed".
Definition ErrDeliverTx := New ErrCodeDeliverTx "DeliverTx failed".
Definition ErrEndBlock := New ErrCodeEndBlock "EndBlock failed".
Definition ErrCommit := New ErrCodeCommit "Commit failed".
Definition ErrQuery := New ErrCodeQuery "query failed".
Definition ErrNotFoundAccount := New ErrCodeNotFoundAccount "not found account".
Definition ErrInvalidAccountType := New ErrCodeInvalidAccountType "invalid account type".
Definition ErrInvalidTrx := New ErrCodeInvalidTrx "invalid transaction".
Definition ErrNegGas := Wrap ErrInvalidTrx (NewOrdinary "negative gas").
Definition ErrInvalidGas := Wrap ErrInvalidTrx (NewOrdinary "invalid gas").
Definition ErrInvalidGasPrice := Wrap ErrInvalidTrx (NewOrdinary "invalid gas price").
Definition ErrInvalidAddress := Wrap ErrInvalidTrx (NewOrdinary "invalid address").
Definition ErrInvalidNonce := Wrap ErrInvalidTrx (NewOrdinary "invalid nonce").
Definition ErrInvalidAmount := Wrap ErrInvalidTrx (NewOrdinary "invalid amount").
Definition ErrInsufficientFund := Wrap ErrInvalidTrx (NewOrdinary "insufficient fund").
Definition ErrInvalidTrxType := Wrap ErrInvalidTrx (NewOrdinary "wrong transaction type").
Definition ErrInvalidTrxPayloadType :=
  Wrap ErrInvalidTrx (NewOrdinary "wrong transaction payload type").
Definition ErrInvalidTrxPayloadParams :=
  Wrap ErrInvalidTrx (NewOrdinary "invalid params of transaction payload").
Definition ErrInvalidTrxSig := Wrap ErrInvalidTrx (NewOrdinary "invalid signature").
Definition ErrNotFoundTx := New ErrCodeNotFoundTx "not found tx".
Definition ErrNotFoundDelegatee := New ErrCodeNotFoundDelegatee "not found delegatee".
Definition ErrNotFoundStake := New ErrCodeNotFoundStake "not found stake".
Definition ErrNotFoundProposal := New ErrCodeNotFoundProposal "not found proposal".
Definition ErrNotFoundVoter := New ErrCodeNotFoundVoter "not found voter".
Definition ErrNotFoundReward := New ErrCodeNotFoundReward "not found reward".
Definition ErrUpdatableStakeRatio :=
  New ErrCodeUpdatableStakeRatio "exceeded updatable stake ratio".
Definition ErrInvalidQueryPath := New ErrCodeInvalidQueryPath "invalid query path".
Definition ErrInvalidQueryParams := New ErrCodeInvalidQueryParams "invalid query parameters".
Definition ErrNotFoundResult := New ErrCodeNotFoundResult "not found result".
Definition ErrUnknownTrxType := NewOrdinary "unknown transaction type".
Definition ErrUnknownTrxPayloadType := NewOrdinary "unknown transaction payload type".
Definition ErrNoRight := NewOrdinary "no right".
Definition ErrNotVotingPeriod := NewOrdinary "not voting period".
Definition ErrDuplicatedKey := NewOrdinary "already existed key".
Definition ErrInvalidWeight := NewOrdinary "invalid weight".

End Vars.

(** ** Properties *)

Lemma str_HasPrefix_app s t : str_HasPrefix (s +:+ t) s = true.
Proof.
  induction s as [|a s IH]; [done|].
  change (Ascii.eqb a a && str_HasPrefix (s +:+ t) s = true).
  now rewrite Ascii.eqb_refl, IH.
Qed.

Lemma str_Contains_prefix s p : str_HasPrefix s p = true -> str_Contains s p = true.
Proof. intros H; destruct s; cbn [str_Contains]; now rewrite H. Qed.

Lemma str_app_assoc (a b c : string) : (a +:+ (b +:+ c) = (a +:+ b) +:+ c)%string.
Proof.
  induction a as [|x a IH]; [done|].
  change (String x (a +:+ (b +:+ c)) = String x ((a +:+ b) +:+ c)). now f_equal.
Qed.

(** The text of a wrapped error starts with the text of the error. *)
Lemma Error_Wrap_prefix x err :
  is_xerror x = true ->
  exists suffix, Error (Wrap x err) = (Error x +:+ suffix)%string.
Proof.
  induction x as [c m|c m cause IH|m|a IHa b IHb]; intros Hx; try discriminate.
  - now exists (newline_tab +:+ Error err)%string.
  - cbn [Wrap]. destruct (is_xerror cause).
    + destruct IH as [suf Hsuf]; [done|]. exists suf.
      cbn [Error]. rewrite Hsuf. now rewrite !str_app_assoc.
    + exists (newline +:+ Error err)%string. cbn [Error]. now rewrite !str_app_assoc.
Qed.

Lemma Code_Wrap x err : Code (Wrap x err) = Code x.
Proof. destruct x as [| ? ? cause | |]; cbn; try destruct (is_xerror cause); done. Qed.

Lemma Msg_Wrap x err : Msg (Wrap x err) = Msg x.
Proof. destruct x as [| ? ? cause | |]; cbn; try destruct (is_xerror cause); done. Qed.

Lemma Contains_hit x o :
  (Code x =? Code o) && str_Contains (Error x) (Error o) = true -> Contains x o = true.
Proof. intros H; destruct x; cbn [Contains]; now rewrite H. Qed.

(** Wrapping keeps the code and the message of the outermost error, and the
    wrapped error still answers to the error it was made from. *)
Theorem Wrap_Contains x err :
  is_xerror x = true ->
  Code (Wrap x err) = Code x /\ Msg (Wrap x err) = Msg x /\ Contains (Wrap x err) x = true.
Proof.
  intros Hx. split; [apply Code_Wrap|]. split; [apply Msg_Wrap|].
  destruct (Error_Wrap_prefix x err Hx) as [suf Hsuf].
  apply Contains_hit. rewrite Code_Wrap, Z.eqb_refl, Hsuf.
  apply str_Contains_prefix, str_HasPrefix_app.
Qed.

Lemma Wrap_Contains_witness :
  Code (Wrap ErrInvalidNonce ErrInvalidGas) = Code ErrInvalidNonce /\
  Msg (Wrap ErrInvalidNonce ErrInvalidGas) = Msg ErrInvalidNonce /\
  Contains (Wrap ErrInvalidNonce ErrInvalidGas) ErrInvalidNonce = true.
Proof. apply (Wrap_Contains ErrInvalidNonce ErrInvalidGas). reflexivity. Defined.

(** [Contains] compares texts, so an error can answer to another one that is a
    prefix of its own message: a wrong gas price is also taken for wrong gas. *)
Example Contains_confuses_gas :
  Contains ErrInvalidGasPrice ErrInvalidGas = true /\
  Contains ErrInvalidGas ErrInvalidGasPrice = false.
Proof. split; vm_compute; reflexivity. Qed.
