(* ===== verification/GoMonad.v ===== *)
(** * GoMonad: outcomes, state passing and the object store

    A Go function that returns [(value, XError)] is modelled by an [outcome]:
    a value, an error, or a panic.  Stateful code is a function of type
    [M S A]: it gets the state before the call and returns the outcome and the
    state after it.  A returned error does not undo the writes made before it,
    so the state is threaded through errors and panics too.

    Objects reached through a pointer live in a [store]; a pointer is a [loc].
    [wp m Q s] says that running [m] from [s] ends in an outcome and a state
    that satisfy [Q]; as every model is a total function it covers values,
    errors and panics alike. *)
From stdpp Require Import base gmap list strings.
From Stdlib Require Import ZArith Lia.
From S2P Require Import Prelude XErrors.

Inductive outcome (A : Type) : Type :=
| Ok (a : A)
| Err (e : error)
| Panic.
Arguments Ok {A} _.
Arguments Err {A} _.
Arguments Panic {A}.

#[global] Instance outcome_eq_dec {A} `{EqDecision A} : EqDecision (outcome A).
Proof. solve_decision. Defined.

Definition obind {A B} (o : outcome A) (f : A -> outcome B) : outcome B :=
  match o with
  | Ok a => f a
  | Err e => Err e
  | Panic => Panic
  end.

Definition is_ok {A} (o : outcome A) : bool :=
  match o with Ok _ => true | _ => false end.

Definition M (S A : Type) : Type := S -> outcome A * S.

Definition ret {S A} (a : A) : M S A := fun s => (Ok a, s).
Definition throw {S A} (e : error) : M S A := fun s => (Err e, s).
Definition panic {S A} : M S A := fun s => (Panic, s).

Definition bind {S A B} (m : M S A) (f : A -> M S B) : M S B :=
  fun s =>
    match m s with
    | (Ok a, s') => f a s'
    | (Err e, s') => (Err e, s')
    | (Panic, s') => (Panic, s')
    end.

Definition lift {S A} (o : outcome A) : M S A := fun s => (o, s).
Definition gets {S A} (f : S -> A) : M S A := fun s => (Ok (f s), s).
Definition modify {S} (f : S -> S) : M S unit := fun s => (Ok tt, f s).

(** [v, xerr := m()]: the error becomes a value the caller inspects. *)
Definition try {S A} (m : M S A) : M S (A + error) :=
  fun s =>
    match m s with
    | (Ok a, s') => (Ok (inl a), s')
    | (Err e, s') => (Ok (inr e), s')
    | (Panic, s') => (Panic, s')
    end.

(** [_ = m()]: the error is dropped. *)
Definition ignore {S A} (m : M S A) : M S unit :=
  fun s =>
    match m s with
    | (Panic, s') => (Panic, s')
    | (_, s') => (Ok tt, s')
    end.

(** [defer d()] around [m]: [d] runs when [m] returns a value or an error, and
    the value or error [m] returned stands. *)
Definition with_defer {S A} (m : M S A) (d : M S unit) : M S A :=
  fun s =>
    match m s with
    | (Panic, s') => (Panic, s')
    | (o, s') =>
        match d s' with
        | (Panic, s'') => (Panic, s'')
        | (_, s'') => (o, s'')
        end
    end.

Notation "'let!' x := m 'in' k" := (bind m (fun x => k))
  (at level 10, x binder, m at level 200, k at level 200,
   format "'[v' 'let!'  x  :=  m  'in' '/' k ']'") : go_scope.
Notation "m ;;; k" := (bind m (fun _ => k))
  (at level 199, k at level 200, right associativity, format "'[v' m ;;; '/' k ']'")
  : go_scope.

(** [for _, x := range l { body }] with an early return on error. *)
Fixpoint for_each {S A} (l : list A) (body : A -> M S unit) : M S unit :=
  match l with
  | [] => ret tt
  | x :: l' => body x ;;; for_each l' body
  end.

(** A part of a state, and running code on the part. *)
Record lens (S L : Type) := Lens {
  lget : S -> L;
  lset : L -> S -> S;
  lget_lset : forall l s, lget (lset l s) = l;
  lset_lget : forall s, lset (lget s) s = s;
  lset_lset : forall l l' s, lset l (lset l' s) = lset l s;
}.
Arguments Lens {S L} _ _ _ _ _.
Arguments lget {S L} _ _.
Arguments lset {S L} _ _ _.

Definition zoom {S L A} (ln : lens S L) (m : M L A) : M S A :=
  fun s => let '(o, l) := m (lget ln s) in (o, lset ln l s).

Program Definition fst_lens {A B} : lens (A * B) A :=
  Lens fst (fun a s => (a, snd s)) _ _ _.
Next Obligation. done. Qed.
Next Obligation. now intros ? ? []. Qed.
Next Obligation. done. Qed.

Program Definition snd_lens {A B} : lens (A * B) B :=
  Lens snd (fun b s => (fst s, b)) _ _ _.
Next Obligation. done. Qed.
Next Obligation. now intros ? ? []. Qed.
Next Obligation. done. Qed.

Program Definition lens_comp {S L K} (l1 : lens S L) (l2 : lens L K) : lens S K :=
  Lens (fun s => lget l2 (lget l1 s)) (fun k s => lset l1 (lset l2 k (lget l1 s)) s) _ _ _.
Next Obligation. intros; cbn. now rewrite !lget_lset. Qed.
Next Obligation. intros; cbn. now rewrite !lset_lget. Qed.
Next Obligation. intros; cbn. now rewrite lget_lset, !lset_lset. Qed.

(** Code with a local variable a closure assigns to: the variable's final value
    is returned with the value or error of the code. *)
Definition run_var {S B A} (b0 : B) (m : M (S * B) A) : M S ((A + error) * B) :=
  fun s =>
    match m (s, b0) with
    | (Ok a, (s', b)) => (Ok (inl a, b), s')
    | (Err e, (s', b)) => (Ok (inr e, b), s')
    | (Panic, (s', _)) => (Panic, s')
    end.

(** [return] the value or error of a call. *)
Definition untry {S A} (r : A + error) : M S A :=
  match r with
  | inl a => ret a
  | inr e => throw e
  end.

(** [for _, x := range l] that collects a value per element. *)
Fixpoint map_each {S A B} (l : list A) (body : A -> M S B) : M S (list B) :=
  match l with
  | [] => ret []
  | x :: l' => let! y := body x in let! ys := map_each l' body in ret (y :: ys)
  end.

(** ** Weakest preconditions *)

Definition wp {S A} (m : M S A) (Q : outcome A -> S -> Prop) (s : S) : Prop :=
  Q (fst (m s)) (snd (m s)).

Arguments wp : simpl never.

(** The postcondition of a computation that must return a value. *)
Definition okQ {S A} (Q : A -> S -> Prop) (o : outcome A) (s : S) : Prop :=
  match o with Ok a => Q a s | _ => False end.

Section Wp.
Context {S : Type}.

Lemma wp_ret {A} (a : A) Q (s : S) : Q (Ok a) s -> wp (ret a) Q s.
Proof. done. Qed.

Lemma wp_throw {A} e Q (s : S) : Q (@Err A e) s -> wp (throw e) Q s.
Proof. done. Qed.

Lemma wp_lift {A} (o : outcome A) Q (s : S) : Q o s -> wp (lift o) Q s.
Proof. done. Qed.

Lemma wp_gets {A} (f : S -> A) Q s : Q (Ok (f s)) s -> wp (gets f) Q s.
Proof. done. Qed.

Lemma wp_modify (f : S -> S) Q s : Q (Ok tt) (f s) -> wp (modify f) Q s.
Proof. done. Qed.

Lemma wp_bind {A B} (m : M S A) (f : A -> M S B) Q s :
  wp m (fun o s' => match o with
                    | Ok a => wp (f a) Q s'
                    | Err e => Q (Err e) s'
                    | Panic => Q Panic s'
                    end) s ->
  wp (bind m f) Q s.
Proof. unfold wp, bind; destruct (m s) as [[a|e|] s']; done. Qed.

Lemma wp_bind_assoc {A B C} (m : M S A) (f : A -> M S B) (g : B -> M S C) Q s :
  wp (bind (bind m f) g) Q s -> wp (bind m (fun a => bind (f a) g)) Q s.
Proof. unfold wp, bind; destruct (m s) as [[a|e|] s']; done. Qed.

Lemma wp_try {A} (m : M S A) Q s :
  wp m (fun o s' => match o with
                    | Ok a => Q (Ok (inl a)) s'
                    | Err e => Q (Ok (inr e)) s'
                    | Panic => Q Panic s'
                    end) s ->
  wp (try m) Q s.
Proof. unfold wp, try; destruct (m s) as [[a|e|] s']; done. Qed.

Lemma wp_ignore {A} (m : M S A) Q s :
  wp m (fun o s' => match o with
                    | Panic => Q Panic s'
                    | _ => Q (Ok tt) s'
                    end) s ->
  wp (ignore m) Q s.
Proof. unfold wp, ignore; destruct (m s) as [[a|e|] s']; done. Qed.

Lemma wp_mono {A} (m : M S A) (P Q : outcome A -> S -> Prop) s :
  wp m P s -> (forall o s', P o s' -> Q o s') -> wp m Q s.
Proof. unfold wp; auto. Qed.

Lemma wp_zoom {L A} (ln : lens S L) (m : M L A) Q s :
  wp m (fun o l => Q o (lset ln l s)) (lget ln s) -> wp (zoom ln m) Q s.
Proof. unfold wp, zoom; destruct (m (lget ln s)); done. Qed.

(** A loop keeps an invariant that its body keeps and returns a value when
    every iteration does. *)
Lemma wp_for_each {A} (l : list A) (body : A -> M S unit) (P : list A -> S -> Prop) s :
  P l s ->
  (forall x l' s', P (x :: l') s' -> wp (body x) (okQ (fun _ => P l')) s') ->
  wp (for_each l body) (okQ (fun _ => P [])) s.
Proof.
  intros H0 Hstep; revert s H0; induction l as [|x l IH]; intros s H0; cbn [for_each].
  - now apply wp_ret.
  - apply wp_bind. eapply wp_mono; [apply Hstep, H0|].
    intros [[]|e|] s' HP; try done. apply IH, HP.
Qed.

End Wp.

Lemma wp_run_var {S B X} (b0 : B) (n : M (S * B) X) Q (s : S) :
  wp n (fun o st => match o with
                    | Ok a => Q (Ok (inl a, snd st)) (fst st)
                    | Err e => Q (Ok (inr e, snd st)) (fst st)
                    | Panic => Q Panic (fst st)
                    end) (s, b0) ->
  wp (run_var b0 n) Q s.
Proof. unfold wp, run_var. destruct (n (s, b0)) as [[a|e|] [s' b]]; done. Qed.

(** ** Objects behind pointers *)

Abbreviation loc := positive.

Record store (Item : Type) := Store {
  objs : gmap loc Item;
  fresh : loc;
}.
Arguments Store {Item} _ _.
Arguments objs {Item} _.
Arguments fresh {Item} _.

Definition empty_store {Item} : store Item := Store ∅ 1%positive.

Definition store_wf {Item} (st : store Item) : Prop :=
  forall l x, objs st !! l = Some x -> (l < fresh st)%positive.

Section Store.
Context {Item : Type}.
Implicit Types (st : store Item) (x : Item).

(** [&T{...}] *)
Definition alloc (x : Item) : M (store Item) loc :=
  fun st => (Ok (fresh st), Store (<[fresh st := x]> (objs st)) (Pos.succ (fresh st))).

(** [*p]; dereferencing a dangling pointer cannot happen in Go, and is a panic
    here as a [nil] dereference is. *)
Definition deref (l : loc) : M (store Item) Item :=
  fun st => match objs st !! l with
            | Some x => (Ok x, st)
            | None => (Panic, st)
            end.

(** An assignment through the pointer. *)
Definition assign (l : loc) (x : Item) : M (store Item) unit :=
  fun st => (Ok tt, Store (<[l := x]> (objs st)) (fresh st)).

Lemma store_wf_alloc st x :
  store_wf st -> store_wf (Store (<[fresh st := x]> (objs st)) (Pos.succ (fresh st))).
Proof.
  intros Hwf l y; cbn. destruct (decide (l = fresh st)) as [->|Hne]; [lia|].
  rewrite lookup_insert_ne by done. intros Hl; specialize (Hwf _ _ Hl); lia.
Qed.

Lemma store_fresh_None st : store_wf st -> objs st !! fresh st = None.
Proof.
  intros Hwf; destruct (objs st !! fresh st) eqn:E; [|done].
  specialize (Hwf _ _ E); lia.
Qed.

Lemma store_wf_assign st l x :
  store_wf st -> is_Some (objs st !! l) ->
  store_wf (Store (<[l := x]> (objs st)) (fresh st)).
Proof.
  intros Hwf [y Hy] l' z; cbn. destruct (decide (l' = l)) as [->|Hne].
  - intros _. eapply Hwf; eauto.
  - rewrite lookup_insert_ne by done. apply Hwf.
Qed.

End Store.

#[export] Hint Resolve wp_ret wp_throw wp_lift wp_gets wp_modify : go.
#[export] Hint Resolve store_wf_alloc store_wf_assign : go.
