(* ===== verification/LedgerKeys.v ===== *)
(** * LedgerKeys: the keys of the state ledgers ([ledger/v1/ledger_keys.go])

    Every item of every ledger is stored under a one-byte prefix that names its
    kind followed by the bytes that identify it.  The theorems say that the
    encoding never confuses two items and that the prefixes used by [Seek]
    select exactly the items meant. *)
From stdpp Require Import base gmap list strings.
From Stdlib Require Import ZArith Lia.
From S2P Require Import Prelude XErrors GoMonad.

Abbreviation LedgerKey := bytes.
Abbreviation Address := bytes.

Section Prefixes.

Definition KeyPrefixAccount : bytes := [0].
Definition KeyPrefixGovParams : bytes := [16].
Definition KeyPrefixProposal : bytes := [17].
Definition KeyPrefixFrozenProp : bytes := [18].
Definition KeyPrefixDelegatee : bytes := [32].
Definition KeyPrefixVPower : bytes := [33].
Definition KeyPrefixFrozenVPower : bytes := [34].
Definition KeyPrefixMissedBlockCount : bytes := [35].
Definition KeyPrefixTotalSupply : bytes := [48].
Definition KeyPrefixReward : bytes := [50].

End Prefixes.

Definition LedgerKeyProposal (txhash : bytes) : LedgerKey := KeyPrefixProposal ++ txhash.
Definition LedgerKeyFrozenProp (txhash : bytes) : LedgerKey := KeyPrefixFrozenProp ++ txhash.
Definition LedgerKeyAccount (addr : Address) : LedgerKey := KeyPrefixAccount ++ addr.
Definition LedgerKeyGovParams : LedgerKey := KeyPrefixGovParams.
Definition LedgerKeyVPower (from to : Address) : LedgerKey := KeyPrefixVPower ++ from ++ to.
Definition LedgerKeyDelegatee (addr : Address) : LedgerKey := KeyPrefixDelegatee ++ addr.

(** The height is written as eight big-endian bytes of [uint64(h)]. *)
Definition LedgerKeyFrozenVPower (h : Z) (from : Address) : LedgerKey :=
  KeyPrefixFrozenVPower ++ put_be 8 (u64 h) ++ from.

Definition LedgerKeyMissedBlockCount (signer : Address) : LedgerKey :=
  KeyPrefixMissedBlockCount ++ signer.

(** The six bytes of the text supply. *)
Definition supply_text : bytes := [115; 117; 112; 112; 108; 121].

Definition LedgerKeyTotalSupply : LedgerKey := KeyPrefixTotalSupply ++ supply_text.
Definition LedgerKeyReward (owner : Address) : LedgerKey := KeyPrefixReward ++ owner.

(** [key[1:]]; slicing an empty key panics. *)
Definition UnwrapKeyPrefix (key : LedgerKey) : outcome bytes :=
  match key with
  | [] => Panic
  | _ :: rest => Ok rest
  end.

Definition AddrSize : nat := 20.

(** ** No two items share a key *)

(** What a key stands for. *)
Inductive key_kind : Type :=
| KAccount (addr : Address)
| KGovParams
| KProposal (txhash : bytes)
| KFrozenProp (txhash : bytes)
| KDelegatee (addr : Address)
| KVPower (from to : Address)
| KFrozenVPower (h : Z) (from : Address)
| KMissedBlockCount (signer : Address)
| KTotalSupply
| KReward (owner : Address).

Definition key_bytes (k : key_kind) : LedgerKey :=
  match k with
  | KAccount a => LedgerKeyAccount a
  | KGovParams => LedgerKeyGovParams
  | KProposal h => LedgerKeyProposal h
  | KFrozenProp h => LedgerKeyFrozenProp h
  | KDelegatee a => LedgerKeyDelegatee a
  | KVPower f t => LedgerKeyVPower f t
  | KFrozenVPower h f => LedgerKeyFrozenVPower h f
  | KMissedBlockCount a => LedgerKeyMissedBlockCount a
  | KTotalSupply => LedgerKeyTotalSupply
  | KReward a => LedgerKeyReward a
  end.

(** Delegator addresses are 20 bytes long and heights are [int64]s. *)
Definition key_wf (k : key_kind) : Prop :=
  match k with
  | KVPower f t => length f = AddrSize
  | KFrozenVPower h f => in_i64 h
  | _ => True
  end.

Lemma u64_inj h1 h2 : in_i64 h1 -> in_i64 h2 -> u64 h1 = u64 h2 -> h1 = h2.
Proof.
  unfold in_i64, u64; intros H1 H2 H.
  rewrite <- (i64_id h1), <- (i64_id h2) by done. now apply eqm64_i64.
Qed.

Lemma put_be8_u64_inj h1 h2 :
  in_i64 h1 -> in_i64 h2 -> put_be 8 (u64 h1) = put_be 8 (u64 h2) -> h1 = h2.
Proof.
  intros H1 H2 H. apply put_be_inj in H. apply u64_inj; auto.
  change (256 ^ Z.of_nat 8) with (2 ^ 64) in H. unfold u64 in *.
  now rewrite !Z.mod_mod in H by lia.
Qed.

Lemma app_inj_len {A} (a1 a2 b1 b2 : list A) :
  length a1 = length a2 -> a1 ++ b1 = a2 ++ b2 -> a1 = a2 /\ b1 = b2.
Proof. intros HL H. now apply app_inj_1 in H. Qed.

Lemma LedgerKeyVPower_inj f1 t1 f2 t2 :
  length f1 = length f2 ->
  LedgerKeyVPower f1 t1 = LedgerKeyVPower f2 t2 -> f1 = f2 /\ t1 = t2.
Proof. intros HL [= H]. now apply app_inj_len. Qed.

Lemma LedgerKeyFrozenVPower_inj h1 f1 h2 f2 :
  in_i64 h1 -> in_i64 h2 ->
  LedgerKeyFrozenVPower h1 f1 = LedgerKeyFrozenVPower h2 f2 -> h1 = h2 /\ f1 = f2.
Proof.
  intros H1 H2 H. unfold LedgerKeyFrozenVPower, KeyPrefixFrozenVPower in H.
  apply (app_inj_len [34] [34]) in H as [_ H]; [|done].
  apply app_inj_len in H as [Hh Hf]; [|now rewrite !length_put_be].
  split; [|done]. now apply put_be8_u64_inj.
Qed.

(** The encoding of what a key stands for is injective: an account, a voting
    power, a frozen power, a proposal, a reward ... never overwrite each other. *)
Theorem key_bytes_inj (a b : key_kind) :
  key_wf a -> key_wf b -> key_bytes a = key_bytes b -> a = b.
Proof.
  destruct a, b; cbn [key_wf key_bytes]; intros Ha Hb H;
    try (unfold LedgerKeyAccount, LedgerKeyGovParams, LedgerKeyProposal,
      LedgerKeyFrozenProp, LedgerKeyDelegatee, LedgerKeyVPower, LedgerKeyFrozenVPower,
      LedgerKeyMissedBlockCount, LedgerKeyTotalSupply, LedgerKeyReward in H; discriminate H);
    try reflexivity; try (injection H as ->; reflexivity).
  - apply LedgerKeyVPower_inj in H as [-> ->]; [done|congruence].
  - apply LedgerKeyFrozenVPower_inj in H as [-> ->]; done.
Qed.

Lemma key_bytes_inj_witness :
  KVPower (repeat 1 20) [2; 3] = KVPower (repeat 1 19 ++ [1]) ([2] ++ [3]).
Proof. apply (key_bytes_inj (KVPower (repeat 1 20) [2; 3])); vm_compute; reflexivity. Defined.

(** ** The prefixes of [Seek] *)

(** Scanning from [LedgerKeyFrozenVPower(h, nil)] meets exactly the powers
    frozen until height [h]. *)
Lemma frozen_prefix_iff h h' f :
  in_i64 h -> in_i64 h' ->
  bytes_HasPrefix (LedgerKeyFrozenVPower h' f) (LedgerKeyFrozenVPower h []) = true <-> h = h'.
Proof.
  intros Hh Hh'. rewrite bytes_HasPrefix_spec. unfold LedgerKeyFrozenVPower. split.
  - intros [t H]. rewrite app_nil_r in H.
    unfold KeyPrefixFrozenVPower in H. rewrite <- app_assoc in H.
    apply (app_inj_len [34] [34]) in H as [_ H]; [|done].
    apply app_inj_len in H as [H _]; [|now rewrite !length_put_be].
    symmetry; now apply put_be8_u64_inj.
  - intros ->. exists f. now rewrite app_nil_r, app_assoc.
Qed.

(** Scanning from [LedgerKeyVPower(from, nil)] meets exactly the powers [from]
    delegates. *)
Lemma vpower_prefix_iff from f t :
  length from = length f ->
  bytes_HasPrefix (LedgerKeyVPower f t) (LedgerKeyVPower from []) = true <-> from = f.
Proof.
  intros HL. rewrite bytes_HasPrefix_spec. unfold LedgerKeyVPower. split.
  - intros [u H]. rewrite app_nil_r, <- app_assoc in H.
    unfold KeyPrefixVPower in H. apply (app_inj_len [33] [33]) in H as [_ H]; [|done].
    now apply app_inj_len in H as [-> _].
  - intros ->. exists t. now rewrite app_nil_r, app_assoc.
Qed.
