(* ===== verification/Iavl.v ===== *)
(** * Iavl: what the ledgers rely on of the [cosmos/iavl] package

    The merkle tree that stores the state is a third-party package: here it is
    a pair of types with the operations the code calls ([Iavl]) and the
    documented behaviour the theorems rely on ([IavlLaws]): a versioned map from
    byte strings to byte strings, iterated in key order.  [RefTree] is a
    concrete tree that satisfies the laws; the witnesses run on it. *)
From stdpp Require Import base gmap list strings.
From Stdlib Require Import ZArith Lia Permutation Sorted.
From S2P Require Import Prelude XErrors GoMonad.

(** [T] is [*iavl.MutableTree], [I] is [*iavl.ImmutableTree]; [None] is the
    [nil] slice for a value, the [nil] pointer for an immutable tree. *)
Class Iavl (T I : Type) : Type := {
  tree_Get : T -> bytes -> outcome (option bytes);
  tree_Set : T -> bytes -> bytes -> outcome T;
  tree_Remove : T -> bytes -> outcome (option bytes * bool * T);
  tree_Iterator : T -> bytes -> bool -> outcome (list (bytes * bytes));
  tree_SaveVersion : T -> outcome (bytes * Z * T);
  tree_Version : T -> Z;
  tree_GetImmutable : T -> Z -> outcome I;
  imm_Get : option I -> bytes -> outcome (option bytes);
  imm_Iterator : I -> bytes -> bool -> outcome (list (bytes * bytes));
}.

Definition key_less (a b : bytes * bytes) : bool := bytes_Compare (fst a) (fst b) <? 0.

(** The entries of a map in key order. *)
Definition key_sorted (m : gmap bytes bytes) : list (bytes * bytes) :=
  go_sort key_less (map_to_list m).

(** The entries with a key not below [start], in key order. *)
Definition entries_from (m : gmap bytes bytes) (start : bytes) : list (bytes * bytes) :=
  filter (fun kv => (bytes_Compare start (fst kv) <=? 0) = true) (key_sorted m).

Definition iteration (m : gmap bytes bytes) (start : bytes) (asc : bool) : list (bytes * bytes) :=
  if asc then entries_from m start else reverse (entries_from m start).

Class IavlLaws (T I : Type) `{Iavl T I} : Type := {
  contents : T -> gmap bytes bytes;
  imm_contents : I -> gmap bytes bytes;
  Version_nonneg : forall t, 0 <= tree_Version t;
  Get_law : forall t k, tree_Get t k = Ok (contents t !! k);
  Set_law : forall t k v, exists t',
    tree_Set t k v = Ok t' /\
    contents t' = <[k := v]> (contents t) /\
    tree_Version t' = tree_Version t /\
    forall ver, tree_GetImmutable t' ver = tree_GetImmutable t ver;
  Remove_law : forall t k, exists t',
    tree_Remove t k = Ok (contents t !! k, bool_decide (is_Some (contents t !! k)), t') /\
    contents t' = delete k (contents t) /\
    tree_Version t' = tree_Version t /\
    forall ver, tree_GetImmutable t' ver = tree_GetImmutable t ver;
  Iterator_law : forall t start asc,
    tree_Iterator t start asc = Ok (iteration (contents t) start asc);
  SaveVersion_law : forall t, exists hash t' i,
    tree_SaveVersion t = Ok (hash, tree_Version t + 1, t') /\
    contents t' = contents t /\
    tree_Version t' = tree_Version t + 1 /\
    tree_GetImmutable t' (tree_Version t + 1) = Ok i /\
    imm_contents i = contents t /\
    forall ver, ver <= tree_Version t -> tree_GetImmutable t' ver = tree_GetImmutable t ver;
  imm_Get_law : forall i k, imm_Get (Some i) k = Ok (imm_contents i !! k);
  imm_Iterator_law : forall i start asc,
    imm_Iterator i start asc = Ok (iteration (imm_contents i) start asc);
}.

(** ** Key order *)

Lemma key_less_false_trans x y z :
  key_less x y = false -> key_less y z = false -> key_less x z = false.
Proof.
  unfold key_less; rewrite !Z.ltb_ge; intros Hxy Hyz.
  destruct (Z_lt_le_dec (bytes_Compare (fst x) (fst z)) 0) as [Hxz|]; [|lia].
  destruct (Z.eq_dec (bytes_Compare (fst x) (fst y)) 0) as [E|E].
  { apply bytes_Compare_eq in E; rewrite E in Hxz; lia. }
  assert (Hyx : bytes_Compare (fst y) (fst x) < 0)
    by (rewrite bytes_Compare_antisym; lia).
  pose proof (bytes_Compare_trans _ _ _ Hyx Hxz); lia.
Qed.

Lemma key_less_asym x y : key_less x y = true -> key_less y x = false.
Proof.
  unfold key_less; rewrite Z.ltb_lt, Z.ltb_ge.
  rewrite (bytes_Compare_antisym (fst y)). lia.
Qed.

Lemma elem_of_key_sorted m k v : (k, v) ∈ key_sorted m <-> m !! k = Some v.
Proof. unfold key_sorted. now rewrite elem_of_go_sort, elem_of_map_to_list. Qed.

Lemma key_sorted_sorted m : StronglySorted (not_after key_less) (key_sorted m).
Proof. apply go_sort_sorted; [apply key_less_false_trans | apply key_less_asym]. Qed.

Lemma NoDup_key_sorted m : NoDup (map fst (key_sorted m)).
Proof.
  unfold key_sorted.
  rewrite (Permutation_map fst (go_sort_perm key_less (map_to_list m))).
  apply NoDup_fst_map_to_list.
Qed.

Lemma elem_of_entries_from m start k v :
  (k, v) ∈ entries_from m start <-> bytes_Compare start k <= 0 /\ m !! k = Some v.
Proof.
  unfold entries_from. rewrite list_elem_of_filter, elem_of_key_sorted; cbn.
  now rewrite Z.leb_le.
Qed.

(** ** A reference tree *)

Module RefTree.

Record tree := Tree {
  cur : gmap bytes bytes;
  version : nat;
  saved : gmap Z (gmap bytes bytes);
}.

Definition empty : tree := Tree ∅ 0 ∅.

Definition find_version (t : tree) (v : Z) : outcome (gmap bytes bytes) :=
  match saved t !! v with
  | Some m => Ok m
  | None => Err (GoError "version does not exist")
  end.

End RefTree.

#[global] Instance RefTree_iavl : Iavl RefTree.tree (gmap bytes bytes) := {
  tree_Get t k := Ok (RefTree.cur t !! k);
  tree_Set t k v :=
    Ok (RefTree.Tree (<[k := v]> (RefTree.cur t)) (RefTree.version t) (RefTree.saved t));
  tree_Remove t k :=
    Ok (RefTree.cur t !! k, bool_decide (is_Some (RefTree.cur t !! k)),
        RefTree.Tree (delete k (RefTree.cur t)) (RefTree.version t) (RefTree.saved t));
  tree_Iterator t start asc := Ok (iteration (RefTree.cur t) start asc);
  tree_SaveVersion t :=
    let v := Z.of_nat (RefTree.version t) + 1 in
    Ok ([], v, RefTree.Tree (RefTree.cur t) (S (RefTree.version t))
                 (<[v := RefTree.cur t]> (RefTree.saved t)));
  tree_Version t := Z.of_nat (RefTree.version t);
  tree_GetImmutable := RefTree.find_version;
  imm_Get i k :=
    match i with
    | Some m => Ok (m !! k)
    | None => Panic
    end;
  imm_Iterator m start asc := Ok (iteration m start asc);
}.

#[global] Program Instance RefTree_laws : IavlLaws RefTree.tree (gmap bytes bytes) := {
  contents := RefTree.cur;
  imm_contents := fun m => m;
}.
Next Obligation. intros; cbn; lia. Qed.
Next Obligation. done. Qed.
Next Obligation. intros; eexists; repeat split. Qed.
Next Obligation. intros; eexists; repeat split. Qed.
Next Obligation. done. Qed.
Next Obligation.
  intros t. do 3 eexists. split; [reflexivity|]. repeat split.
  - cbn. lia.
  - cbn. unfold RefTree.find_version; cbn. now rewrite lookup_insert_eq.
  - intros ver Hver. cbn in *. unfold RefTree.find_version; cbn.
    now rewrite lookup_insert_ne by lia.
Qed.
Next Obligation. done. Qed.
Next Obligation. done. Qed.
