(* ===== verification/Ledger.v ===== *)
(** * Ledger: the state ledgers of [ledger/v1]

    [MutableLedger] is the ledger transactions are delivered to, a merkle tree
    with a list of revisions to undo and a cache of decoded objects.
    [MemLedger] is the ledger transactions are checked against, an immutable
    tree of a committed version under an in-memory overlay.  [StateLedger] pairs
    the two and chooses by the [exec] flag.

    Items are objects behind pointers: [MutableLedger.Get] returns the pointer
    kept in [cachedObjs], so two callers that get the same key share the object,
    while [MemLedger.Get] decodes a new object at every call.  The store of
    objects is therefore part of the ledger's state. *)
From stdpp Require Import base gmap list.
From Stdlib Require Import ZArith Lia.
From S2P Require Import Prelude XErrors GoMonad LedgerKeys Iavl.

(** [ILedgerItem] with the constructor [FuncNewItemFor] of the ledger. *)
Class LedgerItem (Item : Type) : Type := {
  newItemFor : LedgerKey -> outcome Item;
  Encode : Item -> outcome bytes;
  Decode : Item -> bytes -> bytes -> outcome Item;
}.

(** A revision: a key and the value it had, [None] when it had none. *)
Definition kvPair : Type := bytes * option bytes.

(** [revisionList] *)
Section RevisionList.

Definition revisionList : Type := list kvPair.

Definition rev_set (revs : revisionList) (key : bytes) (val : option bytes) : revisionList :=
  revs ++ [(key, val)].

Definition rev_snapshot (revs : revisionList) : Z := Z.of_nat (length revs).

(** [revs[:snap]] *)
Definition rev_revert (revs : revisionList) (snap : Z) : revisionList :=
  take (Z.to_nat snap) revs.

(** [reset] has a value receiver: it assigns to a copy of the list. *)
Definition rev_reset (revs : revisionList) : revisionList := revs.

End RevisionList.

Section Ledger.
Context {Item T I : Type} `{LedgerItem Item} `{Iavl T I}.

Record MutableLedger := MkMutableLedger {
  tree : T;
  revisions : revisionList;
  cachedObjs : gmap bytes loc;
}.

Record MemLedger := MkMemLedger {
  immuTree : option I;
  memStorage : gmap bytes (option bytes);
  mrevisions : revisionList;
}.

Record StateLedger := MkStateLedger {
  commitLedger : MutableLedger;
  imitableLedger : MemLedger;
}.

(** A ledger together with the objects its items live in. *)
Record LState := MkLState {
  lstore : store Item;
  ledger : StateLedger;
}.

Definition set_commit (f : MutableLedger -> MutableLedger) (s : LState) : LState :=
  MkLState (lstore s)
    (MkStateLedger (f (commitLedger (ledger s))) (imitableLedger (ledger s))).

Definition set_imitable (f : MemLedger -> MemLedger) (s : LState) : LState :=
  MkLState (lstore s)
    (MkStateLedger (commitLedger (ledger s)) (f (imitableLedger (ledger s)))).

Definition with_tree (t : T) (m : MutableLedger) : MutableLedger :=
  MkMutableLedger t (revisions m) (cachedObjs m).
Definition with_revisions (r : revisionList) (m : MutableLedger) : MutableLedger :=
  MkMutableLedger (tree m) r (cachedObjs m).
Definition with_cache (c : gmap bytes loc) (m : MutableLedger) : MutableLedger :=
  MkMutableLedger (tree m) (revisions m) c.

Program Definition store_lens : lens LState (store Item) :=
  Lens lstore (fun st s => MkLState st (ledger s)) _ _ _.
Solve Obligations with (by repeat intros []).

Definition l_alloc (x : Item) : M LState loc := zoom store_lens (alloc x).
Definition l_deref (l : loc) : M LState Item := zoom store_lens (deref l).
Definition l_assign (l : loc) (x : Item) : M LState unit := zoom store_lens (assign l x).

(** [item := newItemFor(key); item.Decode(key, bz)] *)
Definition decode_at (key bz : bytes) : outcome Item :=
  obind (newItemFor key) (fun item => Decode item key bz).

(** [xerrors.From(err)] on the error of a call. *)
Definition from_err {A} (o : outcome A) : outcome A :=
  match o with
  | Err e => Err (From_ e)
  | other => other
  end.

(** [unsafe.String(&key[0], len(key))] panics on an empty key. *)
Definition keystr (key : bytes) : outcome bytes :=
  match key with
  | [] => Panic
  | _ => Ok key
  end.

(** [bytes.Compare(oldVal, newVal) != 0]: a [nil] slice compares as empty. *)
Definition value_changed (old : option bytes) (new : bytes) : bool :=
  negb (bytes_Compare (default [] old) new =? 0).

(** ** MutableLedger *)

Definition get_tree : M LState T := gets (fun s => tree (commitLedger (ledger s))).

Definition mut_get (key : bytes) : M LState loc :=
  let! t := get_tree in
  let! bz := lift (from_err (tree_Get t key)) in
  match bz with
  | None => throw ErrNotFoundResult
  | Some b => let! item := lift (decode_at key b) in l_alloc item
  end.

Definition mut_Get (key : bytes) : M LState loc :=
  let! k := lift (keystr key) in
  let! cached := gets (fun s => cachedObjs (commitLedger (ledger s)) !! k) in
  match cached with
  | Some obj => ret obj
  | None =>
      let! item := mut_get key in
      modify (set_commit (fun m => with_cache (<[k := item]> (cachedObjs m)) m)) ;;;
      ret item
  end.

Definition mut_set (key : bytes) (item : loc) : M LState unit :=
  let! t := get_tree in
  let! oldVal := lift (from_err (tree_Get t key)) in
  let! x := l_deref item in
  let! newVal := lift (Encode x) in
  let! t' := lift (from_err (tree_Set t key newVal)) in
  modify (set_commit (with_tree t')) ;;;
  (if value_changed oldVal newVal
   then modify (set_commit (fun m => with_revisions (rev_set (revisions m) key oldVal) m))
   else ret tt).

Definition mut_Set (key : bytes) (item : loc) : M LState unit :=
  mut_set key item ;;;
  let! k := lift (keystr key) in
  modify (set_commit (fun m => with_cache (<[k := item]> (cachedObjs m)) m)).

Definition mut_Del (key : bytes) : M LState unit :=
  let! t := get_tree in
  let! r := lift (from_err (tree_Remove t key)) in
  let '(oldVal, removed, t') := r in
  modify (set_commit (with_tree t')) ;;;
  (if (removed : bool)
   then modify (set_commit (fun m => with_revisions (rev_set (revisions m) key oldVal) m))
   else ret tt) ;;;
  let! k := lift (keystr key) in
  modify (set_commit (fun m => with_cache (delete k (cachedObjs m)) m)).

Definition mut_Snapshot : M LState Z :=
  gets (fun s => rev_snapshot (revisions (commitLedger (ledger s)))).

(** One step of the loop of [RevertToSnapshot]. *)
Definition mut_restore (kv : kvPair) : M LState unit :=
  let '(key, val) := kv in
  let! t := get_tree in
  match val with
  | Some v =>
      let! t' := lift (from_err (tree_Set t key v)) in
      modify (set_commit (with_tree t')) ;;;
      let! item := lift (decode_at key v) in
      let! k := lift (keystr key) in
      let! l := l_alloc item in
      modify (set_commit (fun m => with_cache (<[k := l]> (cachedObjs m)) m))
  | None =>
      let! r := lift (from_err (tree_Remove t key)) in
      modify (set_commit (with_tree (snd r))) ;;;
      let! k := lift (keystr key) in
      modify (set_commit (fun m => with_cache (delete k (cachedObjs m)) m))
  end.

(** [revs[snap:]] panics when [snap] is out of range. *)
Definition rev_from (revs : revisionList) (snap : Z) : outcome revisionList :=
  if (snap <? 0) || (rev_snapshot revs <? snap) then Panic
  else Ok (drop (Z.to_nat snap) revs).

Definition mut_RevertToSnapshot (snap : Z) : M LState unit :=
  let! revs := gets (fun s => revisions (commitLedger (ledger s))) in
  let! restores := lift (rev_from revs snap) in
  for_each (reverse restores) mut_restore ;;;
  modify (set_commit (fun m => with_revisions (rev_revert (revisions m) snap) m)).

Definition mut_Commit : M LState (bytes * Z) :=
  let! t := get_tree in
  let! r := lift (from_err (tree_SaveVersion t)) in
  let '(hash, ver, t') := r in
  modify (set_commit (fun m =>
    MkMutableLedger t' (rev_reset (revisions m)) ∅)) ;;;
  ret (hash, ver).

Definition mut_Version : M LState Z :=
  gets (fun s => tree_Version (tree (commitLedger (ledger s)))).

Definition mut_GetReadOnlyTree (ver : Z) : M LState I :=
  let! t := get_tree in lift (from_err (tree_GetImmutable t ver)).

(** ** MemLedger *)

Definition mem_findRawBytes (ml : MemLedger) (key : bytes) : outcome bytes :=
  obind (keystr key) (fun k =>
  obind (match memStorage ml !! k with
         | Some bz => Ok bz
         | None => from_err (imm_Get (immuTree ml) key)
         end) (fun bz =>
  match bz with
  | None => Err ErrNotFoundResult
  | Some b => Ok b
  end)).

Definition mem_get (ml : MemLedger) (key : bytes) : outcome Item :=
  obind (mem_findRawBytes ml key) (fun bz => decode_at key bz).

(** [Set]: the overlay's new contents, or the error with the overlay unchanged. *)
Definition mem_Set (ml : MemLedger) (key : bytes) (item : Item) : outcome MemLedger :=
  obind (keystr key) (fun k =>
  obind (match memStorage ml !! k with
         | Some old => Ok old
         | None => from_err (imm_Get (immuTree ml) key)
         end) (fun oldVal =>
  obind (Encode item) (fun newVal =>
  Ok (MkMemLedger (immuTree ml)
        (<[k := Some newVal]> (memStorage ml))
        (if value_changed oldVal newVal
         then rev_set (mrevisions ml) key oldVal
         else mrevisions ml))))).

Definition mem_Del (ml : MemLedger) (key : bytes) : outcome MemLedger :=
  obind (keystr key) (fun k =>
  Ok (MkMemLedger (immuTree ml)
        (<[k := None]> (memStorage ml))
        (match memStorage ml !! k with
         | Some oldVal => rev_set (mrevisions ml) key oldVal
         | None => mrevisions ml
         end))).

Definition mem_Snapshot (ml : MemLedger) : Z := rev_snapshot (mrevisions ml).

Fixpoint mem_restores (st : gmap bytes (option bytes)) (restores : list kvPair)
  : outcome (gmap bytes (option bytes)) :=
  match restores with
  | [] => Ok st
  | (key, val) :: rest =>
      obind (keystr key) (fun k => mem_restores (<[k := val]> st) rest)
  end.

Definition mem_RevertToSnapshot (ml : MemLedger) (snap : Z) : outcome MemLedger :=
  obind (rev_from (mrevisions ml) snap) (fun restores =>
  obind (mem_restores (memStorage ml) (reverse restores)) (fun st =>
  Ok (MkMemLedger (immuTree ml) st (rev_revert (mrevisions ml) snap)))).

(** [NewMemLedgerAt(ver, from, lg)] *)
Definition NewMemLedgerAt (ver : Z) : M LState MemLedger :=
  let! t := (if 0 <? ver
             then let! i := mut_GetReadOnlyTree ver in ret (Some i)
             else ret None) in
  ret (MkMemLedger t ∅ []).

(** ** StateLedger *)

(** An operation of the in-memory ledger as an operation of the whole. *)
Definition on_imitable (f : MemLedger -> outcome MemLedger) : M LState unit :=
  let! ml := gets (fun s => imitableLedger (ledger s)) in
  let! ml' := lift (f ml) in
  modify (set_imitable (fun _ => ml')).

Definition Version : M LState Z := mut_Version.

Definition Get (key : LedgerKey) (exec : bool) : M LState loc :=
  if exec then mut_Get key
  else
    let! ml := gets (fun s => imitableLedger (ledger s)) in
    let! item := lift (mem_get ml key) in
    l_alloc item.

Definition Set_ (key : LedgerKey) (item : loc) (exec : bool) : M LState unit :=
  if exec then mut_Set key item
  else let! x := l_deref item in on_imitable (fun ml => mem_Set ml key x).

Definition Del (key : LedgerKey) (exec : bool) : M LState unit :=
  if exec then mut_Del key else on_imitable (fun ml => mem_Del ml key).

Definition Snapshot (exec : bool) : M LState Z :=
  if exec then mut_Snapshot
  else gets (fun s => mem_Snapshot (imitableLedger (ledger s))).

Definition RevertToSnapshot (snap : Z) (exec : bool) : M LState unit :=
  if exec then mut_RevertToSnapshot snap
  else on_imitable (fun ml => mem_RevertToSnapshot ml snap).

Definition Commit : M LState (bytes * Z) :=
  let! r := mut_Commit in
  let '(hash, ver) := r in
  let! ml := NewMemLedgerAt ver in
  modify (set_imitable (fun _ => ml)) ;;;
  ret (hash, ver).

Definition ImitableLedgerAt (height : Z) : M LState MemLedger := NewMemLedgerAt height.

(** ** Iteration *)

(** The entries an iterator started at [prefix] yields in each ledger.  An
    in-memory ledger with no tree has nothing to iterate. *)
Definition seek_entries (prefix : bytes) (ascending exec : bool) : M LState (list (bytes * bytes)) :=
  if exec then
    let! t := get_tree in lift (from_err (tree_Iterator t prefix ascending))
  else
    let! ml := gets (fun s => imitableLedger (ledger s)) in
    match immuTree ml with
    | None => throw ErrNotFoundResult
    | Some i => lift (from_err (imm_Iterator i prefix ascending))
    end.

(** The loop of [Seek]: it ends at the first key without the prefix; every
    entry is decoded into an object of its own and given to the callback, whose
    error ends the loop. *)
Fixpoint seek_loop {S} (ln : lens S LState) (prefix : bytes) (kvs : list (bytes * bytes))
    (cb : bytes -> loc -> M S unit) : M S unit :=
  match kvs with
  | [] => ret tt
  | (key, value) :: rest =>
      if negb (bytes_HasPrefix key prefix) then ret tt
      else
        let! item := lift (decode_at key value) in
        let! l := zoom ln (l_alloc item) in
        cb key l ;;;
        seek_loop ln prefix rest cb
  end.

Definition Seek {S} (ln : lens S LState) (prefix : bytes) (ascending : bool)
    (cb : bytes -> loc -> M S unit) (exec : bool) : M S unit :=
  let! kvs := zoom ln (seek_entries prefix ascending exec) in
  seek_loop ln prefix kvs cb.

(** [Iterate] visits the whole tree in key order. *)
Definition Iterate {S} (ln : lens S LState) (cb : bytes -> loc -> M S unit) (exec : bool)
    : M S unit :=
  let! kvs := zoom ln (seek_entries [] true exec) in
  seek_loop ln [] kvs cb.

(** [MemLedger.Seek] on a ledger obtained from [ImitableLedgerAt]. *)
Definition mem_Seek {S} (ln : lens S LState) (ml : MemLedger) (prefix : bytes) (ascending : bool)
    (cb : bytes -> loc -> M S unit) : M S unit :=
  match immuTree ml with
  | None => throw ErrNotFoundResult
  | Some i =>
      let! kvs := lift (from_err (imm_Iterator i prefix ascending)) in
      seek_loop ln prefix kvs cb
  end.

End Ledger.

Arguments MutableLedger : clear implicits.
Arguments MemLedger : clear implicits.
Arguments StateLedger : clear implicits.
Arguments LState : clear implicits.
Arguments store_lens {Item T I}.
