(* ===== verification/LedgerSpec.v ===== *)
(** * LedgerSpec: the delivering ledger is a map from keys to items

    [coh D s m] says that the tree of the ledger stores exactly the items of
    the map [m], and that the object cached under a key is the item of [m],
    except for the keys of [D] whose cached object was mutated and not yet
    written back.  The lemmas [wp_*] are the interface the controllers reason
    with: each operation of the ledger is an operation on [m]. *)
From stdpp Require Import base gmap list.
From Stdlib Require Import ZArith Lia.
From S2P Require Import Prelude XErrors GoMonad LedgerKeys Iavl Ledger.

(** [item_ok k x]: [x] is an item the ledger stores under [k]; such items
    survive encoding and decoding. *)
Class LedgerItemLaws (Item : Type) `{LedgerItem Item} : Type := {
  item_ok : bytes -> Item -> Prop;
  item_encode : forall k x, item_ok k x -> exists b, Encode x = Ok b /\ decode_at k b = Ok x;
}.

(** Dirty keys: a key written back is clean again. *)
Lemma dirty_nil (k : bytes) : (∅ ∖ {[k]} : gset bytes) = ∅.
Proof. set_solver. Qed.

Lemma dirty_one (k : bytes) : ((∅ ∪ {[k]}) ∖ {[k]} : gset bytes) = ∅.
Proof. set_solver. Qed.

Lemma dirty_two (k0 k1 : bytes) :
  ((∅ ∪ {[k0]} ∪ {[k1]}) ∖ {[k0]}) ∖ {[k1]} = (∅ : gset bytes).
Proof. set_solver. Qed.

Section LedgerSpec.
Context {Item T I : Type} `{LedgerItem Item, !LedgerItemLaws Item}.
Context `{Iavl T I, !IavlLaws T I}.
Implicit Types (s : LState Item T I) (m : gmap bytes Item) (D : gset bytes).

(** [b] is what the tree holds for item [x] under key [k]. *)
Definition stored (k b : bytes) (x : Item) : Prop := item_ok k x /\ Encode x = Ok b.

Definition cached s : gmap bytes loc := cachedObjs (commitLedger (ledger s)).
Definition heap s : gmap loc Item := objs (lstore s).
Definition exec_contents s : gmap bytes bytes := contents (tree (commitLedger (ledger s))).
Definition revs s : revisionList := revisions (commitLedger (ledger s)).

(** The tree stores the items of [m] and nothing else. *)
Definition represents (c : gmap bytes bytes) m : Prop :=
  forall k, option_Forall2 (stored k) (c !! k) (m !! k).

Record coh D s m : Prop := {
  coh_tree : represents (exec_contents s) m;
  coh_cache : forall k l, cached s !! k = Some l ->
    exists x, heap s !! l = Some x /\ (k ∉ D -> m !! k = Some x);
  coh_inj : forall k1 k2 l,
    cached s !! k1 = Some l -> cached s !! k2 = Some l -> k1 = k2;
  coh_wf : store_wf (lstore s);
}.

(** The object at [l] is cached under no key but [k]. *)
Definition owner s (l : loc) (k : bytes) : Prop :=
  forall k', cached s !! k' = Some l -> k' = k.

(** The object at [l] is in no cache entry. *)
Definition uncached s (l : loc) : Prop := forall k, cached s !! k <> Some l.

Lemma uncached_owner s l k : uncached s l -> owner s l k.
Proof. intros Hu k' Hk'. now destruct (Hu k'). Qed.

(** Objects of [s] are still there, unchanged, in [s']. *)
Definition keeps s s' : Prop := forall l x, heap s !! l = Some x -> heap s' !! l = Some x.

Lemma owner_cached_insert s s' k l l' k' :
  cached s' = <[k := l]> (cached s) -> owner s l' k' -> l' <> l \/ k' = k -> owner s' l' k'.
Proof.
  intros Hc Hown Hor k''. rewrite Hc. intros Hk''.
  apply lookup_insert_Some in Hk'' as [[<- <-]|[_ Hk'']]; [|auto]. now destruct Hor.
Qed.

Lemma stored_decode k b x : stored k b x -> decode_at k b = Ok x.
Proof.
  intros [Hok He]. destruct (item_encode k x Hok) as (b' & He' & Hd). congruence.
Qed.

Lemma represents_insert c m k b x :
  represents c m -> stored k b x -> represents (<[k := b]> c) (<[k := x]> m).
Proof.
  intros Hr Hs k'. destruct (decide (k' = k)) as [->|Hne].
  - rewrite !lookup_insert_eq. now constructor.
  - rewrite !lookup_insert_ne by done. apply Hr.
Qed.

Lemma represents_delete c m k : represents c m -> represents (delete k c) (delete k m).
Proof.
  intros Hr k'. destruct (decide (k' = k)) as [->|Hne].
  - rewrite !lookup_delete_eq. constructor.
  - rewrite !lookup_delete_ne by done. apply Hr.
Qed.

Lemma represents_lookup c m k x :
  represents c m -> m !! k = Some x -> exists b, c !! k = Some b /\ stored k b x.
Proof. intros Hr Hx. specialize (Hr k). rewrite Hx in Hr. inversion Hr; eauto. Qed.

Lemma represents_None c m k : represents c m -> m !! k = None <-> c !! k = None.
Proof. intros Hr. specialize (Hr k). inversion Hr; split; congruence. Qed.

(** What the tree holds determines the items. *)
Lemma coh_stored D s m k b x :
  coh D s m -> exec_contents s !! k = Some b -> decode_at k b = Ok x -> m !! k = Some x.
Proof.
  intros HC Hb Hd. pose proof (coh_tree _ _ _ HC k) as Hr. rewrite Hb in Hr.
  inversion Hr as [? y Hst Eb Ey|]; subst. apply stored_decode in Hst. congruence.
Qed.

Lemma coh_in_tree D s m k :
  coh D s m -> is_Some (m !! k) -> is_Some (exec_contents s !! k).
Proof.
  intros HC [x Hx]. pose proof (coh_tree _ _ _ HC k) as Hr. rewrite Hx in Hr. inversion Hr; eauto.
Qed.

Lemma keystr_ok k : k <> [] -> keystr k = Ok k.
Proof. destruct k; done. Qed.

(** ** Operations on objects *)

Lemma wp_deref s l x Q : heap s !! l = Some x -> Q (Ok x) s -> wp (l_deref l) Q s.
Proof.
  intros Hl HQ. apply wp_zoom. unfold wp, deref; cbn.
  change (objs (lstore s)) with (heap s). rewrite Hl. now destruct s.
Qed.

Lemma wp_alloc D s m x Q :
  coh D s m ->
  (forall l s', coh D s' m -> heap s !! l = None -> heap s' = <[l := x]> (heap s) ->
    uncached s' l -> ledger s' = ledger s -> Q (Ok l) s') ->
  wp (l_alloc x) Q s.
Proof.
  intros HC HQ. apply wp_zoom. unfold wp, alloc; cbn.
  pose proof (store_fresh_None _ (coh_wf _ _ _ HC)) as Hn.
  apply HQ; try done; destruct HC as [Ht Hc Hi Hw].
  2: { intros k Hk. destruct (Hc k _ Hk) as (y & Hy & _). unfold heap in Hy. congruence. }
  split; [done| |done|now apply store_wf_alloc].
  intros k l Hl. destruct (Hc k l Hl) as (y & Hy & Hm). exists y; split; [|done].
  unfold heap; cbn. rewrite lookup_insert_ne; [done|].
  intros <-. unfold heap in Hy. congruence.
Qed.

Lemma wp_assign D s m l k x Q :
  coh D s m -> is_Some (heap s !! l) -> owner s l k ->
  (forall s', coh (D ∪ {[k]}) s' m -> heap s' = <[l := x]> (heap s) ->
    ledger s' = ledger s -> Q (Ok tt) s') ->
  wp (l_assign l x) Q s.
Proof.
  intros HC Hl Hown HQ. apply wp_zoom. unfold wp, assign; cbn.
  apply HQ; try done. destruct HC as [Ht Hc Hi Hw].
  split; [done| |done|now apply store_wf_assign].
  intros k' l' Hl'. destruct (Hc k' l' Hl') as (y & Hy & Hm).
  unfold heap; cbn. destruct (decide (l' = l)) as [->|Hne].
  - exists x. rewrite lookup_insert_eq. split; [done|].
    apply Hown in Hl' as ->. set_solver.
  - exists y. rewrite lookup_insert_ne by done. split; [done|]. set_solver.
Qed.

Lemma wp_assign_uncached D s m l x Q :
  coh D s m -> is_Some (heap s !! l) -> uncached s l ->
  (forall s', coh D s' m -> heap s' = <[l := x]> (heap s) ->
    ledger s' = ledger s -> Q (Ok tt) s') ->
  wp (l_assign l x) Q s.
Proof.
  intros HC Hl Hun HQ. apply wp_zoom. unfold wp, assign; cbn.
  apply HQ; try done. destruct HC as [Ht Hc Hi Hw].
  split; [done| |done|now apply store_wf_assign].
  intros k' l' Hl'. destruct (Hc k' l' Hl') as (y & Hy & Hm). exists y. split; [|done].
  unfold heap; cbn. rewrite lookup_insert_ne; [done|]. intros <-. now apply (Hun k').
Qed.

(** ** Get *)

Lemma wp_Get_some D s m k x Q :
  coh D s m -> k <> [] -> k ∉ D -> m !! k = Some x ->
  (forall l s', coh D s' m -> heap s' !! l = Some x -> owner s' l k -> keeps s s' ->
    (forall l' k', is_Some (heap s !! l') -> owner s l' k' -> owner s' l' k') ->
    (forall l', is_Some (heap s !! l') -> uncached s l' -> uncached s' l') ->
    cached s' !! k = Some l ->
    (forall k' l', cached s !! k' = Some l' -> cached s' !! k' = Some l') ->
    imitableLedger (ledger s') = imitableLedger (ledger s) -> revs s' = revs s ->
    exec_contents s' = exec_contents s ->
    Q (Ok l) s') ->
  wp (Get k true) Q s.
Proof.
  intros HC Hk HD Hx HQ. cbn [Get]. unfold mut_Get. rewrite keystr_ok by done.
  apply wp_bind, wp_lift, wp_bind, wp_gets. fold (cached s).
  destruct (cached s !! k) as [l|] eqn:El.
  - destruct (coh_cache _ _ _ HC k l El) as (y & Hy & Hm).
    assert (y = x) as -> by (apply Hm in HD; congruence).
    apply wp_ret, HQ; try done; unfold owner, keeps; eauto using coh_inj.
  - unfold mut_get. do 2 apply wp_bind. apply wp_gets, wp_bind, wp_lift.
    rewrite Get_law; cbn [from_err].
    destruct (represents_lookup _ _ _ _ (coh_tree _ _ _ HC) Hx) as (b & Hb & Hs).
    unfold exec_contents in Hb. rewrite Hb.
    apply wp_bind, wp_lift. rewrite (stored_decode _ _ _ Hs).
    apply (wp_alloc D s m); [done|]. intros l s' HC' Hn Hh Hun Hled.
    apply wp_bind, wp_modify, wp_ret.
    assert (Hcs : cached s' = cached s) by (unfold cached; congruence).
    destruct HC' as [Ht' Hc' Hi' Hw'].
    assert (Hnew : forall k', cached s' !! k' = Some l -> False).
    { intros k' Hk'. rewrite Hcs in Hk'.
      destruct (coh_cache _ _ _ HC k' l Hk') as (y & Hy & _). congruence. }
    apply HQ; unfold revs, exec_contents; cbn; try rewrite Hled; try done.
    + split; cbn; auto.
      * intros k' l' Hl'. change (heap _) with (heap s').
        unfold cached in Hl'; cbn in Hl'. fold (cached s') in Hl'.
        destruct (decide (k' = k)) as [->|Hne].
        -- rewrite lookup_insert_eq in Hl'. injection Hl' as <-.
           exists x. rewrite Hh, lookup_insert_eq. done.
        -- rewrite lookup_insert_ne in Hl' by done. now apply Hc'.
      * intros k1 k2 l'. unfold cached; cbn. fold (cached s').
        intros H1 H2. apply lookup_insert_Some in H1, H2.
        destruct H1 as [[? ?]|[? H1]], H2 as [[? ?]|[? H2]]; subst; eauto;
          exfalso; eauto.
    + unfold heap; cbn. fold (heap s'). now rewrite Hh, lookup_insert_eq.
    + intros k'. unfold cached; cbn. fold (cached s').
      intros Hk'. apply lookup_insert_Some in Hk' as [[<- _]|[_ Hk']]; [done|].
      exfalso; eauto.
    + intros l' y Hy. unfold heap; cbn. fold (heap s').
      rewrite Hh, lookup_insert_ne; [done|]. intros ->; congruence.
    + intros l' k' [y Hy] Hown k''. unfold cached; cbn. fold (cached s'). intros Hk''.
      apply lookup_insert_Some in Hk'' as [[<- <-]|[_ Hk'']]; [congruence|].
      apply Hown. now rewrite <- Hcs.
    + intros l' [y Hy] Hun' k'. unfold cached; cbn. fold (cached s'). intros Hk'.
      apply lookup_insert_Some in Hk' as [[<- <-]|[_ Hk']]; [congruence|].
      apply (Hun' k'). now rewrite <- Hcs.
    + unfold cached; cbn. now rewrite lookup_insert_eq.
    + intros k' l' Hk'. change (<[k := l]> (cached s) !! k' = Some l').
      rewrite lookup_insert_ne; [done|]. congruence.
Qed.

Lemma wp_Get_none D s m k Q :
  coh D s m -> k <> [] -> k ∉ D -> m !! k = None ->
  Q (Err ErrNotFoundResult) s ->
  wp (Get k true) Q s.
Proof.
  intros HC Hk HD Hx HQ. cbn [Get]. unfold mut_Get. rewrite keystr_ok by done.
  apply wp_bind, wp_lift, wp_bind, wp_gets. fold (cached s).
  destruct (cached s !! k) as [l|] eqn:El.
  { destruct (coh_cache _ _ _ HC k l El) as (y & _ & Hm). apply Hm in HD; congruence. }
  unfold mut_get. do 2 apply wp_bind. apply wp_gets, wp_bind, wp_lift.
  rewrite Get_law; cbn [from_err].
  apply (represents_None _ _ _ (coh_tree _ _ _ HC)) in Hx.
  unfold exec_contents in Hx. rewrite Hx. now apply wp_throw.
Qed.

(** ** Set *)

(** The object [x] is written as the item [y] with the same encoding; they can
    differ in what is not stored, and the key stays dirty until they agree. *)
Lemma wp_Set_as D D' s m k l x y b Q :
  coh D s m -> k <> [] -> heap s !! l = Some x -> Encode x = Ok b -> stored k b y -> owner s l k ->
  D ∖ {[k]} ⊆ D' -> (k ∈ D' \/ x = y) ->
  (forall s', coh D' s' (<[k := y]> m) -> lstore s' = lstore s ->
    cached s' = <[k := l]> (cached s) ->
    imitableLedger (ledger s') = imitableLedger (ledger s) ->
    exec_contents s' = <[k := b]> (exec_contents s) ->
    revs s' = (if value_changed (exec_contents s !! k) b
               then rev_set (revs s) k (exec_contents s !! k) else revs s) ->
    Q (Ok tt) s') ->
  wp (Set_ k l true) Q s.
Proof.
  intros HC Hk Hl He Hs Hown HD Hxy HQ. cbn [Set_]. unfold mut_Set, mut_set.
  apply wp_bind, wp_bind, wp_gets, wp_bind, wp_lift. rewrite Get_law; cbn [from_err].
  fold (exec_contents s).
  apply wp_bind, (wp_deref s l x); [done|].
  apply wp_bind, wp_lift. rewrite He.
  apply wp_bind, wp_lift.
  destruct (Set_law (tree (commitLedger (ledger s))) k b) as (t' & Ht' & Hcont & _ & _).
  rewrite Ht'; cbn [from_err]. apply wp_bind, wp_modify.
  assert (Hgoal : forall s', lstore s' = lstore s ->
    tree (commitLedger (ledger s')) = t' -> cached s' = <[k := l]> (cached s) ->
    coh D' s' (<[k := y]> m) /\ exec_contents s' = <[k := b]> (exec_contents s)).
  { intros s' Hst Htr Hca.
    assert (Hec : exec_contents s' = <[k := b]> (exec_contents s))
      by (unfold exec_contents; congruence).
    split; [|done]. destruct HC as [Ht Hc Hi Hw]. split.
    - rewrite Hec. now apply represents_insert.
    - intros k' l'. rewrite Hca. unfold heap; rewrite Hst; fold (heap s). intros Hk'.
      apply lookup_insert_Some in Hk' as [[<- <-]|[Hne Hk']].
      + exists x. split; [done|]. rewrite lookup_insert_eq. intros Hn. destruct Hxy; congruence.
      + destruct (Hc k' l' Hk') as (z & Hz & Hm). exists z. split; [done|].
        intros HD'. rewrite lookup_insert_ne by done. apply Hm. set_solver.
    - intros k1 k2 l'. rewrite Hca. intros H1 H2.
      apply lookup_insert_Some in H1, H2.
      destruct H1 as [[? ?]|[? H1]], H2 as [[? ?]|[? H2]]; subst; eauto.
      symmetry; eauto.
    - now rewrite Hst. }
  destruct (value_changed (exec_contents s !! k) b) eqn:Ev;
    [apply wp_modify | apply wp_ret]; apply wp_bind, wp_lift; rewrite keystr_ok by done;
    apply wp_modify;
    match goal with |- Q _ ?s' => destruct (Hgoal s') as [HC' Hec]; [done..|] end;
    apply HQ; try done; rewrite Ev; done.
Qed.

Lemma wp_Set_revs D s m k l x b Q :
  coh D s m -> k <> [] -> heap s !! l = Some x -> stored k b x -> owner s l k ->
  (forall s', coh (D ∖ {[k]}) s' (<[k := x]> m) -> lstore s' = lstore s ->
    cached s' = <[k := l]> (cached s) ->
    imitableLedger (ledger s') = imitableLedger (ledger s) ->
    exec_contents s' = <[k := b]> (exec_contents s) ->
    revs s' = (if value_changed (exec_contents s !! k) b
               then rev_set (revs s) k (exec_contents s !! k) else revs s) ->
    Q (Ok tt) s') ->
  wp (Set_ k l true) Q s.
Proof.
  intros HC Hk Hl Hs Hown HQ. apply (wp_Set_as D (D ∖ {[k]}) s m k l x x b); auto. apply Hs.
Qed.

Lemma wp_Set D s m k l x Q :
  coh D s m -> k <> [] -> heap s !! l = Some x -> item_ok k x -> owner s l k ->
  (forall s', coh (D ∖ {[k]}) s' (<[k := x]> m) -> lstore s' = lstore s ->
    cached s' = <[k := l]> (cached s) ->
    imitableLedger (ledger s') = imitableLedger (ledger s) -> Q (Ok tt) s') ->
  wp (Set_ k l true) Q s.
Proof.
  intros HC Hk Hl Hok Hown HQ.
  destruct (item_encode k x Hok) as (b & He & _).
  apply (wp_Set_revs D s m k l x b); try done. auto.
Qed.

(** ** Del *)

Lemma wp_Del_revs D s m k Q :
  coh D s m -> k <> [] ->
  (forall s', coh (D ∖ {[k]}) s' (delete k m) -> lstore s' = lstore s ->
    cached s' = delete k (cached s) ->
    imitableLedger (ledger s') = imitableLedger (ledger s) ->
    exec_contents s' = delete k (exec_contents s) ->
    revs s' = (if bool_decide (is_Some (exec_contents s !! k))
               then rev_set (revs s) k (exec_contents s !! k) else revs s) ->
    Q (Ok tt) s') ->
  wp (Del k true) Q s.
Proof.
  intros HC Hk HQ. cbn [Del]. unfold mut_Del.
  apply wp_bind, wp_gets, wp_bind, wp_lift.
  destruct (Remove_law (tree (commitLedger (ledger s))) k) as (t' & Ht' & Hcont & _ & _).
  rewrite Ht'; cbn [from_err]. fold (exec_contents s).
  apply wp_bind, wp_modify.
  assert (Hgoal : forall s', lstore s' = lstore s ->
    tree (commitLedger (ledger s')) = t' -> cached s' = delete k (cached s) ->
    coh (D ∖ {[k]}) s' (delete k m) /\ exec_contents s' = delete k (exec_contents s)).
  { intros s' Hst Htr Hca.
    assert (Hec : exec_contents s' = delete k (exec_contents s))
      by (unfold exec_contents; congruence).
    split; [|done]. destruct HC as [Ht Hc Hi Hw]. split.
    - rewrite Hec. now apply represents_delete.
    - intros k' l'. rewrite Hca. unfold heap; rewrite Hst; fold (heap s). intros Hk'.
      apply lookup_delete_Some in Hk' as [Hne Hk'].
      destruct (Hc k' l' Hk') as (y & Hy & Hm). exists y. split; [done|].
      intros HD'. rewrite lookup_delete_ne by done. apply Hm. set_solver.
    - intros k1 k2 l'. rewrite Hca. intros H1 H2.
      apply lookup_delete_Some in H1 as [_ H1], H2 as [_ H2]. eauto.
    - now rewrite Hst. }
  apply wp_bind.
  destruct (bool_decide (is_Some (exec_contents s !! k))) eqn:Ev;
    [apply wp_modify | apply wp_ret]; apply wp_bind, wp_lift; rewrite keystr_ok by done;
    apply wp_modify;
    match goal with |- Q _ ?s' => destruct (Hgoal s') as [HC' Hec]; [done..|] end;
    apply HQ; try done; rewrite Ev; done.
Qed.

Lemma wp_Del D s m k Q :
  coh D s m -> k <> [] ->
  (forall s', coh (D ∖ {[k]}) s' (delete k m) -> lstore s' = lstore s ->
    cached s' = delete k (cached s) ->
    imitableLedger (ledger s') = imitableLedger (ledger s) -> Q (Ok tt) s') ->
  wp (Del k true) Q s.
Proof. intros HC Hk HQ. eapply wp_Del_revs; eauto. Qed.

(** ** The rules in the form the controllers use

    A controller holds pointers to objects while it works.  [held s k l x]: the
    object at [l] is [x] and the cache knows it under no key but [k].  Every
    operation keeps what is held, but for the object it writes. *)

Definition held s (k : bytes) (l : loc) (x : Item) : Prop := heap s !! l = Some x /\ owner s l k.

Definition frames s s' (except : option loc) : Prop :=
  (forall k l x, Some l <> except -> held s k l x -> held s' k l x) /\
  imitableLedger (ledger s') = imitableLedger (ledger s).

Lemma frames_refl s e : frames s s e.
Proof. now split. Qed.

Lemma frames_trans s1 s2 s3 e : frames s1 s2 e -> frames s2 s3 e -> frames s1 s3 e.
Proof. intros [H1 E1] [H2 E2]. split; [eauto|congruence]. Qed.

Lemma frames_weaken s s' e : frames s s' None -> frames s s' e.
Proof. intros [H1 E]. split; [|done]. intros k l x _. now apply H1. Qed.

Lemma held_get_rule D s m k x Q :
  coh D s m -> k <> [] -> k ∉ D -> m !! k = Some x ->
  (forall l s', coh D s' m -> held s' k l x -> frames s s' None ->
    cached s' !! k = Some l ->
    (forall k' l', cached s !! k' = Some l' -> cached s' !! k' = Some l') -> Q (Ok l) s') ->
  wp (Get k true) Q s.
Proof.
  intros HC Hk HD Hx HQ. apply (wp_Get_some D s m k x); try done.
  intros l s' HC' Hl Hown Hkeep Ho Hu Hc Hcm Him _ _. apply HQ; [done|now split| |done|done].
  split; [|done]. intros k' l' y _ [Hy Ho']. split; [now apply Hkeep|]. apply Ho; [|done]. eauto.
Qed.

Lemma held_alloc_rule D s m x Q :
  coh D s m ->
  (forall l s', coh D s' m -> (forall k, held s' k l x) -> uncached s' l -> frames s s' None ->
    ledger s' = ledger s -> heap s !! l = None -> Q (Ok l) s') ->
  wp (l_alloc x) Q s.
Proof.
  intros HC HQ. apply (wp_alloc D s m); [done|]. intros l s' HC' Hn Hh Hun Hled.
  assert (Hl : heap s' !! l = Some x) by now rewrite Hh, lookup_insert_eq.
  apply HQ; try done.
  - intros k. split; [done|]. now apply uncached_owner.
  - split; [|now rewrite Hled]. intros k' l' y _ [Hy Ho]. split.
    + rewrite Hh, lookup_insert_ne; [done|]. congruence.
    + intros k''. unfold cached. rewrite Hled. apply Ho.
Qed.

Lemma held_assign_rule D s m l k y x Q :
  coh D s m -> held s k l y ->
  (forall s', coh (D ∪ {[k]}) s' m -> held s' k l x -> frames s s' (Some l) ->
    ledger s' = ledger s -> Q (Ok tt) s') ->
  wp (l_assign l x) Q s.
Proof.
  intros HC [Hl Ho] HQ. apply (wp_assign D s m l k x); [done|eauto|done|].
  intros s' HC' Hh Hled. apply HQ; try done.
  - split; [now rewrite Hh, lookup_insert_eq|]. intros k'. unfold cached. rewrite Hled. apply Ho.
  - split; [|now rewrite Hled]. intros k' l' z Hne [Hz Ho']. split.
    + rewrite Hh, lookup_insert_ne; [done|]. congruence.
    + intros k''. unfold cached. rewrite Hled. apply Ho'.
Qed.

Lemma held_set_rule D s m k l x Q :
  coh D s m -> k <> [] -> held s k l x -> item_ok k x ->
  (forall s', coh (D ∖ {[k]}) s' (<[k := x]> m) -> held s' k l x -> frames s s' (Some l) ->
    Q (Ok tt) s') ->
  wp (Set_ k l true) Q s.
Proof.
  intros HC Hk [Hl Ho] Hok HQ. apply (wp_Set D s m k l x); try done.
  intros s' HC' Hst Hca Him. apply HQ; [done| |].
  - split; [unfold heap; now rewrite Hst|]. apply (owner_cached_insert s s' k l); auto.
  - split; [|done]. intros k' l' y Hne [Hy Ho']. split; [unfold heap; now rewrite Hst|].
    apply (owner_cached_insert s s' k l); auto. left. congruence.
Qed.

Lemma held_del_rule D s m k Q :
  coh D s m -> k <> [] ->
  (forall s', coh (D ∖ {[k]}) s' (delete k m) -> frames s s' None -> Q (Ok tt) s') ->
  wp (Del k true) Q s.
Proof.
  intros HC Hk HQ. apply (wp_Del D s m k); try done. intros s' HC' Hst Hca Him.
  apply HQ; [done|]. split; [|done]. intros k' l' y _ [Hy Ho].
  split; [unfold heap; now rewrite Hst|]. intros k''. rewrite Hca. intros Hk''.
  apply lookup_delete_Some in Hk'' as [_ Hk'']. auto.
Qed.

(** Assigning the stored item to the cached object makes its key clean. *)
Lemma held_clean_rule D s m l k y x Q :
  coh D s m -> held s k l y -> cached s !! k = Some l -> m !! k = Some x ->
  (forall s', coh (D ∖ {[k]}) s' m -> held s' k l x -> frames s s' (Some l) ->
    ledger s' = ledger s -> Q (Ok tt) s') ->
  wp (l_assign l x) Q s.
Proof.
  intros HC Hl Hca Hx HQ. apply (held_assign_rule D s m l k y); try done.
  intros s' [Ht Hc Hi Hw] Hl' Hf Hled. apply HQ; try done. split; try done.
  intros k' l' Hk'. destruct (Hc k' l' Hk') as (z & Hz & Hm). exists z. split; [done|]. intros HD.
  destruct (decide (k' = k)) as [->|Hne]; [|apply Hm; set_solver].
  unfold cached in Hk', Hca. rewrite Hled, Hca in Hk'. injection Hk' as <-. destruct Hl' as [Hl' _]. congruence.
Qed.

Lemma held_deref_rule s k l x Q : held s k l x -> Q (Ok x) s -> wp (l_deref l) Q s.
Proof. intros [Hl _]. now apply wp_deref. Qed.

End LedgerSpec.
