(* ===== verification/LedgerOps.v ===== *)
(** * LedgerOps: the two ledgers as maps, snapshots, commits and iteration

    The delivering ledger ([exec = true]) and the checking ledger
    ([exec = false]) are both shown to implement one abstract map of items
    ([run_lops_exec], [run_lops_check]); a snapshot of the delivering ledger is
    restored by [RevertToSnapshot]; [Commit] publishes the delivered map to the
    checking ledger; [Seek] visits the entries with a prefix in key order. *)
From stdpp Require Import base gmap list.
From Stdlib Require Import ZArith Lia Sorted.
From S2P Require Import Prelude XErrors GoMonad LedgerKeys Iavl Ledger LedgerSpec.

(** What a caller of a ledger does with one key: read it, store a new object,
    update the object it got in place and store it, or delete it. *)
Inductive lop (Item : Type) : Type :=
| LGet (k : bytes)
| LPut (k : bytes) (x : Item)
| LUpdate (k : bytes) (x : Item)
| LDel (k : bytes).
Arguments LGet {Item} _.
Arguments LPut {Item} _ _.
Arguments LUpdate {Item} _ _.
Arguments LDel {Item} _.

Section Abstract.
Context {Item : Type}.

(** The abstract ledger: the value a caller sees and the map afterwards. *)
Definition step_lop (op : lop Item) (m : gmap bytes Item) : option Item * gmap bytes Item :=
  match op with
  | LGet k => (m !! k, m)
  | LPut k x => (Some x, <[k := x]> m)
  | LUpdate k x => (m !! k, match m !! k with Some _ => <[k := x]> m | None => m end)
  | LDel k => (None, delete k m)
  end.

Fixpoint steps_lop (ops : list (lop Item)) (m : gmap bytes Item)
  : list (option Item) * gmap bytes Item :=
  match ops with
  | [] => ([], m)
  | op :: ops' =>
      let '(r, m1) := step_lop op m in
      let '(rs, m2) := steps_lop ops' m1 in (r :: rs, m2)
  end.

End Abstract.

Section LedgerOps.
Context {Item T I : Type} `{LedgerItem Item, !LedgerItemLaws Item}.
Context `{Iavl T I, !IavlLaws T I}.
Implicit Types (s : LState Item T I) (m : gmap bytes Item) (D : gset bytes).

(** The same operations on the ledger; a key that is not there is no value. *)
Definition run_lop (exec : bool) (op : lop Item) : M (LState Item T I) (option Item) :=
  match op with
  | LGet k =>
      let! r := try (Get k exec) in
      match r with
      | inl l => let! x := l_deref l in ret (Some x)
      | inr _ => ret None
      end
  | LPut k x => let! l := l_alloc x in Set_ k l exec ;;; ret (Some x)
  | LUpdate k x =>
      let! r := try (Get k exec) in
      match r with
      | inl l =>
          let! old := l_deref l in
          l_assign l x ;;;
          Set_ k l exec ;;;
          ret (Some old)
      | inr _ => ret None
      end
  | LDel k => Del k exec ;;; ret None
  end.

Fixpoint run_lops (exec : bool) (ops : list (lop Item)) : M (LState Item T I) (list (option Item)) :=
  match ops with
  | [] => ret []
  | op :: ops' =>
      let! r := run_lop exec op in
      let! rs := run_lops exec ops' in
      ret (r :: rs)
  end.

Definition lop_ok (op : lop Item) : Prop :=
  match op with
  | LGet k | LDel k => k <> []
  | LPut k x | LUpdate k x => k <> [] /\ item_ok k x
  end.

(** ** The delivering ledger *)

(** Every item has a non-empty encoding: the encoding of an absent value is
    then told apart from the encoding of an item. *)
Definition nonempty_items : Prop := forall k x, item_ok k x -> Encode x <> Ok [].

(** From contents [c] to [c'] at most one key changed, and the value it had is
    the new entry of the revisions. *)
Definition rev_effect (c c' : gmap bytes bytes) (r r' : revisionList) : Prop :=
  r' = r /\ c' = c \/
  exists k, k <> [] /\ r' = rev_set r k (c !! k) /\ forall k', k' <> k -> c' !! k' = c !! k'.

Lemma rev_effect_set c r k b x :
  k <> [] -> stored k b x -> nonempty_items ->
  rev_effect c (<[k := b]> c) r
    (if value_changed (c !! k) b then rev_set r k (c !! k) else r).
Proof.
  intros Hk [Hok He] Hne. unfold value_changed.
  destruct (bytes_Compare (default [] (c !! k)) b =? 0) eqn:Ev; cbn.
  - left. split; [done|]. apply Z.eqb_eq, bytes_Compare_eq in Ev.
    apply insert_id. destruct (c !! k); cbn in Ev; [congruence|].
    subst. exfalso. eapply Hne; eauto.
  - right. exists k. repeat split; auto. intros; now rewrite lookup_insert_ne.
Qed.

Lemma rev_effect_del c r k :
  k <> [] ->
  rev_effect c (delete k c) r
    (if bool_decide (is_Some (c !! k)) then rev_set r k (c !! k) else r).
Proof.
  intros Hk. destruct (c !! k) as [b|] eqn:Eb; cbn.
  - right. exists k. rewrite Eb. repeat split; auto. intros; now rewrite lookup_delete_ne.
  - left. split; [done|]. now apply delete_id.
Qed.

(** What one operation does to the map and to the revisions. *)
Definition lop_post s m (op : lop Item) (r : option Item) s' : Prop :=
  r = fst (step_lop op m) /\ coh ∅ s' (snd (step_lop op m)) /\
  imitableLedger (ledger s') = imitableLedger (ledger s) /\
  (nonempty_items -> rev_effect (exec_contents s) (exec_contents s') (revs s) (revs s')).

Lemma lop_post_same s m op s' :
  snd (step_lop op m) = m ->
  coh ∅ s' m -> imitableLedger (ledger s') = imitableLedger (ledger s) ->
  revs s' = revs s -> exec_contents s' = exec_contents s ->
  lop_post s m op (fst (step_lop op m)) s'.
Proof.
  intros Hm HC Him Hr Hec. unfold lop_post. rewrite Hm, Hr, Hec.
  split; [done|]. split; [done|]. split; [done|]. intros _; now left.
Qed.

Lemma run_LPut s m k x :
  coh ∅ s m -> k <> [] -> item_ok k x ->
  wp (run_lop true (LPut k x)) (okQ (lop_post s m (LPut k x))) s.
Proof.
  intros HC Hk Hok. destruct (item_encode k x Hok) as (b & He & _). cbn [run_lop].
  apply wp_bind, (wp_alloc ∅ s m); [done|]. intros l s1 HC1 Hn Hh Hun Hled.
  apply wp_bind, (wp_Set_revs ∅ s1 m k l x b); try done.
  - now rewrite Hh, lookup_insert_eq.
  - now apply uncached_owner.
  - intros s2 HC2 _ _ Him Hec Hr. apply wp_ret.
    unfold exec_contents, revs in Hec, Hr; rewrite Hled in *.
    split; [done|]. split; [|split; [congruence|]].
    + now rewrite dirty_nil in HC2.
    + intros Hne. unfold exec_contents, revs. rewrite Hec, Hr.
      apply (rev_effect_set _ _ k b x); done.
Qed.

Lemma run_LUpdate s m k x :
  coh ∅ s m -> k <> [] -> item_ok k x ->
  wp (run_lop true (LUpdate k x)) (okQ (lop_post s m (LUpdate k x))) s.
Proof.
  intros HC Hk Hok. destruct (item_encode k x Hok) as (b & He & _). cbn [run_lop].
  apply wp_bind, wp_try. destruct (m !! k) as [y|] eqn:Ex.
  2: { apply (wp_Get_none ∅ s m k); try done. apply wp_ret; cbn.
       replace None with (fst (step_lop (LUpdate k x) m)) by exact Ex.
       apply lop_post_same; cbn; rewrite ?Ex; done. }
  apply (wp_Get_some ∅ s m k y); try done.
  intros l s1 HC1 Hl Hown _ _ _ _ _ Him Hr1 Hec1.
  apply wp_bind, (wp_deref s1 l y); [done|].
  apply wp_bind, (wp_assign ∅ s1 m l k x); eauto. intros s2 HC2 Hh2 Hled2.
  apply wp_bind, (wp_Set_revs (∅ ∪ {[k]}) s2 m k l x b); try done.
  - now rewrite Hh2, lookup_insert_eq.
  - intros k'. unfold cached. rewrite Hled2. apply Hown.
  - intros s3 HC3 _ _ Him3 Hec3 Hr3. apply wp_ret. unfold okQ, lop_post; cbn; rewrite Ex.
    assert (Hec2 : exec_contents s2 = exec_contents s)
      by (rewrite <- Hec1; unfold exec_contents; congruence).
    assert (Hr2 : revs s2 = revs s) by (rewrite <- Hr1; unfold revs; congruence).
    split; [done|]. split; [|split; [congruence|]].
    + now rewrite dirty_one in HC3.
    + intros Hne. rewrite Hec3, Hr3, Hec2, Hr2. apply (rev_effect_set _ _ k b x); done.
Qed.

Lemma run_lop_exec s m op :
  coh ∅ s m -> lop_ok op -> wp (run_lop true op) (okQ (lop_post s m op)) s.
Proof.
  intros HC Hok. destruct op as [k|k x|k x|k].
  - cbn [run_lop]. apply wp_bind, wp_try. destruct (m !! k) as [x|] eqn:Ex.
    + apply (wp_Get_some ∅ s m k x); try done.
      intros l s' HC' Hl _ _ _ _ _ _ Him Hr Hec. apply wp_bind, (wp_deref s' l x); [done|].
      apply wp_ret; cbn. rewrite <- Ex. now apply (lop_post_same s m (LGet k)).
    + apply (wp_Get_none ∅ s m k); try done. apply wp_ret; cbn.
      rewrite <- Ex. now apply (lop_post_same s m (LGet k)).
  - now apply run_LPut; destruct Hok.
  - now apply run_LUpdate; destruct Hok.
  - cbn [run_lop]. apply wp_bind, (wp_Del_revs ∅ s m k); try done.
    intros s' HC' _ _ Him Hec Hr. apply wp_ret. unfold okQ, lop_post; cbn.
    rewrite dirty_nil in HC'.
    split; [done|]. split; [done|]. split; [done|].
    intros _. rewrite Hec, Hr. now apply rev_effect_del.
Qed.

Lemma run_lops_exec_aux ops s m :
  coh ∅ s m -> Forall lop_ok ops ->
  wp (run_lops true ops) (okQ (fun rs s' =>
    rs = fst (steps_lop ops m) /\ coh ∅ s' (snd (steps_lop ops m)) /\
    imitableLedger (ledger s') = imitableLedger (ledger s))) s.
Proof.
  intros HC Hok. revert s m HC. induction Hok as [|op ops Hop _ IH]; intros s m HC;
    cbn [run_lops steps_lop].
  { now apply wp_ret. }
  apply wp_bind. eapply wp_mono; [apply run_lop_exec; eauto|].
  intros [r|e|] s1; cbn; try done. intros (Hr & HC1 & Him & _).
  destruct (step_lop op m) as [r' m1]; cbn in *. subst r'.
  apply wp_bind. eapply wp_mono; [apply IH, HC1|].
  intros [rs|e|] s2; cbn; try done. intros (Hrs & HC2 & Him2).
  destruct (steps_lop ops m1) as [rs' m2]; cbn in *. subst rs'.
  apply wp_ret; cbn. split; [done|]. split; [done|congruence].
Qed.

(** ** Snapshots *)

(** [l] lists the changes from the contents [c0] to [c], oldest first, each
    with the value the key had; contents in between stand for a map too. *)
Inductive undoes (c0 : gmap bytes bytes) : list kvPair -> gmap bytes bytes -> Prop :=
| undoes_nil : undoes c0 [] c0
| undoes_snoc l c c' k m :
    undoes c0 l c -> represents c m -> k <> [] ->
    (forall k', k' <> k -> c' !! k' = c !! k') ->
    undoes c0 (l ++ [(k, c !! k)]) c'.

Lemma represents_agree c m c' m' k :
  represents c m -> represents c' m' -> c' !! k = c !! k -> m' !! k = m !! k.
Proof.
  intros Hr Hr' E. specialize (Hr k). specialize (Hr' k). rewrite E in Hr'.
  destruct Hr as [b x Hs|]; inversion Hr' as [b' x' Hs'|]; subst; [|done].
  apply stored_decode in Hs, Hs'. congruence.
Qed.

(** One step of the loop of [RevertToSnapshot] undoes one change. *)
Lemma wp_mut_restore s m' c m k :
  coh ∅ s m' -> represents c m -> k <> [] ->
  (forall k', k' <> k -> exec_contents s !! k' = c !! k') ->
  wp (mut_restore (k, c !! k)) (okQ (fun _ s' =>
    coh ∅ s' m /\ exec_contents s' = c /\ revs s' = revs s /\
    imitableLedger (ledger s') = imitableLedger (ledger s))) s.
Proof.
  intros HC Hr Hk Hag. cbn [mut_restore]. apply wp_bind, wp_gets.
  assert (Hother : forall k' x, k' <> k -> m' !! k' = Some x -> m !! k' = Some x).
  { intros k' x Hne Hx. rewrite <- Hx. symmetry.
    eapply represents_agree; [apply Hr|apply (coh_tree _ _ _ HC)|auto]. }
  destruct (c !! k) as [b|] eqn:Eb.
  - destruct (Set_law (tree (commitLedger (ledger s))) k b) as (t' & Ht' & Hcont & _).
    rewrite Ht'. apply wp_bind, wp_lift. cbn [from_err].
    apply wp_bind, wp_modify, wp_bind, wp_lift.
    assert (exists x, m !! k = Some x /\ decode_at k b = Ok x) as (x & Hx & Hd).
    { specialize (Hr k). rewrite Eb in Hr. inversion Hr; subst. eauto using stored_decode. }
    rewrite Hd, keystr_ok by done. apply wp_bind, wp_lift, wp_bind.
    set (s1 := set_commit (with_tree t') s).
    assert (Hec1 : exec_contents s1 = c).
    { apply map_eq; intros k'. unfold exec_contents, s1; cbn. rewrite Hcont.
      destruct (decide (k' = k)) as [->|Hne]; [now rewrite lookup_insert_eq|].
      rewrite lookup_insert_ne by done. now apply Hag. }
    apply wp_zoom. unfold wp, alloc; cbn. destruct HC as [Ht Hc Hi Hw].
    pose proof (store_fresh_None _ Hw) as Hfresh.
    split; [|done]. split.
    + unfold exec_contents in *; cbn in *. now rewrite Hec1.
    + intros k' l'. unfold cached, heap; cbn. intros Hl'.
      apply lookup_insert_Some in Hl' as [[<- <-]|[Hne Hl']].
      * exists x. now rewrite lookup_insert_eq.
      * destruct (Hc k' l' Hl') as (y & Hy & Hm). exists y.
        rewrite lookup_insert_ne; [|intros <-; unfold heap in Hy; congruence].
        split; [done|]. intros HD. eauto.
    + intros k1 k2 l' H1 H2. unfold cached in *; cbn in *.
      assert (Hnew : forall k', cachedObjs (commitLedger (ledger s)) !! k' <> Some (fresh (lstore s))).
      { intros k' Hk'. destruct (Hc k' _ Hk') as (y & Hy & _). unfold heap in Hy. congruence. }
      apply lookup_insert_Some in H1, H2.
      destruct H1 as [[? ?]|[? H1]], H2 as [[? ?]|[? H2]]; subst; eauto; exfalso; eapply Hnew; eauto.
    + now apply store_wf_alloc.
  - destruct (Remove_law (tree (commitLedger (ledger s))) k) as (t' & Ht' & Hcont & _).
    rewrite Ht'. apply wp_bind, wp_lift. cbn [from_err].
    apply wp_bind, wp_modify, wp_bind, wp_lift. rewrite keystr_ok by done.
    apply wp_modify. cbn.
    assert (Hec1 : contents t' = c).
    { apply map_eq; intros k'. rewrite Hcont.
      destruct (decide (k' = k)) as [->|Hne]; [now rewrite lookup_delete_eq|].
      rewrite lookup_delete_ne by done. now apply Hag. }
    destruct HC as [Ht Hc Hi Hw].
    split; [|done]. split; unfold exec_contents, cached; cbn.
    + now rewrite Hec1.
    + intros k' l' Hl'. apply lookup_delete_Some in Hl' as [Hne Hl'].
      destruct (Hc k' l' Hl') as (y & Hy & Hm). exists y. split; [done|]. eauto.
    + intros k1 k2 l' H1 H2.
      apply lookup_delete_Some in H1 as [_ H1], H2 as [_ H2]. eauto.
    + done.
Qed.

Lemma wp_restores c0 m0 l c :
  undoes c0 l c -> represents c0 m0 -> forall s m,
  coh ∅ s m -> exec_contents s = c ->
  wp (for_each (reverse l) mut_restore) (okQ (fun _ s' =>
    coh ∅ s' m0 /\ exec_contents s' = c0 /\ revs s' = revs s /\
    imitableLedger (ledger s') = imitableLedger (ledger s))) s.
Proof.
  intros Hu Hr0. induction Hu as [|l c c' k mk Hu IH Hrk Hk Hag]; intros s m HC Hec.
  - apply wp_ret; cbn. split; [|done]. destruct HC as [Ht Hc Hi Hw]. split; auto.
    + now rewrite Hec.
    + intros k l Hl. destruct (Hc k l Hl) as (x & Hx & Hm). exists x. split; [done|].
      intros HD. rewrite <- (Hm HD). symmetry.
      eapply represents_agree; eauto. now rewrite Hec.
  - rewrite reverse_app; cbn [reverse app for_each].
    change (reverse [(k, c !! k)]) with [(k, c !! k)]. cbn [app for_each].
    apply wp_bind. eapply wp_mono; [eapply wp_mut_restore; eauto; now rewrite Hec|].
    intros [[]|e|] s1; cbn; try done. intros (HC1 & Hec1 & Hr1 & Him1).
    eapply wp_mono; [eapply IH; eauto|].
    intros [[]|e|] s2; cbn; try done. intros (HC2 & Hec2 & Hr2 & Him2).
    repeat split; try apply HC2; congruence.
Qed.

(** The changes a sequence of operations makes are recorded, oldest first. *)
Lemma run_lops_revs ops s m c0 r0 l :
  nonempty_items -> coh ∅ s m -> Forall lop_ok ops ->
  revs s = r0 ++ l -> undoes c0 l (exec_contents s) ->
  wp (run_lops true ops) (okQ (fun _ s' =>
    (exists m', coh ∅ s' m') /\ imitableLedger (ledger s') = imitableLedger (ledger s) /\
    exists l', revs s' = r0 ++ l' /\ undoes c0 l' (exec_contents s'))) s.
Proof.
  intros Hne HC Hok. revert s m l HC.
  induction Hok as [|op ops Hop _ IH]; intros s m l HC Hr Hu; cbn [run_lops].
  - apply wp_ret; cbn. eauto 6.
  - apply wp_bind. eapply wp_mono; [apply run_lop_exec; eauto|].
  intros [r|e|] s1; cbn; try done. intros (_ & HC1 & Him & Heff).
  assert (exists l', revs s1 = r0 ++ l' /\ undoes c0 l' (exec_contents s1)) as (l1 & Hr1 & Hu1).
  { destruct (Heff Hne) as [[-> ->]|(k & Hk & -> & Hag)]; [eauto|].
    exists (l ++ [(k, exec_contents s !! k)]). split.
    - unfold rev_set. now rewrite Hr, app_assoc.
    - eapply undoes_snoc; eauto. apply (coh_tree _ _ _ HC). }
  apply wp_bind. eapply wp_mono; [eapply IH; eauto|].
  intros [rs|e|] s2; cbn; try done. intros (HC2 & Him2 & Hl2).
  apply wp_ret; cbn. split; [done|]. split; [congruence|done].
Qed.

Lemma rev_from_app r l : rev_from (r ++ l) (rev_snapshot r) = Ok l.
Proof.
  unfold rev_from, rev_snapshot. rewrite length_app, Nat2Z.inj_add.
  destruct (Z.ltb_spec (Z.of_nat (length r)) 0); [lia|].
  destruct (Z.ltb_spec (Z.of_nat (length r) + Z.of_nat (length l)) (Z.of_nat (length r))); [lia|].
  cbn. now rewrite Nat2Z.id, drop_app_length.
Qed.

(** Reverting to a snapshot restores the contents it was taken at. *)
Lemma wp_RevertToSnapshot s m c0 m0 r0 l :
  coh ∅ s m -> represents c0 m0 -> revs s = r0 ++ l -> undoes c0 l (exec_contents s) ->
  wp (RevertToSnapshot (rev_snapshot r0) true)
    (okQ (fun _ s' => coh ∅ s' m0 /\ exec_contents s' = c0 /\ revs s' = r0 /\
       imitableLedger (ledger s') = imitableLedger (ledger s))) s.
Proof.
  intros HC Hr0 Hr Hu. cbn [RevertToSnapshot]. unfold mut_RevertToSnapshot.
  apply wp_bind, wp_gets, wp_bind, wp_lift.
  fold (revs s). rewrite Hr, rev_from_app. apply wp_bind.
  eapply wp_mono; [eapply wp_restores; eauto|].
  intros [[]|e|] s2; cbn; try done. intros (HC2 & Hec2 & Hr2 & Him2).
  apply wp_modify; cbn. split; [destruct HC2; split; done|].
  split; [done|]. split; [|congruence].
  unfold revs in *; cbn. rewrite Hr2, Hr. unfold rev_revert, rev_snapshot.
  now rewrite Nat2Z.id, take_app_length.
Qed.

(** The revisions recorded since a snapshot lead back to it. *)
Lemma run_lops_from_snapshot ops s m :
  nonempty_items -> coh ∅ s m -> Forall lop_ok ops ->
  wp (run_lops true ops) (okQ (fun _ s' =>
    (exists m', coh ∅ s' m') /\ imitableLedger (ledger s') = imitableLedger (ledger s) /\
    exists l', revs s' = revs s ++ l' /\ undoes (exec_contents s) l' (exec_contents s'))) s.
Proof.
  intros Hne HC Hok.
  apply (run_lops_revs ops s m (exec_contents s) (revs s) []); try done.
  - now rewrite app_nil_r.
  - constructor.
Qed.

(** ** The checking ledger *)

(** What the overlay shows under [k]. *)
Definition iview (ml : MemLedger I) (i : I) (k : bytes) : option bytes :=
  match memStorage ml !! k with
  | Some v => v
  | None => imm_contents i !! k
  end.

(** The checking ledger stands for the map [m]. *)
Definition icoh s m : Prop :=
  exists i, immuTree (imitableLedger (ledger s)) = Some i /\
  forall k, option_Forall2 (stored k) (iview (imitableLedger (ledger s)) i k) (m !! k).

Lemma mem_lookup (ml : MemLedger I) i k :
  immuTree ml = Some i ->
  match memStorage ml !! k with
  | Some bz => Ok bz
  | None => from_err (imm_Get (immuTree ml) k)
  end = Ok (iview ml i k).
Proof.
  intros E. unfold iview. destruct (memStorage ml !! k); [done|].
  now rewrite E, imm_Get_law.
Qed.

Lemma mem_get_spec s m k :
  icoh s m -> k <> [] ->
  mem_get (imitableLedger (ledger s)) k =
    match m !! k with Some x => Ok x | None => Err ErrNotFoundResult end.
Proof.
  intros (i & Ei & Hv) Hk. unfold mem_get, mem_findRawBytes.
  rewrite keystr_ok by done; cbn [obind]. rewrite (mem_lookup _ _ _ Ei); cbn [obind].
  specialize (Hv k). destruct Hv as [b x Hs|]; cbn; [|done].
  now apply stored_decode.
Qed.

Lemma icoh_update s ml' i m k v x' :
  immuTree (imitableLedger (ledger s)) = Some i ->
  (forall k, option_Forall2 (stored k) (iview (imitableLedger (ledger s)) i k) (m !! k)) ->
  immuTree ml' = immuTree (imitableLedger (ledger s)) ->
  memStorage ml' = <[k := v]> (memStorage (imitableLedger (ledger s))) ->
  option_Forall2 (stored k) v x' ->
  icoh (set_imitable (fun _ => ml') s)
    (match x' with Some x => <[k := x]> m | None => delete k m end).
Proof.
  intros Ei Hv Et Em Hx. exists i. split; [cbn; congruence|].
  intros k'. unfold iview; cbn. rewrite Em.
  destruct (decide (k' = k)) as [->|Hne].
  - rewrite lookup_insert_eq. destruct x'; now rewrite ?lookup_insert_eq, ?lookup_delete_eq.
  - rewrite lookup_insert_ne by done. specialize (Hv k'). unfold iview in Hv.
    destruct x'; now rewrite ?lookup_insert_ne, ?lookup_delete_ne by done.
Qed.

(** Both ledgers at once: [me] is the delivered map, [mi] the checked one. *)
Definition coh2 s me mi : Prop := coh ∅ s me /\ icoh s mi.

Lemma wp_check_alloc s me mi x Q :
  coh2 s me mi ->
  (forall l s', coh2 s' me mi -> heap s' !! l = Some x -> uncached s' l ->
    ledger s' = ledger s -> Q (Ok l) s') ->
  wp (l_alloc x) Q s.
Proof.
  intros [HC Hi] HQ. apply (wp_alloc ∅ s me); [done|].
  intros l s' HC' Hn Hh Hun Hled. apply HQ; try done.
  - split; [done|]. unfold icoh in *. now rewrite Hled.
  - now rewrite Hh, lookup_insert_eq.
Qed.

Lemma wp_check_Set s me mi k l x Q :
  coh2 s me mi -> k <> [] -> heap s !! l = Some x -> item_ok k x ->
  (forall s', coh2 s' me (<[k := x]> mi) -> Q (Ok tt) s') ->
  wp (Set_ k l false) Q s.
Proof.
  intros [HC (i & Ei & Hv)] Hk Hl Hok HQ. destruct (item_encode k x Hok) as (b & He & _).
  apply wp_bind, (wp_deref s l x); [done|].
  apply wp_bind, wp_gets, wp_bind, wp_lift. unfold mem_Set.
  rewrite keystr_ok by done; cbn [obind]. rewrite (mem_lookup _ _ _ Ei); cbn [obind].
  rewrite He; cbn [obind]. apply wp_modify, HQ. split; [destruct HC; now split|].
  eapply (icoh_update s _ i mi k (Some b) (Some x)); try done. now constructor.
Qed.

Lemma run_lop_check s me mi op :
  coh2 s me mi -> lop_ok op ->
  wp (run_lop false op) (okQ (fun r s' =>
    r = fst (step_lop op mi) /\ coh2 s' me (snd (step_lop op mi)))) s.
Proof.
  intros HC Hok. destruct op as [k|k x|k x|k]; cbn [run_lop step_lop fst snd].
  - apply wp_bind, wp_try, wp_bind, wp_gets, wp_bind, wp_lift.
    rewrite (mem_get_spec s mi) by (done || apply HC).
    destruct (mi !! k) as [x|]; [|now apply wp_ret].
    apply (wp_check_alloc s me mi); [done|]. intros l s' HC' Hl _ _.
    now apply wp_bind, (wp_deref s' l x).
  - destruct Hok as [Hk Hok]. apply wp_bind, (wp_check_alloc s me mi); [done|].
    intros l s' HC' Hl _ _. apply wp_bind, (wp_check_Set s' me mi k l x); try done.
  - destruct Hok as [Hk Hok].
    apply wp_bind, wp_try, wp_bind, wp_gets, wp_bind, wp_lift.
    rewrite (mem_get_spec s mi) by (done || apply HC).
    destruct (mi !! k) as [y|] eqn:Ey; [|now apply wp_ret].
    apply (wp_check_alloc s me mi); [done|]. intros l s' [HC' Hi'] Hl Hun _.
    apply wp_bind, (wp_deref s' l y); [done|].
    apply wp_bind, (wp_assign_uncached ∅ s' me l x); eauto. intros s2 HC2 Hh2 Hled2.
    apply wp_bind, (wp_check_Set s2 me mi k l x); try done.
    + split; [done|]. unfold icoh in *; now rewrite Hled2.
    + now rewrite Hh2, lookup_insert_eq.
  - destruct HC as [HC (i & Ei & Hv)].
    apply wp_bind, wp_bind, wp_gets, wp_bind, wp_lift. unfold mem_Del.
    rewrite keystr_ok by done; cbn [obind]. apply wp_modify, wp_ret; cbn.
    split; [done|]. split; [destruct HC; now split|].
    eapply (icoh_update s _ i mi k None None); try done. constructor.
Qed.

(** ** Commit *)

Lemma wp_Commit s me :
  coh ∅ s me ->
  wp Commit (okQ (fun r s' =>
    coh2 s' me me /\ snd r = tree_Version (tree (commitLedger (ledger s))) + 1 /\
    exec_contents s' = exec_contents s /\ revs s' = revs s)) s.
Proof.
  intros HC. destruct HC as [Ht Hc Hi Hw]. unfold Commit, mut_Commit.
  apply wp_bind, wp_bind, wp_gets, wp_bind, wp_lift.
  set (t := tree (commitLedger (ledger s))) in *.
  destruct (SaveVersion_law t) as (h & t' & i & E & Hcont & _ & Hget & Himm & _).
  pose proof (Version_nonneg t).
  rewrite E; cbn [from_err]. apply wp_bind, wp_modify, wp_ret.
  unfold NewMemLedgerAt. apply wp_bind, wp_bind.
  rewrite (proj2 (Z.ltb_lt 0 (tree_Version t + 1))) by lia.
  apply wp_bind, wp_bind, wp_gets, wp_lift. cbn [set_commit ledger commitLedger tree].
  rewrite Hget. cbn [from_err]. apply wp_ret, wp_ret, wp_bind, wp_modify, wp_ret; cbn.
  split; [|done]. split.
  - split; unfold exec_contents, cached; cbn; [now rewrite Hcont| | |done].
    + intros k l Hl. rewrite lookup_empty in Hl. done.
    + intros k1 k2 l Hl. rewrite lookup_empty in Hl. done.
  - exists i. split; [done|]. intros k. unfold iview; cbn.
    rewrite lookup_empty, Himm. apply Ht.
Qed.

(** ** Iteration *)

(** The entries with the given prefix, in key order. *)
Definition with_prefix (c : gmap bytes bytes) (prefix : bytes) : list (bytes * bytes) :=
  filter (fun kv => bytes_HasPrefix (fst kv) prefix = true) (key_sorted c).

Fixpoint take_prefix (prefix : bytes) (l : list (bytes * bytes)) : list (bytes * bytes) :=
  match l with
  | [] => []
  | kv :: l' => if bytes_HasPrefix (fst kv) prefix then kv :: take_prefix prefix l' else []
  end.

Lemma take_prefix_sorted prefix l :
  StronglySorted (not_after key_less) l ->
  take_prefix prefix (filter (fun kv => (bytes_Compare prefix (fst kv) <=? 0) = true) l) =
  filter (fun kv => bytes_HasPrefix (fst kv) prefix = true) l.
Proof.
  induction 1 as [|x l Hs IH Hx]; [done|]. rewrite !filter_cons.
  destruct (decide (bytes_HasPrefix (fst x) prefix = true)) as [Hp|Hp].
  - rewrite decide_True by (apply Z.leb_le; now apply bytes_HasPrefix_ge).
    cbn. rewrite Hp. now f_equal.
  - destruct (decide ((bytes_Compare prefix (fst x) <=? 0) = true)) as [Hge|]; [|done].
    apply Z.leb_le in Hge. cbn. rewrite (proj1 (not_true_iff_false _) Hp). symmetry.
    clear IH Hs. induction Hx as [|y l Hy _ IHl]; [done|].
    rewrite filter_cons, decide_False; [done|]. intros Hpy.
    unfold not_after, key_less in Hy. rewrite Z.ltb_ge, bytes_Compare_antisym in Hy.
    apply Hp. eapply bytes_HasPrefix_convex; eauto. lia.
Qed.

(** Decode an entry into a new object and give it to the callback. *)
Definition visit {S} (ln : lens S (LState Item T I)) (cb : bytes -> loc -> M S unit)
    (kv : bytes * bytes) : M S unit :=
  let! item := lift (decode_at (fst kv) (snd kv)) in
  let! l := zoom ln (l_alloc item) in
  cb (fst kv) l.

Lemma seek_loop_visits {S} (ln : lens S (LState Item T I)) prefix cb kvs (s : S) :
  seek_loop ln prefix kvs cb s = for_each (take_prefix prefix kvs) (visit ln cb) s.
Proof.
  revert s; induction kvs as [|[k v] kvs IH]; intros s; [done|].
  cbn [seek_loop take_prefix fst]. destruct (bytes_HasPrefix k prefix); [|done].
  cbn [negb for_each]. unfold visit at 1, bind, lift; cbn [fst snd].
  destruct (decode_at k v) as [x|e|]; try done.
  destruct (zoom ln (l_alloc x) s) as [[l|e|] s2]; try done.
  destruct (cb k l s2) as [[[]|e|] s3]; auto.
Qed.

Lemma Seek_visits_aux {S} (ln : lens S (LState Item T I)) prefix cb (s : S) :
  Seek ln prefix true cb true s =
  for_each (with_prefix (exec_contents (lget ln s)) prefix) (visit ln cb) s.
Proof.
  unfold Seek, bind, zoom. cbn. unfold bind, gets, lift.
  rewrite Iterator_law; cbn. rewrite lset_lget, seek_loop_visits.
  unfold entries_from, with_prefix. now rewrite take_prefix_sorted by apply key_sorted_sorted.
Qed.

Lemma elem_of_with_prefix c prefix k b :
  (k, b) ∈ with_prefix c prefix <-> c !! k = Some b /\ bytes_HasPrefix k prefix = true.
Proof.
  unfold with_prefix. rewrite list_elem_of_filter, elem_of_key_sorted; cbn. tauto.
Qed.

Lemma NoDup_with_prefix c prefix : NoDup (map fst (with_prefix c prefix)).
Proof.
  unfold with_prefix. pose proof (NoDup_key_sorted c) as Hnd. revert Hnd.
  generalize (key_sorted c). induction l as [|x l IH]; cbn [map]; [done|].
  intros [Hx Hl]%NoDup_cons. rewrite filter_cons. case_decide; cbn [map]; [|auto].
  apply NoDup_cons. split; [|auto]. intros (y & Hy & Hin)%list_elem_of_fmap.
  apply list_elem_of_filter in Hin as [_ Hin]. apply Hx. rewrite Hy.
  now apply list_elem_of_fmap_2.
Qed.

Lemma with_prefix_sorted c prefix : StronglySorted (not_after key_less) (with_prefix c prefix).
Proof.
  unfold with_prefix. pose proof (key_sorted_sorted c) as Hs. revert Hs.
  generalize (key_sorted c). induction 1 as [|x l Hs IH Hx]; [constructor|].
  rewrite filter_cons. case_decide; [|done]. constructor; [done|].
  rewrite Forall_forall in *. intros y Hy. apply Hx.
  now apply list_elem_of_filter in Hy as [_ Hy].
Qed.

End LedgerOps.
