(* ===== verification/LedgerProps.v ===== *)
(** * LedgerProps: what the state ledgers promise to the controllers

    The theorems on the ledgers as a whole: delivering, checking and committing
    refine two independent maps of items; snapshots are restored; iteration is
    complete and in key order; and the places where the code departs from this.
    [Raw] is a concrete kind of item for the witnesses. *)
From stdpp Require Import base gmap list strings.
From Stdlib Require Import ZArith Lia Sorted.
From S2P Require Import Prelude XErrors GoMonad LedgerKeys Iavl Ledger LedgerSpec LedgerOps.

(** What a node does with a state ledger: an operation of the delivering or of
    the checking side, or the commit of a block. *)
Inductive lcmd (Item : Type) : Type :=
| COp (exec : bool) (op : lop Item)
| CCommit.
Arguments COp {Item} _ _.
Arguments CCommit {Item}.

Section Abstract.
Context {Item : Type}.

(** The abstract state: the delivered map and the checked map. *)
Fixpoint steps_lcmd (cs : list (lcmd Item)) (mm : gmap bytes Item * gmap bytes Item)
  : list (option Item) * (gmap bytes Item * gmap bytes Item) :=
  match cs with
  | [] => ([], mm)
  | c :: cs' =>
      let '(me, mi) := mm in
      let '(r, mm1) :=
        match c with
        | COp true op => let '(r, me') := step_lop op me in (r, (me', mi))
        | COp false op => let '(r, mi') := step_lop op mi in (r, (me, mi'))
        | CCommit => (None, (me, me))
        end in
      let '(rs, mm2) := steps_lcmd cs' mm1 in (r :: rs, mm2)
  end.

End Abstract.

Section LedgerProps.
Context {Item T I : Type} `{LedgerItem Item, !LedgerItemLaws Item}.
Context `{Iavl T I, !IavlLaws T I}.
Implicit Types (s : LState Item T I) (m : gmap bytes Item).

Fixpoint run_lcmds (cs : list (lcmd Item)) : M (LState Item T I) (list (option Item)) :=
  match cs with
  | [] => ret []
  | c :: cs' =>
      let! r := (match c with
                 | COp exec op => run_lop exec op
                 | CCommit => let! _ := Commit in ret None
                 end) in
      let! rs := run_lcmds cs' in
      ret (r :: rs)
  end.

Definition lcmd_ok (c : lcmd Item) : Prop :=
  match c with COp _ op => lop_ok op | CCommit => True end.

Lemma run_lcmd_step s me mi c :
  coh2 s me mi -> lcmd_ok c ->
  wp (match c with
      | COp exec op => run_lop exec op
      | CCommit => let! _ := Commit in ret None
      end) (okQ (fun r s' =>
    steps_lcmd [c] (me, mi) = ([r], snd (steps_lcmd [c] (me, mi))) /\
    let '(me', mi') := snd (steps_lcmd [c] (me, mi)) in coh2 s' me' mi')) s.
Proof.
  intros [HC Hi] Hok. destruct c as [[] op|]; cbn [steps_lcmd].
  - eapply wp_mono; [apply run_lop_exec; eauto|].
    intros [r|e|] s1; cbn; try done. intros (Hr & HC1 & Him & _).
    destruct (step_lop op me) as [r' me1]; cbn in *. split; [congruence|].
    split; [done|]. unfold icoh in *. now rewrite Him.
  - eapply wp_mono; [apply (run_lop_check s me mi); [now split|done]|].
    intros [r|e|] s1; cbn; try done. intros [Hr HC1].
    destruct (step_lop op mi) as [r' mi1]; cbn in *. split; [congruence|done].
  - apply wp_bind. eapply wp_mono; [apply wp_Commit; eauto|].
    intros [r|e|] s1; cbn; try done. intros [HC1 _]. now apply wp_ret.
Qed.

(** C1. The state ledger refines a pair of maps, one for delivered and one for
    checked transactions: any interleaving of reads, writes, in-place updates,
    deletions on either side and of commits returns without error exactly what
    the pair of maps returns, the two sides never see each other's writes, and
    a commit makes the delivered map the checked one. *)
Theorem ledger_refines_maps (cs : list (lcmd Item)) s me mi :
  coh2 s me mi -> Forall lcmd_ok cs ->
  wp (run_lcmds cs) (okQ (fun rs s' =>
    rs = fst (steps_lcmd cs (me, mi)) /\
    coh2 s' (fst (snd (steps_lcmd cs (me, mi)))) (snd (snd (steps_lcmd cs (me, mi)))))) s.
Proof.
  intros HC Hok. revert s me mi HC.
  induction Hok as [|c cs Hc _ IH]; intros s me mi HC; [now apply wp_ret|].
  cbn [run_lcmds]. apply wp_bind. eapply wp_mono; [apply run_lcmd_step; eauto|].
  intros [r|e|] s1; cbn; try done. intros [Hr HC1].
  destruct (match c with COp _ _ => _ | CCommit => _ end) as [r' [me1 mi1]]; cbn in *.
  assert (r' = r) as -> by congruence.
  apply wp_bind. eapply wp_mono; [apply (IH s1 me1 mi1 HC1)|].
  intros [rs|e|] s2; cbn; try done. intros [Hrs HC2].
  destruct (steps_lcmd cs (me1, mi1)) as [rs' [me2 mi2]]; cbn in *. subst rs'.
  now apply wp_ret.
Qed.

(** C19. Taking a snapshot of the delivering ledger, running any operations and
    reverting to the snapshot returns without error and gives back the same
    items, the same tree contents and the same revisions, when no item has an
    empty encoding. *)
Theorem revert_restores (ops : list (lop Item)) s m :
  nonempty_items -> coh ∅ s m -> Forall lop_ok ops ->
  wp (let! snap := Snapshot true in
      run_lops true ops ;;;
      RevertToSnapshot snap true)
    (okQ (fun _ s' => coh ∅ s' m /\ exec_contents s' = exec_contents s /\
       revs s' = revs s /\ imitableLedger (ledger s') = imitableLedger (ledger s))) s.
Proof.
  intros Hne HC Hok. apply wp_bind, wp_gets, wp_bind.
  eapply wp_mono; [apply (run_lops_from_snapshot ops s m Hne HC Hok)|].
  intros [rs|e|] s1; cbn beta iota delta [okQ]; try done.
  intros ([m1 HC1] & Him & l & Hr & Hu).
  eapply wp_mono; [apply (wp_RevertToSnapshot s1 m1 (exec_contents s) m (revs s) l); eauto using coh_tree|].
  intros [[]|e|] s2; cbn beta iota delta [okQ]; try done. rewrite Him. auto.
Qed.

(** An ascending [Seek] of the delivering ledger runs the callback once for
    every stored entry whose key has the prefix, no other, in key order, and
    stops at the first error: it is the loop over that sorted list. *)
Theorem Seek_visits {S} (ln : lens S (LState Item T I)) prefix cb (s : S) :
  Seek ln prefix true cb true s =
    for_each (with_prefix (exec_contents (lget ln s)) prefix) (visit ln cb) s /\
  (forall k b, (k, b) ∈ with_prefix (exec_contents (lget ln s)) prefix <->
    exec_contents (lget ln s) !! k = Some b /\ bytes_HasPrefix k prefix = true) /\
  NoDup (map fst (with_prefix (exec_contents (lget ln s)) prefix)) /\
  StronglySorted (not_after key_less) (with_prefix (exec_contents (lget ln s)) prefix).
Proof.
  split; [apply Seek_visits_aux|]. split; [intros; apply elem_of_with_prefix|].
  split; [apply NoDup_with_prefix|apply with_prefix_sorted].
Qed.

(** Committing does not clear the revisions of the delivering ledger (the
    method that would has a value receiver), so a snapshot taken before a commit
    is still accepted after it and reverting to it undoes the committed
    changes. *)
Theorem revert_crosses_commit (ops : list (lop Item)) s m :
  nonempty_items -> coh ∅ s m -> Forall lop_ok ops ->
  wp (let! snap := Snapshot true in
      run_lops true ops ;;;
      Commit ;;;
      RevertToSnapshot snap true)
    (okQ (fun _ s' => coh ∅ s' m /\ exec_contents s' = exec_contents s)) s.
Proof.
  intros Hne HC Hok. apply wp_bind, wp_gets, wp_bind.
  eapply wp_mono; [apply (run_lops_from_snapshot ops s m Hne HC Hok)|].
  intros [rs|e|] s1; cbn beta iota delta [okQ]; try done.
  intros ([m1 HC1] & Him & l & Hr & Hu). apply wp_bind.
  eapply wp_mono; [apply (wp_Commit s1 m1 HC1)|].
  intros [hv|e|] s2; cbn beta iota delta [okQ]; try done.
  intros ([HC2 _] & _ & Hec & Hr2). rewrite <- Hec in Hu. rewrite <- Hr2 in Hr.
  eapply wp_mono; [apply (wp_RevertToSnapshot s2 m1 (exec_contents s) m (revs s) l); eauto using coh_tree|].
  intros [[]|e|] s3; cbn beta iota delta [okQ]; try done. tauto.
Qed.

(** Deleting from the checking ledger a key that only the committed tree
    holds records no revision: reverting to the snapshot taken before the
    deletion leaves the key deleted. *)
Theorem mem_Del_not_reverted (ml : MemLedger I) i k b :
  immuTree ml = Some i -> k <> [] -> memStorage ml !! k = None -> imm_contents i !! k = Some b ->
  exists ml1 ml2,
    mem_Del ml k = Ok ml1 /\ mem_RevertToSnapshot ml1 (mem_Snapshot ml) = Ok ml2 /\
    iview ml i k = Some b /\ iview ml2 i k = None.
Proof.
  intros Ei Hk Hm Hb. unfold mem_Del. rewrite keystr_ok by done; cbn [obind]. rewrite Hm.
  do 2 eexists. split; [reflexivity|]. unfold mem_RevertToSnapshot, mem_Snapshot; cbn [mrevisions].
  rewrite <- (app_nil_r (mrevisions ml)) at 1. rewrite rev_from_app. cbn.
  split; [reflexivity|]. unfold iview; cbn. rewrite Hm, lookup_insert_eq. done.
Qed.

End LedgerProps.

(** ** Witnesses *)

Module Raw.

(** An item that is its own encoding. *)
Record raw := MkRaw { payload : bytes }.

Definition k1 : bytes := [1].
Definition k2 : bytes := [2].

End Raw.

#[global] Instance Raw_item : LedgerItem Raw.raw := {
  newItemFor _ := Ok (Raw.MkRaw []);
  Encode x := Ok (Raw.payload x);
  Decode _ _ b := Ok (Raw.MkRaw b);
}.

#[global] Program Instance Raw_laws : LedgerItemLaws Raw.raw := {
  item_ok _ x := Raw.payload x <> [];
}.
Next Obligation. intros k [b] Hb. now exists b. Qed.

Lemma Raw_nonempty : nonempty_items (Item := Raw.raw).
Proof. intros k [b] Hb E. injection E as E. now apply Hb. Qed.

(** An empty ledger whose first version is committed. *)
Definition Raw_state : LState Raw.raw RefTree.tree (gmap bytes bytes) :=
  MkLState empty_store
    (MkStateLedger (MkMutableLedger RefTree.empty [] ∅) (MkMemLedger (Some ∅) ∅ [])).

Lemma Raw_coh : coh2 Raw_state ∅ ∅.
Proof.
  split.
  - split; cbn; try done. constructor.
  - exists ∅. split; [done|]. intros k. constructor.
Qed.

Definition Raw_ops : list (lop Raw.raw) :=
  [LPut Raw.k1 (Raw.MkRaw [7]); LUpdate Raw.k1 (Raw.MkRaw [8]); LDel Raw.k1;
   LPut Raw.k2 (Raw.MkRaw [9])].

Lemma Raw_ops_ok : Forall lop_ok Raw_ops.
Proof. repeat constructor; done. Qed.

Definition Raw_cmds : list (lcmd Raw.raw) :=
  [COp true (LPut Raw.k1 (Raw.MkRaw [7])); COp false (LGet Raw.k1); CCommit;
   COp false (LUpdate Raw.k1 (Raw.MkRaw [8])); COp true (LGet Raw.k1);
   COp false (LGet Raw.k1); COp false (LDel Raw.k1)].

Lemma Raw_cmds_ok : Forall lcmd_ok Raw_cmds.
Proof. repeat constructor; done. Qed.

(** The theorem applied to a concrete run, and what the run returns. *)
Lemma ledger_refines_maps_witness :
  fst (run_lcmds Raw_cmds Raw_state) =
    Ok [Some (Raw.MkRaw [7]); None; None; Some (Raw.MkRaw [7]); Some (Raw.MkRaw [7]);
        Some (Raw.MkRaw [8]); None].
Proof.
  pose proof (ledger_refines_maps Raw_cmds Raw_state ∅ ∅ Raw_coh Raw_cmds_ok) as H.
  unfold wp, okQ in H. destruct (run_lcmds Raw_cmds Raw_state) as [[rs|e|] s']; cbn [fst snd] in *.
  - destruct H as [-> _]. vm_compute. reflexivity.
  - destruct H.
  - destruct H.
Defined.

Lemma revert_restores_witness :
  wp (let! snap := Snapshot true in run_lops true Raw_ops ;;; RevertToSnapshot snap true)
    (okQ (fun _ s' => exec_contents s' = ∅)) Raw_state.
Proof.
  eapply wp_mono; [exact (revert_restores Raw_ops Raw_state ∅ Raw_nonempty (proj1 Raw_coh) Raw_ops_ok)|].
  intros [u|e|] s' H; [|destruct H|destruct H]. exact (proj1 (proj2 H)).
Defined.

Lemma revert_crosses_commit_witness :
  wp (let! snap := Snapshot true in run_lops true Raw_ops ;;; Commit ;;;
      RevertToSnapshot snap true)
    (okQ (fun _ s' => exec_contents s' = ∅)) Raw_state.
Proof.
  eapply wp_mono;
    [exact (revert_crosses_commit Raw_ops Raw_state ∅ Raw_nonempty (proj1 Raw_coh) Raw_ops_ok)|].
  intros [u|e|] s' H; [|destruct H|destruct H]. exact (proj2 H).
Defined.

Lemma mem_Del_not_reverted_witness :
  exists ml1 ml2 : MemLedger (gmap bytes bytes),
    mem_Del (MkMemLedger (Some {[Raw.k1 := [5]]}) ∅ []) Raw.k1 = Ok ml1 /\
    mem_RevertToSnapshot ml1 0 = Ok ml2 /\ memStorage ml2 !! Raw.k1 = Some None.
Proof.
  destruct (mem_Del_not_reverted (T := RefTree.tree)
    (MkMemLedger (Some {[Raw.k1 := [5]]}) ∅ []) {[Raw.k1 := [5]]} Raw.k1 [5])
    as (ml1 & ml2 & H1 & H2 & _ & H4); [reflexivity|discriminate|reflexivity|reflexivity|].
  exists ml1, ml2. split; [exact H1|]. split; [exact H2|].
  injection H1 as <-. injection H2 as <-. reflexivity.
Defined.
