(* ===== verification/LedgerV0.v ===== *)
(** * LedgerV0: the first generation of ledgers ([ledger/v0])

    A ledger keeps three things in memory beside the merkle tree
    ([mem_items.go]): the objects read so far, the objects to write and the keys
    to remove.  [SimpleLedger] has one such memory, for checked transactions;
    [FinalityLedger] has a second one, for delivered transactions, which
    [Commit] writes to the tree.  [MemLedger] keeps its items in a map and has
    no tree.

    An item is an object behind a pointer that knows its key.  The methods of
    [FinalityLedger] that end in [Finality] are those of [SimpleLedger] on the
    second memory.  Go visits the entries of a map in an order of its own
    ([MapRange]). *)
From stdpp Require Import base gmap list strings.
From Stdlib Require Import ZArith Lia.
From S2P Require Import Prelude XErrors GoMonad LedgerKeys Iavl Ledger.

(** [ILedgerItem] with the constructor [getNewItem] of the ledger. *)
Class ItemV0 (Item : Type) : Type := {
  getNewItem : Item;
  item_Key : Item -> bytes;
  item_Encode : Item -> outcome bytes;
  item_Decode : Item -> bytes -> outcome Item;
}.

(** [for k, v := range m] *)
Class MapRange : Type := map_range : forall {A : Type}, gmap bytes A -> list (bytes * A).
Class MapRangeLaws `{MapRange} : Prop :=
  map_range_perm : forall A (m : gmap bytes A), map_range m ≡ₚ map_to_list m.

(** A tree opened on the database of another, at a version. *)
Class IavlOpen (T : Type) : Type := tree_OpenAt : T -> Z -> outcome T.

(** ** Keys *)

Definition LEDGERKEYSIZE : nat := 32.

Definition ToLedgerKey (s : bytes) : bytes :=
  let n := if (LEDGERKEYSIZE <? length s)%nat then LEDGERKEYSIZE else length s in
  take n s ++ repeat 0 (LEDGERKEYSIZE - n).

(** [LedgerKeyList.Less] *)
Definition key_list_Less (a b : bytes) : bool := 0 <? bytes_Compare a b.

(** ** The memory of a ledger *)

Record memItems := MkMemItems {
  gotItems : gmap bytes loc;
  updatedItems : gmap bytes loc;
  removedKeys : list bytes;
}.

Definition newMemItems : memItems := MkMemItems ∅ ∅ [].

Definition appendRemovedKey (key : bytes) (m : memItems) : memItems :=
  MkMemItems (gotItems m) (updatedItems m) (removedKeys m ++ [key]).

Definition isRemovedKey (key : bytes) (m : memItems) : bool :=
  existsb (fun k => bool_decide (key = k)) (removedKeys m).

(** The key of an item is the one it has when it is stored. *)
Definition setGotItem (key : bytes) (item : loc) (m : memItems) : memItems :=
  MkMemItems (<[key := item]> (gotItems m)) (updatedItems m) (removedKeys m).
Definition setUpdatedItem (key : bytes) (item : loc) (m : memItems) : memItems :=
  MkMemItems (gotItems m) (<[key := item]> (updatedItems m)) (removedKeys m).

Definition getGotItem (key : bytes) (m : memItems) : option loc := gotItems m !! key.
Definition getUpdatedItem (key : bytes) (m : memItems) : option loc := updatedItems m !! key.

Definition delGotItem (key : bytes) (m : memItems) : memItems :=
  MkMemItems (delete key (gotItems m)) (updatedItems m) (removedKeys m).
Definition delUpdatedItem (key : bytes) (m : memItems) : memItems :=
  MkMemItems (gotItems m) (delete key (updatedItems m)) (removedKeys m).

(** The first occurrence is removed. *)
Fixpoint remove_first (key : bytes) (ks : list bytes) : list bytes :=
  match ks with
  | [] => []
  | k :: ks' => if bool_decide (k = key) then ks' else k :: remove_first key ks'
  end.
Definition delRemovedKey (key : bytes) (m : memItems) : memItems :=
  MkMemItems (gotItems m) (updatedItems m) (remove_first key (removedKeys m)).

Definition memItems_reset (m : memItems) : memItems := MkMemItems ∅ ∅ [].
Definition memItems_refresh (m : memItems) : memItems :=
  MkMemItems (updatedItems m ∪ gotItems m) ∅ [].

(** ** SimpleLedger *)

Section LedgerV0.
Context {Item T I : Type} `{ItemV0 Item} `{Iavl T I} `{MapRange, IavlOpen T}.

Record SimpleLedger := MkSimpleLedger { s_tree : T; cachedItems : memItems }.

Record FinalityLedger := MkFinalityLedger {
  f_tree : T;
  f_cachedItems : memItems;
  finalityItems : memItems;
}.

(** The objects, and a ledger. *)
Abbreviation SLState := (store Item * SimpleLedger)%type.
Abbreviation FLState := (store Item * FinalityLedger)%type.

Definition on_items (f : memItems -> memItems) : M SLState unit :=
  modify (fun '(st, s) => (st, MkSimpleLedger (s_tree s) (f (cachedItems s)))).

Definition sl_deref (l : loc) : M SLState Item := zoom fst_lens (deref l).

Definition sl_Version : M SLState Z := gets (fun s => tree_Version (s_tree (snd s))).

Definition sl_read (key : bytes) : M SLState loc :=
  let! t := gets (fun s => s_tree (snd s)) in
  let! bz := lift (from_err (tree_Get t key)) in
  match bz with
  | None => throw ErrNotFoundResult
  | Some b =>
      let! x := lift (from_err (item_Decode getNewItem b)) in
      if bool_decide (key = item_Key x) then zoom fst_lens (alloc x)
      else throw (NewOrdinary "simple_ledger: the key is compromised - the requested key is not equal to the key encoded in value")
  end.

Definition sl_Set (item : loc) : M SLState unit :=
  let! x := sl_deref item in
  on_items (setUpdatedItem (item_Key x) item) ;;;
  on_items (setGotItem (item_Key x) item).

Definition sl_CancelSet (key : bytes) : M SLState unit :=
  on_items (delUpdatedItem key) ;;; on_items (delGotItem key).

Definition sl_get (key : bytes) : M SLState loc :=
  let! m := gets (fun s => cachedItems (snd s)) in
  if isRemovedKey key m then throw ErrNotFoundResult
  else
    match getGotItem key m with
    | Some item => ret item
    | None =>
        let! item := sl_read key in
        let! x := sl_deref item in
        on_items (setGotItem (item_Key x) item) ;;;
        ret item
    end.

Definition sl_del (key : bytes) : M SLState loc :=
  let! item := sl_get key in
  on_items (delGotItem key) ;;;
  on_items (delUpdatedItem key) ;;;
  on_items (appendRemovedKey key) ;;;
  ret item.

Definition sl_CancelDel (key : bytes) : M SLState unit := on_items (delRemovedKey key).

(** [Read] keeps nothing in memory. *)
Definition sl_Read (key : bytes) : M SLState loc := sl_read key.

Definition sl_Commit : M SLState (bytes * Z) := panic.

(** A ledger on the same tree, or on a past version, with nothing in memory. *)
Definition sl_Clone : M SLState SimpleLedger :=
  gets (fun s => MkSimpleLedger (s_tree (snd s)) newMemItems).

Definition sl_ImmutableLedgerAt (n : Z) : M SLState SimpleLedger :=
  let! t := gets (fun s => s_tree (snd s)) in
  let! t' := lift (from_err (tree_OpenAt t n)) in
  ret (MkSimpleLedger t' newMemItems).

(** ** Iteration *)

(** [iterateItems] over a map of items *)
Definition iterateItems {S : Type} (m : gmap bytes loc) (cb : loc -> M S unit) : M S unit :=
  for_each (map snd (map_range m)) cb.

Definition sl_IterateGotItems {S : Type} (ln : lens S SLState) (cb : loc -> M S unit) : M S unit :=
  let! m := zoom ln (gets (fun s => gotItems (cachedItems (snd s)))) in iterateItems m cb.
Definition sl_IterateUpdatedItems {S : Type} (ln : lens S SLState) (cb : loc -> M S unit) : M S unit :=
  let! m := zoom ln (gets (fun s => updatedItems (cachedItems (snd s)))) in iterateItems m cb.

(** The body of the tree's iteration: its error stops the iteration and is
    returned. *)
Definition read_entry {S : Type} (ln : lens S SLState) (cb : loc -> M S unit) (kv : bytes * bytes) : M S unit :=
  match item_Decode getNewItem (snd kv) with
  | Panic => panic
  | Err e => throw (NewOrdinary "item decode error - Key:%X vs. err:%v")
  | Ok x =>
      if bool_decide (item_Key x = ToLedgerKey (fst kv))
      then let! l := zoom ln (zoom fst_lens (alloc x)) in cb l
      else throw (NewOrdinary "wrong key - Key:%X vs. stake's txhash:%X")
  end.

Definition sl_IterateReadAllItems {S : Type} (ln : lens S SLState) (cb : loc -> M S unit) : M S unit :=
  let! t := zoom ln (gets (fun s => s_tree (snd s))) in
  let! kvs := lift (from_err (tree_Iterator t [] true)) in
  for_each kvs (read_entry ln cb).

(** ** FinalityLedger *)

(** The embedded [SimpleLedger], and the same code on [finalityItems]. *)
Program Definition simple_lens : lens FLState SLState :=
  Lens (fun '(st, f) => (st, MkSimpleLedger (f_tree f) (f_cachedItems f)))
       (fun '(st, s) '(_, f) => (st, MkFinalityLedger (s_tree s) (cachedItems s) (finalityItems f))) _ _ _.
Next Obligation. now intros [? []] [? []]. Qed.
Next Obligation. now intros [? []]. Qed.
Next Obligation. now intros [? []] [? []] [? []]. Qed.

Program Definition finality_lens : lens FLState SLState :=
  Lens (fun '(st, f) => (st, MkSimpleLedger (f_tree f) (finalityItems f)))
       (fun '(st, s) '(_, f) => (st, MkFinalityLedger (s_tree s) (f_cachedItems f) (cachedItems s))) _ _ _.
Next Obligation. now intros [? []] [? []]. Qed.
Next Obligation. now intros [? []]. Qed.
Next Obligation. now intros [? []] [? []] [? []]. Qed.

Definition fl_SetFinality (item : loc) : M FLState unit := zoom finality_lens (sl_Set item).
Definition fl_CancelSetFinality (key : bytes) : M FLState unit := zoom finality_lens (sl_CancelSet key).
Definition fl_GetFinality (key : bytes) : M FLState loc := zoom finality_lens (sl_get key).
Definition fl_CancelDelFinality (key : bytes) : M FLState unit := zoom finality_lens (sl_CancelDel key).

(** The item is removed from the [SimpleLedger] too; a failure there is dropped. *)
Definition fl_DelFinality (key : bytes) : M FLState loc :=
  ignore (zoom simple_lens (sl_del key)) ;;;
  zoom finality_lens (sl_del key).

Definition fl_ImmutableLedgerAt (n : Z) : M FLState SimpleLedger := zoom simple_lens (sl_ImmutableLedgerAt n).

Definition fl_IterateReadAllFinalityItems {S : Type} (ln : lens S FLState) (cb : loc -> M S unit) : M S unit :=
  sl_IterateReadAllItems (lens_comp ln simple_lens) cb.
Definition fl_IterateFinalityGotItems {S : Type} (ln : lens S FLState) (cb : loc -> M S unit) : M S unit :=
  sl_IterateGotItems (lens_comp ln finality_lens) cb.
Definition fl_IterateFinalityUpdatedItems {S : Type} (ln : lens S FLState) (cb : loc -> M S unit) : M S unit :=
  sl_IterateUpdatedItems (lens_comp ln finality_lens) cb.

(** The steps of [Commit]. *)
Definition set_f_tree (t : T) : M FLState unit :=
  modify (fun '(st, f) => (st, MkFinalityLedger t (f_cachedItems f) (finalityItems f))).

Definition commit_remove (key : bytes) : M FLState unit :=
  let! t := gets (fun s => f_tree (snd s)) in
  let! r := lift (from_err (tree_Remove t key)) in
  set_f_tree (snd r).

(** [updatedItems[k]] is not nil, as [k] ranges over its keys. *)
Definition commit_update (upd : gmap bytes loc) (k : bytes) : M FLState unit :=
  match upd !! k with
  | None => panic
  | Some l =>
      let! x := zoom fst_lens (deref l) in
      let! bz := lift (item_Encode x) in
      let! t := gets (fun s => f_tree (snd s)) in
      let! t' := lift (from_err (tree_Set t (item_Key x) bz)) in
      set_f_tree t'
  end.

Definition fl_Commit : M FLState (bytes * Z) :=
  let! m := gets (fun s => finalityItems (snd s)) in
  for_each (removedKeys m) commit_remove ;;;
  let keys := go_sort key_list_Less (map fst (map_range (updatedItems m))) in
  for_each keys (commit_update (updatedItems m)) ;;;
  let! t := gets (fun s => f_tree (snd s)) in
  let! r := lift (from_err (tree_SaveVersion t)) in
  let '(hash, ver, t') := r in
  modify (fun '(st, f) => (st, MkFinalityLedger t' (memItems_reset (f_cachedItems f)) (memItems_refresh (finalityItems f)))) ;;;
  ret (hash, ver).

(** ** MemLedger *)

Record MemLedgerV0 := MkMemLedgerV0 { ml_storage : gmap bytes loc; ml_items : memItems }.
Abbreviation MLState := (store Item * MemLedgerV0)%type.

Definition ml_on (f : memItems -> memItems) : M MLState unit :=
  modify (fun '(st, m) => (st, MkMemLedgerV0 (ml_storage m) (f (ml_items m)))).

Definition ml_read (key : bytes) : M MLState loc :=
  let! stg := gets (fun s => ml_storage (snd s)) in
  match stg !! key with
  | None => throw (NewOrdinary "simple_ledger: not found")
  | Some l =>
      let! x := zoom fst_lens (deref l) in
      if bool_decide (key = item_Key x) then ret l
      else throw (NewOrdinary "simple_ledger: the key is compromised - the requested key is not equal to the key encoded in value")
  end.

Definition ml_Set (item : loc) : M MLState unit :=
  let! x := zoom fst_lens (deref item) in ml_on (setUpdatedItem (item_Key x) item).
Definition ml_CancelSet (key : bytes) : M MLState unit := ml_on (delUpdatedItem key).

(** [Read] and the second half of [get] *)
Definition ml_Read (key : bytes) : M MLState loc :=
  let! l := ml_read key in
  let! x := zoom fst_lens (deref l) in
  ml_on (setGotItem (item_Key x) l) ;;;
  ret l.

Definition ml_get (key : bytes) : M MLState loc :=
  let! m := gets (fun s => ml_items (snd s)) in
  match getGotItem key m with
  | Some item => ret item
  | None => ml_Read key
  end.

Definition ml_Del (key : bytes) : M MLState loc :=
  let! item := ml_get key in
  ml_on (delGotItem key) ;;;
  ml_on (delUpdatedItem key) ;;;
  ml_on (appendRemovedKey key) ;;;
  ret item.
Definition ml_CancelDel (key : bytes) : M MLState unit := ml_on (delRemovedKey key).

(** The updated items first, then the removed keys. *)
Definition ml_Commit : M MLState unit :=
  modify (fun '(st, m) =>
    (st, MkMemLedgerV0
           (fold_left (fun stg k => delete k stg) (removedKeys (ml_items m))
             (updatedItems (ml_items m) ∪ ml_storage m))
           (memItems_reset (ml_items m)))).

Definition ml_IterateReadAllItems {S : Type} (ln : lens S MLState) (cb : loc -> M S unit) : M S unit :=
  let! m := zoom ln (gets (fun s => ml_storage (snd s))) in iterateItems m cb.
Definition ml_IterateGotItems {S : Type} (ln : lens S MLState) (cb : loc -> M S unit) : M S unit :=
  let! m := zoom ln (gets (fun s => gotItems (ml_items (snd s)))) in iterateItems m cb.
Definition ml_IterateUpdatedItems {S : Type} (ln : lens S MLState) (cb : loc -> M S unit) : M S unit :=
  let! m := zoom ln (gets (fun s => updatedItems (ml_items (snd s)))) in iterateItems m cb.

End LedgerV0.

Arguments SimpleLedger : clear implicits.
Arguments FinalityLedger : clear implicits.
Arguments MkSimpleLedger {T} _ _.
Arguments MkFinalityLedger {T} _ _ _.
