(* ===== verification/LedgerV0Props.v ===== *)
(** * LedgerV0Props: the first ledgers as overlays of a map

    A memory of a ledger is an overlay of the committed items: pending writes and
    removed keys.  Any sequence of operations on the finality ledger, on either
    memory and with commits in between, gives what the overlays give, and the
    committed tree does not depend on the order in which Go visits a map. *)
From stdpp Require Import base gmap list strings.
From Stdlib Require Import ZArith Lia.
From S2P Require Import Prelude XErrors GoMonad LedgerKeys Iavl Ledger LedgerV0.

Class ItemV0Laws (Item : Type) `{ItemV0 Item} : Type := {
  itemv0_ok : Item -> Prop;
  itemv0_encode : forall x, itemv0_ok x -> exists b, item_Encode x = Ok b /\ item_Decode getNewItem b = Ok x;
}.

(** ** Overlays *)

Section Overlay.
Context {Item : Type} `{ItemV0 Item}.

Record overlay := MkOverlay {
  ov_upd : gmap bytes Item;
  ov_dead : gset bytes;
}.

Definition ov_empty : overlay := MkOverlay ∅ ∅.

(** What is read at [k]: a removed key hides a pending write. *)
Definition ov_view (b : gmap bytes Item) (o : overlay) (k : bytes) : option Item :=
  if bool_decide (k ∈ ov_dead o) then None
  else match ov_upd o !! k with Some x => Some x | None => b !! k end.

(** The items after the overlay is written: removals first. *)
Definition ov_commit (b : gmap bytes Item) (o : overlay) : gmap bytes Item :=
  ov_upd o ∪ filter (fun kx => fst kx ∉ ov_dead o) b.

(** Operations of a client: it stores a new object, changes the object it got in
    place and stores it again, reads, removes, or takes a change back. *)
Inductive vop :=
| VSet (x : Item)
| VUpdate (k : bytes) (x : Item)
| VGet (k : bytes)
| VDel (k : bytes)
| VCancelSet (k : bytes)
| VCancelDel (k : bytes).

Definition ov_set (k : bytes) (x : Item) (o : overlay) : overlay := MkOverlay (<[k := x]> (ov_upd o)) (ov_dead o).

Definition ov_forget (k : bytes) (o : overlay) : overlay := MkOverlay (delete k (ov_upd o)) (ov_dead o).
Definition ov_bury (k : bytes) (o : overlay) : overlay := MkOverlay (ov_upd o) (ov_dead o ∪ {[k]}).

Definition step_vop (b : gmap bytes Item) (op : vop) (o : overlay) : option Item * overlay :=
  match op with
  | VSet x => (Some x, ov_set (item_Key x) x o)
  | VUpdate k x =>
      match ov_view b o k with
      | Some _ => (Some x, ov_set k x o)
      | None => (None, o)
      end
  | VGet k => (ov_view b o k, o)
  | VDel k =>
      match ov_view b o k with
      | Some y => (Some y, ov_bury k (ov_forget k o))
      | None => (None, o)
      end
  | VCancelSet k => (None, ov_forget k o)
  | VCancelDel k => (None, MkOverlay (ov_upd o) (ov_dead o ∖ {[k]}))
  end.

Lemma lookup_ov_commit b o k :
  ov_commit b o !! k =
  match ov_upd o !! k with
  | Some x => Some x
  | None => if bool_decide (k ∈ ov_dead o) then None else b !! k
  end.
Proof.
  unfold ov_commit. destruct (ov_upd o !! k) as [x|] eqn:E; [now apply lookup_union_Some_l|].
  rewrite lookup_union_r by done. case_bool_decide as Hd.
  - apply map_lookup_filter_None. right. intros x _ Hn. now apply Hn.
  - destruct (b !! k) as [x|] eqn:Eb.
    + now apply map_lookup_filter_Some.
    + apply map_lookup_filter_None. now left.
Qed.

End Overlay.
Arguments overlay : clear implicits.
Arguments vop : clear implicits.

Section Refine.
Context {Item T I : Type} `{ItemV0 Item, !ItemV0Laws Item} `{Iavl T I, !IavlLaws T I}.
Implicit Types (st : store Item) (t : T) (mi : memItems) (b : gmap bytes Item) (o : overlay Item).

Abbreviation SLS := (store Item * SimpleLedger T)%type.

(** The error of a lookup, as a value. *)
Definition found {S : Type} (m : M S loc) : M S (option loc) :=
  let! r := try m in
  match r with
  | inl l => ret (Some l)
  | inr e => if bool_decide (e = ErrNotFoundResult) then ret None else throw e
  end.

Definition run_vop (op : vop Item) : M SLS (option Item) :=
  match op with
  | VSet x => let! l := zoom fst_lens (alloc x) in sl_Set l ;;; ret (Some x)
  | VUpdate k x =>
      let! r := found (sl_get k) in
      match r with
      | Some l => zoom fst_lens (assign l x) ;;; sl_Set l ;;; ret (Some x)
      | None => ret None
      end
  | VGet k =>
      let! r := found (sl_get k) in
      match r with
      | Some l => let! x := sl_deref l in ret (Some x)
      | None => ret None
      end
  | VDel k =>
      let! r := found (sl_del k) in
      match r with
      | Some l => let! x := sl_deref l in ret (Some x)
      | None => ret None
      end
  | VCancelSet k => sl_CancelSet k ;;; ret None
  | VCancelDel k => sl_CancelDel k ;;; ret None
  end.

Definition vop_ok (op : vop Item) : Prop :=
  match op with
  | VSet x => itemv0_ok x
  | VUpdate k x => itemv0_ok x /\ item_Key x = k
  | _ => True
  end.

(** ** Coherence *)

Definition stored0 (k bz : bytes) (x : Item) : Prop := itemv0_ok x /\ item_Key x = k /\ item_Encode x = Ok bz.

Definition represents0 t b : Prop := forall k, option_Forall2 (stored0 k) (contents t !! k) (b !! k).

Record coh0 st mi b o : Prop := {
  c0_got : forall k l, gotItems mi !! k = Some l -> exists x, objs st !! l = Some x /\ item_Key x = k /\
    (ov_upd o !! k = Some x \/ (ov_upd o !! k = None /\ b !! k = Some x /\ k ∉ ov_dead o));
  c0_upd : forall k, match updatedItems mi !! k with
    | Some l => gotItems mi !! k = Some l /\ exists x, ov_upd o !! k = Some x /\ itemv0_ok x
    | None => ov_upd o !! k = None
    end;
  c0_dead : forall k, k ∈ removedKeys mi <-> k ∈ ov_dead o;
  c0_nodup : NoDup (removedKeys mi);
}.

(** [l] is an object of the memory. *)
Definition in_mem mi (l : loc) : Prop := exists k, gotItems mi !! k = Some l.

(** An operation on one memory changes only its own objects and new ones. *)
Record local st mi st' mi' : Prop := {
  lc_keep : forall l x, objs st !! l = Some x -> ~ in_mem mi l -> objs st' !! l = Some x;
  lc_dom : forall l, objs st' !! l = None -> objs st !! l = None;
  lc_new : forall l, in_mem mi' l -> in_mem mi l \/ objs st !! l = None;
  lc_wf : store_wf st';
}.

Lemma local_refl st mi : store_wf st -> local st mi st mi.
Proof. split; auto. Qed.

(** The other memory stays coherent. *)
Lemma local_coh st mi st' mi' mo b o :
  local st mi st' mi' -> coh0 st mo b o -> (forall l, in_mem mi l -> ~ in_mem mo l) ->
  coh0 st' mo b o /\ (forall l, in_mem mi' l -> ~ in_mem mo l).
Proof.
  intros [Hk _ Hn _] [Hg Hu Hd Hnd] Hdis. split.
  - split; try done. intros k l Hl. destruct (Hg k l Hl) as (x & Hx & Hr). exists x. split; [|done].
    apply Hk; [done|]. intros Hin. apply (Hdis l Hin). now exists k.
  - intros l Hin' [k Hk']. destruct (Hn l Hin') as [Hin|Hnone]; [apply (Hdis l Hin); now exists k|].
    destruct (Hg k l Hk') as (x & Hx & _). congruence.
Qed.

Lemma local_trans st mi st1 mi1 st2 mi2 :
  local st mi st1 mi1 -> local st1 mi1 st2 mi2 -> local st mi st2 mi2.
Proof.
  intros [Hk1 Hd1 Hn1 _] [Hk2 Hd2 Hn2 Hw2]. split; [|auto| |done].
  - intros l x Hl Hin. apply Hk2; [auto|]. intros Hin1. destruct (Hn1 l Hin1); [done|congruence].
  - intros l Hin. destruct (Hn2 l Hin) as [Hin1|Hno]; [auto|]. right. auto.
Qed.

Lemma isRemovedKey_spec k mi : isRemovedKey k mi = true <-> k ∈ removedKeys mi.
Proof.
  unfold isRemovedKey. rewrite existsb_exists. split.
  - intros (k' & Hin & E). apply bool_decide_eq_true_1 in E as ->. now apply list_elem_of_In.
  - intros Hin. exists k. split; [now apply list_elem_of_In|]. now apply bool_decide_eq_true_2.
Qed.

(** The object of a new item. *)
Lemma local_alloc st mi mi' x :
  store_wf st -> (forall l, in_mem mi' l -> in_mem mi l \/ l = fresh st) ->
  local st mi (Store (<[fresh st := x]> (objs st)) (Pos.succ (fresh st))) mi'.
Proof.
  intros Hwf Hmi. pose proof (store_fresh_None st Hwf) as Hn. split; cbn.
  - intros l y Hl _. rewrite lookup_insert_ne; [done|]. congruence.
  - intros l Hl. apply lookup_insert_None in Hl as [Hl _]. done.
  - intros l Hl. destruct (Hmi l Hl) as [?| ->]; auto.
  - now apply store_wf_alloc.
Qed.

(** Storing at [k] an object the memory does not have or has at [k]. *)
Lemma coh0_set st mi b o k l x :
  coh0 st mi b o -> objs st !! l = Some x -> item_Key x = k -> itemv0_ok x ->
  coh0 st (setGotItem k l (setUpdatedItem k l mi)) b (ov_set k x o).
Proof.
  intros [Hg Hu Hd Hnd] Hl Hk Hok. split; try done; cbn.
  - intros k' l'. rewrite !lookup_insert_Some. intros [[<- <-]|[Hne Hl']].
    + exists x. rewrite lookup_insert_eq. auto.
    + rewrite !lookup_insert_ne by done. now apply Hg.
  - intros k'. destruct (decide (k = k')) as [<-|Hne].
    + rewrite !lookup_insert_eq. eauto.
    + rewrite !lookup_insert_ne by done. apply Hu.
Qed.

(** Another object gets a value. *)
Lemma coh0_store st st' mi b o :
  coh0 st mi b o -> (forall l x, in_mem mi l -> objs st !! l = Some x -> objs st' !! l = Some x) -> coh0 st' mi b o.
Proof.
  intros [Hg Hu Hd Hnd] Hst. split; try done. intros k l Hl. destruct (Hg k l Hl) as (x & Hx & Hr).
  exists x. split; [|done]. apply Hst; [now exists k|done].
Qed.

Lemma wp_sl_read st t mi b k Q :
  represents0 t b ->
  (forall x, b !! k = Some x -> item_Key x = k ->
    Q (Ok (fresh st)) (Store (<[fresh st := x]> (objs st)) (Pos.succ (fresh st)), MkSimpleLedger t mi)) ->
  (b !! k = None -> Q (Err ErrNotFoundResult) (st, MkSimpleLedger t mi)) ->
  wp (sl_read k) Q (st, MkSimpleLedger t mi).
Proof.
  intros Hr HQ HN. apply wp_bind, wp_gets, wp_bind, wp_lift. cbn [snd s_tree]. rewrite Get_law. cbn [from_err].
  specialize (Hr k). inversion Hr as [bz x (Hok & Hk & He) E1 E2|E1 E2].
  - destruct (itemv0_encode x Hok) as (bz' & He' & Hd). assert (bz' = bz) as -> by congruence.
    apply wp_bind, wp_lift. rewrite Hd. cbn [from_err]. rewrite bool_decide_eq_true_2 by done.
    apply HQ; [|done]. congruence.
  - apply wp_throw, HN. congruence.
Qed.

Lemma wp_sl_get st t mi b o k Q :
  coh0 st mi b o -> represents0 t b -> store_wf st ->
  (forall l x st' mi', ov_view b o k = Some x -> objs st' !! l = Some x -> gotItems mi' !! k = Some l ->
    coh0 st' mi' b o -> local st mi st' mi' -> Q (Ok l) (st', MkSimpleLedger t mi')) ->
  (ov_view b o k = None -> Q (Err ErrNotFoundResult) (st, MkSimpleLedger t mi)) ->
  wp (sl_get k) Q (st, MkSimpleLedger t mi).
Proof.
  intros HC Hr Hwf HQ HN. pose proof HC as [Hg Hu Hd Hnd]. apply wp_bind, wp_gets. cbn [snd cachedItems].
  unfold ov_view in *. destruct (isRemovedKey k mi) eqn:Erm.
  { apply isRemovedKey_spec, Hd in Erm. rewrite bool_decide_eq_true_2 in HN by done. now apply wp_throw, HN. }
  assert (Hnd' : k ∉ ov_dead o) by (intros Hin; apply Hd, isRemovedKey_spec in Hin; congruence).
  rewrite bool_decide_eq_false_2 in HQ, HN by done. unfold getGotItem.
  destruct (gotItems mi !! k) as [l|] eqn:El.
  - destruct (Hg k l El) as (x & Hx & Hk & Hor). apply wp_ret, (HQ l x st mi); try done; [|now apply local_refl].
    now destruct Hor as [->|(-> & -> & _)].
  - assert (Eu : ov_upd o !! k = None) by (specialize (Hu k); destruct (updatedItems mi !! k); [naive_solver|done]).
    rewrite Eu in HQ, HN. apply wp_bind, (wp_sl_read st t mi b); [done| |done]. intros x Hx Hk.
    apply wp_bind. unfold wp, sl_deref, zoom, deref. cbn. rewrite lookup_insert_eq. cbn.
    pose proof (store_fresh_None st Hwf) as Hfr.
    assert (Hmi : forall l, in_mem (setGotItem (item_Key x) (fresh st) mi) l -> in_mem mi l \/ l = fresh st).
    { intros l [k' Hk']. cbn in Hk'. apply lookup_insert_Some in Hk' as [[_ <-]|[_ Hk']]; [now right|left; now exists k']. }
    apply (HQ (fresh st) x); cbn; [done|now rewrite lookup_insert_eq|rewrite Hk; now rewrite lookup_insert_eq|..].
    + split; try done; cbn; rewrite Hk.
      * intros k' l'. rewrite lookup_insert_Some. intros [[<- <-]|[Hne Hl']].
        -- exists x. rewrite lookup_insert_eq. split_and!; try done. right. done.
        -- destruct (Hg k' l' Hl') as (y & Hy & Hr'). exists y. rewrite lookup_insert_ne; [done|]. congruence.
      * intros k'. specialize (Hu k'). destruct (updatedItems mi !! k') as [l'|] eqn:E'; [|done].
        rewrite lookup_insert_ne; [done|]. intros ->. destruct Hu as [Hu _]. congruence.
    + now apply local_alloc.
Qed.

(** Changing in place the object at [k] and storing it. *)
Lemma coh0_update st mi b o k l x :
  coh0 st mi b o -> gotItems mi !! k = Some l -> item_Key x = k -> itemv0_ok x ->
  coh0 (Store (<[l := x]> (objs st)) (fresh st)) (setGotItem k l (setUpdatedItem k l mi)) b (ov_set k x o).
Proof.
  intros [Hg Hu Hd Hnd] Hl Hk Hok. destruct (Hg k l Hl) as (y & Hy & Hky & _). split; try done; cbn.
  - intros k' l'. rewrite !lookup_insert_Some. intros [[<- <-]|[Hne Hl']].
    + exists x. rewrite !lookup_insert_eq. auto.
    + destruct (Hg k' l' Hl') as (z & Hz & Hkz & Hr). exists z. rewrite !lookup_insert_ne by congruence. auto.
  - intros k'. destruct (decide (k = k')) as [<-|Hne].
    + rewrite !lookup_insert_eq. eauto.
    + rewrite !lookup_insert_ne by done. apply Hu.
Qed.

Lemma local_update st mi k l x :
  store_wf st -> gotItems mi !! k = Some l -> is_Some (objs st !! l) ->
  local st mi (Store (<[l := x]> (objs st)) (fresh st)) (setGotItem k l (setUpdatedItem k l mi)).
Proof.
  intros Hwf Hl Hs. split; cbn.
  - intros l' y Hy Hin. rewrite lookup_insert_ne; [done|]. intros <-. apply Hin. now exists k.
  - intros l' Hn. now apply lookup_insert_None in Hn as [Hn _].
  - intros l' [k' Hk']. cbn in Hk'. left. apply lookup_insert_Some in Hk' as [[_ <-]|[_ Hk']]; [now exists k|now exists k'].
  - now apply store_wf_assign.
Qed.

(** Forgetting the object at [k] and what was to be written there. *)
Lemma coh0_forget st mi b o k :
  coh0 st mi b o ->
  coh0 st (delGotItem k (delUpdatedItem k mi)) b (ov_forget k o).
Proof.
  intros [Hg Hu Hd Hnd]. split; try done; cbn.
  - intros k' l' Hl'. apply lookup_delete_Some in Hl' as [Hne Hl']. rewrite lookup_delete_ne by done. now apply Hg.
  - intros k'. destruct (decide (k = k')) as [<-|Hne]; [now rewrite !lookup_delete_eq|].
    rewrite !lookup_delete_ne by done. apply Hu.
Qed.

Lemma coh0_bury st mi b o k :
  coh0 st mi b o -> k ∉ ov_dead o -> gotItems mi !! k = None ->
  coh0 st (appendRemovedKey k mi) b (ov_bury k o).
Proof.
  intros [Hg Hu Hd Hnd] Hk Hgk. split; cbn.
  - intros k' l' Hl'. destruct (Hg k' l' Hl') as (x & Hx & Hkx & Hor). exists x. split; [done|]. split; [done|].
    destruct Hor as [?|(? & ? & ?)]; [now left|]. right. split_and!; try done. assert (k' <> k) by congruence. set_solver.
  - apply Hu.
  - intros k'. rewrite elem_of_app, list_elem_of_singleton, Hd. set_solver.
  - apply NoDup_app. split; [done|]. split; [|apply NoDup_singleton].
    intros k' Hin Heq. apply list_elem_of_singleton in Heq as ->. now apply Hd in Hin.
Qed.

Lemma elem_of_remove_first k k' ks : NoDup ks -> k' ∈ remove_first k ks <-> k' ∈ ks /\ k' <> k.
Proof.
  induction ks as [|k0 ks IH]; cbn; [set_solver|]. intros [Hn Hnd]%NoDup_cons. case_bool_decide as E.
  - subst k0. set_solver.
  - rewrite elem_of_cons, IH by done. set_solver.
Qed.

Lemma NoDup_remove_first k ks : NoDup ks -> NoDup (remove_first k ks).
Proof.
  induction ks as [|k0 ks IH]; cbn; [done|]. intros [Hn Hnd]%NoDup_cons. case_bool_decide; [done|].
  apply NoDup_cons. split; [|auto]. rewrite elem_of_remove_first by done. tauto.
Qed.

Lemma coh0_unbury st mi b o k :
  coh0 st mi b o -> coh0 st (delRemovedKey k mi) b (MkOverlay (ov_upd o) (ov_dead o ∖ {[k]})).
Proof.
  intros [Hg Hu Hd Hnd]. split; cbn.
  - intros k' l' Hl'. destruct (Hg k' l' Hl') as (x & Hx & Hkx & Hor). exists x. split; [done|]. split; [done|].
    destruct Hor as [?|(? & ? & ?)]; [now left|]. right. split_and!; try done. set_solver.
  - apply Hu.
  - intros k'. rewrite elem_of_remove_first by done. rewrite Hd. set_solver.
  - now apply NoDup_remove_first.
Qed.

(** ** One memory refines one overlay *)

Definition vop_post st t mi b o (op : vop Item) (r : option Item) (s' : SLS) : Prop :=
  exists mi', snd s' = MkSimpleLedger t mi' /\ r = fst (step_vop b op o) /\
    coh0 (fst s') mi' b (snd (step_vop b op o)) /\ local st mi (fst s') mi'.

Lemma wp_found {S : Type} (m : M S loc) Q s :
  wp m (fun r s' => match r with
                    | Ok l => Q (Ok (Some l)) s'
                    | Err e => if bool_decide (e = ErrNotFoundResult) then Q (Ok None) s' else Q (Err e) s'
                    | Panic => Q Panic s'
                    end) s ->
  wp (found m) Q s.
Proof.
  intros Hw. apply wp_bind, wp_try. eapply wp_mono; [exact Hw|]. intros [l|e|] s'; cbn; try done.
  case_bool_decide; intros HQ; [now apply wp_ret|now apply wp_throw].
Qed.

Lemma local_same_mem st mi mi' :
  store_wf st -> (forall l, in_mem mi' l -> in_mem mi l) -> local st mi st mi'.
Proof. intros Hwf Hm. split; auto. Qed.

Lemma in_mem_forget k mi l : in_mem (delGotItem k (delUpdatedItem k mi)) l -> in_mem mi l.
Proof. intros [k' Hk']. cbn in Hk'. apply lookup_delete_Some in Hk' as [_ Hk']. now exists k'. Qed.

Lemma wp_sl_del st t mi b o k Q :
  coh0 st mi b o -> represents0 t b -> store_wf st ->
  (forall l x st' mi', ov_view b o k = Some x -> objs st' !! l = Some x ->
    coh0 st' mi' b (ov_bury k (ov_forget k o)) -> local st mi st' mi' ->
    Q (Ok l) (st', MkSimpleLedger t mi')) ->
  (ov_view b o k = None -> Q (Err ErrNotFoundResult) (st, MkSimpleLedger t mi)) ->
  wp (sl_del k) Q (st, MkSimpleLedger t mi).
Proof.
  intros HC Hr Hwf HQ HN. apply wp_bind, (wp_sl_get st t mi b o); try done.
  intros l x st1 mi1 Hv Hl Hg HC1 Hloc. do 3 apply wp_bind, wp_modify. apply wp_ret.
  apply (HQ l x st1 (appendRemovedKey k (delGotItem k (delUpdatedItem k mi1)))); [done|done| |].
  - apply (coh0_bury st1 (delGotItem k (delUpdatedItem k mi1)) b (ov_forget k o) k).
    + now apply (coh0_forget st1 mi1 b o).
    + unfold ov_view in Hv. now case_bool_decide.
    + cbn. now rewrite lookup_delete_eq.
  - eapply local_trans; [exact Hloc|]. apply local_same_mem; [apply Hloc|]. intros l' Hin. now apply (in_mem_forget k).
Qed.

Lemma wp_run_vop st t mi b o op :
  coh0 st mi b o -> represents0 t b -> store_wf st -> vop_ok op ->
  wp (run_vop op) (okQ (vop_post st t mi b o op)) (st, MkSimpleLedger t mi).
Proof.
  intros HC Hr Hwf Hok. destruct op as [x|k x|k|k|k|k]; cbn [run_vop vop_ok] in *; unfold vop_post.
  - apply wp_bind, wp_zoom. unfold wp, alloc; cbn. apply wp_bind, wp_bind. unfold wp, sl_deref, zoom, deref; cbn.
    rewrite lookup_insert_eq. cbn. eexists. split; [done|]. split; [done|]. split.
    + apply coh0_set; [|now cbn; rewrite lookup_insert_eq|done|done].
      eapply coh0_store; [exact HC|]. intros l y _ Hl. cbn. rewrite lookup_insert_ne; [done|].
      pose proof (store_fresh_None st Hwf). congruence.
    + apply local_alloc; [done|]. intros l [k' Hk']. cbn in Hk'.
      apply lookup_insert_Some in Hk' as [[_ <-]|[_ Hk']]; [now right|left; now exists k'].
  - destruct Hok as [Hok Hk]. apply wp_bind, wp_found, (wp_sl_get st t mi b o); try done.
    + intros l y st1 mi1 Hv Hl Hg HC1 Hloc. apply wp_bind, wp_zoom. unfold wp, assign; cbn.
      apply wp_bind, wp_bind. unfold wp, sl_deref, zoom, deref; cbn. rewrite lookup_insert_eq. cbn.
      rewrite Hv. cbn. eexists. split; [done|]. split; [done|]. rewrite Hk. split; [now apply coh0_update|].
      eapply local_trans; [exact Hloc|]. apply local_update; [apply Hloc|done|eauto].
    + intros Hv. rewrite bool_decide_eq_true_2 by done. apply wp_ret. cbn. rewrite Hv. cbn.
      eexists. split; [done|]. split; [done|]. split; [done|now apply local_refl].
  - apply wp_bind, wp_found, (wp_sl_get st t mi b o); try done.
    + intros l y st1 mi1 Hv Hl Hg HC1 Hloc. apply wp_bind. unfold wp, sl_deref, zoom, deref; cbn. rewrite Hl. cbn.
      rewrite Hv. eexists. done.
    + intros Hv. rewrite bool_decide_eq_true_2 by done. apply wp_ret. cbn. rewrite Hv.
      eexists. split; [done|]. split; [done|]. split; [done|now apply local_refl].
  - apply wp_bind, wp_found, (wp_sl_del st t mi b o); try done.
    + intros l y st1 mi1 Hv Hl HC1 Hloc. apply wp_bind. unfold wp, sl_deref, zoom, deref; cbn. rewrite Hl. cbn.
      rewrite Hv. eexists. done.
    + intros Hv. rewrite bool_decide_eq_true_2 by done. apply wp_ret. cbn. rewrite Hv.
      eexists. split; [done|]. split; [done|]. split; [done|now apply local_refl].
  - apply wp_bind, wp_bind, wp_modify, wp_modify, wp_ret. eexists. split; [done|]. split; [done|].
    split; [now apply coh0_forget|]. apply local_same_mem; [done|]. apply in_mem_forget.
  - apply wp_bind, wp_modify, wp_ret. eexists. split; [done|]. split; [done|].
    split; [now apply coh0_unbury|]. now apply local_same_mem.
Qed.

(** ** The finality ledger refines two overlays *)

Context `{MapRange, !MapRangeLaws}.
Abbreviation FLS := (store Item * FinalityLedger T)%type.

Record flabs := MkFlabs {
  fb_base : gmap bytes Item;
  fb_final : overlay Item;
  fb_check : overlay Item;
}.

Inductive fop :=
| FOp (op : vop Item)
| COp (op : vop Item)
| FCommit.

(** Delivered operations, checked ones, and the commit. *)
Definition step_fop (op : fop) (a : flabs) : option Item * flabs :=
  match op with
  | FOp op =>
      let '(r, o) := step_vop (fb_base a) op (fb_final a) in
      let c := match op with VDel _ => snd (step_vop (fb_base a) op (fb_check a)) | _ => fb_check a end in
      (r, MkFlabs (fb_base a) o c)
  | COp op =>
      let '(r, o) := step_vop (fb_base a) op (fb_check a) in
      (r, MkFlabs (fb_base a) (fb_final a) o)
  | FCommit => (None, MkFlabs (ov_commit (fb_base a) (fb_final a)) ov_empty ov_empty)
  end.

Definition run_fop (op : fop) : M FLS (option Item) :=
  match op with
  | FOp (VDel k) =>
      let! r := found (fl_DelFinality k) in
      match r with
      | Some l => let! x := zoom fst_lens (deref l) in ret (Some x)
      | None => ret None
      end
  | FOp op => zoom finality_lens (run_vop op)
  | COp op => zoom simple_lens (run_vop op)
  | FCommit => fl_Commit ;;; ret None
  end.

Definition fop_ok (op : fop) : Prop :=
  match op with FOp op | COp op => vop_ok op | FCommit => True end.

Record fcoh (s : FLS) (a : flabs) : Prop := {
  fc_tree : represents0 (f_tree (snd s)) (fb_base a);
  fc_final : coh0 (fst s) (finalityItems (snd s)) (fb_base a) (fb_final a);
  fc_check : coh0 (fst s) (f_cachedItems (snd s)) (fb_base a) (fb_check a);
  fc_apart : forall l, in_mem (finalityItems (snd s)) l -> ~ in_mem (f_cachedItems (snd s)) l;
  fc_wf : store_wf (fst s);
}.

Definition fop_post (op : fop) (a : flabs) (r : option Item) (s' : FLS) : Prop :=
  r = fst (step_fop op a) /\ fcoh s' (snd (step_fop op a)).

(** An operation on the delivered memory. *)
Lemma fcoh_final st f a st' mi' o :
  fcoh (st, f) a -> local st (finalityItems f) st' mi' -> coh0 st' mi' (fb_base a) o ->
  fcoh (st', MkFinalityLedger (f_tree f) (f_cachedItems f) mi') (MkFlabs (fb_base a) o (fb_check a)).
Proof.
  intros [Ht Hf Hc Hap Hwf] Hloc HC. cbn in *.
  destruct (local_coh _ _ _ _ _ _ _ Hloc Hc Hap) as [Hc' Hap']. split; cbn; try done. apply Hloc.
Qed.

Lemma fcoh_check st f a st' mi' o :
  fcoh (st, f) a -> local st (f_cachedItems f) st' mi' -> coh0 st' mi' (fb_base a) o ->
  fcoh (st', MkFinalityLedger (f_tree f) mi' (finalityItems f)) (MkFlabs (fb_base a) (fb_final a) o).
Proof.
  intros [Ht Hf Hc Hap Hwf] Hloc HC. cbn in *.
  destruct (local_coh _ _ _ _ _ _ _ Hloc Hf) as [Hf' Hap']; [intros l Hi1 Hi2; now apply (Hap l)|].
  split; cbn; try done; [|apply Hloc]. intros l Hi1 Hi2. now apply (Hap' l).
Qed.

Lemma wp_del_finality st f a k :
  fcoh (st, f) a ->
  wp (run_fop (FOp (VDel k))) (okQ (fop_post (FOp (VDel k)) a)) (st, f).
Proof.
  intros HC. cbn [run_fop]. apply wp_bind, wp_found, wp_bind, wp_ignore, wp_zoom. cbn [lget simple_lens].
  assert (Hsnd : forall st1 mi1, fcoh (st1, MkFinalityLedger (f_tree f) mi1 (finalityItems f))
      (MkFlabs (fb_base a) (fb_final a) (snd (step_vop (fb_base a) (VDel k) (fb_check a)))) ->
    wp (zoom finality_lens (sl_del k)) (fun r s' => match r with
      | Ok l => wp (let! x := zoom fst_lens (deref l) in ret (Some x)) (okQ (fop_post (FOp (VDel k)) a)) s'
      | Err e => if bool_decide (e = ErrNotFoundResult)
                 then wp (ret None) (okQ (fop_post (FOp (VDel k)) a)) s' else okQ (fop_post (FOp (VDel k)) a) (Err e) s'
      | Panic => okQ (fop_post (FOp (VDel k)) a) Panic s'
      end) (st1, MkFinalityLedger (f_tree f) mi1 (finalityItems f))).
  { intros st1 mi1 HC1. pose proof HC1 as [Ht Hf Hc Hap Hwf]. cbn [fst snd f_tree finalityItems fb_base fb_final] in *.
    unfold fop_post. cbn [step_fop]. apply wp_zoom. cbn [lget finality_lens f_tree finalityItems].
    apply (wp_sl_del st1 _ _ (fb_base a) (fb_final a)); try done.
    - intros l x st2 mi2 Hv Hl HC2 Hloc. apply wp_bind. unfold wp, zoom, deref. cbn. rewrite Hl. cbn. rewrite Hv. cbn.
      split; [done|]. exact (fcoh_final _ _ _ _ _ _ HC1 Hloc HC2).
    - intros Hv. rewrite bool_decide_eq_true_2 by done. apply wp_ret. cbn. rewrite Hv. cbn. split; [done|].
      exact HC1. }
  pose proof HC as [Ht _ Hc _ Hwf]. apply (wp_sl_del st _ _ (fb_base a) (fb_check a)); try done.
  - intros l x st1 mi1 Hv Hl HC1 Hloc. apply Hsnd. cbn [step_vop]. rewrite Hv. exact (fcoh_check _ _ _ _ _ _ HC Hloc HC1).
  - intros Hv. apply Hsnd. cbn [step_vop]. rewrite Hv. cbn. destruct f, a. exact HC.
Qed.

(** ** Commit *)

Definition same_mem (s s' : FLS) : Prop :=
  fst s' = fst s /\ f_cachedItems (snd s') = f_cachedItems (snd s) /\ finalityItems (snd s') = finalityItems (snd s).

Lemma wp_commit_removes ks : forall s : FLS,
  wp (for_each ks commit_remove) (okQ (fun _ s' => same_mem s s' /\
    contents (f_tree (snd s')) = fold_left (fun m k => delete k m) ks (contents (f_tree (snd s))))) s.
Proof.
  induction ks as [|k ks IH]; intros [st f]; cbn [for_each fold_left]; [now apply wp_ret|].
  apply wp_bind, wp_bind, wp_gets, wp_bind, wp_lift. cbn [snd].
  destruct (Remove_law (f_tree f) k) as (t' & -> & Hc & _). cbn [from_err]. apply wp_modify.
  eapply wp_mono; [apply IH|]. intros [[]|e|] s'; cbn [okQ]; try done. cbn [snd f_tree]. rewrite Hc. done.
Qed.

(** The object of [k] in [upd] is an item with that key. *)
Definition writable st (upd : gmap bytes loc) (k : bytes) : Prop :=
  exists l x, upd !! k = Some l /\ objs st !! l = Some x /\ item_Key x = k /\ itemv0_ok x.

Lemma wp_commit_updates upd ks : forall s : FLS,
  NoDup ks -> Forall (writable (fst s) upd) ks ->
  wp (for_each ks (commit_update upd)) (okQ (fun _ s' => same_mem s s' /\
    (forall k, k ∉ ks -> contents (f_tree (snd s')) !! k = contents (f_tree (snd s)) !! k) /\
    (forall k l x, k ∈ ks -> upd !! k = Some l -> objs (fst s) !! l = Some x ->
      exists bz, item_Encode x = Ok bz /\ contents (f_tree (snd s')) !! k = Some bz))) s.
Proof.
  induction ks as [|k ks IH]; intros [st f] Hnd Hok; cbn [for_each].
  { apply wp_ret. split; [done|]. split; [done|]. intros k l x Hk. now apply not_elem_of_nil in Hk. }
  apply NoDup_cons in Hnd as [Hnin Hnd]. apply Forall_cons in Hok as [(l & x & Hu & Hl & Hk & Hx) Hok]. cbn [fst] in *.
  apply wp_bind. unfold commit_update. rewrite Hu. apply wp_bind. unfold wp at 1, zoom, deref. cbn. rewrite Hl. cbn.
  destruct (itemv0_encode x Hx) as (bz & He & _). apply wp_bind, wp_lift. rewrite He.
  apply wp_bind, wp_gets, wp_bind, wp_lift. cbn [snd]. rewrite Hk.
  destruct (Set_law (f_tree f) k bz) as (t' & -> & Hc & _). cbn [from_err]. apply wp_modify.
  eapply wp_mono; [apply IH; [done|exact Hok]|]. intros [[]|e|] [st' f']; cbn [okQ fst snd]; try done.
  intros (Hs & Hout & Hin). cbn [fst snd f_tree] in *. split; [done|]. split.
  - intros k' Hk'. apply not_elem_of_cons in Hk' as [Hne Hk']. rewrite Hout by done. rewrite Hc, lookup_insert_ne; done.
  - intros k' l' x' Hk' Hu' Hl'. apply elem_of_cons in Hk' as [->|Hk']; [|eauto].
    exists bz. assert (l' = l) as -> by congruence. assert (x' = x) as -> by congruence. split; [done|].
    rewrite Hout by done. now rewrite Hc, lookup_insert_eq.
Qed.

Lemma commit_keys (upd : gmap bytes loc) :
  let ks := go_sort key_list_Less (map fst (map_range upd)) in
  NoDup ks /\ forall k, k ∈ ks <-> is_Some (upd !! k).
Proof.
  intros ks. assert (HP : ks ≡ₚ map fst (map_to_list upd)).
  { unfold ks. rewrite go_sort_perm. change (fst <$> map_range upd ≡ₚ fst <$> map_to_list upd). now rewrite map_range_perm. }
  split.
  - rewrite HP. apply NoDup_fst_map_to_list.
  - intros k. rewrite HP. split.
    + intros ([k' l] & -> & Hin)%list_elem_of_fmap. apply elem_of_map_to_list in Hin. eauto.
    + intros [l Hl]. apply list_elem_of_fmap. exists (k, l). split; [done|]. now apply elem_of_map_to_list.
Qed.

(** After the two loops the tree holds the committed overlay. *)
Lemma commit_represents st mi b o t t1 t2 :
  coh0 st mi b o -> represents0 t b ->
  contents t1 = fold_left (fun m k => delete k m) (removedKeys mi) (contents t) ->
  (forall k, updatedItems mi !! k = None -> contents t2 !! k = contents t1 !! k) ->
  (forall k l x, updatedItems mi !! k = Some l -> objs st !! l = Some x ->
    exists bz, item_Encode x = Ok bz /\ contents t2 !! k = Some bz) ->
  represents0 t2 (ov_commit b o).
Proof.
  intros [Hg Hu Hd _] Hr E1 Hout Hin k. rewrite lookup_ov_commit. specialize (Hu k).
  destruct (updatedItems mi !! k) as [l|] eqn:El.
  - destruct Hu as (Hgk & x & Hx & Hok). destruct (Hg k l Hgk) as (y & Hy & Hk & Hor).
    assert (y = x) as -> by (destruct Hor as [?|[? _]]; congruence).
    destruct (Hin k l x El Hy) as (bz & He & ->). rewrite Hx. constructor. done.
  - rewrite Hu, (Hout k El), E1, foldl_delete. specialize (Hd k).
    destruct (decide (k ∈ ov_dead o)).
    + rewrite !bool_decide_eq_true_2 by tauto. constructor.
    + rewrite !bool_decide_eq_false_2 by tauto. apply Hr.
Qed.

(** The objects that stay in memory are the committed ones. *)
Lemma reset_coh st mi b : coh0 st (memItems_reset mi) b ov_empty.
Proof.
  split; cbn.
  - intros k l Hl. now rewrite lookup_empty in Hl.
  - intros k. now rewrite !lookup_empty.
  - intros k. rewrite elem_of_nil, elem_of_empty. done.
  - constructor.
Qed.

Lemma refresh_coh st mi b o : coh0 st mi b o -> coh0 st (memItems_refresh mi) (ov_commit b o) ov_empty.
Proof.
  intros [Hg Hu Hd _]. assert (Hsub : forall k l, (updatedItems mi ∪ gotItems mi) !! k = Some l -> gotItems mi !! k = Some l).
  { intros k l Hl. apply lookup_union_Some_raw in Hl as [Hl|[_ Hl]]; [|done]. specialize (Hu k). rewrite Hl in Hu. apply Hu. }
  split; cbn; try done.
  - intros k l Hl. destruct (Hg k l (Hsub k l Hl)) as (x & Hx & Hk & Hor). exists x. split; [done|]. split; [done|].
    right. rewrite lookup_empty, lookup_ov_commit. split; [done|]. split; [|set_solver].
    destruct Hor as [->|(-> & -> & Hnd)]; [done|]. now rewrite bool_decide_eq_false_2.
  - set_solver.
  - constructor.
Qed.

Lemma wp_fl_Commit s a :
  fcoh s a -> wp (run_fop FCommit) (okQ (fop_post FCommit a)) s.
Proof.
  intros [Ht Hf Hc Hap Hwf]. destruct s as [st f]. cbn [fst snd] in *. pose proof Hf as [Hg Hu _ _].
  unfold fop_post. cbn [run_fop step_fop fst snd]. apply wp_bind. unfold fl_Commit. apply wp_bind, wp_gets. cbn [snd].
  apply wp_bind. eapply wp_mono; [apply wp_commit_removes|].
  intros [[]|e|] [st1 f1]; cbn [okQ fst snd]; try done. intros ((E1 & E2 & E3) & Et1). cbn [fst snd] in *. subst st1.
  destruct (commit_keys (updatedItems (finalityItems f))) as [Hnd Hks].
  apply wp_bind. eapply wp_mono; [apply wp_commit_updates; [done|]|].
  { apply Forall_forall. intros k Hk. apply Hks in Hk as [l Hl]. specialize (Hu k). rewrite Hl in Hu.
    destruct Hu as (Hgk & x & Hx & Hok). destruct (Hg k l Hgk) as (y & Hy & Hk & Hor). exists l, y. cbn.
    assert (y = x) as -> by (destruct Hor as [?|[? _]]; congruence). done. }
  intros [[]|e|] [st2 f2]; cbn [okQ fst snd]; try done. intros ((E4 & E5 & E6) & Hout & Hin). cbn [fst snd] in *. subst st2.
  apply wp_bind, wp_gets, wp_bind, wp_lift. cbn [snd].
  destruct (SaveVersion_law (f_tree f2)) as (hash & t' & i & -> & Hct & _). cbn [from_err].
  apply wp_bind, wp_modify, wp_ret, wp_ret. cbn [okQ]. split; [done|]. rewrite E5, E6, E2, E3. split; cbn [fst snd f_tree
    fb_base fb_final fb_check finalityItems f_cachedItems].
  - assert (Hr2 : represents0 (f_tree f2) (ov_commit (fb_base a) (fb_final a))).
    { apply (commit_represents st (finalityItems f) _ _ (f_tree f) (f_tree f1)); try done.
      - intros k Hk. apply Hout. intros Hin'. apply Hks in Hin' as [l Hl]. congruence.
      - intros k l x Hl Hx. apply (Hin k l x); [apply Hks; eauto|done|done]. }
    intros k. rewrite Hct. apply Hr2.
  - now apply refresh_coh.
  - apply reset_coh.
  - intros l _ [k Hk]. cbn in Hk. now rewrite lookup_empty in Hk.
  - done.
Qed.

Fixpoint run_fops (ops : list fop) : M FLS (list (option Item)) :=
  match ops with
  | [] => ret []
  | op :: ops' => let! r := run_fop op in let! rs := run_fops ops' in ret (r :: rs)
  end.

Fixpoint step_fops (ops : list fop) (a : flabs) : list (option Item) * flabs :=
  match ops with
  | [] => ([], a)
  | op :: ops' =>
      let '(r, a1) := step_fop op a in
      let '(rs, a2) := step_fops ops' a1 in (r :: rs, a2)
  end.

Lemma wp_run_fop s a op : fcoh s a -> fop_ok op -> wp (run_fop op) (okQ (fop_post op a)) s.
Proof.
  intros HC Hok. destruct s as [st f]. pose proof HC as [Ht Hf Hc _ Hwf]. cbn [fst snd] in *.
  destruct op as [op|op|]; [| |now apply wp_fl_Commit].
  - destruct op as [x|k x|k|k|k|k]; try now apply wp_del_finality.
    all: unfold fop_post; cbn [run_fop step_fop]; apply wp_zoom; cbn [lget finality_lens].
    all: eapply wp_mono; [apply (wp_run_vop st (f_tree f) (finalityItems f) (fb_base a) (fb_final a)); done|].
    all: intros [r|e|] [st' s']; cbn [okQ]; try done; intros (mi' & Es & -> & HC' & Hloc); cbn in Es; subst s'.
    all: destruct (step_vop (fb_base a) _ (fb_final a)) as [r' o'] eqn:Eo; split; [done|].
    all: exact (fcoh_final _ _ _ _ _ _ HC Hloc HC').
  - unfold fop_post; cbn [run_fop step_fop]; apply wp_zoom; cbn [lget simple_lens].
    eapply wp_mono; [apply (wp_run_vop st (f_tree f) (f_cachedItems f) (fb_base a) (fb_check a)); done|].
    intros [r|e|] [st' s']; cbn [okQ]; try done; intros (mi' & Es & -> & HC' & Hloc); cbn in Es; subst s'.
    destruct (step_vop (fb_base a) _ (fb_check a)) as [r' o'] eqn:Eo; split; [done|].
    exact (fcoh_check _ _ _ _ _ _ HC Hloc HC').
Qed.

Lemma run_fops_ok ops : forall s a,
  fcoh s a -> Forall fop_ok ops ->
  exists s', run_fops ops s = (Ok (fst (step_fops ops a)), s') /\ fcoh s' (snd (step_fops ops a)).
Proof.
  induction ops as [|op ops IH]; intros s a HC Hok; cbn [run_fops step_fops]; [now exists s|].
  apply Forall_cons in Hok as [Hop Hok]. pose proof (wp_run_fop s a op HC Hop) as Hw. unfold wp in Hw.
  unfold bind. destruct (run_fop op s) as [[r|e|] s1]; cbn in Hw; [|done..]. destruct Hw as [-> HC1].
  destruct (step_fop op a) as [r a1]. cbn in *. destruct (IH s1 a1 HC1 Hok) as (s2 & -> & HC2).
  destruct (step_fops ops a1) as [rs a2]. cbn in *. now exists s2.
Qed.

(** C20. The finality ledger is two overlays of one committed map: any sequence of
    storing, changing in place, reading, removing and taking back, of delivered
    and of checked transactions, with commits in between, never fails and gives
    exactly the items the overlays give.  A delivered removal also removes the
    item for checked transactions, and a commit writes the delivered overlay,
    removals first, and forgets the checked one. *)
Theorem finality_refines ops : forall s a,
  fcoh s a -> Forall fop_ok ops ->
  exists s', run_fops ops s = (Ok (fst (step_fops ops a)), s') /\ fcoh s' (snd (step_fops ops a)).
Proof. apply run_fops_ok. Qed.

(** An item that is removed and stored again in one block is not found until
    the commit, and is there after it: the removed key hides the pending write,
    which the commit writes after the removal. *)
Theorem recreated_hidden s a x x' :
  fcoh s a -> itemv0_ok x -> itemv0_ok x' -> item_Key x' = item_Key x ->
  item_Key x ∉ ov_dead (fb_final a) ->
  let k := item_Key x in
  exists s', run_fops [FOp (VSet x); FOp (VGet k); FOp (VDel k); FOp (VSet x'); FOp (VGet k);
                       FCommit; FOp (VGet k)] s =
    (Ok [Some x; Some x; Some x; Some x'; None; None; Some x'], s').
Proof.
  intros HC Hx Hx' Hk Hnd k.
  destruct (run_fops_ok [FOp (VSet x); FOp (VGet k); FOp (VDel k); FOp (VSet x'); FOp (VGet k); FCommit; FOp (VGet k)] s a)
    as (s' & E & _); [done|repeat constructor; done|]. exists s'. rewrite E.
  assert (V1 : ov_view (fb_base a) (ov_set k x (fb_final a)) k = Some x).
  { unfold ov_view. cbn. rewrite bool_decide_eq_false_2 by done. now rewrite lookup_insert_eq. }
  cbn [step_fops step_fop step_vop fb_base fb_final fb_check]. rewrite Hk. fold k. rewrite !V1.
  cbn [fst fb_base fb_final fb_check]. do 6 f_equal. f_equal; [|do 2 f_equal].
  - unfold ov_view. rewrite bool_decide_eq_true_2; [done|]. cbn. apply elem_of_union_r, elem_of_singleton_2. done.
  - unfold ov_view, ov_empty. cbn [ov_dead ov_upd]. rewrite bool_decide_eq_false_2 by apply not_elem_of_empty.
    rewrite lookup_empty, lookup_ov_commit. cbn [ov_upd ov_set]. now rewrite lookup_insert_eq.
Qed.

(** ** The in-memory ledger *)

Lemma ml_get_read st (m : MemLedgerV0) k l x :
  ml_storage m !! k = Some l -> objs st !! l = Some x -> gotItems (ml_items m) !! k = None -> item_Key x = k ->
  ml_get k (st, m) = (Ok l, (st, MkMemLedgerV0 (ml_storage m) (setGotItem k l (ml_items m)))).
Proof.
  intros Hs Hl Hg Hk. unfold ml_get, bind, gets, getGotItem. cbn [snd]. rewrite Hg.
  unfold ml_Read, ml_read, bind, gets. cbn [snd]. rewrite Hs. unfold zoom, deref. cbn [fst_lens lget lset fst]. rewrite Hl.
  rewrite bool_decide_eq_true_2 by done. cbn. now rewrite Hl, Hk.
Qed.

Lemma ml_Set_run st (m : MemLedgerV0) l x :
  objs st !! l = Some x -> ml_Set l (st, m) = (Ok tt, (st, MkMemLedgerV0 (ml_storage m) (setUpdatedItem (item_Key x) l (ml_items m)))).
Proof. intros Hl. unfold ml_Set, bind, zoom, deref. cbn. now rewrite Hl. Qed.

(** The in-memory ledger does not see its own writes before a commit, finds a
    removed item again, and loses an item that is removed and stored again: its
    commit writes the updates before the removals. *)
Theorem mem_ledger_loses st (m : MemLedgerV0) l x l' x' k :
  ml_storage m !! k = Some l -> objs st !! l = Some x -> gotItems (ml_items m) !! k = None -> item_Key x = k ->
  objs st !! l' = Some x' -> item_Key x' = k ->
  fst ((ml_Set l' ;;; ml_get k) (st, m)) = Ok l /\
  fst ((ml_Del k ;;; ml_get k) (st, m)) = Ok l /\
  exists m', (ml_Del k ;;; ml_Set l' ;;; ml_Commit) (st, m) = (Ok tt, (st, m')) /\ ml_storage m' !! k = None.
Proof.
  intros Hs Hl Hg Hk Hl' Hk'. unfold bind at 1. rewrite (ml_Set_run st m l' x') by done. cbn [fst].
  rewrite (ml_get_read st _ k l x) by (cbn; congruence).
  assert (Ed : exists mi, ml_Del k (st, m) = (Ok l, (st, MkMemLedgerV0 (ml_storage m) mi)) /\ gotItems mi !! k = None /\
    k ∈ removedKeys mi).
  { eexists. unfold ml_Del, bind. rewrite (ml_get_read st m k l x) by done. cbn. split; [done|]. cbn.
    rewrite lookup_delete_eq. split; [done|]. apply elem_of_app. right. constructor. }
  destruct Ed as (mi & Ed & Eg & Er). split; [done|]. unfold bind. rewrite Ed. split.
  - now rewrite (ml_get_read st _ k l x).
  - rewrite (ml_Set_run st _ l' x') by done. eexists. split; [done|]. cbn. rewrite foldl_delete, bool_decide_eq_true_2; done.
Qed.

End Refine.

(** ** The order of a map *)

Lemma key_list_Less_trans x y z :
  key_list_Less x y = false -> key_list_Less y z = false -> key_list_Less x z = false.
Proof.
  unfold key_list_Less. rewrite !Z.ltb_ge. intros Hxy Hyz.
  destruct (Z_lt_le_dec 0 (bytes_Compare x z)) as [Hxz|]; [|lia].
  destruct (Z.eq_dec (bytes_Compare x y) 0) as [E|E]; [apply bytes_Compare_eq in E; subst; lia|].
  assert (Hzx : bytes_Compare z x < 0) by (rewrite bytes_Compare_antisym; lia).
  pose proof (bytes_Compare_trans z x y Hzx ltac:(lia)). rewrite bytes_Compare_antisym in Hyz. lia.
Qed.

Lemma key_list_Less_asym x y : key_list_Less x y = true -> key_list_Less y x = false.
Proof. unfold key_list_Less. rewrite Z.ltb_lt, Z.ltb_ge, (bytes_Compare_antisym y). lia. Qed.

Lemma sort_keys_perm (l1 l2 : list bytes) : l1 ≡ₚ l2 -> go_sort key_list_Less l1 = go_sort key_list_Less l2.
Proof.
  intros HP. apply go_sort_unique; [apply key_list_Less_trans|apply key_list_Less_asym| | |now rewrite go_sort_perm].
  - intros x y _ _. unfold key_list_Less. rewrite !Z.ltb_ge, (bytes_Compare_antisym y). intros H1 H2.
    apply bytes_Compare_eq. lia.
  - apply go_sort_sorted; [apply key_list_Less_trans|apply key_list_Less_asym].
Qed.

(** The commit of the finality ledger does not depend on the order in which Go
    visits the map of updated items: for any two orders it makes the same calls on
    the tree, hence returns the same root hash and leaves the same ledger. *)
Theorem commit_order_free {Item T I : Type} `{ItemV0 Item} `{Iavl T I} (R1 R2 : MapRange)
    (s : store Item * FinalityLedger T) :
  @MapRangeLaws R1 -> @MapRangeLaws R2 ->
  @fl_Commit Item T I _ _ R1 s = @fl_Commit Item T I _ _ R2 s.
Proof.
  intros L1 L2. unfold fl_Commit, bind, gets. cbn.
  assert (E : go_sort key_list_Less (map fst (@map_range R1 _ (updatedItems (finalityItems (snd s))))) =
              go_sort key_list_Less (map fst (@map_range R2 _ (updatedItems (finalityItems (snd s)))))).
  { apply sort_keys_perm.
    change (fst <$> @map_range R1 _ (updatedItems (finalityItems (snd s))) ≡ₚ
            fst <$> @map_range R2 _ (updatedItems (finalityItems (snd s)))).
    now rewrite (@map_range_perm R1 L1), (@map_range_perm R2 L2). }
  now rewrite E.
Qed.

(** ** Keys *)

(** Keys of the full length are kept; shorter ones are filled up with zeros and
    longer ones cut, so that different keys can meet. *)
Lemma ToLedgerKey_full k : length k = LEDGERKEYSIZE -> ToLedgerKey k = k.
Proof.
  intros Hk. unfold ToLedgerKey. rewrite Hk, Nat.ltb_irrefl, Nat.sub_diag. cbn [repeat].
  rewrite app_nil_r. apply take_ge. lia.
Qed.

Lemma length_ToLedgerKey k : length (ToLedgerKey k) = LEDGERKEYSIZE.
Proof.
  unfold ToLedgerKey. rewrite length_app, length_take, repeat_length.
  destruct (Nat.ltb_spec LEDGERKEYSIZE (length k)); lia.
Qed.

(** ** Reading all items *)

Section ReadAll.
Context {Item T I : Type} `{ItemV0 Item, !ItemV0Laws Item} `{Iavl T I, !IavlLaws T I}.

(** Reading all items visits each committed item once, in the order of the keys,
    whatever is pending in memory. *)
Theorem read_all_items (st : store Item) (t : T) (mi : memItems) (b : gmap bytes Item) (xs0 : list Item) :
  represents0 t b -> (forall k, is_Some (b !! k) -> length k = LEDGERKEYSIZE) ->
  exists st' xs,
    sl_IterateReadAllItems fst_lens
      (fun l => let! x := zoom (lens_comp fst_lens fst_lens) (deref l) in modify (fun '(s, acc) => (s, acc ++ [x])))
      ((st, MkSimpleLedger t mi), xs0) = (Ok tt, ((st', MkSimpleLedger t mi), xs0 ++ xs)) /\
    Forall2 (fun kv x => b !! fst kv = Some x) (key_sorted (contents t)) xs.
Proof.
  intros Hr Hlen. unfold sl_IterateReadAllItems, bind, zoom, gets, lift. cbn. rewrite Iterator_law. cbn.
  assert (Hall : Forall (fun kv => contents t !! fst kv = Some (snd kv)) (entries_from (contents t) [])).
  { apply Forall_forall. intros [k v] Hin. apply elem_of_entries_from in Hin. tauto. }
  assert (E : entries_from (contents t) [] = key_sorted (contents t)).
  { unfold entries_from. induction (key_sorted (contents t)) as [|kv kvs IH]; [done|].
    rewrite filter_cons_True by now destruct (fst kv). now rewrite IH. }
  rewrite <- E. clear E. revert st xs0. induction Hall as [|[k v] kvs Hkv Hall IH]; intros st xs0; cbn.
  { exists st, []. rewrite app_nil_r. done. }
  specialize (Hr k). cbn in Hkv. rewrite Hkv in Hr. inversion Hr as [? x (Hok & Hk & He) E1 E2|]; subst.
  destruct (itemv0_encode x Hok) as (bz & He' & Hd). assert (bz = v) as -> by congruence.
  unfold bind at 1, read_entry. cbn. rewrite Hd. rewrite bool_decide_eq_true_2.
  2: { symmetry. apply ToLedgerKey_full, Hlen. rewrite <- E2. eauto. }
  unfold bind, zoom, alloc, deref. cbn. rewrite lookup_insert_eq. cbn.
  edestruct IH as (st' & xs & Ei & HF). exists st', (x :: xs). split.
  - etransitivity; [exact Ei|]. now rewrite <- app_assoc.
  - constructor; [cbn; now rewrite <- E2|done].
Qed.

End ReadAll.

(** ** A ledger of key-value pairs *)

Module V0Witness.

#[export] Instance pair_item : ItemV0 (bytes * bytes) := {
  getNewItem := ([], []);
  item_Key := fst;
  item_Encode x := Ok (fst x ++ snd x);
  item_Decode _ bz :=
    if (length bz <? LEDGERKEYSIZE)%nat then Err (NewOrdinary "short item")
    else Ok (take LEDGERKEYSIZE bz, drop LEDGERKEYSIZE bz);
}.

#[export, refine] Instance pair_item_laws : ItemV0Laws (bytes * bytes) := {
  itemv0_ok x := length (fst x) = LEDGERKEYSIZE;
}.
Proof.
  intros [k v] Hk. cbn in Hk. exists (k ++ v). split; [done|]. unfold item_Decode, pair_item. rewrite length_app.
  destruct (Nat.ltb_spec (length k + length v) LEDGERKEYSIZE); [lia|].
  rewrite take_app_length', drop_app_length' by done. done.
Defined.

#[export] Instance up_order : MapRange := fun A m => map_to_list m.
#[export] Instance up_order_laws : MapRangeLaws.
Proof. intros A m. reflexivity. Qed.

Definition down_order : MapRange := fun A m => reverse (map_to_list m).
Lemma down_order_laws : @MapRangeLaws down_order.
Proof. intros A m. apply reverse_Permutation. Qed.

Definition start : store (bytes * bytes) * FinalityLedger RefTree.tree :=
  (empty_store, MkFinalityLedger RefTree.empty newMemItems newMemItems).

Lemma start_coh : fcoh start (MkFlabs ∅ ov_empty ov_empty).
Proof.
  split.
  - intros k. cbn. rewrite !lookup_empty. constructor.
  - apply (reset_coh _ newMemItems).
  - apply (reset_coh _ newMemItems).
  - intros l [k Hk]. cbn in Hk. now rewrite lookup_empty in Hk.
  - intros l x Hl. cbn in Hl. now rewrite lookup_empty in Hl.
Qed.

Definition item (k v : Z) : bytes * bytes := (ToLedgerKey [k], [v]).

Definition script : list fop :=
  [FOp (VSet (item 1 7)); FOp (VSet (item 2 8)); COp (VGet (fst (item 1 0))); FCommit; COp (VGet (fst (item 1 0)));
   COp (VUpdate (fst (item 1 0)) (item 1 9)); FOp (VGet (fst (item 1 0))); FOp (VDel (fst (item 2 0))); FCommit;
   FOp (VGet (fst (item 2 0))); COp (VGet (fst (item 1 0)))].

Example finality_refines_witness :
  exists s', run_fops script start =
    (Ok [Some (item 1 7); Some (item 2 8); None; None; Some (item 1 7); Some (item 1 9); Some (item 1 7); Some (item 2 8); None;
         None; Some (item 1 7)], s').
Proof.
  destruct (finality_refines script start (MkFlabs ∅ ov_empty ov_empty)) as (s' & E & _).
  - apply start_coh.
  - repeat constructor.
  - exists s'. rewrite E. vm_compute. reflexivity.
Defined.

Example recreated_hidden_witness :
  exists s', run_fops [FOp (VSet (item 1 7)); FOp (VGet (fst (item 1 7))); FOp (VDel (fst (item 1 7)));
                       FOp (VSet (item 1 9)); FOp (VGet (fst (item 1 7))); FCommit; FOp (VGet (fst (item 1 7)))] start =
    (Ok [Some (item 1 7); Some (item 1 7); Some (item 1 7); Some (item 1 9); None; None; Some (item 1 9)], s').
Proof.
  refine (recreated_hidden start (MkFlabs ∅ ov_empty ov_empty) (item 1 7) (item 1 9) start_coh _ _ _ _).
  - reflexivity.
  - reflexivity.
  - reflexivity.
  - apply not_elem_of_empty.
Defined.

(** Two items stored and not committed. *)
Definition pending := snd (run_fops (take 2 script) start).

Example commit_order_free_witness :
  @fl_Commit _ _ _ _ _ up_order pending = @fl_Commit _ _ _ _ _ down_order pending /\
  is_Some (updatedItems (finalityItems (snd pending)) !! fst (item 2 0)).
Proof.
  split; [|vm_compute; eauto]. apply (commit_order_free up_order down_order pending).
  - apply up_order_laws.
  - apply down_order_laws.
Defined.

End V0Witness.
