(* ===== verification/Units.v ===== *)
(** * Units: amounts, voting power and addresses

    [types/unit.go], [types/address.go] and [libs/utils.go].  A [*uint256.Int]
    is a [Z] in the range of [in_u256]; its operations wrap modulo [2^256] and
    [Sign] reads it as two's complement, as the package documents. *)
From stdpp Require Import base list strings.
From Stdlib Require Import ZArith Lia.
From S2P Require Import Prelude XErrors GoMonad LedgerKeys.

(** ** [uint256.Int] *)

Definition uadd (a b : Z) : Z := u256 (a + b).
Definition usub (a b : Z) : Z := u256 (a - b).
Definition umul (a b : Z) : Z := u256 (a * b).

(** [Div]: division by zero is zero. *)
Definition udiv (a b : Z) : Z := if b =? 0 then 0 else a / b.
Definition umod (a b : Z) : Z := if b =? 0 then 0 else a mod b.

Definition uSign (a : Z) : Z := if a =? 0 then 0 else if a <? 2 ^ 255 then 1 else -1.

Definition uCmp (a b : Z) : Z := if a <? b then -1 else if b <? a then 1 else 0.

(** [Uint64]: the low 64 bits. *)
Definition uUint64 (a : Z) : Z := u64 a.

(** [uint256.NewInt(uint64(n))] of a signed integer. *)
Definition u256_of_int (n : Z) : Z := u64 n.

(** [Bytes]: big-endian without leading zeros; [SetBytes]: the last 32 bytes. *)
Fixpoint strip_zeros (b : bytes) : bytes :=
  match b with
  | [] => []
  | x :: b' => if x =? 0 then strip_zeros b' else b
  end.

Definition uBytes (a : Z) : bytes := strip_zeros (put_be 32 a).
Definition uSetBytes (b : bytes) : Z := get_be (drop (length b - 32) b) 0.

Arguments uBytes : simpl never.
Arguments uSetBytes : simpl never.

(** ** [types/unit.go] *)

Definition DECIMAL : Z := 18.
Definition amountPerPower : Z := 1000000000000000000.
Definition oneCoinGrans : Z := 1000000000000000000.

Definition ToGrans (n : Z) : Z := umul (u256_of_int n) oneCoinGrans.

Definition FromGransRem (grans : Z) : Z * Z :=
  (i64 (uUint64 (udiv grans oneCoinGrans)), i64 (uUint64 (umod grans oneCoinGrans))).

Definition FromGrans (grans : Z) : Z := i64 (uUint64 (udiv grans oneCoinGrans)).

Definition AmountToPower (amt : Z) : outcome Z :=
  let vp := i64 (uUint64 (udiv amt amountPerPower)) in
  if vp <? 0
  then Err (Wrapf ErrOverFlow "voting power is converted as negative(%v) from amount(%v)")
  else Ok vp.

Definition PowerToAmount (power : Z) : Z := umul (u256_of_int power) amountPerPower.
Definition AmountPerPower : Z := amountPerPower.
Definition GasToFee (gas price : Z) : Z := umul (u256_of_int gas) price.
Definition FeeToGas (fee price : Z) : Z := i64 (uUint64 (udiv fee price)).

(** ** [types/address.go] *)

Definition ACCT_COMMON_TYPE : Z := 1.
Definition ZeroAddress : Address := repeat 0 AddrSize.
Definition IsZeroAddress (addr : Address) : bool := forallb (fun b => b =? 0) addr.
Definition DeadAddress : Address := repeat 0 18 ++ [222; 173].

(** ** [libs/utils.go] *)

Definition MaxInt (a b : Z) : Z := if b <? a then a else b.
Definition MinInt (a b : Z) : Z := if a <? b then a else b.

(** ** Facts *)

Lemma get_be_strip b : get_be (strip_zeros b) 0 = get_be b 0.
Proof.
  induction b as [|x b IH]; [done|]. cbn [strip_zeros].
  destruct (Z.eqb_spec x 0) as [->|]; [|done]. rewrite IH. cbn. reflexivity.
Qed.

Lemma length_strip b : (length (strip_zeros b) <= length b)%nat.
Proof. induction b as [|x b IH]; cbn; [lia|]. destruct (x =? 0); cbn; lia. Qed.

(** A balance survives [Bytes] and [SetBytes]. *)
Lemma uSetBytes_uBytes a : in_u256 a -> uSetBytes (uBytes a) = a.
Proof.
  intros [H0 H1]. unfold uSetBytes, uBytes.
  pose proof (length_strip (put_be 32 a)) as Hl. rewrite length_put_be in Hl.
  replace (length (strip_zeros (put_be 32 a)) - 32)%nat with 0%nat by lia.
  rewrite drop_0, get_be_strip, get_put_be by lia.
  rewrite Z.mod_small; [lia|]. change (256 ^ Z.of_nat 32) with (2 ^ 256). lia.
Qed.

Lemma uSign_neg a : in_u256 a -> uSign a < 0 <-> 2 ^ 255 <= a.
Proof.
  intros [H0 H1]. unfold uSign. destruct (Z.eqb_spec a 0); [lia|].
  destruct (Z.ltb_spec a (2 ^ 255)); lia.
Qed.

Lemma PowerToAmount_exact p : 0 <= p < 2 ^ 63 -> PowerToAmount p = p * amountPerPower.
Proof.
  intros Hp. unfold PowerToAmount, umul, u256_of_int, u64, amountPerPower.
  rewrite Z.mod_small by lia. apply u256_id. unfold in_u256. lia.
Qed.

(** Staking and refunding convert an amount that is a multiple of the unit
    without loss. *)
Lemma AmountToPower_exact p : 0 <= p < 2 ^ 63 -> AmountToPower (p * amountPerPower) = Ok p.
Proof.
  intros Hp. unfold AmountToPower, udiv, uUint64, u64. cbn [amountPerPower Z.eqb].
  rewrite Z.div_mul by done. rewrite Z.mod_small, i64_id by (unfold in_i64; lia).
  destruct (Z.ltb_spec p 0); [lia|done].
Qed.

Lemma uCmp_eq a b : uCmp a b = 0 -> a = b.
Proof. unfold uCmp. destruct (Z.ltb_spec a b); [done|]. destruct (Z.ltb_spec b a); [done|]. lia. Qed.

Lemma length_ZeroAddress : length ZeroAddress = AddrSize.
Proof. done. Qed.

Lemma length_DeadAddress : length DeadAddress = AddrSize.
Proof. done. Qed.
