(* ===== verification/HexBytes.v ===== *)
(** * HexBytes: byte strings as text

    [types/bytes/hex_bytes.go] and the addresses of [types/address.go].  Text is
    a list of character codes.  The hexadecimal and base64 encodings are those
    of the standard library.  A byte string survives the way into JSON and back,
    and an address the way through its text, with or without the prefix. *)
From stdpp Require Import base list strings.
From Stdlib Require Import ZArith Lia Decimal DecimalN.
From S2P Require Import Prelude XErrors GoMonad LedgerKeys Units.

(** The character codes of a string literal. *)
Fixpoint text (s : string) : bytes :=
  match s with
  | EmptyString => []
  | String c s' => Z.of_nat (Ascii.nat_of_ascii c) :: text s'
  end.

(** ** [encoding/hex] *)

Definition hex_digit (n : Z) : Z := if n <? 10 then 48 + n else 87 + n.

Definition hex_EncodeToString (b : bytes) : bytes :=
  flat_map (fun x => [hex_digit (x / 16); hex_digit (x mod 16)]) b.

Definition hex_val (c : Z) : option Z :=
  if (48 <=? c) && (c <=? 57) then Some (c - 48)
  else if (97 <=? c) && (c <=? 102) then Some (c - 87)
  else if (65 <=? c) && (c <=? 70) then Some (c - 55)
  else None.

Fixpoint hex_DecodeString (s : bytes) : outcome bytes :=
  match s with
  | [] => Ok []
  | a :: b :: s' =>
      match hex_val a, hex_val b with
      | Some x, Some y => obind (hex_DecodeString s') (fun r => Ok (x * 16 + y :: r))
      | _, _ => Err (GoError "encoding/hex: invalid byte: %#U")
      end
  | _ => Err (GoError "encoding/hex: odd length hex string")
  end.

(** [strings.ToUpper] on ASCII text. *)
Definition upper_char (c : Z) : Z := if (97 <=? c) && (c <=? 122) then c - 32 else c.
Definition ToUpper (s : bytes) : bytes := map upper_char s.

Definition HasPrefix0x (s : bytes) : bool :=
  match s with 48 :: 120 :: _ => true | _ => false end.
Definition TrimPrefix0x (s : bytes) : bytes := if HasPrefix0x s then drop 2 s else s.

(** ** [strconv]: decimal numbers *)

Fixpoint uint_text (u : Decimal.uint) : bytes :=
  match u with
  | Decimal.Nil => []
  | Decimal.D0 u => 48 :: uint_text u
  | Decimal.D1 u => 49 :: uint_text u
  | Decimal.D2 u => 50 :: uint_text u
  | Decimal.D3 u => 51 :: uint_text u
  | Decimal.D4 u => 52 :: uint_text u
  | Decimal.D5 u => 53 :: uint_text u
  | Decimal.D6 u => 54 :: uint_text u
  | Decimal.D7 u => 55 :: uint_text u
  | Decimal.D8 u => 56 :: uint_text u
  | Decimal.D9 u => 57 :: uint_text u
  end.

Fixpoint text_uint (s : bytes) : option Decimal.uint :=
  match s with
  | [] => Some Decimal.Nil
  | c :: s' =>
      match text_uint s' with
      | None => None
      | Some u =>
          if c =? 48 then Some (Decimal.D0 u) else if c =? 49 then Some (Decimal.D1 u)
          else if c =? 50 then Some (Decimal.D2 u) else if c =? 51 then Some (Decimal.D3 u)
          else if c =? 52 then Some (Decimal.D4 u) else if c =? 53 then Some (Decimal.D5 u)
          else if c =? 54 then Some (Decimal.D6 u) else if c =? 55 then Some (Decimal.D7 u)
          else if c =? 56 then Some (Decimal.D8 u) else if c =? 57 then Some (Decimal.D9 u)
          else None
      end
  end.

(** Decimal text of a number that is not negative. *)
Definition Dec_text (n : Z) : bytes := uint_text (N.to_uint (Z.to_N n)).

(** [strconv.FormatInt(n, 10)] *)
Definition FormatInt (n : Z) : bytes := if n <? 0 then 45 :: Dec_text (- n) else Dec_text n.

Definition parse_digits (s : bytes) : option Z :=
  match s with
  | [] => None
  | _ => option_map (fun u => Z.of_N (N.of_uint u)) (text_uint s)
  end.

(** [strconv.ParseInt(s, 10, 64)]: an optional sign, then digits. *)
Definition ParseInt (s : bytes) : outcome Z :=
  let parsed :=
    match s with
    | 45 :: s' => option_map Z.opp (parse_digits s')
    | 43 :: s' => parse_digits s'
    | _ => parse_digits s
    end in
  match parsed with
  | None => Err (GoError "strconv.ParseInt: parsing %q: invalid syntax")
  | Some n =>
      if (- 2 ^ 63 <=? n) && (n <? 2 ^ 63) then Ok n
      else Err (GoError "strconv.ParseInt: parsing %q: value out of range")
  end.

Lemma text_uint_text u : text_uint (uint_text u) = Some u.
Proof. induction u as [|u IH|u IH|u IH|u IH|u IH|u IH|u IH|u IH|u IH|u IH]; cbn; rewrite ?IH; done. Qed.

Lemma uint_text_inj u v : uint_text u = uint_text v -> u = v.
Proof. intros Huv. pose proof (text_uint_text u) as Hu. rewrite Huv, text_uint_text in Hu. by injection Hu. Qed.

Lemma Dec_text_inj a b : 0 <= a -> 0 <= b -> Dec_text a = Dec_text b -> a = b.
Proof.
  intros Ha Hb Hab. apply uint_text_inj in Hab. apply (f_equal N.of_uint) in Hab.
  rewrite !DecimalN.Unsigned.of_to in Hab. lia.
Qed.

Lemma uint_text_digits u : Forall (fun c => 48 <= c <= 57) (uint_text u).
Proof. induction u; cbn; constructor; done || lia. Qed.

Lemma ParseInt_FormatInt n : in_i64 n -> ParseInt (FormatInt n) = Ok n.
Proof.
  unfold in_i64. intros Hn. unfold ParseInt, FormatInt.
  assert (Hd : forall m, 0 <= m -> parse_digits (Dec_text m) = Some m).
  { intros m Hm. unfold Dec_text, parse_digits. pose proof (text_uint_text (N.to_uint (Z.to_N m))) as Ht.
    destruct (uint_text (N.to_uint (Z.to_N m))) as [|c t] eqn:Eu.
    - exfalso. cbn in Ht. injection Ht as Ht. pose proof (DecimalN.Unsigned.of_to (Z.to_N m)) as Ho.
      rewrite <- Ht in Ho. cbn in Ho. assert (m = 0) as -> by lia. cbn in Eu. done.
    - rewrite Ht. cbn [option_map]. rewrite DecimalN.Unsigned.of_to. f_equal. lia. }
  assert (Hr : (- 2 ^ 63 <=? n) && (n <? 2 ^ 63) = true) by lia.
  destruct (Z.ltb_spec n 0) as [Hneg|Hpos].
  - cbn [option_map]. rewrite Hd by lia. cbn [option_map]. rewrite Z.opp_involutive, Hr. done.
  - pose proof (uint_text_digits (N.to_uint (Z.to_N n))) as Hdig. fold (Dec_text n) in Hdig. specialize (Hd n Hpos).
    destruct (Dec_text n) as [|c t]; [done|]. inversion Hdig as [|? ? Hc _]; subst.
    assert (c = 48 \/ c = 49 \/ c = 50 \/ c = 51 \/ c = 52 \/ c = 53 \/ c = 54 \/ c = 55 \/ c = 56 \/ c = 57) as Hcs by lia.
    repeat destruct Hcs as [->|Hcs]; subst; cbn [option_map]; rewrite Hd, Hr; done.
Qed.

(** ** [encoding/base64], standard encoding *)

Definition b64_val (c : Z) : option Z :=
  if (65 <=? c) && (c <=? 90) then Some (c - 65)
  else if (97 <=? c) && (c <=? 122) then Some (c - 71)
  else if (48 <=? c) && (c <=? 57) then Some (c + 4)
  else if c =? 43 then Some 62
  else if c =? 47 then Some 63
  else None.

Definition b64_corrupt : error := GoError "illegal base64 data at input byte %d".

Fixpoint b64_quads (s : bytes) : outcome bytes :=
  match s with
  | [] => Ok []
  | a :: b :: c :: d :: s' =>
      match b64_val a, b64_val b with
      | Some x, Some y =>
          if c =? 61 then
            if (d =? 61) && (length s' =? 0)%nat then Ok [x * 4 + y / 16] else Err b64_corrupt
          else
            match b64_val c with
            | None => Err b64_corrupt
            | Some z =>
                if d =? 61 then
                  if (length s' =? 0)%nat then Ok [x * 4 + y / 16; y mod 16 * 16 + z / 4]
                  else Err b64_corrupt
                else
                  match b64_val d with
                  | None => Err b64_corrupt
                  | Some w =>
                      obind (b64_quads s') (fun r =>
                        Ok (x * 4 + y / 16 :: y mod 16 * 16 + z / 4 :: z mod 4 * 64 + w :: r))
                  end
            end
      | _, _ => Err b64_corrupt
      end
  | _ => Err b64_corrupt
  end.

(** Line ends are skipped. *)
Definition base64_DecodeString (s : bytes) : outcome bytes :=
  b64_quads (List.filter (fun c => negb ((c =? 10) || (c =? 13))) s).

(** ** HexBytes *)

Definition HexBytes_String (hb : bytes) : bytes := ToUpper (hex_EncodeToString hb).

Definition HexBytes_MarshalJSON (hb : bytes) : bytes := 34 :: HexBytes_String hb ++ [34].

Definition isHex (s : bytes) : bool :=
  if negb (Z.of_nat (length s) mod 2 =? 0) then false
  else
    let v := if HasPrefix0x s then drop 2 s else s in
    forallb (fun b => ((48 <=? b) && (b <=? 57)) || ((97 <=? b) && (b <=? 102)) || ((65 <=? b) && (b <=? 70))) v.

(** The text between the quotes. *)
Definition unquoted (data : bytes) : bytes := take (length data - 2) (drop 1 data).

Definition HexBytes_UnmarshalJSON (data : bytes) : outcome bytes :=
  if (length data <? 2)%nat || negb (default 0 (head data) =? 34) || negb (default 0 (last data) =? 34)
  then Err (GoError "invalid hex string: %s")
  else
    let val := unquoted data in
    if isHex val then hex_DecodeString (TrimPrefix0x val) else base64_DecodeString val.

(** [Array20] and [Array32]: cut or filled with zeros. *)
Definition array_of (n : nat) (hb : bytes) : bytes := take n hb ++ repeat 0 (n - length hb).
Definition Array20 (hb : bytes) : bytes := array_of 20 hb.
Definition Array32 (hb : bytes) : bytes := array_of 32 hb.

Definition HexToAddress (hex : bytes) : outcome Address :=
  match hex_DecodeString (TrimPrefix0x hex) with
  | Ok bzAddr =>
      if negb (length bzAddr =? AddrSize)%nat
      then Err (NewOrdinary "error of address length: address length should be 20 bytes")
      else Ok bzAddr
  | Err e => Err (From_ e)
  | Panic => Panic
  end.

(** ** Round trips *)

Definition is_byte (x : Z) : Prop := 0 <= x < 256.

Lemma hex_val_upper n : 0 <= n < 16 -> hex_val (upper_char (hex_digit n)) = Some n.
Proof.
  intros Hn. assert (forallb (fun n => bool_decide (hex_val (upper_char (hex_digit n)) = Some n)) (seqZ 0 16) = true)
    as Hall by reflexivity.
  rewrite forallb_forall in Hall. eapply bool_decide_eq_true, Hall, list_elem_of_In, elem_of_seqZ. lia.
Qed.

Lemma decode_String hb : Forall is_byte hb -> hex_DecodeString (HexBytes_String hb) = Ok hb.
Proof.
  intros Hb. induction Hb as [|x hb Hx Hb IH]; [done|]. unfold is_byte in Hx.
  change (HexBytes_String (x :: hb)) with
    (upper_char (hex_digit (x / 16)) :: upper_char (hex_digit (x mod 16)) :: HexBytes_String hb).
  cbn [hex_DecodeString]. rewrite !hex_val_upper, IH; cbn [obind].
  - f_equal. f_equal. pose proof (Z.div_mod x 16). lia.
  - split; [apply Z.mod_pos_bound|apply Z.mod_pos_bound]; lia.
  - split; [apply Z.div_pos; lia|apply Z.div_lt_upper_bound; lia].
Qed.

Lemma length_String hb : length (HexBytes_String hb) = (2 * length hb)%nat.
Proof.
  induction hb as [|x hb IH]; [done|].
  change (HexBytes_String (x :: hb)) with
    (upper_char (hex_digit (x / 16)) :: upper_char (hex_digit (x mod 16)) :: HexBytes_String hb).
  cbn [length]. lia.
Qed.

Definition upper_hex (c : Z) : Prop := 48 <= c <= 57 \/ 65 <= c <= 70.

Lemma upper_char_digit n : 0 <= n < 16 -> upper_hex (upper_char (hex_digit n)).
Proof.
  intros Hn. unfold upper_hex, upper_char, hex_digit.
  destruct (n <? 10) eqn:E; case_match; rewrite ?andb_true_iff, ?andb_false_iff in *; lia.
Qed.

Lemma String_upper_hex hb : Forall is_byte hb -> Forall upper_hex (HexBytes_String hb).
Proof.
  intros Hb. induction Hb as [|x hb Hx Hb IH]; [constructor|]. unfold is_byte in Hx.
  apply Forall_cons; split; [|apply Forall_cons; split; [|exact IH]]; apply upper_char_digit.
  - split; [apply Z.div_pos; lia|apply Z.div_lt_upper_bound; lia].
  - apply Z.mod_pos_bound; lia.
Qed.

Lemma upper_hex_no_prefix s : Forall upper_hex s -> HasPrefix0x s = false.
Proof.
  intros Hs. destruct (HasPrefix0x s) eqn:E; [|done]. exfalso.
  destruct s as [|a [|b s]]; try (cbn in E; repeat case_match; congruence).
  assert (b = 120) as -> by (cbn in E; repeat case_match; congruence).
  inversion Hs as [|? ? _ Ht]; subst. inversion Ht as [|? ? Hb _]; subst. destruct Hb; lia.
Qed.

Lemma isHex_String hb : Forall is_byte hb -> isHex (HexBytes_String hb) = true.
Proof.
  intros Hb. pose proof (String_upper_hex _ Hb) as Hu. unfold isHex.
  rewrite length_String, (upper_hex_no_prefix _ Hu).
  replace (Z.of_nat (2 * length hb)) with (Z.of_nat (length hb) * 2) by lia.
  rewrite Z.mod_mul by lia. cbn [Z.eqb negb].
  apply forallb_forall. intros c Hc. apply list_elem_of_In in Hc.
  rewrite Forall_forall in Hu. destruct (Hu c Hc); repeat (apply orb_true_iff; first [left; lia|right]); lia.
Qed.

Lemma unquoted_quote s : unquoted (34 :: s ++ [34]) = s.
Proof. unfold unquoted. cbn [drop length]. rewrite length_app. apply take_app_length'. cbn. lia. Qed.

(** Text round trips: every byte string is read back from the JSON text
    written for it, and a 20-byte address from its hexadecimal text, with or
    without the leading [0x]. *)
Theorem hex_text_roundtrip (hb : bytes) :
  Forall is_byte hb ->
  HexBytes_UnmarshalJSON (HexBytes_MarshalJSON hb) = Ok hb /\
  (length hb = AddrSize ->
   HexToAddress (HexBytes_String hb) = Ok hb /\
   HexToAddress (text "0x" ++ HexBytes_String hb) = Ok hb).
Proof.
  intros Hb. pose proof (String_upper_hex _ Hb) as Hu. split.
  - unfold HexBytes_UnmarshalJSON, HexBytes_MarshalJSON.
    rewrite unquoted_quote, (isHex_String _ Hb). unfold TrimPrefix0x.
    rewrite (upper_hex_no_prefix _ Hu), (decode_String _ Hb), app_comm_cons, last_snoc.
    cbn [head app]. rewrite (proj2 (Nat.ltb_ge _ _)); [done|]. cbn. rewrite length_app. cbn. lia.
  - intros Hl. unfold HexToAddress.
    change (TrimPrefix0x (text "0x" ++ HexBytes_String hb)) with (HexBytes_String hb).
    unfold TrimPrefix0x. by rewrite (upper_hex_no_prefix _ Hu), (decode_String _ Hb), Hl.
Qed.

Lemma hex_text_roundtrip_witness :
  HexBytes_UnmarshalJSON (HexBytes_MarshalJSON DeadAddress) = Ok DeadAddress /\
  HexToAddress (text "0x" ++ HexBytes_String DeadAddress) = Ok DeadAddress.
Proof.
  assert (Forall is_byte DeadAddress) as Hb by (repeat (constructor; [unfold is_byte; lia|]); constructor).
  destruct (hex_text_roundtrip DeadAddress Hb) as [Hjson Haddr].
  split; [exact Hjson|exact (proj2 (Haddr eq_refl))].
Defined.
