(* ===== verification/Proto.v ===== *)
(** * Proto: what the code relies on of the protobuf package

    Messages are encoded and decoded by [google.golang.org/protobuf], with code
    generated from the [.proto] files; neither is part of the sources.  A
    message type has [Marshal] and [Unmarshal] ([Proto]); the documented
    behaviour relied on is that decoding an encoded message gives the message
    back ([ProtoLaws]), for messages whose integers fit their width and whose
    strings are valid UTF-8.  [Countable_proto] is a concrete encoding with
    this behaviour, used by the witnesses. *)
From stdpp Require Import base gmap list countable strings.
From Stdlib Require Import ZArith Lia.
From S2P Require Import Prelude XErrors GoMonad.

Class Proto (A : Type) : Type := {
  Marshal : A -> outcome bytes;
  Unmarshal : bytes -> outcome A;
}.

(** [valid_utf8] of the strings a message holds. *)
Class Utf8 : Type := {
  valid_utf8 : bytes -> Prop;
  valid_utf8_nil : valid_utf8 [];
}.

Class ProtoLaws (A : Type) `{Proto A} (ok : A -> Prop) : Prop :=
  proto_roundtrip : forall m, ok m ->
    exists b, Marshal m = Ok b /\ Unmarshal b = Ok m.

Section CountableProto.
Context {A : Type} `{Countable A}.

Definition Countable_proto : Proto A := {|
  Marshal x := Ok [Z.pos (encode x)];
  Unmarshal b :=
    match b with
    | [Z.pos p] => match decode p with
                   | Some x => Ok x
                   | None => Err (GoError "proto: cannot parse invalid wire-format data")
                   end
    | _ => Err (GoError "proto: cannot parse invalid wire-format data")
    end;
|}.

Lemma Countable_proto_laws ok : @ProtoLaws A Countable_proto ok.
Proof.
  intros m _. exists [Z.pos (encode m)]. cbn. rewrite decode_encode. done.
Qed.

End CountableProto.

Definition Any_utf8 : Utf8 := {| valid_utf8 _ := True; valid_utf8_nil := Logic.I |}.
