(* ===== verification/GovParams.v ===== *)
(** * GovParams: the parameters the chain is governed by

    [ctrlers/types/gov_params.go]: the message [GovParamsProto], its getters,
    the default values, the ledger encoding and [MergeGovParams], which fills
    the fields a proposal leaves at their zero value from the current
    parameters.  The JSON forms are in [JsonForms.v]. *)
From stdpp Require Import base gmap list strings.
From Stdlib Require Import ZArith Lia.
From S2P Require Import Prelude XErrors GoMonad LedgerKeys Units Proto Ledger LedgerSpec.

(** The message generated from [gov_params.proto], with byte fields in [B]. *)
Record GovParamsMsg (B : Type) := MkGovParams {
  p_Version : Z;
  p_EmptyBlockIntervalSecs : Z;
  p_MaxValidatorCnt : Z;
  p_MinValidatorPower : Z;
  p_MinDelegatorPower : Z;
  p_MaxValidatorsOfDelegator : Z;
  p_MaxDelegatorsOfValidator : Z;
  p_MinSelfPowerRate : Z;
  p_MaxUpdatablePowerRate : Z;
  p_MaxIndividualPowerRate : Z;
  p_MinBondingBlocks : Z;
  p_MinSignedBlocks : Z;
  p_LazyUnbondingBlocks : Z;
  p_XMaxTotalSupply : B;
  p_InflationWeightPermil : Z;
  p_InflationCycleBlocks : Z;
  p_BondingBlocksWeightPermil : Z;
  p_RipeningBlocks : Z;
  p_XRewardPoolAddress : B;
  p_XDeadAddress : B;
  p_ValidatorRewardRate : Z;
  p_TxFeeRewardRate : Z;
  p_SlashRate : Z;
  p_XGasPrice : B;
  p_MinTrxGas : Z;
  p_BlockSizeLimit : Z;
  p_BlockGasLimit : Z;
  p_MinVotingPeriodBlocks : Z;
  p_MaxVotingPeriodBlocks : Z;
  p_LazyApplyingBlocks : Z;
}.

Arguments MkGovParams {B} _ _ _ _ _ _ _ _ _ _ _ _ _ _ _ _ _ _ _ _ _ _ _ _ _ _ _ _ _ _.
Arguments p_Version {B} _.
Arguments p_EmptyBlockIntervalSecs {B} _.
Arguments p_MaxValidatorCnt {B} _.
Arguments p_MinValidatorPower {B} _.
Arguments p_MinDelegatorPower {B} _.
Arguments p_MaxValidatorsOfDelegator {B} _.
Arguments p_MaxDelegatorsOfValidator {B} _.
Arguments p_MinSelfPowerRate {B} _.
Arguments p_MaxUpdatablePowerRate {B} _.
Arguments p_MaxIndividualPowerRate {B} _.
Arguments p_MinBondingBlocks {B} _.
Arguments p_MinSignedBlocks {B} _.
Arguments p_LazyUnbondingBlocks {B} _.
Arguments p_XMaxTotalSupply {B} _.
Arguments p_InflationWeightPermil {B} _.
Arguments p_InflationCycleBlocks {B} _.
Arguments p_BondingBlocksWeightPermil {B} _.
Arguments p_RipeningBlocks {B} _.
Arguments p_XRewardPoolAddress {B} _.
Arguments p_XDeadAddress {B} _.
Arguments p_ValidatorRewardRate {B} _.
Arguments p_TxFeeRewardRate {B} _.
Arguments p_SlashRate {B} _.
Arguments p_XGasPrice {B} _.
Arguments p_MinTrxGas {B} _.
Arguments p_BlockSizeLimit {B} _.
Arguments p_BlockGasLimit {B} _.
Arguments p_MinVotingPeriodBlocks {B} _.
Arguments p_MaxVotingPeriodBlocks {B} _.
Arguments p_LazyApplyingBlocks {B} _.

(** The parameters as they are stored and read by the chain.  No accessor, no
    encoding and no merge asks whether one of their byte fields is nil or an empty
    slice, so both are [[]] here. *)
Definition GovParamsProto : Type := GovParamsMsg bytes.

(** The parameters as [UnmarshalJSON] leaves them, before they are merged: a byte
    field is nil ([None]) or a slice, which may be empty. *)
Definition GovParamsRead : Type := GovParamsMsg (option bytes).

#[global] Instance GovParamsProto_eq_dec : EqDecision GovParamsProto.
Proof. solve_decision. Defined.

(** Seconds of a day, a week and a year ([weight_result.go]). *)
Definition DaySeconds : Z := 60 * 60 * 24.
Definition WeekSeconds : Z := DaySeconds * 7.
Definition YearSeconds : Z := DaySeconds * 365.

Module GovParams.

Definition NewGovParams (interval0 : Z) : GovParamsProto :=
  let interval := if interval0 <=? 0 then 1 else interval0 in
  {|
    p_Version := 4;
    p_EmptyBlockIntervalSecs := i32 interval;
    p_MaxValidatorCnt := 21;
    p_MinValidatorPower := 100000;
    p_MinDelegatorPower := 100;
    p_MaxValidatorsOfDelegator := 1;
    p_MaxDelegatorsOfValidator := 1000;
    p_MinSelfPowerRate := 50;
    p_MaxUpdatablePowerRate := 33;
    p_MaxIndividualPowerRate := 33;
    p_MinBondingBlocks := go_div (2 * WeekSeconds) interval;
    p_MinSignedBlocks := 500;
    p_LazyUnbondingBlocks := go_div (30 * DaySeconds) interval;
    p_XMaxTotalSupply := uBytes 700000000000000000000000000;
    p_InflationWeightPermil := 3;
    p_InflationCycleBlocks := go_div WeekSeconds interval;
    p_BondingBlocksWeightPermil := 500;
    p_RipeningBlocks := go_div YearSeconds interval;
    p_XRewardPoolAddress := ZeroAddress;
    p_XDeadAddress := Units.DeadAddress;
    p_ValidatorRewardRate := 30;
    p_TxFeeRewardRate := 90;
    p_SlashRate := 50;
    p_XGasPrice := uBytes 48000000000;
    p_MinTrxGas := 5000;
    p_BlockSizeLimit := 22020096;
    p_BlockGasLimit := 120000000;
    p_MinVotingPeriodBlocks := go_div DaySeconds interval;
    p_MaxVotingPeriodBlocks := go_div (7 * DaySeconds) interval;
    p_LazyApplyingBlocks := go_div DaySeconds interval;
  |}.

Definition DefaultGovParams : GovParamsProto := NewGovParams 1.

(** ** Getters *)

Definition Version (gp : GovParamsProto) : Z := p_Version gp.
Definition EmptyBlockIntervalSecs (gp : GovParamsProto) : Z := p_EmptyBlockIntervalSecs gp.
Definition MaxValidatorCnt (gp : GovParamsProto) : Z := p_MaxValidatorCnt gp.
Definition MinValidatorPower (gp : GovParamsProto) : Z := p_MinValidatorPower gp.
Definition MinDelegatorPower (gp : GovParamsProto) : Z := p_MinDelegatorPower gp.
Definition MaxValidatorsOfDelegator (gp : GovParamsProto) : Z := p_MaxValidatorsOfDelegator gp.
Definition MaxDelegatorsOfValidator (gp : GovParamsProto) : Z := p_MaxDelegatorsOfValidator gp.
Definition MinSelfPowerRate (gp : GovParamsProto) : Z := p_MinSelfPowerRate gp.
Definition MaxUpdatablePowerRate (gp : GovParamsProto) : Z := p_MaxUpdatablePowerRate gp.
Definition MaxIndividualPowerRate (gp : GovParamsProto) : Z := p_MaxIndividualPowerRate gp.
Definition MinBondingBlocks (gp : GovParamsProto) : Z := p_MinBondingBlocks gp.
Definition MinSignedBlocks (gp : GovParamsProto) : Z := p_MinSignedBlocks gp.
Definition LazyUnbondingBlocks (gp : GovParamsProto) : Z := p_LazyUnbondingBlocks gp.
Definition MaxTotalSupply (gp : GovParamsProto) : Z := uSetBytes (p_XMaxTotalSupply gp).
Definition InflationWeightPermil (gp : GovParamsProto) : Z := p_InflationWeightPermil gp.
Definition InflationCycleBlocks (gp : GovParamsProto) : Z := p_InflationCycleBlocks gp.
Definition BondingBlocksWeightPermil (gp : GovParamsProto) : Z := p_BondingBlocksWeightPermil gp.
Definition RipeningBlocks (gp : GovParamsProto) : Z := p_RipeningBlocks gp.
Definition RewardPoolAddress (gp : GovParamsProto) : Address := p_XRewardPoolAddress gp.
Definition DeadAddress (gp : GovParamsProto) : Address := p_XDeadAddress gp.
Definition ValidatorRewardRate (gp : GovParamsProto) : Z := p_ValidatorRewardRate gp.
Definition TxFeeRewardRate (gp : GovParamsProto) : Z := p_TxFeeRewardRate gp.
Definition SlashRate (gp : GovParamsProto) : Z := p_SlashRate gp.
Definition GasPrice (gp : GovParamsProto) : Z := uSetBytes (p_XGasPrice gp).
Definition MinTrxFee (gp : GovParamsProto) : Z :=
  umul (u256_of_int (p_MinTrxGas gp)) (uSetBytes (p_XGasPrice gp)).
Definition MinTrxGas (gp : GovParamsProto) : Z := p_MinTrxGas gp.
Definition BlockSizeLimit (gp : GovParamsProto) : Z := p_BlockSizeLimit gp.
Definition BlockGasLimit (gp : GovParamsProto) : Z := p_BlockGasLimit gp.
Definition MinVotingPeriodBlocks (gp : GovParamsProto) : Z := p_MinVotingPeriodBlocks gp.
Definition MaxVotingPeriodBlocks (gp : GovParamsProto) : Z := p_MaxVotingPeriodBlocks gp.
Definition LazyApplyingBlocks (gp : GovParamsProto) : Z := p_LazyApplyingBlocks gp.

(** ** Merging *)

(** A field of the proposal at the zero value of its type, which is nil for a byte
    field, takes the value of the old one; an empty slice is not nil. *)
Definition merge_int (old new : Z) : Z := if new =? 0 then old else new.
Definition merge_bytes (old : bytes) (new : option bytes) : bytes := match new with None => old | Some b => b end.

(** The loop over the fields of the message; the result is the new value of
    [toParams]. *)
Definition MergeGovParams (fromParams : GovParamsProto) (toParams : GovParamsRead) : GovParamsProto :=
  {|
    p_Version := merge_int (p_Version fromParams) (p_Version toParams);
    p_EmptyBlockIntervalSecs := merge_int (p_EmptyBlockIntervalSecs fromParams) (p_EmptyBlockIntervalSecs toParams);
    p_MaxValidatorCnt := merge_int (p_MaxValidatorCnt fromParams) (p_MaxValidatorCnt toParams);
    p_MinValidatorPower := merge_int (p_MinValidatorPower fromParams) (p_MinValidatorPower toParams);
    p_MinDelegatorPower := merge_int (p_MinDelegatorPower fromParams) (p_MinDelegatorPower toParams);
    p_MaxValidatorsOfDelegator := merge_int (p_MaxValidatorsOfDelegator fromParams) (p_MaxValidatorsOfDelegator toParams);
    p_MaxDelegatorsOfValidator := merge_int (p_MaxDelegatorsOfValidator fromParams) (p_MaxDelegatorsOfValidator toParams);
    p_MinSelfPowerRate := merge_int (p_MinSelfPowerRate fromParams) (p_MinSelfPowerRate toParams);
    p_MaxUpdatablePowerRate := merge_int (p_MaxUpdatablePowerRate fromParams) (p_MaxUpdatablePowerRate toParams);
    p_MaxIndividualPowerRate := merge_int (p_MaxIndividualPowerRate fromParams) (p_MaxIndividualPowerRate toParams);
    p_MinBondingBlocks := merge_int (p_MinBondingBlocks fromParams) (p_MinBondingBlocks toParams);
    p_MinSignedBlocks := merge_int (p_MinSignedBlocks fromParams) (p_MinSignedBlocks toParams);
    p_LazyUnbondingBlocks := merge_int (p_LazyUnbondingBlocks fromParams) (p_LazyUnbondingBlocks toParams);
    p_XMaxTotalSupply := merge_bytes (p_XMaxTotalSupply fromParams) (p_XMaxTotalSupply toParams);
    p_InflationWeightPermil := merge_int (p_InflationWeightPermil fromParams) (p_InflationWeightPermil toParams);
    p_InflationCycleBlocks := merge_int (p_InflationCycleBlocks fromParams) (p_InflationCycleBlocks toParams);
    p_BondingBlocksWeightPermil := merge_int (p_BondingBlocksWeightPermil fromParams) (p_BondingBlocksWeightPermil toParams);
    p_RipeningBlocks := merge_int (p_RipeningBlocks fromParams) (p_RipeningBlocks toParams);
    p_XRewardPoolAddress := merge_bytes (p_XRewardPoolAddress fromParams) (p_XRewardPoolAddress toParams);
    p_XDeadAddress := merge_bytes (p_XDeadAddress fromParams) (p_XDeadAddress toParams);
    p_ValidatorRewardRate := merge_int (p_ValidatorRewardRate fromParams) (p_ValidatorRewardRate toParams);
    p_TxFeeRewardRate := merge_int (p_TxFeeRewardRate fromParams) (p_TxFeeRewardRate toParams);
    p_SlashRate := merge_int (p_SlashRate fromParams) (p_SlashRate toParams);
    p_XGasPrice := merge_bytes (p_XGasPrice fromParams) (p_XGasPrice toParams);
    p_MinTrxGas := merge_int (p_MinTrxGas fromParams) (p_MinTrxGas toParams);
    p_BlockSizeLimit := merge_int (p_BlockSizeLimit fromParams) (p_BlockSizeLimit toParams);
    p_BlockGasLimit := merge_int (p_BlockGasLimit fromParams) (p_BlockGasLimit toParams);
    p_MinVotingPeriodBlocks := merge_int (p_MinVotingPeriodBlocks fromParams) (p_MinVotingPeriodBlocks toParams);
    p_MaxVotingPeriodBlocks := merge_int (p_MaxVotingPeriodBlocks fromParams) (p_MaxVotingPeriodBlocks toParams);
    p_LazyApplyingBlocks := merge_int (p_LazyApplyingBlocks fromParams) (p_LazyApplyingBlocks toParams);
  |}.

(** A message with its byte fields changed. *)
Definition map_msg {A B} (f : A -> B) (gp : GovParamsMsg A) : GovParamsMsg B :=
  {|
    p_Version := p_Version gp;
    p_EmptyBlockIntervalSecs := p_EmptyBlockIntervalSecs gp;
    p_MaxValidatorCnt := p_MaxValidatorCnt gp;
    p_MinValidatorPower := p_MinValidatorPower gp;
    p_MinDelegatorPower := p_MinDelegatorPower gp;
    p_MaxValidatorsOfDelegator := p_MaxValidatorsOfDelegator gp;
    p_MaxDelegatorsOfValidator := p_MaxDelegatorsOfValidator gp;
    p_MinSelfPowerRate := p_MinSelfPowerRate gp;
    p_MaxUpdatablePowerRate := p_MaxUpdatablePowerRate gp;
    p_MaxIndividualPowerRate := p_MaxIndividualPowerRate gp;
    p_MinBondingBlocks := p_MinBondingBlocks gp;
    p_MinSignedBlocks := p_MinSignedBlocks gp;
    p_LazyUnbondingBlocks := p_LazyUnbondingBlocks gp;
    p_XMaxTotalSupply := f (p_XMaxTotalSupply gp);
    p_InflationWeightPermil := p_InflationWeightPermil gp;
    p_InflationCycleBlocks := p_InflationCycleBlocks gp;
    p_BondingBlocksWeightPermil := p_BondingBlocksWeightPermil gp;
    p_RipeningBlocks := p_RipeningBlocks gp;
    p_XRewardPoolAddress := f (p_XRewardPoolAddress gp);
    p_XDeadAddress := f (p_XDeadAddress gp);
    p_ValidatorRewardRate := p_ValidatorRewardRate gp;
    p_TxFeeRewardRate := p_TxFeeRewardRate gp;
    p_SlashRate := p_SlashRate gp;
    p_XGasPrice := f (p_XGasPrice gp);
    p_MinTrxGas := p_MinTrxGas gp;
    p_BlockSizeLimit := p_BlockSizeLimit gp;
    p_BlockGasLimit := p_BlockGasLimit gp;
    p_MinVotingPeriodBlocks := p_MinVotingPeriodBlocks gp;
    p_MaxVotingPeriodBlocks := p_MaxVotingPeriodBlocks gp;
    p_LazyApplyingBlocks := p_LazyApplyingBlocks gp;
  |}.

(** What the chain reads of parameters that were unmarshalled, and stored parameters
    in memory. *)
Definition nilled (b : bytes) : option bytes := if bytes_Equal b [] then None else Some b.
Definition plain (gp : GovParamsRead) : GovParamsProto := map_msg (default []) gp.
Definition in_memory (gp : GovParamsProto) : GovParamsRead := map_msg nilled gp.

(** The parameters with every field at its zero value. *)
Definition zero_of {B} (nil : B) : GovParamsMsg B :=
  {|
    p_Version := 0;
    p_EmptyBlockIntervalSecs := 0;
    p_MaxValidatorCnt := 0;
    p_MinValidatorPower := 0;
    p_MinDelegatorPower := 0;
    p_MaxValidatorsOfDelegator := 0;
    p_MaxDelegatorsOfValidator := 0;
    p_MinSelfPowerRate := 0;
    p_MaxUpdatablePowerRate := 0;
    p_MaxIndividualPowerRate := 0;
    p_MinBondingBlocks := 0;
    p_MinSignedBlocks := 0;
    p_LazyUnbondingBlocks := 0;
    p_XMaxTotalSupply := nil;
    p_InflationWeightPermil := 0;
    p_InflationCycleBlocks := 0;
    p_BondingBlocksWeightPermil := 0;
    p_RipeningBlocks := 0;
    p_XRewardPoolAddress := nil;
    p_XDeadAddress := nil;
    p_ValidatorRewardRate := 0;
    p_TxFeeRewardRate := 0;
    p_SlashRate := 0;
    p_XGasPrice := nil;
    p_MinTrxGas := 0;
    p_BlockSizeLimit := 0;
    p_BlockGasLimit := 0;
    p_MinVotingPeriodBlocks := 0;
    p_MaxVotingPeriodBlocks := 0;
    p_LazyApplyingBlocks := 0;
  |}.

Definition zero : GovParamsProto := zero_of [].
Definition unset : GovParamsRead := zero_of None.

(** Integers of the message at their width. *)
Definition ok {B} (gp : GovParamsMsg B) : Prop :=
  Forall (fun z => - 2 ^ 31 <= z < 2 ^ 31)
    [p_Version gp;
     p_EmptyBlockIntervalSecs gp;
     p_MaxValidatorCnt gp;
     p_MaxValidatorsOfDelegator gp;
     p_MaxDelegatorsOfValidator gp;
     p_MinSelfPowerRate gp;
     p_MaxUpdatablePowerRate gp;
     p_MaxIndividualPowerRate gp;
     p_InflationWeightPermil gp;
     p_BondingBlocksWeightPermil gp;
     p_ValidatorRewardRate gp;
     p_TxFeeRewardRate gp;
     p_SlashRate gp] /\
  Forall in_i64
    [p_MinValidatorPower gp;
     p_MinDelegatorPower gp;
     p_MinBondingBlocks gp;
     p_MinSignedBlocks gp;
     p_LazyUnbondingBlocks gp;
     p_InflationCycleBlocks gp;
     p_RipeningBlocks gp;
     p_MinTrxGas gp;
     p_BlockSizeLimit gp;
     p_BlockGasLimit gp;
     p_MinVotingPeriodBlocks gp;
     p_MaxVotingPeriodBlocks gp;
     p_LazyApplyingBlocks gp].

(** ** Facts *)

Lemma MergeGovParams_unset gp : MergeGovParams gp unset = gp.
Proof. now destruct gp. Qed.

Lemma default_nilled b : default [] (nilled b) = b.
Proof. unfold nilled. destruct (bytes_Equal b []) eqn:E; [|done]. now apply bytes_Equal_true in E. Qed.

Lemma plain_in_memory gp : plain (in_memory gp) = gp.
Proof. destruct gp. unfold plain, in_memory, map_msg. cbn -[nilled]. now rewrite !default_nilled. Qed.

Lemma merge_int_ok (P : Z -> Prop) old new : P old -> P new -> P (merge_int old new).
Proof. unfold merge_int. now destruct (new =? 0). Qed.

(** Merging keeps every integer at its width. *)
Lemma MergeGovParams_ok old new : ok old -> ok new -> ok (MergeGovParams old new).
Proof.
  intros [Ho1 Ho2] [Hn1 Hn2]. split.
  - repeat match goal with H : Forall _ (_ :: _) |- _ => apply Forall_cons in H as [? H] end.
    repeat constructor; cbn; apply (merge_int_ok (fun z => - 2 ^ 31 <= z < 2 ^ 31)); done.
  - repeat match goal with H : Forall _ (_ :: _) |- _ => apply Forall_cons in H as [? H] end.
    repeat (apply Forall_cons; split; [cbn; apply merge_int_ok; done|]). constructor.
Qed.

End GovParams.
