(* ===== verification/Account.v ===== *)
(** * Account: account records

    [ctrlers/types/account.go]: the account, its balance and nonce operations,
    and its ledger encoding through the message [AcctProto].  A Go string is
    its bytes. *)
From stdpp Require Import base gmap list strings countable.
From Stdlib Require Import ZArith Lia.
From S2P Require Import Prelude XErrors GoMonad LedgerKeys Units Proto Ledger LedgerSpec.

Definition MAX_ACCT_NAME : Z := 2048.
Definition MAX_ACCT_DOCURL : Z := 2048.

Record Account := MkAccount {
  acct_Address : Address;
  acct_Name : bytes;
  acct_Nonce : Z;
  acct_Balance : Z;
  acct_Code : bytes;
  acct_DocURL : bytes;
}.

#[global] Instance Account_eq_dec : EqDecision Account.
Proof. solve_decision. Defined.

(** The message generated from [account.proto]. *)
Record AcctProto := MkAcctProto {
  pb_Address : bytes;
  pb_Name : bytes;
  pb_Nonce : Z;
  pb_XBalance : bytes;
  pb_XCode : bytes;
  pb_DocUrl : bytes;
}.

#[global] Instance AcctProto_eq_dec : EqDecision AcctProto.
Proof. solve_decision. Defined.

#[global] Program Instance AcctProto_countable : Countable AcctProto :=
  inj_countable'
    (fun m => (pb_Address m, pb_Name m, pb_Nonce m, pb_XBalance m, pb_XCode m, pb_DocUrl m))
    (fun '(a, n, o, b, c, d) => MkAcctProto a n o b c d) _.
Next Obligation. now intros []. Qed.

Definition NewAccount (addr : Address) : Account := MkAccount addr [] 0 0 [] [].

Definition NewAccountWithName (addr : Address) (name : bytes) : Account :=
  let acct := NewAccount addr in
  MkAccount (acct_Address acct) name (acct_Nonce acct) (acct_Balance acct)
    (acct_Code acct) (acct_DocURL acct).

(** [Clone] copies every field but [DocURL]. *)
Definition Clone (acct : Account) : Account :=
  MkAccount (acct_Address acct) (acct_Name acct) (acct_Nonce acct) (acct_Balance acct)
    (acct_Code acct) [].

Definition SetName (acct : Account) (s : bytes) : Account :=
  MkAccount (acct_Address acct) s (acct_Nonce acct) (acct_Balance acct)
    (acct_Code acct) (acct_DocURL acct).

Definition SetDocURL (acct : Account) (s : bytes) : Account :=
  MkAccount (acct_Address acct) (acct_Name acct) (acct_Nonce acct) (acct_Balance acct)
    (acct_Code acct) s.

Definition SetNonce (acct : Account) (n : Z) : Account :=
  MkAccount (acct_Address acct) (acct_Name acct) n (acct_Balance acct)
    (acct_Code acct) (acct_DocURL acct).

Definition AddNonce (acct : Account) : Account := SetNonce acct (i64 (acct_Nonce acct + 1)).

Definition CheckNonce (acct : Account) (n : Z) : outcome unit :=
  if negb (acct_Nonce acct =? n) then Err ErrInvalidNonce else Ok tt.

Definition SetBalance (acct : Account) (amt : Z) : Account :=
  MkAccount (acct_Address acct) (acct_Name acct) (acct_Nonce acct) amt
    (acct_Code acct) (acct_DocURL acct).

Definition AddBalance (acct : Account) (amt : Z) : outcome Account :=
  if uSign amt <? 0 then Err ErrInvalidAmount
  else Ok (SetBalance acct (uadd (acct_Balance acct) amt)).

Definition SubBalance (acct : Account) (amt : Z) : outcome Account :=
  if uSign amt <? 0 then Err ErrInvalidAmount
  else if 0 <? uCmp amt (acct_Balance acct) then Err ErrInsufficientFund
  else Ok (SetBalance acct (usub (acct_Balance acct) amt)).

Definition GetBalance (acct : Account) : Z := acct_Balance acct.

Definition CheckBalance (acct : Account) (amt : Z) : outcome unit :=
  if 0 <? uCmp amt (acct_Balance acct) then Err ErrInsufficientFund else Ok tt.

Definition SetCode (acct : Account) (c : bytes) : Account :=
  MkAccount (acct_Address acct) (acct_Name acct) (acct_Nonce acct) (acct_Balance acct)
    c (acct_DocURL acct).

Definition ToProto (acct : Account) : AcctProto :=
  MkAcctProto (acct_Address acct) (acct_Name acct) (acct_Nonce acct)
    (uBytes (acct_Balance acct)) (acct_Code acct) (acct_DocURL acct).

Definition FromProto (pm : AcctProto) : Account :=
  MkAccount (pb_Address pm) (pb_Name pm) (pb_Nonce pm) (uSetBytes (pb_XBalance pm))
    (pb_XCode pm) (pb_DocUrl pm).

(** [ToAcctKey]: the first 20 bytes; a shorter address panics. *)
Definition ToAcctKey (addr : Address) : outcome bytes :=
  if (length addr <? AddrSize)%nat then Panic else Ok (take AddrSize addr).

(** Accounts as ledger items. *)
Section AccountItem.
Context `{Proto AcctProto}.

Definition acct_Encode (acct : Account) : outcome bytes :=
  match Marshal (ToProto acct) with
  | Err e => Err (From_ e)
  | other => other
  end.

Definition acct_Decode (acct : Account) (k v : bytes) : outcome Account :=
  match Unmarshal v with
  | Ok pm => Ok (FromProto pm)
  | Err e => Err (From_ e)
  | Panic => Panic
  end.

#[export] Instance Account_item : LedgerItem Account := {
  newItemFor _ := Ok (MkAccount [] [] 0 0 [] []);
  Encode := acct_Encode;
  Decode := acct_Decode;
}.

End AccountItem.

(** A message the package encodes faithfully. *)
Definition AcctProto_ok `{Utf8} (m : AcctProto) : Prop :=
  in_i64 (pb_Nonce m) /\ valid_utf8 (pb_Name m) /\ valid_utf8 (pb_DocUrl m).

(** The type invariant of a stored account. *)
Record acct_wf `{Utf8} (a : Account) : Prop := {
  wf_addr : length (acct_Address a) = AddrSize;
  wf_nonce : in_i64 (acct_Nonce a);
  wf_balance : in_u256 (acct_Balance a);
  wf_name : valid_utf8 (acct_Name a);
  wf_docurl : valid_utf8 (acct_DocURL a);
}.

Section AccountLaws.
Context `{Utf8, Proto AcctProto, !ProtoLaws AcctProto AcctProto_ok}.

#[export, program] Instance Account_laws : LedgerItemLaws Account := {
  item_ok k a := k = LedgerKeyAccount (acct_Address a) /\ acct_wf a;
}.
Next Obligation.
  intros k a [-> [Ha Hn Hb Hu Hd]].
  destruct (proto_roundtrip (ToProto a)) as (b & Hm & Hr); [done|].
  exists b. cbn. unfold acct_Encode, decode_at, acct_Decode; cbn. rewrite Hm, Hr.
  split; [done|]. unfold FromProto, ToProto; cbn. rewrite uSetBytes_uBytes by done.
  now destruct a.
Qed.

Lemma acct_wf_new addr : length addr = AddrSize -> acct_wf (NewAccount addr).
Proof.
  intros Ha. split; cbn; auto using valid_utf8_nil; unfold in_i64, in_u256; lia.
Qed.

Lemma acct_wf_SetBalance a v : acct_wf a -> in_u256 v -> acct_wf (SetBalance a v).
Proof. intros [] Hv. now split. Qed.

Lemma acct_wf_AddBalance a amt a' : acct_wf a -> AddBalance a amt = Ok a' -> acct_wf a'.
Proof.
  unfold AddBalance. intros Ha. destruct (uSign amt <? 0); [done|]. intros [= <-].
  apply acct_wf_SetBalance; [done|apply u256_range].
Qed.

Lemma acct_wf_SubBalance a amt a' : acct_wf a -> SubBalance a amt = Ok a' -> acct_wf a'.
Proof.
  unfold SubBalance. intros Ha. destruct (uSign amt <? 0); [done|].
  destruct (0 <? _); [done|]. intros [= <-].
  apply acct_wf_SetBalance; [done|apply u256_range].
Qed.

Lemma acct_wf_AddNonce a : acct_wf a -> acct_wf (AddNonce a).
Proof. intros []. split; cbn; auto using i64_range. Qed.

End AccountLaws.

(** ** Balance arithmetic *)

Lemma uCmp_gt a b : (0 <? uCmp a b) = (b <? a).
Proof.
  unfold uCmp. destruct (Z.ltb_spec a b), (Z.ltb_spec b a); auto; lia.
Qed.

Lemma SubBalance_ok a amt :
  0 <= amt < 2 ^ 255 -> amt <= acct_Balance a -> in_u256 (acct_Balance a) ->
  SubBalance a amt = Ok (SetBalance a (acct_Balance a - amt)).
Proof.
  intros Ha Hle Hb. unfold SubBalance, uSign. rewrite uCmp_gt.
  destruct (Z.ltb_spec (acct_Balance a) amt); [lia|].
  unfold usub. rewrite u256_id by (unfold in_u256 in *; lia).
  destruct (Z.eqb_spec amt 0); [done|]. destruct (Z.ltb_spec amt (2 ^ 255)); [done|lia].
Qed.

Lemma SubBalance_short a amt :
  0 <= amt < 2 ^ 255 -> acct_Balance a < amt -> SubBalance a amt = Err ErrInsufficientFund.
Proof.
  intros Ha Hlt. unfold SubBalance, uSign. rewrite uCmp_gt.
  destruct (Z.ltb_spec (acct_Balance a) amt); [|lia].
  destruct (Z.eqb_spec amt 0); [done|]. destruct (Z.ltb_spec amt (2 ^ 255)); [done|lia].
Qed.

(** [SubBalance] succeeds only within the balance, and takes exactly the amount. *)
Lemma SubBalance_inv a amt a' :
  in_u256 amt -> in_u256 (acct_Balance a) -> SubBalance a amt = Ok a' ->
  amt <= acct_Balance a /\ amt < 2 ^ 255 /\ a' = SetBalance a (acct_Balance a - amt).
Proof.
  intros Hamt Hb. unfold SubBalance. rewrite uCmp_gt.
  destruct (Z.ltb_spec (uSign amt) 0) as [|Hs]; [done|].
  destruct (Z.ltb_spec (acct_Balance a) amt); [done|]. intros [= <-].
  assert (amt < 2 ^ 255).
  { destruct (Z_lt_le_dec amt (2 ^ 255)) as [|Hge]; [done|]. apply uSign_neg in Hge; [lia|done]. }
  unfold usub, in_u256 in *. rewrite u256_id by (unfold in_u256; lia). auto.
Qed.

Lemma AddBalance_inv a amt a' :
  in_u256 amt -> AddBalance a amt = Ok a' ->
  amt < 2 ^ 255 /\ a' = SetBalance a (uadd (acct_Balance a) amt).
Proof.
  intros Hamt. unfold AddBalance. destruct (Z.ltb_spec (uSign amt) 0) as [|Hs]; [done|].
  intros [= <-]. split; [|done].
  destruct (Z_lt_le_dec amt (2 ^ 255)) as [|Hge]; [done|]. apply uSign_neg in Hge; [lia|done].
Qed.

Lemma AddBalance_ok a amt :
  0 <= amt < 2 ^ 255 -> AddBalance a amt = Ok (SetBalance a (uadd (acct_Balance a) amt)).
Proof.
  intros Ha. unfold AddBalance, uSign. destruct (Z.eqb_spec amt 0); [done|].
  destruct (Z.ltb_spec amt (2 ^ 255)); [done|lia].
Qed.
