(* ===== verification/TrxTypes.v ===== *)
(** * TrxTypes: transactions and their payloads

    [ctrlers/types/trx.go] and [trx_*.go]: the transaction, its payloads, their
    protobuf form and [Validate].  A [nil] byte slice and an empty one are both
    [[]]: [Validate] runs on decoded transactions, where the package returns
    [nil] for an empty field.  The RLP form is used by the signers only
    ([Signer]). *)
From stdpp Require Import base gmap list strings countable.
From Stdlib Require Import ZArith Lia.
From S2P Require Import Prelude XErrors GoMonad LedgerKeys Units Proto.

Definition TRX_TRANSFER : Z := 1.
Definition TRX_STAKING : Z := 2.
Definition TRX_UNSTAKING : Z := 3.
Definition TRX_PROPOSAL : Z := 4.
Definition TRX_VOTING : Z := 5.
Definition TRX_CONTRACT : Z := 6.
Definition TRX_SETDOC : Z := 7.
Definition TRX_WITHDRAW : Z := 8.
Definition TRX_MIN_TYPE : Z := TRX_TRANSFER.
Definition TRX_MAX_TYPE : Z := TRX_WITHDRAW.

(** ** Payloads *)

Record TrxPayloadProposal := MkTrxPayloadProposal {
  pp_Message : bytes;
  pp_StartVotingHeight : Z;
  pp_VotingPeriodBlocks : Z;
  pp_ApplyingHeight : Z;
  pp_OptType : Z;
  pp_Options : list bytes;
}.

#[global] Instance TrxPayloadProposal_eq_dec : EqDecision TrxPayloadProposal.
Proof. solve_decision. Defined.

Inductive ITrxPayload : Type :=
| TrxPayloadAssetTransfer
| TrxPayloadStaking
| TrxPayloadUnstaking (TxHash : bytes)
| TrxPayloadProposal_ (p : TrxPayloadProposal)
| TrxPayloadVoting (TxHash : bytes) (Choice : Z)
| TrxPayloadContract (Data : bytes)
| TrxPayloadSetDoc (Name URL : bytes)
| TrxPayloadWithdraw (ReqAmt : Z).

#[global] Instance ITrxPayload_eq_dec : EqDecision ITrxPayload.
Proof. solve_decision. Defined.

Definition payload_Type (p : ITrxPayload) : Z :=
  match p with
  | TrxPayloadAssetTransfer => TRX_TRANSFER
  | TrxPayloadStaking => TRX_STAKING
  | TrxPayloadUnstaking _ => TRX_UNSTAKING
  | TrxPayloadProposal_ _ => TRX_PROPOSAL
  | TrxPayloadVoting _ _ => TRX_VOTING
  | TrxPayloadContract _ => TRX_CONTRACT
  | TrxPayloadSetDoc _ _ => TRX_SETDOC
  | TrxPayloadWithdraw _ => TRX_WITHDRAW
  end.

(** [GetOption]: a negative index panics, one past the end is [nil]. *)
Definition GetOptionCount (p : TrxPayloadProposal) : Z := Z.of_nat (length (pp_Options p)).
Definition GetOption (p : TrxPayloadProposal) (i : Z) : outcome bytes :=
  if GetOptionCount p <=? i then Ok []
  else if i <? 0 then Panic
  else Ok (default [] (pp_Options p !! Z.to_nat i)).

(** ** The transaction *)

Record Trx := MkTrx {
  tx_Version : Z;
  tx_Time : Z;
  tx_Nonce : Z;
  tx_From : Address;
  tx_To : Address;
  tx_Amount : Z;
  tx_Gas : Z;
  tx_GasPrice : Z;
  tx_Type : Z;
  tx_Payload : option ITrxPayload;
  tx_Sig : bytes;
  tx_Payer : Address;
  tx_PayerSig : bytes;
}.

#[global] Instance Trx_eq_dec : EqDecision Trx.
Proof. solve_decision. Defined.

Definition GetType (tx : Trx) : Z := tx_Type tx.

Definition Validate (tx : Trx) : outcome unit :=
  if negb (length (tx_From tx) =? AddrSize)%nat then Err ErrInvalidAddress
  else if negb (length (tx_To tx) =? AddrSize)%nat &&
          (negb (tx_Type tx =? TRX_CONTRACT) || negb (bytes_Equal (tx_To tx) []))
  then Err ErrInvalidAddress
  else if uSign (tx_Amount tx) <? 0 then Err ErrInvalidAmount
  else if uSign (tx_GasPrice tx) <? 0 then Err ErrInvalidGasPrice
  else if (tx_Type tx <? TRX_MIN_TYPE) && (TRX_MAX_TYPE <? tx_Type tx)
  then Err ErrInvalidTrxType
  else if (match tx_Payload tx with
           | Some p => negb (tx_Type tx =? payload_Type p)
           | None => false
           end)
  then Err ErrInvalidTrxPayloadType
  else if bytes_Equal (tx_Sig tx) [] then Err ErrInvalidTrxSig
  else if negb (bytes_Equal (tx_Payer tx) []) && negb (length (tx_Payer tx) =? AddrSize)%nat
  then Err (Wrapf ErrInvalidAddress "payer(%v)'s addr is invalid")
  else if negb (bytes_Equal (tx_Payer tx) []) && bytes_Equal (tx_PayerSig tx) []
  then Err (Wrapf ErrInvalidTrxSig "payer(%v)'s sig is nil")
  else Ok tt.

(** ** Messages *)

Record TrxProto := MkTrxProto {
  tp_Version : Z;
  tp_Time : Z;
  tp_Nonce : Z;
  tp_From : bytes;
  tp_To : bytes;
  tp_XAmount : bytes;
  tp_Gas : Z;
  tp_XGasPrice : bytes;
  tp_Type : Z;
  tp_XPayload : bytes;
  tp_Sig : bytes;
  tp_Payer : bytes;
  tp_PayerSig : bytes;
}.

Record UnstakingProto := MkUnstakingProto { up_TxHash : bytes }.
Record WithdrawProto := MkWithdrawProto { wp_XReqAmt : bytes }.
Record ProposalPayloadProto := MkProposalPayloadProto {
  ppp_Message : bytes;
  ppp_StartVotingHeight : Z;
  ppp_VotingBlocks : Z;
  ppp_ApplyingHeight : Z;
  ppp_OptType : Z;
  ppp_Options : list bytes;
}.
Record VotingProto := MkVotingProto { vp_TxHash : bytes; vp_Choice : Z }.
Record ContractProto := MkContractProto { cp_XData : bytes }.
Record SetDocProto := MkSetDocProto { sp_Name : bytes; sp_Url : bytes }.

(** The encoders of the messages. *)
Class TrxProtos : Type := {
  tps_trx :: Proto TrxProto;
  tps_unstaking :: Proto UnstakingProto;
  tps_withdraw :: Proto WithdrawProto;
  tps_proposal :: Proto ProposalPayloadProto;
  tps_voting :: Proto VotingProto;
  tps_contract :: Proto ContractProto;
  tps_setdoc :: Proto SetDocProto;
}.

Definition in_i32 (z : Z) : Prop := - 2 ^ 31 <= z < 2 ^ 31.

Class TrxProtosLaws `{Utf8, TrxProtos} : Prop := {
  tpl_trx :: ProtoLaws TrxProto (fun m =>
    in_i32 (tp_Version m) /\ in_i64 (tp_Time m) /\ in_i64 (tp_Nonce m) /\
    in_i64 (tp_Gas m) /\ in_i32 (tp_Type m));
  tpl_unstaking :: ProtoLaws UnstakingProto (fun _ => True);
  tpl_withdraw :: ProtoLaws WithdrawProto (fun _ => True);
  tpl_proposal :: ProtoLaws ProposalPayloadProto (fun m =>
    valid_utf8 (ppp_Message m) /\ in_i64 (ppp_StartVotingHeight m) /\
    in_i64 (ppp_VotingBlocks m) /\ in_i64 (ppp_ApplyingHeight m) /\ in_i32 (ppp_OptType m));
  tpl_voting :: ProtoLaws VotingProto (fun m => in_i32 (vp_Choice m));
  tpl_contract :: ProtoLaws ContractProto (fun _ => True);
  tpl_setdoc :: ProtoLaws SetDocProto (fun m =>
    valid_utf8 (sp_Name m) /\ valid_utf8 (sp_Url m));
}.

Section TrxCodec.
Context `{TrxProtos}.

(** [xerrors.From] on the error of the package. *)
Definition from_proto_err {A} (o : outcome A) : outcome A :=
  match o with
  | Err e => Err (From_ e)
  | other => other
  end.

Definition payload_Encode (p : ITrxPayload) : outcome bytes :=
  match p with
  | TrxPayloadAssetTransfer => Ok []
  | TrxPayloadStaking => Ok []
  | TrxPayloadUnstaking h => from_proto_err (Marshal (MkUnstakingProto h))
  | TrxPayloadProposal_ p =>
      from_proto_err (Marshal (MkProposalPayloadProto (pp_Message p) (pp_StartVotingHeight p)
        (pp_VotingPeriodBlocks p) (pp_ApplyingHeight p) (pp_OptType p) (pp_Options p)))
  | TrxPayloadVoting h c => from_proto_err (Marshal (MkVotingProto h c))
  | TrxPayloadContract d => from_proto_err (Marshal (MkContractProto d))
  | TrxPayloadSetDoc n u => from_proto_err (Marshal (MkSetDocProto n u))
  | TrxPayloadWithdraw amt => from_proto_err (Marshal (MkWithdrawProto (uBytes amt)))
  end.

Definition Unstaking_Decode (bz : bytes) : outcome ITrxPayload :=
  obind (from_proto_err (Unmarshal bz)) (fun pm => Ok (TrxPayloadUnstaking (up_TxHash pm))).
Definition Withdraw_Decode (bz : bytes) : outcome ITrxPayload :=
  obind (from_proto_err (Unmarshal bz)) (fun pm =>
  Ok (TrxPayloadWithdraw (uSetBytes (wp_XReqAmt pm)))).
Definition Proposal_Decode (bz : bytes) : outcome ITrxPayload :=
  obind (from_proto_err (Unmarshal bz)) (fun pm =>
  Ok (TrxPayloadProposal_ (MkTrxPayloadProposal (ppp_Message pm) (ppp_StartVotingHeight pm)
        (ppp_VotingBlocks pm) (ppp_ApplyingHeight pm) (ppp_OptType pm) (ppp_Options pm)))).
Definition Voting_Decode (bz : bytes) : outcome ITrxPayload :=
  obind (from_proto_err (Unmarshal bz)) (fun pm =>
  Ok (TrxPayloadVoting (vp_TxHash pm) (vp_Choice pm))).
Definition Contract_Decode (bz : bytes) : outcome ITrxPayload :=
  obind (from_proto_err (Unmarshal bz)) (fun pm => Ok (TrxPayloadContract (cp_XData pm))).
Definition SetDoc_Decode (bz : bytes) : outcome ITrxPayload :=
  obind (from_proto_err (Unmarshal bz)) (fun pm =>
  Ok (TrxPayloadSetDoc (sp_Name pm) (sp_Url pm))).

(** The switch of [fromProto] that decodes the payload. *)
Definition payload_Decode (ty : Z) (bz : bytes) : outcome (option ITrxPayload) :=
  if (ty =? TRX_TRANSFER) || (ty =? TRX_STAKING) then
    if negb (bytes_Equal bz [])
    then Err (Wrapf ErrInvalidTrxPayloadType "the payload of tx type(%v) should be nil")
    else Ok None
  else if ty =? TRX_UNSTAKING then obind (Unstaking_Decode bz) (fun p => Ok (Some p))
  else if ty =? TRX_WITHDRAW then obind (Withdraw_Decode bz) (fun p => Ok (Some p))
  else if ty =? TRX_PROPOSAL then obind (Proposal_Decode bz) (fun p => Ok (Some p))
  else if ty =? TRX_VOTING then obind (Voting_Decode bz) (fun p => Ok (Some p))
  else if ty =? TRX_CONTRACT then obind (Contract_Decode bz) (fun p => Ok (Some p))
  else if ty =? TRX_SETDOC then obind (SetDoc_Decode bz) (fun p => Ok (Some p))
  else Err ErrInvalidTrxPayloadType.

Definition fromProto (m : TrxProto) : outcome Trx :=
  obind (payload_Decode (tp_Type m) (tp_XPayload m)) (fun payload =>
  Ok (MkTrx (tp_Version m) (tp_Time m) (tp_Nonce m) (tp_From m) (tp_To m)
        (uSetBytes (tp_XAmount m)) (tp_Gas m) (uSetBytes (tp_XGasPrice m)) (tp_Type m)
        payload (tp_Sig m) (tp_Payer m) (tp_PayerSig m))).

Definition toProto (tx : Trx) : outcome TrxProto :=
  obind (match tx_Payload tx with
         | Some p => payload_Encode p
         | None => Ok []
         end) (fun payload =>
  Ok (MkTrxProto (tx_Version tx) (tx_Time tx) (tx_Nonce tx) (tx_From tx) (tx_To tx)
        (uBytes (tx_Amount tx)) (tx_Gas tx) (uBytes (tx_GasPrice tx)) (tx_Type tx)
        payload (tx_Sig tx) (tx_Payer tx) (tx_PayerSig tx))).

Definition tx_Decode (bz : bytes) : outcome Trx :=
  obind (from_proto_err (Unmarshal bz)) fromProto.

Definition tx_Encode (tx : Trx) : outcome bytes :=
  obind (from_proto_err (toProto tx)) (fun pm => from_proto_err (Marshal pm)).

End TrxCodec.

(** ** Round trip *)

(** The integers and strings of a payload are encodable. *)
Definition payload_ok `{Utf8} (p : ITrxPayload) : Prop :=
  match p with
  | TrxPayloadProposal_ p =>
      valid_utf8 (pp_Message p) /\ in_i64 (pp_StartVotingHeight p) /\
      in_i64 (pp_VotingPeriodBlocks p) /\ in_i64 (pp_ApplyingHeight p) /\ in_i32 (pp_OptType p)
  | TrxPayloadVoting _ c => in_i32 c
  | TrxPayloadSetDoc n u => valid_utf8 n /\ valid_utf8 u
  | TrxPayloadWithdraw amt => in_u256 amt
  | _ => True
  end.

(** A transaction as the wallets build them: transfers and staking carry no
    payload, every other type carries a payload of its type. *)
Record tx_wf `{Utf8} (tx : Trx) : Prop := {
  txwf_version : in_i32 (tx_Version tx);
  txwf_time : in_i64 (tx_Time tx);
  txwf_nonce : in_i64 (tx_Nonce tx);
  txwf_gas : in_i64 (tx_Gas tx);
  txwf_amount : in_u256 (tx_Amount tx);
  txwf_price : in_u256 (tx_GasPrice tx);
  txwf_payload :
    match tx_Payload tx with
    | None => tx_Type tx = TRX_TRANSFER \/ tx_Type tx = TRX_STAKING
    | Some p => tx_Type tx = payload_Type p /\ payload_ok p /\
        p <> TrxPayloadAssetTransfer /\ p <> TrxPayloadStaking
    end;
}.

Section RoundTrip.
Context `{Utf8, TrxProtos, !TrxProtosLaws}.

Lemma payload_roundtrip p :
  payload_ok p -> p <> TrxPayloadAssetTransfer -> p <> TrxPayloadStaking ->
  exists b, payload_Encode p = Ok b /\ payload_Decode (payload_Type p) b = Ok (Some p).
Proof.
  intros Hok Hn1 Hn2.
  destruct p as [| |h|p|h c|d|n u|amt]; try done; cbn in Hok |- *;
    unfold Unstaking_Decode, Withdraw_Decode, Proposal_Decode, Voting_Decode,
      Contract_Decode, SetDoc_Decode;
    match goal with
    | |- context [Marshal ?m] =>
        destruct (proto_roundtrip m) as (b & Hm & Hu); [cbn; tauto|]
    end; rewrite Hm; exists b; cbn; rewrite Hu; cbn; (split; [done|]).
  - done.
  - now destruct p.
  - done.
  - done.
  - done.
  - now rewrite uSetBytes_uBytes.
Qed.

Lemma in_i32_Type tx : tx_wf tx -> in_i32 (tx_Type tx).
Proof.
  intros []. destruct (tx_Payload tx) as [p|].
  - destruct txwf_payload0 as [-> _]. destruct p; by vm_compute.
  - destruct txwf_payload0 as [-> | ->]; by vm_compute.
Qed.

Lemma toProto_fromProto tx :
  tx_wf tx -> exists m, toProto tx = Ok m /\ fromProto m = Ok tx /\
    in_i32 (tp_Version m) /\ in_i64 (tp_Time m) /\ in_i64 (tp_Nonce m) /\
    in_i64 (tp_Gas m) /\ in_i32 (tp_Type m).
Proof.
  intros Hwf. pose proof (in_i32_Type tx Hwf) as Hty. destruct Hwf.
  unfold toProto, fromProto. destruct tx as [ve ti no fr to am ga gp ty pl sg pa ps]; cbn in *.
  destruct pl as [p|]; cbn.
  - destruct txwf_payload0 as (-> & Hok & Hn1 & Hn2).
    destruct (payload_roundtrip p Hok Hn1 Hn2) as (b & He & Hd). rewrite He; cbn.
    eexists; split; [done|]. cbn. rewrite Hd; cbn. now rewrite !uSetBytes_uBytes.
  - eexists; split; [done|]. cbn. destruct txwf_payload0 as [-> | ->]; cbn;
      now rewrite !uSetBytes_uBytes.
Qed.

End RoundTrip.
