(* ===== verification/Signer.v ===== *)
(** * Signer: signing and verifying transactions

    [ctrlers/types/signer.go], [signer_v0.go] and [signer_v1.go].  The RLP
    encoder, the elliptic-curve signatures and the number formatter are
    third-party code: [CryptoLib] and [RlpLib] hold the functions the signers
    call.  The lemmas say what a verified signature and an equal preimage mean;
    what a payer signs includes the sender's signature.  Hashes, keys and addresses
    ([types/crypto/crypto.go]) come first. *)
From stdpp Require Import base list strings gmap countable.
From Stdlib Require Import ZArith Lia.
From S2P Require Import Prelude XErrors GoMonad LedgerKeys.
From S2P Require Import Units Proto TrxTypes.

(** ** Hashes, keys and addresses

    [types/crypto/crypto.go] on top of the packages it calls: SHA-256, the
    secp256k1 signatures of go-ethereum and the addresses of Tendermint's
    secp256k1 keys, which are parameters ([CryptoLib]).  A public key is its
    33-byte compressed form. *)

Class CryptoLib : Type := {
  sha256 : bytes -> bytes;
  SigToPub : bytes -> bytes -> outcome bytes;      (* hash, signature *)
  ethcrypto_Sign : bytes -> bytes -> outcome bytes; (* hash, private key *)
  tm_Address : bytes -> Address;
}.

(** A Tendermint address is 20 bytes, a SHA-256 hash 32. *)
Class CryptoLaws `{CryptoLib} : Prop := {
  tm_Address_length : forall pub, length (tm_Address pub) = AddrSize;
  sha256_length : forall b, length (sha256 b) = 32%nat;
}.

Section Crypto.
Context `{CryptoLib}.

(** [DefaultHash] of several pieces hashes their concatenation. *)
Definition DefaultHash (datas : list bytes) : bytes := sha256 (concat datas).

Definition PubKeyBytes2Addr (pubBytes : bytes) : Address := tm_Address pubBytes.

Definition Sig2Addr (msg sig : bytes) : outcome (Address * bytes) :=
  match SigToPub (DefaultHash [msg]) sig with
  | Err e => Err (From_ e)
  | Panic => Panic
  | Ok pubKey => Ok (PubKeyBytes2Addr pubKey, pubKey)
  end.

(** The address [Sig2Addr] returns is the address of the key it returns. *)
Lemma Sig2Addr_addr msg sig addr pub :
  Sig2Addr msg sig = Ok (addr, pub) -> addr = PubKeyBytes2Addr pub.
Proof. unfold Sig2Addr. destruct (SigToPub _ _); congruence. Qed.

End Crypto.

(** A concrete library for the witnesses: the hash and the address keep the
    first bytes, a signature is the public key itself. *)
Definition pad (n : nat) (b : bytes) : bytes := take n (b ++ repeat 0 n).

Lemma length_pad n b : length (pad n b) = n.
Proof. unfold pad. rewrite length_take, length_app, repeat_length. lia. Qed.

Definition Toy_crypto : CryptoLib := {|
  sha256 b := pad 32 b;
  SigToPub _ sig := Ok (take 33 sig);
  ethcrypto_Sign _ prv := Ok (pad 64 prv ++ [0]);
  tm_Address pub := pad 20 pub;
|}.

Lemma Toy_crypto_laws : @CryptoLaws Toy_crypto.
Proof. split; intros; apply length_pad. Qed.

(** The fields of a transaction that are RLP encoded. *)
Record trxRLP := MkTrxRLP {
  r_Version : Z;
  r_Time : Z;
  r_Nonce : Z;
  r_From : Address;
  r_To : Address;
  r_Amount : bytes;
  r_Gas : Z;
  r_GasPrice : bytes;
  r_Type : Z;
  r_Payload : bytes;
  r_Sig : bytes;
}.

Class RlpLib : Type := {
  rlp_Encode : trxRLP -> outcome bytes;
  rlp_EncodePayload : ITrxPayload -> outcome bytes;
  rlp_Decode : bytes -> outcome trxRLP;
  rlp_DecodePayload : Z -> bytes -> outcome ITrxPayload;  (* type of the payload *)
  Sprintf_prefix : bytes -> Z -> bytes;        (* chain id, length of the body *)
}.

(** [ethcrypto.SignatureLength] *)
Definition SignatureLength : nat := 65.

(** [sig[64]]: the index panics on a shorter signature. *)
Definition sig_v (sig : bytes) : outcome Z :=
  match sig !! 64%nat with
  | Some v => Ok v
  | None => Panic
  end.

Definition set_v (sig : bytes) (v : Z) : bytes := <[64%nat := v]> sig.

(** The fields [getPreimage] clears before encoding. *)
Definition preimage_tx (tx : Trx) (isPayer : bool) : Trx :=
  MkTrx (tx_Version tx) (tx_Time tx) (tx_Nonce tx) (tx_From tx) (tx_To tx) (tx_Amount tx)
    (tx_Gas tx) (tx_GasPrice tx) (tx_Type tx) (tx_Payload tx)
    (if isPayer then tx_Sig tx else []) [] [].

Definition with_sig (tx : Trx) (sig : bytes) : Trx :=
  MkTrx (tx_Version tx) (tx_Time tx) (tx_Nonce tx) (tx_From tx) (tx_To tx) (tx_Amount tx)
    (tx_Gas tx) (tx_GasPrice tx) (tx_Type tx) (tx_Payload tx) sig (tx_Payer tx) (tx_PayerSig tx).

Definition with_payerSig (tx : Trx) (sig : bytes) : Trx :=
  MkTrx (tx_Version tx) (tx_Time tx) (tx_Nonce tx) (tx_From tx) (tx_To tx) (tx_Amount tx)
    (tx_Gas tx) (tx_GasPrice tx) (tx_Type tx) (tx_Payload tx) (tx_Sig tx) (tx_Payer tx) sig.

Section Signer.
Context `{CryptoLib, RlpLib}.

(** [Trx.EncodeRLP] *)
Definition EncodeRLP (tx : Trx) : outcome trxRLP :=
  obind (match tx_Payload tx with
         | Some p => rlp_EncodePayload p
         | None => Ok []
         end) (fun payload =>
  Ok (MkTrxRLP (u64 (tx_Version tx)) (u64 (tx_Time tx)) (u64 (tx_Nonce tx)) (tx_From tx)
        (tx_To tx) (uBytes (tx_Amount tx)) (u64 (tx_Gas tx)) (uBytes (tx_GasPrice tx))
        (u64 (tx_Type tx)) payload (tx_Sig tx))).

(** [rlp.EncodeToBytes(tx)] *)
Definition rlp_EncodeToBytes (tx : Trx) : outcome bytes := obind (EncodeRLP tx) rlp_Encode.

(** [Trx.DecodeRLP], from the bytes of the stream; the payer is not encoded. *)
Definition DecodeRLP (bz : bytes) : outcome Trx :=
  obind (rlp_Decode bz) (fun rtx =>
  obind (if bytes_Equal (r_Payload rtx) [] then Ok None
         else
           let ty := i32 (r_Type rtx) in
           if (TRX_MIN_TYPE <=? ty) && (ty <=? TRX_MAX_TYPE)
           then obind (rlp_DecodePayload ty (r_Payload rtx)) (fun p => Ok (Some p))
           else Err ErrInvalidTrxPayloadType) (fun payload =>
  Ok (MkTrx (i32 (r_Version rtx)) (i64 (r_Time rtx)) (i64 (r_Nonce rtx)) (r_From rtx)
        (r_To rtx) (uSetBytes (r_Amount rtx)) (i64 (r_Gas rtx)) (uSetBytes (r_GasPrice rtx))
        (i32 (r_Type rtx)) payload (r_Sig rtx) [] []))).

Record Signers := MkSigners {
  chainIdHex : bytes;   (* of [SignerV0] *)
  chainIdNum : Z;       (* of [SignerV1] *)
}.

(** ** SignerV0 *)

Definition getPreimageV0 (s : Signers) (tx : Trx) (isPayer : bool) : outcome bytes :=
  obind (from_proto_err (rlp_EncodeToBytes (preimage_tx tx isPayer))) (fun bz =>
  Ok (Sprintf_prefix (chainIdHex s) (Z.of_nat (length bz)) ++ bz)).

Definition signV0 (s : Signers) (tx : Trx) (prv : bytes) (isPayer : bool) : outcome (bytes * Trx) :=
  obind (getPreimageV0 s tx isPayer) (fun preimg =>
  obind (from_proto_err (ethcrypto_Sign (DefaultHash [preimg]) prv)) (fun sig =>
  Ok (sig, if isPayer then with_payerSig tx sig else with_sig tx sig))).

Definition wrong_address (e : string) : error := Wrap ErrInvalidTrxSig (GoError e).

Definition verifyV0 (s : Signers) (tx : Trx) (isPayer : bool) : outcome (Address * bytes) :=
  obind (getPreimageV0 s tx isPayer) (fun preimg =>
  let addr0 := if isPayer then tx_Payer tx else tx_From tx in
  let sig := if isPayer then tx_PayerSig tx else tx_Sig tx in
  match Sig2Addr preimg sig with
  | Err e => Err (Wrap ErrInvalidTrxSig e)
  | Panic => Panic
  | Ok (addr, pubKey) =>
      if negb (bytes_Compare addr0 addr =? 0)
      then Err (wrong_address "wrong recover address - expected: %v, actual: %v")
      else Ok (addr, pubKey)
  end).

(** ** SignerV1 *)

Definition getPreimageV1 (s : Signers) (tx : Trx) (isPayer : bool) : outcome bytes :=
  obind (from_proto_err (rlp_EncodeToBytes (preimage_tx tx isPayer))) (fun bz =>
  Ok (bz ++ uBytes (chainIdNum s))).

Definition signV1 (s : Signers) (tx : Trx) (prv : bytes) (isPayer : bool) : outcome (bytes * Trx) :=
  obind (getPreimageV1 s tx isPayer) (fun preimg =>
  obind (from_proto_err (ethcrypto_Sign (DefaultHash [preimg]) prv)) (fun sig0 =>
  if negb (length sig0 =? SignatureLength)%nat
  then Err (NewOrdinary "invalid signature length - expected: %d, actual: %d")
  else
    obind (sig_v sig0) (fun v =>
    let sig := if (v =? 0) || (v =? 1) then set_v sig0 (v + 27) else sig0 in
    Ok (sig, if isPayer then with_payerSig tx sig else with_sig tx sig)))).

Definition verifyV1 (s : Signers) (tx : Trx) (isPayer : bool) : outcome (Address * bytes) :=
  obind (getPreimageV1 s tx isPayer) (fun preimg =>
  let addr0 := if isPayer then tx_Payer tx else tx_From tx in
  let sig := if isPayer then tx_PayerSig tx else tx_Sig tx in
  if negb (length sig =? SignatureLength)%nat
  then Err (NewOrdinary "invalid signature length - expected: %d, actual: %d")
  else
    obind (sig_v sig) (fun v =>
    if negb ((v =? 27) || (v =? 28))
    then Err (wrong_address "invalid signature v - expected: 27 or 28, actual: %d")
    else
      match Sig2Addr preimg (set_v sig (v - 27)) with
      | Err e => Err (Wrap ErrInvalidTrxSig e)
      | Panic => Panic
      | Ok (addr, pubKey) =>
          if negb (bytes_Compare addr0 addr =? 0)
          then Err (wrong_address "wrong recover address - expected: %v, actual: %v")
          else Ok (addr, pubKey)
      end)).

(** ** Choosing the signer by the last byte of the signature *)

Definition getSigner (s : Signers) (v : Z) : outcome (Trx -> bool -> outcome (Address * bytes)) :=
  if (v =? 0) || (v =? 1) then Ok (verifyV0 s)
  else if (v =? 27) || (v =? 28) then Ok (verifyV1 s)
  else Err (wrong_address "invalid v value - %v").

Definition VerifyTrxRLP (s : Signers) (tx : Trx) : outcome (Address * bytes) :=
  obind (sig_v (tx_Sig tx)) (fun v => obind (getSigner s v) (fun verify => verify tx false)).

Definition VerifyPayerTrxRLP (s : Signers) (tx : Trx) : outcome (Address * bytes) :=
  obind (sig_v (tx_PayerSig tx)) (fun v => obind (getSigner s v) (fun verify => verify tx true)).

(** ** What verification guarantees *)

(** The signature of the transaction that is checked and the address it is checked
    for. *)
Definition signature_of (tx : Trx) (isPayer : bool) : bytes := if isPayer then tx_PayerSig tx else tx_Sig tx.
Definition signer_of (tx : Trx) (isPayer : bool) : Address := if isPayer then tx_Payer tx else tx_From tx.

(** The preimage and the recoverable signature that stand for the signature of a
    transaction: its last byte names the signer, and [SignerV1] has 27 added to it. *)
Definition signs (s : Signers) (tx : Trx) (isPayer : bool) (preimg sig : bytes) : Prop :=
  exists v, signature_of tx isPayer !! 64%nat = Some v /\
    ((v = 0 \/ v = 1) /\ getPreimageV0 s tx isPayer = Ok preimg /\ sig = signature_of tx isPayer \/
     (v = 27 \/ v = 28) /\ getPreimageV1 s tx isPayer = Ok preimg /\ length (signature_of tx isPayer) = SignatureLength /\
       sig = set_v (signature_of tx isPayer) (v - 27)).

(** The transaction's own signature recovers, from the hash of the transaction's
    preimage, the key of the address. *)
Definition signed_by (s : Signers) (tx : Trx) (isPayer : bool) (addr : Address) (pub : bytes) : Prop :=
  exists preimg sig, signs s tx isPayer preimg sig /\ SigToPub (DefaultHash [preimg]) sig = Ok pub /\ addr = PubKeyBytes2Addr pub.

Lemma bytes_Compare_refl a : bytes_Compare a a = 0.
Proof. by apply bytes_Compare_eq. Qed.

Lemma check_recovered_iff preimg sig addr0 e1 e2 out :
  match Sig2Addr preimg sig with
  | Err e => Err (e1 e)
  | Panic => Panic
  | Ok (addr, pubKey) =>
      if negb (bytes_Compare addr0 addr =? 0) then Err e2 else Ok (addr, pubKey)
  end = Ok out <->
  SigToPub (DefaultHash [preimg]) sig = Ok (snd out) /\ fst out = PubKeyBytes2Addr (snd out) /\ fst out = addr0.
Proof.
  destruct out as [a p]. unfold Sig2Addr. cbn [fst snd].
  destruct (SigToPub (DefaultHash [preimg]) sig) as [pub|e|]; [|split; [done|by intros [? _]]..].
  destruct (Z.eqb_spec (bytes_Compare addr0 (PubKeyBytes2Addr pub)) 0) as [E|E]; cbn [negb].
  - apply bytes_Compare_eq in E. subst addr0. split; [by intros [= <- <-]|]. by intros ([= ->] & -> & _).
  - split; [done|]. intros ([= ->] & -> & Ha). destruct E. rewrite <- Ha. apply bytes_Compare_refl.
Qed.

Lemma verifyV0_iff s tx isPayer out :
  verifyV0 s tx isPayer = Ok out <->
  exists preimg, getPreimageV0 s tx isPayer = Ok preimg /\
    SigToPub (DefaultHash [preimg]) (signature_of tx isPayer) = Ok (snd out) /\
    fst out = PubKeyBytes2Addr (snd out) /\ fst out = signer_of tx isPayer.
Proof.
  unfold verifyV0. destruct (getPreimageV0 s tx isPayer) as [pre|e|]; cbn [obind]; [|split; [done|by intros (? & ? & _)]..].
  rewrite check_recovered_iff. split; [by exists pre|]. by intros (? & [= <-] & ?).
Qed.

Lemma verifyV1_iff s tx isPayer v out :
  signature_of tx isPayer !! 64%nat = Some v -> (v = 27 \/ v = 28) ->
  verifyV1 s tx isPayer = Ok out <->
  exists preimg, getPreimageV1 s tx isPayer = Ok preimg /\ length (signature_of tx isPayer) = SignatureLength /\
    SigToPub (DefaultHash [preimg]) (set_v (signature_of tx isPayer) (v - 27)) = Ok (snd out) /\
    fst out = PubKeyBytes2Addr (snd out) /\ fst out = signer_of tx isPayer.
Proof.
  intros Hs Hv. unfold verifyV1. destruct (getPreimageV1 s tx isPayer) as [pre|e|]; cbn [obind]; [|split; [done|by intros (? & ? & _)]..].
  change (if isPayer then tx_PayerSig tx else tx_Sig tx) with (signature_of tx isPayer). unfold sig_v. rewrite Hs. cbn [obind].
  destruct (Nat.eqb_spec (length (signature_of tx isPayer)) SignatureLength) as [Hl|Hl]; cbn [negb]; [|split; [done|by intros (? & _ & ? & _)]].
  assert ((v =? 27) || (v =? 28) = true) as -> by (destruct Hv as [-> | ->]; done). cbn [negb].
  rewrite check_recovered_iff. split; [by exists pre|]. by intros (? & [= <-] & _ & ?).
Qed.

(** The verification succeeds exactly on the transactions signed by their signer. *)
Lemma Verify_iff s tx isPayer out :
  obind (sig_v (signature_of tx isPayer)) (fun v => obind (getSigner s v) (fun verify => verify tx isPayer)) = Ok out <->
  fst out = signer_of tx isPayer /\ signed_by s tx isPayer (fst out) (snd out).
Proof.
  unfold signed_by, signs, sig_v. destruct (signature_of tx isPayer !! 64%nat) as [v|] eqn:Hs; cbn [obind].
  2:{ split; [done|]. by intros (_ & ? & ? & (? & ? & _) & _). }
  unfold getSigner. destruct ((v =? 0) || (v =? 1)) eqn:E0; [|destruct ((v =? 27) || (v =? 28)) eqn:E1]; cbn [obind].
  - rewrite verifyV0_iff. split.
    + intros (pre & Hp & Hr & Ha & Hf). split; [done|]. exists pre, (signature_of tx isPayer). split; [|done]. exists v. split; [done|]. left. split; [lia|done].
    + intros (Hf & pre & sig & (w & [= <-] & [(_ & Hp & ->)|(Hw & _)]) & Hr & Ha); [by exists pre|lia].
  - rewrite verifyV1_iff by (done || lia). split.
    + intros (pre & Hp & Hl & Hr & Ha & Hf). split; [done|]. eexists pre, _. split; [|done]. exists v. split; [done|]. right.
      split; [lia|done].
    + intros (Hf & pre & sig & (w & [= <-] & [(Hw & _)|(_ & Hp & Hl & ->)]) & Hr & Ha); [lia|by exists pre].
  - split; [done|]. intros (_ & ? & ? & (w & [= <-] & [(Hw & _)|(Hw & _)]) & _); lia.
Qed.

(** ** What a signature covers *)

(** The integers of the encoded record are 64-bit words. *)
Definition rlp_words (r : trxRLP) : Prop :=
  Forall (fun z => 0 <= z < 2 ^ 64) [r_Version r; r_Time r; r_Nonce r; r_Gas r; r_Type r].

(** RLP items are self-delimiting: the encoding of one, of a length a slice can
    have, is never a proper prefix of the encoding of another. *)
Definition rlp_prefix_free : Prop :=
  forall a b x y e f, rlp_words a -> rlp_words b -> rlp_Encode a = Ok e -> rlp_Encode b = Ok f ->
    Z.of_nat (length e) < 2 ^ 63 -> Z.of_nat (length f) < 2 ^ 63 -> e ++ x = f ++ y -> a = b.

Lemma EncodeRLP_words tx r : EncodeRLP tx = Ok r -> rlp_words r.
Proof.
  unfold EncodeRLP. destruct (match tx_Payload tx with Some _ => _ | None => _ end) as [p|e|]; try done.
  cbn [obind]. intros [= <-]. repeat constructor; cbn [r_Version r_Time r_Nonce r_Gas r_Type]; unfold u64; apply Z.mod_pos_bound; lia.
Qed.

Lemma uBytes_inj a b : in_u256 a -> in_u256 b -> uBytes a = uBytes b -> a = b.
Proof. intros Ha Hb E. rewrite <- (uSetBytes_uBytes a Ha), <- (uSetBytes_uBytes b Hb). congruence. Qed.

(** The integers of a transaction are at their width. *)
Definition tx_ints (tx : Trx) : Prop :=
  in_i32 (tx_Version tx) /\ in_i64 (tx_Time tx) /\ in_i64 (tx_Nonce tx) /\
  in_i64 (tx_Gas tx) /\ in_i32 (tx_Type tx) /\ in_u256 (tx_Amount tx) /\ in_u256 (tx_GasPrice tx).

(** The fields two transactions with the same RLP form share. *)
Definition same_signed (tx tx' : Trx) : Prop :=
  tx_Version tx = tx_Version tx' /\ tx_Time tx = tx_Time tx' /\ tx_Nonce tx = tx_Nonce tx' /\
  tx_From tx = tx_From tx' /\ tx_To tx = tx_To tx' /\ tx_Amount tx = tx_Amount tx' /\
  tx_Gas tx = tx_Gas tx' /\ tx_GasPrice tx = tx_GasPrice tx' /\ tx_Type tx = tx_Type tx' /\
  tx_Sig tx = tx_Sig tx'.

Lemma in_i32_i64 z : in_i32 z -> in_i64 z.
Proof. unfold in_i32, in_i64. lia. Qed.

Lemma EncodeRLP_inj tx tx' r :
  tx_ints tx -> tx_ints tx' -> EncodeRLP tx = Ok r -> EncodeRLP tx' = Ok r -> same_signed tx tx'.
Proof.
  unfold EncodeRLP. intros (? & ? & ? & ? & ? & ? & ?) (? & ? & ? & ? & ? & ? & ?).
  destruct (match tx_Payload tx with Some _ => _ | None => _ end) as [p|e|]; try done.
  destruct (match tx_Payload tx' with Some _ => _ | None => _ end) as [p'|e|]; try done.
  cbn. intros [= <-] [= Ev Et En Ef Eto Ea Eg Ep Ety _ Es].
  repeat split; auto using u64_inj, uBytes_inj, in_i32_i64 with core.
Qed.

Lemma preimageV1_inv s tx isPayer b :
  getPreimageV1 s tx isPayer = Ok b ->
  exists r e, EncodeRLP (preimage_tx tx isPayer) = Ok r /\ rlp_Encode r = Ok e /\
    b = e ++ uBytes (chainIdNum s).
Proof.
  unfold getPreimageV1, rlp_EncodeToBytes.
  destruct (EncodeRLP (preimage_tx tx isPayer)) as [r|e|]; try done. cbn.
  destruct (rlp_Encode r) as [e|e|] eqn:Ee; try done. cbn. intros [= <-]. eauto.
Qed.

(** A short signature makes the verification panic. *)
Lemma sig_v_short sig : (length sig < SignatureLength)%nat -> sig_v sig = Panic.
Proof.
  intros Hl. unfold sig_v. rewrite lookup_ge_None_2; [done|]. unfold SignatureLength in Hl. lia.
Qed.

(** ** Signing and verifying *)

(** The documented contract of the curve's signatures: 65 bytes, the last one
    the recovery id, from which the signer's public key is recovered. *)
Definition sign_recovers (pub_of : bytes -> bytes) : Prop :=
  forall h prv sig, ethcrypto_Sign h prv = Ok sig ->
    length sig = SignatureLength /\ (sig !! 64%nat = Some 0 \/ sig !! 64%nat = Some 1) /\
    SigToPub h sig = Ok (pub_of prv).

Definition verify_as (s : Signers) (isPayer : bool) (tx : Trx) : outcome (Address * bytes) :=
  if isPayer then VerifyPayerTrxRLP s tx else VerifyTrxRLP s tx.

Lemma preimage_tx_signed tx sig (isPayer : bool) :
  preimage_tx (if isPayer then with_payerSig tx sig else with_sig tx sig) isPayer = preimage_tx tx isPayer.
Proof. by destruct isPayer. Qed.

Lemma verify_as_sig_v s (isPayer : bool) tx sig v :
  sig !! 64%nat = Some v ->
  verify_as s isPayer (if isPayer then with_payerSig tx sig else with_sig tx sig) =
  obind (getSigner s v) (fun verify =>
    verify (if isPayer then with_payerSig tx sig else with_sig tx sig) isPayer).
Proof.
  intros Hv. unfold verify_as. destruct isPayer; unfold VerifyPayerTrxRLP, VerifyTrxRLP, sig_v; cbn [tx_PayerSig tx_Sig with_payerSig with_sig]; by rewrite Hv.
Qed.

Lemma set_v_back sig v w : sig !! 64%nat = Some v -> set_v (set_v sig w) v = sig.
Proof. intros Hv. unfold set_v. rewrite list_insert_insert_eq. by apply list_insert_id. Qed.

Lemma signV0_verifies pub_of s tx prv isPayer sig tx' :
  sign_recovers pub_of -> signer_of tx isPayer = PubKeyBytes2Addr (pub_of prv) ->
  signV0 s tx prv isPayer = Ok (sig, tx') ->
  verify_as s isPayer tx' = Ok (signer_of tx isPayer, pub_of prv).
Proof.
  intros Hrec Ha. unfold signV0. destruct (getPreimageV0 s tx isPayer) as [pre|e|] eqn:Ep; try done. cbn.
  destruct (ethcrypto_Sign _ _) as [sig0|e|] eqn:Es; try done. cbn. intros [= <- <-].
  destruct (Hrec _ _ _ Es) as (Hl & Hv & Hr).
  assert (getPreimageV0 s (if isPayer then with_payerSig tx sig0 else with_sig tx sig0) isPayer = Ok pre) as Ep'.
  { rewrite <- Ep. unfold getPreimageV0. by rewrite preimage_tx_signed. }
  assert (forall v, (v = 0 \/ v = 1) -> getSigner s v = Ok (verifyV0 s)) as Hg by (by intros v [-> | ->]).
  destruct Hv as [Hv|Hv]; rewrite (verify_as_sig_v _ _ _ _ _ Hv), Hg by auto; cbn [obind];
    unfold verifyV0; rewrite Ep'; cbn [obind];
    destruct isPayer; cbn [tx_PayerSig tx_Sig tx_Payer tx_From with_payerSig with_sig signer_of] in *;
    unfold Sig2Addr; rewrite Hr; cbn [negb]; rewrite Ha, bytes_Compare_refl; done.
Qed.

Lemma signV1_verifies pub_of s tx prv isPayer sig tx' :
  sign_recovers pub_of -> signer_of tx isPayer = PubKeyBytes2Addr (pub_of prv) ->
  signV1 s tx prv isPayer = Ok (sig, tx') ->
  verify_as s isPayer tx' = Ok (signer_of tx isPayer, pub_of prv).
Proof.
  intros Hrec Ha. unfold signV1. destruct (getPreimageV1 s tx isPayer) as [pre|e|] eqn:Ep; try done. cbn [obind].
  destruct (ethcrypto_Sign _ _) as [sig0|e|] eqn:Es; try done. cbn [obind from_proto_err].
  destruct (Hrec _ _ _ Es) as (Hl & Hv & Hr). rewrite Hl. cbn [Nat.eqb SignatureLength negb].
  set (v := if decide (sig0 !! 64%nat = Some 0) then 0 else 1).
  assert (sig0 !! 64%nat = Some v /\ (v = 0 \/ v = 1)) as [Hv0 Hv1].
  { unfold v. destruct (decide _) as [?|Hn]; [auto|]. destruct Hv; [done|auto]. }
  unfold sig_v at 1. rewrite Hv0. cbn [obind].
  assert ((v =? 0) || (v =? 1) = true) as -> by (by destruct Hv1 as [-> | ->]).
  intros [= <- <-]. set (sig1 := set_v sig0 (v + 27)).
  assert (length sig1 = SignatureLength) as Hl1 by (unfold sig1, set_v; by rewrite length_insert).
  assert (sig1 !! 64%nat = Some (v + 27)) as Hs1.
  { unfold sig1, set_v. apply list_lookup_insert_eq. unfold SignatureLength in Hl. lia. }
  assert (getPreimageV1 s (if isPayer then with_payerSig tx sig1 else with_sig tx sig1) isPayer = Ok pre) as Ep'.
  { rewrite <- Ep. unfold getPreimageV1. by rewrite preimage_tx_signed. }
  rewrite (verify_as_sig_v _ _ _ _ _ Hs1).
  assert (getSigner s (v + 27) = Ok (verifyV1 s)) as -> by (by destruct Hv1 as [-> | ->]).
  assert (negb ((v + 27 =? 27) || (v + 27 =? 28)) = false) as Hin by (by destruct Hv1 as [-> | ->]).
  cbn [obind]. unfold verifyV1. rewrite Ep'. cbn [obind].
  assert (set_v sig1 (v + 27 - 27) = sig0) as Hb by (replace (v + 27 - 27) with v by lia; by apply set_v_back).
  destruct isPayer; cbn [tx_PayerSig tx_Sig tx_Payer tx_From with_payerSig with_sig signer_of] in *;
    rewrite Hl1; cbn [Nat.eqb SignatureLength negb]; unfold sig_v; rewrite Hs1; cbn [obind]; rewrite Hin, Hb;
    unfold Sig2Addr; rewrite Hr, Ha, bytes_Compare_refl; done.
Qed.

End Signer.
