(* ===== verification/AcctCtrler.v ===== *)
(** * AcctCtrler: the account controller

    [ctrlers/account/ctrler.go] and [ctrler_block.go]: finding and creating
    accounts, transfers, rewards and balances, the fee distribution at the end
    of a block, and the commit.  [IAccountHandler] is the interface the other
    controllers use ([ctrlers/types/handlers.go]);
    the account controller implements it ([AcctCtrler_handler]). *)
From stdpp Require Import base gmap list strings.
From Stdlib Require Import ZArith Lia.
From S2P Require Import Prelude XErrors GoMonad LedgerKeys Iavl Ledger LedgerSpec Units Proto.
From S2P Require Import GovParams Account TrxTypes.

(** The account controller and the objects its accounts live in. *)
Record AcctCtrler (T I : Type) := MkAcctCtrler {
  acctState : LState Account T I;
  newbiesCheck : gmap bytes loc;
  newbiesDeliver : gmap bytes loc;
}.
Arguments MkAcctCtrler {T I} _ _ _.
Arguments acctState {T I} _.
Arguments newbiesCheck {T I} _.
Arguments newbiesDeliver {T I} _.

Program Definition acct_lens {T I} : lens (AcctCtrler T I) (LState Account T I) :=
  Lens acctState (fun l s => MkAcctCtrler l (newbiesCheck s) (newbiesDeliver s)) _ _ _.
Next Obligation. done. Qed.
Next Obligation. now intros ? ? []. Qed.
Next Obligation. done. Qed.

(** ** The interface of the account controller *)

(** Accounts are objects: a caller holds a pointer and reads and writes through
    it ([acct_get], [acct_put]). *)
Class IAccountHandler (A : Type) : Type := {
  acct_get : loc -> M A Account;
  acct_put : loc -> Account -> M A unit;
  SetAccount : loc -> bool -> M A unit;
  FindOrNewAccount : Address -> bool -> M A loc;
  FindAccount : Address -> bool -> M A (option loc);
  Transfer : Address -> Address -> Z -> bool -> M A unit;
  Reward : Address -> Z -> bool -> M A unit;
  AddBalance_ : Address -> Z -> bool -> M A unit;
  SubBalance_ : Address -> Z -> bool -> M A unit;
  SetBalance_ : Address -> Z -> bool -> M A unit;
}.

(** [acct.AddBalance(amt)] and the like on the object at [l]: an error leaves
    the object as it was. *)
Definition acct_update {A} `{IAccountHandler A} (l : loc) (f : Account -> outcome Account)
    : M A unit :=
  let! a := acct_get l in
  let! a' := lift (f a) in
  acct_put l a'.

Section AcctCtrlerOps.
Context {T I : Type} `{Iavl T I} `{Proto AcctProto}.
Abbreviation AM := (M (AcctCtrler T I)).

Definition a_deref (l : loc) : AM Account := zoom acct_lens (l_deref l).
Definition a_assign (l : loc) (x : Account) : AM unit := zoom acct_lens (l_assign l x).
Definition a_alloc (x : Account) : AM loc := zoom acct_lens (l_alloc x).

(** A method of the account object that can fail. *)
Definition a_update (l : loc) (f : Account -> outcome Account) : AM unit :=
  let! a := a_deref l in
  let! a' := lift (f a) in
  a_assign l a'.

Definition findAccount (addr : Address) (exec : bool) : AM (option loc) :=
  let! r := try (zoom acct_lens (Get (LedgerKeyAccount addr) exec)) in
  match r with
  | inl l => ret (Some l)
  | inr _ => ret None
  end.

Definition setAccount (acct : loc) (exec : bool) : AM unit :=
  let! a := a_deref acct in
  zoom acct_lens (Set_ (LedgerKeyAccount (acct_Address a)) acct exec).

Definition newbies (exec : bool) (s : AcctCtrler T I) : gmap bytes loc :=
  if exec then newbiesDeliver s else newbiesCheck s.

Definition set_newbie (exec : bool) (k : bytes) (l : loc) (s : AcctCtrler T I) : AcctCtrler T I :=
  if exec then MkAcctCtrler (acctState s) (newbiesCheck s) (<[k := l]> (newbiesDeliver s))
  else MkAcctCtrler (acctState s) (<[k := l]> (newbiesCheck s)) (newbiesDeliver s).

Definition ctrl_FindOrNewAccount (addr : Address) (exec : bool) : AM loc :=
  let! r := findAccount addr exec in
  match r with
  | Some l => ret l
  | None =>
      let! acctKey := lift (ToAcctKey addr) in
      let! nb := gets (fun s => newbies exec s !! acctKey) in
      match nb with
      | Some l => ret l
      | None =>
          let! l := a_alloc (NewAccountWithName addr []) in
          modify (set_newbie exec acctKey l) ;;;
          ret l
      end
  end.

(** [transfer]: debit, then credit; a failed credit is refunded. *)
Definition transfer (from to : loc) (amt : Z) : AM unit :=
  a_update from (fun a => SubBalance a amt) ;;;
  let! r := try (a_update to (fun a => AddBalance a amt)) in
  match r with
  | inl _ => ret tt
  | inr e => ignore (a_update from (fun a => AddBalance a amt)) ;;; throw e
  end.

Definition ctrl_Transfer (from to : Address) (amt : Z) (exec : bool) : AM unit :=
  let! r0 := findAccount from exec in
  match r0 with
  | None => throw (Wrapf ErrNotFoundAccount "Transfer - address: %v")
  | Some acct0 =>
      let! r1 := findAccount to exec in
      let! acct1 := (match r1 with
                     | Some l => ret l
                     | None => a_alloc (NewAccountWithName to [])
                     end) in
      transfer acct0 acct1 amt ;;;
      setAccount acct0 exec ;;;
      setAccount acct1 exec
  end.

Definition ctrl_SetCode (addr : Address) (code : bytes) (exec : bool) : AM unit :=
  let! r := findAccount addr exec in
  match r with
  | None => throw (Wrapf ErrNotFoundAccount "SetCode - address: %v")
  | Some acct0 =>
      a_update acct0 (fun a => Ok (SetCode a code)) ;;;
      setAccount acct0 exec
  end.

Definition setDoc (acct : loc) (name url : bytes) : AM unit :=
  a_update acct (fun a => Ok (SetName a name)) ;;;
  a_update acct (fun a => Ok (SetDocURL a url)).

Definition ctrl_SetDoc (addr : Address) (name url : bytes) (exec : bool) : AM unit :=
  let! r := findAccount addr exec in
  match r with
  | None => throw (Wrapf ErrNotFoundAccount "SetDoc - address: %v")
  | Some acct0 =>
      setDoc acct0 name url ;;;
      setAccount acct0 exec
  end.

Definition ctrl_Reward (to : Address) (amt : Z) (exec : bool) : AM unit :=
  let! r := findAccount to exec in
  match r with
  | None => throw (Wrapf ErrNotFoundAccount "Reward - address: %v")
  | Some acct =>
      a_update acct (fun a => AddBalance a amt) ;;;
      setAccount acct exec
  end.

Definition find_or_alloc (addr : Address) (exec : bool) : AM loc :=
  let! r := findAccount addr exec in
  match r with
  | Some l => ret l
  | None => a_alloc (NewAccount addr)
  end.

Definition ctrl_AddBalance (addr : Address) (amt : Z) (exec : bool) : AM unit :=
  let! acct := find_or_alloc addr exec in
  a_update acct (fun a => AddBalance a amt) ;;;
  setAccount acct exec.

Definition ctrl_SubBalance (addr : Address) (amt : Z) (exec : bool) : AM unit :=
  let! r := findAccount addr exec in
  match r with
  | None => throw (Wrapf ErrNotFoundAccount "SubBalance - address: %v")
  | Some acct =>
      a_update acct (fun a => SubBalance a amt) ;;;
      setAccount acct exec
  end.

Definition ctrl_SetBalance (addr : Address) (amt : Z) (exec : bool) : AM unit :=
  let! acct := find_or_alloc addr exec in
  a_update acct (fun a => Ok (SetBalance a amt)) ;;;
  setAccount acct exec.

#[export] Instance AcctCtrler_handler : IAccountHandler (AcctCtrler T I) := {
  acct_get := a_deref;
  acct_put := a_assign;
  SetAccount := setAccount;
  FindOrNewAccount := ctrl_FindOrNewAccount;
  FindAccount := findAccount;
  Transfer := ctrl_Transfer;
  Reward := ctrl_Reward;
  AddBalance_ := ctrl_AddBalance;
  SubBalance_ := ctrl_SubBalance;
  SetBalance_ := ctrl_SetBalance;
}.

(** [ValidateTrx]: only a document transaction is checked, for its lengths. *)
Definition acct_ValidateTrx (tx : Trx) : outcome unit :=
  if GetType tx =? TRX_SETDOC then
    match tx_Payload tx with
    | Some (TrxPayloadSetDoc name url) =>
        if MAX_ACCT_NAME <? Z.of_nat (length name)
        then Err (Wrapf ErrInvalidTrxPayloadParams "too long name. it should be less than %d.")
        else if MAX_ACCT_DOCURL <? Z.of_nat (length url)
        then Err (Wrapf ErrInvalidTrxPayloadParams "too long url. it should be less than %d.")
        else Ok tt
    | _ => Panic
    end
  else Ok tt.

(** [ExecuteTrx] of a transfer or a document transaction. *)
Definition acct_ExecuteTrx (tx : Trx) (sender : loc) (receiver : option loc) (exec : bool)
    : AM unit :=
  (if GetType tx =? TRX_TRANSFER then
     match receiver with
     | Some r => transfer sender r (tx_Amount tx)
     | None => panic
     end
   else if GetType tx =? TRX_SETDOC then
     match tx_Payload tx with
     | Some (TrxPayloadSetDoc name url) => setDoc sender name url
     | _ => panic
     end
   else ret tt) ;;;
  ignore (setAccount sender exec) ;;;
  match receiver with
  | Some r => ignore (setAccount r exec)
  | None => ret tt
  end.

(** [InitLedger] of the genesis asset holders. *)
Definition acct_InitLedger (holders : list (Address * Z)) : AM unit :=
  for_each holders (fun h =>
    let! l := a_alloc (MkAccount (fst h) [] 0 (snd h) [] []) in
    setAccount l true).

(** [Commit] *)
Definition acct_Commit : AM (bytes * Z) :=
  modify (fun s => MkAcctCtrler (acctState s) ∅ ∅) ;;;
  zoom acct_lens Commit.

End AcctCtrlerOps.

(** [EndBlock] distributes the fees of the block through the handler. *)
Definition acct_EndBlock {A} `{IAccountHandler A} (gp : GovParamsProto) (proposer : Address)
    (sumFee : Z) : M A unit :=
  if negb (bytes_Equal proposer []) && (0 <? uSign sumFee) then
    let rwdAmt := udiv (umul sumFee (u256_of_int (GovParams.TxFeeRewardRate gp))) 100 in
    AddBalance_ proposer rwdAmt true ;;;
    let deadAmt := usub sumFee rwdAmt in
    AddBalance_ (GovParams.DeadAddress gp) deadAmt true
  else ret tt.
