(* ===== verification/AcctSpec.v ===== *)
(** * AcctSpec: what the account controller promises

    [IAccountLaws] states the behaviour of the delivering side ([exec = true])
    the other controllers rely on, over the map of stored accounts; the laws
    are proved of the account controller ([AcctCtrler_laws]). *)
From stdpp Require Import base gmap list strings.
From Stdlib Require Import ZArith Lia.
From S2P Require Import Prelude XErrors GoMonad LedgerKeys Iavl Ledger LedgerSpec LedgerOps.
From S2P Require Import Units Proto GovParams Account TrxTypes AcctCtrler.

Abbreviation accts_map := (gmap bytes Account).

(** The account of an address, a new one when it is not stored. *)
Definition acct_at (m : accts_map) (addr : Address) : Account :=
  default (NewAccount addr) (m !! LedgerKeyAccount addr).

Definition bal (m : accts_map) (addr : Address) : Z := acct_Balance (acct_at m addr).

Definition store_acct (m : accts_map) (a : Account) : accts_map :=
  <[LedgerKeyAccount (acct_Address a) := a]> m.

(** [addr] is credited with [amt], on 256 bits. *)
Definition credit (m : accts_map) (addr : Address) (amt : Z) : accts_map :=
  store_acct m (SetBalance (acct_at m addr) (uadd (bal m addr) amt)).

Definition debit (m : accts_map) (addr : Address) (amt : Z) : accts_map :=
  store_acct m (SetBalance (acct_at m addr) (bal m addr - amt)).

(** The laws: [accts s m] says that [m] holds the stored accounts, [aheld s l x]
    that the object at [l] is account [x]. *)
Class IAccountLaws (A : Type) `{IAccountHandler A, Utf8} : Type := {
  accts : A -> accts_map -> Prop;
  aheld : A -> loc -> Account -> Prop;
  accts_wf : forall s m k a, accts s m -> m !! k = Some a ->
    k = LedgerKeyAccount (acct_Address a) /\ acct_wf a;
  aheld_wf : forall s l x, aheld s l x -> acct_wf x;
  acct_get_law : forall s l x, aheld s l x -> acct_get l s = (Ok x, s);
  FindAccount_law : forall s m addr,
    accts s m -> length addr = AddrSize ->
    wp (FindAccount addr true) (okQ (fun r s' =>
      accts s' m /\ (forall l x, aheld s l x -> aheld s' l x) /\
      match m !! LedgerKeyAccount addr with
      | Some x => exists l, r = Some l /\ aheld s' l x
      | None => r = None
      end)) s;
  FindOrNewAccount_law : forall s m addr,
    accts s m -> length addr = AddrSize ->
    wp (FindOrNewAccount addr true) (okQ (fun l s' =>
      accts s' m /\ (forall l x, aheld s l x -> aheld s' l x) /\
      exists x, aheld s' l x /\ acct_Address x = addr /\
        forall y, m !! LedgerKeyAccount addr = Some y -> x = y)) s;
  pay_law : forall s m l x f x',
    accts s m -> aheld s l x -> f x = Ok x' -> acct_wf x' -> acct_Address x' = acct_Address x ->
    wp (acct_update l f ;;; SetAccount l true) (okQ (fun _ s' =>
      accts s' (store_acct m x') /\ aheld s' l x' /\
      forall l' y, aheld s l' y -> acct_Address y <> acct_Address x -> aheld s' l' y)) s;
  AddBalance_law : forall s m addr amt,
    accts s m -> length addr = AddrSize -> 0 <= amt < 2 ^ 255 ->
    wp (AddBalance_ addr amt true) (okQ (fun _ s' =>
      accts s' (credit m addr amt) /\
      forall l y, aheld s l y -> acct_Address y <> addr -> aheld s' l y)) s;
  Reward_law : forall s m addr amt,
    accts s m -> length addr = AddrSize -> 0 <= amt < 2 ^ 255 ->
    wp (Reward addr amt true) (fun o s' =>
      match m !! LedgerKeyAccount addr with
      | Some _ => o = Ok tt /\ accts s' (credit m addr amt) /\
          (forall l y, aheld s l y -> acct_Address y <> addr -> aheld s' l y)
      | None => o = Err (Wrapf ErrNotFoundAccount "Reward - address: %v") /\ accts s' m
      end) s;
  Transfer_law : forall s m from to amt,
    accts s m -> length from = AddrSize -> length to = AddrSize -> 0 <= amt < 2 ^ 255 ->
    wp (Transfer from to amt true) (fun o s' =>
      match m !! LedgerKeyAccount from with
      | None => o = Err (Wrapf ErrNotFoundAccount "Transfer - address: %v") /\ accts s' m
      | Some a =>
          if acct_Balance a <? amt then o = Err ErrInsufficientFund /\ accts s' m
          else o = Ok tt /\ accts s' (credit (debit m from amt) to amt)
      end) s;
}.

Lemma LedgerKeyAccount_nonnil a : LedgerKeyAccount a <> [].
Proof. done. Qed.

Lemma LedgerKeyAccount_inj a b : LedgerKeyAccount a = LedgerKeyAccount b -> a = b.
Proof. intros E. now injection E. Qed.

Section AcctSpec.
Context {T I : Type} `{Iavl T I, !IavlLaws T I}.
Context `{Utf8, Proto AcctProto, !ProtoLaws AcctProto AcctProto_ok}.
Abbreviation ACtrler := (AcctCtrler T I).
Implicit Types (s : AcctCtrler T I) (m : accts_map) (D : gset bytes).

Definition cheld s (l : loc) (x : Account) : Prop :=
  held (acctState s) (LedgerKeyAccount (acct_Address x)) l x /\ acct_wf x.

(** The invariant of the delivering side: the ledger is coherent and the new
    accounts of the block are objects of their address. *)
Record ainv D s m : Prop := {
  ainv_coh : coh D (acctState s) m;
  ainv_newbies : forall a l, newbiesDeliver s !! a = Some l ->
    exists x, cheld s l x /\ acct_Address x = a;
}.

Lemma cheld_frames s s' l0 x0 l x :
  frames (acctState s) (acctState s') (Some l0) -> heap (acctState s) !! l0 = Some x0 ->
  cheld s l x -> acct_Address x <> acct_Address x0 -> cheld s' l x.
Proof.
  intros [Hf _] Hx0 [Hl Hwf] Hne. split; [|done]. apply Hf; [|done].
  intros [= ->]. destruct Hl as [Hl _]. congruence.
Qed.

Lemma cheld_frames_None s s' l x :
  frames (acctState s) (acctState s') None -> cheld s l x -> cheld s' l x.
Proof. intros [Hf _] [Hl Hwf]. split; [|done]. now apply Hf. Qed.

Lemma ainv_frames_None D D' s s' m m' :
  ainv D s m -> frames (acctState s) (acctState s') None ->
  newbiesDeliver s' = newbiesDeliver s -> coh D' (acctState s') m' -> ainv D' s' m'.
Proof.
  intros [HC Hn] Hf En HC'. split; [done|]. intros a l. rewrite En. intros Hl.
  destruct (Hn a l Hl) as (x & Hx & Ha). exists x. split; [|done]. eauto using cheld_frames_None.
Qed.

(** Writing the object at [l] keeps the new accounts, as the address stays. *)
Lemma ainv_frames_Some D D' s s' m m' l x x' :
  ainv D s m -> frames (acctState s) (acctState s') (Some l) -> cheld s l x ->
  held (acctState s') (LedgerKeyAccount (acct_Address x)) l x' ->
  acct_wf x' -> acct_Address x' = acct_Address x ->
  newbiesDeliver s' = newbiesDeliver s -> coh D' (acctState s') m' -> ainv D' s' m'.
Proof.
  intros [HC Hn] [Hf Him] [[Hl Ho] Hwf] Hl' Hwf' Ha En HC'. split; [done|]. intros a l0.
  rewrite En. intros Hl0. destruct (Hn a l0 Hl0) as (y & [[Hy Hyo] Hywf] & Hay).
  destruct (decide (l0 = l)) as [->|Hne].
  - assert (y = x) as -> by congruence. exists x'. split; [|congruence]. now split; [rewrite Ha|].
  - exists y. split; [|done]. split; [|done]. apply Hf; [congruence|done].
Qed.

Lemma acct_key_ok m s D k a :
  coh D (acctState s) m -> m !! k = Some a -> k = LedgerKeyAccount (acct_Address a) /\ acct_wf a.
Proof.
  intros HC Hk. destruct (represents_lookup _ _ _ _ (coh_tree _ _ _ HC) Hk) as (b & _ & [Hok _]).
  exact Hok.
Qed.

(** ** Rules for the operations *)

Lemma wp_findAccount s m addr Q :
  ainv ∅ s m ->
  (forall r s', ainv ∅ s' m -> (forall l x, cheld s l x -> cheld s' l x) ->
    newbiesDeliver s' = newbiesDeliver s ->
    match m !! LedgerKeyAccount addr with
    | Some x => exists l, r = Some l /\ cheld s' l x /\
        cached (acctState s') !! LedgerKeyAccount addr = Some l /\
        forall l', cached (acctState s) !! LedgerKeyAccount addr = Some l' -> l' = l
    | None => r = None /\ s' = s
    end -> Q (Ok r) s') ->
  wp (findAccount addr true) Q s.
Proof.
  intros HI HQ. unfold findAccount. apply wp_bind, wp_try, wp_zoom; cbn.
  pose proof (ainv_coh _ _ _ HI) as HC.
  destruct (m !! LedgerKeyAccount addr) as [x|] eqn:Ex.
  - apply (held_get_rule ∅ _ m (LedgerKeyAccount addr) x); try done.
    intros l ls HC' Hl Hf Hca Hcm. apply wp_ret.
    destruct (acct_key_ok m s ∅ _ _ HC Ex) as [Hk Hwf].
    apply LedgerKeyAccount_inj in Hk as ->.
    apply HQ; [| |done|].
    + now apply (ainv_frames_None ∅ ∅ s _ m m HI).
    + intros l' x' Hh. now apply (cheld_frames_None s).
    + exists l. split; [done|]. split; [now split|]. split; [done|].
      intros l' Hl'. apply Hcm in Hl'. congruence.
  - apply (wp_Get_none ∅ _ m (LedgerKeyAccount addr)); try done.
    apply wp_ret. destruct s; cbn. now apply HQ.
Qed.

Lemma wp_a_alloc s m x Q :
  ainv ∅ s m -> acct_wf x ->
  (forall l s', ainv ∅ s' m -> cheld s' l x -> (forall l x, cheld s l x -> cheld s' l x) ->
    newbiesDeliver s' = newbiesDeliver s -> Q (Ok l) s') ->
  wp (a_alloc x) Q s.
Proof.
  intros HI Hwf HQ. apply wp_zoom. cbn. pose proof (ainv_coh _ _ _ HI) as HC.
  apply (held_alloc_rule ∅ _ m); [done|]. intros l ls HC' Hl Hun Hf Hled _.
  apply HQ; [| | |done].
  - now apply (ainv_frames_None ∅ ∅ s _ m m HI).
  - now split.
  - intros l' x' Hh. now apply (cheld_frames_None s).
Qed.

Lemma wp_a_deref s l x Q : cheld s l x -> Q (Ok x) s -> wp (a_deref l) Q s.
Proof.
  intros [[Hl _] _] HQ. apply wp_zoom. cbn. apply (wp_deref _ l x); [done|]. now destruct s.
Qed.

Lemma wp_a_update_err s l x f e Q :
  cheld s l x -> f x = Err e -> Q (Err e) s -> wp (a_update l f) Q s.
Proof.
  intros Hl Hf HQ. apply wp_bind, (wp_a_deref s l x _ Hl), wp_bind, wp_lift. now rewrite Hf.
Qed.

Lemma wp_a_update D s m l x f x' Q :
  ainv D s m -> cheld s l x -> f x = Ok x' -> acct_wf x' -> acct_Address x' = acct_Address x ->
  (forall s', ainv (D ∪ {[LedgerKeyAccount (acct_Address x)]}) s' m -> cheld s' l x' ->
    (forall l' y, cheld s l' y -> acct_Address y <> acct_Address x -> cheld s' l' y) ->
    newbiesDeliver s' = newbiesDeliver s -> Q (Ok tt) s') ->
  wp (a_update l f) Q s.
Proof.
  intros HI Hl Hf Hwf' Ha HQ. apply wp_bind, (wp_a_deref s l x _ Hl), wp_bind, wp_lift.
  rewrite Hf. apply wp_zoom; cbn. pose proof Hl as [Hl0 Hwf].
  apply (held_assign_rule D _ m l (LedgerKeyAccount (acct_Address x)) x); [apply (ainv_coh _ _ _ HI)|exact Hl0|].
  intros ls HC' Hl' Hfr Hled. apply HQ; [| | |done].
  - now apply (ainv_frames_Some D _ s _ m m l x x' HI).
  - split; [|done]. now rewrite Ha.
  - intros l' y Hy Hne. apply (cheld_frames s _ l x); try done. apply Hl0.
Qed.

Lemma wp_setAccount D s m l x Q :
  ainv D s m -> cheld s l x ->
  (forall s', ainv (D ∖ {[LedgerKeyAccount (acct_Address x)]}) s' (store_acct m x) ->
    cheld s' l x -> (forall l' y, cheld s l' y -> cheld s' l' y) ->
    newbiesDeliver s' = newbiesDeliver s -> Q (Ok tt) s') ->
  wp (setAccount l true) Q s.
Proof.
  intros HI Hl HQ. apply wp_bind, (wp_a_deref s l x _ Hl), wp_zoom; cbn. pose proof Hl as [Hl0 Hwf].
  apply (held_set_rule D _ m _ l x); [apply (ainv_coh _ _ _ HI)|done|done|done|].
  intros ls HC' Hl' Hfr. apply HQ; [| | |done].
  - now apply (ainv_frames_Some D _ s _ m _ l x x HI).
  - now split.
  - intros l' y [Hy Hywf]. destruct (decide (l' = l)) as [->|Hne].
    + assert (y = x) as -> by (destruct Hy, Hl0; congruence). now split.
    + split; [|done]. apply Hfr; [congruence|done].
Qed.

(** Reading, changing and storing an account: what every operation ends in. *)
Lemma wp_update_set s m l x f x' Q :
  ainv ∅ s m -> cheld s l x -> f x = Ok x' -> acct_wf x' -> acct_Address x' = acct_Address x ->
  (forall s', ainv ∅ s' (store_acct m x') -> cheld s' l x' ->
    (forall l' y, cheld s l' y -> acct_Address y <> acct_Address x -> cheld s' l' y) ->
    newbiesDeliver s' = newbiesDeliver s -> Q (Ok tt) s') ->
  wp (a_update l f ;;; setAccount l true) Q s.
Proof.
  intros HI Hl Hf Hwf Ha HQ. apply wp_bind.
  apply (wp_a_update ∅ s m l x f x'); try done. intros s1 HI1 Hl1 Hfr1 En1.
  eapply (wp_setAccount _ s1 m l x'); [exact HI1|done|]. intros s2 HI2 Hl2 Hfr2 En2.
  rewrite Ha, dirty_one in HI2. apply HQ; auto. congruence.
Qed.

Lemma acct_at_wf m s addr :
  ainv ∅ s m -> length addr = AddrSize ->
  acct_wf (acct_at m addr) /\ acct_Address (acct_at m addr) = addr.
Proof.
  intros HI Ha. unfold acct_at. destruct (m !! LedgerKeyAccount addr) as [x|] eqn:Ex; cbn.
  - destruct (acct_key_ok m s ∅ _ _ (ainv_coh _ _ _ HI) Ex) as [Hk Hwf].
    apply LedgerKeyAccount_inj in Hk. auto.
  - split; [now apply acct_wf_new|done].
Qed.

Lemma wp_find_or_alloc s m addr Q :
  ainv ∅ s m -> length addr = AddrSize ->
  (forall l s', ainv ∅ s' m -> cheld s' l (acct_at m addr) ->
    (forall l x, cheld s l x -> cheld s' l x) -> newbiesDeliver s' = newbiesDeliver s ->
    Q (Ok l) s') ->
  wp (find_or_alloc addr true) Q s.
Proof.
  intros HI Ha HQ. unfold find_or_alloc. apply wp_bind, (wp_findAccount s m addr _ HI).
  intros r s1 HI1 Hk En. unfold acct_at in HQ.
  destruct (m !! LedgerKeyAccount addr) as [x|] eqn:Ex; cbn in HQ.
  - intros (l & -> & Hl & _). now apply wp_ret, HQ.
  - intros [-> ->]. apply (wp_a_alloc s m); [done|now apply acct_wf_new|].
    intros l s' HI' Hl Hf En'. now apply HQ.
Qed.

(** Debiting and crediting two objects of different accounts. *)
Lemma wp_transfer_ne s m l0 x0 l1 x1 amt Q :
  ainv ∅ s m -> cheld s l0 x0 -> cheld s l1 x1 -> acct_Address x0 <> acct_Address x1 ->
  0 <= amt < 2 ^ 255 -> amt <= acct_Balance x0 ->
  (forall s', ainv ∅ s' (store_acct (store_acct m (SetBalance x0 (acct_Balance x0 - amt)))
      (SetBalance x1 (uadd (acct_Balance x1) amt))) -> Q (Ok tt) s') ->
  wp (transfer l0 l1 amt ;;; setAccount l0 true ;;; setAccount l1 true) Q s.
Proof.
  intros HI Hl0 Hl1 Hne Hamt Hle HQ.
  assert (Hb0 : in_u256 (acct_Balance x0)) by apply (wf_balance _ (proj2 Hl0)).
  pose proof (SubBalance_ok x0 amt Hamt Hle Hb0) as Hs.
  apply wp_bind, wp_bind.
  apply (wp_a_update ∅ s m l0 x0 _ (SetBalance x0 (acct_Balance x0 - amt))); try done.
  { apply acct_wf_SetBalance; [apply Hl0|]. unfold in_u256 in *; lia. }
  intros s1 HI1 Hl01 Hf1 En1.
  assert (Hl11 : cheld s1 l1 x1) by (apply Hf1; congruence).
  apply wp_bind, wp_try.
  eapply (wp_a_update _ s1 m l1 x1 _ (SetBalance x1 (uadd (acct_Balance x1) amt)));
    [exact HI1|done|now apply AddBalance_ok|
     apply acct_wf_SetBalance; [apply Hl1|apply u256_range]|done|].
  intros s2 HI2 Hl12 Hf2 En2. apply wp_ret.
  assert (Hl02 : cheld s2 l0 (SetBalance x0 (acct_Balance x0 - amt))) by (apply Hf2; done).
  apply wp_bind. eapply wp_setAccount; [exact HI2|exact Hl02|].
  intros s3 HI3 Hl03 Hf3 En3. eapply wp_setAccount; [exact HI3|exact (Hf3 _ _ Hl12)|].
  intros s4 HI4 _ _ _. apply HQ. cbn [acct_Address SetBalance] in HI4.
  now rewrite dirty_two in HI4.
Qed.

(** A transfer from an account to itself, through one object. *)
Lemma wp_transfer_self s m l x amt Q :
  ainv ∅ s m -> cheld s l x -> 0 <= amt < 2 ^ 255 -> amt <= acct_Balance x ->
  (forall s', ainv ∅ s' (store_acct m x) -> Q (Ok tt) s') ->
  wp (transfer l l amt ;;; setAccount l true ;;; setAccount l true) Q s.
Proof.
  intros HI Hl Hamt Hle HQ. pose proof (wf_balance _ (proj2 Hl)) as Hb.
  pose proof (SubBalance_ok x amt Hamt Hle Hb) as Hs.
  apply wp_bind, wp_bind.
  apply (wp_a_update ∅ s m l x _ (SetBalance x (acct_Balance x - amt))); try done.
  { apply acct_wf_SetBalance; [apply Hl|]. unfold in_u256 in *; lia. }
  intros s1 HI1 Hl1 Hf1 En1. apply wp_bind, wp_try.
  eapply (wp_a_update _ s1 m l _ _ x); [exact HI1|exact Hl1| |apply Hl|done|].
  { rewrite AddBalance_ok by done. cbn. unfold uadd.
    replace (acct_Balance x - amt + amt) with (acct_Balance x) by lia.
    rewrite u256_id by done. now destruct x. }
  intros s2 HI2 Hl2 Hf2 En2. apply wp_ret, wp_bind.
  eapply wp_setAccount; [exact HI2|exact Hl2|].
  intros s3 HI3 Hl3 Hf3 En3. eapply wp_setAccount; [exact HI3|exact Hl3|].
  intros s4 HI4 _ _ _. apply HQ. cbn [acct_Address SetBalance] in HI4.
  unfold store_acct in HI4 |- *. rewrite insert_insert_eq in HI4.
  now rewrite dirty_two in HI4.
Qed.

Lemma store_acct_id m addr x :
  m !! LedgerKeyAccount addr = Some x -> acct_Address x = addr -> store_acct m x = m.
Proof. intros Hx <-. now apply insert_id. Qed.

Lemma acct_at_some m addr x : m !! LedgerKeyAccount addr = Some x -> acct_at m addr = x.
Proof. unfold acct_at. now intros ->. Qed.

Lemma acct_at_store_ne m addr x :
  acct_Address x <> addr -> acct_at (store_acct m x) addr = acct_at m addr.
Proof.
  intros Hne. unfold acct_at, store_acct. rewrite lookup_insert_ne; [done|].
  intros E. apply Hne, LedgerKeyAccount_inj, E.
Qed.

Lemma acct_at_store_eq m x addr : acct_Address x = addr -> acct_at (store_acct m x) addr = x.
Proof. intros <-. unfold acct_at, store_acct. now rewrite lookup_insert_eq. Qed.

(** Debiting and crediting one account changes nothing. *)
Lemma credit_debit_self m addr x amt :
  m !! LedgerKeyAccount addr = Some x -> acct_Address x = addr -> in_u256 (acct_Balance x) ->
  credit (debit m addr amt) addr amt = store_acct m x.
Proof.
  intros Hx Ha Hb. unfold credit, debit, bal. rewrite (acct_at_some m addr x Hx).
  rewrite acct_at_store_eq by done. unfold store_acct; cbn. rewrite insert_insert_eq. f_equal.
  unfold uadd. replace (acct_Balance x - amt + amt) with (acct_Balance x) by lia.
  rewrite u256_id by done. now destruct x.
Qed.

(** Finding the receiver of a transfer while holding the sender. *)
Lemma wp_find_receiver {B} s m from x0 l0 to (k : loc -> M ACtrler B) Q :
  ainv ∅ s m -> length to = AddrSize -> m !! LedgerKeyAccount from = Some x0 -> cheld s l0 x0 ->
  cached (acctState s) !! LedgerKeyAccount from = Some l0 ->
  (forall l1 s1, ainv ∅ s1 m -> cheld s1 l0 x0 -> cheld s1 l1 (acct_at m to) ->
    (from = to -> l1 = l0) -> wp (k l1) Q s1) ->
  wp (let! r1 := findAccount to true in
      let! acct1 := (match r1 with
                     | Some l => ret l
                     | None => a_alloc (NewAccountWithName to [])
                     end) in k acct1) Q s.
Proof.
  intros HI Ht E0 Hl0 Hc0 HQ. apply wp_bind, (wp_findAccount s m to _ HI).
  intros r1 s1 HI1 Hk1 En1. unfold acct_at in HQ.
  destruct (m !! LedgerKeyAccount to) as [x1|] eqn:E1.
  - intros (l1 & -> & Hl1 & _ & Hsame). apply wp_bind, wp_ret, HQ; auto.
    intros <-. symmetry. now apply Hsame.
  - intros [-> ->]. apply wp_bind, (wp_a_alloc s m); [done|now apply acct_wf_new|].
    intros l1 s' HI' Hl1 Hf' _. apply HQ; auto. intros <-. congruence.
Qed.

Lemma ctrl_Transfer_spec s m from to amt :
  ainv ∅ s m -> length to = AddrSize -> 0 <= amt < 2 ^ 255 ->
  wp (ctrl_Transfer from to amt true) (fun o s' =>
    match m !! LedgerKeyAccount from with
    | None => o = Err (Wrapf ErrNotFoundAccount "Transfer - address: %v") /\ ainv ∅ s' m
    | Some a =>
        if acct_Balance a <? amt then o = Err ErrInsufficientFund /\ ainv ∅ s' m
        else o = Ok tt /\ ainv ∅ s' (credit (debit m from amt) to amt)
    end) s.
Proof.
  intros HI Ht Hamt. unfold ctrl_Transfer. apply wp_bind, (wp_findAccount s m from _ HI).
  intros r0 s0 HI0 Hk0 En0. destruct (m !! LedgerKeyAccount from) as [x0|] eqn:E0;
    [|intros [-> ->]; now apply wp_throw].
  intros (l0 & -> & Hl0 & Hc0 & _).
  destruct (acct_key_ok m s0 ∅ _ _ (ainv_coh _ _ _ HI0) E0) as [Ha0 Hwf0].
  apply LedgerKeyAccount_inj in Ha0.
  apply (wp_find_receiver s0 m from x0 l0 to); try done. intros l1 s1 HI1 Hl01 Hl1 Hsame.
  destruct (Z.ltb_spec (acct_Balance x0) amt) as [Hlt|Hle].
  - unfold transfer. apply wp_bind, wp_bind.
    now apply (wp_a_update_err s1 l0 x0 _ ErrInsufficientFund _ Hl01 (SubBalance_short _ _ Hamt Hlt)).
  - destruct (decide (from = to)) as [->|Hne].
    + rewrite (Hsame eq_refl). apply (wp_transfer_self s1 m l0 x0); try done.
      intros s2 HI2. split; [done|].
      rewrite (credit_debit_self m to x0); [done|done|done|apply (wf_balance _ Hwf0)].
    + destruct (acct_at_wf m s1 to HI1 Ht) as [Hwf1 Ha1].
      apply (wp_transfer_ne s1 m l0 x0 l1 (acct_at m to)); try done; [congruence|].
      intros s2 HI2. split; [done|]. unfold credit, debit, bal.
      rewrite (acct_at_some m from x0 E0). rewrite acct_at_store_ne by (cbn; congruence). exact HI2.
Qed.

Lemma ctrl_AddBalance_spec s m addr amt :
  ainv ∅ s m -> length addr = AddrSize -> 0 <= amt < 2 ^ 255 ->
  wp (ctrl_AddBalance addr amt true) (okQ (fun _ s' =>
    ainv ∅ s' (credit m addr amt) /\
    forall l y, cheld s l y -> acct_Address y <> addr -> cheld s' l y)) s.
Proof.
  intros HI Ha Hamt. apply wp_bind, (wp_find_or_alloc s m addr _ HI Ha).
  intros l s1 HI1 Hl Hf1 En1. destruct (acct_at_wf m s1 addr HI1 Ha) as [Hwf Haddr].
  apply (wp_update_set s1 m l (acct_at m addr) _
    (SetBalance (acct_at m addr) (uadd (bal m addr) amt))); try done.
  - now apply AddBalance_ok.
  - apply acct_wf_SetBalance; [done|apply u256_range].
  - intros s2 HI2 _ Hf2 _. split; [done|]. intros l' y Hy Hne. apply Hf2; auto. congruence.
Qed.

Lemma ctrl_Reward_spec s m addr amt :
  ainv ∅ s m -> 0 <= amt < 2 ^ 255 ->
  wp (ctrl_Reward addr amt true) (fun o s' =>
    match m !! LedgerKeyAccount addr with
    | Some _ => o = Ok tt /\ ainv ∅ s' (credit m addr amt) /\
        (forall l y, cheld s l y -> acct_Address y <> addr -> cheld s' l y)
    | None => o = Err (Wrapf ErrNotFoundAccount "Reward - address: %v") /\ ainv ∅ s' m
    end) s.
Proof.
  intros HI Hamt. unfold ctrl_Reward. apply wp_bind, (wp_findAccount s m addr _ HI).
  intros r s1 HI1 Hf1 En1. destruct (m !! LedgerKeyAccount addr) as [x|] eqn:Ex;
    [|intros [-> ->]; now apply wp_throw].
  intros (l & -> & Hl & _).
  destruct (acct_key_ok m s1 ∅ _ _ (ainv_coh _ _ _ HI1) Ex) as [Ha Hwf].
  apply LedgerKeyAccount_inj in Ha.
  apply (wp_update_set s1 m l x _ (SetBalance x (uadd (acct_Balance x) amt))); try done.
  - now apply AddBalance_ok.
  - apply acct_wf_SetBalance; [done|apply u256_range].
  - intros s2 HI2 _ Hf2 _. split; [done|]. split.
    + unfold credit, bal. now rewrite (acct_at_some m addr x Ex).
    + intros l' y Hy Hne. apply Hf2; auto. congruence.
Qed.

Lemma ctrl_FindOrNew_spec s m addr :
  ainv ∅ s m -> length addr = AddrSize ->
  wp (ctrl_FindOrNewAccount addr true) (okQ (fun l s' =>
    ainv ∅ s' m /\ (forall l x, cheld s l x -> cheld s' l x) /\
    exists x, cheld s' l x /\ acct_Address x = addr /\
      forall y, m !! LedgerKeyAccount addr = Some y -> x = y)) s.
Proof.
  intros HI Ha. unfold ctrl_FindOrNewAccount. apply wp_bind, (wp_findAccount s m addr _ HI).
  intros r s1 HI1 Hf1 En1. destruct (m !! LedgerKeyAccount addr) as [x|] eqn:Ex.
  - intros (l & -> & Hl & _). apply wp_ret. split; [done|]. split; [done|].
    destruct (acct_key_ok m s1 ∅ _ _ (ainv_coh _ _ _ HI1) Ex) as [Hk _].
    apply LedgerKeyAccount_inj in Hk. exists x. split; [done|]. split; [done|]. congruence.
  - intros [-> ->]. apply wp_bind, wp_lift. unfold ToAcctKey. rewrite Ha, Nat.ltb_irrefl.
    rewrite <- Ha, take_ge by done. apply wp_bind, wp_gets. cbn [newbies].
    destruct (newbiesDeliver s !! addr) as [l|] eqn:El.
    + apply wp_ret. destruct (ainv_newbies _ _ _ HI addr l El) as (x & Hx & Hax).
      split; [done|]. split; [done|]. exists x. split; [done|]. split; [done|]. congruence.
    + apply wp_bind, (wp_a_alloc s m); [done|now apply acct_wf_new|].
      intros l s2 HI2 Hl Hf2 En2. apply wp_bind, wp_modify, wp_ret.
      split; [|split; [done|]].
      * split; [apply HI2|]. intros a l'. cbn. intros Hl'.
        apply lookup_insert_Some in Hl' as [[<- <-]|[_ Hl']]; [eexists; split; [exact Hl|done]|].
        now apply (ainv_newbies _ _ _ HI2).
      * eexists. split; [exact Hl|]. split; [done|]. congruence.
Qed.

#[export, refine] Instance AcctCtrler_laws : IAccountLaws ACtrler := {
  accts := ainv ∅;
  aheld := cheld;
}.
Proof.
  - intros s m k a HI. apply (acct_key_ok m s ∅), (ainv_coh _ _ _ HI).
  - intros s l x Hl. apply Hl.
  - intros s l x Hl. unfold acct_get; cbn. pose proof (wp_a_deref s l x (fun o s' => o = Ok x /\ s' = s) Hl) as Hw.
    destruct Hw as [Hw1 Hw2]; [done|]. now apply injective_projections.
  - intros s m addr HI Ha. apply (wp_findAccount s m addr _ HI). intros r s' HI' Hf _ Hr.
    split; [done|]. split; [done|].
    destruct (m !! LedgerKeyAccount addr); [destruct Hr as (l & Hr1 & Hr2 & _); eauto|tauto].
  - intros s m addr. apply ctrl_FindOrNew_spec.
  - intros s m l x f x' HI Hl Hf Hwf Ha.
    now apply (wp_update_set s m l x f x').
  - intros s m addr amt. apply ctrl_AddBalance_spec.
  - intros s m addr amt HI _. now apply ctrl_Reward_spec.
  - intros s m from to amt HI _. now apply ctrl_Transfer_spec.
Defined.

End AcctSpec.
