(* ===== verification/AcctProps.v ===== *)
(** * AcctProps: transfers, fees and account objects

    Coins are neither created nor lost by the account controller: a transfer
    keeps the total, the fee distribution adds exactly the fees collected, and
    one address has one object in a block. *)
From stdpp Require Import base gmap list strings.
From Stdlib Require Import ZArith Lia.
From S2P Require Import Prelude XErrors GoMonad LedgerKeys Iavl Ledger LedgerSpec LedgerOps.
From S2P Require Import Units Proto GovParams Account TrxTypes AcctCtrler AcctSpec.

(** The sum of all stored balances. *)
Definition total (m : accts_map) : Z := msum (fun _ a => acct_Balance a) m.

(** What the stored accounts satisfy. *)
Definition accts_ok `{Utf8} (m : accts_map) : Prop :=
  forall k a, m !! k = Some a -> k = LedgerKeyAccount (acct_Address a) /\ acct_wf a.

Section Totals.
Context `{Utf8}.
Implicit Types m : accts_map.

Lemma bal_at_key m addr : bal m addr = at_key (fun _ a => acct_Balance a) m (LedgerKeyAccount addr).
Proof. unfold bal, acct_at, at_key. now destruct (m !! LedgerKeyAccount addr). Qed.

Lemma total_store m a :
  total (store_acct m a) = total m - bal m (acct_Address a) + acct_Balance a.
Proof. unfold total, store_acct. rewrite msum_insert, bal_at_key. lia. Qed.

Lemma bal_store m a addr :
  bal (store_acct m a) addr = if bool_decide (addr = acct_Address a) then acct_Balance a else bal m addr.
Proof.
  unfold bal. case_bool_decide as E.
  - now rewrite acct_at_store_eq.
  - now rewrite acct_at_store_ne.
Qed.

Lemma bal_nonneg m addr : accts_ok m -> 0 <= bal m addr.
Proof.
  intros Hok. unfold bal, acct_at. destruct (m !! LedgerKeyAccount addr) as [a|] eqn:E; cbn; [|lia].
  destruct (Hok _ _ E) as [_ Hwf]. apply (wf_balance _ Hwf).
Qed.

Lemma total_nonneg m : accts_ok m -> 0 <= total m.
Proof.
  intros Hok. apply msum_nonneg. intros k a Hk. destruct (Hok k a Hk) as [_ Hwf].
  apply (wf_balance _ Hwf).
Qed.

Lemma bal_le_total m addr : accts_ok m -> bal m addr <= total m.
Proof.
  intros Hok. unfold total. rewrite bal_at_key.
  assert (0 <= msum (fun _ a => acct_Balance a) (delete (LedgerKeyAccount addr) m)) as Hd.
  { apply msum_nonneg. intros k a Hk. apply lookup_delete_Some in Hk as [_ Hk].
    destruct (Hok k a Hk) as [_ Hwf]. apply (wf_balance _ Hwf). }
  rewrite msum_delete in Hd. lia.
Qed.

Lemma acct_at_Address m addr : accts_ok m -> acct_Address (acct_at m addr) = addr.
Proof.
  intros Hok. unfold acct_at. destruct (m !! LedgerKeyAccount addr) as [a|] eqn:E; [|done].
  destruct (Hok _ _ E) as [Hk _]. now apply LedgerKeyAccount_inj in Hk.
Qed.

Lemma credit_total m addr amt :
  accts_ok m -> 0 <= amt -> bal m addr + amt < 2 ^ 256 -> total (credit m addr amt) = total m + amt.
Proof.
  intros Hok Ha Hlt. pose proof (bal_nonneg m addr Hok). unfold credit. rewrite total_store. cbn.
  rewrite acct_at_Address by done. unfold uadd. rewrite u256_id by (unfold in_u256; lia). lia.
Qed.

Lemma credit_bal m addr amt addr' :
  accts_ok m -> 0 <= amt -> bal m addr + amt < 2 ^ 256 ->
  bal (credit m addr amt) addr' = bal m addr' + (if bool_decide (addr' = addr) then amt else 0).
Proof.
  intros Hok Ha Hlt. pose proof (bal_nonneg m addr Hok). unfold credit. rewrite bal_store. cbn.
  rewrite acct_at_Address by done. case_bool_decide as E; [subst|lia].
  unfold uadd. rewrite u256_id by (unfold in_u256; lia). lia.
Qed.

Lemma debit_total m addr amt : accts_ok m -> total (debit m addr amt) = total m - amt.
Proof.
  intros Hok. unfold debit. rewrite total_store. cbn. rewrite acct_at_Address by done. lia.
Qed.

Lemma debit_bal m addr amt addr' :
  accts_ok m ->
  bal (debit m addr amt) addr' = bal m addr' - (if bool_decide (addr' = addr) then amt else 0).
Proof.
  intros Hok. unfold debit. rewrite bal_store. cbn. rewrite acct_at_Address by done.
  case_bool_decide as E; [subst|]; lia.
Qed.

Lemma accts_ok_store m a : accts_ok m -> acct_wf a -> accts_ok (store_acct m a).
Proof.
  intros Hok Ha k b Hk. unfold store_acct in Hk. apply lookup_insert_Some in Hk as [[<- <-]|[_ Hk]]; [done|now apply Hok].
Qed.

Lemma acct_at_ok m addr : accts_ok m -> length addr = AddrSize -> acct_wf (acct_at m addr).
Proof.
  intros Hok Ha. unfold acct_at. destruct (m !! LedgerKeyAccount addr) as [a|] eqn:E; cbn.
  - now apply (Hok _ _ E).
  - now apply acct_wf_new.
Qed.

Lemma accts_ok_credit m addr amt :
  accts_ok m -> length addr = AddrSize -> accts_ok (credit m addr amt).
Proof.
  intros Hok Ha. apply accts_ok_store; [done|].
  apply acct_wf_SetBalance; [now apply acct_at_ok|apply u256_range].
Qed.

Lemma accts_ok_debit m addr amt :
  accts_ok m -> length addr = AddrSize -> 0 <= amt <= bal m addr -> accts_ok (debit m addr amt).
Proof.
  intros Hok Ha Hamt. apply accts_ok_store; [done|]. pose proof (acct_at_ok m addr Hok Ha) as Hwf.
  apply acct_wf_SetBalance; [done|]. pose proof (wf_balance _ Hwf). unfold bal, in_u256 in *. lia.
Qed.

End Totals.

Section AcctProps.
Context {T I : Type} `{Iavl T I, !IavlLaws T I}.
Context `{Utf8, Proto AcctProto, !ProtoLaws AcctProto AcctProto_ok}.
Implicit Types (s : AcctCtrler T I) (m : accts_map).

Lemma ainv_accts_ok D s m : ainv D s m -> accts_ok m.
Proof. intros HI k a. apply (acct_key_ok m s D), (ainv_coh _ _ _ HI). Qed.

(** A transfer of the account controller never panics; when it succeeds it
    moves exactly the amount from the sender to the receiver, leaves every
    other balance alone and keeps the total of all balances, also when sender
    and receiver are the same; when it fails no stored account changes.  The
    total of the balances is assumed to fit in 256 bits. *)
Theorem Transfer_conserves s m from to amt :
  ainv ∅ s m -> length from = AddrSize -> length to = AddrSize ->
  0 <= amt < 2 ^ 255 -> total m < 2 ^ 256 ->
  wp (ctrl_Transfer from to amt true) (fun o s' =>
    match o with
    | Ok _ => exists m', ainv ∅ s' m' /\ total m' = total m /\
        forall a, bal m' a = bal m a - (if bool_decide (a = from) then amt else 0)
                                     + (if bool_decide (a = to) then amt else 0)
    | Err _ => ainv ∅ s' m
    | Panic => False
    end) s.
Proof.
  intros HI Hf Ht Hamt Htot. pose proof (ainv_accts_ok _ _ _ HI) as Hok.
  eapply wp_mono; [exact (ctrl_Transfer_spec s m from to amt HI Ht Hamt)|].
  intros o s'. cbn beta. destruct (m !! LedgerKeyAccount from) as [x|] eqn:Ex; [|now intros [-> ?]].
  destruct (Z.ltb_spec (acct_Balance x) amt) as [|Hle]; [now intros [-> ?]|].
  intros [-> HI']. eexists; split; [exact HI'|].
  assert (Hb : bal m from = acct_Balance x) by (unfold bal; now rewrite (acct_at_some m from x Ex)).
  assert (Hokd : accts_ok (debit m from amt)) by (apply accts_ok_debit; auto; lia).
  assert (Hto : bal (debit m from amt) to + amt < 2 ^ 256).
  { pose proof (bal_le_total (debit m from amt) to Hokd). rewrite debit_total in * by done. lia. }
  split.
  - rewrite credit_total, debit_total by (done || lia). lia.
  - intros a. rewrite credit_bal by (done || lia). now rewrite debit_bal.
Qed.

(** The accounts of the genesis asset holders. *)
Definition genesis_accts (holders : list (Address * Z)) m : accts_map :=
  foldl (fun m h => store_acct m (MkAccount (fst h) [] 0 (snd h) [] [])) m holders.

Lemma InitLedger_spec holders s m :
  ainv ∅ s m -> Forall (fun h => length (fst h) = AddrSize /\ in_u256 (snd h)) holders ->
  wp (acct_InitLedger holders) (okQ (fun _ s' => ainv ∅ s' (genesis_accts holders m))) s.
Proof.
  intros HI Hok. revert s m HI. induction Hok as [|h holders [Ha Hb] _ IH]; intros s m HI.
  { now apply wp_ret. }
  set (a := MkAccount (fst h) [] 0 (snd h) [] []).
  assert (Hwf : acct_wf a)
    by (split; cbn; auto using valid_utf8_nil; unfold in_i64; lia).
  apply wp_bind, wp_bind, (wp_a_alloc s m a _ HI Hwf). intros l s1 HI1 Hl _ _.
  apply (wp_setAccount ∅ s1 m l a); [done|done|]. intros s2 HI2 _ _ _.
  rewrite dirty_nil in HI2. exact (IH s2 _ HI2).
Qed.

(** Looking an address up or creating it gives one object per address: two
    calls in a block return the same pointer, so the sender and the receiver of
    a transaction to oneself are one object. *)
Theorem FindOrNewAccount_same s m addr :
  ainv ∅ s m -> length addr = AddrSize ->
  wp (let! l1 := ctrl_FindOrNewAccount addr true in
      let! l2 := ctrl_FindOrNewAccount addr true in
      ret (l1, l2)) (okQ (fun ls s' => fst ls = snd ls /\ ainv ∅ s' m)) s.
Proof.
  intros HI Ha. unfold ctrl_FindOrNewAccount.
  assert (Hkey : ToAcctKey addr = Ok addr).
  { unfold ToAcctKey. rewrite Ha, Nat.ltb_irrefl, <- Ha, take_ge by done. done. }
  rewrite Hkey. apply wp_bind, wp_bind, (wp_findAccount s m addr _ HI).
  intros r s1 HI1 _ En1. destruct (m !! LedgerKeyAccount addr) as [x|] eqn:Ex.
  - intros (l & -> & Hl & Hc & _). apply wp_ret, wp_bind, wp_bind, (wp_findAccount s1 m addr _ HI1).
    intros r2 s2 HI2 _ _. rewrite Ex. intros (l2 & -> & _ & _ & Hs). apply wp_ret, wp_ret.
    split; [|done]. cbn. now apply Hs.
  - intros [-> ->]. apply wp_bind, wp_lift, wp_bind, wp_gets. cbn [newbies].
    assert (Hagain : forall l s2, ainv ∅ s2 m -> newbiesDeliver s2 !! addr = Some l ->
      wp (let! l2 := ctrl_FindOrNewAccount addr true in ret (l, l2))
        (okQ (fun ls s' => fst ls = snd ls /\ ainv ∅ s' m)) s2).
    { intros l s2 HI2 El. unfold ctrl_FindOrNewAccount. rewrite Hkey.
      apply wp_bind, wp_bind, (wp_findAccount s2 m addr _ HI2). intros r3 s3 HI3 _ _. rewrite Ex.
      intros [-> ->]. apply wp_bind, wp_lift, wp_bind, wp_gets. cbn [newbies]. rewrite El.
      now apply wp_ret, wp_ret. }
    unfold ctrl_FindOrNewAccount in Hagain. rewrite Hkey in Hagain.
    destruct (newbiesDeliver s !! addr) as [l|] eqn:El; [now apply wp_ret, Hagain|].
    apply wp_bind, (wp_a_alloc s m); [done|now apply acct_wf_new|].
    intros l s2 HI2 Hl Hf2 En2. apply wp_bind, wp_modify, wp_ret, Hagain.
    + split; [apply HI2|]. intros a l'. cbn. intros Hl'.
      apply lookup_insert_Some in Hl' as [[<- <-]|[_ Hl']]; [eexists; split; [exact Hl|done]|].
      now apply (ainv_newbies _ _ _ HI2).
    + cbn. now rewrite lookup_insert_eq.
Qed.

End AcctProps.

Section Fees.
Context {A : Type} `{IAccountHandler A, Utf8, !IAccountLaws A}.

(** The part of the fees that goes to the proposer. *)
Definition fee_reward (gp : GovParamsProto) (sumFee : Z) : Z :=
  sumFee * GovParams.TxFeeRewardRate gp / 100.

(** C16. At the end of a block every collected fee reaches an account: the
    proposer gets the configured percentage rounded down, the dead address the
    rest, and the total of all balances grows by exactly the fees.  This holds
    for every account handler that satisfies the handler's laws. *)
Theorem EndBlock_distributes_fees (gp : GovParamsProto) proposer sumFee (s : A) m :
  accts s m -> length proposer = AddrSize -> length (GovParams.DeadAddress gp) = AddrSize ->
  0 <= GovParams.TxFeeRewardRate gp <= 100 -> 0 < sumFee -> total m + sumFee < 2 ^ 248 ->
  wp (acct_EndBlock gp proposer sumFee) (okQ (fun _ s' => exists m',
    accts s' m' /\ total m' = total m + sumFee /\
    forall a, bal m' a = bal m a + (if bool_decide (a = proposer) then fee_reward gp sumFee else 0)
      + (if bool_decide (a = GovParams.DeadAddress gp) then sumFee - fee_reward gp sumFee else 0))) s.
Proof.
  intros HA Hp Hd Hr Hfee Htot. unfold acct_EndBlock.
  assert (Hok : accts_ok m) by (intros k a; apply (accts_wf s m k a HA)).
  pose proof (total_nonneg m Hok).
  replace (bytes_Equal proposer []) with false by (symmetry; apply bool_decide_false; now intros ->).
  assert (Hs : uSign sumFee = 1).
  { unfold uSign. destruct (Z.eqb_spec sumFee 0); [lia|].
    destruct (Z.ltb_spec sumFee (2 ^ 255)); [done|lia]. }
  rewrite Hs; cbn [negb andb Z.ltb Z.compare].
  assert (Hrw : udiv (umul sumFee (u256_of_int (GovParams.TxFeeRewardRate gp))) 100
                = fee_reward gp sumFee).
  { unfold udiv, umul, u256_of_int, u64, fee_reward. cbn [Z.eqb].
    rewrite Z.mod_small by lia. rewrite u256_id; [done|]. unfold in_u256. nia. }
  assert (Hle : 0 <= fee_reward gp sumFee <= sumFee).
  { unfold fee_reward. split; [apply Z.div_pos; nia|]. apply Z.div_le_upper_bound; nia. }
  rewrite Hrw. unfold usub. rewrite u256_id by (unfold in_u256; lia).
  set (rw := fee_reward gp sumFee) in *.
  apply wp_bind. eapply wp_mono; [apply (AddBalance_law s m); [done|done|lia]|].
  intros [[]|e|] s1; unfold okQ at 1; try done. intros [HA1 _].
  eapply wp_mono; [apply (AddBalance_law s1 (credit m proposer rw)); [done|done|lia]|].
  intros [[]|e|] s2; unfold okQ at 1; try done. intros [HA2 _].
  pose proof (bal_le_total m proposer Hok).
  assert (Hok1 : accts_ok (credit m proposer rw)) by now apply accts_ok_credit.
  pose proof (bal_le_total _ (GovParams.DeadAddress gp) Hok1).
  rewrite credit_total in * by (done || lia).
  eexists. split; [exact HA2|]. split.
  - rewrite !credit_total by (done || lia). lia.
  - intros a. rewrite credit_bal by (done || lia). now rewrite credit_bal by (done || lia).
Qed.

End Fees.

(** ** Witnesses *)

Module AcctWitness.

#[local] Instance w_utf8 : Utf8 := Any_utf8.
#[local] Instance w_proto : Proto AcctProto := Countable_proto.
#[local] Instance w_laws : ProtoLaws AcctProto AcctProto_ok := Countable_proto_laws AcctProto_ok.

Abbreviation wstate := (AcctCtrler RefTree.tree (gmap bytes bytes)).

Definition empty : wstate :=
  MkAcctCtrler
    (MkLState empty_store
       (MkStateLedger (MkMutableLedger RefTree.empty [] ∅) (MkMemLedger (Some ∅) ∅ []))) ∅ ∅.

Lemma empty_inv : ainv ∅ empty ∅.
Proof.
  split; [|intros a l Hl; cbn in Hl; now rewrite lookup_empty in Hl].
  split; cbn; try done. constructor.
Qed.

Definition alice : Address := repeat 1 20.
Definition bob : Address := repeat 2 20.
Definition holders : list (Address * Z) := [(alice, 100); (bob, 7)].

Definition start : wstate := snd (acct_InitLedger holders empty).
Definition start_map : accts_map := genesis_accts holders ∅.

Lemma start_inv : ainv ∅ start start_map.
Proof.
  pose proof (InitLedger_spec holders empty ∅ empty_inv) as Hw.
  unfold wp in Hw. destruct (fst (acct_InitLedger holders empty)) eqn:E.
  - apply Hw. repeat constructor; vm_compute; congruence.
  - exfalso. vm_compute in E. congruence.
  - exfalso. vm_compute in E. congruence.
Qed.

Lemma Transfer_conserves_witness :
  exists m', ainv ∅ (snd (ctrl_Transfer alice bob 30 true start)) m' /\
    total m' = 107 /\ bal m' alice = 70 /\ bal m' bob = 37.
Proof.
  pose proof (Transfer_conserves start start_map alice bob 30 start_inv eq_refl eq_refl
    ltac:(lia) ltac:(vm_compute; reflexivity)) as Hw.
  unfold wp in Hw.
  assert (E : fst (ctrl_Transfer alice bob 30 true start) = Ok tt) by (vm_compute; reflexivity).
  rewrite E in Hw. destruct Hw as (m' & HI & Ht & Hb). exists m'.
  split; [exact HI|]. rewrite Ht, !Hb. vm_compute. auto.
Defined.

Lemma FindOrNewAccount_same_witness :
  wp (let! l1 := ctrl_FindOrNewAccount (repeat 3 20) true in
      let! l2 := ctrl_FindOrNewAccount (repeat 3 20) true in
      ret (l1, l2)) (okQ (fun ls _ => fst ls = snd ls)) start.
Proof.
  eapply wp_mono; [exact (FindOrNewAccount_same start start_map (repeat 3 20) start_inv eq_refl)|].
  intros [ls|e|] s' Hls; [exact (proj1 Hls)|destruct Hls|destruct Hls].
Defined.

Lemma EndBlock_distributes_fees_witness :
  wp (acct_EndBlock GovParams.DefaultGovParams alice 1000) (okQ (fun _ s' => exists m',
    accts s' m' /\ total m' = 1107 /\ bal m' alice = 1000 /\ bal m' DeadAddress = 100)) start.
Proof.
  assert (HA0 : accts start start_map) by exact start_inv.
  eapply wp_mono; [apply (EndBlock_distributes_fees GovParams.DefaultGovParams alice 1000 start
    start_map HA0); first [reflexivity | vm_compute; split; congruence | vm_compute; reflexivity]|].
  intros [[]|e|] s' Hs; [|destruct Hs|destruct Hs]. destruct Hs as (m' & HA & Ht & Hb).
  exists m'. split; [exact HA|]. rewrite Ht, !Hb. vm_compute. auto.
Defined.

End AcctWitness.
