(* ===== verification/VPowerItems.v ===== *)
(** * VPowerItems: voting power, delegatees and frozen power

    [ctrlers/vpower/vpower.go], [delegatee.go], [vpower_frozen.go] and the
    missed-block counter: the items of the voting-power ledger and their
    operations.  Powers are [int64] and wrap; the invariants are stated modulo
    [2^64] so that they hold without assuming that no sum overflows. *)
From stdpp Require Import base gmap list strings countable.
From Stdlib Require Import ZArith Lia.
From S2P Require Import Prelude XErrors GoMonad LedgerKeys Ledger LedgerSpec Proto Signer.

(** The message [PowerChunkProto]: the power bonded by one transaction. *)
Record PowerChunk := MkPowerChunk {
  pc_Power : Z;
  pc_Height : Z;
  pc_TxHash : bytes;
}.

#[global] Instance PowerChunk_eq_dec : EqDecision PowerChunk.
Proof. solve_decision. Defined.

#[global] Program Instance PowerChunk_countable : Countable PowerChunk :=
  inj_countable' (fun c => (pc_Power c, pc_Height c, pc_TxHash c))
    (fun '(p, h, t) => MkPowerChunk p h t) _.
Next Obligation. now intros []. Qed.

(** The powers of a list of chunks. *)
Definition chunk_sum (pcs : list PowerChunk) : Z := zsum (map pc_Power pcs).

(** ** VPower *)

Record VPower := MkVPower {
  v_SumPower : Z;
  v_PowerChunks : list PowerChunk;
  v_key : LedgerKey;
  v_from : Address;
  v_to : Address;
}.

#[global] Instance VPower_eq_dec : EqDecision VPower.
Proof. solve_decision. Defined.

Definition NewVPower (from to : Address) : VPower :=
  MkVPower 0 [] (LedgerKeyVPower from to) from to.

Definition IsSelfPower (x : VPower) : bool := bytes_Equal (v_from x) (v_to x).

Definition findPowerChunk (x : VPower) (txhash : bytes) : option PowerChunk :=
  find (fun pc => bytes_Equal (pc_TxHash pc) txhash) (v_PowerChunks x).

Definition addPowerWithTxHash (x : VPower) (pow height : Z) (txhash : bytes) : VPower :=
  MkVPower (i64 (v_SumPower x + pow))
    (v_PowerChunks x ++ [MkPowerChunk pow height txhash]) (v_key x) (v_from x) (v_to x).

(** Remove the last element that satisfies [f], as a loop from the end does. *)
Fixpoint remove_last {A} (f : A -> bool) (l : list A) : option (A * list A) :=
  match l with
  | [] => None
  | x :: l' =>
      match remove_last f l' with
      | Some (y, l'') => Some (y, x :: l'')
      | None => if f x then Some (x, l') else None
      end
  end.

Definition delPowerWithTxHash (x : VPower) (txhash : bytes) : option PowerChunk * VPower :=
  match remove_last (fun pc => bytes_Equal txhash (pc_TxHash pc)) (v_PowerChunks x) with
  | Some (pc, rest) =>
      (Some pc, MkVPower (i64 (v_SumPower x - pc_Power pc)) rest (v_key x) (v_from x) (v_to x))
  | None => (None, x)
  end.

(** [sumPowerChunk], with the loop's accumulator at its width. *)
Definition sumPowerChunk (x : VPower) : Z :=
  fold_left (fun acc pc => i64 (acc + pc_Power pc)) (v_PowerChunks x) 0.

(** ** Delegatee *)

Record Delegatee := MkDelegatee {
  d_PubKey : bytes;
  d_Delegators : list Address;
  d_SumPower : Z;
  d_SelfPower : Z;
  d_key : LedgerKey;
  d_addr : Address;
}.

#[global] Instance Delegatee_eq_dec : EqDecision Delegatee.
Proof. solve_decision. Defined.

Definition NewDelegatee `{CryptoLib} (pubKey : bytes) : Delegatee :=
  let addr := PubKeyBytes2Addr pubKey in
  MkDelegatee pubKey [] 0 0 (LedgerKeyDelegatee addr) addr.

Definition addPower (x : Delegatee) (from : Address) (pow : Z) : Delegatee :=
  MkDelegatee (d_PubKey x) (d_Delegators x) (i64 (d_SumPower x + pow))
    (if bytes_Equal from (d_addr x) then i64 (d_SelfPower x + pow) else d_SelfPower x)
    (d_key x) (d_addr x).

Definition delPower (x : Delegatee) (from : Address) (pow : Z) : Delegatee :=
  MkDelegatee (d_PubKey x) (d_Delegators x) (i64 (d_SumPower x - pow))
    (if bytes_Equal from (d_addr x) then i64 (d_SelfPower x - pow) else d_SelfPower x)
    (d_key x) (d_addr x).

Definition hasDelegator (x : Delegatee) (from : Address) : bool :=
  existsb (fun d => bytes_Equal d from) (d_Delegators x).

Definition with_delegators (x : Delegatee) (ds : list Address) : Delegatee :=
  MkDelegatee (d_PubKey x) ds (d_SumPower x) (d_SelfPower x) (d_key x) (d_addr x).

Definition addDelegator (x : Delegatee) (from : Address) : Delegatee :=
  if hasDelegator x from then x else with_delegators x (d_Delegators x ++ [from]).

Definition delDelegator (x : Delegatee) (from : Address) : Delegatee :=
  match remove_last (fun d => bytes_Equal d from) (d_Delegators x) with
  | Some (_, rest) => with_delegators x rest
  | None => x
  end.

Definition findDelegateeByAddr (addr : Address) (dgtees : list Delegatee) : option Delegatee :=
  find (fun v => bytes_Equal (d_addr v) addr) dgtees.

Definition findDelegateeByPubKey (pubKey : bytes) (dgtees : list Delegatee) : option Delegatee :=
  find (fun v => bytes_Equal (d_PubKey v) pubKey) dgtees.

(** [OrderByPowerDelegatees.Less] *)
Definition power_less (a b : Delegatee) : bool :=
  if negb (d_SumPower a =? d_SumPower b) then d_SumPower b <? d_SumPower a
  else if negb (d_SelfPower a =? d_SelfPower b) then d_SelfPower b <? d_SelfPower a
  else bytes_Compare (d_PubKey a) (d_PubKey b) <? 0.

(** [OrderByPubDelegatees.Less] *)
Definition pub_less (a b : Delegatee) : bool := bytes_Compare (d_PubKey a) (d_PubKey b) <? 0.

(** ** FrozenVPower *)

Record FrozenVPower := MkFrozenVPower {
  f_RefundPower : Z;
  f_PowerChunks : list PowerChunk;
}.

#[global] Instance FrozenVPower_eq_dec : EqDecision FrozenVPower.
Proof. solve_decision. Defined.

Definition newFrozenVPower (power : Z) : FrozenVPower := MkFrozenVPower power [].

(** The loop adds the powers one by one. *)
Definition appendPowerChunks (x : FrozenVPower) (pcs : list PowerChunk) : FrozenVPower :=
  fold_left (fun f pc => MkFrozenVPower (i64 (f_RefundPower f + pc_Power pc))
                           (f_PowerChunks f ++ [pc])) pcs x.

(** ** Items of the ledger *)

Inductive VItem : Type :=
| IVPower (x : VPower)
| IDelegatee (x : Delegatee)
| IFrozen (x : FrozenVPower)
| IBlockCount (c : Z).

#[global] Instance VItem_eq_dec : EqDecision VItem.
Proof. solve_decision. Defined.

(** The messages generated from the [.proto] files. *)
Record VPowerProto := MkVPowerProto { vpp_SumPower : Z; vpp_PowerChunks : list PowerChunk }.
Record DelegateeProto := MkDelegateeProto {
  dp_PubKey : bytes;
  dp_Delegators : list bytes;
  dp_SumPower : Z;
  dp_SelfPower : Z;
}.
Record FrozenVPowerProto := MkFrozenVPowerProto {
  fp_RefundPower : Z;
  fp_PowerChunks : list PowerChunk;
}.

#[global] Instance VPowerProto_eq_dec : EqDecision VPowerProto.
Proof. solve_decision. Defined.
#[global] Program Instance VPowerProto_countable : Countable VPowerProto :=
  inj_countable' (fun m => (vpp_SumPower m, vpp_PowerChunks m))
    (fun '(s, c) => MkVPowerProto s c) _.
Next Obligation. now intros []. Qed.
#[global] Instance DelegateeProto_eq_dec : EqDecision DelegateeProto.
Proof. solve_decision. Defined.
#[global] Program Instance DelegateeProto_countable : Countable DelegateeProto :=
  inj_countable' (fun m => (dp_PubKey m, dp_Delegators m, dp_SumPower m, dp_SelfPower m))
    (fun '(p, d, s, e) => MkDelegateeProto p d s e) _.
Next Obligation. now intros []. Qed.
#[global] Instance FrozenVPowerProto_eq_dec : EqDecision FrozenVPowerProto.
Proof. solve_decision. Defined.
#[global] Program Instance FrozenVPowerProto_countable : Countable FrozenVPowerProto :=
  inj_countable' (fun m => (fp_RefundPower m, fp_PowerChunks m))
    (fun '(s, c) => MkFrozenVPowerProto s c) _.
Next Obligation. now intros []. Qed.

Definition chunk_ok (c : PowerChunk) : Prop := in_i64 (pc_Power c) /\ in_i64 (pc_Height c).

Class VPowerProtos : Type := {
  vps_vpower :: Proto VPowerProto;
  vps_delegatee :: Proto DelegateeProto;
  vps_frozen :: Proto FrozenVPowerProto;
}.

Class VPowerProtosLaws `{VPowerProtos} : Prop := {
  vpl_vpower :: ProtoLaws VPowerProto (fun m =>
    in_i64 (vpp_SumPower m) /\ Forall chunk_ok (vpp_PowerChunks m));
  vpl_delegatee :: ProtoLaws DelegateeProto (fun m =>
    in_i64 (dp_SumPower m) /\ in_i64 (dp_SelfPower m));
  vpl_frozen :: ProtoLaws FrozenVPowerProto (fun m =>
    in_i64 (fp_RefundPower m) /\ Forall chunk_ok (fp_PowerChunks m));
}.

Section VItemCodec.
Context `{VPowerProtos, CryptoLib}.

(** [defaultNewItem] *)
Definition defaultNewItem (key : LedgerKey) : outcome VItem :=
  if bytes_HasPrefix key KeyPrefixVPower then Ok (IVPower (MkVPower 0 [] [] [] []))
  else if bytes_HasPrefix key KeyPrefixDelegatee then Ok (IDelegatee (MkDelegatee [] [] 0 0 [] []))
  else if bytes_HasPrefix key KeyPrefixFrozenVPower then Ok (IFrozen (newFrozenVPower 0))
  else if bytes_HasPrefix key KeyPrefixMissedBlockCount then Ok (IBlockCount 0)
  else Panic.

Definition VPower_Encode (x : VPower) : outcome bytes :=
  from_err (Marshal (MkVPowerProto (v_SumPower x) (v_PowerChunks x))).

(** The key is prefix, sender and receiver; [from_to[:20]] panics when it is
    shorter. *)
Definition VPower_Decode (k v : bytes) : outcome VPower :=
  obind (from_err (Unmarshal v)) (fun m =>
  obind (UnwrapKeyPrefix k) (fun from_to =>
  if (length from_to <? 20)%nat then Panic
  else Ok (MkVPower (vpp_SumPower m) (vpp_PowerChunks m) k (take 20 from_to) (drop 20 from_to)))).

Definition Delegatee_Encode (x : Delegatee) : outcome bytes :=
  from_err (Marshal (MkDelegateeProto (d_PubKey x) (d_Delegators x) (d_SumPower x) (d_SelfPower x))).

Definition Delegatee_Decode (k v : bytes) : outcome Delegatee :=
  obind (from_err (Unmarshal v)) (fun m =>
  Ok (MkDelegatee (dp_PubKey m) (dp_Delegators m) (dp_SumPower m) (dp_SelfPower m) k
        (PubKeyBytes2Addr (dp_PubKey m)))).

Definition Frozen_Encode (x : FrozenVPower) : outcome bytes :=
  from_err (Marshal (MkFrozenVPowerProto (f_RefundPower x) (f_PowerChunks x))).

Definition Frozen_Decode (v : bytes) : outcome FrozenVPower :=
  obind (from_err (Unmarshal v)) (fun m =>
  Ok (MkFrozenVPower (fp_RefundPower m) (fp_PowerChunks m))).

Definition BlockCount_Encode (c : Z) : outcome bytes := Ok (put_be 8 (u64 c)).

(** [binary.BigEndian.Uint64] panics on less than 8 bytes. *)
Definition BlockCount_Decode (v : bytes) : outcome Z :=
  if (length v <? 8)%nat then Panic else Ok (i64 (get_be (take 8 v) 0)).

Definition VItem_Encode (x : VItem) : outcome bytes :=
  match x with
  | IVPower v => VPower_Encode v
  | IDelegatee d => Delegatee_Encode d
  | IFrozen f => Frozen_Encode f
  | IBlockCount c => BlockCount_Encode c
  end.

Definition VItem_Decode (x : VItem) (k v : bytes) : outcome VItem :=
  match x with
  | IVPower _ => obind (VPower_Decode k v) (fun y => Ok (IVPower y))
  | IDelegatee _ => obind (Delegatee_Decode k v) (fun y => Ok (IDelegatee y))
  | IFrozen _ => obind (Frozen_Decode v) (fun y => Ok (IFrozen y))
  | IBlockCount _ => obind (BlockCount_Decode v) (fun c => Ok (IBlockCount c))
  end.

#[export] Instance VItem_item : LedgerItem VItem := {
  newItemFor := defaultNewItem;
  Encode := VItem_Encode;
  Decode := VItem_Decode;
}.

End VItemCodec.
