(* ===== verification/ValSet.v ===== *)
(** * ValSet: choosing validators and reporting the changes

    [ctrlers/vpower/ctrler_valset.go].  [sort.Sort] is modelled by a sorting
    function; as public keys differ the order decides between any two
    delegatees, so every correct sort returns this list ([go_sort_unique]).
    The functions sort their arguments in place: the sorted lists are part of
    the result. *)
From stdpp Require Import base gmap list.
From Stdlib Require Import ZArith Lia Sorted Permutation.
From S2P Require Import Prelude XErrors GoMonad LedgerKeys Units VPowerItems.

(** A validator update: public key and power, zero for a removal. *)
Definition ValidatorUpdate : Type := bytes * Z.

(** [selectValidators]: the sorted input and the first [maxVals] of it; a
    negative [maxVals] makes the allocation panic. *)
Definition selectValidators (delegatees : list Delegatee) (maxVals : Z)
    : outcome (list Delegatee * list Delegatee) :=
  let sorted := go_sort power_less delegatees in
  let n := MinInt (Z.of_nat (length delegatees)) maxVals in
  if n <? 0 then Panic else Ok (sorted, take (Z.to_nat n) sorted).

Definition removal (l : Delegatee) : ValidatorUpdate := (d_PubKey l, 0).
Definition addition (n : Delegatee) : ValidatorUpdate := (d_PubKey n, d_SumPower n).

(** The three loops of [validatorUpdates] over the sorted lists. *)
Fixpoint merge_updates (lastVals : list Delegatee) : list Delegatee -> list ValidatorUpdate :=
  fix aux (newVals : list Delegatee) : list ValidatorUpdate :=
    match lastVals, newVals with
    | [], _ => map addition newVals
    | _, [] => map removal lastVals
    | l :: lastVals', n :: newVals' =>
        let ret := bytes_Compare (d_PubKey l) (d_PubKey n) in
        if ret <? 0 then removal l :: merge_updates lastVals' newVals
        else if ret =? 0 then
          if negb (d_SumPower l =? d_SumPower n)
          then addition n :: merge_updates lastVals' newVals'
          else merge_updates lastVals' newVals'
        else addition n :: aux newVals'
    end.

Definition validatorUpdates (lastVals newVals : list Delegatee)
    : list ValidatorUpdate * list Delegatee * list Delegatee :=
  let lastVals := go_sort pub_less lastVals in
  let newVals := go_sort pub_less newVals in
  (merge_updates lastVals newVals, lastVals, newVals).

(** [updateValidators]: the updates, the new validators as they are stored, and
    the reordered list of all delegatees. *)
Definition updateValidators (allDelegatees lastValidators : list Delegatee) (maxVals : Z)
    : outcome (list ValidatorUpdate * list Delegatee * list Delegatee) :=
  obind (selectValidators allDelegatees maxVals) (fun '(sorted, newValidators) =>
  let '(upVals, _, newVals) := validatorUpdates lastValidators newValidators in
  Ok (upVals, newVals, sorted)).

(** ** What the consensus engine does with the updates *)

Definition apply_update (m : gmap bytes Z) (u : ValidatorUpdate) : gmap bytes Z :=
  if snd u =? 0 then delete (fst u) m else <[fst u := snd u]> m.

Fixpoint apply_updates (m : gmap bytes Z) (us : list ValidatorUpdate) : gmap bytes Z :=
  match us with
  | [] => m
  | u :: us' => apply_updates (apply_update m u) us'
  end.

(** The validator set of a list of delegatees, over a base set. *)
Fixpoint valmap_on (b : gmap bytes Z) (ds : list Delegatee) : gmap bytes Z :=
  match ds with
  | [] => b
  | d :: ds' => <[d_PubKey d := d_SumPower d]> (valmap_on b ds')
  end.
Definition valmap (ds : list Delegatee) : gmap bytes Z := valmap_on ∅ ds.

(** ** Facts on the orders *)

Lemma pub_less_false_trans x y z :
  pub_less x y = false -> pub_less y z = false -> pub_less x z = false.
Proof.
  unfold pub_less; rewrite !Z.ltb_ge; intros Hxy Hyz.
  destruct (Z_lt_le_dec (bytes_Compare (d_PubKey x) (d_PubKey z)) 0) as [Hxz|]; [|lia].
  destruct (Z.eq_dec (bytes_Compare (d_PubKey x) (d_PubKey y)) 0) as [E|E].
  { apply bytes_Compare_eq in E; rewrite E in Hxz; lia. }
  assert (Hyx : bytes_Compare (d_PubKey y) (d_PubKey x) < 0)
    by (rewrite bytes_Compare_antisym; lia).
  pose proof (bytes_Compare_trans _ _ _ Hyx Hxz); lia.
Qed.

Lemma pub_less_asym x y : pub_less x y = true -> pub_less y x = false.
Proof.
  unfold pub_less; rewrite Z.ltb_lt, Z.ltb_ge.
  rewrite (bytes_Compare_antisym (d_PubKey y)). lia.
Qed.

Lemma power_less_spec a b :
  power_less a b = true <->
  d_SumPower b < d_SumPower a \/
  (d_SumPower b = d_SumPower a /\ (d_SelfPower b < d_SelfPower a \/
    (d_SelfPower b = d_SelfPower a /\ bytes_Compare (d_PubKey a) (d_PubKey b) < 0))).
Proof.
  unfold power_less. destruct (Z.eqb_spec (d_SumPower a) (d_SumPower b)); cbn.
  - destruct (Z.eqb_spec (d_SelfPower a) (d_SelfPower b)); cbn; rewrite Z.ltb_lt; lia.
  - rewrite Z.ltb_lt. lia.
Qed.

Lemma power_less_false a b :
  power_less a b = false <->
  d_SumPower a < d_SumPower b \/
  (d_SumPower a = d_SumPower b /\ (d_SelfPower a < d_SelfPower b \/
    (d_SelfPower a = d_SelfPower b /\ 0 <= bytes_Compare (d_PubKey a) (d_PubKey b)))).
Proof.
  rewrite <- not_true_iff_false, power_less_spec. lia.
Qed.

Lemma bytes_Compare_le_trans a b c :
  0 <= bytes_Compare a b -> 0 <= bytes_Compare b c -> 0 <= bytes_Compare a c.
Proof.
  intros Hab Hbc. destruct (Z_lt_le_dec (bytes_Compare a c) 0) as [Hac|]; [|lia].
  destruct (Z.eq_dec (bytes_Compare a b) 0) as [E|E].
  { apply bytes_Compare_eq in E; subst; lia. }
  assert (Hba : bytes_Compare b a < 0) by (rewrite bytes_Compare_antisym; lia).
  pose proof (bytes_Compare_trans _ _ _ Hba Hac); lia.
Qed.

Lemma power_less_false_trans x y z :
  power_less x y = false -> power_less y z = false -> power_less x z = false.
Proof.
  rewrite !power_less_false. intros Hxy Hyz.
  pose proof (bytes_Compare_le_trans (d_PubKey x) (d_PubKey y) (d_PubKey z)). lia.
Qed.

Lemma power_less_asym x y : power_less x y = true -> power_less y x = false.
Proof.
  rewrite power_less_spec, power_less_false.
  rewrite (bytes_Compare_antisym (d_PubKey y)). lia.
Qed.

(** Strictly increasing public keys. *)
Definition pub_lt (x y : Delegatee) : Prop := bytes_Compare (d_PubKey x) (d_PubKey y) < 0.

Lemma pub_sorted_strict l :
  NoDup (map d_PubKey l) -> StronglySorted (not_after pub_less) l -> StronglySorted pub_lt l.
Proof.
  intros Hnd Hs. induction Hs as [|x l Hs IH Hx]; [constructor|].
  apply NoDup_cons in Hnd as [Hnotin Hnd]. constructor; [auto|].
  rewrite Forall_forall in *. intros y Hy. specialize (Hx y Hy).
  unfold not_after, pub_less, pub_lt in *. rewrite Z.ltb_ge, bytes_Compare_antisym in Hx.
  destruct (Z.eq_dec (bytes_Compare (d_PubKey x) (d_PubKey y)) 0) as [E|E]; [|lia].
  apply bytes_Compare_eq in E. exfalso. apply Hnotin. rewrite E.
  now apply list_elem_of_fmap_2.
Qed.

(** ** The merge *)

Lemma valmap_on_insert b ds k v :
  Forall (fun d => d_PubKey d <> k) ds -> valmap_on (<[k := v]> b) ds = <[k := v]> (valmap_on b ds).
Proof.
  induction 1 as [|d ds Hd _ IH]; [done|]. cbn. rewrite IH. now apply insert_insert_ne.
Qed.

Lemma valmap_on_delete b ds k :
  b !! k = None -> Forall (fun d => d_PubKey d <> k) ds -> valmap_on b ds !! k = None.
Proof.
  intros Hb. induction 1 as [|d ds Hd _ IH]; [done|]. cbn. now rewrite lookup_insert_ne.
Qed.

Lemma pub_lt_ne x ds : Forall (pub_lt x) ds -> Forall (fun d => d_PubKey d <> d_PubKey x) ds.
Proof.
  intros Hx. apply (Forall_impl _ _ _ Hx). intros y Hy E. unfold pub_lt in Hy. rewrite E in Hy.
  rewrite (proj2 (bytes_Compare_eq _ _) eq_refl) in Hy. lia.
Qed.

Lemma apply_removals b ds :
  StronglySorted pub_lt ds -> (forall d, d ∈ ds -> b !! d_PubKey d = None) ->
  apply_updates (valmap_on b ds) (map removal ds) = b.
Proof.
  intros Hs. revert b. induction Hs as [|x ds Hs IH Hx]; intros b Hb; [done|].
  cbn. unfold apply_update; cbn. rewrite delete_insert_id.
  - apply IH. intros d Hd. apply Hb. now right.
  - apply valmap_on_delete; [apply Hb; left|now apply pub_lt_ne].
Qed.

Lemma apply_additions b ds :
  Forall (fun d => d_SumPower d <> 0) ds -> StronglySorted pub_lt ds ->
  apply_updates b (map addition ds) = valmap_on b ds.
Proof.
  intros Hp Hs. revert b Hp. induction Hs as [|x ds Hs IH Hx]; intros b Hp; [done|].
  apply Forall_cons in Hp as [Hx0 Hp]. cbn. unfold apply_update; cbn.
  rewrite (proj2 (Z.eqb_neq _ 0) Hx0). rewrite IH by done.
  apply valmap_on_insert. now apply pub_lt_ne.
Qed.

Lemma Forall_pub_lt_trans x y ds : pub_lt x y -> Forall (pub_lt y) ds -> Forall (pub_lt x) ds.
Proof.
  intros Hxy Hy. apply (Forall_impl _ _ _ Hy). intros z. unfold pub_lt in *.
  eauto using bytes_Compare_trans.
Qed.

Lemma fresh_cons (b : gmap bytes Z) ds x v :
  (forall d, d ∈ ds -> b !! d_PubKey d = None) -> Forall (pub_lt x) ds ->
  forall d, d ∈ ds -> (<[d_PubKey x := v]> b) !! d_PubKey d = None.
Proof.
  intros Hb Hx d Hd. rewrite lookup_insert_ne; [auto|].
  apply pub_lt_ne in Hx. rewrite Forall_forall in Hx. intros E. now apply (Hx d Hd).
Qed.

(** Applying the merged updates to the old set gives the new set. *)
Lemma apply_merge b last new :
  StronglySorted pub_lt last -> StronglySorted pub_lt new ->
  Forall (fun d => d_SumPower d <> 0) new ->
  (forall d, d ∈ last -> b !! d_PubKey d = None) ->
  (forall d, d ∈ new -> b !! d_PubKey d = None) ->
  apply_updates (valmap_on b last) (merge_updates last new) = valmap_on b new.
Proof.
  intros Hl. revert b new. induction Hl as [|l last Hl IHl Hlf]; intros b new Hn Hp Hbl Hbn.
  { destruct new; now apply apply_additions. }
  revert b Hp Hbl Hbn. induction Hn as [|n new Hn IHn Hnf]; intros b Hp Hbl Hbn.
  { apply apply_removals; [now constructor|done]. }
  apply Forall_cons in Hp as [Hpn Hp]. cbn [merge_updates].
  assert (Hbl' : forall d, d ∈ last -> b !! d_PubKey d = None) by (intros; apply Hbl; now right).
  assert (Hbn' : forall d, d ∈ new -> b !! d_PubKey d = None) by (intros; apply Hbn; now right).
  destruct (Z.ltb_spec (bytes_Compare (d_PubKey l) (d_PubKey n)) 0) as [Hlt|Hge].
  - cbn. unfold apply_update; cbn. rewrite delete_insert_id.
    + apply (IHl b (n :: new)); auto; now constructor.
    + apply valmap_on_delete; [apply Hbl; left|now apply pub_lt_ne].
  - destruct (Z.eqb_spec (bytes_Compare (d_PubKey l) (d_PubKey n)) 0) as [E|Hne].
    + apply bytes_Compare_eq in E.
      assert (Hlf' : Forall (pub_lt n) last).
      { apply (Forall_impl _ _ _ Hlf). intros y. unfold pub_lt. now rewrite E. }
      assert (Hgoal : apply_updates (valmap_on (<[d_PubKey n := d_SumPower n]> b) last)
          (merge_updates last new) = valmap_on b (n :: new)).
      { rewrite IHl; [|done|done|now apply fresh_cons|now apply fresh_cons].
        cbn. apply valmap_on_insert. now apply pub_lt_ne. }
      destruct (Z.eqb_spec (d_SumPower l) (d_SumPower n)) as [Es|Es]; cbn [negb].
      * rewrite <- Hgoal. f_equal. cbn. rewrite valmap_on_insert by now apply pub_lt_ne.
        now rewrite E, Es.
      * rewrite <- Hgoal. cbn. f_equal. unfold apply_update; cbn.
        rewrite (proj2 (Z.eqb_neq _ 0) Hpn), E, insert_insert_eq.
        rewrite valmap_on_insert by now apply pub_lt_ne. done.
    + assert (Hnl : pub_lt n l) by (unfold pub_lt; rewrite bytes_Compare_antisym; lia).
      assert (Hlf' : Forall (pub_lt n) (l :: last)).
      { constructor; [done|]. eapply Forall_pub_lt_trans; eauto. }
      specialize (IHn (<[d_PubKey n := d_SumPower n]> b) Hp
        (fresh_cons _ _ _ _ Hbl Hlf') (fresh_cons _ _ _ _ Hbn' Hnf)).
      rewrite valmap_on_insert in IHn by now apply pub_lt_ne.
      cbn [apply_updates]. unfold apply_update; cbn [fst snd addition].
      rewrite (proj2 (Z.eqb_neq _ 0) Hpn).
      transitivity (valmap_on (<[d_PubKey n := d_SumPower n]> b) new); [exact IHn|].
      cbn. apply valmap_on_insert. now apply pub_lt_ne.
Qed.

(** Sorting does not change the validator set. *)
Lemma valmap_perm l1 l2 :
  Permutation l1 l2 -> NoDup (map d_PubKey l1) -> valmap l1 = valmap l2.
Proof.
  intros Hp. unfold valmap. induction Hp as [|x l1 l2 Hp IH|x y l|l1 l2 l3 H1 IH1 H2 IH2]; intros Hnd.
  - done.
  - cbn in *. apply NoDup_cons in Hnd as [_ Hnd]. now rewrite IH.
  - cbn in *. apply NoDup_cons in Hnd as [Hx _]. apply insert_insert_ne.
    intros E. apply Hx. rewrite E. left.
  - rewrite IH1 by done. apply IH2. now rewrite <- H1.
Qed.

Lemma go_sort_pub_strict l : NoDup (map d_PubKey l) -> StronglySorted pub_lt (go_sort pub_less l).
Proof.
  intros Hnd. apply pub_sorted_strict.
  - now rewrite (Permutation_map d_PubKey (go_sort_perm pub_less l)).
  - apply go_sort_sorted; [apply pub_less_false_trans | apply pub_less_asym].
Qed.

(** A prefix of a sorted list is not after the rest. *)
Lemma sorted_take {A} (less : A -> A -> bool) n (l : list A) x y :
  StronglySorted (not_after less) l -> x ∈ take n l -> y ∈ drop n l -> less y x = false.
Proof.
  intros Hs. revert n. induction Hs as [|z l Hs IH Hz]; intros [|n] Hx Hy; cbn in *.
  - now apply not_elem_of_nil in Hx.
  - now apply not_elem_of_nil in Hx.
  - now apply not_elem_of_nil in Hx.
  - rewrite Forall_forall in Hz. apply elem_of_cons in Hx as [->|Hx]; [|eauto].
    apply Hz. rewrite <- (take_drop n l). apply elem_of_app. now right.
Qed.

(** ** Correctness *)

(** C15. The validator updates reported at the end of a block are correct and
    complete: applied by the consensus engine to the previous validator set,
    where a power of zero removes a validator, they give exactly the new
    validator set.  Public keys are distinct in each list, and no new validator
    has power zero. *)
Theorem validatorUpdates_correct (lastVals newVals : list Delegatee) :
  NoDup (map d_PubKey lastVals) -> NoDup (map d_PubKey newVals) ->
  Forall (fun d => d_SumPower d <> 0) newVals ->
  apply_updates (valmap lastVals) (fst (fst (validatorUpdates lastVals newVals))) = valmap newVals.
Proof.
  intros Hl Hn Hp. cbn [validatorUpdates fst].
  pose proof (go_sort_perm pub_less lastVals) as Pl.
  pose proof (go_sort_perm pub_less newVals) as Pn.
  rewrite (valmap_perm lastVals (go_sort pub_less lastVals)) by done.
  rewrite (valmap_perm newVals (go_sort pub_less newVals)) by done.
  apply apply_merge; auto using go_sort_pub_strict. now rewrite Pn.
Qed.

(** [selectValidators] chooses the strongest delegatees: at most [maxVals]
    of them, all delegatees when there are no more, each of them ahead of every
    delegatee left out in the order by power, self power and public key. *)
Theorem selectValidators_top (ds : list Delegatee) (maxVals : Z) :
  0 <= maxVals -> NoDup (map d_PubKey ds) ->
  exists sorted sel rest,
    selectValidators ds maxVals = Ok (sorted, sel) /\
    Permutation (sel ++ rest) ds /\
    length sel = Nat.min (length ds) (Z.to_nat maxVals) /\
    forall x y, x ∈ sel -> y ∈ rest -> power_less x y = true.
Proof.
  intros Hm Hnd. unfold selectValidators, MinInt.
  set (n := Z.to_nat (if Z.of_nat (length ds) <? maxVals then Z.of_nat (length ds) else maxVals)).
  set (l := go_sort power_less ds). pose proof (go_sort_perm power_less ds) as Hp. fold l in Hp.
  exists l, (take n l), (drop n l). split; [|split; [|split]].
  - destruct (Z.ltb_spec (if Z.of_nat (length ds) <? maxVals then Z.of_nat (length ds) else maxVals) 0);
      [|done]. destruct (Z.of_nat (length ds) <? maxVals); lia.
  - now rewrite take_drop.
  - rewrite length_take. unfold l, n. rewrite length_go_sort.
    destruct (Z.ltb_spec (Z.of_nat (length ds)) maxVals); lia.
  - intros x y Hx Hy.
    assert (Hf : power_less y x = false).
    { eapply sorted_take; eauto.
      apply go_sort_sorted; [apply power_less_false_trans | apply power_less_asym]. }
    rewrite power_less_false in Hf. rewrite power_less_spec.
    destruct (Z.eq_dec (bytes_Compare (d_PubKey y) (d_PubKey x)) 0) as [E|E].
    + apply bytes_Compare_eq in E. exfalso.
      assert (Hndl : NoDup (map d_PubKey (take n l ++ drop n l))) by now rewrite take_drop, Hp.
      rewrite map_app in Hndl. apply NoDup_app in Hndl as (_ & Hdisj & _).
      apply (Hdisj (d_PubKey x)); [now apply list_elem_of_fmap_2|].
      rewrite <- E. now apply list_elem_of_fmap_2.
    + rewrite (bytes_Compare_antisym (d_PubKey x)). lia.
Qed.

(** ** Witnesses *)

Definition w_dgt (pk pow : Z) : Delegatee := MkDelegatee [pk] [] pow pow [] [].

Lemma validatorUpdates_correct_witness :
  apply_updates (valmap [w_dgt 3 10; w_dgt 1 20])
    (fst (fst (validatorUpdates [w_dgt 3 10; w_dgt 1 20] [w_dgt 1 25; w_dgt 2 7]))) =
  valmap [w_dgt 1 25; w_dgt 2 7].
Proof.
  apply validatorUpdates_correct.
  - apply (bool_decide_unpack _). vm_compute. exact Logic.I.
  - apply (bool_decide_unpack _). vm_compute. exact Logic.I.
  - repeat constructor; discriminate.
Defined.

Lemma selectValidators_top_witness :
  exists sorted sel rest,
    selectValidators [w_dgt 3 10; w_dgt 1 20; w_dgt 2 10] 2 = Ok (sorted, sel) /\
    Permutation (sel ++ rest) [w_dgt 3 10; w_dgt 1 20; w_dgt 2 10] /\
    length sel = 2%nat /\ forall x y, x ∈ sel -> y ∈ rest -> power_less x y = true.
Proof.
  apply (selectValidators_top [w_dgt 3 10; w_dgt 1 20; w_dgt 2 10] 2); [lia|].
  apply (bool_decide_unpack _). vm_compute. exact Logic.I.
Defined.
