(* ===== verification/Limiter.v ===== *)
(** * Limiter: bounding the change of voting power in a block

    [ctrlers/vpower/limiter.go].  The limiter remembers the total power at the
    start of the block and the power added and removed since; a change is
    refused when the power that has stayed falls below the allowed share of the
    new total. *)
From stdpp Require Import base list strings.
From Stdlib Require Import ZArith Lia.
From S2P Require Import Prelude XErrors GoMonad.

(** [OP_POWER] *)
Definition ADD_POWER : bool := true.
Definition SUB_POWER : bool := false.

Record VPowerLimiter := MkLimiter {
  lastTotalPower : Z;
  estimatedTotalPower : Z;
  addingPower : Z;
  subingPower : Z;
  allowRate : Z;
}.

#[global] Instance VPowerLimiter_eq_dec : EqDecision VPowerLimiter.
Proof. solve_decision. Defined.

Definition NewVPowerLimiter : VPowerLimiter := MkLimiter 0 0 0 0 0.

Definition limiter_Reset (total rate : Z) : VPowerLimiter := MkLimiter total total 0 0 rate.

(** Integer division truncates towards zero and panics on zero. *)
Definition div_i64 (a b : Z) : outcome Z := if b =? 0 then Panic else Ok (i64 (go_div a b)).

Definition checkTotalPower (lim : VPowerLimiter) (diff : Z) (op : bool) : outcome unit :=
  let remainTotal := i64 (lastTotalPower lim - subingPower lim) in
  let newTotal := estimatedTotalPower lim in
  if negb op && (remainTotal <=? diff)
  then Err (Wrapf ErrOverFlow "remained total power (%v) > diff (%v)")
  else
    let '(remainTotal, newTotal) :=
      if op then (remainTotal, i64 (newTotal + diff))
      else (i64 (remainTotal - diff), i64 (newTotal - diff)) in
    obind (div_i64 (i64 (remainTotal * 100)) newTotal) (fun q =>
    let remainRate := i32 q in
    if allowRate lim <? i32 (100 - remainRate)
    then Err (Wrapf ErrUpdatableStakeRatio "remainedTotalPower(%v) / estimatedTotalPower(%v) = remainRate(%v%%) => changeRate(%v) >= allowedRate(%v%%)")
    else Ok tt).

(** [CheckLimit]: the limiter afterwards, which keeps its value on an error. *)
Definition CheckLimit (lim : VPowerLimiter) (power : Z) (op : bool) : outcome VPowerLimiter :=
  obind (checkTotalPower lim power op) (fun _ =>
  if op
  then Ok (MkLimiter (lastTotalPower lim) (i64 (estimatedTotalPower lim + power))
             (i64 (addingPower lim + power)) (subingPower lim) (allowRate lim))
  else Ok (MkLimiter (lastTotalPower lim) (i64 (estimatedTotalPower lim - power))
             (addingPower lim) (i64 (subingPower lim + power)) (allowRate lim))).

(** ** Correctness *)

(** The changes of a block: how much power is added or removed. *)
Definition change : Type := Z * bool.

(** Accepted changes are counted, refused ones leave the limiter alone. *)
Fixpoint check_all (lim : VPowerLimiter) (cs : list change) : outcome (list bool * VPowerLimiter) :=
  match cs with
  | [] => Ok ([], lim)
  | (p, op) :: cs' =>
      match CheckLimit lim p op with
      | Panic => Panic
      | Err _ => obind (check_all lim cs') (fun '(rs, l) => Ok (false :: rs, l))
      | Ok lim' => obind (check_all lim' cs') (fun '(rs, l) => Ok (true :: rs, l))
      end
  end.

(** The power added and removed by the accepted changes. *)
Fixpoint accepted (op : bool) (cs : list change) (rs : list bool) : Z :=
  match cs, rs with
  | (p, o) :: cs', r :: rs' => (if r && Bool.eqb o op then p else 0) + accepted op cs' rs'
  | _, _ => 0
  end.

(** A limiter in the range where no intermediate value overflows, in which the
    power that stayed is the allowed share of the new total. *)
Record lim_ok (bound : Z) (lim : VPowerLimiter) : Prop := {
  lk_last : 0 <= lastTotalPower lim;
  lk_add : 0 <= addingPower lim;
  lk_sub : 0 <= subingPower lim <= lastTotalPower lim;
  lk_est : estimatedTotalPower lim = lastTotalPower lim + addingPower lim - subingPower lim;
  lk_bound : lastTotalPower lim + addingPower lim <= bound;
  lk_rate : 0 <= allowRate lim < 100;
  lk_share : (100 - allowRate lim) * estimatedTotalPower lim
               <= (lastTotalPower lim - subingPower lim) * 100;
}.

(** No product by 100 of a power below this bound leaves 64 bits. *)
Definition lim_bound : Z := 2 ^ 63 / 100 - 1.

Lemma lim_ok_reset total rate :
  0 <= total <= lim_bound -> 0 <= rate < 100 -> lim_ok lim_bound (limiter_Reset total rate).
Proof. intros Ht Hr. split; cbn; nia. Qed.

(** The share computed by the limiter, and what passing the test means. *)
Lemma share_check remain new rate :
  0 <= remain -> remain <= new -> 0 < new -> new <= lim_bound -> 0 <= rate < 100 ->
  exists q, div_i64 (i64 (remain * 100)) new = Ok q /\
    ((rate <? i32 (100 - i32 q)) = false <-> (100 - rate) * new <= remain * 100).
Proof.
  intros Hr Hle Hn Hb Hrate. unfold lim_bound in Hb.
  assert (remain * 100 < 2 ^ 63) by (change (2 ^ 63 / 100) with 92233720368547758 in Hb; lia).
  assert (Hq : 0 <= remain * 100 / new <= 100).
  { split; [apply Z.div_pos; lia|]. apply Z.div_le_upper_bound; lia. }
  exists (remain * 100 / new). unfold div_i64. rewrite (proj2 (Z.eqb_neq new 0)) by lia.
  rewrite (i64_id (remain * 100)) by (unfold in_i64; lia).
  rewrite go_div_pos by lia. rewrite i64_id by (unfold in_i64; lia).
  split; [done|]. rewrite (i32_small (remain * 100 / new)) by lia.
  rewrite i32_small by lia. rewrite Z.ltb_ge.
  split; intros Hx.
  - assert ((100 - rate) <= remain * 100 / new) by lia.
    pose proof (Z.mul_div_le (remain * 100) new ltac:(lia)). nia.
  - enough (100 - rate <= remain * 100 / new) by lia.
    apply Z.div_le_lower_bound; lia.
Qed.

(** One change within the bound: never a panic; when it is accepted the limiter
    is still in range and the change is counted. *)
Lemma CheckLimit_step lim p (op : bool) :
  lim_ok lim_bound lim -> (if op then 0 < p else 0 <= p) ->
  lastTotalPower lim + addingPower lim + (if op then p else 0) <= lim_bound ->
  match CheckLimit lim p op with
  | Ok lim' => lim_ok lim_bound lim' /\
      lastTotalPower lim' = lastTotalPower lim /\ allowRate lim' = allowRate lim /\
      addingPower lim' = addingPower lim + (if op then p else 0) /\
      subingPower lim' = subingPower lim + (if op then 0 else p)
  | Err _ => True
  | Panic => False
  end.
Proof.
  intros [Hl Ha Hs He Hb Hr Hsh] Hp Hbp. unfold CheckLimit, checkTotalPower.
  assert (Hbig : lim_bound < 2 ^ 62) by (vm_compute; reflexivity).
  rewrite (i64_id (lastTotalPower lim - subingPower lim)) by (unfold in_i64; lia).
  destruct op; cbn [negb andb].
  - rewrite (i64_id (estimatedTotalPower lim + p)) by (unfold in_i64; lia).
    destruct (share_check (lastTotalPower lim - subingPower lim) (estimatedTotalPower lim + p)
      (allowRate lim)) as (q & -> & Hq); try lia.
    cbn [obind]. destruct (allowRate lim <? _) eqn:Et; [done|]. cbn [obind].
    pose proof (proj1 Hq eq_refl). rewrite i64_id by (unfold in_i64; lia).
    split; [split; cbn; nia|cbn; lia].
  - destruct (Z.leb_spec (lastTotalPower lim - subingPower lim) p); [done|].
    rewrite (i64_id (lastTotalPower lim - subingPower lim - p)) by (unfold in_i64; lia).
    rewrite (i64_id (estimatedTotalPower lim - p)) by (unfold in_i64; lia).
    destruct (share_check (lastTotalPower lim - subingPower lim - p) (estimatedTotalPower lim - p)
      (allowRate lim)) as (q & -> & Hq); try lia.
    cbn [obind]. destruct (allowRate lim <? _) eqn:Et; [done|]. cbn [obind].
    pose proof (proj1 Hq eq_refl). rewrite i64_id by (unfold in_i64; lia).
    split; [split; cbn; nia|cbn; lia].
Qed.

Lemma check_all_ok cs lim :
  lim_ok lim_bound lim -> Forall (fun c => 0 < fst c) cs ->
  lastTotalPower lim + addingPower lim + zsum (map fst cs) <= lim_bound ->
  exists rs lim', check_all lim cs = Ok (rs, lim') /\ lim_ok lim_bound lim' /\
    lastTotalPower lim' = lastTotalPower lim /\ allowRate lim' = allowRate lim /\
    addingPower lim' = addingPower lim + accepted true cs rs /\
    subingPower lim' = subingPower lim + accepted false cs rs.
Proof.
  intros HL Hp. revert lim HL. induction Hp as [|[p op] cs Hp Hcs IH]; intros lim HL Hb; cbn in *.
  { exists [], lim. repeat split; try apply HL; lia. }
  assert (Hnn : 0 <= zsum (map fst cs)).
  { apply zsum_nonneg. apply Forall_map. apply (Forall_impl _ _ _ Hcs). cbn; lia. }
  pose proof (CheckLimit_step lim p op HL ltac:(destruct op; lia)) as Hstep.
  destruct (CheckLimit lim p op) as [lim1|e|].
  - destruct Hstep as (HL1 & El & Er & Ea & Es); [destruct op; lia|].
    destruct (IH lim1 HL1) as (rs & lim' & E & HL' & El' & Er' & Ea' & Es').
    { destruct op; lia. }
    exists (true :: rs), lim'. rewrite E; cbn.
    split; [done|]. split; [done|]. destruct op; cbn; lia.
  - destruct (IH lim HL ltac:(lia)) as (rs & lim' & E & HL' & El' & Er' & Ea' & Es').
    exists (false :: rs), lim'. rewrite E; cbn. split; [done|]. split; [done|]. lia.
  - destruct Hstep. destruct op; lia.
Qed.

(** C30. For any sequence of positive power changes offered in a block the
    limiter never panics, counts exactly the accepted changes, and accepts so
    little that the power that was there at the start of the block and was not
    removed is at least [100 - allowRate] per cent of the resulting total.  The
    sum of all powers is assumed to be below [2^63 / 100]. *)
Theorem limiter_keeps_share (total rate : Z) (cs : list change) :
  0 <= rate < 100 -> 0 <= total -> Forall (fun c => 0 < fst c) cs ->
  total + zsum (map fst cs) <= lim_bound ->
  exists rs lim', check_all (limiter_Reset total rate) cs = Ok (rs, lim') /\
    addingPower lim' = accepted true cs rs /\ subingPower lim' = accepted false cs rs /\
    estimatedTotalPower lim' = total + accepted true cs rs - accepted false cs rs /\
    (100 - rate) * (total + accepted true cs rs - accepted false cs rs)
      <= 100 * (total - accepted false cs rs).
Proof.
  intros Hr Ht Hp Hb.
  assert (Hnn : 0 <= zsum (map fst cs)).
  { apply zsum_nonneg. apply Forall_map. apply (Forall_impl _ _ _ Hp). cbn; lia. }
  destruct (check_all_ok cs (limiter_Reset total rate)) as (rs & lim' & E & HL & El & Er & Ea & Es);
    [apply lim_ok_reset; lia|done|cbn; lia|].
  exists rs, lim'. cbn in *. split; [done|]. destruct HL. lia.
Qed.

Lemma limiter_keeps_share_witness :
  exists rs lim', check_all (limiter_Reset 100 33) [(40, true); (20, false); (30, true); (5, false)]
      = Ok (rs, lim') /\ estimatedTotalPower lim' = 135.
Proof.
  destruct (limiter_keeps_share 100 33 [(40, true); (20, false); (30, true); (5, false)])
    as (rs & lim' & E & _ & _ & He & _); [lia|lia|repeat constructor|vm_compute; discriminate|].
  exists rs, lim'. split; [exact E|]. vm_compute in E. injection E as <- <-. exact He.
Defined.
