(* ===== verification/VPowerCtrler.v ===== *)
(** * VPowerCtrler: the voting-power controller

    [ctrlers/vpower/ctrler.go], [ctrler_vpower.go], [ctrler_block.go] and
    [ctrler_punish.go]: bonding, unbonding, freezing and refunding of power,
    slashing, missed blocks, and the validator set of a block.  The controller
    keeps pointers to delegatee objects ([allDelegatees], [lastValidators]);
    operations that touch accounts run on the controller's state paired with
    the state of an account handler. *)
From stdpp Require Import base gmap list strings.
From Stdlib Require Import ZArith Lia.
From S2P Require Import Prelude XErrors GoMonad LedgerKeys Iavl Ledger Units Proto Signer.
From S2P Require Import GovParams Account TrxTypes AcctCtrler VPowerItems ValSet Limiter.

Record VPowerCtrler (T I : Type) := MkVPowerCtrler {
  vpowerState : LState VItem T I;
  allDelegatees : list loc;
  lastValidators : list loc;
  vpowLimiter : VPowerLimiter;
}.
Arguments MkVPowerCtrler {T I} _ _ _ _.
Arguments vpowerState {T I} _.
Arguments allDelegatees {T I} _.
Arguments lastValidators {T I} _.
Arguments vpowLimiter {T I} _.

Program Definition vp_lens {T I} : lens (VPowerCtrler T I) (LState VItem T I) :=
  Lens vpowerState
    (fun l s => MkVPowerCtrler l (allDelegatees s) (lastValidators s) (vpowLimiter s)) _ _ _.
Next Obligation. done. Qed.
Next Obligation. now intros ? ? []. Qed.
Next Obligation. done. Qed.

(** [bondingTrxOpt]: what [ValidateTrx] leaves for [ExecuteTrx]. *)
Record bondingTrxOpt := MkBondingTrxOpt {
  bt_dgtee : option loc;
  bt_vpow : option loc;
  bt_txPower : Z;
}.

Section VPowerOps.
Context {T I : Type} `{Iavl T I} `{VPowerProtos, CryptoLib}.
Abbreviation V := (VPowerCtrler T I).
Abbreviation VM := (M (VPowerCtrler T I)).

(** ** Objects; a failed type assertion gives a nil pointer, which panics *)

Definition v_deref (l : loc) : VM VItem := zoom vp_lens (l_deref l).
Definition v_assign (l : loc) (x : VItem) : VM unit := zoom vp_lens (l_assign l x).
Definition v_alloc (x : VItem) : VM loc := zoom vp_lens (l_alloc x).

Definition get_dgt (l : loc) : VM Delegatee :=
  let! x := v_deref l in
  match x with IDelegatee d => ret d | _ => panic end.
Definition get_vpow (l : loc) : VM VPower :=
  let! x := v_deref l in
  match x with IVPower v => ret v | _ => panic end.
Definition get_frozen (l : loc) : VM FrozenVPower :=
  let! x := v_deref l in
  match x with IFrozen f => ret f | _ => panic end.
Definition put_dgt (l : loc) (d : Delegatee) : VM unit := v_assign l (IDelegatee d).
Definition put_vpow (l : loc) (v : VPower) : VM unit := v_assign l (IVPower v).
Definition put_frozen (l : loc) (f : FrozenVPower) : VM unit := v_assign l (IFrozen f).

Definition led_Get (k : LedgerKey) (exec : bool) : VM loc := zoom vp_lens (Get k exec).
Definition led_Set (k : LedgerKey) (l : loc) (exec : bool) : VM unit := zoom vp_lens (Set_ k l exec).
Definition led_Del (k : LedgerKey) (exec : bool) : VM unit := zoom vp_lens (Del k exec).

(** The keys or objects an ascending [Seek] visits, collected by its callback. *)
Definition seek_collect {B} (prefix : bytes) (exec : bool) (f : bytes -> loc -> B)
    : VM ((unit + error) * list B) :=
  run_var [] (Seek (lens_comp fst_lens vp_lens) prefix true
    (fun k l => modify (fun '(s, acc) => (s, acc ++ [f k l]))) exec).

(** ** Reading and writing items *)

Definition loadDelegatees (exec : bool) : VM (list loc) :=
  let! r := seek_collect KeyPrefixDelegatee exec (fun _ l => l) in
  let '(res, dgtees) := r in
  untry res ;;;
  ret dgtees.

Definition readDelegatee (addr : Address) (exec : bool) : VM loc :=
  led_Get (LedgerKeyDelegatee addr) exec.

Definition writeDelegatee (dgtee : loc) (exec : bool) : VM unit :=
  let! d := get_dgt dgtee in led_Set (d_key d) dgtee exec.

Definition removeDelegatee (addr : Address) (exec : bool) : VM unit :=
  led_Del (LedgerKeyDelegatee addr) exec.

Definition readVPower (from to : Address) (exec : bool) : VM loc :=
  led_Get (LedgerKeyVPower from to) exec.

Definition writeVPower (vpow : loc) (exec : bool) : VM unit :=
  let! v := get_vpow vpow in led_Set (v_key v) vpow exec.

Definition removeVPower (from to : Address) (exec : bool) : VM unit :=
  led_Del (LedgerKeyVPower from to) exec.

(** ** Bonding and unbonding *)

Definition bondPowerChunk (dgtee vpow : loc) (power height : Z) (txhash : bytes) (exec : bool)
    : VM unit :=
  let! v := get_vpow vpow in
  put_vpow vpow (addPowerWithTxHash v power height txhash) ;;;
  led_Set (v_key v) vpow exec ;;;
  let! d := get_dgt dgtee in
  put_dgt dgtee (addDelegator (addPower d (v_from v) power) (v_from v)) ;;;
  led_Set (d_key d) dgtee exec.

Definition unbondPowerChunk (dgtee vpow : loc) (txhash : bytes) (exec : bool) : VM PowerChunk :=
  let! v := get_vpow vpow in
  let '(opc, v') := delPowerWithTxHash v txhash in
  match opc with
  | None =>
      throw (Wrapf ErrNotFoundStake "validator(%v) has no power chunk(txhash:%v) from %v")
  | Some pc =>
      put_vpow vpow v' ;;;
      let! d := get_dgt dgtee in
      put_dgt dgtee (delPower d (v_from v) (pc_Power pc)) ;;;
      (if (length (v_PowerChunks v') =? 0)%nat then
         let! d := get_dgt dgtee in
         put_dgt dgtee (delDelegator d (v_from v)) ;;;
         led_Del (v_key v) exec
       else led_Set (v_key v) vpow exec) ;;;
      led_Set (d_key d) dgtee exec ;;;
      ret pc
  end.

(** The frozen power of an address at a refund height, a new object when the
    ledger has none. *)
Definition get_or_new_frozen (refundHeight : Z) (from : Address) (exec : bool) : VM loc :=
  let! r := try (led_Get (LedgerKeyFrozenVPower refundHeight from) exec) in
  match r with
  | inl l => ret l
  | inr e =>
      if bool_decide (e = ErrNotFoundResult) then v_alloc (IFrozen (newFrozenVPower 0)) else throw e
  end.

Definition freezePowerChunk (from : Address) (pc : PowerChunk) (refundHeight : Z) (exec : bool)
    : VM unit :=
  let! l := get_or_new_frozen refundHeight from exec in
  let! f := get_frozen l in
  put_frozen l (MkFrozenVPower (i64 (f_RefundPower f + pc_Power pc)) (f_PowerChunks f ++ [pc])) ;;;
  led_Set (LedgerKeyFrozenVPower refundHeight from) l exec.

Definition freezePowerChunkList (from : Address) (pcs : list PowerChunk) (refundHeight : Z)
    (exec : bool) : VM unit :=
  let! l := get_or_new_frozen refundHeight from exec in
  let! f := get_frozen l in
  put_frozen l (MkFrozenVPower
    (fold_left (fun acc pc => i64 (acc + pc_Power pc)) pcs (f_RefundPower f))
    (f_PowerChunks f ++ pcs)) ;;;
  led_Set (LedgerKeyFrozenVPower refundHeight from) l exec.

(** Unbonding everything delegated to a delegatee: the loop shared by the end
    of [exeUnbonding] and the punishment of missed blocks. *)
Definition unbond_all (dgtee : loc) (refundHeight : Z) (exec : bool) : VM unit :=
  let! d := get_dgt dgtee in
  for_each (d_Delegators d) (fun from =>
    let! d := get_dgt dgtee in
    let! l := readVPower from (d_addr d) exec in
    let! v := get_vpow l in
    freezePowerChunkList (v_from v) (v_PowerChunks v) refundHeight exec ;;;
    removeVPower (v_from v) (v_to v) exec) ;;;
  let! d := get_dgt dgtee in
  removeDelegatee (d_addr d) exec.

(** ** Missed blocks *)

Definition getMissedBlockCount (valAddr : Address) (exec : bool) : VM Z :=
  let! l := led_Get (LedgerKeyMissedBlockCount valAddr) exec in
  let! x := v_deref l in
  match x with IBlockCount c => ret c | _ => panic end.

Definition setMissedBlockCount (valAddr : Address) (c : Z) (exec : bool) : VM unit :=
  let! l := v_alloc (IBlockCount c) in
  led_Set (LedgerKeyMissedBlockCount valAddr) l exec.

Definition addMissedBlockCount (valAddr : Address) (exec : bool) : VM Z :=
  let! r := try (getMissedBlockCount valAddr exec) in
  let! c := (match r with
             | inl c => ret c
             | inr e => if Contains e ErrNotFoundResult then ret 0 else throw e
             end) in
  let c' := i64 (c + 1) in
  setMissedBlockCount valAddr c' exec ;;;
  ret c'.

(** The keys are collected first and deleted when the iteration has ended. *)
Definition resetAllMissedBlockCount (exec : bool) : VM unit :=
  let! r := seek_collect KeyPrefixMissedBlockCount exec (fun k _ => k) in
  let '(res, rmKeys) := r in
  for_each rmKeys (fun k => ignore (led_Del k exec)) ;;;
  untry res.

(** ** Slashing *)

(** The inner loop of [doSlash] over the chunks of one delegator. *)
Definition slash_chunk (slashRate : Z) (pc : PowerChunk) : Z * PowerChunk :=
  let slashed := i64 (go_div (i64 (pc_Power pc * slashRate)) 100) in
  (slashed, MkPowerChunk (i64 (pc_Power pc - slashed)) (pc_Height pc) (pc_TxHash pc)).

Definition slash_step (slashRate : Z) (self : bool) (pc : PowerChunk) (st : VPower * Delegatee * Z)
    : VPower * Delegatee * Z :=
  let '(v, d, acc) := st in
  let '(slashed, pc') := slash_chunk slashRate pc in
  (MkVPower (i64 (v_SumPower v - slashed)) (pc' :: v_PowerChunks v) (v_key v) (v_from v) (v_to v),
   MkDelegatee (d_PubKey d) (d_Delegators d) (i64 (d_SumPower d - slashed))
     (if self then i64 (d_SelfPower d - slashed) else d_SelfPower d) (d_key d) (d_addr d),
   i64 (acc + slashed)).

(** The loop goes from the last chunk to the first. *)
Definition slash_vpow (slashRate : Z) (self : bool) (v : VPower) (d : Delegatee) (acc : Z)
    : VPower * Delegatee * Z :=
  foldr (slash_step slashRate self) (MkVPower (v_SumPower v) [] (v_key v) (v_from v) (v_to v), d, acc)
    (v_PowerChunks v).

Definition slash_one (dgtee : loc) (slashRate : Z) (acc : Z) (addr : Address) : VM Z :=
  let! d := get_dgt dgtee in
  let! l := readVPower addr (d_addr d) true in
  let! v := get_vpow l in
  let '(v', d', acc') := slash_vpow slashRate (bytes_Equal addr (v_to v)) v d acc in
  put_vpow l v' ;;;
  put_dgt dgtee d' ;;;
  writeVPower l true ;;;
  ret acc'.

Fixpoint slash_each (dgtee : loc) (slashRate : Z) (addrs : list Address) (acc : Z) : VM Z :=
  match addrs with
  | [] => ret acc
  | a :: addrs' => let! acc' := slash_one dgtee slashRate acc a in slash_each dgtee slashRate addrs' acc'
  end.

Definition doSlash (targetAddr : Address) (slashRate : Z) : VM Z :=
  let! dgtee := readDelegatee targetAddr true in
  let! d := get_dgt dgtee in
  let! slashedPower := slash_each dgtee slashRate (d_Delegators d) 0 in
  writeDelegatee dgtee true ;;;
  ret slashedPower.

End VPowerOps.

Section VPowerTrx.
Context {T I : Type} `{Iavl T I} `{VPowerProtos, CryptoLib}.
Abbreviation V := (VPowerCtrler T I).
Abbreviation VM := (M (VPowerCtrler T I)).

Definition set_limiter (lim : VPowerLimiter) (s : V) : V :=
  MkVPowerCtrler (vpowerState s) (allDelegatees s) (lastValidators s) lim.

(** [vpowLimiter.CheckLimit]: one limiter for delivered and checked transactions. *)
Definition ctrl_CheckLimit (power : Z) (op : bool) : VM unit :=
  let! lim := gets vpowLimiter in
  let! lim' := lift (CheckLimit lim power op) in
  modify (set_limiter lim').

(** The checks of a staking transaction on its delegatee: the total power the
    overflow check uses. *)
Definition validate_bonding (gp : GovParamsProto) (tx : Trx) (txPower : Z) (dgtee : option loc)
    : VM Z :=
  if bytes_Equal (tx_From tx) (tx_To tx) then
    let! sp := (match dgtee with
                | Some l => let! d := get_dgt l in ret (i64 (txPower + d_SelfPower d), d_SumPower d)
                | None => ret (txPower, 0)
                end) in
    let '(selfPower, totalPower) := sp in
    if selfPower <? GovParams.MinValidatorPower gp
    then throw (Wrapf ErrInvalidTrx "too small power to become validator: %v < %v(minimum)")
    else ret totalPower
  else
    match dgtee with
    | None => throw (Wrapf ErrNotFoundDelegatee "address(%v)")
    | Some l =>
        let! d := get_dgt l in
        if txPower <? GovParams.MinDelegatorPower gp
        then throw (Wrapf ErrInvalidTrx "invalid delegation: must be >= %v power")
        else
          let! selfrate :=
            lift (div_i64 (i64 (d_SelfPower d * 100)) (i64 (d_SumPower d + txPower))) in
          if selfrate <? GovParams.MinSelfPowerRate gp
          then throw (NewOrdinary "not enough self power of %v: self: %v, total: %v, new power: %v")
          else ret (d_SumPower d)
    end.

Definition validate_staking (gp : GovParamsProto) (tx : Trx) (exec : bool) : VM bondingTrxOpt :=
  let q := udiv (tx_Amount tx) AmountPerPower in
  let r := umod (tx_Amount tx) AmountPerPower in
  if uSign q <=? 0 then throw (Wrapf ErrInvalidTrx "wrong amount: it should be greater than %v")
  else if negb (uSign r =? 0)
  then throw (Wrapf ErrInvalidTrx "wrong amount: it should be multiple of %v")
  else
    let txPower := i64 (uUint64 q) in
    if txPower <=? 0
    then throw (Wrapf ErrOverFlow "voting power is converted as negative(%v) from amount(%v)")
    else
      let! r := try (readDelegatee (tx_To tx) exec) in
      let! dgtee := (match r with
                     | inl l => ret (Some l)
                     | inr e => if errors_Is e ErrNotFoundResult then ret None else throw e
                     end) in
      let! totalPower := validate_bonding gp tx txPower dgtee in
      if MaxInt64 - txPower <? totalPower
      then throw (Wrapf ErrOverFlow "validator(%v) power overflow occurs.\ntx:%v")
      else
        ctrl_CheckLimit txPower ADD_POWER ;;;
        ret (MkBondingTrxOpt dgtee None txPower).

Definition validate_unstaking (tx : Trx) (exec : bool) : VM bondingTrxOpt :=
  let! rd := try (readDelegatee (tx_To tx) exec) in
  match rd with
  | inr e => throw (Wrap ErrNotFoundDelegatee e)
  | inl dgtee =>
      match tx_Payload tx with
      | Some (TrxPayloadUnstaking txhash) =>
          if negb (length txhash =? 32)%nat then throw ErrInvalidTrxPayloadParams
          else
            let! rv := try (readVPower (tx_From tx) (tx_To tx) exec) in
            match rv with
            | inr e => throw (Wrap ErrNotFoundStake e)
            | inl vpow =>
                let! v := get_vpow vpow in
                match findPowerChunk v txhash with
                | None => throw ErrNotFoundStake
                | Some pc =>
                    ctrl_CheckLimit (pc_Power pc) SUB_POWER ;;;
                    ret (MkBondingTrxOpt (Some dgtee) (Some vpow) (pc_Power pc))
                end
            end
      | _ => panic
      end
  end.

Definition vpower_ValidateTrx (gp : GovParamsProto) (tx : Trx) (exec : bool) : VM bondingTrxOpt :=
  if GetType tx =? TRX_STAKING then validate_staking gp tx exec
  else if GetType tx =? TRX_UNSTAKING then validate_unstaking tx exec
  else throw ErrUnknownTrxType.

(** ** Executing *)

(** The voting-power part of [execBonding]: everything before the sender pays. *)
Definition bond_tx (tx : Trx) (opt : bondingTrxOpt) (senderPubKey : bytes) (height : Z)
    (txhash : bytes) (exec : bool) : VM unit :=
  let! dgtee := (match bt_dgtee opt with
                 | Some l => ret (Some l)
                 | None =>
                     if bytes_Compare (tx_From tx) (tx_To tx) =? 0
                     then let! l := v_alloc (IDelegatee (NewDelegatee senderPubKey)) in ret (Some l)
                     else ret None
                 end) in
  match dgtee with
  | None => throw (Wrapf ErrNotFoundDelegatee "address(%v)")
  | Some dl =>
      let! d := get_dgt dl in
      let! vpow := (if hasDelegator d (tx_From tx)
                    then readVPower (tx_From tx) (d_addr d) exec
                    else v_alloc (IVPower (NewVPower (tx_From tx) (d_addr d)))) in
      bondPowerChunk dl vpow (bt_txPower opt) height txhash exec
  end.

Definition exeUnbonding (gp : GovParamsProto) (tx : Trx) (opt : bondingTrxOpt) (height : Z)
    (exec : bool) : VM unit :=
  match bt_dgtee opt, tx_Payload tx, bt_vpow opt with
  | Some dgtee, Some (TrxPayloadUnstaking txhash), Some vpow =>
      if bytes_Equal txhash [] then panic else
      let refundHeight := i64 (height + GovParams.LazyUnbondingBlocks gp) in
      let! pc := unbondPowerChunk dgtee vpow txhash exec in
      let! v := get_vpow vpow in
      freezePowerChunk (v_from v) pc refundHeight exec ;;;
      let! d := get_dgt dgtee in
      if d_SelfPower d =? 0 then unbond_all dgtee refundHeight exec else ret tt
  | _, _, _ => panic
  end.

(** ** Operations that pay accounts *)

Context {A : Type} `{IAccountHandler A}.
Abbreviation VA := (VPowerCtrler T I * A)%type.

Definition on_vp {B} (m : VM B) : M VA B := zoom fst_lens m.
Definition on_acct {B} (m : M A B) : M VA B := zoom snd_lens m.

Definition execBonding (tx : Trx) (opt : bondingTrxOpt) (senderPubKey : bytes) (sender : loc)
    (height : Z) (txhash : bytes) (exec : bool) : M VA unit :=
  on_vp (bond_tx tx opt senderPubKey height txhash exec) ;;;
  on_acct (acct_update sender (fun a => SubBalance a (tx_Amount tx))) ;;;
  on_acct (ignore (SetAccount sender exec)).

Definition vpower_ExecuteTrx (gp : GovParamsProto) (tx : Trx) (opt : bondingTrxOpt)
    (senderPubKey : bytes) (sender : loc) (height : Z) (txhash : bytes) (exec : bool) : M VA unit :=
  if GetType tx =? TRX_STAKING then execBonding tx opt senderPubKey sender height txhash exec
  else if GetType tx =? TRX_UNSTAKING then on_vp (exeUnbonding gp tx opt height exec)
  else throw ErrUnknownTrxType.

(** The callback of [_unfreezePowerChunk]: refund one frozen power. *)
Definition refund_one (key : LedgerKey) (l : loc) : M (VA * list LedgerKey) unit :=
  let! f := zoom fst_lens (on_vp (get_frozen l)) in
  let refundAmt := PowerToAmount (f_RefundPower f) in
  if (length key <? 29)%nat then panic
  else
    zoom fst_lens (on_acct (Reward (take 20 (drop 9 key)) refundAmt true)) ;;;
    modify (fun '(s, removed) => (s, removed ++ [key])).

Definition _unfreezePowerChunk (refundHeight : Z) : M VA unit :=
  let! r := run_var [] (Seek (lens_comp fst_lens (lens_comp fst_lens vp_lens))
    (LedgerKeyFrozenVPower refundHeight []) true refund_one true) in
  let '(res, removed) := r in
  for_each removed (fun k => ignore (on_vp (led_Del k true))) ;;;
  untry res.

(** ** Blocks *)

(** What a block brings: evidence of misbehaviour and the votes of the last one. *)
Record BlockInfo := MkBlockInfo {
  bi_height : Z;
  bi_byzantines : list Address;
  bi_votes : list (Address * bool);    (* validator, signed the last block *)
}.

Definition sumPowerOfValidators : VM Z :=
  let! vals := gets lastValidators in
  let! ds := map_each vals get_dgt in
  ret (fold_left (fun acc d => i64 (acc + d_SumPower d)) ds 0).

(** Punish one byzantine validator; an error of [doSlash] is logged only. *)
Definition punish_byzantine (gp : GovParamsProto) (addr : Address) : M VA unit :=
  let! r := try (on_vp (doSlash addr (GovParams.SlashRate gp))) in
  match r with
  | inr _ => ret tt
  | inl slashed =>
      on_acct (AddBalance_ (GovParams.DeadAddress gp) (PowerToAmount slashed) true)
  end.

(** Punish a validator that did not sign the last block. *)
Definition punish_missing (gp : GovParamsProto) (height : Z) (vote : Address * bool) : VM unit :=
  let '(addr, signed) := vote in
  if (signed : bool) then ret tt
  else
    let! missedCnt := addMissedBlockCount addr true in
    let allowedDownCnt := i64 (GovParams.InflationCycleBlocks gp - GovParams.MinSignedBlocks gp) in
    if allowedDownCnt <=? missedCnt then
      let refundHeight := i64 (height + GovParams.LazyUnbondingBlocks gp) in
      let! r := try (readDelegatee addr true) in
      match r with
      | inr e => if Contains e ErrNotFoundResult then ret tt else throw e
      | inl dgtee => unbond_all dgtee refundHeight true
      end
    else ret tt.

Definition reset_limiter (gp : GovParamsProto) : VM unit :=
  let! total := sumPowerOfValidators in
  modify (set_limiter (limiter_Reset total (GovParams.MaxUpdatablePowerRate gp))).

(** [height % cycle], which panics on zero. *)
Definition at_cycle_end (height cycle : Z) : outcome bool :=
  if 0 <? height then
    if cycle =? 0 then Panic else Ok (Z.rem height cycle =? 0)
  else Ok false.

Definition vpower_BeginBlock (gp : GovParamsProto) (bi : BlockInfo) : M VA unit :=
  for_each (bi_byzantines bi) (punish_byzantine gp) ;;;
  if (length (bi_votes bi) =? 0)%nat then ret tt
  else
    on_vp (for_each (bi_votes bi) (punish_missing gp (bi_height bi))) ;;;
    let! b := lift (at_cycle_end (bi_height bi) (GovParams.InflationCycleBlocks gp)) in
    (if b : bool then on_vp (ignore (resetAllMissedBlockCount true)) else ret tt) ;;;
    on_vp (reset_limiter gp).

(** [updateValidators] on the objects: [ValSet] gives the result on their
    values, the pointers follow. *)
Definition order_by (less : Delegatee -> Delegatee -> bool) (ps : list (loc * Delegatee))
    : list (loc * Delegatee) :=
  go_sort (fun a b => less (snd a) (snd b)) ps.

Definition select_ptrs (dgtees : list (loc * Delegatee)) (maxVals : Z)
    : outcome (list (loc * Delegatee) * list (loc * Delegatee)) :=
  let sorted := order_by power_less dgtees in
  let n := MinInt (Z.of_nat (length dgtees)) maxVals in
  if n <? 0 then Panic else Ok (sorted, take (Z.to_nat n) sorted).

Definition read_ptrs (ls : list loc) : VM (list (loc * Delegatee)) :=
  map_each ls (fun l => let! d := get_dgt l in ret (l, d)).

Definition set_all (ls : list loc) (s : V) : V :=
  MkVPowerCtrler (vpowerState s) ls (lastValidators s) (vpowLimiter s).
Definition set_last (ls : list loc) (s : V) : V :=
  MkVPowerCtrler (vpowerState s) (allDelegatees s) ls (vpowLimiter s).

Definition ctrl_updateValidators (maxVals : Z) : VM (list ValidatorUpdate) :=
  let! alls := gets allDelegatees in
  let! lasts := gets lastValidators in
  let! pa := read_ptrs alls in
  let! pl := read_ptrs lasts in
  let! r := lift (select_ptrs pa maxVals) in
  let '(sorted, sel) := r in
  let newVals := order_by pub_less sel in
  modify (set_all (map fst sorted)) ;;;
  modify (set_last (map fst newVals)) ;;;
  ret (merge_updates (map snd (order_by pub_less pl)) (map snd newVals)).

(** [EndBlock]: refunds, then the validators of the next blocks. *)
Definition vpower_EndBlock (gp : GovParamsProto) (height : Z) : M VA (list ValidatorUpdate) :=
  on_vp (reset_limiter gp) ;;;
  _unfreezePowerChunk height ;;;
  on_vp (
    let! dgtees := loadDelegatees true in
    modify (set_all dgtees) ;;;
    ctrl_updateValidators (GovParams.MaxValidatorCnt gp)).

Definition vpower_Commit : VM (bytes * Z) := zoom vp_lens Commit.

(** ** Genesis and restart *)

Definition init_validator (v : bytes * Z) : VM loc :=
  let dgt := NewDelegatee (fst v) in
  let! dl := v_alloc (IDelegatee dgt) in
  let! vl := v_alloc (IVPower (NewVPower (d_addr dgt) (d_addr dgt))) in
  bondPowerChunk dl vl (snd v) 1 (repeat 0 32) true ;;;
  ret dl.

Definition vpower_InitLedger (initValidators : list (bytes * Z)) : VM unit :=
  let! dgtees := map_each initValidators init_validator in
  let! ps := read_ptrs dgtees in
  let! r := (if (0 <? length dgtees)%nat
             then lift (select_ptrs ps (Z.of_nat (length dgtees)))
             else ret ([], [])) in
  let '(sorted, sel) := r in
  modify (set_all (map fst sorted)) ;;;
  modify (set_last (map fst sel)).

Definition LoadDelegatees (maxValCnt : Z) : VM unit :=
  let! dgtees := loadDelegatees true in
  let! ps := read_ptrs dgtees in
  let! r := (if (0 <? length dgtees)%nat then lift (select_ptrs ps maxValCnt) else ret ([], [])) in
  let '(sorted, sel) := r in
  modify (set_all (map fst sorted)) ;;;
  modify (set_last (map fst sel)).

(** ** Queries of the other controllers *)

Definition Validators : VM (list (Address * Z) * Z) :=
  let! vals := gets lastValidators in
  let! ds := map_each vals get_dgt in
  ret (map (fun d => (d_addr d, d_SumPower d)) ds,
       fold_left (fun acc d => i64 (acc + d_SumPower d)) ds 0).

Definition IsValidator (addr : Address) : VM bool :=
  let! vals := gets lastValidators in
  let! ds := map_each vals get_dgt in
  ret (existsb (fun d => bytes_Equal (d_addr d) addr) ds).

Definition SumPowerOf (addr : Address) : VM Z :=
  let! alls := gets allDelegatees in
  let! ds := map_each alls get_dgt in
  ret (match findDelegateeByAddr addr ds with Some d => d_SumPower d | None => 0 end).

Definition SelfPowerOf (addr : Address) : VM Z :=
  let! alls := gets allDelegatees in
  let! ds := map_each alls get_dgt in
  ret (match findDelegateeByAddr addr ds with Some d => d_SelfPower d | None => 0 end).

End VPowerTrx.
