(* ===== verification/VPowerInv.v ===== *)
(** * VPowerInv: the invariant of the voting-power ledger

    [vinv m]: the items are well typed; the power of a delegator is the sum of
    its chunks; the power of a delegatee is the sum of the power of its
    delegators, its self power the part of its own address, and its list of
    delegators is exactly the addresses that have power bonded to it; frozen
    power is the sum of the frozen chunks.  Sums are [int64] sums, so the
    equations hold modulo [2^64] whatever the amounts. *)
From stdpp Require Import base gmap list strings.
From Stdlib Require Import ZArith Lia.
From S2P Require Import Prelude XErrors GoMonad LedgerKeys Ledger LedgerSpec Proto Signer VPowerItems.

Abbreviation vmap := (gmap bytes VItem).

Section Typed.
Context `{CryptoLib}.

(** The items stored under a key: the type follows the key's prefix, and the
    power an item carries is the sum of its chunks. *)
Definition vitem_ok (k : bytes) (x : VItem) : Prop :=
  match x with
  | IVPower v =>
      k = LedgerKeyVPower (v_from v) (v_to v) /\ v_key v = k /\
      length (v_from v) = AddrSize /\ length (v_to v) = AddrSize /\
      v_SumPower v = i64 (chunk_sum (v_PowerChunks v)) /\
      v_PowerChunks v <> [] /\ Forall chunk_ok (v_PowerChunks v)
  | IDelegatee d =>
      k = LedgerKeyDelegatee (d_addr d) /\ d_key d = k /\ d_addr d = PubKeyBytes2Addr (d_PubKey d) /\
      length (d_addr d) = AddrSize /\ in_i64 (d_SumPower d) /\ in_i64 (d_SelfPower d)
  | IFrozen f =>
      (exists h from, k = LedgerKeyFrozenVPower h from /\ in_i64 h /\ length from = AddrSize) /\
      f_RefundPower f = i64 (chunk_sum (f_PowerChunks f)) /\ Forall chunk_ok (f_PowerChunks f)
  | IBlockCount c => (exists a, k = LedgerKeyMissedBlockCount a) /\ in_i64 c
  end.

End Typed.

Section Laws.
Context `{VPowerProtos, !VPowerProtosLaws, CryptoLib}.

Lemma BlockCount_roundtrip c :
  in_i64 c -> BlockCount_Decode (put_be 8 (u64 c)) = Ok c.
Proof.
  intros Hc. unfold BlockCount_Decode. rewrite length_put_be; cbn [Nat.ltb Nat.leb].
  rewrite take_ge by (rewrite length_put_be; lia).
  rewrite get_put_be. unfold u64. rewrite Z.mul_0_l, Z.add_0_l. change (256 ^ Z.of_nat 8) with (2 ^ 64).
  rewrite Z.mod_mod by lia. f_equal. transitivity (i64 c); [|now apply i64_id].
  apply eqm64_i64. unfold eqm64. now rewrite Z.mod_mod by lia.
Qed.

#[export, refine] Instance VItem_laws : LedgerItemLaws VItem := { item_ok := vitem_ok }.
Proof.
  intros k [v|d|f|c]; cbn; unfold decode_at; cbn.
  - intros (-> & Hkey & Hf & Ht & Hs & _ & Hc).
    destruct (proto_roundtrip (MkVPowerProto (v_SumPower v) (v_PowerChunks v))) as (b & Hm & Hu).
    { split; [|done]. cbn. rewrite Hs. apply i64_range. }
    exists b. unfold VPower_Encode, defaultNewItem; rewrite Hm; cbn. split; [done|].
    unfold VPower_Decode. rewrite Hu; cbn.
    rewrite length_app, Hf, Ht; cbn. rewrite take_app_length', drop_app_length' by done.
    now destruct v; cbn in *; subst.
  - intros (-> & Hkey & Ha & Hl & Hs & He).
    destruct (proto_roundtrip (MkDelegateeProto (d_PubKey d) (d_Delegators d) (d_SumPower d) (d_SelfPower d)))
      as (b & Hm & Hu); [done|].
    exists b. unfold Delegatee_Encode; rewrite Hm; cbn. split; [done|].
    unfold defaultNewItem, Delegatee_Decode; cbn. rewrite Hu; cbn.
    destruct d; cbn in *. now subst.
  - intros ((h & from & -> & Hh & Hl) & Hr & Hc).
    destruct (proto_roundtrip (MkFrozenVPowerProto (f_RefundPower f) (f_PowerChunks f)))
      as (b & Hm & Hu).
    { split; [|done]. cbn. rewrite Hr. apply i64_range. }
    exists b. unfold Frozen_Encode; rewrite Hm; cbn. split; [done|].
    unfold defaultNewItem, Frozen_Decode; cbn. rewrite Hu; cbn. now destruct f.
  - intros ((a & ->) & Hc). eexists; split; [reflexivity|].
    unfold defaultNewItem; cbn [bytes_HasPrefix LedgerKeyMissedBlockCount KeyPrefixMissedBlockCount app
      KeyPrefixVPower KeyPrefixDelegatee KeyPrefixFrozenVPower Z.eqb Pos.eqb andb obind VItem_Decode].
    now rewrite BlockCount_roundtrip.
Defined.

End Laws.

(** ** The invariant across items *)

(** The power [f] has bonded to [a]. *)
Definition vsum (m : vmap) (f a : Address) : Z :=
  match m !! LedgerKeyVPower f a with
  | Some (IVPower v) => chunk_sum (v_PowerChunks v)
  | _ => 0
  end.

(** The power bonded to [a] by its delegators. *)
Definition vsum_all (m : vmap) (a : Address) : Z :=
  match m !! LedgerKeyDelegatee a with
  | Some (IDelegatee d) => zsum (map (fun f => vsum m f a) (d_Delegators d))
  | _ => 0
  end.

(** The delegatee at [a] agrees with the powers bonded to it. *)
Record dgt_ok (m : vmap) (a : Address) (d : Delegatee) : Prop := {
  dk_nodup : NoDup (d_Delegators d);
  dk_powers : forall f, f ∈ d_Delegators d <-> is_Some (m !! LedgerKeyVPower f a);
  dk_sum : d_SumPower d = i64 (zsum (map (fun f => vsum m f a) (d_Delegators d)));
  dk_self : d_SelfPower d = i64 (vsum m a a);
}.

(** The part of the ledger that belongs to the delegatee at [a]; without a
    delegatee there is no power bonded to it. *)
Definition dgt_part (m : vmap) (a : Address) : Prop :=
  match m !! LedgerKeyDelegatee a with
  | Some (IDelegatee d) => dgt_ok m a d
  | Some _ => False
  | None => forall f, m !! LedgerKeyVPower f a = None
  end.

Definition typed `{CryptoLib} (m : vmap) : Prop := forall k x, m !! k = Some x -> vitem_ok k x.

Record vinv `{CryptoLib} (m : vmap) : Prop := {
  vi_typed : typed m;
  vi_part : forall a, length a = AddrSize -> dgt_part m a;
}.

(** What is bonded and what is frozen, as exact sums of the chunks. *)
Definition bonded_of (_ : bytes) (x : VItem) : Z :=
  match x with IVPower v => chunk_sum (v_PowerChunks v) | _ => 0 end.
Definition frozen_of (_ : bytes) (x : VItem) : Z :=
  match x with IFrozen f => chunk_sum (f_PowerChunks f) | _ => 0 end.
Definition bonded (m : vmap) : Z := msum bonded_of m.
Definition frozen (m : vmap) : Z := msum frozen_of m.

Lemma chunk_sum_app a b : chunk_sum (a ++ b) = chunk_sum a + chunk_sum b.
Proof. unfold chunk_sum. now rewrite map_app, zsum_app. Qed.

Lemma vsum_lookup m f a v :
  m !! LedgerKeyVPower f a = Some (IVPower v) -> vsum m f a = chunk_sum (v_PowerChunks v).
Proof. unfold vsum. now intros ->. Qed.

Lemma vsum_None m f a : m !! LedgerKeyVPower f a = None -> vsum m f a = 0.
Proof. unfold vsum. now intros ->. Qed.

(** Keys of powers to the same delegatee differ by the delegator. *)
Lemma vkey_inj_from f g a : LedgerKeyVPower f a = LedgerKeyVPower g a -> f = g.
Proof. unfold LedgerKeyVPower. intros [= E]. now apply app_inv_tail in E. Qed.

Lemma vkey_to f a g b :
  length a = length b -> LedgerKeyVPower f a = LedgerKeyVPower g b -> f = g /\ a = b.
Proof. unfold LedgerKeyVPower. intros HL [= E]. now apply app_inj_2 in E. Qed.

Lemma vsum_agree m m' f a :
  m' !! LedgerKeyVPower f a = m !! LedgerKeyVPower f a -> vsum m' f a = vsum m f a.
Proof. unfold vsum. now intros ->. Qed.

(** A delegatee is untouched by writes to other keys. *)
Lemma dgt_ok_ext m m' a d :
  (forall f, m' !! LedgerKeyVPower f a = m !! LedgerKeyVPower f a) ->
  dgt_ok m a d -> dgt_ok m' a d.
Proof.
  intros E [Hn Hp Hs He]. split; [done| | |].
  - intros f. now rewrite E.
  - rewrite Hs. f_equal. apply zsum_map_ext. intros f _. symmetry. now apply vsum_agree.
  - rewrite He. f_equal. symmetry. now apply vsum_agree.
Qed.

Lemma dgt_part_ext m m' a :
  m' !! LedgerKeyDelegatee a = m !! LedgerKeyDelegatee a ->
  (forall f, m' !! LedgerKeyVPower f a = m !! LedgerKeyVPower f a) ->
  dgt_part m a -> dgt_part m' a.
Proof.
  unfold dgt_part. intros -> E. destruct (m !! _) as [[]|]; try done.
  - now apply dgt_ok_ext.
  - intros Hn f. now rewrite E.
Qed.

Lemma zsum_upd (g h : Address -> Z) l x :
  NoDup l -> x ∈ l -> (forall y, y <> x -> h y = g y) ->
  zsum (map h l) = zsum (map g l) + (h x - g x).
Proof.
  intros Hn Hx E. induction l as [|y l IH]; [now apply not_elem_of_nil in Hx|].
  apply NoDup_cons in Hn as [Hy Hn]. cbn [map zsum]. apply elem_of_cons in Hx as [->|Hx].
  - rewrite (zsum_map_ext h g l); [lia|]. intros z Hz. apply E. congruence.
  - rewrite IH by done. rewrite (E y) by congruence. lia.
Qed.

Lemma vsum_put m m' a f ds :
  NoDup ds -> (forall g, g <> f -> vsum m' g a = vsum m g a) -> (f ∉ ds -> vsum m f a = 0) ->
  zsum (map (fun g => vsum m' g a) (if decide (f ∈ ds) then ds else ds ++ [f])) =
  zsum (map (fun g => vsum m g a) ds) + (vsum m' f a - vsum m f a).
Proof.
  intros Hn Ev H0. destruct (decide (f ∈ ds)) as [Hin|Hin].
  - now apply (zsum_upd (fun g => vsum m g a) (fun g => vsum m' g a)).
  - rewrite map_app, zsum_app, (H0 Hin); cbn.
    rewrite (zsum_map_ext (fun g => vsum m' g a) (fun g => vsum m g a)); [lia|].
    intros g Hg. apply Ev. congruence.
Qed.

Lemma vsum_del m m' a f ds ds' :
  NoDup ds -> NoDup ds' -> f ∈ ds -> (forall g, g ∈ ds' <-> g ∈ ds /\ g <> f) ->
  (forall g, g <> f -> vsum m' g a = vsum m g a) ->
  zsum (map (fun g => vsum m' g a) ds') = zsum (map (fun g => vsum m g a) ds) - vsum m f a.
Proof.
  intros Hn Hn' Hin Hd Ev.
  assert (Hperm : ds ≡ₚ f :: ds').
  { apply NoDup_Permutation; [done| |].
    - apply NoDup_cons. split; [|done]. rewrite Hd. now intros [_ []].
    - intros g. rewrite elem_of_cons, Hd. destruct (decide (g = f)); naive_solver. }
  rewrite Hperm; cbn [map zsum].
  rewrite (zsum_map_ext (fun g => vsum m' g a) (fun g => vsum m g a) ds'); [lia|].
  intros g Hg. apply Ev. now apply Hd in Hg as [_ Hg].
Qed.

(** The power of delegator [f] to [a] is set to [v']. *)
Lemma dgt_ok_put m m' a f d d' v' :
  dgt_ok m a d ->
  (forall g, g <> f -> m' !! LedgerKeyVPower g a = m !! LedgerKeyVPower g a) ->
  m' !! LedgerKeyVPower f a = Some (IVPower v') ->
  d_Delegators d' = (if decide (f ∈ d_Delegators d) then d_Delegators d else d_Delegators d ++ [f]) ->
  d_SumPower d' = i64 (d_SumPower d + (chunk_sum (v_PowerChunks v') - vsum m f a)) ->
  d_SelfPower d' = (if decide (f = a)
    then i64 (d_SelfPower d + (chunk_sum (v_PowerChunks v') - vsum m f a)) else d_SelfPower d) ->
  dgt_ok m' a d'.
Proof.
  intros [Hn Hp Hs He] Eo Ef Hd Hs' He'.
  assert (Ev : forall g, g <> f -> vsum m' g a = vsum m g a) by (intros; now apply vsum_agree, Eo).
  pose proof (vsum_lookup _ _ _ _ Ef) as Evf.
  split.
  - rewrite Hd. destruct (decide _) as [Hin|Hin]; [exact Hn|]. apply NoDup_app. split; [done|].
    split; [|apply NoDup_singleton]. set_solver.
  - intros g. destruct (decide (g = f)) as [->|Hne].
    + rewrite Ef, Hd. split; [eauto|]. intros _. destruct (decide (f ∈ d_Delegators d)); set_solver.
    + rewrite Eo, <- Hp, Hd by done. destruct (decide (f ∈ d_Delegators d)); set_solver.
  - rewrite Hs', Hs, i64_add_l, Hd, <- Evf. f_equal. symmetry. apply vsum_put; try done.
    intros Hin. apply vsum_None, eq_None_not_Some. now rewrite <- Hp.
  - rewrite He'. destruct (decide (f = a)) as [Hfa|Hfa].
    + subst f. rewrite He, i64_add_l, Evf. f_equal. lia.
    + rewrite He. f_equal. symmetry. apply Ev. congruence.
Qed.

(** The power of delegator [f] to [a] is removed. *)
Lemma dgt_ok_del m m' a f d d' :
  dgt_ok m a d -> f ∈ d_Delegators d ->
  (forall g, g <> f -> m' !! LedgerKeyVPower g a = m !! LedgerKeyVPower g a) ->
  m' !! LedgerKeyVPower f a = None ->
  NoDup (d_Delegators d') -> (forall g, g ∈ d_Delegators d' <-> g ∈ d_Delegators d /\ g <> f) ->
  d_SumPower d' = i64 (d_SumPower d - vsum m f a) ->
  d_SelfPower d' = (if decide (f = a) then i64 (d_SelfPower d - vsum m f a) else d_SelfPower d) ->
  dgt_ok m' a d'.
Proof.
  intros [Hn Hp Hs He] Hin Eo Ef Hn' Hd Hs' He'.
  assert (Ev : forall g, g <> f -> vsum m' g a = vsum m g a) by (intros; now apply vsum_agree, Eo).
  split; [done| | |].
  - intros g. rewrite Hd, Hp. destruct (decide (g = f)) as [->|Hne].
    + rewrite Ef. split; [intros [_ []]; done|]. intros [? ?]; done.
    + rewrite Eo by done. naive_solver.
  - rewrite Hs', Hs, i64_sub_l. f_equal. symmetry. now apply vsum_del.
  - rewrite He'. destruct (decide (f = a)) as [Hfa|Hfa].
    + subst f. rewrite He, i64_sub_l, (vsum_None m' a a) by done. f_equal. lia.
    + rewrite He. f_equal. symmetry. apply Ev. congruence.
Qed.

(** ** The operations on items *)

Lemma bytes_Equal_decide {A} (a b : bytes) (x y : A) :
  (if bytes_Equal a b then x else y) = if decide (a = b) then x else y.
Proof.
  pose proof (bytes_Equal_true a b) as E. destruct (bytes_Equal a b), (decide (a = b)); naive_solver.
Qed.

Lemma remove_last_None {A} (p : A -> bool) l x :
  remove_last p l = None -> x ∈ l -> p x = false.
Proof.
  induction l as [|y l IH]; cbn; [set_solver|].
  destruct (remove_last p l) as [[]|] eqn:E; [done|].
  destruct (p y) eqn:Ep; [done|]. intros _ Hx. apply elem_of_cons in Hx as [->|]; auto.
Qed.

Lemma remove_last_Some {A} (p : A -> bool) l x rest :
  remove_last p l = Some (x, rest) ->
  exists l1 l2, l = l1 ++ x :: l2 /\ rest = l1 ++ l2 /\ p x = true.
Proof.
  revert rest; induction l as [|y l IH]; intros rest; cbn; [done|].
  destruct (remove_last p l) as [[z l']|].
  - intros [= -> <-]. destruct (IH l' eq_refl) as (l1 & l2 & -> & -> & Hp).
    now exists (y :: l1), l2.
  - destruct (p y) eqn:Ep; [|done]. intros [= -> ->]. now exists [], rest.
Qed.

Lemma hasDelegator_spec d f : hasDelegator d f = true <-> f ∈ d_Delegators d.
Proof.
  unfold hasDelegator. rewrite existsb_exists. split.
  - intros (x & Hx & E). apply bytes_Equal_true in E as <-. now apply list_elem_of_In.
  - intros Hf. exists f. rewrite bytes_Equal_refl. split; [now apply list_elem_of_In|done].
Qed.

Lemma addDelegator_Delegators d f :
  d_Delegators (addDelegator d f) =
    if decide (f ∈ d_Delegators d) then d_Delegators d else d_Delegators d ++ [f].
Proof.
  unfold addDelegator. pose proof (hasDelegator_spec d f) as E.
  destruct (hasDelegator d f), (decide (f ∈ d_Delegators d)); naive_solver.
Qed.

Lemma addDelegator_powers d f :
  d_SumPower (addDelegator d f) = d_SumPower d /\ d_SelfPower (addDelegator d f) = d_SelfPower d /\
  d_addr (addDelegator d f) = d_addr d /\ d_key (addDelegator d f) = d_key d /\
  d_PubKey (addDelegator d f) = d_PubKey d.
Proof. unfold addDelegator. now destruct (hasDelegator d f). Qed.

Lemma delDelegator_spec d f :
  NoDup (d_Delegators d) -> f ∈ d_Delegators d ->
  exists rest, delDelegator d f = with_delegators d rest /\ NoDup rest /\
    forall g, g ∈ rest <-> g ∈ d_Delegators d /\ g <> f.
Proof.
  intros Hn Hf. unfold delDelegator. destruct (remove_last _ _) as [[x rest]|] eqn:E.
  - apply remove_last_Some in E as (l1 & l2 & Hl & -> & Hx). apply bytes_Equal_true in Hx as ->.
    exists (l1 ++ l2). split; [done|]. rewrite Hl in Hn |- *.
    rewrite <- Permutation_middle in Hn. apply NoDup_cons in Hn as [Hf' Hn].
    split; [done|]. intros g. rewrite !elem_of_app, elem_of_cons. rewrite elem_of_app in Hf'.
    naive_solver.
  - eapply remove_last_None in E; [|done]. cbn in E. now rewrite bytes_Equal_refl in E.
Qed.

Lemma delPowerWithTxHash_spec v txhash pc v' :
  delPowerWithTxHash v txhash = (Some pc, v') ->
  v_SumPower v = i64 (chunk_sum (v_PowerChunks v)) -> Forall chunk_ok (v_PowerChunks v) ->
  v_key v' = v_key v /\ v_from v' = v_from v /\ v_to v' = v_to v /\
  pc_TxHash pc = txhash /\ pc ∈ v_PowerChunks v /\
  chunk_sum (v_PowerChunks v) = chunk_sum (v_PowerChunks v') + pc_Power pc /\
  v_SumPower v' = i64 (chunk_sum (v_PowerChunks v')) /\ Forall chunk_ok (v_PowerChunks v').
Proof.
  unfold delPowerWithTxHash. intros E Hs Hc.
  destruct (remove_last _ _) as [[x rest]|] eqn:Er; [|done]. injection E as -> <-.
  apply remove_last_Some in Er as (l1 & l2 & Hl & -> & Hx). apply bytes_Equal_true in Hx.
  cbn. rewrite Hs, Hl in *.
  assert (Es : chunk_sum (l1 ++ pc :: l2) = chunk_sum (l1 ++ l2) + pc_Power pc)
    by (rewrite !chunk_sum_app; unfold chunk_sum; cbn; lia).
  rewrite Es, i64_sub_l. split_and!; try done.
  - rewrite elem_of_app, elem_of_cons. auto.
  - unfold chunk_sum. f_equal. lia.
  - apply Forall_app in Hc as [H1 H2]. apply Forall_app. split; [done|]. now apply Forall_cons in H2 as [_ H2].
Qed.

Lemma fold_i64_sum pcs acc :
  fold_left (fun acc pc => i64 (acc + pc_Power pc)) pcs (i64 acc) = i64 (acc + chunk_sum pcs).
Proof.
  revert acc; induction pcs as [|pc pcs IH]; intros acc; unfold chunk_sum; cbn; [now rewrite Z.add_0_r|].
  rewrite i64_add_l, IH. unfold chunk_sum. f_equal. lia.
Qed.

(** ** Updates of the ledger *)

Section Updates.
Context `{CryptoLib}.
Implicit Types (m : vmap).

Lemma typed_insert m k x : typed m -> vitem_ok k x -> typed (<[k := x]> m).
Proof. intros Ht Hx k' x' Hk. apply lookup_insert_Some in Hk as [[<- <-]|[_ Hk]]; eauto. Qed.

Lemma typed_delete m k : typed m -> typed (delete k m).
Proof. intros Ht k' x' Hk. apply lookup_delete_Some in Hk as [_ Hk]; eauto. Qed.

(** What is stored under the key of a power is that power. *)
Lemma typed_vpower m f a x :
  typed m -> length a = AddrSize -> m !! LedgerKeyVPower f a = Some x ->
  exists v, x = IVPower v /\ v_from v = f /\ v_to v = a.
Proof.
  intros Ht Ha Hx. pose proof (Ht _ _ Hx) as Hok. destruct x as [v|d|fr|c]; cbn in Hok.
  - exists v. split; [done|]. destruct Hok as (E & _ & _ & Hl & _).
    apply vkey_to in E as [-> ->]; [done|congruence].
  - now destruct Hok.
  - destruct Hok as ((h & fr' & E & _) & _). done.
  - destruct Hok as ((a' & E) & _). done.
Qed.

Lemma typed_delegatee m a x :
  typed m -> m !! LedgerKeyDelegatee a = Some x -> exists d, x = IDelegatee d /\ d_addr d = a.
Proof.
  intros Ht Hx. pose proof (Ht _ _ Hx) as Hok. destruct x as [v|d|fr|c]; cbn in Hok.
  - now destruct Hok.
  - exists d. split; [done|]. destruct Hok as (E & _). unfold LedgerKeyDelegatee in E. now injection E.
  - destruct Hok as ((h & fr' & E & _) & _). done.
  - destruct Hok as ((a' & E) & _). done.
Qed.

Lemma typed_frozen m h f x :
  typed m -> m !! LedgerKeyFrozenVPower h f = Some x ->
  exists fr, x = IFrozen fr /\ f_RefundPower fr = i64 (chunk_sum (f_PowerChunks fr)) /\
    Forall chunk_ok (f_PowerChunks fr).
Proof.
  intros Ht Hx. pose proof (Ht _ _ Hx) as Hok. destruct x as [v|d|fr|c]; cbn in Hok.
  - now destruct Hok.
  - now destruct Hok.
  - exists fr. naive_solver.
  - destruct Hok as ((a' & E) & _). done.
Qed.

Lemma vinv_dgt m a d :
  vinv m -> m !! LedgerKeyDelegatee a = Some (IDelegatee d) ->
  length a = AddrSize /\ d_addr d = a /\ d_key d = LedgerKeyDelegatee a /\
  a = PubKeyBytes2Addr (d_PubKey d) /\ dgt_ok m a d.
Proof.
  intros [Ht Hp] Hd. destruct (typed_delegatee m a _ Ht Hd) as (d' & [= <-] & <-).
  pose proof (Ht _ _ Hd) as (_ & Hk & Hpk & Hl & _). split_and!; try done.
  specialize (Hp _ Hl). unfold dgt_part in Hp. now rewrite Hd in Hp.
Qed.

(** The invariant only has to be checked at the delegatee an update is about. *)
Lemma vinv_at m m' a :
  vinv m -> length a = AddrSize -> typed m' -> dgt_part m' a ->
  (forall b, b <> a -> m' !! LedgerKeyDelegatee b = m !! LedgerKeyDelegatee b) ->
  (forall f b, b <> a -> length b = AddrSize ->
    m' !! LedgerKeyVPower f b = m !! LedgerKeyVPower f b) ->
  vinv m'.
Proof.
  intros [Ht Hp] Ha Ht' Hpa Ed Ev. split; [done|]. intros b Hb.
  destruct (decide (b = a)) as [->|Hne]; [done|]. apply (dgt_part_ext m); auto.
Qed.

Lemma vinv_other m m' :
  vinv m -> typed m' ->
  (forall b, m' !! LedgerKeyDelegatee b = m !! LedgerKeyDelegatee b) ->
  (forall f b, m' !! LedgerKeyVPower f b = m !! LedgerKeyVPower f b) ->
  vinv m'.
Proof. intros [Ht Hp] Ht' Ed Ev. split; [done|]. intros b Hb. apply (dgt_part_ext m); auto. Qed.

Lemma dkey_inj a b : LedgerKeyDelegatee a = LedgerKeyDelegatee b -> a = b.
Proof. unfold LedgerKeyDelegatee. intros E. now injection E. Qed.

Lemma lookup_dkey_vkey m a f b x : <[LedgerKeyVPower f b := x]> m !! LedgerKeyDelegatee a = m !! LedgerKeyDelegatee a.
Proof. now rewrite lookup_insert_ne. Qed.

Lemma lookup_vkey_dkey m a f b x : <[LedgerKeyDelegatee a := x]> m !! LedgerKeyVPower f b = m !! LedgerKeyVPower f b.
Proof. now rewrite lookup_insert_ne. Qed.

(** Writing the power [v'] of [f] and the delegatee [d'] that accounts for it. *)
Lemma vinv_put m f a d d' v' :
  vinv m -> length a = AddrSize -> dgt_ok m a d ->
  vitem_ok (LedgerKeyVPower f a) (IVPower v') -> vitem_ok (LedgerKeyDelegatee a) (IDelegatee d') ->
  d_Delegators d' = (if decide (f ∈ d_Delegators d) then d_Delegators d else d_Delegators d ++ [f]) ->
  d_SumPower d' = i64 (d_SumPower d + (chunk_sum (v_PowerChunks v') - vsum m f a)) ->
  d_SelfPower d' = (if decide (f = a)
    then i64 (d_SelfPower d + (chunk_sum (v_PowerChunks v') - vsum m f a)) else d_SelfPower d) ->
  vinv (<[LedgerKeyDelegatee a := IDelegatee d']> (<[LedgerKeyVPower f a := IVPower v']> m)).
Proof.
  intros Hv Ha Hd Hok1 Hok2 E1 E2 E3. apply (vinv_at m _ a Hv Ha).
  - do 2 (apply typed_insert; [|done]). apply Hv.
  - unfold dgt_part. rewrite lookup_insert_eq. apply (dgt_ok_put m _ a f d d' v'); try done.
    + intros g Hg. rewrite lookup_vkey_dkey, lookup_insert_ne; [done|].
      intros E. apply vkey_inj_from in E. congruence.
    + now rewrite lookup_vkey_dkey, lookup_insert_eq.
  - intros b Hb. rewrite lookup_insert_ne, lookup_dkey_vkey; [done|]. intros E. apply dkey_inj in E. congruence.
  - intros g b Hb Hl. rewrite lookup_vkey_dkey, lookup_insert_ne; [done|].
    intros E. apply vkey_to in E as [_ ->]; [done|congruence].
Qed.

(** Removing the power of [f]. *)
Lemma vinv_del m f a d d' :
  vinv m -> length a = AddrSize -> dgt_ok m a d -> f ∈ d_Delegators d ->
  vitem_ok (LedgerKeyDelegatee a) (IDelegatee d') ->
  NoDup (d_Delegators d') -> (forall g, g ∈ d_Delegators d' <-> g ∈ d_Delegators d /\ g <> f) ->
  d_SumPower d' = i64 (d_SumPower d - vsum m f a) ->
  d_SelfPower d' = (if decide (f = a) then i64 (d_SelfPower d - vsum m f a) else d_SelfPower d) ->
  vinv (<[LedgerKeyDelegatee a := IDelegatee d']> (delete (LedgerKeyVPower f a) m)).
Proof.
  intros Hv Ha Hd Hf Hok Hn E1 E2 E3. apply (vinv_at m _ a Hv Ha).
  - apply typed_insert; [|done]. apply typed_delete, Hv.
  - unfold dgt_part. rewrite lookup_insert_eq. apply (dgt_ok_del m _ a f d d'); try done.
    + intros g Hg. rewrite lookup_vkey_dkey, lookup_delete_ne; [done|].
      intros E. apply vkey_inj_from in E. congruence.
    + now rewrite lookup_vkey_dkey, lookup_delete_eq.
  - intros b Hb. rewrite lookup_insert_ne, lookup_delete_ne; [done| |]; intros E; [done|].
    apply dkey_inj in E. congruence.
  - intros g b Hb Hl. rewrite lookup_vkey_dkey, lookup_delete_ne; [done|].
    intros E. apply vkey_to in E as [_ ->]; [done|congruence].
Qed.

(** The object [d] stands for the delegatee at [a], [v] for the power of [f]:
    what is stored, or a new object when nothing is. *)
Record dgt_view m (a : Address) (d : Delegatee) : Prop := {
  dv_addr : d_addr d = a;
  dv_key : d_key d = LedgerKeyDelegatee a;
  dv_pub : a = PubKeyBytes2Addr (d_PubKey d);
  dv_len : length a = AddrSize;
  dv_ok : dgt_ok m a d;
}.

Record vpow_view m (f a : Address) (v : VPower) : Prop := {
  vv_from : v_from v = f;
  vv_to : v_to v = a;
  vv_key : v_key v = LedgerKeyVPower f a;
  vv_len : length f = AddrSize;
  vv_sum : v_SumPower v = i64 (chunk_sum (v_PowerChunks v));
  vv_chunks : Forall chunk_ok (v_PowerChunks v);
  vv_stored : vsum m f a = chunk_sum (v_PowerChunks v);
}.

Lemma dgt_view_stored m a d :
  vinv m -> m !! LedgerKeyDelegatee a = Some (IDelegatee d) -> dgt_view m a d.
Proof. intros Hv Hd. destruct (vinv_dgt m a d Hv Hd) as (Hl & Ha & Hk & Hpk & Hok). now split. Qed.

Lemma dgt_view_new m pk :
  vinv m -> length (PubKeyBytes2Addr pk) = AddrSize ->
  m !! LedgerKeyDelegatee (PubKeyBytes2Addr pk) = None ->
  dgt_view m (PubKeyBytes2Addr pk) (NewDelegatee pk).
Proof.
  intros [_ Hp] Hl Hd. specialize (Hp _ Hl). unfold dgt_part in Hp. rewrite Hd in Hp.
  split; try done. split; cbn [NewDelegatee d_Delegators d_SumPower d_SelfPower map zsum].
  - constructor.
  - intros f. rewrite Hp. split; [set_solver|]. intros [? ?]; done.
  - done.
  - now rewrite vsum_None by apply Hp.
Qed.

Lemma vpow_view_stored m f a v :
  typed m -> length a = AddrSize -> m !! LedgerKeyVPower f a = Some (IVPower v) ->
  vpow_view m f a v /\ v_PowerChunks v <> [].
Proof.
  intros Ht Ha Hv. destruct (typed_vpower m f a _ Ht Ha Hv) as (v' & [= <-] & <- & <-).
  pose proof (Ht _ _ Hv) as (_ & Hk & Hlf & _ & Hs & Hne & Hc).
  split; [|done]. split; try done. now apply vsum_lookup.
Qed.

Lemma vpow_view_new m f a :
  length f = AddrSize -> m !! LedgerKeyVPower f a = None -> vpow_view m f a (NewVPower f a).
Proof. intros Hl Hv. split; try done. now apply vsum_None. Qed.

(** Changing the powers and the delegators of a delegatee keeps it well typed. *)
Lemma dgt_view_item m a d d' :
  dgt_view m a d -> d_addr d' = d_addr d -> d_key d' = d_key d -> d_PubKey d' = d_PubKey d ->
  in_i64 (d_SumPower d') -> in_i64 (d_SelfPower d') -> vitem_ok (LedgerKeyDelegatee a) (IDelegatee d').
Proof.
  intros [Ha Hk Hp Hl _] Ea Ek Ep H1 H2. cbn. rewrite Ea, Ek, Ep. now rewrite Ha.
Qed.

Lemma dgt_ok_range m a d : dgt_ok m a d -> in_i64 (d_SumPower d) /\ in_i64 (d_SelfPower d).
Proof. intros [_ _ -> ->]. split; apply i64_range. Qed.

Lemma vpow_view_item m f a v v' :
  vpow_view m f a v -> length a = AddrSize -> v_key v' = v_key v -> v_from v' = v_from v ->
  v_to v' = v_to v -> v_SumPower v' = i64 (chunk_sum (v_PowerChunks v')) ->
  v_PowerChunks v' <> [] -> Forall chunk_ok (v_PowerChunks v') ->
  vitem_ok (LedgerKeyVPower f a) (IVPower v').
Proof. intros [Hf Ht Hk Hl _ _ _] Ha Ek Ef Et. cbn. rewrite Ek, Ef, Et, Hf, Ht. done. Qed.

(** Bonding one more chunk. *)
Definition bond_map m (f a : Address) (d : Delegatee) (v : VPower) (power height : Z) (txhash : bytes) : vmap :=
  <[LedgerKeyDelegatee a := IDelegatee (addDelegator (addPower d f power) f)]>
    (<[LedgerKeyVPower f a := IVPower (addPowerWithTxHash v power height txhash)]> m).

Lemma bond_items m f a d v power height txhash :
  dgt_view m a d -> vpow_view m f a v -> in_i64 power -> in_i64 height ->
  vitem_ok (LedgerKeyVPower f a) (IVPower (addPowerWithTxHash v power height txhash)) /\
  vitem_ok (LedgerKeyDelegatee a) (IDelegatee (addDelegator (addPower d f power) f)).
Proof.
  intros Hd Hv Hp Hh. destruct (addDelegator_powers (addPower d f power) f) as (E1 & E2 & E3 & E4 & E5).
  split.
  - apply (vpow_view_item m f a v); try done; [apply Hd| | |]; cbn [addPowerWithTxHash v_SumPower v_PowerChunks].
    + rewrite (vv_sum _ _ _ _ Hv), i64_add_l, chunk_sum_app. f_equal. unfold chunk_sum; cbn. lia.
    + now destruct (v_PowerChunks v).
    + apply Forall_app. split; [apply Hv|]. now apply Forall_singleton.
  - apply (dgt_view_item m a d); rewrite ?E1, ?E2, ?E3, ?E4, ?E5; try done; cbn; [apply i64_range|].
    destruct (bytes_Equal _ _); [apply i64_range|]. now apply (dgt_ok_range m a), Hd.
Qed.

Lemma bond_inv m f a d v power height txhash :
  vinv m -> dgt_view m a d -> vpow_view m f a v -> in_i64 power -> in_i64 height ->
  vinv (bond_map m f a d v power height txhash).
Proof.
  intros Hm Hd Hv Hp Hh. destruct (bond_items m f a d v power height txhash) as [I1 I2]; try done.
  destruct (addDelegator_powers (addPower d f power) f) as (E1 & E2 & _).
  assert (Es : chunk_sum (v_PowerChunks (addPowerWithTxHash v power height txhash)) - vsum m f a = power).
  { rewrite (vv_stored _ _ _ _ Hv). cbn [addPowerWithTxHash v_PowerChunks].
    rewrite chunk_sum_app. unfold chunk_sum; cbn. lia. }
  apply (vinv_put m f a d); try done; [apply Hd..| | |]; rewrite ?Es.
  - now rewrite addDelegator_Delegators.
  - now rewrite E1.
  - rewrite E2. cbn. rewrite (dv_addr _ _ _ Hd). apply bytes_Equal_decide.
Qed.

(** ** What is bonded and frozen after an update *)

Lemma at_vkey m f a : at_key bonded_of m (LedgerKeyVPower f a) = vsum m f a.
Proof. unfold at_key, vsum. now destruct (m !! _) as [[]|]. Qed.

Lemma at_vkey_frozen m f a :
  typed m -> length a = AddrSize -> at_key frozen_of m (LedgerKeyVPower f a) = 0.
Proof.
  intros Ht Ha. unfold at_key. destruct (m !! _) as [x|] eqn:E; [|done].
  now destruct (typed_vpower m f a x Ht Ha E) as (v & -> & _).
Qed.

Lemma at_dkey m a :
  typed m -> at_key bonded_of m (LedgerKeyDelegatee a) = 0 /\ at_key frozen_of m (LedgerKeyDelegatee a) = 0.
Proof.
  intros Ht. unfold at_key. destruct (m !! _) as [x|] eqn:E; [|done].
  now destruct (typed_delegatee m a x Ht E) as (d & -> & _).
Qed.

Lemma at_fkey m h f :
  typed m -> at_key bonded_of m (LedgerKeyFrozenVPower h f) = 0.
Proof.
  intros Ht. unfold at_key. destruct (m !! _) as [x|] eqn:E; [|done].
  now destruct (typed_frozen m h f x Ht E) as (fr & -> & _).
Qed.

Lemma put_dgt_sums m a d :
  typed m -> bonded (<[LedgerKeyDelegatee a := IDelegatee d]> m) = bonded m /\
             frozen (<[LedgerKeyDelegatee a := IDelegatee d]> m) = frozen m.
Proof.
  intros Ht. destruct (at_dkey m a Ht) as [E1 E2]. unfold bonded, frozen.
  rewrite !msum_insert, E1, E2. cbn. lia.
Qed.

Lemma del_dgt_sums m a :
  typed m -> bonded (delete (LedgerKeyDelegatee a) m) = bonded m /\
             frozen (delete (LedgerKeyDelegatee a) m) = frozen m.
Proof.
  intros Ht. destruct (at_dkey m a Ht) as [E1 E2]. unfold bonded, frozen.
  rewrite !msum_delete, E1, E2. lia.
Qed.

Lemma put_vpow_sums m f a v :
  typed m -> length a = AddrSize ->
  bonded (<[LedgerKeyVPower f a := IVPower v]> m) =
    bonded m + (chunk_sum (v_PowerChunks v) - vsum m f a) /\
  frozen (<[LedgerKeyVPower f a := IVPower v]> m) = frozen m.
Proof.
  intros Ht Ha. unfold bonded, frozen. rewrite !msum_insert, at_vkey, at_vkey_frozen by done.
  cbn [bonded_of frozen_of]. lia.
Qed.

Lemma del_vpow_sums m f a :
  typed m -> length a = AddrSize ->
  bonded (delete (LedgerKeyVPower f a) m) = bonded m - vsum m f a /\
  frozen (delete (LedgerKeyVPower f a) m) = frozen m.
Proof.
  intros Ht Ha. unfold bonded, frozen. rewrite !msum_delete, at_vkey, at_vkey_frozen by done. lia.
Qed.

Lemma bond_sums m f a d v power height txhash :
  vinv m -> dgt_view m a d -> vpow_view m f a v -> in_i64 power -> in_i64 height ->
  bonded (bond_map m f a d v power height txhash) = bonded m + power /\
  frozen (bond_map m f a d v power height txhash) = frozen m.
Proof.
  intros [Ht _] Hd Hv Hp Hh. destruct (bond_items m f a d v power height txhash) as [I1 I2]; try done.
  unfold bond_map. edestruct (put_dgt_sums (<[LedgerKeyVPower f a :=
    IVPower (addPowerWithTxHash v power height txhash)]> m) a) as [-> ->]; [now apply typed_insert|].
  destruct (put_vpow_sums m f a (addPowerWithTxHash v power height txhash) Ht (dv_len _ _ _ Hd)) as [-> ->].
  rewrite (vv_stored _ _ _ _ Hv). cbn [addPowerWithTxHash v_PowerChunks].
  rewrite chunk_sum_app. unfold chunk_sum; cbn. lia.
Qed.

(** ** Unbonding a chunk *)

Definition unbond_map m (f a : Address) (d : Delegatee) (v' : VPower) (pc : PowerChunk) : vmap :=
  if (length (v_PowerChunks v') =? 0)%nat
  then <[LedgerKeyDelegatee a := IDelegatee (delDelegator (delPower d f (pc_Power pc)) f)]>
         (delete (LedgerKeyVPower f a) m)
  else <[LedgerKeyDelegatee a := IDelegatee (delPower d f (pc_Power pc))]>
         (<[LedgerKeyVPower f a := IVPower v']> m).

Lemma delDelegator_powers d f :
  d_SumPower (delDelegator d f) = d_SumPower d /\ d_SelfPower (delDelegator d f) = d_SelfPower d /\
  d_addr (delDelegator d f) = d_addr d /\ d_key (delDelegator d f) = d_key d /\
  d_PubKey (delDelegator d f) = d_PubKey d.
Proof. unfold delDelegator. now destruct (remove_last _ _) as [[]|]. Qed.

Lemma delPower_item m a d f p :
  dgt_view m a d -> vitem_ok (LedgerKeyDelegatee a) (IDelegatee (delPower d f p)) /\
                    vitem_ok (LedgerKeyDelegatee a) (IDelegatee (delDelegator (delPower d f p) f)).
Proof.
  intros Hd. destruct (delDelegator_powers (delPower d f p) f) as (E1 & E2 & E3 & E4 & E5).
  destruct (dgt_ok_range m a d (dv_ok _ _ _ Hd)) as [_ Hr].
  assert (Hs : in_i64 (d_SelfPower (delPower d f p)))
    by (cbn; destruct (bytes_Equal _ _); [apply i64_range|done]).
  split; apply (dgt_view_item m a d); rewrite ?E1, ?E2, ?E3, ?E4, ?E5; try done; apply i64_range.
Qed.

Lemma unbond_spec m f a d v v' pc txhash :
  vinv m -> dgt_view m a d -> m !! LedgerKeyVPower f a = Some (IVPower v) ->
  delPowerWithTxHash v txhash = (Some pc, v') ->
  vinv (unbond_map m f a d v' pc) /\
  bonded (unbond_map m f a d v' pc) = bonded m - pc_Power pc /\
  frozen (unbond_map m f a d v' pc) = frozen m.
Proof.
  intros Hm Hd Hv Hdel. pose proof (vi_typed _ Hm) as Ht. pose proof (dv_len _ _ _ Hd) as Ha.
  destruct (vpow_view_stored m f a v Ht Ha Hv) as [Vv _].
  destruct (delPowerWithTxHash_spec v txhash pc v' Hdel (vv_sum _ _ _ _ Vv) (vv_chunks _ _ _ _ Vv))
    as (Ek & Ef & Et & _ & _ & Es & Es' & Hc).
  assert (Hin : f ∈ d_Delegators d) by (rewrite (dk_powers _ _ _ (dv_ok _ _ _ Hd)), Hv; eauto).
  destruct (delPower_item m a d f (pc_Power pc) Hd) as [I1 I2]. unfold unbond_map.
  pose proof (vv_stored _ _ _ _ Vv) as Est.
  destruct (Nat.eqb_spec (length (v_PowerChunks v')) 0) as [E0|E0].
  - apply nil_length_inv in E0. rewrite E0 in Es. unfold chunk_sum at 2 in Es; cbn in Es.
    edestruct (put_dgt_sums (delete (LedgerKeyVPower f a) m) a) as [-> ->]; [now apply typed_delete|].
    destruct (del_vpow_sums m f a Ht Ha) as [-> ->]. split; [|lia].
    destruct (delDelegator_spec (delPower d f (pc_Power pc)) f) as (rest & Er & Hn & Hr);
      [apply Hd|done|]. rewrite Er in I2 |- *.
    apply (vinv_del m f a d); try done; [apply Hd| |]; cbn.
    + f_equal. lia.
    + rewrite (dv_addr _ _ _ Hd), bytes_Equal_decide. destruct (decide (f = a)); [f_equal; lia|done].
  - assert (I3 : vitem_ok (LedgerKeyVPower f a) (IVPower v')).
    { apply (vpow_view_item m f a v); try done. now intros En; rewrite En in E0. }
    edestruct (put_dgt_sums (<[LedgerKeyVPower f a := IVPower v']> m) a) as [-> ->]; [now apply typed_insert|].
    destruct (put_vpow_sums m f a v' Ht Ha) as [-> ->]. split; [|lia].
    apply (vinv_put m f a d); try done; [apply Hd| | |]; cbn.
    + now destruct (decide _).
    + f_equal. lia.
    + rewrite (dv_addr _ _ _ Hd), bytes_Equal_decide. destruct (decide (f = a)); [f_equal; lia|done].
Qed.

(** ** Freezing *)

Definition frozen_at m (h : Z) (f : Address) : FrozenVPower :=
  match m !! LedgerKeyFrozenVPower h f with
  | Some (IFrozen fr) => fr
  | _ => newFrozenVPower 0
  end.

Definition freeze_item m (h : Z) (f : Address) (pcs : list PowerChunk) : VItem :=
  IFrozen (MkFrozenVPower (i64 (f_RefundPower (frozen_at m h f) + chunk_sum pcs))
             (f_PowerChunks (frozen_at m h f) ++ pcs)).

Definition freeze_map m (h : Z) (f : Address) (pcs : list PowerChunk) : vmap :=
  <[LedgerKeyFrozenVPower h f := freeze_item m h f pcs]> m.

Lemma frozen_at_ok m h f :
  typed m -> f_RefundPower (frozen_at m h f) = i64 (chunk_sum (f_PowerChunks (frozen_at m h f))) /\
             Forall chunk_ok (f_PowerChunks (frozen_at m h f)).
Proof.
  intros Ht. unfold frozen_at. destruct (m !! _) as [x|] eqn:E; [|now split].
  now destruct (typed_frozen m h f x Ht E) as (fr & -> & ? & ?).
Qed.

Lemma freeze_item_ok m h f pcs :
  typed m -> in_i64 h -> length f = AddrSize -> Forall chunk_ok pcs ->
  vitem_ok (LedgerKeyFrozenVPower h f) (freeze_item m h f pcs).
Proof.
  intros Ht Hh Hf Hc. destruct (frozen_at_ok m h f Ht) as [Er Hfc].
  cbn [freeze_item vitem_ok f_RefundPower f_PowerChunks]. split; [eauto|]. split.
  - rewrite Er, i64_add_l, chunk_sum_app. done.
  - apply Forall_app. now split.
Qed.

Lemma freeze_sums m h f pcs :
  typed m -> bonded (freeze_map m h f pcs) = bonded m /\
             frozen (freeze_map m h f pcs) = frozen m + chunk_sum pcs.
Proof.
  intros Ht. unfold freeze_map, bonded, frozen. rewrite !msum_insert, (at_fkey m h f Ht).
  split; [cbn; lia|]. cbn [freeze_item frozen_of f_PowerChunks]. rewrite chunk_sum_app.
  unfold at_key, frozen_at. destruct (m !! _) as [x|] eqn:E; [|cbn; unfold chunk_sum; cbn; lia].
  destruct (typed_frozen m h f x Ht E) as (fr & -> & _). cbn. lia.
Qed.

Lemma freeze_dkey m h f pcs b : freeze_map m h f pcs !! LedgerKeyDelegatee b = m !! LedgerKeyDelegatee b.
Proof. unfold freeze_map. now rewrite lookup_insert_ne. Qed.

Lemma freeze_vkey m h f pcs g b : freeze_map m h f pcs !! LedgerKeyVPower g b = m !! LedgerKeyVPower g b.
Proof. unfold freeze_map. now rewrite lookup_insert_ne. Qed.

Lemma freeze_inv m h f pcs :
  vinv m -> in_i64 h -> length f = AddrSize -> Forall chunk_ok pcs -> vinv (freeze_map m h f pcs).
Proof.
  intros Hm Hh Hf Hc. apply (vinv_other m); [done| |apply freeze_dkey|apply freeze_vkey].
  apply typed_insert; [apply Hm|]. apply freeze_item_ok; try done. apply Hm.
Qed.

(** ** Unbonding everything delegated to [a]

    The ledger when the powers of [ds] are still bonded. *)
Record unbonding m0 (a : Address) (ds : list Address) m : Prop := {
  ub_typed : typed m;
  ub_dgt : forall b, m !! LedgerKeyDelegatee b = m0 !! LedgerKeyDelegatee b;
  ub_other : forall f b, b <> a -> length b = AddrSize ->
    m !! LedgerKeyVPower f b = m0 !! LedgerKeyVPower f b;
  ub_left : forall f, f ∈ ds -> m !! LedgerKeyVPower f a = m0 !! LedgerKeyVPower f a;
  ub_done : forall f, f ∉ ds -> m !! LedgerKeyVPower f a = None;
  ub_bonded : bonded m = bonded m0 - vsum_all m0 a + zsum (map (fun f => vsum m0 f a) ds);
  ub_total : bonded m + frozen m = bonded m0 + frozen m0;
}.

Lemma unbonding_start m a d :
  vinv m -> m !! LedgerKeyDelegatee a = Some (IDelegatee d) -> unbonding m a (d_Delegators d) m.
Proof.
  intros Hm Hd. destruct (vinv_dgt m a d Hm Hd) as (_ & _ & _ & _ & [_ Hp _ _]).
  split; try done; [apply Hm| |].
  - intros f Hf. apply eq_None_not_Some. now rewrite <- Hp.
  - unfold vsum_all. rewrite Hd. lia.
Qed.

Lemma unbonding_step m0 a f ds m h v :
  unbonding m0 a (f :: ds) m -> NoDup (f :: ds) -> length a = AddrSize -> in_i64 h ->
  length f = AddrSize -> m !! LedgerKeyVPower f a = Some (IVPower v) -> Forall chunk_ok (v_PowerChunks v) ->
  unbonding m0 a ds (delete (LedgerKeyVPower f a) (freeze_map m h f (v_PowerChunks v))).
Proof.
  intros [Ht Ed Eo El En Eb Etot] Hn Ha Hh Hf Hv Hc. apply NoDup_cons in Hn as [Hnin Hn].
  assert (Htf : typed (freeze_map m h f (v_PowerChunks v)))
    by (apply typed_insert; [done|]; now apply freeze_item_ok).
  destruct (freeze_sums m h f (v_PowerChunks v) Ht) as [S1 S2].
  destruct (del_vpow_sums _ f a Htf Ha) as [S3 S4].
  assert (Ev : vsum (freeze_map m h f (v_PowerChunks v)) f a = chunk_sum (v_PowerChunks v))
    by (apply vsum_lookup; now rewrite freeze_vkey).
  assert (Ev0 : vsum m0 f a = chunk_sum (v_PowerChunks v)).
  { apply vsum_lookup. rewrite <- El by set_solver. done. }
  assert (Hne : forall g, g <> f -> delete (LedgerKeyVPower f a) (freeze_map m h f (v_PowerChunks v))
      !! LedgerKeyVPower g a = m !! LedgerKeyVPower g a).
  { intros g Hg. rewrite lookup_delete_ne, freeze_vkey; [done|].
    intros E. apply vkey_inj_from in E. congruence. }
  split.
  - now apply typed_delete.
  - intros b. now rewrite lookup_delete_ne, freeze_dkey.
  - intros g b Hb Hl. rewrite lookup_delete_ne, freeze_vkey; [auto|].
    intros E. apply vkey_to in E as [_ ->]; [done|congruence].
  - intros g Hg. rewrite Hne by congruence. apply El. set_solver.
  - intros g Hg. destruct (decide (g = f)) as [->|Hg']; [apply lookup_delete_eq|].
    rewrite Hne by done. apply En. set_solver.
  - rewrite S3, S1, Eb, Ev. cbn [map zsum]. lia.
  - rewrite S3, S4, S1, S2, Ev. lia.
Qed.

Lemma unbonding_end m0 a m :
  vinv m0 -> length a = AddrSize -> unbonding m0 a [] m ->
  vinv (delete (LedgerKeyDelegatee a) m) /\
  bonded (delete (LedgerKeyDelegatee a) m) = bonded m0 - vsum_all m0 a /\
  frozen (delete (LedgerKeyDelegatee a) m) = frozen m0 + vsum_all m0 a.
Proof.
  intros Hm0 Ha [Ht Ed Eo El En Eb Etot]. destruct (del_dgt_sums m a Ht) as [-> ->]. cbn in Eb.
  split; [|lia]. apply (vinv_at m0 _ a Hm0 Ha).
  - now apply typed_delete.
  - unfold dgt_part. rewrite lookup_delete_eq. intros f. rewrite lookup_delete_ne by done.
    apply En. set_solver.
  - intros b Hb. rewrite lookup_delete_ne; [apply Ed|]. intros E. apply dkey_inj in E. congruence.
  - intros f b Hb Hl. rewrite lookup_delete_ne by done. auto.
Qed.

(** The ledger after the powers of [ds] to [a] are frozen until [h], one delegator
    after the other. *)
Definition unbond_one (h : Z) (a : Address) m (f : Address) : vmap :=
  match m !! LedgerKeyVPower f a with
  | Some (IVPower v) => delete (LedgerKeyVPower f a) (freeze_map m h f (v_PowerChunks v))
  | _ => m
  end.

Definition unbond_list (h : Z) (a : Address) m (ds : list Address) : vmap := fold_left (unbond_one h a) ds m.

Lemma unbond_one_other h a m f k :
  k <> LedgerKeyVPower f a -> k <> LedgerKeyFrozenVPower h f -> unbond_one h a m f !! k = m !! k.
Proof.
  intros H1 H2. unfold unbond_one. destruct (m !! _) as [[v| | |]|]; try done. rewrite lookup_delete_ne by congruence.
  unfold freeze_map. now rewrite lookup_insert_ne by congruence.
Qed.

Lemma unbond_list_other h a ds : forall m k,
  (forall f, f ∈ ds -> k <> LedgerKeyVPower f a /\ k <> LedgerKeyFrozenVPower h f) -> unbond_list h a m ds !! k = m !! k.
Proof.
  induction ds as [|g ds IH]; intros m k Hk; [done|]. change (unbond_list h a m (g :: ds)) with (unbond_list h a (unbond_one h a m g) ds).
  rewrite IH by (intros f Hf; apply Hk; now right). apply unbond_one_other; apply (Hk g); now left.
Qed.

(** Each delegator's chunks are added to what it has frozen until that height. *)
Lemma unbond_list_frozen h a ds : forall m f v,
  in_i64 h -> NoDup ds -> f ∈ ds -> m !! LedgerKeyVPower f a = Some (IVPower v) ->
  unbond_list h a m ds !! LedgerKeyVPower f a = None /\
  unbond_list h a m ds !! LedgerKeyFrozenVPower h f = Some (freeze_item m h f (v_PowerChunks v)).
Proof.
  induction ds as [|g ds IH]; intros m f v Hh Hnd Hf Hv; [now apply elem_of_nil in Hf|].
  apply NoDup_cons in Hnd as [Hg Hnd]. change (unbond_list h a m (g :: ds)) with (unbond_list h a (unbond_one h a m g) ds).
  assert (Hfk : forall f', LedgerKeyFrozenVPower h f = LedgerKeyFrozenVPower h f' -> f = f')
    by (intros f' E; now apply LedgerKeyFrozenVPower_inj in E as [_ ->]).
  destruct (decide (f = g)) as [->|Hne].
  - rewrite !unbond_list_other.
    + unfold unbond_one. rewrite Hv. split; [apply lookup_delete_eq|]. rewrite lookup_delete_ne by done.
      unfold freeze_map. now rewrite lookup_insert_eq.
    + intros f' Hf'. split; [done|]. intros E. apply Hfk in E. now subst.
    + intros f' Hf'. split; [|done]. intros E. apply vkey_inj_from in E. now subst.
  - apply elem_of_cons in Hf as [Hf|Hf]; [done|].
    assert (E1 : unbond_one h a m g !! LedgerKeyVPower f a = m !! LedgerKeyVPower f a)
      by (apply unbond_one_other; [|done]; intros E; now apply vkey_inj_from in E).
    assert (E2 : unbond_one h a m g !! LedgerKeyFrozenVPower h f = m !! LedgerKeyFrozenVPower h f)
      by (apply unbond_one_other; [done|]; intros E; now apply Hfk in E).
    destruct (IH (unbond_one h a m g) f v Hh Hnd Hf ltac:(now rewrite E1)) as [H1 H2]. split; [exact H1|]. rewrite H2.
    unfold freeze_item, frozen_at. now rewrite E2.
Qed.

End Updates.
