(* ===== verification/VPowerWp.v ===== *)
(** * VPowerWp: bonding, unbonding and freezing keep the ledger's invariant

    The rules for the controller's reads and writes, and for each operation the
    map it leaves: bonding adds a chunk, unbonding removes one, freezing adds to
    the frozen power of a height, and [unbond_all] freezes everything delegated
    to a delegatee and removes it, and slashing takes its rate from every chunk.  Every
    operation keeps [vinv]. *)
From stdpp Require Import base gmap list strings.
From Stdlib Require Import ZArith Lia.
From S2P Require Import Prelude XErrors GoMonad LedgerKeys Iavl Ledger LedgerSpec Proto Signer.
From S2P Require Import VPowerItems Limiter VPowerCtrler VPowerInv.

Section Rules.
Context {T I : Type} `{Iavl T I, !IavlLaws T I}.
Context `{VPowerProtos, !VPowerProtosLaws, CryptoLib}.
Implicit Types (s : VPowerCtrler T I) (m : vmap) (D : gset bytes).

(** The parts of the controller the ledger operations leave alone. *)
Definition ptrs s : list loc * list loc * VPowerLimiter :=
  (allDelegatees s, lastValidators s, vpowLimiter s).

Abbreviation vcoh D s m := (coh D (vpowerState s) m).
Abbreviation vheld s k l x := (held (vpowerState s) k l x).

Definition vframes s s' (e : option loc) : Prop :=
  frames (vpowerState s) (vpowerState s') e /\ ptrs s' = ptrs s.

Lemma vframes_refl s e : vframes s s e.
Proof. split; [apply frames_refl|done]. Qed.

Lemma vframes_trans s1 s2 s3 e : vframes s1 s2 e -> vframes s2 s3 e -> vframes s1 s3 e.
Proof. intros [F1 E1] [F2 E2]. split; [eauto using frames_trans|congruence]. Qed.

Lemma vframes_weaken s s' e : vframes s s' None -> vframes s s' e.
Proof. intros [F E]. split; [now apply frames_weaken|done]. Qed.

Lemma vframes_held s s' e k l x : vframes s s' e -> Some l <> e -> vheld s k l x -> vheld s' k l x.
Proof. intros [[F _] _] Hne. now apply F. Qed.

Lemma vframes_keep s s' k l x : vframes s s' None -> vheld s k l x -> vheld s' k l x.
Proof. intros F. now apply (vframes_held s s' None). Qed.

Lemma coh_typed D s m : vcoh D s m -> typed m.
Proof.
  intros HC k x Hk. destruct (represents_lookup _ _ _ _ (coh_tree _ _ _ HC) Hk) as (b & _ & [Hok _]).
  exact Hok.
Qed.

Lemma coh_clean D s m : D ⊆ ∅ -> vcoh D s m -> vcoh ∅ s m.
Proof. intros HD HC. now replace D with (∅ : gset bytes) in HC by set_solver. Qed.

Lemma led_get_rule D s m k x Q :
  vcoh D s m -> k <> [] -> k ∉ D -> m !! k = Some x ->
  (forall l s', vcoh D s' m -> vheld s' k l x -> vframes s s' None -> Q (Ok l) s') ->
  wp (led_Get k true) Q s.
Proof.
  intros HC Hk HD Hx HQ. apply wp_zoom; cbn. apply (held_get_rule D _ m k x); try done.
  intros l ls HC' Hl Hf _ _. now apply HQ.
Qed.

Lemma led_get_none_rule D s m k Q :
  vcoh D s m -> k <> [] -> k ∉ D -> m !! k = None -> Q (Err ErrNotFoundResult) s ->
  wp (led_Get k true) Q s.
Proof.
  intros HC Hk HD Hx HQ. apply wp_zoom; cbn. apply (wp_Get_none D _ m k); try done. now destruct s.
Qed.

Lemma v_alloc_rule D s m x Q :
  vcoh D s m ->
  (forall l s', vcoh D s' m -> (forall k, vheld s' k l x) -> vframes s s' None ->
    (forall k y, ~ vheld s k l y) -> Q (Ok l) s') ->
  wp (v_alloc x) Q s.
Proof.
  intros HC HQ. apply wp_zoom; cbn. apply (held_alloc_rule D _ m); [done|].
  intros l ls HC' Hl _ Hf _ Hn. apply HQ; try done. intros k y [Hy _]. congruence.
Qed.

Lemma v_deref_rule s k l x Q : vheld s k l x -> Q (Ok x) s -> wp (v_deref l) Q s.
Proof. intros Hl HQ. apply wp_zoom; cbn. apply (held_deref_rule _ k l x); [done|]. now destruct s. Qed.

Lemma v_assign_rule D s m l k y x Q :
  vcoh D s m -> vheld s k l y ->
  (forall s', vcoh (D ∪ {[k]}) s' m -> vheld s' k l x -> vframes s s' (Some l) -> Q (Ok tt) s') ->
  wp (v_assign l x) Q s.
Proof.
  intros HC Hl HQ. apply wp_zoom; cbn. apply (held_assign_rule D _ m l k y); [done..|].
  intros ls HC' Hl' Hf _. now apply HQ.
Qed.

Lemma led_set_rule D s m k l x Q :
  vcoh D s m -> k <> [] -> vheld s k l x -> vitem_ok k x ->
  (forall s', vcoh (D ∖ {[k]}) s' (<[k := x]> m) -> vheld s' k l x -> vframes s s' (Some l) ->
    Q (Ok tt) s') ->
  wp (led_Set k l true) Q s.
Proof.
  intros HC Hk Hl Hok HQ. apply wp_zoom; cbn. apply (held_set_rule D _ m k l x); try done.
  intros ls HC' Hl' Hf. now apply HQ.
Qed.

Lemma led_del_rule D s m k Q :
  vcoh D s m -> k <> [] ->
  (forall s', vcoh (D ∖ {[k]}) s' (delete k m) -> vframes s s' None -> Q (Ok tt) s') ->
  wp (led_Del k true) Q s.
Proof.
  intros HC Hk HQ. apply wp_zoom; cbn. apply (held_del_rule D _ m k); try done.
  intros ls HC' Hf. now apply HQ.
Qed.

Lemma get_dgt_rule s k l d Q : vheld s k l (IDelegatee d) -> Q (Ok d) s -> wp (get_dgt l) Q s.
Proof. intros Hl HQ. now apply wp_bind, (v_deref_rule s k l _ _ Hl), wp_ret. Qed.

Lemma get_vpow_rule s k l v Q : vheld s k l (IVPower v) -> Q (Ok v) s -> wp (get_vpow l) Q s.
Proof. intros Hl HQ. now apply wp_bind, (v_deref_rule s k l _ _ Hl), wp_ret. Qed.

Lemma get_frozen_rule s k l f Q : vheld s k l (IFrozen f) -> Q (Ok f) s -> wp (get_frozen l) Q s.
Proof. intros Hl HQ. now apply wp_bind, (v_deref_rule s k l _ _ Hl), wp_ret. Qed.

(** Changing the held object and storing it. *)
Lemma put_set_rule s m l k y x Q :
  vcoh ∅ s m -> k <> [] -> vheld s k l y -> vitem_ok k x ->
  (forall s', vcoh ∅ s' (<[k := x]> m) -> vheld s' k l x -> vframes s s' (Some l) -> Q (Ok tt) s') ->
  wp (v_assign l x ;;; led_Set k l true) Q s.
Proof.
  intros HC Hk Hl Hok HQ. apply wp_bind, (v_assign_rule ∅ s m l k y x); [done..|].
  intros s1 HC1 Hl1 Hf1. eapply (led_set_rule _ s1 m k l x); [exact HC1|done..|].
  intros s2 HC2 Hl2 Hf2. rewrite dirty_one in HC2. apply HQ; [done..|]. eauto using vframes_trans.
Qed.

Lemma held_ne s k l x k' l' x' : vheld s k l x -> vheld s k' l' x' -> x <> x' -> l <> l'.
Proof. intros [Hl _] [Hl' _] Hne ->. congruence. Qed.

End Rules.

Abbreviation vcoh D s m := (coh D (vpowerState s) m).
Abbreviation vheld s k l x := (held (vpowerState s) k l x).

Section Operations.
Context {T I : Type} `{Iavl T I, !IavlLaws T I}.
Context `{VPowerProtos, !VPowerProtosLaws, CryptoLib}.
Implicit Types (s : VPowerCtrler T I) (m : vmap).

Lemma wp_bondPowerChunk s m f a dl vl d v power height txhash Q :
  vcoh ∅ s m -> dgt_view m a d -> vpow_view m f a v -> in_i64 power -> in_i64 height ->
  vheld s (LedgerKeyDelegatee a) dl (IDelegatee d) -> vheld s (LedgerKeyVPower f a) vl (IVPower v) ->
  (forall s', vcoh ∅ s' (bond_map m f a d v power height txhash) -> ptrs s' = ptrs s ->
    vheld s' (LedgerKeyDelegatee a) dl (IDelegatee (addDelegator (addPower d f power) f)) ->
    (forall k l x, l <> dl -> l <> vl -> vheld s k l x -> vheld s' k l x) -> Q (Ok tt) s') ->
  wp (bondPowerChunk dl vl power height txhash true) Q s.
Proof.
  intros HC Hd Hv Hp Hh Hdl Hvl HQ.
  destruct (bond_items m f a d v power height txhash Hd Hv Hp Hh) as [I1 I2].
  apply wp_bind, (get_vpow_rule s _ _ _ _ Hvl). rewrite (vv_key _ _ _ _ Hv), (vv_from _ _ _ _ Hv).
  apply wp_bind_assoc, wp_bind. eapply put_set_rule; [exact HC|done|exact Hvl|exact I1|].
  intros s1 HC1 Hvl1 Hf1.
  assert (Hne : dl <> vl) by (eapply held_ne; [exact Hdl|exact Hvl|done]).
  assert (Hdl1 : vheld s1 (LedgerKeyDelegatee a) dl (IDelegatee d))
    by (apply (vframes_held s s1 _ _ _ _ Hf1); [congruence|done]).
  apply wp_bind, (get_dgt_rule s1 _ _ _ _ Hdl1). rewrite (dv_key _ _ _ Hd).
  eapply put_set_rule; [exact HC1|done|exact Hdl1|exact I2|]. intros s2 HC2 Hdl2 Hf2.
  apply HQ; [done| |done|].
  - now rewrite (proj2 Hf2), (proj2 Hf1).
  - intros k l x Hn1 Hn2 Hl. apply (vframes_held s1 s2 _ _ _ _ Hf2); [congruence|].
    apply (vframes_held s s1 _ _ _ _ Hf1); [congruence|done].
Qed.

Lemma wp_unbondPowerChunk s m f a dl vl d v txhash Q :
  vcoh ∅ s m -> vinv m -> dgt_view m a d -> m !! LedgerKeyVPower f a = Some (IVPower v) ->
  vheld s (LedgerKeyDelegatee a) dl (IDelegatee d) -> vheld s (LedgerKeyVPower f a) vl (IVPower v) ->
  (match delPowerWithTxHash v txhash with
   | (None, _) =>
       Q (Err (Wrapf ErrNotFoundStake "validator(%v) has no power chunk(txhash:%v) from %v")) s
   | (Some pc, v') =>
       forall s' d', vcoh ∅ s' (unbond_map m f a d v' pc) -> ptrs s' = ptrs s ->
         vheld s' (LedgerKeyDelegatee a) dl (IDelegatee d') ->
         unbond_map m f a d v' pc !! LedgerKeyDelegatee a = Some (IDelegatee d') ->
         vheld s' (LedgerKeyVPower f a) vl (IVPower v') -> Q (Ok pc) s'
   end) ->
  wp (unbondPowerChunk dl vl txhash true) Q s.
Proof.
  intros HC Hm Hd Hv Hdl Hvl HQ. pose proof (dv_len _ _ _ Hd) as Ha.
  destruct (vpow_view_stored m f a v (vi_typed _ Hm) Ha Hv) as [Vv _].
  apply wp_bind, (get_vpow_rule s _ _ _ _ Hvl).
  destruct (delPowerWithTxHash v txhash) as [[pc|] v'] eqn:Edel; [|now apply wp_throw].
  destruct (delPowerWithTxHash_spec v txhash pc v' Edel (vv_sum _ _ _ _ Vv) (vv_chunks _ _ _ _ Vv))
    as (Ek & Ef & Et & _ & _ & _ & Es' & Hc).
  destruct (delPower_item m a d f (pc_Power pc) Hd) as [I1 I2].
  assert (Hne : dl <> vl) by (eapply held_ne; [exact Hdl|exact Hvl|done]).
  rewrite (vv_key _ _ _ _ Vv), (vv_from _ _ _ _ Vv).
  apply wp_bind. eapply (v_assign_rule ∅ s m vl); [done|exact Hvl|]. intros s1 HC1 Hvl1 F1.
  assert (Hdl1 : vheld s1 (LedgerKeyDelegatee a) dl (IDelegatee d))
    by (apply (vframes_held s s1 _ _ _ _ F1); [congruence|done]).
  apply wp_bind, (get_dgt_rule s1 _ _ _ _ Hdl1). rewrite (dv_key _ _ _ Hd).
  apply wp_bind. eapply v_assign_rule; [exact HC1|exact Hdl1|]. intros s2 HC2 Hdl2 F2.
  assert (Hvl2 : vheld s2 (LedgerKeyVPower f a) vl (IVPower v'))
    by (apply (vframes_held s1 s2 _ _ _ _ F2); [congruence|done]).
  unfold unbond_map in HQ. destruct (Nat.eqb_spec (length (v_PowerChunks v')) 0) as [E0|E0].
  - do 2 apply wp_bind. apply (get_dgt_rule s2 _ _ _ _ Hdl2).
    apply wp_bind. eapply v_assign_rule; [exact HC2|exact Hdl2|]. intros s3 HC3 Hdl3 F3.
    eapply led_del_rule; [exact HC3|done|]. intros s4 HC4 F4.
    pose proof (vframes_keep s3 s4 _ _ _ F4 Hdl3) as Hdl4.
    apply wp_bind. eapply led_set_rule; [exact HC4|done|exact Hdl4|exact I2|]. intros s5 HC5 Hdl5 F5.
    apply wp_ret. eapply HQ.
    + eapply coh_clean; [|exact HC5]. clear; set_solver.
    + rewrite (proj2 F5), (proj2 F4), (proj2 F3), (proj2 F2), (proj2 F1). done.
    + exact Hdl5.
    + now rewrite lookup_insert_eq.
    + apply (vframes_held s4 s5 _ _ _ _ F5); [congruence|]. apply (vframes_keep s3 s4 _ _ _ F4).
      apply (vframes_held s2 s3 _ _ _ _ F3); [congruence|done].
  - assert (I3 : vitem_ok (LedgerKeyVPower f a) (IVPower v')).
    { apply (vpow_view_item m f a v); try done. now intros En; rewrite En in E0. }
    apply wp_bind. eapply led_set_rule; [exact HC2|done|exact Hvl2|exact I3|]. intros s3 HC3 Hvl3 F3.
    assert (Hdl3 : vheld s3 (LedgerKeyDelegatee a) dl (IDelegatee (delPower d f (pc_Power pc))))
      by (apply (vframes_held s2 s3 _ _ _ _ F3); [congruence|done]).
    apply wp_bind. eapply led_set_rule; [exact HC3|done|exact Hdl3|exact I1|]. intros s4 HC4 Hdl4 F4.
    apply wp_ret. eapply HQ.
    + eapply coh_clean; [|exact HC4]. clear; set_solver.
    + rewrite (proj2 F4), (proj2 F3), (proj2 F2), (proj2 F1). done.
    + exact Hdl4.
    + now rewrite lookup_insert_eq.
    + apply (vframes_held s3 s4 _ _ _ _ F4); [congruence|done].
Qed.

Lemma wp_get_or_new_frozen s m h f Q :
  vcoh ∅ s m ->
  (forall l s', vcoh ∅ s' m -> vheld s' (LedgerKeyFrozenVPower h f) l (IFrozen (frozen_at m h f)) ->
    vframes s s' None -> Q (Ok l) s') ->
  wp (get_or_new_frozen h f true) Q s.
Proof.
  intros HC HQ. apply wp_bind, wp_try. unfold frozen_at in HQ.
  destruct (m !! LedgerKeyFrozenVPower h f) as [x|] eqn:Ex.
  - destruct (typed_frozen m h f x (coh_typed _ _ _ HC) Ex) as (fr & -> & _).
    eapply led_get_rule; [exact HC|done|done|exact Ex|]. intros l s' HC' Hl F. now apply wp_ret, HQ.
  - eapply led_get_none_rule; [exact HC|done|done|exact Ex|]. rewrite bool_decide_eq_true_2 by done.
    eapply v_alloc_rule; [exact HC|]. intros l s' HC' Hl F _. now apply HQ.
Qed.

(** Both forms of freezing leave [freeze_map]. *)
Lemma wp_freezePowerChunkList s m h f pcs Q :
  vcoh ∅ s m -> in_i64 h -> length f = AddrSize -> Forall chunk_ok pcs ->
  (forall s', vcoh ∅ s' (freeze_map m h f pcs) -> ptrs s' = ptrs s ->
    (forall k l x, vheld s k l x -> (forall fr, x <> IFrozen fr) -> vheld s' k l x) -> Q (Ok tt) s') ->
  wp (freezePowerChunkList f pcs h true) Q s.
Proof.
  intros HC Hh Hf Hc HQ. pose proof (coh_typed _ _ _ HC) as Ht.
  apply wp_bind, (wp_get_or_new_frozen s m); [done|]. intros l s1 HC1 Hl F1.
  apply wp_bind, (get_frozen_rule s1 _ _ _ _ Hl).
  destruct (frozen_at_ok m h f Ht) as [Er _]. rewrite Er, fold_i64_sum, <- i64_add_l, <- Er.
  eapply put_set_rule; [exact HC1|done|exact Hl|now apply freeze_item_ok|].
  intros s2 HC2 Hl2 F2. apply HQ; [done| |].
  - now rewrite (proj2 F2), (proj2 F1).
  - intros k l' x Hl' Hx. apply (vframes_keep s s1 _ _ _ F1) in Hl'.
    apply (vframes_held s1 s2 _ _ _ _ F2); [|done]. intros [= ->].
    apply (held_ne s1 _ _ _ _ _ _ Hl' Hl); [apply Hx|done].
Qed.

Lemma freezePowerChunk_eq f pc h exec s :
  freezePowerChunk (T := T) (I := I) f pc h exec s = freezePowerChunkList f [pc] h exec s.
Proof. done. Qed.

Lemma wp_freezePowerChunk s m h f pc Q :
  vcoh ∅ s m -> in_i64 h -> length f = AddrSize -> chunk_ok pc ->
  (forall s', vcoh ∅ s' (freeze_map m h f [pc]) -> ptrs s' = ptrs s ->
    (forall k l x, vheld s k l x -> (forall fr, x <> IFrozen fr) -> vheld s' k l x) -> Q (Ok tt) s') ->
  wp (freezePowerChunk f pc h true) Q s.
Proof.
  intros HC Hh Hf Hc HQ. unfold wp. rewrite freezePowerChunk_eq.
  apply (wp_freezePowerChunkList s m h f [pc] Q); try done. now apply Forall_singleton.
Qed.

(** Unbonding everything: the powers of the delegatee are frozen and it is gone. *)
Lemma wp_unbond_all s m a dl d h Q :
  vcoh ∅ s m -> vinv m -> in_i64 h -> m !! LedgerKeyDelegatee a = Some (IDelegatee d) ->
  vheld s (LedgerKeyDelegatee a) dl (IDelegatee d) ->
  (forall s' m', vcoh ∅ s' m' -> ptrs s' = ptrs s -> vinv m' ->
    m' !! LedgerKeyDelegatee a = None ->
    (forall b, b <> a -> m' !! LedgerKeyDelegatee b = m !! LedgerKeyDelegatee b) ->
    (forall f b, b <> a -> length b = AddrSize ->
      m' !! LedgerKeyVPower f b = m !! LedgerKeyVPower f b) ->
    bonded m' = bonded m - vsum_all m a -> frozen m' = frozen m + vsum_all m a ->
    m' = delete (LedgerKeyDelegatee a) (unbond_list h a m (d_Delegators d)) -> Q (Ok tt) s') ->
  wp (unbond_all dl h true) Q s.
Proof.
  intros HC Hm Hh Hd Hdl HQ. pose proof (dgt_view_stored m a d Hm Hd) as Vd.
  apply wp_bind, (get_dgt_rule s _ _ _ _ Hdl), wp_bind.
  set (P := fun (ds : list Address) s' => NoDup ds /\ ptrs s' = ptrs s /\
    vheld s' (LedgerKeyDelegatee a) dl (IDelegatee d) /\
    (forall f, f ∈ ds -> f ∈ d_Delegators d) /\
    exists m', vcoh ∅ s' m' /\ unbonding m a ds m' /\
      exists done_, d_Delegators d = done_ ++ ds /\ m' = unbond_list h a m done_).
  eapply wp_mono; [apply (wp_for_each _ _ P)|].
  - split_and!; try done; [apply Vd|]. exists m. split; [done|]. split; [now apply unbonding_start|]. now exists [].
  - intros f ds s1 (Hn & Hp & Hdl1 & Hsub & m1 & HC1 & Hub & done_ & Eds & Em1).
    apply wp_bind, (get_dgt_rule s1 _ _ _ _ Hdl1). rewrite (dv_addr _ _ _ Vd).
    destruct (proj1 (dk_powers _ _ _ (dv_ok _ _ _ Vd) f)) as [x Hx]; [set_solver|].
    destruct (typed_vpower m f a x (vi_typed _ Hm) (dv_len _ _ _ Vd) Hx) as (v & -> & Ef & Et).
    destruct (vpow_view_stored m f a v (vi_typed _ Hm) (dv_len _ _ _ Vd) Hx) as [Vv _].
    assert (Hx1 : m1 !! LedgerKeyVPower f a = Some (IVPower v))
      by (rewrite (ub_left _ _ _ _ Hub) by set_solver; done).
    apply wp_bind. eapply led_get_rule; [exact HC1|done|done|exact Hx1|]. intros vl s2 HC2 Hvl F2.
    apply wp_bind, (get_vpow_rule s2 _ _ _ _ Hvl). rewrite Ef, Et. apply wp_bind.
    eapply wp_freezePowerChunkList; [exact HC2|done|apply Vv|apply Vv|]. intros s3 HC3 Hp3 Hk3.
    eapply led_del_rule; [exact HC3|done|]. intros s4 HC4 F4. rewrite dirty_nil in HC4.
    cbn [okQ]. split_and!.
    + now apply NoDup_cons in Hn as [_ Hn].
    + rewrite (proj2 F4), Hp3, (proj2 F2). done.
    + apply (vframes_keep s3 s4 _ _ _ F4), Hk3; [|done]. now apply (vframes_keep s1 s2 _ _ _ F2).
    + set_solver.
    + eexists. split; [exact HC4|]. split; [eapply unbonding_step; try done; [apply Vd|apply Vv..]|].
      exists (done_ ++ [f]). split; [now rewrite <- app_assoc|]. unfold unbond_list. rewrite fold_left_app. cbn [fold_left].
      fold (unbond_list h a m done_). rewrite <- Em1. unfold unbond_one. now rewrite Hx1.
  - intros [[]|e|] s1; try done. intros (_ & Hp & Hdl1 & _ & m1 & HC1 & Hub & done_ & Eds & Em1).
    rewrite app_nil_r in Eds. subst done_.
    apply wp_bind, (get_dgt_rule s1 _ _ _ _ Hdl1). rewrite (dv_addr _ _ _ Vd).
    eapply led_del_rule; [exact HC1|done|]. intros s2 HC2 F2. rewrite dirty_nil in HC2.
    destruct (unbonding_end m a m1 Hm (dv_len _ _ _ Vd) Hub) as (Hv' & Hb' & Hf').
    eapply HQ; [exact HC2|now rewrite (proj2 F2)|done|apply lookup_delete_eq| | |done|done|now rewrite Em1].
    + intros b Hb. rewrite lookup_delete_ne; [apply Hub|]. intros E. apply dkey_inj in E. congruence.
    + intros f b Hb Hl. rewrite lookup_delete_ne by done. now apply Hub.
Qed.

End Operations.

(** ** Slashing keeps the ledger's invariant

    [doSlash] takes a share of every chunk bonded to a validator, of its
    delegators too.  The ledger it leaves is the old one with every power to the
    validator slashed and the delegatee's sums adjusted; the returned power is
    what the bonded total lost. *)

(** ** The chunks of one delegator *)

Definition slash_chunks (rate : Z) (pcs : list PowerChunk) : list PowerChunk :=
  map (fun pc => snd (slash_chunk rate pc)) pcs.

Definition slash_power (rate : Z) (v : VPower) : VPower :=
  MkVPower (i64 (chunk_sum (slash_chunks rate (v_PowerChunks v)))) (slash_chunks rate (v_PowerChunks v))
    (v_key v) (v_from v) (v_to v).

(** What slashing takes from the chunks. *)
Definition slash_loss (rate : Z) (pcs : list PowerChunk) : Z :=
  chunk_sum pcs - chunk_sum (slash_chunks rate pcs).

Definition slash_delegatee (self : bool) (loss : Z) (d : Delegatee) : Delegatee :=
  MkDelegatee (d_PubKey d) (d_Delegators d) (i64 (d_SumPower d - loss))
    (if self then i64 (d_SelfPower d - loss) else d_SelfPower d) (d_key d) (d_addr d).

Lemma slash_chunk_eqm rate pc :
  eqm64 (pc_Power (snd (slash_chunk rate pc))) (pc_Power pc - fst (slash_chunk rate pc)).
Proof. cbn. apply i64_eqm. Qed.

Lemma slash_chunks_ok rate pcs : Forall chunk_ok pcs -> Forall chunk_ok (slash_chunks rate pcs).
Proof.
  intros Hc. apply Forall_map. eapply Forall_impl; [exact Hc|]. intros pc [_ Hh].
  split; cbn; [apply i64_range|done].
Qed.

(** The fold of the inner loop, with the sums as [int64] sums. *)
Lemma slash_fold rate self v d acc pcs :
  in_i64 (v_SumPower v) -> in_i64 (d_SumPower d) -> in_i64 (d_SelfPower d) -> in_i64 acc ->
  foldr (slash_step rate self) (MkVPower (v_SumPower v) [] (v_key v) (v_from v) (v_to v), d, acc) pcs =
  (MkVPower (i64 (v_SumPower v - slash_loss rate pcs)) (slash_chunks rate pcs) (v_key v) (v_from v) (v_to v),
   slash_delegatee self (slash_loss rate pcs) d, i64 (acc + slash_loss rate pcs)).
Proof.
  intros Hv Hd He Ha. induction pcs as [|pc pcs IH].
  - unfold slash_loss, slash_chunks, slash_delegatee, chunk_sum; cbn [map zsum foldr].
    rewrite !Z.sub_0_r, Z.add_0_r, !i64_id by done. destruct d; cbn in *. destruct self; now rewrite ?Z.sub_0_r, ?i64_id.
  - cbn [foldr]. rewrite IH. cbn [slash_step]. pose proof (slash_chunk_eqm rate pc) as E.
    destruct (slash_chunk rate pc) as [slashed pc'] eqn:Es. cbn [fst snd] in E.
    assert (El : eqm64 (slash_loss rate (pc :: pcs)) (slash_loss rate pcs + slashed)).
    { unfold slash_loss, slash_chunks, chunk_sum; cbn [map zsum]. rewrite Es; cbn [snd]. rewrite E.
      match goal with |- eqm64 ?a ?b => replace a with b by lia end. reflexivity. }
    unfold slash_delegatee. cbn [v_SumPower v_PowerChunks v_key v_from v_to d_PubKey d_Delegators
      d_SumPower d_SelfPower d_key d_addr].
    cbn [slash_chunks map]. rewrite Es; cbn [snd].
    assert (Eq : forall x, i64 (i64 (x - slash_loss rate pcs) - slashed) = i64 (x - slash_loss rate (pc :: pcs))).
    { intros x. rewrite i64_sub_l. apply eqm64_i64. rewrite El.
      match goal with |- eqm64 ?a ?b => replace a with b by lia end. reflexivity. }
    rewrite !Eq. f_equal; [f_equal; f_equal; destruct self; [apply Eq|done]|].
    rewrite i64_add_l. apply eqm64_i64. rewrite El.
    match goal with |- eqm64 ?a ?b => replace a with b by lia end. reflexivity.
Qed.

Lemma slash_vpow_eq rate self v d acc :
  v_SumPower v = i64 (chunk_sum (v_PowerChunks v)) ->
  in_i64 (d_SumPower d) -> in_i64 (d_SelfPower d) -> in_i64 acc ->
  slash_vpow rate self v d acc =
    (slash_power rate v, slash_delegatee self (slash_loss rate (v_PowerChunks v)) d,
     i64 (acc + slash_loss rate (v_PowerChunks v))).
Proof.
  intros Hv Hd He Ha. unfold slash_vpow. rewrite slash_fold; [|rewrite Hv; apply i64_range|done..].
  unfold slash_power. do 3 f_equal. rewrite Hv, i64_sub_l. unfold slash_loss. f_equal. lia.
Qed.

(** ** The ledger while the delegators are slashed

    [slashing rate m0 a ds m d]: the powers of [ds] are still to be slashed,
    the others are; the object [d] of the delegatee, written at the end, accounts
    for it. *)
Section Slash.
Context {T I : Type} `{Iavl T I, !IavlLaws T I}.
Context `{VPowerProtos, !VPowerProtosLaws, CryptoLib}.
Implicit Types (s : VPowerCtrler T I) (m : vmap).

Definition slash_item (rate : Z) (x : VItem) : VItem :=
  match x with IVPower v => IVPower (slash_power rate v) | _ => x end.

Record slashing (rate : Z) m0 (a : Address) (ds : list Address) m (d : Delegatee) (acc : Z) : Prop := {
  sl_typed : typed m;
  sl_view : dgt_view m a d;
  sl_other : forall k, (forall f, k <> LedgerKeyVPower f a) -> m !! k = m0 !! k;
  sl_left : forall f, f ∈ ds -> m !! LedgerKeyVPower f a = m0 !! LedgerKeyVPower f a;
  sl_done : forall f, f ∉ ds -> m !! LedgerKeyVPower f a = slash_item rate <$> m0 !! LedgerKeyVPower f a;
  sl_acc : acc = i64 (bonded m0 - bonded m);
  sl_frozen : frozen m = frozen m0;
}.

Lemma slashing_start rate m a d :
  vinv m -> m !! LedgerKeyDelegatee a = Some (IDelegatee d) ->
  slashing rate m a (d_Delegators d) m d 0.
Proof.
  intros Hm Hd. pose proof (dgt_view_stored m a d Hm Hd) as Vd.
  split; try done; [apply Hm| |now rewrite Z.sub_diag].
  intros f Hf. rewrite (dk_powers _ _ _ (dv_ok _ _ _ Vd)) in Hf.
  apply eq_None_not_Some in Hf. now rewrite Hf.
Qed.

Lemma slash_items_ok m a f d v rate :
  typed m -> dgt_view m a d -> m !! LedgerKeyVPower f a = Some (IVPower v) ->
  vitem_ok (LedgerKeyVPower f a) (IVPower (slash_power rate v)) /\ f ∈ d_Delegators d.
Proof.
  intros Ht Vd Hv. destruct (vpow_view_stored m f a v Ht (dv_len _ _ _ Vd) Hv) as [Vv Hne].
  split.
  - apply (vpow_view_item m f a v); try done; [apply Vd| |]; cbn.
    + unfold slash_chunks. destruct (v_PowerChunks v); done.
    + apply slash_chunks_ok, Vv.
  - rewrite (dk_powers _ _ _ (dv_ok _ _ _ Vd)), Hv. eauto.
Qed.

Lemma slash_view m a f d v rate :
  dgt_view m a d -> m !! LedgerKeyVPower f a = Some (IVPower v) -> f ∈ d_Delegators d ->
  dgt_view (<[LedgerKeyVPower f a := IVPower (slash_power rate v)]> m) a
    (slash_delegatee (bytes_Equal f a) (slash_loss rate (v_PowerChunks v)) d).
Proof.
  intros [Ha Hk Hp Hl Hok] Hv Hin. split; try done.
  pose proof (vsum_lookup m f a v Hv) as Ev.
  apply (dgt_ok_put m _ a f d _ (slash_power rate v)); try done.
  - intros g Hg. rewrite lookup_insert_ne; [done|]. intros E. apply vkey_inj_from in E. congruence.
  - now rewrite lookup_insert_eq.
  - cbn. now destruct (decide _).
  - cbn [slash_delegatee d_SumPower slash_power v_PowerChunks]. rewrite Ev. unfold slash_loss. f_equal. lia.
  - cbn [slash_delegatee d_SelfPower slash_power v_PowerChunks]. rewrite Ev, bytes_Equal_decide.
    unfold slash_loss. destruct (decide (f = a)); [f_equal; lia|done].
Qed.

Lemma slashing_step rate m0 a f ds m d acc v :
  slashing rate m0 a (f :: ds) m d acc -> NoDup (f :: ds) ->
  m !! LedgerKeyVPower f a = Some (IVPower v) ->
  slashing rate m0 a ds (<[LedgerKeyVPower f a := IVPower (slash_power rate v)]> m)
    (slash_delegatee (bytes_Equal f a) (slash_loss rate (v_PowerChunks v)) d)
    (i64 (acc + slash_loss rate (v_PowerChunks v))).
Proof.
  intros [Ht Vd Eo El Ed Ea Ef] Hn Hv. apply NoDup_cons in Hn as [Hnin Hn].
  destruct (slash_items_ok m a f d v rate Ht Vd Hv) as [I1 Hin].
  destruct (put_vpow_sums m f a (slash_power rate v) Ht (dv_len _ _ _ Vd)) as [S1 S2].
  assert (Hne : forall g, g <> f ->
    <[LedgerKeyVPower f a := IVPower (slash_power rate v)]> m !! LedgerKeyVPower g a =
    m !! LedgerKeyVPower g a).
  { intros g Hg. rewrite lookup_insert_ne; [done|]. intros E. apply vkey_inj_from in E. congruence. }
  split.
  - now apply typed_insert.
  - now apply slash_view.
  - intros k Hk. rewrite lookup_insert_ne; [now apply Eo|]. intros E. now apply (Hk f).
  - intros g Hg. rewrite Hne by congruence. apply El. set_solver.
  - intros g Hg. destruct (decide (g = f)) as [->|Hgf].
    + rewrite lookup_insert_eq, <- El, Hv by set_solver. done.
    + rewrite Hne by done. apply Ed. set_solver.
  - rewrite S1, Ea, i64_add_l, (vsum_lookup m f a v Hv). f_equal. cbn [slash_power v_PowerChunks].
    unfold slash_loss. lia.
  - congruence.
Qed.

(** Every power bonded to [a] slashed, the delegatee's sums recomputed. *)
Record slashed_ledger (rate : Z) m (a : Address) m' (power : Z) : Prop := {
  sd_inv : vinv m';
  sd_powers : forall f, m' !! LedgerKeyVPower f a = slash_item rate <$> m !! LedgerKeyVPower f a;
  sd_other : forall k, k <> LedgerKeyDelegatee a -> (forall f, k <> LedgerKeyVPower f a) -> m' !! k = m !! k;
  sd_power : power = i64 (bonded m - bonded m');
  sd_frozen : frozen m' = frozen m;
}.

Lemma slashing_end rate m a m1 d acc :
  vinv m -> slashing rate m a [] m1 d acc ->
  slashed_ledger rate m a (<[LedgerKeyDelegatee a := IDelegatee d]> m1) acc /\
  vitem_ok (LedgerKeyDelegatee a) (IDelegatee d).
Proof.
  intros Hm [Ht Vd Eo El Ed Ea Ef].
  assert (I1 : vitem_ok (LedgerKeyDelegatee a) (IDelegatee d))
    by (apply (dgt_view_item m1 a d); try done; apply (dgt_ok_range m1 a), Vd).
  destruct (put_dgt_sums m1 a d Ht) as [S1 S2]. split; [|done]. split.
  - apply (vinv_at m _ a Hm (dv_len _ _ _ Vd)).
    + now apply typed_insert.
    + unfold dgt_part. rewrite lookup_insert_eq. eapply dgt_ok_ext; [|apply Vd].
      intros f. apply lookup_vkey_dkey.
    + intros b Hb. rewrite lookup_insert_ne; [now apply Eo|]. intros E. apply dkey_inj in E. congruence.
    + intros f b Hb Hl. rewrite lookup_vkey_dkey. apply Eo. intros g E.
      apply vkey_to in E as [_ ->]; [done|]. rewrite Hl. symmetry. apply Vd.
  - intros f. rewrite lookup_vkey_dkey. apply Ed. set_solver.
  - intros k Hk Hf. rewrite lookup_insert_ne by done. now apply Eo.
  - now rewrite S1.
  - now rewrite S2.
Qed.

Lemma wp_slash_one rate s m0 m D a dl d acc f ds :
  D ⊆ {[LedgerKeyDelegatee a]} -> vcoh D s m ->
  slashing rate m0 a (f :: ds) m d acc -> NoDup (f :: ds) -> in_i64 acc -> f ∈ d_Delegators d ->
  vheld s (LedgerKeyDelegatee a) dl (IDelegatee d) ->
  wp (slash_one dl rate acc f) (okQ (fun acc' s' => exists m' d' D',
    D' ⊆ {[LedgerKeyDelegatee a]} /\ vcoh D' s' m' /\ slashing rate m0 a ds m' d' acc' /\ in_i64 acc' /\
    d_Delegators d' = d_Delegators d /\
    vheld s' (LedgerKeyDelegatee a) dl (IDelegatee d') /\ ptrs s' = ptrs s)) s.
Proof.
  intros HD HC Hsl Hn Ha Hin Hdl. pose proof (sl_view _ _ _ _ _ _ _ Hsl) as Vd.
  pose proof (sl_typed _ _ _ _ _ _ _ Hsl) as Ht.
  destruct (proj1 (dk_powers _ _ _ (dv_ok _ _ _ Vd) f) Hin) as [x Hx].
  destruct (typed_vpower m f a x Ht (dv_len _ _ _ Vd) Hx) as (v & -> & Ef & Et).
  destruct (vpow_view_stored m f a v Ht (dv_len _ _ _ Vd) Hx) as [Vv _].
  destruct (slash_items_ok m a f d v rate Ht Vd Hx) as [I1 _].
  apply wp_bind, (get_dgt_rule s _ _ _ _ Hdl). rewrite (dv_addr _ _ _ Vd).
  apply wp_bind. eapply (led_get_rule D); [exact HC|done|set_solver|exact Hx|].
  intros vl s1 HC1 Hvl F1. pose proof (vframes_keep s s1 _ _ _ F1 Hdl) as Hdl1.
  apply wp_bind, (get_vpow_rule s1 _ _ _ _ Hvl). rewrite Et.
  destruct (dgt_ok_range m a d (dv_ok _ _ _ Vd)) as [R1 R2].
  rewrite slash_vpow_eq; [|apply Vv|done..].
  assert (Hne : dl <> vl) by (eapply held_ne; [exact Hdl1|exact Hvl|done]).
  apply wp_bind. eapply v_assign_rule; [exact HC1|exact Hvl|]. intros s2 HC2 Hvl2 F2.
  apply wp_bind. eapply v_assign_rule; [exact HC2|apply (vframes_held s1 s2 _ _ _ _ F2); [congruence|exact Hdl1]|].
  intros s3 HC3 Hdl3 F3.
  assert (Hvl3 : vheld s3 (LedgerKeyVPower f a) vl (IVPower (slash_power rate v)))
    by (apply (vframes_held s2 s3 _ _ _ _ F3); [congruence|done]).
  apply wp_bind, wp_bind, (get_vpow_rule s3 _ _ _ _ Hvl3). cbn [slash_power v_key].
  rewrite (vv_key _ _ _ _ Vv). eapply led_set_rule; [exact HC3|done|exact Hvl3|exact I1|].
  intros s4 HC4 Hvl4 F4. apply wp_ret. cbn [okQ].
  do 3 eexists. split; [|split; [exact HC4|]].
  { clear -HD; set_solver. }
  split; [eapply slashing_step; [exact Hsl|exact Hn|exact Hx]|]. split; [apply i64_range|]. split; [done|]. split.
  - apply (vframes_held s3 s4 _ _ _ _ F4); [congruence|done].
  - now rewrite (proj2 F4), (proj2 F3), (proj2 F2), (proj2 F1).
Qed.

Lemma wp_slash_each rate ds : forall s m0 m D a dl d acc,
  D ⊆ {[LedgerKeyDelegatee a]} -> vcoh D s m ->
  slashing rate m0 a ds m d acc -> NoDup ds -> in_i64 acc -> (forall f, f ∈ ds -> f ∈ d_Delegators d) ->
  vheld s (LedgerKeyDelegatee a) dl (IDelegatee d) ->
  wp (slash_each dl rate ds acc) (okQ (fun acc' s' => exists m' d' D',
    D' ⊆ {[LedgerKeyDelegatee a]} /\ vcoh D' s' m' /\ slashing rate m0 a [] m' d' acc' /\
    vheld s' (LedgerKeyDelegatee a) dl (IDelegatee d') /\ ptrs s' = ptrs s)) s.
Proof.
  induction ds as [|f ds IH]; intros s m0 m D a dl d acc HD HC Hsl Hn Ha Hin Hdl; cbn [slash_each].
  - apply wp_ret. cbn [okQ]. eauto 10.
  - apply wp_bind. eapply wp_mono.
    { apply (wp_slash_one rate s m0 m D a dl d acc f ds); try done. apply Hin. set_solver. }
    intros [acc'|e|] s1; try done. intros (m1 & d1 & D1 & HD1 & HC1 & Hsl1 & Ha1 & Ed & Hdl1 & Hp1).
    apply NoDup_cons in Hn as [_ Hn]. eapply wp_mono.
    { eapply (IH s1 m0 m1 D1 a dl d1 acc'); try done. intros g Hg. rewrite Ed. apply Hin. set_solver. }
    intros [acc2|e|] s2; try done. cbn [okQ]. intros (m2 & d2 & D2 & ? & ? & ? & ? & Hp2).
    exists m2, d2, D2. split_and!; try done. congruence.
Qed.

Lemma wp_doSlash rate s m a d Q :
  vcoh ∅ s m -> vinv m -> m !! LedgerKeyDelegatee a = Some (IDelegatee d) ->
  (forall s' m' power, vcoh ∅ s' m' -> slashed_ledger rate m a m' power -> ptrs s' = ptrs s ->
    Q (Ok power) s') ->
  wp (doSlash a rate) Q s.
Proof.
  intros HC Hm Hd HQ. pose proof (dgt_view_stored m a d Hm Hd) as Vd.
  apply wp_bind. eapply led_get_rule; [exact HC|done|done|exact Hd|]. intros dl s1 HC1 Hdl F1.
  apply wp_bind, (get_dgt_rule s1 _ _ _ _ Hdl), wp_bind. eapply wp_mono.
  { apply (wp_slash_each rate (d_Delegators d) s1 m m ∅ a dl d 0); try done.
    - now apply slashing_start.
    - apply Vd. }
  intros [power|e|] s2; try done. intros (m2 & d2 & D2 & HD2 & HC2 & Hsl & Hdl2 & Hp2).
  destruct (slashing_end rate m a m2 d2 power Hm Hsl) as [Hfin I2].
  apply wp_bind, wp_bind, (get_dgt_rule s2 _ _ _ _ Hdl2).
  rewrite (dv_key _ _ _ (sl_view _ _ _ _ _ _ _ Hsl)).
  eapply led_set_rule; [exact HC2|done|exact Hdl2|exact I2|]. intros s3 HC3 Hdl3 F3.
  apply wp_ret. eapply HQ; [|exact Hfin|].
  - eapply coh_clean; [|exact HC3]. clear -HD2; set_solver.
  - now rewrite (proj2 F3), Hp2, (proj2 F1).
Qed.

End Slash.
