(* ===== verification/VPowerTrx.v ===== *)
(** * VPowerTrx: staking and unstaking transactions

    Validation and execution of the two transaction types of the voting-power
    controller, composed as the executor composes them, over any account
    handler that satisfies [IAccountLaws].  Before them, the bounds that keep the
    sums of powers within 64 bits. *)
From stdpp Require Import base gmap list strings.
From Stdlib Require Import ZArith Lia.
From S2P Require Import Prelude XErrors GoMonad LedgerKeys Ledger Proto Signer VPowerItems VPowerInv.
From S2P Require Import Iavl LedgerSpec Units.
From S2P Require Import GovParams Account TrxTypes AcctCtrler AcctSpec.
From S2P Require Import Limiter VPowerCtrler VPowerWp.

(** ** The powers of a delegatee never overflow

    [nonneg m]: no chunk is negative and the power bonded to a delegatee fits
    in an [int64], so that the stored sums are the exact sums.  The overflow
    check of [ValidateTrx] is what keeps it. *)

Definition nonneg_chunks (pcs : list PowerChunk) : Prop := Forall (fun pc => 0 <= pc_Power pc) pcs.

Record nonneg (m : vmap) : Prop := {
  nn_chunks : forall f a v, length a = AddrSize ->
    m !! LedgerKeyVPower f a = Some (IVPower v) -> nonneg_chunks (v_PowerChunks v);
  nn_sum : forall a, length a = AddrSize -> vsum_all m a <= MaxInt64;
}.

Lemma chunk_sum_nonneg pcs : nonneg_chunks pcs -> 0 <= chunk_sum pcs.
Proof. intros Hn. apply zsum_nonneg. now apply Forall_map. Qed.

Section Bounds.
Context `{CryptoLib}.
Implicit Types (m : vmap).

Lemma vsum_nonneg m f a : nonneg m -> length a = AddrSize -> 0 <= vsum m f a.
Proof.
  intros Hn Ha. unfold vsum. destruct (m !! _) as [[v| | |]|] eqn:E; try lia.
  apply chunk_sum_nonneg. eauto using nn_chunks.
Qed.

Lemma vsums_nonneg m a ds :
  nonneg m -> length a = AddrSize -> 0 <= zsum (map (fun f => vsum m f a) ds).
Proof.
  intros Hn Ha. apply zsum_nonneg, Forall_map, Forall_forall. intros f _. now apply vsum_nonneg.
Qed.

(** The stored sums are the exact ones. *)
Lemma nonneg_exact m a d :
  nonneg m -> length a = AddrSize -> m !! LedgerKeyDelegatee a = Some (IDelegatee d) -> dgt_ok m a d ->
  d_SumPower d = vsum_all m a /\ 0 <= vsum_all m a <= MaxInt64.
Proof.
  intros Hn Ha Hd Hok. assert (E : vsum_all m a = zsum (map (fun f => vsum m f a) (d_Delegators d)))
    by (unfold vsum_all; now rewrite Hd).
  pose proof (nn_sum _ Hn a Ha) as Hle. pose proof (vsums_nonneg m a (d_Delegators d) Hn Ha).
  rewrite (dk_sum _ _ _ Hok), <- E. split; [|lia].
  apply i64_id. unfold in_i64, MaxInt64 in *. lia.
Qed.

Lemma vsum_all_ext m m' a :
  m' !! LedgerKeyDelegatee a = m !! LedgerKeyDelegatee a ->
  (forall f, m' !! LedgerKeyVPower f a = m !! LedgerKeyVPower f a) -> vsum_all m' a = vsum_all m a.
Proof.
  unfold vsum_all. intros -> E. destruct (m !! _) as [[|d| |]|]; try done.
  apply zsum_map_ext. intros f _. now apply vsum_agree.
Qed.

Lemma nonneg_at m m' a :
  nonneg m ->
  (forall f v, m' !! LedgerKeyVPower f a = Some (IVPower v) -> nonneg_chunks (v_PowerChunks v)) ->
  vsum_all m' a <= MaxInt64 ->
  (forall b, b <> a -> m' !! LedgerKeyDelegatee b = m !! LedgerKeyDelegatee b) ->
  (forall f b, b <> a -> length b = AddrSize ->
    m' !! LedgerKeyVPower f b = m !! LedgerKeyVPower f b) ->
  nonneg m'.
Proof.
  intros [Hc Hs] Hca Hsa Ed Ev. split.
  - intros f b v Hl. destruct (decide (b = a)) as [->|Hne]; [apply Hca|]. rewrite Ev by done. now apply Hc.
  - intros b Hl. destruct (decide (b = a)) as [->|Hne]; [done|]. rewrite (vsum_all_ext m); auto.
Qed.

Lemma nonneg_freeze m h f pcs : nonneg m -> nonneg (freeze_map m h f pcs).
Proof.
  intros [Hc Hs]. split.
  - intros g a v Hl. rewrite freeze_vkey. now apply Hc.
  - intros a Hl. rewrite (vsum_all_ext m); [auto|apply freeze_dkey|intros; apply freeze_vkey].
Qed.

Lemma nonneg_put m f a d d' v' :
  nonneg m -> length a = AddrSize -> dgt_ok m a d -> nonneg_chunks (v_PowerChunks v') ->
  d_Delegators d' = (if decide (f ∈ d_Delegators d) then d_Delegators d else d_Delegators d ++ [f]) ->
  zsum (map (fun g => vsum m g a) (d_Delegators d)) + (chunk_sum (v_PowerChunks v') - vsum m f a)
    <= MaxInt64 ->
  nonneg (<[LedgerKeyDelegatee a := IDelegatee d']> (<[LedgerKeyVPower f a := IVPower v']> m)).
Proof.
  intros Hn Ha [Hnd Hpw _ _] Hch Ed Hle.
  set (m' := <[LedgerKeyDelegatee a := IDelegatee d']> (<[LedgerKeyVPower f a := IVPower v']> m)).
  assert (Ef : m' !! LedgerKeyVPower f a = Some (IVPower v'))
    by (unfold m'; now rewrite lookup_vkey_dkey, lookup_insert_eq).
  assert (Eo : forall g b, g <> f \/ b <> a -> length b = AddrSize ->
    m' !! LedgerKeyVPower g b = m !! LedgerKeyVPower g b).
  { intros g b Hor Hl. unfold m'. rewrite lookup_vkey_dkey, lookup_insert_ne; [done|].
    intros E. apply vkey_to in E as [-> ->]; [naive_solver|congruence]. }
  apply (nonneg_at m _ a Hn).
  - intros g w Hg. destruct (decide (g = f)) as [->|Hne].
    + rewrite Ef in Hg. now injection Hg as <-.
    + rewrite Eo in Hg by auto. eapply nn_chunks; eauto.
  - unfold vsum_all. unfold m' at 1. rewrite lookup_insert_eq, Ed, (vsum_put m); [|done| |].
    + now rewrite (vsum_lookup _ _ _ _ Ef).
    + intros g Hg. apply vsum_agree, Eo; auto.
    + intros Hin. apply vsum_None, eq_None_not_Some. now rewrite <- Hpw.
  - intros b Hb. unfold m'. rewrite lookup_insert_ne, lookup_dkey_vkey; [done|].
    intros E. apply dkey_inj in E. congruence.
  - intros g b Hb Hl. apply Eo; auto.
Qed.

Lemma nonneg_del m f a d d' :
  nonneg m -> length a = AddrSize -> dgt_ok m a d -> f ∈ d_Delegators d ->
  NoDup (d_Delegators d') -> (forall g, g ∈ d_Delegators d' <-> g ∈ d_Delegators d /\ g <> f) ->
  zsum (map (fun g => vsum m g a) (d_Delegators d)) <= MaxInt64 ->
  nonneg (<[LedgerKeyDelegatee a := IDelegatee d']> (delete (LedgerKeyVPower f a) m)).
Proof.
  intros Hn Ha [Hnd Hpw _ _] Hin Hn' Hd Hle.
  set (m' := <[LedgerKeyDelegatee a := IDelegatee d']> (delete (LedgerKeyVPower f a) m)).
  assert (Eo : forall g b, g <> f \/ b <> a -> length b = AddrSize ->
    m' !! LedgerKeyVPower g b = m !! LedgerKeyVPower g b).
  { intros g b Hor Hl. unfold m'. rewrite lookup_vkey_dkey, lookup_delete_ne; [done|].
    intros E. apply vkey_to in E as [-> ->]; [naive_solver|congruence]. }
  apply (nonneg_at m _ a Hn).
  - intros g w Hg. destruct (decide (g = f)) as [->|Hne].
    + unfold m' in Hg. rewrite lookup_vkey_dkey, lookup_delete_eq in Hg. done.
    + rewrite Eo in Hg by auto. eapply nn_chunks; eauto.
  - unfold vsum_all. unfold m' at 1. rewrite lookup_insert_eq, (vsum_del m _ a f (d_Delegators d)); try done.
    + pose proof (vsum_nonneg m f a Hn Ha). lia.
    + intros g Hg. apply vsum_agree, Eo; auto.
  - intros b Hb. unfold m'. rewrite lookup_insert_ne, lookup_delete_ne; [done|done|].
    intros E. apply dkey_inj in E. congruence.
  - intros g b Hb Hl. apply Eo; auto.
Qed.

Lemma nonneg_bond m f a d v power height txhash :
  nonneg m -> dgt_view m a d -> vpow_view m f a v -> nonneg_chunks (v_PowerChunks v) -> 0 <= power ->
  zsum (map (fun g => vsum m g a) (d_Delegators d)) + power <= MaxInt64 ->
  nonneg (bond_map m f a d v power height txhash).
Proof.
  intros Hn Vd Vv Hvn Hp Hle. apply (nonneg_put m f a d); [done|apply Vd|apply Vd| | |].
  - apply Forall_app. split; [done|]. now apply Forall_singleton.
  - now rewrite addDelegator_Delegators.
  - rewrite (vv_stored _ _ _ _ Vv). cbn [addPowerWithTxHash v_PowerChunks]. rewrite chunk_sum_app.
    replace (chunk_sum [MkPowerChunk power height txhash]) with power by (unfold chunk_sum; cbn; lia). lia.
Qed.

Lemma nonneg_unbond m f a d v v' pc txhash :
  nonneg m -> vinv m -> m !! LedgerKeyDelegatee a = Some (IDelegatee d) ->
  m !! LedgerKeyVPower f a = Some (IVPower v) -> delPowerWithTxHash v txhash = (Some pc, v') ->
  nonneg (unbond_map m f a d v' pc).
Proof.
  intros Hn Hm Hd Hv Hdel. pose proof (dgt_view_stored m a d Hm Hd) as Vd. pose proof (dv_len _ _ _ Vd) as Ha.
  destruct (vpow_view_stored m f a v (vi_typed _ Hm) Ha Hv) as [Vv _].
  pose proof (nn_chunks _ Hn f a v Ha Hv) as Hc. pose proof (nn_sum _ Hn a Ha) as Hle.
  destruct (delPowerWithTxHash_spec v txhash pc v' Hdel (vv_sum _ _ _ _ Vv) (vv_chunks _ _ _ _ Vv))
    as (_ & _ & _ & _ & Hpc & Es & _).
  unfold nonneg_chunks in Hc. pose proof (proj1 (Forall_forall _ _) Hc pc Hpc) as Hpos. cbn beta in Hpos.
  assert (Hch : nonneg_chunks (v_PowerChunks v')).
  { unfold delPowerWithTxHash in Hdel.
    destruct (remove_last _ _) as [[x rest]|] eqn:Er; [|done]. injection Hdel as -> <-.
    apply remove_last_Some in Er as (l1 & l2 & El & -> & _). rewrite El in Hc.
    apply Forall_app in Hc as [Hc1 [_ Hc2]%Forall_cons]. now apply Forall_app. }
  unfold vsum_all in Hle. rewrite Hd in Hle.
  assert (Hin : f ∈ d_Delegators d) by (rewrite (dk_powers _ _ _ (dv_ok _ _ _ Vd)), Hv; eauto).
  unfold unbond_map. destruct (Nat.eqb_spec (length (v_PowerChunks v')) 0) as [E0|E0].
  - destruct (delDelegator_spec (delPower d f (pc_Power pc)) f) as (rest & Er & Hn' & Hr);
      [apply Vd|done|]. rewrite Er. apply (nonneg_del m f a d); try done. apply Vd.
  - apply (nonneg_put m f a d); try done; [apply Vd| |].
    + cbn. now destruct (decide _).
    + rewrite (vv_stored _ _ _ _ Vv). lia.
Qed.

End Bounds.

Section VPowerTrx.
Context {T I : Type} `{Iavl T I, !IavlLaws T I}.
Context `{VPowerProtos, !VPowerProtosLaws, CryptoLib}.
Implicit Types (s : VPowerCtrler T I) (m : vmap).

(** ** Reading a delegatee or a power *)

Lemma wp_try_readDelegatee s m a Q :
  vcoh ∅ s m ->
  (forall dl d s', vcoh ∅ s' m -> m !! LedgerKeyDelegatee a = Some (IDelegatee d) ->
    vheld s' (LedgerKeyDelegatee a) dl (IDelegatee d) -> ptrs s' = ptrs s -> Q (Ok (inl dl)) s') ->
  (m !! LedgerKeyDelegatee a = None -> Q (Ok (inr ErrNotFoundResult)) s) ->
  wp (try (readDelegatee a true)) Q s.
Proof.
  intros HC HS HN. apply wp_try. destruct (m !! LedgerKeyDelegatee a) as [x|] eqn:Ex.
  - destruct (typed_delegatee m a x (coh_typed _ _ _ HC) Ex) as (d & -> & _).
    eapply led_get_rule; [exact HC|done|done|exact Ex|]. intros dl s' HC' Hdl F. eapply HS; eauto. apply F.
  - eapply led_get_none_rule; [exact HC|done|done|exact Ex|]. now apply HN.
Qed.

(** The limiter counts [p] more power added. *)
Definition lim_moved (lim : VPowerLimiter) (p : Z) (lim' : VPowerLimiter) : Prop :=
  lastTotalPower lim' = lastTotalPower lim /\ addingPower lim' = addingPower lim + p.

(** The limiter: one change of power, counted or refused. *)
Lemma wp_ctrl_CheckLimit s m power (op : bool) Q :
  vcoh ∅ s m -> lim_ok lim_bound (vpowLimiter s) -> (if op then 0 < power else 0 <= power) ->
  lastTotalPower (vpowLimiter s) + addingPower (vpowLimiter s) + (if op then power else 0) <= lim_bound ->
  (forall s', vpowerState s' = vpowerState s -> lim_ok lim_bound (vpowLimiter s') ->
    lim_moved (vpowLimiter s) (if op then power else 0) (vpowLimiter s') -> Q (Ok tt) s') ->
  (forall e, Q (Err e) s) ->
  wp (ctrl_CheckLimit power op) Q s.
Proof.
  intros HC HL Hp Hb HS HE. apply wp_bind, wp_gets, wp_bind, wp_lift.
  pose proof (CheckLimit_step (vpowLimiter s) power op HL Hp Hb) as Hstep.
  destruct (CheckLimit _ _ _) as [lim'|e|]; [|apply HE|done]. apply wp_modify, HS; [done|apply Hstep|].
  destruct Hstep as (_ & ? & _ & ? & _). by split.
Qed.

(** ** Staking *)

(** The power a staking transaction buys. *)
Definition tx_power (tx : Trx) : Z := tx_Amount tx / amountPerPower.

Lemma tx_power_i64 tx :
  0 <= tx_Amount tx < 2 ^ 63 * amountPerPower ->
  i64 (uUint64 (udiv (tx_Amount tx) AmountPerPower)) = tx_power tx /\ 0 <= tx_power tx < 2 ^ 63.
Proof.
  intros Ha. unfold AmountPerPower, udiv, tx_power, amountPerPower in *. cbn [Z.eqb].
  assert (Hq : 0 <= tx_Amount tx / 1000000000000000000 < 2 ^ 63).
  { split; [apply Z.div_pos; lia|]. apply Z.div_lt_upper_bound; lia. }
  split; [|done]. unfold uUint64, u64. rewrite Z.mod_small, i64_id by (unfold in_i64; lia). done.
Qed.

(** What validation hands to execution. *)
Definition staking_opt s m (tx : Trx) (opt : bondingTrxOpt) : Prop :=
  bt_txPower opt = tx_power tx /\
  match m !! LedgerKeyDelegatee (tx_To tx) with
  | Some (IDelegatee d) => exists dl, bt_dgtee opt = Some dl /\
      vheld s (LedgerKeyDelegatee (tx_To tx)) dl (IDelegatee d) /\
      d_SumPower d + tx_power tx <= MaxInt64
  | _ => bt_dgtee opt = None /\ tx_From tx = tx_To tx
  end.

(** The checks on the delegatee give its total power or an error. *)
Lemma wp_validate_bonding gp tx p s m dgt (Q : outcome Z -> VPowerCtrler T I -> Prop) :
  vcoh ∅ s m -> 0 < p < 2 ^ 63 ->
  match m !! LedgerKeyDelegatee (tx_To tx) with
  | Some (IDelegatee d) => 0 <= d_SumPower d < 2 ^ 63 /\ exists dl, dgt = Some dl /\
      vheld s (LedgerKeyDelegatee (tx_To tx)) dl (IDelegatee d)
  | _ => dgt = None
  end ->
  (forall total, match m !! LedgerKeyDelegatee (tx_To tx) with
    | Some (IDelegatee d) => total = d_SumPower d
    | _ => total = 0 /\ tx_From tx = tx_To tx
    end -> Q (Ok total) s) ->
  (forall e, Q (Err e) s) ->
  wp (validate_bonding gp tx p dgt) Q s.
Proof.
  intros HC Hp Hd HQ HE. unfold validate_bonding.
  destruct (bytes_Equal (tx_From tx) (tx_To tx)) eqn:Eft.
  - apply bytes_Equal_true in Eft. apply wp_bind.
    destruct (m !! LedgerKeyDelegatee (tx_To tx)) as [[|d| |]|] eqn:Ex.
    2: { destruct Hd as (Hr & dl & -> & Hdl). apply wp_bind, (get_dgt_rule s _ _ _ _ Hdl), wp_ret.
         destruct (_ <? _); [apply wp_throw, HE|]. now apply wp_ret, HQ. }
    all: subst dgt; apply wp_ret; destruct (_ <? _); [apply wp_throw, HE|]; apply wp_ret, HQ; done.
  - destruct (m !! LedgerKeyDelegatee (tx_To tx)) as [[|d| |]|] eqn:Ex.
    2: { destruct Hd as (Hr & dl & -> & Hdl). apply wp_bind, (get_dgt_rule s _ _ _ _ Hdl).
         destruct (_ <? _); [apply wp_throw, HE|]. apply wp_bind, wp_lift. unfold div_i64.
         assert (Hnz : i64 (d_SumPower d + p) <> 0).
         { pose proof (i64_eqm (d_SumPower d + p)) as E. intros E0. rewrite E0 in E. unfold eqm64 in E.
           rewrite Z.mod_0_l, Z.mod_small in E by lia. lia. }
         rewrite (proj2 (Z.eqb_neq _ _)) by done. destruct (_ <? _); [apply wp_throw, HE|].
         now apply wp_ret, HQ. }
    all: subst dgt; apply wp_throw, HE.
Qed.

Lemma wp_validate_staking gp tx s m Q :
  vcoh ∅ s m -> vinv m -> nonneg m -> lim_ok lim_bound (vpowLimiter s) ->
  0 <= tx_Amount tx < 2 ^ 63 * amountPerPower ->
  lastTotalPower (vpowLimiter s) + addingPower (vpowLimiter s) + tx_power tx <= lim_bound ->
  (forall opt s', vcoh ∅ s' m -> staking_opt s' m tx opt -> 0 < tx_power tx ->
    tx_Amount tx = PowerToAmount (tx_power tx) -> lim_ok lim_bound (vpowLimiter s') ->
    lim_moved (vpowLimiter s) (tx_power tx) (vpowLimiter s') -> Q (Ok opt) s') ->
  (forall e s', vcoh ∅ s' m -> vpowLimiter s' = vpowLimiter s -> Q (Err e) s') ->
  wp (validate_staking gp tx true) Q s.
Proof.
  intros HC Hm Hn HL Ha Hb HS HE. destruct (tx_power_i64 tx Ha) as [Ep Hp]. unfold validate_staking.
  destruct (uSign (udiv _ _) <=? 0); [now apply wp_throw, HE|].
  destruct (Z.eqb_spec (uSign (umod (tx_Amount tx) AmountPerPower)) 0) as [E0|]; [|now apply wp_throw, HE].
  cbn [negb]. rewrite Ep. destruct (Z.leb_spec (tx_power tx) 0) as [|Hpos]; [now apply wp_throw, HE|].
  assert (Eamt : tx_Amount tx = PowerToAmount (tx_power tx)).
  { rewrite PowerToAmount_exact by done. unfold umod, AmountPerPower, uSign, amountPerPower in *.
    cbn [Z.eqb] in E0. pose proof (Z.mod_pos_bound (tx_Amount tx) 1000000000000000000 ltac:(lia)).
    destruct (Z.eqb_spec (tx_Amount tx mod 1000000000000000000) 0) as [Em|].
    - apply Z.div_exact in Em; [|lia]. unfold tx_power, amountPerPower. lia.
    - destruct (_ <? _); lia. }
  apply wp_bind, (wp_try_readDelegatee s m); [done| |].
  - intros dl d s1 HC1 Hd Hdl Hp1. apply wp_bind, wp_ret, wp_bind.
    destruct (vinv_dgt m _ d Hm Hd) as (Hl & _ & _ & _ & Hok).
    destruct (nonneg_exact m _ d Hn Hl Hd Hok) as [Es Hr].
    apply (wp_validate_bonding gp tx (tx_power tx) s1 m); [done|lia| | |].
    + rewrite Hd. unfold MaxInt64 in Hr. split; [lia|eauto].
    + rewrite Hd. intros total ->. destruct (Z.ltb_spec (MaxInt64 - tx_power tx) (d_SumPower d)).
      { apply wp_throw, HE; [done|]. unfold ptrs in Hp1. congruence. }
      assert (EL : vpowLimiter s1 = vpowLimiter s) by (unfold ptrs in Hp1; congruence).
      apply wp_bind, (wp_ctrl_CheckLimit s1 m); rewrite ?EL; try done.
      * intros s2 Es2 HL2 HM2. apply wp_ret, HS; try done; [now rewrite Es2|].
        split; [done|]. rewrite Hd. exists dl. unfold held. rewrite Es2. split_and!; try done; try apply Hdl. lia.
      * intros e. apply HE; [done|congruence].
    + intros e. apply HE; [done|]. unfold ptrs in Hp1. congruence.
  - intros Hnone. apply wp_bind. cbn [errors_Is]. destruct (errors_Is _ _); [|now apply wp_throw, HE].
    apply wp_ret, wp_bind, (wp_validate_bonding gp tx (tx_power tx) s m); [done|lia|now rewrite Hnone| |now auto].
    rewrite Hnone. intros total [-> Eft]. destruct (Z.ltb_spec (MaxInt64 - tx_power tx) 0); [now apply wp_throw, HE|].
    apply wp_bind, (wp_ctrl_CheckLimit s m); try done; [|now auto].
    intros s2 Es2 HL2 HM2. apply wp_ret, HS; try done; [now rewrite Es2|].
    split; [done|]. now rewrite Hnone.
Qed.

(** The voting-power part of a bonding execution. *)
Lemma wp_bond_tx tx opt pk height txhash s m Q :
  vcoh ∅ s m -> vinv m -> nonneg m -> staking_opt s m tx opt -> 0 < tx_power tx < 2 ^ 63 ->
  in_i64 height -> length (tx_From tx) = AddrSize -> PubKeyBytes2Addr pk = tx_From tx ->
  (forall s' m', vcoh ∅ s' m' -> vinv m' -> nonneg m' -> ptrs s' = ptrs s ->
    bonded m' = bonded m + tx_power tx -> frozen m' = frozen m ->
    vsum m' (tx_From tx) (tx_To tx) = vsum m (tx_From tx) (tx_To tx) + tx_power tx -> Q (Ok tt) s') ->
  wp (bond_tx tx opt pk height txhash true) Q s.
Proof.
  intros HC Hm Hn [Ep Hd] Hp Hh Hf Hpk HQ. set (f := tx_From tx) in *. set (a := tx_To tx) in *.
  assert (Hpi : in_i64 (tx_power tx)) by (unfold in_i64; lia).
  (* the delegatee: the stored one or a new one *)
  enough (Hrest : forall dl d s1, vcoh ∅ s1 m -> dgt_view m a d -> ptrs s1 = ptrs s ->
    vheld s1 (LedgerKeyDelegatee a) dl (IDelegatee d) ->
    zsum (map (fun g => vsum m g a) (d_Delegators d)) + tx_power tx <= MaxInt64 ->
    wp (let! d := get_dgt dl in
        let! vpow := (if hasDelegator d f then readVPower f (d_addr d) true
                      else v_alloc (IVPower (NewVPower f (d_addr d)))) in
        bondPowerChunk dl vpow (bt_txPower opt) height txhash true) Q s1).
  { unfold bond_tx. fold f a. apply wp_bind.
    destruct (m !! LedgerKeyDelegatee a) as [[|d| |]|] eqn:Ex.
    2: { destruct Hd as (dl & -> & Hdl & Hle). apply wp_ret, (Hrest dl d); try done.
         - now apply dgt_view_stored.
         - destruct (vinv_dgt m a d Hm Ex) as (Hl & _ & _ & _ & Hok).
           destruct (nonneg_exact m a d Hn Hl Ex Hok) as [Es _]. unfold vsum_all in Es. rewrite Ex in Es. lia. }
    1,2,3: destruct (typed_delegatee m a _ (vi_typed _ Hm) Ex) as (? & ? & _); done.
    destruct Hd as [-> Eft]. fold f a in Eft. rewrite (proj2 (Z.eqb_eq _ _)) by now apply bytes_Compare_eq.
    apply wp_bind, (v_alloc_rule ∅ s m); [done|]. intros dl s1 HC1 Hdl F1 _. apply wp_ret.
    apply (Hrest dl (NewDelegatee pk)); try done; [|apply F1|].
    - rewrite <- Eft, <- Hpk in *. now apply dgt_view_new.
    - cbn. unfold MaxInt64. lia. }
  intros dl d s1 HC1 Vd Hp1 Hdl Hle.
  apply wp_bind, (get_dgt_rule s1 _ _ _ _ Hdl). rewrite (dv_addr _ _ _ Vd).
  enough (Hbond : forall vl v s2, vcoh ∅ s2 m -> vpow_view m f a v -> nonneg_chunks (v_PowerChunks v) ->
    ptrs s2 = ptrs s -> vheld s2 (LedgerKeyDelegatee a) dl (IDelegatee d) ->
    vheld s2 (LedgerKeyVPower f a) vl (IVPower v) ->
    wp (bondPowerChunk dl vl (bt_txPower opt) height txhash true) Q s2).
  { pose proof (hasDelegator_spec d f) as Hhd. rewrite (dk_powers _ _ _ (dv_ok _ _ _ Vd)) in Hhd.
    apply wp_bind. destruct (hasDelegator d f).
    - destruct (proj1 Hhd eq_refl) as [x Hx].
      destruct (typed_vpower m f a x (vi_typed _ Hm) (dv_len _ _ _ Vd) Hx) as (v & -> & _).
      eapply led_get_rule; [exact HC1|done|done|exact Hx|]. intros vl s2 HC2 Hvl F2.
      apply (Hbond vl v); try done.
      + now apply vpow_view_stored; [apply Hm|apply Vd|].
      + eapply nn_chunks; [done|apply Vd|exact Hx].
      + now rewrite (proj2 F2).
      + now apply (vframes_keep s1 s2 _ _ _ F2).
    - apply (v_alloc_rule ∅ s1 m); [done|]. intros vl s2 HC2 Hvl F2 _.
      apply (Hbond vl (NewVPower f a)); try done.
      + apply vpow_view_new; [done|]. apply eq_None_not_Some. intros Hs. now apply Hhd in Hs.
      + constructor.
      + now rewrite (proj2 F2).
      + now apply (vframes_keep s1 s2 _ _ _ F2). }
  intros vl v s2 HC2 Vv Hvn Hp2 Hdl2 Hvl2. rewrite Ep.
  apply (wp_bondPowerChunk s2 m f a dl vl d v); try done. intros s3 HC3 Hp3 _ _.
  destruct (bond_sums m f a d v (tx_power tx) height txhash Hm Vd Vv Hpi Hh) as [Eb Ef].
  eapply HQ; [exact HC3|now apply bond_inv|apply nonneg_bond; try done; lia|congruence|done|done|].
  unfold bond_map, vsum at 1. rewrite lookup_vkey_dkey, lookup_insert_eq, (vv_stored _ _ _ _ Vv).
  cbn [addPowerWithTxHash v_PowerChunks]. rewrite chunk_sum_app. f_equal. unfold chunk_sum; cbn. lia.
Qed.

(** ** Unstaking *)

(** What an unstaking leaves: the chunk is unbonded and frozen until the refund
    height; when no self power is left everything else bonded to the delegatee
    follows and the delegatee is gone. *)
Definition unstaked m m' (f a : Address) (txhash : bytes) (refundHeight : Z) : Prop :=
  exists d v v' pc d1,
    let m1 := freeze_map (unbond_map m f a d v' pc) refundHeight f [pc] in
    m !! LedgerKeyDelegatee a = Some (IDelegatee d) /\
    m !! LedgerKeyVPower f a = Some (IVPower v) /\
    delPowerWithTxHash v txhash = (Some pc, v') /\ pc_TxHash pc = txhash /\
    m1 !! LedgerKeyDelegatee a = Some (IDelegatee d1) /\
    if d_SelfPower d1 =? 0
    then m' !! LedgerKeyDelegatee a = None /\ bonded m' = bonded m - pc_Power pc - vsum_all m1 a
    else m' = m1.

Lemma findPowerChunk_del v txhash pc :
  findPowerChunk v txhash = Some pc ->
  pc ∈ v_PowerChunks v /\ exists pc' v', delPowerWithTxHash v txhash = (Some pc', v').
Proof.
  intros Hf. apply find_some in Hf as [Hin Heq]. apply list_elem_of_In in Hin. split; [done|].
  unfold delPowerWithTxHash. destruct (remove_last _ _) as [[x rest]|] eqn:Er; [eauto|].
  apply (remove_last_None _ _ pc) in Er; [|done]. cbn beta in Er.
  now rewrite bytes_Equal_sym, Heq in Er.
Qed.

Lemma wp_exeUnbonding gp tx dl vl p s m d v txhash pc v' height Q :
  vcoh ∅ s m -> vinv m -> nonneg m -> length (tx_From tx) = AddrSize ->
  tx_Payload tx = Some (TrxPayloadUnstaking txhash) -> txhash <> [] ->
  m !! LedgerKeyDelegatee (tx_To tx) = Some (IDelegatee d) ->
  m !! LedgerKeyVPower (tx_From tx) (tx_To tx) = Some (IVPower v) ->
  delPowerWithTxHash v txhash = (Some pc, v') ->
  vheld s (LedgerKeyDelegatee (tx_To tx)) dl (IDelegatee d) ->
  vheld s (LedgerKeyVPower (tx_From tx) (tx_To tx)) vl (IVPower v) ->
  (forall s' m', vcoh ∅ s' m' -> vinv m' -> nonneg m' -> ptrs s' = ptrs s ->
    bonded m' + frozen m' = bonded m + frozen m ->
    unstaked m m' (tx_From tx) (tx_To tx) txhash (i64 (height + GovParams.LazyUnbondingBlocks gp)) ->
    Q (Ok tt) s') ->
  wp (exeUnbonding gp tx (MkBondingTrxOpt (Some dl) (Some vl) p) height true) Q s.
Proof.
  intros HC Hm Hn Hf Hpay Hne Hd Hv Hdel Hdl Hvl HQ. set (f := tx_From tx) in *. set (a := tx_To tx) in *.
  pose proof (dgt_view_stored m a d Hm Hd) as Vd. pose proof (dv_len _ _ _ Vd) as Ha.
  destruct (vpow_view_stored m f a v (vi_typed _ Hm) Ha Hv) as [Vv _].
  destruct (delPowerWithTxHash_spec v txhash pc v' Hdel (vv_sum _ _ _ _ Vv) (vv_chunks _ _ _ _ Vv))
    as (_ & Efr & _ & Eth & Hin & _).
  assert (Hck : chunk_ok pc) by exact (proj1 (Forall_forall _ _) (vv_chunks _ _ _ _ Vv) pc Hin).
  destruct (unbond_spec m f a d v v' pc txhash Hm Vd Hv Hdel) as (Hu & Eb & Ef).
  set (rh := i64 (height + GovParams.LazyUnbondingBlocks gp)) in *.
  assert (Hrh : in_i64 rh) by apply i64_range.
  unfold exeUnbonding. cbn [bt_dgtee bt_vpow]. rewrite Hpay.
  destruct (bytes_Equal txhash []) eqn:Enil; [now apply bytes_Equal_true in Enil|].
  apply wp_bind. eapply (wp_unbondPowerChunk s m f a dl vl d v txhash); try done. rewrite Hdel.
  intros s1 d1 HC1 Hp1 Hdl1 Hd1 Hvl1.
  apply wp_bind, (get_vpow_rule s1 _ _ _ _ Hvl1). rewrite Efr, (vv_from _ _ _ _ Vv). apply wp_bind.
  eapply wp_freezePowerChunk; [exact HC1|done|done|done|]. intros s2 HC2 Hp2 Hk2.
  pose proof (Hk2 _ _ _ Hdl1 ltac:(done)) as Hdl2.
  set (m1 := freeze_map (unbond_map m f a d v' pc) rh f [pc]) in *.
  assert (Hm1 : vinv m1) by (apply freeze_inv; try done; now apply Forall_singleton).
  assert (Hn1 : nonneg m1) by (eapply nonneg_freeze, nonneg_unbond; eauto).
  destruct (freeze_sums (unbond_map m f a d v' pc) rh f [pc] (vi_typed _ Hu)) as [Eb1 Ef1]. fold m1 in Eb1, Ef1.
  assert (Epc : chunk_sum [pc] = pc_Power pc) by (unfold chunk_sum; cbn; lia).
  assert (Hd2 : m1 !! LedgerKeyDelegatee a = Some (IDelegatee d1)) by (unfold m1; now rewrite freeze_dkey).
  apply wp_bind, (get_dgt_rule s2 _ _ _ _ Hdl2).
  destruct (d_SelfPower d1 =? 0) eqn:E0.
  - apply (wp_unbond_all s2 m1 a dl d1 rh); try done.
    intros s3 m3 HC3 Hp3 Hm3 Hgone Hdk Hvk Eb3 Ef3 _. apply (HQ s3 m3); try done; [|congruence|lia|].
    + apply (nonneg_at m1 m3 a Hn1); try done.
      * intros g w Hg. pose proof (vi_part _ Hm3 a Ha) as Hpart. unfold dgt_part in Hpart.
        rewrite Hgone in Hpart. now rewrite Hpart in Hg.
      * unfold vsum_all. rewrite Hgone. unfold MaxInt64. lia.
    + exists d, v, v', pc, d1. fold m1. rewrite E0. split_and!; try done. lia.
  - apply wp_ret, (HQ s2 m1); try done; [congruence|lia|].
    exists d, v, v', pc, d1. fold m1. now rewrite E0.
Qed.

Lemma wp_validate_unstaking tx s m Q :
  vcoh ∅ s m -> vinv m -> nonneg m -> lim_ok lim_bound (vpowLimiter s) ->
  (exists h, tx_Payload tx = Some (TrxPayloadUnstaking h)) ->
  (forall dl vl p d v txhash s', vcoh ∅ s' m -> lim_ok lim_bound (vpowLimiter s') ->
    lim_moved (vpowLimiter s) 0 (vpowLimiter s') ->
    tx_Payload tx = Some (TrxPayloadUnstaking txhash) -> txhash <> [] ->
    m !! LedgerKeyDelegatee (tx_To tx) = Some (IDelegatee d) ->
    m !! LedgerKeyVPower (tx_From tx) (tx_To tx) = Some (IVPower v) ->
    vheld s' (LedgerKeyDelegatee (tx_To tx)) dl (IDelegatee d) ->
    vheld s' (LedgerKeyVPower (tx_From tx) (tx_To tx)) vl (IVPower v) ->
    (exists pc, findPowerChunk v txhash = Some pc) ->
    Q (Ok (MkBondingTrxOpt (Some dl) (Some vl) p)) s') ->
  (forall e s', vcoh ∅ s' m -> vpowLimiter s' = vpowLimiter s -> Q (Err e) s') ->
  wp (validate_unstaking tx true) Q s.
Proof.
  intros HC Hm Hn HL [h Hpay] HS HE. set (a := tx_To tx) in *. set (f := tx_From tx) in *.
  apply wp_bind, (wp_try_readDelegatee s m); [done| |now intros _; apply wp_throw, HE].
  intros dl d s1 HC1 Hd Hdl Hp1. assert (HL1 : vpowLimiter s1 = vpowLimiter s) by (unfold ptrs in Hp1; congruence).
  rewrite Hpay. destruct (Nat.eqb_spec (length h) 32) as [Hl|]; [|apply wp_throw, HE; [done|congruence]].
  cbn [negb]. destruct (vinv_dgt m a d Hm Hd) as (Ha & _).
  apply wp_bind, wp_try. fold f a. destruct (m !! LedgerKeyVPower f a) as [x|] eqn:Ex.
  2: { eapply led_get_none_rule; [exact HC1|done|done|exact Ex|]. apply wp_throw, HE; [done|congruence]. }
  destruct (typed_vpower m f a x (vi_typed _ Hm) Ha Ex) as (v & -> & _).
  eapply led_get_rule; [exact HC1|done|done|exact Ex|]. intros vl s2 HC2 Hvl F2.
  assert (HL2 : vpowLimiter s2 = vpowLimiter s) by (destruct F2 as [_ F2]; unfold ptrs in F2; congruence).
  pose proof (vframes_keep s1 s2 _ _ _ F2 Hdl) as Hdl2.
  apply wp_bind, (get_vpow_rule s2 _ _ _ _ Hvl).
  destruct (findPowerChunk v h) as [pc|] eqn:Efc; [|apply wp_throw, HE; [done|congruence]].
  destruct (findPowerChunk_del v h pc Efc) as [Hin _].
  assert (Hpos : 0 <= pc_Power pc)
    by exact (proj1 (Forall_forall _ _) (nn_chunks _ Hn f a v Ha Ex) pc Hin).
  apply wp_bind, (wp_ctrl_CheckLimit s2 m); rewrite ?HL2; try done.
  - unfold SUB_POWER. destruct HL. lia.
  - intros s3 E3 HL3 HM3. apply wp_ret, (HS dl vl (pc_Power pc) d v h); try done; try (now rewrite E3); eauto.
    destruct h; done.
  - intros e. apply HE; [done|congruence].
Qed.

End VPowerTrx.

(** ** With the accounts *)

Lemma wp_bind_ignore {S B} (n : M S unit) (k : M S B) (R : S -> Prop) s :
  wp (n ;;; k) (okQ (fun _ => R)) s -> wp (n ;;; ignore k) (okQ (fun _ => R)) s.
Proof.
  unfold wp, bind, ignore. destruct (n s) as [[[]|e|] s1]; try done. now destruct (k s1) as [[b|e|] s2].
Qed.

Lemma wp_zoom_bind {S L B C} (ln : lens S L) (m1 : M L B) (m2 : B -> M L C) Q s :
  wp (zoom ln (bind m1 m2)) Q s -> wp (bind (zoom ln m1) (fun b => zoom ln (m2 b))) Q s.
Proof.
  unfold wp, zoom, bind. destruct (m1 (lget ln s)) as [[b|e|] l1]; try done.
  rewrite lget_lset. destruct (m2 b l1) as [o l2]; cbn. now rewrite lset_lset.
Qed.

Section WithAccounts.
Context {T I : Type} `{Iavl T I, !IavlLaws T I}.
Context `{VPowerProtos, !VPowerProtosLaws, CryptoLib}.
Context {A : Type} `{IAccountHandler A, Utf8, !IAccountLaws A}.
Implicit Types (s : VPowerCtrler T I) (m : vmap) (ac : A).

(** Validation and execution of a transaction, as the executor chains them. *)
Definition run_vpower_trx (gp : GovParamsProto) (tx : Trx) (pk : bytes) (sender : loc) (height : Z)
    (txhash : bytes) : M (VPowerCtrler T I * A) unit :=
  let! opt := on_vp (vpower_ValidateTrx gp tx true) in
  vpower_ExecuteTrx gp tx opt pk sender height txhash true.

(** The sender pays the staked amount. *)
Lemma wp_pay s ac ma sender x amt (R : VPowerCtrler T I * A -> Prop) :
  accts ac ma -> aheld ac sender x -> 0 <= amt < 2 ^ 255 -> amt <= acct_Balance x ->
  (forall ac', accts ac' (store_acct ma (SetBalance x (acct_Balance x - amt))) -> R (s, ac')) ->
  wp (on_acct (acct_update sender (fun a => SubBalance a amt)) ;;;
      on_acct (ignore (SetAccount sender true))) (okQ (fun _ => R)) (s, ac).
Proof.
  intros Hac Hx Ha Hle HR. apply (wp_zoom_bind snd_lens), wp_zoom. cbn [lget snd_lens].
  assert (Hwf := aheld_wf _ _ _ Hx).
  assert (Hbal : in_u256 (acct_Balance x)) by apply Hwf.
  apply (wp_bind_ignore _ _ (fun ac' => R (s, ac'))).
  eapply wp_mono.
  { apply (pay_law ac ma sender x (fun a => SubBalance a amt) (SetBalance x (acct_Balance x - amt))); try done.
    - now apply SubBalance_ok.
    - apply acct_wf_SetBalance; [done|]. unfold in_u256 in *. lia. }
  intros [[]|e|] ac'; cbn [okQ]; try done. intros (Hac' & _). now apply HR.
Qed.

End WithAccounts.
