(* ===== verification/VPowerRefund.v ===== *)
(** * VPowerRefund: refunding the power frozen until a height

    [_unfreezePowerChunk] visits the frozen powers of a height, pays each owner
    the amount of its refund power, and removes them, up to the first owner that
    has no account. *)
From stdpp Require Import base gmap list strings.
From Stdlib Require Import ZArith Lia.
From S2P Require Import Prelude XErrors GoMonad LedgerKeys Iavl Ledger LedgerSpec LedgerOps.
From S2P Require Import Units Proto Signer GovParams Account TrxTypes AcctCtrler AcctSpec.
From S2P Require Import AcctProps VPowerItems Limiter VPowerCtrler VPowerInv VPowerWp.

(** The owner's address in the key of a frozen power. *)
Definition frozen_owner (k : bytes) : Address := take 20 (drop 9 k).

Lemma frozen_owner_key h f : length f = AddrSize -> frozen_owner (LedgerKeyFrozenVPower h f) = f.
Proof.
  intros Hf. unfold frozen_owner, LedgerKeyFrozenVPower. rewrite app_assoc, drop_app_length'.
  - apply take_ge. unfold AddrSize in Hf. lia.
  - now rewrite length_app, length_put_be.
Qed.

Lemma length_frozen_key h f :
  length f = AddrSize -> length (LedgerKeyFrozenVPower h f) = 29%nat.
Proof. intros Hf. unfold LedgerKeyFrozenVPower. now rewrite !length_app, length_put_be, Hf. Qed.

(** The accounts after the owners of the given keys are paid. *)
Definition refund_power (m : vmap) (k : bytes) : Z :=
  match m !! k with Some (IFrozen fr) => f_RefundPower fr | _ => 0 end.

Definition refund_accts (m : vmap) (ks : list bytes) (ma : accts_map) : accts_map :=
  fold_left (fun ma k => credit ma (frozen_owner k) (PowerToAmount (refund_power m k))) ks ma.

Lemma PowerToAmount_bound p : 0 <= PowerToAmount p < 2 ^ 255.
Proof.
  unfold PowerToAmount, umul, u256_of_int, u64, amountPerPower.
  pose proof (Z.mod_pos_bound p (2 ^ 64) ltac:(lia)). rewrite u256_id by (unfold in_u256; lia). lia.
Qed.

Section Accts.
Context `{Utf8}.

Lemma credit_ok ma addr amt :
  accts_ok ma -> length addr = AddrSize -> accts_ok (credit ma addr amt).
Proof.
  intros Hok Hl. unfold credit, store_acct. intros k a Hk. cbn in Hk.
  apply lookup_insert_Some in Hk as [[<- <-]|[_ Hk]]; [|eauto]. cbn. split; [done|].
  apply acct_wf_SetBalance; [|apply u256_range].
  unfold acct_at. destruct (ma !! _) as [x|] eqn:Ex; cbn; [now apply Hok in Ex as [_ Hx]|now apply acct_wf_new].
Qed.

Lemma credit_is_Some ma addr amt k : is_Some (ma !! k) -> is_Some (credit ma addr amt !! k).
Proof. intros Hs. unfold credit, store_acct. rewrite lookup_insert_is_Some'. auto. Qed.

Lemma bal_credit ma addr amt b :
  accts_ok ma -> bal (credit ma addr amt) b = if bool_decide (b = addr) then uadd (bal ma b) amt else bal ma b.
Proof.
  intros Hok. unfold credit. rewrite bal_store. cbn. rewrite acct_at_Address by done.
  repeat case_bool_decide; congruence.
Qed.

(** Every owner is paid once. *)
Lemma refund_accts_bal m ks ma :
  accts_ok ma -> Forall (fun k => length (frozen_owner k) = AddrSize) ks ->
  NoDup (map frozen_owner ks) ->
  accts_ok (refund_accts m ks ma) /\
  (forall k, k ∈ ks -> bal (refund_accts m ks ma) (frozen_owner k) =
     uadd (bal ma (frozen_owner k)) (PowerToAmount (refund_power m k))) /\
  (forall b, b ∉ map frozen_owner ks -> bal (refund_accts m ks ma) b = bal ma b).
Proof.
  revert ma. induction ks as [|k ks IH]; intros ma Hok Hl Hn.
  { split; [done|]. split; [intros k Hk; now apply not_elem_of_nil in Hk|done]. }
  apply Forall_cons in Hl as [Hl1 Hl]. cbn [map] in Hn. apply NoDup_cons in Hn as [Hnin Hn].
  destruct (IH (credit ma (frozen_owner k) (PowerToAmount (refund_power m k)))) as (Hok' & Hin & Hout);
    [now apply credit_ok|done|done|].
  split; [done|]. split.
  - intros k' Hk'. apply elem_of_cons in Hk' as [->|Hk'].
    + etransitivity; [now apply Hout|]. rewrite bal_credit by done. now rewrite bool_decide_eq_true_2.
    + etransitivity; [now apply Hin|]. rewrite bal_credit by done. rewrite bool_decide_eq_false_2; [done|].
      intros E. apply Hnin. rewrite <- E. now apply list_elem_of_fmap_2.
  - intros b Hb. cbn [map] in Hb. apply not_elem_of_cons in Hb as [Hb1 Hb2].
    etransitivity; [now apply Hout|]. rewrite bal_credit by done. now rewrite bool_decide_eq_false_2.
Qed.

End Accts.

Section Refund.
Context {T I : Type} `{Iavl T I, !IavlLaws T I}.
Context `{VPowerProtos, !VPowerProtosLaws, CryptoLib}.
Context {A : Type} `{IAccountHandler A, Utf8, !IAccountLaws A}.
Implicit Types (s : VPowerCtrler T I) (m : vmap) (ac : A).

(** The keys of the powers frozen until [h], in key order. *)
Definition due s (h : Z) : list (bytes * bytes) :=
  with_prefix (exec_contents (vpowerState s)) (LedgerKeyFrozenVPower h []).

Lemma due_spec s m h k b :
  vcoh ∅ s m -> in_i64 h -> (k, b) ∈ due s h ->
  exists f fr, k = LedgerKeyFrozenVPower h f /\ length f = AddrSize /\
    m !! k = Some (IFrozen fr) /\ decode_at k b = Ok (IFrozen fr).
Proof.
  intros HC Hh Hk. apply elem_of_with_prefix in Hk as [Hb Hpre].
  pose proof (coh_tree _ _ _ HC k) as Hrep. rewrite Hb in Hrep. inversion Hrep as [? x Hst Hb' Hx|]; subst.
  assert (Hok : vitem_ok k x) by apply Hst. pose proof (stored_decode k b x Hst) as Hdec.
  apply bytes_HasPrefix_spec in Hpre as [t Ht].
  destruct x as [v|d|fr|c]; cbn in Hok.
  - destruct Hok as (E & _). rewrite E in Ht. done.
  - destruct Hok as (E & _). rewrite E in Ht. done.
  - destruct Hok as ((h' & f & E & Hh' & Hf) & _). exists f, fr. subst k.
    assert (h = h') as <-.
    { apply (frozen_prefix_iff h h' f); try done. apply bytes_HasPrefix_spec. eauto. }
    done.
  - destruct Hok as ((a & E) & _). rewrite E in Ht. done.
Qed.

Lemma elem_of_due s m h f :
  vcoh ∅ s m -> in_i64 h -> length f = AddrSize ->
  LedgerKeyFrozenVPower h f ∈ map fst (due s h) <-> is_Some (m !! LedgerKeyFrozenVPower h f).
Proof.
  intros HC Hh Hf. split.
  - intros ([k b] & E & Hin)%list_elem_of_fmap. cbn in E. subst k.
    destruct (due_spec s m h _ b HC Hh Hin) as (f' & fr & _ & _ & Hm & _). eauto.
  - intros [x Hx]. destruct (represents_lookup _ _ _ _ (coh_tree _ _ _ HC) Hx) as (b & Hb & _).
    apply list_elem_of_fmap. exists (LedgerKeyFrozenVPower h f, b). split; [done|].
    apply elem_of_with_prefix. split; [done|]. now apply frozen_prefix_iff.
Qed.

Lemma due_owners s m h :
  vcoh ∅ s m -> in_i64 h ->
  Forall (fun k => length (frozen_owner k) = AddrSize) (map fst (due s h)) /\
  NoDup (map frozen_owner (map fst (due s h))).
Proof.
  intros HC Hh. split.
  - apply Forall_forall. intros k ([k' b] & -> & Hin)%list_elem_of_fmap. cbn [fst].
    destruct (due_spec s m h _ b HC Hh Hin) as (f & fr & -> & Hf & _). now rewrite frozen_owner_key.
  - apply NoDup_fmap_2_strong; [|apply NoDup_with_prefix].
    intros k1 k2 ([k1' b1] & -> & H1')%list_elem_of_fmap ([k2' b2] & -> & H2')%list_elem_of_fmap. cbn [fst].
    destruct (due_spec s m h _ b1 HC Hh H1') as (f1 & fr1 & -> & Hf1 & _).
    destruct (due_spec s m h _ b2 HC Hh H2') as (f2 & fr2 & -> & Hf2 & _).
    rewrite !frozen_owner_key by done. congruence.
Qed.

(** The owners of [done_] have been paid, those of [rest] have not. *)
Definition paid s m ma h (rest : list (bytes * bytes)) (st : VPowerCtrler T I * A * list LedgerKey) : Prop :=
  exists done_, due s h = done_ ++ rest /\ vcoh ∅ (fst (fst st)) m /\ ptrs (fst (fst st)) = ptrs s /\
    snd st = map fst done_ /\ accts (snd (fst st)) (refund_accts m (map fst done_) ma) /\
    Forall (fun kv => is_Some (ma !! LedgerKeyAccount (frozen_owner (fst kv)))) done_.

Definition no_account : error := Wrapf ErrNotFoundAccount "Reward - address: %v".

Lemma refund_accts_snoc m ks k ma :
  refund_accts m (ks ++ [k]) ma =
  credit (refund_accts m ks ma) (frozen_owner k) (PowerToAmount (refund_power m k)).
Proof. unfold refund_accts. now rewrite fold_left_app. Qed.

(** Paying owners with an account makes none. *)
Lemma refund_accts_dom m ks ma k :
  accts_ok ma -> Forall (fun k => length (frozen_owner k) = AddrSize) ks ->
  Forall (fun k => is_Some (ma !! LedgerKeyAccount (frozen_owner k))) ks ->
  is_Some (refund_accts m ks ma !! k) <-> is_Some (ma !! k).
Proof.
  intros Hok Hl Hs. revert ma Hok Hs. induction Hl as [|x ks Hx Hl IH]; intros ma Hok Hs; [done|].
  apply Forall_cons in Hs as [Hsx Hs]. unfold refund_accts in *. cbn [fold_left].
  assert (forall k, is_Some (credit ma (frozen_owner x) (PowerToAmount (refund_power m x)) !! k) <-> is_Some (ma !! k)) as Hc.
  { intros k'. unfold credit, store_acct. rewrite lookup_insert_is_Some'. cbn. rewrite acct_at_Address by done. split; [|auto].
    by intros [<-|]. }
  rewrite IH; [apply Hc|by apply credit_ok|]. eapply Forall_impl; [exact Hs|]. intros y Hy. cbn in Hy |- *. by apply Hc.
Qed.

(** One visit pays one owner, or finds that there is no account. *)
Lemma wp_refund_visit s m ma h kv rest st :
  vcoh ∅ s m -> in_i64 h -> accts_ok ma ->
  paid s m ma h (kv :: rest) st ->
  wp (visit (lens_comp fst_lens (lens_comp fst_lens vp_lens)) refund_one kv) (fun o st' =>
    match ma !! LedgerKeyAccount (frozen_owner (fst kv)) with
    | Some _ => o = Ok tt /\ paid s m ma h rest st'
    | None => o = Err no_account /\ paid s m ma h (kv :: rest) st'
    end) st.
Proof.
  intros HC Hh Hok (done_ & Edue & HC1 & Hp1 & Erm & Hac & Hall). destruct kv as [k b].
  assert (Hin : (k, b) ∈ due s h) by (rewrite Edue; apply elem_of_app; right; now left).
  destruct (due_spec s m h k b HC Hh Hin) as (f & fr & -> & Hf & Hm & Hdec).
  destruct (due_owners s m h HC Hh) as [Hl _]. rewrite Edue, map_app in Hl. apply Forall_app in Hl as [Hl _].
  destruct st as [[s1 ac1] removed]. cbn [fst snd] in *.
  apply wp_bind, wp_lift. cbn [fst snd]. rewrite Hdec. apply wp_bind, wp_zoom. cbn [lget lens_comp fst_lens vp_lens fst].
  apply (held_alloc_rule ∅ _ m); [done|]. intros l ls HC2 Hl2 _ F2 _ _.
  cbn [lset lens_comp fst_lens vp_lens fst snd lget].
  apply wp_bind, wp_zoom. cbn [lget fst_lens fst]. apply wp_zoom. cbn [lget fst_lens fst].
  set (s2 := MkVPowerCtrler ls (allDelegatees s1) (lastValidators s1) (vpowLimiter s1)).
  eapply (get_frozen_rule s2 [] l fr); [apply Hl2|]. cbn [lset fst_lens snd].
  destruct (Nat.ltb_spec (length (LedgerKeyFrozenVPower h f)) 29) as [Hlt|_];
    [rewrite length_frozen_key in Hlt by done; lia|].
  apply wp_bind, wp_zoom. cbn [lget fst_lens fst]. apply wp_zoom. cbn [lget snd_lens snd].
  fold (frozen_owner (LedgerKeyFrozenVPower h f)). rewrite frozen_owner_key by done.
  eapply wp_mono; [apply (Reward_law ac1 _ f (PowerToAmount (f_RefundPower fr)) Hac Hf), PowerToAmount_bound|].
  pose proof (refund_accts_dom m (map fst done_) ma (LedgerKeyAccount f) Hok Hl ltac:(by apply Forall_fmap)) as Hdom.
  destruct (ma !! LedgerKeyAccount f) as [y|] eqn:Ey.
  - destruct (proj2 Hdom ltac:(eauto)) as [x Hx]. rewrite Hx. intros o ac2 (-> & Hac2 & _).
    apply wp_modify. cbn [lset snd_lens fst_lens fst snd]. split; [done|].
    exists (done_ ++ [(LedgerKeyFrozenVPower h f, b)]). cbn [fst snd]. split_and!; [by rewrite <- app_assoc|exact HC2|exact Hp1|by rewrite map_app, Erm| |].
    + rewrite map_app; cbn [map fst]. rewrite refund_accts_snoc, frozen_owner_key by done. unfold refund_power. now rewrite Hm.
    + apply Forall_app_2; [done|]. apply Forall_singleton. cbn [fst]. rewrite frozen_owner_key, Ey by done. eauto.
  - destruct (refund_accts m (map fst done_) ma !! LedgerKeyAccount f) as [x|] eqn:Ex; [by destruct (proj1 Hdom ltac:(eauto))|].
    intros o ac2 (-> & Hac2). split; [done|]. by exists done_.
Qed.

(** The visits: all owners are paid, or those before the first one that has no
    account. *)
Lemma wp_refund_visits s m ma h rest : forall st,
  vcoh ∅ s m -> in_i64 h -> accts_ok ma -> paid s m ma h rest st ->
  wp (for_each rest (visit (lens_comp fst_lens (lens_comp fst_lens vp_lens)) refund_one)) (fun o st' =>
    (o = Ok tt /\ paid s m ma h [] st') \/
    exists kv rest', ma !! LedgerKeyAccount (frozen_owner (fst kv)) = None /\ o = Err no_account /\ paid s m ma h (kv :: rest') st') st.
Proof.
  induction rest as [|kv rest IH]; intros st HC Hh Hok Hp; cbn [for_each]; [apply wp_ret; by left|].
  apply wp_bind. eapply wp_mono; [by apply (wp_refund_visit s m ma h kv rest)|].
  destruct (ma !! LedgerKeyAccount (frozen_owner (fst kv))) eqn:Ea.
  - intros o st' [-> Hp']. by apply IH.
  - intros o st' [-> Hp']. right. by exists kv, rest.
Qed.

(** Removing the collected keys. *)
Lemma wp_remove_due ks : forall s m ac,
  vcoh ∅ s m -> Forall (fun k => k <> []) ks ->
  wp (for_each ks (fun k => ignore (on_vp (led_Del k true))))
    (okQ (fun _ st => vcoh ∅ (fst st) (fold_left (fun m k => delete k m) ks m) /\
      ptrs (fst st) = ptrs s /\ snd st = ac)) (s, ac).
Proof.
  induction ks as [|k ks IH]; intros s m ac HC Hk; cbn [for_each fold_left].
  - now apply wp_ret.
  - apply Forall_cons in Hk as [Hk Hks]. apply wp_bind, wp_ignore, wp_zoom. cbn [lget fst_lens fst].
    eapply led_del_rule; [exact HC|done|]. intros s1 HC1 F1. rewrite dirty_nil in HC1.
    cbn [lset fst_lens snd]. eapply wp_mono; [apply (IH s1 _ ac HC1 Hks)|].
    intros [[]|e|] st; cbn [okQ]; try done. intros (HC2 & Hp2 & Ha2). split_and!; try done.
    now rewrite Hp2, (proj2 F1).
Qed.

Lemma wp_unfreeze s m ac ma h :
  vcoh ∅ s m -> in_i64 h -> accts ac ma -> accts_ok ma ->
  wp (_unfreezePowerChunk h) (fun o st => exists done_ rest, due s h = done_ ++ rest /\
    Forall (fun kv => is_Some (ma !! LedgerKeyAccount (frozen_owner (fst kv)))) done_ /\
    match rest with
    | [] => o = Ok tt
    | kv :: _ => o = Err no_account /\ ma !! LedgerKeyAccount (frozen_owner (fst kv)) = None
    end /\
    vcoh ∅ (fst st) (fold_left (fun m k => delete k m) (map fst done_) m) /\ ptrs (fst st) = ptrs s /\
    accts (snd st) (refund_accts m (map fst done_) ma)) (s, ac).
Proof.
  intros HC Hh Hac Hok. unfold _unfreezePowerChunk. apply wp_bind, wp_run_var.
  unfold wp at 1. rewrite Seek_visits_aux. cbn [lget lens_comp fst_lens vp_lens fst]. fold (due s h).
  assert (Hremove : forall rest st, paid s m ma h rest st ->
    wp (for_each (snd st) (fun k => ignore (on_vp (led_Del k true)))) (okQ (fun _ st2 => exists done_, due s h = done_ ++ rest /\
      Forall (fun kv => is_Some (ma !! LedgerKeyAccount (frozen_owner (fst kv)))) done_ /\
      vcoh ∅ (fst st2) (fold_left (fun m k => delete k m) (map fst done_) m) /\ ptrs (fst st2) = ptrs s /\
      accts (snd st2) (refund_accts m (map fst done_) ma))) (fst st)).
  { intros rest [[s1 ac1] removed] (done_ & Edue & HC1 & Hp1 & Erm & Hac1 & Hall). cbn [fst snd] in *. subst removed.
    eapply wp_mono; [apply (wp_remove_due _ s1 m ac1 HC1)|].
    - apply Forall_forall. intros k ([k' b] & -> & Hin)%list_elem_of_fmap. cbn.
      destruct (due_spec s m h k' b HC Hh) as (f & fr & -> & _); [rewrite Edue; apply elem_of_app; by left|done].
    - intros [[]|e|] st2; cbn [okQ]; try done. intros (HC2 & Hp2 & Ha2). exists done_. rewrite Ha2. split_and!; try done. congruence. }
  eapply wp_mono; [apply (wp_refund_visits s m ma h (due s h)); [done..|]; exists []; cbn; by split_and!|].
  intros o st [[-> Hpaid]|(kv & rest & Hno & -> & Hpaid)]; apply wp_bind; (eapply wp_mono; [exact (Hremove _ _ Hpaid)|]);
    intros [[]|e|] st2; cbn [okQ]; try done; intros (done_ & Edue & Hall & HC2 & Hp2 & Ha2).
  - apply wp_ret. exists done_, []. by split_and!.
  - exists done_, (kv :: rest). by split_and!.
Qed.

End Refund.
