(* ===== verification/VPowerProps.v ===== *)
(** * VPowerProps: what the voting-power controller guarantees

    The theorems on transactions, punishments, refunds and the genesis block,
    each over any account handler that satisfies [IAccountLaws]. *)
From stdpp Require Import base gmap list strings.
From Stdlib Require Import ZArith Lia.
From S2P Require Import Prelude XErrors GoMonad LedgerKeys Iavl Ledger LedgerSpec LedgerOps.
From S2P Require Import Units Proto Signer GovParams Account TrxTypes AcctCtrler AcctSpec.
From S2P Require Import AcctProps VPowerItems ValSet Limiter VPowerCtrler VPowerInv VPowerWp.
From S2P Require Import VPowerTrx VPowerRefund.

Section Transactions.
Context {T I : Type} `{Iavl T I, !IavlLaws T I}.
Context `{VPowerProtos, !VPowerProtosLaws, CryptoLib}.
Context {A : Type} `{IAccountHandler A, Utf8, !IAccountLaws A}.
Implicit Types (s : VPowerCtrler T I) (m : vmap) (ac : A).

(** C10. A staking transaction, validated and executed as the executor does,
    either fails with an error and changes neither the stored powers nor the
    accounts, or bonds exactly the power the amount pays for: the bonded total
    and the power of the sender to the delegatee grow by it, the sender's
    balance falls by the amount, and the ledger keeps its invariant without any
    sum overflowing.  It never panics. *)
Theorem staking_bonds gp tx pk sender x height txhash s m ac ma :
  GetType tx = TRX_STAKING -> vcoh ∅ s m -> vinv m -> nonneg m -> lim_ok lim_bound (vpowLimiter s) ->
  accts ac ma -> aheld ac sender x -> tx_Amount tx <= acct_Balance x ->
  0 <= tx_Amount tx < 2 ^ 63 * amountPerPower ->
  lastTotalPower (vpowLimiter s) + addingPower (vpowLimiter s) + tx_power tx <= lim_bound ->
  in_i64 height -> length (tx_From tx) = AddrSize -> PubKeyBytes2Addr pk = tx_From tx ->
  wp (run_vpower_trx gp tx pk sender height txhash) (fun o st =>
    match o with
    | Ok _ => exists m', vcoh ∅ (fst st) m' /\ vinv m' /\ nonneg m' /\
        lim_ok lim_bound (vpowLimiter (fst st)) /\
        0 < tx_power tx /\ tx_Amount tx = PowerToAmount (tx_power tx) /\
        bonded m' = bonded m + tx_power tx /\ frozen m' = frozen m /\
        vsum m' (tx_From tx) (tx_To tx) = vsum m (tx_From tx) (tx_To tx) + tx_power tx /\
        accts (snd st) (store_acct ma (SetBalance x (acct_Balance x - tx_Amount tx)))
    | Err _ => vcoh ∅ (fst st) m /\ snd st = ac /\ lim_ok lim_bound (vpowLimiter (fst st))
    | Panic => False
    end) (s, ac).
Proof.
  intros Hty HC Hm Hn HL Hac Hx Hbal Hamt Hb Hh Hf Hpk.
  destruct (tx_power_i64 tx Hamt) as [_ Hpr].
  apply wp_bind, wp_zoom. cbn [lget fst_lens fst]. unfold vpower_ValidateTrx. rewrite Hty. cbn [Z.eqb Pos.eqb TRX_STAKING].
  apply (wp_validate_staking gp tx s m); try done; [|intros e s1 HC1 E1; cbn; by rewrite E1].
  intros opt s1 HC1 Hopt Hpos Eamt HL1 _. unfold vpower_ExecuteTrx. rewrite Hty.
  cbn [Z.eqb Pos.eqb TRX_STAKING]. apply wp_bind, wp_zoom. cbn [lget lset fst_lens fst snd].
  apply (wp_bond_tx tx opt pk height txhash s1 m); try done; [lia|].
  intros s2 m2 HC2 Hm2 Hn2 Hp2 Eb Ef Ev.
  eapply wp_mono; [apply (wp_pay s2 ac ma sender x (tx_Amount tx) (fun st => fst st = s2 /\
    accts (snd st) (store_acct ma (SetBalance x (acct_Balance x - tx_Amount tx)))) Hac Hx); try done|].
  - unfold amountPerPower in Hamt. lia.
  - intros [[]|e|] st; cbn [okQ]; try done. intros [-> Hac']. exists m2. split_and!; try done.
    unfold ptrs in Hp2. congruence.
Qed.

(** C11. An unstaking transaction, validated and executed, either fails with an
    error and changes nothing stored, or moves the chunk it names from the
    sender's bonded power to the sender's frozen power of the refund height;
    when the delegatee has no self power left, everything delegated to it is
    frozen too and the delegatee is removed.  No power is created or lost: the
    sum of bonded and frozen power stays, and the ledger keeps its invariant. *)
Theorem unstaking_conserves gp tx pk sender height txh s m ac :
  GetType tx = TRX_UNSTAKING -> vcoh ∅ s m -> vinv m -> nonneg m -> lim_ok lim_bound (vpowLimiter s) ->
  (exists h, tx_Payload tx = Some (TrxPayloadUnstaking h)) -> length (tx_From tx) = AddrSize ->
  wp (run_vpower_trx gp tx pk sender height txh) (fun o st =>
    match o with
    | Ok _ => exists m' h, vcoh ∅ (fst st) m' /\ vinv m' /\ nonneg m' /\ snd st = ac /\
        lim_ok lim_bound (vpowLimiter (fst st)) /\
        bonded m' + frozen m' = bonded m + frozen m /\
        tx_Payload tx = Some (TrxPayloadUnstaking h) /\
        unstaked m m' (tx_From tx) (tx_To tx) h (i64 (height + GovParams.LazyUnbondingBlocks gp))
    | Err _ => vcoh ∅ (fst st) m /\ snd st = ac
    | Panic => False
    end) (s, ac).
Proof.
  intros Hty HC Hm Hn HL Hpay Hf.
  apply wp_bind, wp_zoom. cbn [lget fst_lens fst]. unfold vpower_ValidateTrx. rewrite Hty.
  cbn [Z.eqb Pos.eqb TRX_STAKING TRX_UNSTAKING].
  apply (wp_validate_unstaking tx s m); try done.
  intros dl vl p d v h s1 HC1 HL1 _ Hh Hne Hd Hv Hdl Hvl [pc Hfc].
  destruct (findPowerChunk_del v h pc Hfc) as [_ (pc' & v' & Hdel)].
  unfold vpower_ExecuteTrx. rewrite Hty. cbn [Z.eqb Pos.eqb TRX_STAKING TRX_UNSTAKING].
  apply wp_zoom. cbn [lget lset fst_lens fst snd].
  eapply (wp_exeUnbonding gp tx dl vl p s1 m d v h pc' v'); try done.
  intros s2 m2 HC2 Hm2 Hn2 Hp2 Etot Hun. exists m2, h. split_and!; try done.
  cbn. unfold ptrs in Hp2. congruence.
Qed.

(** C13. A byzantine validator is slashed in its delegators' powers as well as in
    its own: every chunk bonded to it loses the slash rate, all other items stay,
    the ledger keeps its invariant, and the dead address is credited with the
    amount of exactly the power the bonded total lost.  An address that is no
    delegatee is ignored. *)
Theorem byzantine_slashed gp addr s m ac ma :
  vcoh ∅ s m -> vinv m -> accts ac ma -> length (GovParams.DeadAddress gp) = AddrSize ->
  wp (punish_byzantine gp addr) (okQ (fun _ st =>
    match m !! LedgerKeyDelegatee addr with
    | Some _ => exists m' power, vcoh ∅ (fst st) m' /\
        slashed_ledger (GovParams.SlashRate gp) m addr m' power /\
        accts (snd st) (credit ma (GovParams.DeadAddress gp) (PowerToAmount power))
    | None => st = (s, ac)
    end)) (s, ac).
Proof.
  intros HC Hm Hac Hdead. apply wp_bind, wp_try, wp_zoom. cbn [lget fst_lens fst].
  destruct (m !! LedgerKeyDelegatee addr) as [x|] eqn:Ex.
  - destruct (typed_delegatee m addr x (vi_typed _ Hm) Ex) as (d & -> & _).
    apply (wp_doSlash _ s m addr d); try done. intros s1 m1 power HC1 Hsl Hp1.
    cbn [lset fst_lens snd]. apply wp_zoom. cbn [lget snd_lens snd].
    assert (Hb : 0 <= PowerToAmount power < 2 ^ 255).
    { unfold PowerToAmount, umul, u256_of_int, u64, amountPerPower.
      pose proof (Z.mod_pos_bound power (2 ^ 64) ltac:(lia)).
      rewrite u256_id by (unfold in_u256; lia). lia. }
    eapply wp_mono; [apply (AddBalance_law ac ma); try done|].
    intros [[]|e|] ac'; cbn [okQ]; try done. intros [Hac' _]. exists m1, power. done.
  - apply wp_bind. eapply led_get_none_rule; [exact HC|done|done|exact Ex|]. now apply wp_ret.
Qed.

(** The owners of frozen powers. *)
Definition owners (kvs : list (bytes * bytes)) : list Address := map frozen_owner (map fst kvs).

Lemma elem_of_owners s m h kvs rest f :
  vcoh ∅ s m -> in_i64 h -> due s h = kvs ++ rest -> length f = AddrSize ->
  f ∈ owners kvs <-> LedgerKeyFrozenVPower h f ∈ map fst kvs.
Proof.
  intros HC Hh Hd Hf. unfold owners. rewrite list_elem_of_fmap. split.
  - intros (k & -> & Hk). pose proof Hk as ([k' b] & -> & Hin)%list_elem_of_fmap. cbn [fst] in *.
    destruct (due_spec s m h k' b HC Hh) as (f & fr & -> & Hl & _); [rewrite Hd; apply elem_of_app; by left|].
    by rewrite frozen_owner_key.
  - intros Hk. eexists. split; [|exact Hk]. by rewrite frozen_owner_key.
Qed.

Lemma unfreeze_map s m h kvs rest :
  vcoh ∅ s m -> vinv m -> in_i64 h -> due s h = kvs ++ rest ->
  let m' := fold_left (fun m k => delete k m) (map fst kvs) m in
  vinv m' /\ (forall k, m' !! k = if bool_decide (k ∈ map fst kvs) then None else m !! k).
Proof.
  intros HC Hm Hh Hd m'. assert (forall k, m' !! k = if bool_decide (k ∈ map fst kvs) then None else m !! k) as Hl
    by (intros k; apply foldl_delete).
  assert (Hother : forall k, (forall f, length f = AddrSize -> k <> LedgerKeyFrozenVPower h f) -> m' !! k = m !! k).
  { intros k Hk. rewrite Hl, bool_decide_eq_false_2; [done|]. intros ([k' b] & -> & Hin)%list_elem_of_fmap.
    destruct (due_spec s m h k' b HC Hh) as (f & fr & E & Hf & _); [rewrite Hd; apply elem_of_app; by left|]. by apply (Hk f). }
  split; [|done]. apply (vinv_other m _ Hm); [|intros b; apply Hother; done|intros f b; apply Hother; done].
  intros k x Hk. rewrite Hl in Hk. case_bool_decide; [done|]. now apply Hm.
Qed.

(** C12. At the end of a block the owners of power frozen until that height are
    paid the amount of their refund power in the order of their addresses, each
    once, and their frozen powers are removed, up to the first owner that has no
    account; every other balance and every other item of the ledger stays.  When all
    these owners have an account, all are paid and the call succeeds.  When one has
    none, as a validator of the genesis may, the call returns the error that the
    account is not found, and its frozen power and those after it stay in the
    ledger. *)
Theorem unfreeze_refunds s m ac ma h :
  vcoh ∅ s m -> vinv m -> in_i64 h -> accts ac ma ->
  NoDup (owners (due s h)) /\
  (forall f, length f = AddrSize -> f ∈ owners (due s h) <-> is_Some (m !! LedgerKeyFrozenVPower h f)) /\
  wp (_unfreezePowerChunk h) (fun o st => exists refunded rest m' ma',
    vcoh ∅ (fst st) m' /\ vinv m' /\ accts (snd st) ma' /\
    owners (due s h) = refunded ++ rest /\ Forall (fun f => is_Some (ma !! LedgerKeyAccount f)) refunded /\
    match rest with
    | [] => o = Ok tt
    | f :: _ => o = Err (Wrapf ErrNotFoundAccount "Reward - address: %v") /\ ma !! LedgerKeyAccount f = None
    end /\
    (forall f, f ∈ refunded -> m' !! LedgerKeyFrozenVPower h f = None) /\
    (forall k, (forall f, f ∈ refunded -> k <> LedgerKeyFrozenVPower h f) -> m' !! k = m !! k) /\
    (forall f, length f = AddrSize -> bal ma' f =
      match m !! LedgerKeyFrozenVPower h f with
      | Some (IFrozen fr) => if bool_decide (f ∈ refunded) then uadd (bal ma f) (PowerToAmount (f_RefundPower fr)) else bal ma f
      | _ => bal ma f
      end)) (s, ac).
Proof.
  intros HC Hm Hh Hac. assert (Hok : accts_ok ma) by (intros k a; now apply accts_wf with ac).
  destruct (due_owners s m h HC Hh) as [Hlen Hn]. split; [exact Hn|]. split.
  { intros f Hf. rewrite (elem_of_owners s m h (due s h) [] f HC Hh) by (done || by rewrite app_nil_r). by apply (elem_of_due s m h f HC Hh). }
  eapply wp_mono; [now apply (wp_unfreeze s m ac ma h)|].
  intros o st (kvs & rest & Hd & Hall & Ho & HC' & _ & Hac'). destruct (unfreeze_map s m h kvs rest HC Hm Hh Hd) as [Hinv Hl].
  rewrite Hd, !map_app in Hn. apply NoDup_app in Hn as (Hn & _ & _). rewrite Hd, map_app in Hlen. apply Forall_app in Hlen as [Hlen _].
  destruct (refund_accts_bal m (map fst kvs) ma Hok Hlen Hn) as (_ & Hin & Hout).
  assert (Hown : Forall (fun f => length f = AddrSize) (owners kvs)) by (by apply Forall_fmap).
  exists (owners kvs), (owners rest). do 2 eexists. split_and!; [exact HC'|done|exact Hac'| | | | | |].
  - unfold owners. by rewrite Hd, !map_app.
  - unfold owners. by rewrite !Forall_fmap.
  - by destruct rest.
  - intros f Hf. pose proof (proj1 (Forall_forall _ _) Hown f Hf) as Hlf. cbn in Hlf. rewrite Hl, bool_decide_eq_true_2; [done|].
    by apply (elem_of_owners s m h kvs rest).
  - intros k Hk. rewrite Hl, bool_decide_eq_false_2; [done|]. intros Hin'. pose proof Hin' as ([k' b] & -> & Hkv)%list_elem_of_fmap. cbn [fst] in *.
    destruct (due_spec s m h k' b HC Hh) as (f & fr & -> & Hf & _); [rewrite Hd; apply elem_of_app; by left|].
    apply (Hk f); [|done]. by apply (elem_of_owners s m h kvs rest f HC Hh Hd Hf).
  - intros f Hf. case_bool_decide as Hr.
    + pose proof Hr as Hk%(elem_of_owners s m h kvs rest f HC Hh Hd Hf). specialize (Hin _ Hk). rewrite frozen_owner_key in Hin by done.
      rewrite Hin. assert (is_Some (m !! LedgerKeyFrozenVPower h f)) as [x Hx].
      { apply (elem_of_due s m h f HC Hh Hf). rewrite Hd, map_app. apply elem_of_app. by left. }
      destruct (typed_frozen m h f x (vi_typed _ Hm) Hx) as (fr & -> & _).
      unfold refund_power. by rewrite Hx.
    + rewrite (Hout f Hr). by repeat case_match.
Qed.

End Transactions.

(** ** Validators that miss blocks *)

Section Missed.
Context {T I : Type} `{Iavl T I, !IavlLaws T I}.
Context `{VPowerProtos, !VPowerProtosLaws, CryptoLib}.
Implicit Types (s : VPowerCtrler T I) (m : vmap).

(** How many blocks a validator has missed in the current cycle. *)
Definition missed m (a : Address) : Z :=
  match m !! LedgerKeyMissedBlockCount a with Some (IBlockCount c) => c | _ => 0 end.

Lemma typed_missed m a x :
  typed m -> m !! LedgerKeyMissedBlockCount a = Some x -> exists c, x = IBlockCount c.
Proof.
  intros Ht Hx. pose proof (Ht _ _ Hx) as Hok. destruct x as [v|d|fr|c]; cbn in Hok; [now destruct Hok..| |eauto].
  destruct Hok as ((h & f & E & _) & _). done.
Qed.

Lemma wp_addMissedBlockCount s m a Q :
  vcoh ∅ s m ->
  (forall s', vcoh ∅ s' (<[LedgerKeyMissedBlockCount a := IBlockCount (i64 (missed m a + 1))]> m) ->
    ptrs s' = ptrs s -> Q (Ok (i64 (missed m a + 1))) s') ->
  wp (addMissedBlockCount a true) Q s.
Proof.
  intros HC HQ. apply wp_bind, wp_try.
  enough (Hset : forall s1 c, vcoh ∅ s1 m -> ptrs s1 = ptrs s -> c = missed m a ->
    wp (let c' := i64 (c + 1) in setMissedBlockCount a c' true ;;; ret c') Q s1).
  { unfold getMissedBlockCount. apply wp_bind. unfold missed in Hset.
    destruct (m !! LedgerKeyMissedBlockCount a) as [x|] eqn:Ex.
    - destruct (typed_missed m a x (coh_typed _ _ _ HC) Ex) as [c ->].
      eapply led_get_rule; [exact HC|done|done|exact Ex|]. intros l s1 HC1 Hl F1.
      apply wp_bind, (v_deref_rule s1 _ _ _ _ Hl), wp_ret, wp_bind, wp_ret. apply Hset; [done|apply F1|done].
    - eapply led_get_none_rule; [exact HC|done|done|exact Ex|]. apply wp_bind.
      replace (Contains ErrNotFoundResult ErrNotFoundResult) with true by (vm_compute; reflexivity).
      now apply wp_ret, Hset. }
  intros s1 c HC1 Hp1 ->. cbv zeta. apply wp_bind, wp_bind, (v_alloc_rule ∅ s1 m); [done|].
  intros l s2 HC2 Hl F2 _. eapply (led_set_rule ∅ s2 m); [done|done|apply Hl| |].
  - split; [eauto|apply i64_range].
  - intros s3 HC3 _ F3. rewrite dirty_nil in HC3. apply wp_ret, HQ; [done|].
    now rewrite (proj2 F3), (proj2 F2).
Qed.

(** What is left of a ledger when everything bonded to [a] is frozen until [h]:
    the delegatee and the powers to it are gone, the chunks of each power are added
    to what its owner has frozen until [h], and every other item but the count of
    missed blocks is as it was. *)
Record all_frozen m (a : Address) (h : Z) m' : Prop := {
  af_gone : m' !! LedgerKeyDelegatee a = None;
  af_powers : forall f v, m !! LedgerKeyVPower f a = Some (IVPower v) ->
    m' !! LedgerKeyVPower f a = None /\
    m' !! LedgerKeyFrozenVPower h f = Some (IFrozen (MkFrozenVPower
      (i64 (f_RefundPower (frozen_at m h f) + chunk_sum (v_PowerChunks v))) (f_PowerChunks (frozen_at m h f) ++ v_PowerChunks v)));
  af_other : forall k, k <> LedgerKeyDelegatee a -> k <> LedgerKeyMissedBlockCount a ->
    (forall f, is_Some (m !! LedgerKeyVPower f a) -> k <> LedgerKeyVPower f a /\ k <> LedgerKeyFrozenVPower h f) ->
    m' !! k = m !! k;
}.

Lemma unbond_list_all_frozen m a d h c :
  vinv m -> in_i64 h -> m !! LedgerKeyDelegatee a = Some (IDelegatee d) ->
  let m1 := <[LedgerKeyMissedBlockCount a := IBlockCount c]> m in
  let m' := delete (LedgerKeyDelegatee a) (unbond_list h a m1 (d_Delegators d)) in
  all_frozen m a h m' /\ m' !! LedgerKeyMissedBlockCount a = Some (IBlockCount c).
Proof.
  intros Hm Hh Hd m1 m'. destruct (vinv_dgt m a d Hm Hd) as (_ & _ & _ & _ & [Hnd Hp _ _]).
  split; [split|].
  - apply lookup_delete_eq.
  - intros f v Hv. assert (f ∈ d_Delegators d) as Hf by (apply Hp; eauto).
    assert (m1 !! LedgerKeyVPower f a = Some (IVPower v)) as Hv1 by (unfold m1; now rewrite lookup_insert_ne).
    destruct (unbond_list_frozen h a (d_Delegators d) m1 f v Hh Hnd Hf Hv1) as [E1 E2]. unfold m'. rewrite !lookup_delete_ne by done.
    split; [exact E1|]. rewrite E2. unfold freeze_item, frozen_at, m1. now rewrite lookup_insert_ne.
  - intros k Hk1 Hk2 Hk. unfold m'. rewrite lookup_delete_ne by congruence. rewrite unbond_list_other.
    + unfold m1. now rewrite lookup_insert_ne by congruence.
    + intros f Hf. apply Hk, Hp, Hf.
  - unfold m'. rewrite lookup_delete_ne, unbond_list_other by done. unfold m1. apply lookup_insert_eq.
Qed.

(** C14. A validator that did not sign the last block has its count of missed
    blocks incremented.  When the count is below the allowed number nothing else
    changes, nor when it reaches it for an address that is no delegatee.  When the
    count of a delegatee reaches it, each power bonded to it moves, with all its
    chunks, to what its owner has frozen until the refund height, the powers and the
    delegatee are removed, and every other item stays.  The sum of bonded and frozen
    power and the ledger's invariant are kept. *)
Theorem missing_validator_punished gp height addr (signed : bool) s m :
  vcoh ∅ s m -> vinv m ->
  wp (punish_missing gp height (addr, signed)) (okQ (fun _ s' => exists m',
    vcoh ∅ s' m' /\ vinv m' /\ bonded m' + frozen m' = bonded m + frozen m /\
    if signed then m' = m
    else
      let count := i64 (missed m addr + 1) in
      let counted := <[LedgerKeyMissedBlockCount addr := IBlockCount count]> m in
      if i64 (GovParams.InflationCycleBlocks gp - GovParams.MinSignedBlocks gp) <=? count
      then
        match m !! LedgerKeyDelegatee addr with
        | Some _ => bonded m' = bonded m - vsum_all m addr /\ m' !! LedgerKeyMissedBlockCount addr = Some (IBlockCount count) /\
            all_frozen m addr (i64 (height + GovParams.LazyUnbondingBlocks gp)) m'
        | None => m' = counted
        end
      else m' = counted)) s.
Proof.
  intros HC Hm. destruct signed; [apply wp_ret; exists m; done|].
  apply wp_bind, (wp_addMissedBlockCount s m); [done|]. intros s1 HC1 Hp1.
  set (m1 := <[LedgerKeyMissedBlockCount addr := _]> m) in *.
  assert (Hm1 : vinv m1).
  { apply (vinv_other m _ Hm); [exact (coh_typed _ _ _ HC1)| |]; intros; unfold m1; now rewrite lookup_insert_ne. }
  assert (Eb : at_key bonded_of m (LedgerKeyMissedBlockCount addr) = 0 /\
               at_key frozen_of m (LedgerKeyMissedBlockCount addr) = 0).
  { unfold at_key. destruct (m !! LedgerKeyMissedBlockCount addr) as [x|] eqn:Ex; [|done].
    now destruct (typed_missed m addr x (vi_typed _ Hm) Ex) as [c ->]. }
  assert (Es : bonded m1 = bonded m /\ frozen m1 = frozen m).
  { unfold bonded, frozen, m1. rewrite !msum_insert, (proj1 Eb), (proj2 Eb). cbn [bonded_of frozen_of]. lia. }
  assert (Ev : vsum_all m1 addr = vsum_all m addr).
  { unfold vsum_all, m1. rewrite lookup_insert_ne by done. destruct (m !! _) as [[|d| |]|]; try done.
    apply zsum_map_ext. intros f _. apply vsum_agree. now rewrite lookup_insert_ne. }
  assert (Ed : m1 !! LedgerKeyDelegatee addr = m !! LedgerKeyDelegatee addr) by (unfold m1; now rewrite lookup_insert_ne).
  cbv zeta. destruct (i64 (GovParams.InflationCycleBlocks gp - _) <=? i64 (missed m addr + 1)).
  - apply wp_bind, (wp_try_readDelegatee s1 m1); [done| |].
    + intros dl d s2 HC2 Hd Hdl Hp2. apply (wp_unbond_all s2 m1 addr dl d); try done; [apply i64_range|].
      intros s3 m3 HC3 Hp3 Hm3 Hgone _ _ Eb3 Ef3 E3. cbn [okQ]. exists m3. split_and!; try done; [lia|]. rewrite Ed in Hd. rewrite Hd.
      destruct (unbond_list_all_frozen m addr d (i64 (height + GovParams.LazyUnbondingBlocks gp)) (i64 (missed m addr + 1)) Hm
        (i64_range _) Hd) as [Haf Hcnt]. fold m1 in Haf, Hcnt. rewrite <- E3 in Haf, Hcnt. split; [lia|]. split; [exact Hcnt|exact Haf].
    + intros Hnone. replace (Contains ErrNotFoundResult ErrNotFoundResult) with true by (vm_compute; reflexivity).
      apply wp_ret. cbn [okQ]. exists m1. rewrite Ed in Hnone. rewrite Hnone. split_and!; try done; lia.
  - apply wp_ret. cbn [okQ]. exists m1. split_and!; try done. lia.
Qed.

End Missed.

(** ** The genesis block *)

Section Genesis.
Context {T I : Type} `{Iavl T I, !IavlLaws T I}.
Context `{VPowerProtos, !VPowerProtosLaws, CryptoLib}.
Implicit Types (s : VPowerCtrler T I) (m : vmap).

Definition val_addr (v : bytes * Z) : Address := PubKeyBytes2Addr (fst v).

Definition genesis_dgt (v : bytes * Z) : Delegatee :=
  addDelegator (addPower (NewDelegatee (fst v)) (val_addr v) (snd v)) (val_addr v).

Lemma empty_vinv : vinv ∅ /\ nonneg ∅.
Proof.
  split; split.
  - intros k x Hk. now rewrite lookup_empty in Hk.
  - intros a _. unfold dgt_part. rewrite lookup_empty. intros f. apply lookup_empty.
  - intros f a v _ Hv. now rewrite lookup_empty in Hv.
  - intros a _. unfold vsum_all. rewrite lookup_empty. now vm_compute.
Qed.

Lemma wp_init_validator s m v Q :
  vcoh ∅ s m -> vinv m -> nonneg m -> length (val_addr v) = AddrSize ->
  m !! LedgerKeyDelegatee (val_addr v) = None -> 0 <= snd v <= MaxInt64 ->
  (forall dl s' m', vcoh ∅ s' m' -> vinv m' -> nonneg m' -> ptrs s' = ptrs s ->
    bonded m' = bonded m + snd v -> frozen m' = frozen m ->
    (forall b, b <> val_addr v -> m' !! LedgerKeyDelegatee b = m !! LedgerKeyDelegatee b) ->
    vheld s' (LedgerKeyDelegatee (val_addr v)) dl (IDelegatee (genesis_dgt v)) ->
    (forall k l x, vheld s k l x -> vheld s' k l x) -> Q (Ok dl) s') ->
  wp (init_validator v) Q s.
Proof.
  intros HC Hm Hn Hl Hnone Hp HQ. set (a := val_addr v) in *.
  pose proof (dgt_view_new m (fst v) Hm Hl Hnone) as Vd. fold a in Vd.
  assert (Vv : vpow_view m a a (NewVPower a a)).
  { apply vpow_view_new; [done|]. pose proof (vi_part _ Hm a Hl) as Hpart. unfold dgt_part in Hpart.
    fold a in Hnone. rewrite Hnone in Hpart. apply Hpart. }
  assert (Hpi : in_i64 (snd v)) by (unfold in_i64, MaxInt64 in *; lia).
  assert (Hhi : in_i64 1) by (unfold in_i64; lia).
  apply wp_bind, (v_alloc_rule ∅ s m); [done|]. intros dl s1 HC1 Hdl F1 Hfr1.
  apply wp_bind, (v_alloc_rule ∅ s1 m); [done|]. intros vl s2 HC2 Hvl F2 Hfr2. fold a.
  pose proof (vframes_keep s1 s2 _ _ _ F2 (Hdl (LedgerKeyDelegatee a))) as Hdl2.
  apply wp_bind, (wp_bondPowerChunk s2 m a a dl vl (NewDelegatee (fst v)) (NewVPower a a)); try done.
  intros s3 HC3 Hp3 Hdl3 Hk3. apply wp_ret.
  destruct (bond_sums m a a _ _ (snd v) 1 (repeat 0 32) Hm Vd Vv Hpi Hhi) as [Eb Ef].
  eapply HQ; [exact HC3|now apply bond_inv|apply nonneg_bond; try done; [apply Forall_nil_2|lia|cbn; lia]
             |now rewrite Hp3, (proj2 F2), (proj2 F1)|done|done| |exact Hdl3|].
  - intros b Hb. unfold bond_map. rewrite lookup_insert_ne, lookup_dkey_vkey; [done|].
    intros E. apply dkey_inj in E. congruence.
  - intros k l x Hx. apply Hk3; [intros ->; now apply (Hfr1 k x)| |].
    + intros ->. apply (Hfr2 k x). now apply (vframes_keep s s1 _ _ _ F1).
    + apply (vframes_keep s1 s2 _ _ _ F2). now apply (vframes_keep s s1 _ _ _ F1).
Qed.

Lemma wp_init_validators vs : forall s m,
  vcoh ∅ s m -> vinv m -> nonneg m ->
  Forall (fun v => length (val_addr v) = AddrSize /\ 0 <= snd v <= MaxInt64 /\
    m !! LedgerKeyDelegatee (val_addr v) = None) vs -> NoDup (map val_addr vs) ->
  wp (map_each vs init_validator) (okQ (fun ls s' => exists m',
    vcoh ∅ s' m' /\ vinv m' /\ nonneg m' /\ ptrs s' = ptrs s /\
    bonded m' = bonded m + zsum (map snd vs) /\ frozen m' = frozen m /\
    Forall2 (fun l v => vheld s' (LedgerKeyDelegatee (val_addr v)) l (IDelegatee (genesis_dgt v))) ls vs /\
    (forall k l x, vheld s k l x -> vheld s' k l x))) s.
Proof.
  induction vs as [|v vs IH]; intros s m HC Hm Hn Hvs Hnd; cbn [map_each map zsum].
  - apply wp_ret. cbn [okQ]. exists m. rewrite Z.add_0_r. split_and!; done.
  - apply Forall_cons in Hvs as [(Hl & Hp & Hnone) Hvs]. cbn [map] in Hnd. apply NoDup_cons in Hnd as [Hnin Hnd].
    apply wp_bind, (wp_init_validator s m v); try done.
    intros dl s1 m1 HC1 Hm1 Hn1 Hp1 Eb1 Ef1 Ed1 Hdl1 Hk1. apply wp_bind.
    eapply wp_mono; [apply (IH s1 m1 HC1 Hm1 Hn1)|].
    + apply Forall_forall. intros w Hw. destruct (proj1 (Forall_forall _ _) Hvs w Hw) as (Hwl & Hwp & Hwn).
      split_and!; try done; try apply Hwp. rewrite Ed1; [done|]. intros E. apply Hnin. rewrite <- E.
      now apply list_elem_of_fmap_2.
    + done.
    + intros [ls|e|] s2; cbn [okQ]; try done. intros (m2 & HC2 & Hm2 & Hn2 & Hp2 & Eb2 & Ef2 & Hls & Hk2).
      apply wp_ret. cbn [okQ]. exists m2. split_and!; try done; try lia; try congruence.
      * constructor; [now apply Hk2|done].
      * intros k l x Hx. now apply Hk2, Hk1.
Qed.

Lemma wp_read_ptrs ls : forall s ds,
  Forall2 (fun l d => exists k, vheld s k l (IDelegatee d)) ls ds ->
  wp (read_ptrs ls) (okQ (fun ps s' => ps = zip ls ds /\ s' = s)) s.
Proof.
  induction ls as [|l ls IH]; intros s ds Hls; inversion Hls as [|? d ? ds' [k Hk] Hls']; subst.
  - now apply wp_ret.
  - apply wp_bind, wp_bind, (get_dgt_rule s k l d); [done|]. apply wp_ret, wp_bind.
    eapply wp_mono; [apply (IH s ds' Hls')|]. intros [ps|e|] s'; cbn [okQ]; try done.
    intros [-> ->]. now apply wp_ret.
Qed.

Lemma wp_InitLedger vs s :
  vcoh ∅ s ∅ -> NoDup (map val_addr vs) ->
  Forall (fun v => length (val_addr v) = AddrSize /\ 0 <= snd v <= MaxInt64) vs ->
  wp (vpower_InitLedger vs) (okQ (fun _ s' => exists m',
    vcoh ∅ s' m' /\ vinv m' /\ nonneg m' /\
    bonded m' = zsum (map snd vs) /\ frozen m' = 0 /\
    length (lastValidators s') = length vs /\ allDelegatees s' = lastValidators s')) s.
Proof.
  intros HC Hnd Hvs. destruct empty_vinv as [Hv0 Hn0]. apply wp_bind.
  eapply wp_mono; [apply (wp_init_validators vs s ∅); try done|].
  { apply Forall_forall. intros v Hv. destruct (proj1 (Forall_forall _ _) Hvs v Hv) as [Hl Hp].
    split_and!; try done; try apply Hp. }
  intros [ls|e|] s1; cbn [okQ]; try done. intros (m1 & HC1 & Hm1 & Hn1 & _ & Eb & Ef & Hls & _).
  apply wp_bind. eapply wp_mono; [apply (wp_read_ptrs ls s1 (map genesis_dgt vs))|].
  { apply Forall2_fmap_r. eapply Forall2_impl; [exact Hls|]. cbn. eauto. }
  intros [ps|e|] s2; cbn [okQ]; try done. intros [-> ->].
  pose proof (Forall2_length _ _ _ Hls) as Hlen.
  assert (Hz : length (zip ls (map genesis_dgt vs)) = length vs).
  { rewrite length_zip_with, length_map. lia. }
  apply wp_bind. rewrite Hlen. destruct (Nat.ltb_spec 0 (length vs)) as [Hpos|Hzero].
  - apply wp_lift. unfold select_ptrs. rewrite Hz. unfold MinInt. rewrite Z.ltb_irrefl.
    destruct (Z.ltb_spec (Z.of_nat (length vs)) 0); [lia|].
    rewrite Nat2Z.id, take_ge by (unfold order_by; rewrite length_go_sort; lia).
    apply wp_bind, wp_modify, wp_modify. cbn [okQ set_all set_last lastValidators allDelegatees vpowerState].
    exists m1. split_and!; try done. unfold order_by. now rewrite length_map, length_go_sort.
  - apply wp_ret, wp_bind, wp_modify, wp_modify. cbn [okQ set_all set_last lastValidators allDelegatees vpowerState].
    exists m1. split_and!; try done. cbn. lia.
Qed.

(** The genesis block: bonding the initial validators in an empty ledger
    gives a ledger that satisfies the invariant, in which exactly their powers
    are bonded and nothing is frozen; all of them are delegatees and the last
    validators. *)
Theorem InitLedger_establishes vs s :
  vcoh ∅ s ∅ -> NoDup (map val_addr vs) ->
  Forall (fun v => length (val_addr v) = AddrSize /\ 0 <= snd v <= MaxInt64) vs ->
  wp (vpower_InitLedger vs) (okQ (fun _ s' => exists m',
    vcoh ∅ s' m' /\ vinv m' /\ nonneg m' /\
    bonded m' = zsum (map snd vs) /\ frozen m' = 0 /\
    length (lastValidators s') = length vs /\ allDelegatees s' = lastValidators s')) s.
Proof. apply wp_InitLedger. Qed.

End Genesis.

(** ** A concrete chain

    Two genesis validators and their accounts over the reference tree; the
    limiter is the one of the first block that resets it. *)
Module VPowerWitness.

#[local] Instance w_utf8 : Utf8 := Any_utf8.
#[local] Instance w_acct_proto : Proto AcctProto := Countable_proto.
#[local] Instance w_acct_laws : ProtoLaws AcctProto AcctProto_ok := Countable_proto_laws AcctProto_ok.
#[local] Instance w_crypto : CryptoLib := Toy_crypto.
#[local] Instance w_protos : VPowerProtos := {|
  vps_vpower := Countable_proto;
  vps_delegatee := Countable_proto;
  vps_frozen := Countable_proto;
|}.
#[local] Instance w_protos_laws : VPowerProtosLaws.
Proof. split; apply Countable_proto_laws. Qed.

Abbreviation vstate := (VPowerCtrler RefTree.tree (gmap bytes bytes)).
Abbreviation astate := (AcctCtrler RefTree.tree (gmap bytes bytes)).

Definition pk1 : bytes := repeat 1 33.
Definition pk2 : bytes := repeat 2 33.
Definition addr1 : Address := repeat 1 20.
Definition addr2 : Address := repeat 2 20.
Definition coins (n : Z) : Z := n * amountPerPower.

Definition vempty : vstate :=
  MkVPowerCtrler
    (MkLState empty_store
       (MkStateLedger (MkMutableLedger RefTree.empty [] ∅) (MkMemLedger (Some ∅) ∅ []))) [] []
    NewVPowerLimiter.

Definition vals : list (bytes * Z) := [(pk1, 10000000); (pk2, 8000000)].

Definition vstart : vstate :=
  set_limiter (limiter_Reset 18000000 33) (snd (vpower_InitLedger vals vempty)).

Lemma set_limiter_state (lim : VPowerLimiter) (s : vstate) : vpowerState (set_limiter lim s) = vpowerState s.
Proof. done. Qed.

Lemma vempty_coh : vcoh ∅ vempty ∅.
Proof. split; cbn; try done. constructor. Qed.

Lemma vstart_inv : exists m, vcoh ∅ vstart m /\ vinv m /\ nonneg m /\ bonded m = 18000000 /\ frozen m = 0.
Proof.
  pose proof (wp_InitLedger vals vempty vempty_coh) as Hw. unfold wp in Hw.
  destruct (fst (vpower_InitLedger vals vempty)) eqn:E; [|vm_compute in E; congruence..].
  destruct Hw as (m & HC & Hm & Hn & Eb & Ef & _).
  - eapply (bool_decide_eq_true_1 (NoDup (map val_addr vals))). vm_compute. reflexivity.
  - repeat constructor; vm_compute; congruence.
  - exists m. split; [unfold vstart; rewrite set_limiter_state; exact HC|]. split; [exact Hm|]. split; [exact Hn|]. split; [exact Eb|exact Ef].
Qed.

Definition holders : list (Address * Z) := [(addr1, coins 5000000); (addr2, coins 7)].

Definition aempty : astate :=
  MkAcctCtrler
    (MkLState empty_store
       (MkStateLedger (MkMutableLedger RefTree.empty [] ∅) (MkMemLedger (Some ∅) ∅ []))) ∅ ∅.

Lemma aempty_inv : ainv ∅ aempty ∅.
Proof.
  split; [|intros a l Hl; cbn in Hl; now rewrite lookup_empty in Hl].
  split; cbn; try done. constructor.
Qed.

Definition astart0 : astate := snd (acct_InitLedger holders aempty).
Definition amap : accts_map := genesis_accts holders ∅.

Lemma astart0_inv : ainv ∅ astart0 amap.
Proof.
  pose proof (InitLedger_spec holders aempty ∅ aempty_inv) as Hw. unfold wp in Hw.
  destruct (fst (acct_InitLedger holders aempty)) eqn:E; [|vm_compute in E; congruence..].
  apply Hw. repeat constructor; vm_compute; congruence.
Qed.

(** The sender's account, as the executor looks it up. *)
Definition astart : astate := snd (FindAccount addr1 true astart0).
Definition sender : loc := 1%positive.

Lemma sender_held : accts astart amap /\ exists x, aheld astart sender x /\ acct_Balance x = coins 5000000.
Proof.
  pose proof (FindAccount_law astart0 amap addr1 astart0_inv eq_refl) as Hw. unfold wp in Hw.
  assert (E : fst (FindAccount addr1 true astart0) = Ok (Some sender)) by (vm_compute; reflexivity).
  rewrite E in Hw. destruct Hw as (Ha & _ & Hx). split; [exact Ha|].
  assert (Em : amap !! LedgerKeyAccount addr1 = Some (MkAccount addr1 [] 0 (coins 5000000) [] []))
    by (vm_compute; reflexivity).
  rewrite Em in Hx. destruct Hx as (l & [= <-] & Hl). eexists. split; [exact Hl|reflexivity].
Qed.

Definition stake_tx : Trx :=
  MkTrx 1 0 0 addr1 addr1 (coins 1000000) 0 0 TRX_STAKING None [] [] [].
Definition unstake_tx : Trx :=
  MkTrx 1 0 0 addr2 addr2 0 0 0 TRX_UNSTAKING (Some (TrxPayloadUnstaking (repeat 0 32))) [] [] [].

Definition run1 (tx : Trx) (pk : bytes) (height : Z) : outcome unit * (vstate * astate) :=
  run_vpower_trx GovParams.DefaultGovParams tx pk sender height (repeat 9 32) (vstart, astart).

Lemma staking_bonds_witness :
  exists m', vcoh ∅ (fst (snd (run1 stake_tx pk1 2))) m' /\ vinv m' /\ bonded m' = 19000000 /\ frozen m' = 0.
Proof.
  destruct vstart_inv as (m & HC & Hm & Hn & Eb & Ef).
  destruct sender_held as (Ha & x & Hx & Ebal).
  assert (HL : lim_ok lim_bound (vpowLimiter vstart)).
  { change (lim_ok lim_bound (limiter_Reset 18000000 33)). apply lim_ok_reset; vm_compute; split; congruence. }
  pose proof (staking_bonds GovParams.DefaultGovParams stake_tx pk1 sender x 2 (repeat 9 32) vstart m astart amap
    eq_refl HC Hm Hn HL Ha Hx ltac:(rewrite Ebal; vm_compute; congruence) ltac:(vm_compute; split; congruence)
    ltac:(vm_compute; congruence) ltac:(vm_compute; split; congruence) eq_refl eq_refl) as Hw.
  unfold wp in Hw. fold (run1 stake_tx pk1 2) in Hw.
  assert (E : fst (run1 stake_tx pk1 2) = Ok tt) by (vm_compute; reflexivity).
  rewrite E in Hw. destruct Hw as (m' & HC' & Hm' & _ & _ & _ & _ & Eb' & Ef' & _).
  exists m'. split; [exact HC'|]. split; [exact Hm'|]. rewrite Eb', Ef', Eb, Ef. split; vm_compute; reflexivity.
Defined.

Lemma unstaking_conserves_witness :
  exists m', vcoh ∅ (fst (snd (run1 unstake_tx pk2 2))) m' /\ vinv m' /\ bonded m' + frozen m' = 18000000.
Proof.
  destruct vstart_inv as (m & HC & Hm & Hn & Eb & Ef).
  assert (HL : lim_ok lim_bound (vpowLimiter vstart)).
  { change (lim_ok lim_bound (limiter_Reset 18000000 33)). apply lim_ok_reset; vm_compute; split; congruence. }
  pose proof (unstaking_conserves GovParams.DefaultGovParams unstake_tx pk2 sender 2 (repeat 9 32) vstart m astart
    eq_refl HC Hm Hn HL ltac:(exists (repeat 0 32); reflexivity) eq_refl) as Hw.
  unfold wp in Hw. fold (run1 unstake_tx pk2 2) in Hw.
  assert (E : fst (run1 unstake_tx pk2 2) = Ok tt) by (vm_compute; reflexivity).
  rewrite E in Hw. destruct Hw as (m' & h & HC' & Hm' & _ & _ & _ & Et & _).
  exists m'. split; [exact HC'|]. split; [exact Hm'|]. rewrite Et, Eb, Ef. reflexivity.
Defined.

Definition vtree (s : vstate) : gmap bytes bytes := exec_contents (vpowerState s).

(** The item the tree of a state holds, by evaluation. *)
Definition item_in (s : vstate) (k : bytes) : option VItem :=
  match vtree s !! k with
  | Some b => match decode_at k b with Ok x => Some x | _ => None end
  | None => None
  end.

Lemma item_in_map s m k x : vcoh ∅ s m -> item_in s k = Some x -> m !! k = Some x.
Proof.
  unfold item_in. intros HC Hi. destruct (vtree s !! k) as [b|] eqn:Eb; [|done].
  destruct (decode_at k b) as [y|e|] eqn:Ed; [|done..]. injection Hi as ->. now apply (coh_stored ∅ _ m k b x HC).
Qed.

Lemma byzantine_slashed_witness :
  exists m m' power, vcoh ∅ vstart m /\
    vcoh ∅ (fst (snd (punish_byzantine GovParams.DefaultGovParams addr1 (vstart, astart)))) m' /\
    slashed_ledger (GovParams.SlashRate GovParams.DefaultGovParams) m addr1 m' power.
Proof.
  destruct vstart_inv as (m & HC & Hm & Hn & Eb & Ef). destruct sender_held as (Ha & _).
  pose proof (byzantine_slashed GovParams.DefaultGovParams addr1 vstart m astart amap HC Hm Ha eq_refl) as Hw.
  unfold wp in Hw.
  assert (E : fst (punish_byzantine GovParams.DefaultGovParams addr1 (vstart, astart)) = Ok tt)
    by (vm_compute; reflexivity).
  rewrite E in Hw. cbn [okQ] in Hw.
  destruct (item_in vstart (LedgerKeyDelegatee addr1)) as [x|] eqn:Ex; [|vm_compute in Ex; discriminate].
  rewrite (item_in_map vstart m _ x HC Ex) in Hw. destruct Hw as (m' & power & HC' & Hs & _).
  exists m, m', power. split; [exact HC|]. split; [exact HC'|exact Hs].
Defined.

(** Power of the second validator frozen until height 100. *)
Definition chunk5 : PowerChunk := MkPowerChunk 5 1 (repeat 0 32).
Definition vfrozen : vstate := snd (freezePowerChunk addr2 chunk5 100 true vstart).

Lemma frozen_key_owner : forall f,
  is_Some (vtree vfrozen !! LedgerKeyFrozenVPower 100 f) -> take 20 f = addr2.
Proof.
  assert (Hall : forallb (fun kv => negb (bytes_HasPrefix (fst kv) (LedgerKeyFrozenVPower 100 [])) ||
    bytes_Equal (take 20 (drop 9 (fst kv))) addr2) (map_to_list (vtree vfrozen)) = true) by (vm_compute; reflexivity).
  intros f [b Hb]. rewrite forallb_forall in Hall.
  specialize (Hall (LedgerKeyFrozenVPower 100 f, b)). rewrite <- list_elem_of_In, elem_of_map_to_list in Hall.
  specialize (Hall Hb). cbn [fst] in Hall.
  assert (Hp : bytes_HasPrefix (LedgerKeyFrozenVPower 100 f) (LedgerKeyFrozenVPower 100 []) = true)
    by (apply frozen_prefix_iff; unfold in_i64; lia).
  rewrite Hp in Hall. cbn [negb orb] in Hall. apply bytes_Equal_true in Hall. exact Hall.
Qed.

Lemma vfrozen_inv : exists m, vcoh ∅ vfrozen m /\ vinv m.
Proof.
  destruct vstart_inv as (m & HC & Hm & _).
  assert (Hw : wp (freezePowerChunk addr2 chunk5 100 true) (okQ (fun _ s' => exists m, vcoh ∅ s' m /\ vinv m)) vstart).
  { apply (wp_freezePowerChunk vstart m); [exact HC|unfold in_i64; lia|reflexivity|split; vm_compute; split; congruence|].
    intros s' HC' _ _. eexists. split; [exact HC'|].
    apply freeze_inv; [exact Hm|unfold in_i64; lia|reflexivity|]. apply Forall_singleton. split; vm_compute; split; congruence. }
  unfold wp in Hw. destruct (fst (freezePowerChunk addr2 chunk5 100 true vstart)) eqn:E; [|vm_compute in E; congruence..].
  exact Hw.
Qed.

(** The only owner of power frozen until height 100 is the second validator. *)
Lemma vfrozen_owner m f : vcoh ∅ vfrozen m -> vinv m -> is_Some (m !! LedgerKeyFrozenVPower 100 f) -> f = addr2.
Proof.
  intros HC Hm [x Hf]. pose proof (frozen_key_owner f (coh_in_tree _ _ _ _ HC ltac:(eauto))) as Et.
  destruct (typed_frozen m 100 f x (vi_typed _ Hm) Hf) as (fr & -> & _).
  destruct (vi_typed _ Hm _ _ Hf) as ((h & f' & E & Hh & Hl) & _).
  apply LedgerKeyFrozenVPower_inj in E as [_ <-]; [|unfold in_i64; lia|exact Hh].
  rewrite take_ge in Et by (rewrite Hl; vm_compute; lia). done.
Qed.

(** With an account the owner is paid and its frozen power removed; without one the
    end of the block fails and the power stays. *)
Lemma unfreeze_refunds_witness :
  (exists m' ma', vcoh ∅ (fst (snd (_unfreezePowerChunk 100 (vfrozen, astart)))) m' /\ vinv m' /\
    m' !! LedgerKeyFrozenVPower 100 addr2 = None /\ bal ma' addr2 = coins 12 /\
    accts (snd (snd (_unfreezePowerChunk 100 (vfrozen, astart)))) ma') /\
  fst (_unfreezePowerChunk 100 (vfrozen, aempty)) = Err (Wrapf ErrNotFoundAccount "Reward - address: %v").
Proof.
  destruct vfrozen_inv as (m & HC & Hm). destruct sender_held as (Ha & _).
  assert (Hx : exists x, m !! LedgerKeyFrozenVPower 100 addr2 = Some x /\ item_in vfrozen (LedgerKeyFrozenVPower 100 addr2) = Some x).
  { destruct (item_in vfrozen (LedgerKeyFrozenVPower 100 addr2)) as [x|] eqn:Ex; [|vm_compute in Ex; discriminate].
    exists x. split; [exact (item_in_map vfrozen m _ x HC Ex)|reflexivity]. }
  destruct Hx as (x & Hx & Ex). split.
  - destruct (unfreeze_refunds vfrozen m astart amap 100 HC Hm ltac:(unfold in_i64; lia) Ha) as (_ & Hown & Hw). unfold wp in Hw.
    destruct Hw as (refunded & rest & m' & ma' & HC' & Hm' & Hac' & Hr & _ & Ho & Hgone & _ & Hbal).
    assert (Hin : addr2 ∈ owners (due vfrozen 100)) by (apply Hown; [reflexivity|rewrite Hx; eauto]).
    destruct rest as [|f rest].
    2:{ exfalso. assert (Hf : f = addr2); [|destruct Ho as [_ Hno]; rewrite Hf in Hno; vm_compute in Hno; discriminate Hno].
        assert (Hfo : f ∈ owners (due vfrozen 100)) by (rewrite Hr; apply elem_of_app; right; now left).
        apply (vfrozen_owner m f HC Hm), Hown; [|exact Hfo]. vm_compute in Hfo. apply elem_of_cons in Hfo as [-> | Hfo]; [reflexivity|].
        now apply elem_of_nil in Hfo. }
    rewrite Hr, app_nil_r in Hin.
    exists m', ma'. split; [exact HC'|]. split; [exact Hm'|]. split; [now apply Hgone|]. split; [|exact Hac'].
    rewrite (Hbal addr2 eq_refl), Hx, bool_decide_eq_true_2 by exact Hin. vm_compute in Ex. injection Ex as <-. vm_compute. reflexivity.
  - assert (He : accts aempty ∅) by exact aempty_inv.
    destruct (unfreeze_refunds vfrozen m aempty ∅ 100 HC Hm ltac:(unfold in_i64; lia) He) as (_ & Hown & Hw). unfold wp in Hw.
    destruct Hw as (refunded & rest & m' & ma' & _ & _ & _ & Hr & Hsome & Ho & _). destruct rest as [|f rest]; [exfalso|exact (proj1 Ho)].
    assert (Hin : addr2 ∈ owners (due vfrozen 100)) by (apply Hown; [reflexivity|rewrite Hx; eauto]).
    rewrite Hr, app_nil_r in Hin. rewrite Forall_forall in Hsome. destruct (Hsome _ Hin) as [y Hy]. discriminate Hy.
Defined.

(** Parameters that allow no missed block. *)
Definition strict_params : GovParamsProto :=
  GovParams.MergeGovParams GovParams.DefaultGovParams
    (MkGovParams 0 0 0 0 0 0 0 0 0 0 0 604800 0 None 0 0 0 0 None None 0 0 0 None 0 0 0 0 0 0).

(** The first missed block is counted, and with these parameters the power of the
    validator is frozen until 30 days later. *)
Lemma missing_validator_punished_witness :
  exists m, vcoh ∅ vstart m /\
    (exists m', vcoh ∅ (snd (punish_missing GovParams.DefaultGovParams 7 (addr1, false) vstart)) m' /\
       m' = <[LedgerKeyMissedBlockCount addr1 := IBlockCount 1]> m) /\
    (exists m', vcoh ∅ (snd (punish_missing strict_params 7 (addr1, false) vstart)) m' /\
       all_frozen m addr1 2592007 m' /\ m' !! LedgerKeyDelegatee addr1 = None /\
       exists pcs, m' !! LedgerKeyFrozenVPower 2592007 addr1 = Some (IFrozen (MkFrozenVPower 10000000 pcs))).
Proof.
  destruct vstart_inv as (m & HC & Hm & _). exists m. split; [exact HC|].
  assert (E0 : missed m addr1 = 0).
  { unfold missed. destruct (m !! LedgerKeyMissedBlockCount addr1) as [x|] eqn:Ex; [|reflexivity].
    destruct (coh_in_tree _ _ _ _ HC (mk_is_Some _ _ Ex)) as [b Hb]. vm_compute in Hb. discriminate. }
  split.
  - pose proof (missing_validator_punished GovParams.DefaultGovParams 7 addr1 false vstart m HC Hm) as Hw. unfold wp in Hw.
    assert (E : fst (punish_missing GovParams.DefaultGovParams 7 (addr1, false) vstart) = Ok tt) by (vm_compute; reflexivity).
    rewrite E in Hw. destruct Hw as (m' & HC' & _ & _ & Hm'). rewrite E0 in Hm'. exists m'. split; [exact HC'|]. exact Hm'.
  - pose proof (missing_validator_punished strict_params 7 addr1 false vstart m HC Hm) as Hw. unfold wp in Hw.
    assert (E : fst (punish_missing strict_params 7 (addr1, false) vstart) = Ok tt) by (vm_compute; reflexivity).
    rewrite E in Hw. destruct Hw as (m' & HC' & _ & _ & Hm'). rewrite E0 in Hm'. exists m'. split; [exact HC'|].
    assert (Hd : exists d, m !! LedgerKeyDelegatee addr1 = Some d).
    { destruct (item_in vstart (LedgerKeyDelegatee addr1)) as [x|] eqn:Ex; [|vm_compute in Ex; discriminate].
      exists x. exact (item_in_map vstart m _ x HC Ex). }
    destruct Hd as [d Hd]. cbv zeta in Hm'. rewrite Hd in Hm'.
    assert (Hle : (i64 (GovParams.InflationCycleBlocks strict_params - GovParams.MinSignedBlocks strict_params) <=? i64 (0 + 1)) = true)
      by (vm_compute; reflexivity). rewrite Hle in Hm'. destruct Hm' as (_ & _ & Haf).
    assert (Hh : i64 (7 + GovParams.LazyUnbondingBlocks strict_params) = 2592007) by (vm_compute; reflexivity). rewrite Hh in Haf.
    split; [exact Haf|]. split; [exact (af_gone _ _ _ _ Haf)|].
    assert (Hv : exists v, m !! LedgerKeyVPower addr1 addr1 = Some (IVPower v) /\ chunk_sum (v_PowerChunks v) = 10000000).
    { destruct (item_in vstart (LedgerKeyVPower addr1 addr1)) as [x|] eqn:Ex; [|vm_compute in Ex; discriminate].
      pose proof (item_in_map vstart m _ x HC Ex) as Hx. vm_compute in Ex. injection Ex as <-. eexists. split; [exact Hx|vm_compute; reflexivity]. }
    destruct Hv as (v & Hv & Hsum). destruct (af_powers _ _ _ _ Haf addr1 v Hv) as [_ Hfz]. exists (v_PowerChunks v).
    assert (Hno : m !! LedgerKeyFrozenVPower 2592007 addr1 = None).
    { destruct (m !! LedgerKeyFrozenVPower 2592007 addr1) as [x|] eqn:Ex; [|reflexivity].
      destruct (coh_in_tree _ _ _ _ HC (mk_is_Some _ _ Ex)) as [b Hb]. vm_compute in Hb. discriminate. }
    unfold frozen_at in Hfz. rewrite Hno, Hsum in Hfz. exact Hfz.
Defined.

Lemma InitLedger_establishes_witness :
  exists m', vcoh ∅ (snd (vpower_InitLedger vals vempty)) m' /\ vinv m' /\ bonded m' = 18000000.
Proof.
  pose proof (InitLedger_establishes vals vempty vempty_coh
    ltac:(eapply (bool_decide_eq_true_1 (NoDup (map val_addr vals))); vm_compute; reflexivity)
    ltac:(repeat constructor; vm_compute; congruence)) as Hw.
  unfold wp in Hw. destruct (fst (vpower_InitLedger vals vempty)) eqn:E; [|vm_compute in E; congruence..].
  destruct Hw as (m & HC & Hm & _ & Eb & _). exists m. split; [exact HC|]. split; [exact Hm|exact Eb].
Defined.

(** ** Where the code departs from what it means to do *)

Definition check_tx : Trx :=
  MkTrx 1 0 0 addr2 addr2 (coins 8000000) 0 0 TRX_STAKING None [] [] [].

(** The limiter of updatable power is shared by checked and delivered
    transactions.  Two nodes with the same delivered state, one of which has
    checked another transaction since the limiter was reset, give different
    results to the same delivered staking transaction: what a block does depends
    on the mempool of the node. *)
Theorem limiter_shared_with_check :
  let s1 : vstate := snd (vpower_ValidateTrx GovParams.DefaultGovParams check_tx false vstart) in
    map_to_list (vtree s1) = map_to_list (vtree vstart) /\
    is_ok (fst (vpower_ValidateTrx GovParams.DefaultGovParams stake_tx true vstart)) = true /\
    is_ok (fst (vpower_ValidateTrx GovParams.DefaultGovParams stake_tx true s1)) = false.
Proof. vm_compute. split; [reflexivity|]. split; reflexivity. Qed.

(** Refunding fails for an owner without an account: the end of the block
    returns the error of [Reward] and the frozen power stays, although bonding
    at genesis creates no account for the validator. *)
Theorem unfreeze_without_account_fails :
  fst (_unfreezePowerChunk 100 (vfrozen, aempty)) =
    Err (Wrapf ErrNotFoundAccount "Reward - address: %v") /\
  is_Some (item_in (fst (snd (_unfreezePowerChunk 100 (vfrozen, aempty)))) (LedgerKeyFrozenVPower 100 addr2)).
Proof. split; [vm_compute; reflexivity|]. vm_compute. eauto. Qed.

End VPowerWitness.
