(* ===== verification/ProposalProps.v ===== *)
(** * ProposalProps: votes are counted, slashed and decided correctly

    [prop_inv]: the votes of every option are the powers of the voters that
    chose it and the header's totals are those of its voters.  Voting and
    slashing keep it; a major option has two thirds of the voting power. *)
From stdpp Require Import base gmap list strings.
From Stdlib Require Import ZArith Lia Sorted.
From S2P Require Import Prelude XErrors GoMonad LedgerKeys Proposal.

(** The power of the voters whose choice is [i]. *)
Definition votes_of (i : Z) (vs : list Voter) : Z :=
  zsum (map (fun v => if vt_Choice v =? i then vt_Power v else 0) vs).

Definition tally (opts : list VoteOption) (vs : list Voter) : Prop :=
  forall i o, opts !! i = Some o -> vo_Votes o = i64 (votes_of (Z.of_nat i) vs).

Definition choice_ok (n : nat) (v : Voter) : Prop := -1 <= vt_Choice v < Z.of_nat n.

Record prop_inv (p : GovProposal) : Prop := {
  pi_nodup : NoDup (map vt_Address (ph_Voters (gp_Header p)));
  pi_choice : Forall (choice_ok (length (gp_Options p))) (ph_Voters (gp_Header p));
  pi_votes : tally (gp_Options p) (ph_Voters (gp_Header p));
  pi_total : ph_TotalVotingPower (gp_Header p) = i64 (zsum (map vt_Power (ph_Voters (gp_Header p))));
  pi_major : ph_MajorityPower (gp_Header p) = majority_of (ph_TotalVotingPower (gp_Header p));
}.

(** ** Voters behind an address *)

Lemma find_voter_inv addr vs v :
  find (is_voter addr) vs = Some v -> v ∈ vs /\ vt_Address v = addr.
Proof.
  intros Hf. apply find_some in Hf as [Hin E]. split; [now apply list_elem_of_In|].
  now apply bytes_Equal_true in E.
Qed.

Lemma put_voter_sum addr v' g vs v :
  find (is_voter addr) vs = Some v ->
  zsum (map g (put_voter addr v' vs)) = zsum (map g vs) - g v + g v'.
Proof.
  induction vs as [|w vs IH]; cbn [find put_voter]; [done|].
  destruct (is_voter addr w); cbn [map zsum]; [intros [= ->]; lia|]. intros Hf. rewrite (IH Hf). lia.
Qed.

Lemma put_voter_addrs addr v' vs v :
  find (is_voter addr) vs = Some v -> vt_Address v' = addr ->
  map vt_Address (put_voter addr v' vs) = map vt_Address vs.
Proof.
  intros Hf Ha. revert Hf. induction vs as [|w vs IH]; cbn [find put_voter]; [done|].
  destruct (is_voter addr w) eqn:E; cbn [map].
  - intros _. apply bytes_Equal_true in E. congruence.
  - intros Hf. now rewrite IH.
Qed.

Lemma put_voter_find addr v' vs v :
  find (is_voter addr) vs = Some v -> vt_Address v' = addr ->
  find (is_voter addr) (put_voter addr v' vs) = Some v'.
Proof.
  intros Hf Ha. revert Hf. induction vs as [|w vs IH]; cbn [find put_voter]; [done|].
  destruct (is_voter addr w) eqn:E; cbn [find].
  - intros _. unfold is_voter. now rewrite Ha, bytes_Equal_refl.
  - intros Hf. rewrite E. auto.
Qed.

Lemma put_voter_put addr v1 v2 vs v :
  find (is_voter addr) vs = Some v -> vt_Address v1 = addr ->
  put_voter addr v2 (put_voter addr v1 vs) = put_voter addr v2 vs.
Proof.
  intros Hf Ha. revert Hf. induction vs as [|w vs IH]; cbn [find put_voter]; [done|].
  destruct (is_voter addr w) eqn:E; cbn [put_voter].
  - intros _. unfold is_voter. now rewrite Ha, bytes_Equal_refl.
  - intros Hf. rewrite E. now rewrite IH.
Qed.

Lemma put_voter_elem addr v' vs w : w ∈ put_voter addr v' vs -> w = v' \/ w ∈ vs.
Proof.
  induction vs as [|u vs IH]; cbn [put_voter]; [auto|].
  destruct (is_voter addr u); rewrite !elem_of_cons; naive_solver.
Qed.

Lemma put_voter_Forall P addr v' vs : Forall P vs -> P v' -> Forall P (put_voter addr v' vs).
Proof.
  rewrite !Forall_forall. intros Hvs Hv' w Hw. apply put_voter_elem in Hw as [->|Hw]; auto.
Qed.

(** Others keep their power and choice. *)
Lemma put_voter_other addr v' vs b :
  vt_Address v' = addr -> b <> addr ->
  find (is_voter b) (put_voter addr v' vs) = find (is_voter b) vs.
Proof.
  intros Ha Hb. induction vs as [|w vs IH]; cbn [put_voter]; [done|].
  destruct (is_voter addr w) eqn:E; cbn [find].
  - apply bytes_Equal_true in E. unfold is_voter. rewrite Ha, E.
    assert (Hf : bytes_Equal addr b = false) by (apply bool_decide_eq_false_2; congruence). now rewrite Hf.
  - now rewrite IH.
Qed.

Lemma remove_last_voter_spec addr vs v :
  find (is_voter addr) vs = Some v -> NoDup (map vt_Address vs) ->
  exists rest, remove_last_voter addr vs = Some rest /\ (forall g, zsum (map g rest) = zsum (map g vs) - g v) /\
    NoDup (map vt_Address rest) /\ (forall w, w ∈ rest -> w ∈ vs) /\
    find (is_voter addr) rest = None.
Proof.
  induction vs as [|w vs IH]; cbn [find remove_last_voter map]; [done|].
  intros Hf Hn. apply NoDup_cons in Hn as [Hnin Hn].
  destruct (is_voter addr w) eqn:E.
  - injection Hf as ->. apply bytes_Equal_true in E.
    assert (Hnone : remove_last_voter addr vs = None /\ find (is_voter addr) vs = None).
    { rewrite E in Hnin. clear -Hnin. induction vs as [|u vs IH]; [done|]. cbn [map] in Hnin.
      apply not_elem_of_cons in Hnin as [H1 H2]. destruct (IH H2) as [E1 E2]. cbn.
      assert (Eu : is_voter addr u = false) by (apply bool_decide_eq_false_2; congruence). now rewrite E1, E2, Eu. }
    rewrite (proj1 Hnone). exists vs. split; [done|]. split; [intros g; cbn; lia|].
    split; [done|]. split; [set_solver|apply Hnone].
  - destruct (IH Hf Hn) as (rest & -> & Hs & Hn' & Hsub & Hnf). exists (w :: rest).
    split; [done|]. split; [intros g; cbn; rewrite Hs; lia|]. split.
    + cbn [map]. apply NoDup_cons. split; [|done]. intros (u & Eu & Hu)%list_elem_of_fmap.
      apply Hnin. rewrite Eu. apply list_elem_of_fmap_2. auto.
    + split; [set_solver|]. cbn. now rewrite E.
Qed.

(** ** Counting *)

Lemma add_votes_spec opts i d :
  0 <= i < Z.of_nat (length opts) ->
  exists opts', add_votes opts i d = Ok opts' /\ length opts' = length opts /\
    forall j o', opts' !! j = Some o' -> exists o, opts !! j = Some o /\ vo_Option o' = vo_Option o /\
      vo_Votes o' = (if Z.of_nat j =? i then i64 (vo_Votes o + d) else vo_Votes o).
Proof.
  intros Hi. unfold add_votes. destruct (Z.ltb_spec i 0); [lia|].
  destruct (lookup_lt_is_Some_2 opts (Z.to_nat i)) as [o Ho]; [lia|]. rewrite Ho.
  eexists. split; [done|]. split; [apply length_insert|].
  intros j o' Hj. destruct (Z.eqb_spec (Z.of_nat j) i) as [E|E].
  - subst i. rewrite Nat2Z.id in *. rewrite list_lookup_insert_eq in Hj by (eapply lookup_lt_Some; eauto).
    injection Hj as <-. exists o. done.
  - rewrite list_lookup_insert_ne in Hj by lia. exists o'. done.
Qed.

(** Moving the voter [v] of [addr] from no choice to [c], or from [c] to none,
    changes the tally of [c] by its power. *)
Lemma tally_move opts opts' vs addr v v' i d :
  tally opts vs -> find (is_voter addr) vs = Some v ->
  (forall j o', opts' !! j = Some o' -> exists o, opts !! j = Some o /\ vo_Option o' = vo_Option o /\
      vo_Votes o' = (if Z.of_nat j =? i then i64 (vo_Votes o + d) else vo_Votes o)) ->
  (forall j, (if vt_Choice v' =? Z.of_nat j then vt_Power v' else 0) -
             (if vt_Choice v =? Z.of_nat j then vt_Power v else 0) =
             (if Z.of_nat j =? i then d else 0)) ->
  tally opts' (put_voter addr v' vs).
Proof.
  intros Ht Hf Ho Hd j o' Hj. destruct (Ho j o' Hj) as (o & Hoj & _ & E). specialize (Hd j).
  unfold votes_of. rewrite (put_voter_sum addr v' _ vs v Hf). cbn beta. rewrite E, (Ht j o Hoj). unfold votes_of in *.
  destruct (Z.of_nat j =? i); [rewrite i64_add_l|]; f_equal; lia.
Qed.

Lemma cancelVote_spec opts vs addr v :
  tally opts vs -> find (is_voter addr) vs = Some v -> choice_ok (length opts) v ->
  exists opts', cancelVote opts v = Ok (opts', MkVoter (vt_Address v) (vt_Power v) NOT_CHOICE) /\
    length opts' = length opts /\
    tally opts' (put_voter addr (MkVoter (vt_Address v) (vt_Power v) NOT_CHOICE) vs).
Proof.
  intros Ht Hf Hc. unfold cancelVote, choice_ok in *. destruct (Z.leb_spec 0 (vt_Choice v)) as [H0|H0].
  - destruct (add_votes_spec opts (vt_Choice v) (- vt_Power v)) as (opts' & -> & Hl & Ho); [lia|].
    exists opts'. split; [done|]. split; [done|].
    apply (tally_move opts opts' vs addr v _ (vt_Choice v) (- vt_Power v)); try done.
    intros j. cbn [vt_Choice vt_Power]. unfold NOT_CHOICE. destruct (Z.eqb_spec (-1) (Z.of_nat j)); [lia|].
    destruct (Z.eqb_spec (vt_Choice v) (Z.of_nat j)), (Z.eqb_spec (Z.of_nat j) (vt_Choice v)); lia.
  - exists opts. assert (E : vt_Choice v = NOT_CHOICE) by (unfold NOT_CHOICE; lia).
    rewrite <- E. replace (MkVoter (vt_Address v) (vt_Power v) (vt_Choice v)) with v by now destruct v.
    split; [done|]. split; [done|].
    apply (tally_move opts opts vs addr v v (-1) 0); try done.
    + intros j o' Hj. exists o'. split; [done|]. split; [done|]. destruct (Z.eqb_spec (Z.of_nat j) (-1)); [lia|done].
    + intros j. rewrite Z.sub_diag. now destruct (_ =? _).
Qed.

Lemma doVote_spec opts vs addr v c :
  tally opts vs -> find (is_voter addr) vs = Some v -> vt_Choice v = NOT_CHOICE ->
  0 <= c < Z.of_nat (length opts) ->
  exists opts', doVote opts v c = Ok (opts', MkVoter (vt_Address v) (vt_Power v) c) /\
    length opts' = length opts /\ tally opts' (put_voter addr (MkVoter (vt_Address v) (vt_Power v) c) vs).
Proof.
  intros Ht Hf Hn Hc. unfold doVote. destruct (Z.leb_spec 0 c); [|lia].
  destruct (add_votes_spec opts c (vt_Power v)) as (opts' & -> & Hl & Ho); [lia|].
  exists opts'. split; [done|]. split; [done|].
  apply (tally_move opts opts' vs addr v _ c (vt_Power v)); try done.
  intros j. cbn [vt_Choice vt_Power]. rewrite Hn. unfold NOT_CHOICE. destruct (Z.eqb_spec (-1) (Z.of_nat j)); [lia|].
  destruct (Z.eqb_spec c (Z.of_nat j)), (Z.eqb_spec (Z.of_nat j) c); lia.
Qed.

(** ** Voting *)

Lemma DoVote_ok p addr v c :
  prop_inv p -> findVoter (gp_Header p) addr = Some v ->
  0 <= c < Z.of_nat (length (gp_Options p)) ->
  exists opts, length opts = length (gp_Options p) /\
    DoVote p addr c = Ok (put_votes (MkGovProposal (gp_Header p) opts (gp_MajorOption p)) addr opts
                            (MkVoter addr (vt_Power v) c)) /\
    tally opts (put_voter addr (MkVoter addr (vt_Power v) c) (ph_Voters (gp_Header p))).
Proof.
  intros [Hn Hch Ht Htot Hmaj] Hf Hc. unfold DoVote. rewrite Hf. unfold findVoter in Hf.
  destruct (find_voter_inv _ _ _ Hf) as [Hin Ha].
  pose proof (proj1 (Forall_forall _ _) Hch v Hin) as Hcv.
  destruct (Z.eqb_spec (vt_Choice v) c) as [E|E].
  - exists (gp_Options p). subst c addr. replace (MkVoter (vt_Address v) (vt_Power v) (vt_Choice v)) with v by now destruct v.
    assert (Hself : put_voter (vt_Address v) v (ph_Voters (gp_Header p)) = ph_Voters (gp_Header p)).
    { clear -Hf. revert Hf. generalize (ph_Voters (gp_Header p)). induction l as [|w vs IH]; cbn [find put_voter]; [done|].
      destruct (is_voter _ w); [congruence|]. intros Hf. now rewrite IH. }
    unfold put_votes. cbn. rewrite Hself. split; [done|]. split; [|done].
    destruct p as [[] ? ?]; done.
  - destruct (cancelVote_spec _ _ _ _ Ht Hf Hcv) as (opts1 & -> & Hl1 & Ht1). cbn [obind].
    set (v0 := MkVoter (vt_Address v) (vt_Power v) NOT_CHOICE) in *.
    pose proof (put_voter_find addr v0 _ v Hf Ha) as Hf1.
    destruct (doVote_spec _ _ _ _ c Ht1 Hf1 eq_refl) as (opts2 & -> & Hl2 & Ht2); [lia|]. cbn [obind vt_Address vt_Power].
    exists opts2. cbn [v0 vt_Address vt_Power] in *. rewrite Ha in *. split; [congruence|]. split; [done|].
    now rewrite (put_voter_put addr v0 _ _ v Hf) in Ht2.
Qed.

(** Writing back a voter with the same power and a counted choice. *)
Lemma put_votes_inv p addr v c opts :
  prop_inv p -> findVoter (gp_Header p) addr = Some v ->
  0 <= c < Z.of_nat (length (gp_Options p)) -> length opts = length (gp_Options p) ->
  tally opts (put_voter addr (MkVoter addr (vt_Power v) c) (ph_Voters (gp_Header p))) ->
  prop_inv (put_votes (MkGovProposal (gp_Header p) opts (gp_MajorOption p)) addr opts (MkVoter addr (vt_Power v) c)).
Proof.
  intros [Hn Hch _ Htot Hmaj] Hf Hc Hl Ht. set (v' := MkVoter addr (vt_Power v) c) in *. split; cbn.
  - now rewrite (put_voter_addrs addr v' _ v Hf).
  - rewrite Hl. apply put_voter_Forall; [done|]. unfold choice_ok; cbn. lia.
  - done.
  - rewrite (put_voter_sum addr v' vt_Power _ v Hf), Htot. f_equal. cbn. lia.
  - done.
Qed.

(** A voter's vote for an existing option succeeds, whether it is the first
    vote or replaces an earlier one: the voter's choice becomes the option, all
    other voters keep theirs, and afterwards the votes of every option are again
    exactly the powers of the voters that chose it. *)
Theorem DoVote_counts p addr v c :
  prop_inv p -> findVoter (gp_Header p) addr = Some v ->
  0 <= c < Z.of_nat (length (gp_Options p)) ->
  exists p', DoVote p addr c = Ok p' /\ prop_inv p' /\
    findVoter (gp_Header p') addr = Some (MkVoter addr (vt_Power v) c) /\
    (forall b, b <> addr -> findVoter (gp_Header p') b = findVoter (gp_Header p) b) /\
    length (gp_Options p') = length (gp_Options p).
Proof.
  intros Hp Hf Hc. destruct (DoVote_ok p addr v c Hp Hf Hc) as (opts & Hl & -> & Ht).
  eexists. split; [done|]. split; [now apply put_votes_inv|]. split_and!.
  - now apply (put_voter_find addr _ _ v).
  - intros b Hb. now apply put_voter_other.
  - done.
Qed.

Definition voted_prop : GovProposal :=
  AddOption (AddOption (AddVoter (AddVoter (NewGovProposal PROPOSAL_COMMON [7] 10 20 40 100) [1] 30) [2] 10) [65]) [66].

Lemma voted_prop_inv : prop_inv voted_prop.
Proof.
  split.
  - eapply (bool_decide_eq_true_1 (NoDup (map vt_Address (ph_Voters (gp_Header voted_prop))))). vm_compute. reflexivity.
  - repeat constructor; vm_compute; congruence.
  - intros [|[|i]] o Ho; [vm_compute in Ho; injection Ho as <-; reflexivity..|]. cbn in Ho. done.
  - vm_compute. reflexivity.
  - vm_compute. reflexivity.
Qed.

Lemma DoVote_counts_witness :
  exists p', DoVote voted_prop [1] 1 = Ok p' /\ prop_inv p' /\ map vo_Votes (gp_Options p') = [0; 30].
Proof.
  destruct (DoVote_counts voted_prop [1] (MkVoter [1] 30 (-1)) 1 voted_prop_inv eq_refl ltac:(cbn; lia))
    as (p' & E & Hp & _).
  exists p'. split; [exact E|]. split; [exact Hp|]. vm_compute in E. injection E as <-. vm_compute. reflexivity.
Defined.

(** ** Slashing *)

(** The power taken from a voter, and what remains. *)
Definition slash_of (power rate : Z) : Z :=
  let slash0 := i64 (go_div (i64 (power * rate)) 100) in
  if slash0 <=? 0 then power else slash0.

Lemma slash_of_range power rate :
  0 <= power -> 0 <= rate <= 100 -> power * 100 < 2 ^ 63 ->
  0 <= slash_of power rate <= power /\ i64 (power - slash_of power rate) = power - slash_of power rate.
Proof.
  intros Hp Hr Hb. unfold slash_of.
  rewrite (i64_id (power * rate)) by (unfold in_i64; nia). rewrite go_div_pos by nia.
  assert (Hd : 0 <= power * rate / 100 <= power).
  { split; [apply Z.div_pos; nia|]. apply Z.div_le_upper_bound; nia. }
  rewrite i64_id by (unfold in_i64; lia). destruct (Z.leb_spec (power * rate / 100) 0).
  - split; [lia|]. now rewrite Z.sub_diag.
  - split; [lia|]. apply i64_id. unfold in_i64. lia.
Qed.

(** A voter without a choice counts for no option. *)
Lemma tally_unchosen opts vs addr v v' :
  tally opts vs -> find (is_voter addr) vs = Some v -> vt_Choice v = NOT_CHOICE -> vt_Choice v' = NOT_CHOICE ->
  tally opts (put_voter addr v' vs).
Proof.
  intros Ht Hf Hc Hc'. apply (tally_move opts opts vs addr v v' (-1) 0); try done.
  - intros j o' Hj. exists o'. split; [done|]. split; [done|]. destruct (Z.eqb_spec (Z.of_nat j) (-1)); [lia|done].
  - intros j. rewrite Hc, Hc'. unfold NOT_CHOICE. destruct (Z.eqb_spec (-1) (Z.of_nat j)); [lia|]. now destruct (_ =? _).
Qed.

(** The three ends of [DoSlash], from the proposal [p1] in which the voter [v1]
    has no choice and its reduced power. *)
Lemma slash_removed p1 addr v1 slash total :
  NoDup (map vt_Address (ph_Voters (gp_Header p1))) ->
  Forall (choice_ok (length (gp_Options p1))) (ph_Voters (gp_Header p1)) ->
  tally (gp_Options p1) (ph_Voters (gp_Header p1)) ->
  find (is_voter addr) (ph_Voters (gp_Header p1)) = Some v1 -> vt_Choice v1 = NOT_CHOICE -> vt_Power v1 = 0 ->
  ph_TotalVotingPower (gp_Header p1) = i64 total ->
  zsum (map vt_Power (ph_Voters (gp_Header p1))) = total - slash ->
  let p' := reduce_total (with_header p1 (removeVoter (gp_Header p1) addr)) slash in
  prop_inv p' /\ ph_TotalVotingPower (gp_Header p') = i64 (total - slash) /\ findVoter (gp_Header p') addr = None.
Proof.
  intros Hn Hch Ht Hf Hc H0 Et Es p'.
  destruct (remove_last_voter_spec addr _ v1 Hf Hn) as (rest & Er & Hs & Hn' & Hsub & Hnf).
  unfold p', removeVoter. rewrite Er. cbn. rewrite Et, i64_sub_l. split; [|done]. split; cbn.
  - done.
  - apply Forall_forall. intros w Hw. exact (proj1 (Forall_forall _ _) Hch w (Hsub w Hw)).
  - intros i o Hi. rewrite (Ht i o Hi). unfold votes_of. rewrite Hs, Hc. unfold NOT_CHOICE.
    destruct (Z.eqb_spec (-1) (Z.of_nat i)); [lia|]. f_equal. lia.
  - rewrite Hs, H0, Z.sub_0_r, Es, Et, i64_sub_l. done.
  - now rewrite Et, i64_sub_l.
Qed.

Lemma slash_kept p1 addr v1 slash total :
  NoDup (map vt_Address (ph_Voters (gp_Header p1))) ->
  Forall (choice_ok (length (gp_Options p1))) (ph_Voters (gp_Header p1)) ->
  tally (gp_Options p1) (ph_Voters (gp_Header p1)) ->
  find (is_voter addr) (ph_Voters (gp_Header p1)) = Some v1 ->
  ph_TotalVotingPower (gp_Header p1) = i64 total ->
  zsum (map vt_Power (ph_Voters (gp_Header p1))) = total - slash ->
  let p' := reduce_total p1 slash in
  prop_inv p' /\ ph_TotalVotingPower (gp_Header p') = i64 (total - slash) /\
  findVoter (gp_Header p') addr = Some v1.
Proof.
  intros Hn Hch Ht Hf Et Es p'. unfold p'. cbn. rewrite Et, i64_sub_l. split; [|done]. split; cbn; try done. now rewrite Es, Et, i64_sub_l.
Qed.

(** What slashing writes: the voter with the power that remains, counted again
    under its choice or, when nothing remains, without one and removed. *)
Lemma DoSlash_ok p addr v rate :
  prop_inv p -> findVoter (gp_Header p) addr = Some v ->
  0 <= vt_Power v -> 0 <= rate <= 100 -> vt_Power v * 100 < 2 ^ 63 ->
  let slash := slash_of (vt_Power v) rate in
  exists opts w, vt_Address w = addr /\ vt_Power w = vt_Power v - slash /\
    vt_Choice w = (if vt_Power v <=? slash then NOT_CHOICE else vt_Choice v) /\
    length opts = length (gp_Options p) /\ tally opts (put_voter addr w (ph_Voters (gp_Header p))) /\
    (let p1 := put_votes p addr opts w in
     DoSlash p addr rate = Ok (slash, reduce_total
       (if vt_Power v <=? slash then with_header p1 (removeVoter (gp_Header p1) addr) else p1) slash)).
Proof.
  intros [_ Hch Ht _ _] Hf Hp0 Hr Hb slash. unfold DoSlash. rewrite Hf. unfold findVoter in Hf.
  destruct (find_voter_inv _ _ _ Hf) as [Hin Ha].
  pose proof (proj1 (Forall_forall _ _) Hch v Hin) as Hcv.
  destruct (cancelVote_spec _ _ _ _ Ht Hf Hcv) as (opts1 & Ec & Hl1 & Ht1).
  set (v0 := MkVoter (vt_Address v) (vt_Power v) NOT_CHOICE) in *.
  assert (Ec' : (if 0 <=? vt_Choice v then cancelVote (gp_Options p) v else Ok (gp_Options p, v)) = Ok (opts1, v0)).
  { destruct (Z.leb_spec 0 (vt_Choice v)); [done|]. unfold cancelVote in Ec.
    destruct (Z.leb_spec 0 (vt_Choice v)); [lia|]. congruence. }
  rewrite Ec'. cbn [obind v0 vt_Power vt_Address vt_Choice]. fold (slash_of (vt_Power v) rate).
  destruct (slash_of_range _ _ Hp0 Hr Hb) as [Hsl Ei]. rewrite Ei. fold slash. fold slash in Hsl.
  set (v1 := MkVoter (vt_Address v) (vt_Power v - slash) NOT_CHOICE).
  set (vs := ph_Voters (gp_Header p)) in *.
  assert (Ht2 : tally opts1 (put_voter addr v1 vs)).
  { rewrite <- (put_voter_put addr v0 v1 vs v Hf Ha).
    apply (tally_unchosen _ _ _ v0); try done. now apply (put_voter_find addr v0 vs v). }
  destruct (Z.leb_spec (vt_Power v) slash), (Z.leb_spec (vt_Power v - slash) 0); try lia.
  - exists opts1, v1. done.
  - destruct (Z.leb_spec 0 (vt_Choice v)) as [Hc0|Hc0].
    + destruct (doVote_spec _ _ _ v1 (vt_Choice v) Ht2 (put_voter_find addr v1 vs v Hf Ha) eq_refl)
        as (opts2 & Ed & Hl2 & Ht3); [unfold choice_ok in Hcv; lia|].
      rewrite Ed. rewrite (put_voter_put addr v1 _ vs v Hf Ha) in Ht3.
      eexists opts2, _. split_and!; [..|exact Ht3|done]; cbn; congruence.
    + exists opts1, v1. split_and!; try done. cbn. unfold choice_ok, NOT_CHOICE in *. lia.
Qed.

Lemma DoSlash_inv p addr v rate :
  prop_inv p -> findVoter (gp_Header p) addr = Some v ->
  0 <= vt_Power v -> 0 <= rate <= 100 -> vt_Power v * 100 < 2 ^ 63 ->
  exists p', DoSlash p addr rate = Ok (slash_of (vt_Power v) rate, p') /\ prop_inv p' /\
    ph_TotalVotingPower (gp_Header p') = i64 (ph_TotalVotingPower (gp_Header p) - slash_of (vt_Power v) rate) /\
    findVoter (gp_Header p') addr =
      (if vt_Power v <=? slash_of (vt_Power v) rate then None
       else Some (MkVoter addr (vt_Power v - slash_of (vt_Power v) rate) (vt_Choice v))).
Proof.
  intros Hp Hf Hp0 Hr Hb. destruct (DoSlash_ok p addr v rate Hp Hf Hp0 Hr Hb) as (opts & w & Ha & Hw & Hcw & Hl & Ht & E).
  set (slash := slash_of (vt_Power v) rate) in *. destruct Hp as [Hn Hch _ Htot Hmaj]. unfold findVoter in Hf.
  set (vs := ph_Voters (gp_Header p)) in *.
  pose proof (put_voter_addrs addr w vs v Hf Ha) as Ea. pose proof (put_voter_find addr w vs v Hf Ha) as Hfw.
  pose proof (put_voter_sum addr w vt_Power vs v Hf) as Es.
  assert (Hok : Forall (choice_ok (length opts)) (put_voter addr w vs)).
  { rewrite Hl. apply put_voter_Forall; [done|]. destruct (find_voter_inv _ _ _ Hf) as [Hin _].
    pose proof (proj1 (Forall_forall _ _) Hch v Hin) as Hcv. unfold choice_ok, NOT_CHOICE in *.
    rewrite Hcw. destruct (_ <=? _); lia. }
  rewrite E, Htot, i64_sub_l. destruct (Z.leb_spec (vt_Power v) slash).
  - edestruct (slash_removed (put_votes p addr opts w) addr w slash (zsum (map vt_Power vs))) as (Hi & Et & Hnf);
      [cbn; fold vs; now rewrite Ea|exact Hok|exact Ht|exact Hfw|done|pose proof (slash_of_range _ _ Hp0 Hr Hb); lia|exact Htot
      |cbn; fold vs; lia|]. eauto.
  - edestruct (slash_kept (put_votes p addr opts w) addr w slash (zsum (map vt_Power vs))) as (Hi & Et & Hfv);
      [cbn; fold vs; now rewrite Ea|exact Hok|exact Ht|exact Hfw|exact Htot|cbn; fold vs; lia|].
    eexists. split; [done|]. split; [exact Hi|]. split; [exact Et|]. rewrite Hfv. destruct w; cbn in *. congruence.
Qed.

(** Slashing a voter takes the slash from its power and from the
    proposal's total, recomputes the majority, moves the votes of the option it
    chose by the same amount, and removes the voter when nothing remains; the
    proposal's counts stay exact. *)
Theorem DoSlash_counts p addr v rate :
  prop_inv p -> findVoter (gp_Header p) addr = Some v ->
  0 <= vt_Power v -> 0 <= rate <= 100 -> vt_Power v * 100 < 2 ^ 63 ->
  exists p', DoSlash p addr rate = Ok (slash_of (vt_Power v) rate, p') /\ prop_inv p' /\
    ph_TotalVotingPower (gp_Header p') = i64 (ph_TotalVotingPower (gp_Header p) - slash_of (vt_Power v) rate) /\
    findVoter (gp_Header p') addr =
      (if vt_Power v <=? slash_of (vt_Power v) rate then None
       else Some (MkVoter addr (vt_Power v - slash_of (vt_Power v) rate) (vt_Choice v))).
Proof. apply DoSlash_inv. Qed.

Lemma DoSlash_counts_witness :
  exists p', DoSlash voted_prop [1] 50 = Ok (15, p') /\ prop_inv p' /\
    ph_TotalVotingPower (gp_Header p') = 25 /\ ph_MajorityPower (gp_Header p') = 16.
Proof.
  destruct (DoSlash_counts voted_prop [1] (MkVoter [1] 30 (-1)) 50 voted_prop_inv eq_refl ltac:(cbn; lia)
    ltac:(lia) ltac:(cbn; lia)) as (p' & E & Hp & _).
  exists p'. vm_compute in E. injection E as <-. split; [vm_compute; reflexivity|]. split; [exact Hp|].
  split; vm_compute; reflexivity.
Defined.

(** ** The majority *)

(** The votes of all options together are at most the total power. *)
Lemma votes_sum_le vs n :
  Forall (fun v => 0 <= vt_Power v) vs ->
  zsum (map (fun i => votes_of (Z.of_nat i) vs) (seq 0 n)) <= zsum (map vt_Power vs) /\
  Forall (fun i => 0 <= votes_of (Z.of_nat i) vs) (seq 0 n).
Proof.
  intros Hp. split.
  - unfold votes_of. induction Hp as [|v vs Hv Hvs IH]; cbn [map zsum].
    { clear. induction (seq 0 n) as [|i l IHl]; cbn [map zsum]; [lia|]. now rewrite Z.add_0_l. }
    rewrite zsum_map_add.
    enough (zsum (map (fun i => if vt_Choice v =? Z.of_nat i then vt_Power v else 0) (seq 0 n)) <= vt_Power v) by lia.
    clear IH. assert (Hn : NoDup (seq 0 n)) by apply NoDup_seq.
    induction (seq 0 n) as [|i l IHl]; cbn [map zsum]; [done|]. apply NoDup_cons in Hn as [Hnin Hn].
    destruct (Z.eqb_spec (vt_Choice v) (Z.of_nat i)) as [E|E]; [|specialize (IHl Hn); lia].
    assert (Hz : zsum (map (fun i => if vt_Choice v =? Z.of_nat i then vt_Power v else 0) l) = 0); [|lia].
    etransitivity; [apply (zsum_map_ext _ (fun _ => 0))|].
    + intros j Hj. destruct (Z.eqb_spec (vt_Choice v) (Z.of_nat j)); [|done].
      assert (i = j) by lia. now subst.
    + clear. induction l as [|j l IHl]; cbn [map zsum]; [lia|]. now rewrite Z.add_0_l.
  - apply Forall_forall. intros i _. unfold votes_of. apply zsum_nonneg, Forall_map.
    eapply Forall_impl; [exact Hp|]. intros v Hv. cbn beta in *. destruct (vt_Choice v =? _); lia.
Qed.

Lemma two_votes_le vs n i j :
  Forall (fun v => 0 <= vt_Power v) vs -> (i < n)%nat -> (j < n)%nat -> i <> j ->
  0 <= votes_of (Z.of_nat i) vs /\ 0 <= votes_of (Z.of_nat j) vs /\
  votes_of (Z.of_nat i) vs + votes_of (Z.of_nat j) vs <= zsum (map vt_Power vs).
Proof.
  intros Hp Hi Hj Hij. destruct (votes_sum_le vs n Hp) as [Hs Hnn].
  assert (Hnon : forall k, 0 <= votes_of (Z.of_nat k) vs).
  { intros k. unfold votes_of. apply zsum_nonneg, Forall_map. eapply Forall_impl; [exact Hp|].
    intros v Hv. cbn beta in *. destruct (vt_Choice v =? _); lia. }
  split; [apply Hnon|]. split; [apply Hnon|]. etransitivity; [|exact Hs].
  assert (Hperm : exists l, seq 0 n ≡ₚ i :: j :: l).
  { assert (Hil : i ∈ seq 0 n) by (apply elem_of_seq; lia). apply elem_of_Permutation in Hil as [l Hl].
    assert (Hjl : j ∈ l). { assert (j ∈ i :: l) by (rewrite <- Hl; apply elem_of_seq; lia). set_solver. }
    apply elem_of_Permutation in Hjl as [l' Hl']. exists l'. now rewrite Hl, Hl'. }
  destruct Hperm as [l Hl]. rewrite Hl. cbn [map zsum].
  assert (0 <= zsum (map (fun i => votes_of (Z.of_nat i) vs) l)); [|lia].
  apply zsum_nonneg, Forall_map, Forall_forall. intros k _. apply Hnon.
Qed.

Lemma majority_of_exact total : 0 <= total < 2 ^ 62 -> majority_of total = total * 2 / 3.
Proof.
  intros Ht. unfold majority_of. rewrite (i64_id (total * 2)) by (unfold in_i64; lia).
  rewrite go_div_pos by lia. apply i64_id.
  assert (0 <= total * 2 / 3 <= total) by (split; [apply Z.div_pos; lia|apply Z.div_le_upper_bound; lia]).
  unfold in_i64. lia.
Qed.

Lemma go_sort_head o opts rest x :
  go_sort more_votes opts = o :: rest -> x ∈ opts -> vo_Votes x <= vo_Votes o.
Proof.
  intros Hs Hx.
  assert (Hx' : x ∈ o :: rest) by (rewrite <- Hs; now apply elem_of_go_sort).
  assert (Hd : StronglySorted (not_after more_votes) (o :: rest)).
  { rewrite <- Hs. apply go_sort_sorted; unfold more_votes; intros *; rewrite ?Z.ltb_lt, ?Z.ltb_ge; lia. }
  apply elem_of_cons in Hx' as [->|Hx']; [lia|]. inversion Hd as [|? ? _ Hall]; subst.
  pose proof (proj1 (Forall_forall _ _) Hall x Hx') as Hn. unfold not_after, more_votes in Hn.
  apply Z.ltb_ge in Hn. lia.
Qed.

(** Powers that are not negative and do not overflow are counted exactly. *)
Definition powers_ok (vs : list Voter) : Prop :=
  Forall (fun v => 0 <= vt_Power v) vs /\ zsum (map vt_Power vs) < 2 ^ 62.

Lemma powers_total vs : powers_ok vs -> 0 <= zsum (map vt_Power vs) < 2 ^ 62.
Proof. intros [Hp Hb]. split; [apply zsum_nonneg; now apply Forall_map|done]. Qed.

Lemma majority_exact p :
  prop_inv p -> powers_ok (ph_Voters (gp_Header p)) ->
  ph_MajorityPower (gp_Header p) = zsum (map vt_Power (ph_Voters (gp_Header p))) * 2 / 3.
Proof.
  intros [_ _ _ Htot Hmaj] Hp. pose proof (powers_total _ Hp).
  rewrite Hmaj, Htot, i64_id by (unfold in_i64; lia). now apply majority_of_exact.
Qed.

Lemma votes_of_range vs i :
  powers_ok vs -> 0 <= votes_of i vs <= zsum (map vt_Power vs).
Proof.
  intros [Hp _]. unfold votes_of. induction Hp as [|v vs Hv _ IH]; cbn [map zsum]; [lia|].
  destruct (vt_Choice v =? i); lia.
Qed.

Lemma votes_exact p i o :
  prop_inv p -> powers_ok (ph_Voters (gp_Header p)) -> gp_Options p !! i = Some o ->
  vo_Votes o = votes_of (Z.of_nat i) (ph_Voters (gp_Header p)).
Proof.
  intros Hi Hp Ho. rewrite (pi_votes p Hi i o Ho). apply i64_id.
  pose proof (powers_total _ Hp). pose proof (votes_of_range _ (Z.of_nat i) Hp). unfold in_i64. lia.
Qed.

(** The major option of a proposal whose voting has ended is an option with
    at least two thirds (rounded down) of the total voting power and no option
    has more votes; as soon as the total power is at least five it is the only
    such option, so the choice does not depend on how the options are sorted.
    Without a major option every option stays below the majority. *)
Theorem major_option_wins p :
  prop_inv p -> gp_MajorOption p = None -> gp_Options p <> [] ->
  Forall (fun v => 0 <= vt_Power v) (ph_Voters (gp_Header p)) ->
  let total := zsum (map vt_Power (ph_Voters (gp_Header p))) in
  total < 2 ^ 62 ->
  exists p', updateMajorOption p = Ok p' /\ gp_Header p' = gp_Header p /\
    match gp_MajorOption p' with
    | Some o => exists i, gp_Options p !! i = Some o /\ total * 2 / 3 <= vo_Votes o /\
        (5 <= total -> forall j o', gp_Options p !! j = Some o' -> j <> i -> vo_Votes o' < vo_Votes o)
    | None => forall j o', gp_Options p !! j = Some o' -> vo_Votes o' < total * 2 / 3
    end.
Proof.
  intros Hinv Hnone Hopt Hpow total Hb. set (vs := ph_Voters (gp_Header p)) in *.
  assert (Hp : powers_ok vs) by done. pose proof (majority_exact p Hinv Hp) as Em. fold vs total in Em.
  unfold updateMajorOption. destruct (go_sort more_votes (gp_Options p)) as [|o rest] eqn:Es.
  { assert (Hl := length_go_sort more_votes (gp_Options p)). rewrite Es in Hl. now destruct (gp_Options p). }
  eexists. split; [done|]. split; [done|]. cbn [gp_MajorOption]. rewrite Em, Hnone.
  assert (Ho : o ∈ gp_Options p) by (rewrite <- (elem_of_go_sort more_votes), Es; now left).
  apply list_elem_of_lookup in Ho as [i Hi].
  destruct (Z.leb_spec (total * 2 / 3) (vo_Votes o)) as [Hle|Hlt].
  - exists i. split; [done|]. split; [done|]. intros H5 j o' Hj Hne.
    pose proof (go_sort_head o _ rest o' Es (list_elem_of_lookup_2 _ _ _ Hj)) as Hmax.
    destruct (two_votes_le vs (length (gp_Options p)) i j Hpow) as (Hi0 & Hj0 & Hsum);
      [eapply lookup_lt_Some; eauto..|done|].
    pose proof (votes_exact p i o Hinv Hp Hi) as Ei. pose proof (votes_exact p j o' Hinv Hp Hj) as Ej.
    fold vs in Ei, Ej.
    assert (Hq : total * 2 < 3 * (total * 2 / 3 + 1)) by (pose proof (Z.mul_succ_div_gt (total * 2) 3); lia).
    fold total in Hsum. lia.
  - intros j o' Hj. pose proof (go_sort_head o _ rest o' Es (list_elem_of_lookup_2 _ _ _ Hj)). lia.
Qed.

Lemma major_option_wins_witness :
  exists p' o, DoVote voted_prop [1] 1 = Ok p' /\ prop_inv p' /\
    (exists p'', updateMajorOption p' = Ok p'' /\ gp_MajorOption p'' = Some o) /\ vo_Votes o = 30.
Proof.
  destruct (DoVote_ok voted_prop [1] (MkVoter [1] 30 (-1)) 1 voted_prop_inv eq_refl ltac:(cbn; lia)) as (opts & _ & E & _).
  assert (Hinv : prop_inv (MkGovProposal
    (MkProposalHeader PROPOSAL_COMMON [7] 10 30 100 40 26 [MkVoter [1] 30 1; MkVoter [2] 10 (-1)])
    [MkVoteOption [65] 0; MkVoteOption [66] 30] None)).
  { split.
    - eapply (bool_decide_eq_true_1 (NoDup [_; _])). vm_compute. reflexivity.
    - repeat constructor; vm_compute; congruence.
    - intros [|[|i]] o Ho; [vm_compute in Ho; injection Ho as <-; reflexivity..|]. cbn in Ho. discriminate.
    - vm_compute. reflexivity.
    - vm_compute. reflexivity. }
  destruct (major_option_wins _ Hinv eq_refl ltac:(discriminate) ltac:(repeat constructor; vm_compute; congruence)
    ltac:(vm_compute; reflexivity)) as (p'' & E2 & _ & Hm).
  eexists. exists (MkVoteOption [66] 30). split; [vm_compute; reflexivity|]. split; [exact Hinv|].
  split; [|reflexivity]. exists p''. split; [exact E2|]. vm_compute in E2. injection E2 as <-. reflexivity.
Defined.
