(* ===== verification/GovCtrler.v ===== *)
(** * GovCtrler: the governance controller

    [ctrlers/gov/ctrler.go], [ctrler_block.go] and [ctrler_punish.go]: proposals
    are created and voted on by transactions, frozen when their voting period
    has ended with a majority, and applied at their height; slashing a byzantine
    validator reduces its power in the open proposals.  Parsing the parameters
    of an option from JSON is a parameter of the model ([GovJson]). *)
From stdpp Require Import base gmap list strings countable.
From Stdlib Require Import ZArith Lia.
From S2P Require Import Prelude XErrors GoMonad LedgerKeys Iavl Ledger Units Proto GovParams.
From S2P Require Import TrxTypes Proposal.

Inductive GovItem : Type :=
| IGovParams (x : GovParamsProto)
| IProposal (x : GovProposal).

#[global] Instance GovItem_eq_dec : EqDecision GovItem.
Proof. solve_decision. Defined.

Class GovProtos : Type := {
  gps_params :: Proto GovParamsProto;
  gps_proposal :: Proto GovProposal;
}.

(** [jsonx.Unmarshal] into parameters; it may return an error or panic. *)
Class GovJson : Type := json_GovParams : bytes -> outcome GovParamsRead.

Section GovCodec.
Context `{GovProtos}.

(** [defaultNewItemFor] *)
Definition gov_newItem (key : LedgerKey) : outcome GovItem :=
  if bytes_HasPrefix key KeyPrefixGovParams then Ok (IGovParams GovParams.zero)
  else if bytes_HasPrefix key KeyPrefixProposal || bytes_HasPrefix key KeyPrefixFrozenProp
  then Ok (IProposal (MkGovProposal (MkProposalHeader 0 [] 0 0 0 0 0 []) [] None))
  else Panic.

Definition GovItem_Encode (x : GovItem) : outcome bytes :=
  match x with
  | IGovParams gp => from_err (Marshal gp)
  | IProposal p => from_err (Marshal p)
  end.

Definition GovItem_Decode (x : GovItem) (k v : bytes) : outcome GovItem :=
  match x with
  | IGovParams _ => obind (from_err (Unmarshal v)) (fun gp => Ok (IGovParams gp))
  | IProposal _ => obind (from_err (Unmarshal v)) (fun p => Ok (IProposal p))
  end.

#[export] Instance GovItem_item : LedgerItem GovItem := {
  newItemFor := gov_newItem;
  Encode := GovItem_Encode;
  Decode := GovItem_Decode;
}.

End GovCodec.

Record GovCtrler (T I : Type) := MkGovCtrler {
  govState : LState GovItem T I;
  govParams : GovParamsProto;
  newGovParams : option GovParamsProto;
}.
Arguments MkGovCtrler {T I} _ _ _.
Arguments govState {T I} _.
Arguments govParams {T I} _.
Arguments newGovParams {T I} _.

Program Definition gov_lens {T I} : lens (GovCtrler T I) (LState GovItem T I) :=
  Lens govState (fun l s => MkGovCtrler l (govParams s) (newGovParams s)) _ _ _.
Next Obligation. done. Qed.
Next Obligation. now intros ? ? []. Qed.
Next Obligation. done. Qed.

Section GovOps.
Context {T I : Type} `{Iavl T I} `{GovProtos, GovJson}.
Abbreviation G := (GovCtrler T I).
Abbreviation GM := (M (GovCtrler T I)).

Definition g_deref (l : loc) : GM GovItem := zoom gov_lens (l_deref l).
Definition g_assign (l : loc) (x : GovItem) : GM unit := zoom gov_lens (l_assign l x).
Definition g_alloc (x : GovItem) : GM loc := zoom gov_lens (l_alloc x).
Definition gov_Get (k : LedgerKey) (exec : bool) : GM loc := zoom gov_lens (Get k exec).
Definition gov_Set (k : LedgerKey) (l : loc) (exec : bool) : GM unit := zoom gov_lens (Set_ k l exec).
Definition gov_Del (k : LedgerKey) (exec : bool) : GM unit := zoom gov_lens (Del k exec).

(** A failed type assertion gives a nil proposal, whose methods panic. *)
Definition get_prop (l : loc) : GM GovProposal :=
  let! x := g_deref l in
  match x with IProposal p => ret p | _ => panic end.
Definition put_prop (l : loc) (p : GovProposal) : GM unit := g_assign l (IProposal p).

(** [NewGovCtrler]: the parameters of the last committed block. *)
Definition gov_load : GM unit :=
  let! r := try (gov_Get LedgerKeyGovParams true) in
  match r with
  | inl l =>
      let! x := g_deref l in
      match x with
      | IGovParams gp => modify (fun s => MkGovCtrler (govState s) gp (newGovParams s))
      | _ => panic
      end
  | inr e =>
      if bool_decide (e = ErrNotFoundResult)
      then modify (fun s => MkGovCtrler (govState s) GovParams.zero (newGovParams s))
      else throw e
  end.

Definition gov_InitLedger (gp : GovParamsProto) : GM unit :=
  modify (fun s => MkGovCtrler (govState s) gp (newGovParams s)) ;;;
  let! l := g_alloc (IGovParams gp) in
  ignore (gov_Set LedgerKeyGovParams l true).

(** ** Transactions *)

Fixpoint check_options (opts : list bytes) : outcome unit :=
  match opts with
  | [] => Ok tt
  | o :: opts' =>
      match json_GovParams o with
      | Ok _ => check_options opts'
      | Err e => Err (Wrap ErrInvalidTrxPayloadParams e)
      | Panic => Panic
      end
  end.

(** The checks on the contents of a proposal. *)
Definition check_proposal (gp : GovParamsProto) (p : TrxPayloadProposal) (height : Z) : outcome unit :=
  if pp_StartVotingHeight p <=? height then Err ErrInvalidTrxPayloadParams
  else if (GovParams.MaxVotingPeriodBlocks gp <? pp_VotingPeriodBlocks p) ||
          (pp_VotingPeriodBlocks p <? GovParams.MinVotingPeriodBlocks gp)
  then Err ErrInvalidTrxPayloadParams
  else
    obind (if pp_OptType p =? PROPOSAL_GOVPARAMS then check_options (pp_Options p) else Ok tt) (fun _ =>
    let endVotingHeight := i64 (pp_StartVotingHeight p + pp_VotingPeriodBlocks p) in
    let minApplyingHeight := i64 (endVotingHeight + GovParams.LazyApplyingBlocks gp) in
    if endVotingHeight <? pp_StartVotingHeight p
    then Err (Wrapf ErrInvalidTrxPayloadParams "overflow occurs: startHeight:%v, endVotingHeight:%v")
    else if (pp_ApplyingHeight p <? minApplyingHeight) || (pp_ApplyingHeight p <? endVotingHeight)
    then Err (Wrapf ErrInvalidTrxPayloadParams
      "wrong applyingHeight: must be set equal to or higher than minApplyingHeight. ApplyHeight:%v, minApplyingHeight:%v, endVotingHeight:%v, lazyApplyingBlocks:%v")
    else if (length (pp_Options p) =? 0)%nat
    then Err (Wrapf ErrInvalidTrxPayloadParams "wrong options: must have at least one value")
    else Ok tt).

(** [isVal] answers [VPowerHandler.IsValidator]. *)
Definition validate_proposal (isVal : Address -> bool) (tx : Trx) (txhash : bytes) (height : Z)
    (exec : bool) : GM unit :=
  if negb (bytes_Compare (tx_To tx) ZeroAddress =? 0)
  then throw (Wrap ErrInvalidTrx (GoError "wrong address: the 'to' field in TRX_PROPOSAL should be zero address"))
  else if negb (isVal (tx_From tx)) then throw ErrNoRight
  else
    match tx_Payload tx with
    | Some (TrxPayloadProposal_ p) =>
        let! r := try (gov_Get (LedgerKeyProposal txhash) exec) in
        match r with
        | inl _ => throw ErrDuplicatedKey
        | inr e =>
            if bool_decide (e = ErrNotFoundResult)
            then let! gp := gets govParams in lift (check_proposal gp p height)
            else throw e
        end
    | _ => throw ErrInvalidTrxPayloadType
    end.

Definition validate_voting (tx : Trx) (height : Z) (exec : bool) : GM unit :=
  if negb (bytes_Compare (tx_To tx) ZeroAddress =? 0)
  then throw (Wrap ErrInvalidTrxPayloadParams (GoError "wrong address: the 'to' field in TRX_VOTING should be zero address"))
  else
    match tx_Payload tx with
    | Some (TrxPayloadVoting txhash choice) =>
        let! l := gov_Get (LedgerKeyProposal txhash) exec in
        let! prop := get_prop l in
        if negb (IsVoter (gp_Header prop) (tx_From tx)) then throw ErrNoRight
        else if (choice <? 0) || (i32 (Z.of_nat (length (gp_Options prop))) <=? choice)
        then throw ErrInvalidTrxPayloadParams
        else if (ph_EndVotingHeight (gp_Header prop) <? height) ||
                (height <? ph_StartVotingHeight (gp_Header prop))
        then throw ErrNotVotingPeriod
        else ret tt
    | _ => throw ErrInvalidTrxPayloadType
    end.

Definition gov_ValidateTrx (isVal : Address -> bool) (tx : Trx) (txhash : bytes) (height : Z)
    (exec : bool) : GM unit :=
  if GetType tx =? TRX_PROPOSAL then validate_proposal isVal tx txhash height exec
  else if GetType tx =? TRX_VOTING then validate_voting tx height exec
  else throw ErrUnknownTrxType.

(** The proposal a transaction creates; [vals] and [total] come from
    [VPowerHandler.Validators]. *)
Definition new_proposal (vals : list (Address * Z)) (total : Z) (p : TrxPayloadProposal) (txhash : bytes)
    : GovProposal :=
  let prop0 := NewGovProposal (pp_OptType p) txhash (pp_StartVotingHeight p) (pp_VotingPeriodBlocks p)
                 total (pp_ApplyingHeight p) in
  let prop1 := fold_left (fun q v => AddVoter q (fst v) (snd v)) vals prop0 in
  fold_left AddOption (pp_Options p) prop1.

Definition execProposing (vals : list (Address * Z)) (total : Z) (tx : Trx) (txhash : bytes) (exec : bool)
    : GM unit :=
  match tx_Payload tx with
  | Some (TrxPayloadProposal_ p) =>
      let prop := new_proposal vals total p txhash in
      let! l := g_alloc (IProposal prop) in
      gov_Set (LedgerKeyProposal (ph_TxHash (gp_Header prop))) l exec
  | _ => panic
  end.

Definition execVoting (tx : Trx) (exec : bool) : GM unit :=
  match tx_Payload tx with
  | Some (TrxPayloadVoting txhash choice) =>
      let! l := gov_Get (LedgerKeyProposal txhash) exec in
      let! prop := get_prop l in
      let! prop' := lift (DoVote prop (tx_From tx) choice) in
      put_prop l prop' ;;;
      gov_Set (LedgerKeyProposal (ph_TxHash (gp_Header prop'))) l exec
  | _ => panic
  end.

Definition gov_ExecuteTrx (vals : list (Address * Z)) (total : Z) (tx : Trx) (txhash : bytes) (exec : bool)
    : GM unit :=
  if GetType tx =? TRX_PROPOSAL then execProposing vals total tx txhash exec
  else if GetType tx =? TRX_VOTING then execVoting tx exec
  else throw ErrUnknownTrxType.

(** ** The end of a block *)

(** What the callback of [freezeProposals] collects. *)
Record frozen_acc := MkFrozenAcc {
  fa_new : list loc;             (* newFrozens *)
  fa_frozen : list LedgerKey;    (* frozenProps *)
  fa_removed : list LedgerKey;   (* removedProps *)
}.

Definition freeze_one (height : Z) (key : LedgerKey) (l : loc) : M (G * frozen_acc) unit :=
  let! prop := zoom fst_lens (get_prop l) in
  if ph_EndVotingHeight (gp_Header prop) <? height then
    let! prop' := lift (updateMajorOption prop) in
    zoom fst_lens (put_prop l prop') ;;;
    match gp_MajorOption prop' with
    | Some _ => modify (fun '(s, a) =>
        (s, MkFrozenAcc (fa_new a ++ [l]) (fa_frozen a ++ [key]) (fa_removed a)))
    | None => modify (fun '(s, a) =>
        (s, MkFrozenAcc (fa_new a) (fa_frozen a) (fa_removed a ++ [key])))
    end
  else ret tt.

(** The deferred function writes when the iteration is over. *)
Definition freezeProposals (height : Z) : GM (list LedgerKey * list LedgerKey) :=
  let! r := run_var (MkFrozenAcc [] [] [])
    (Seek (lens_comp fst_lens gov_lens) KeyPrefixProposal true (freeze_one height) true) in
  let '(res, acc) := r in
  for_each (fa_new acc) (fun l =>
    let! prop := get_prop l in
    ignore (gov_Set (LedgerKeyFrozenProp (ph_TxHash (gp_Header prop))) l true)) ;;;
  for_each (fa_frozen acc) (fun k => ignore (gov_Del k true)) ;;;
  for_each (fa_removed acc) (fun k => ignore (gov_Del k true)) ;;;
  untry res ;;;
  ret (fa_frozen acc, fa_removed acc).

Definition set_newGovParams (gp : option GovParamsProto) (s : G) : G :=
  MkGovCtrler (govState s) (govParams s) gp.

Definition apply_one (height : Z) (key : LedgerKey) (l : loc) : M (G * list LedgerKey) unit :=
  let! prop := zoom fst_lens (get_prop l) in
  if ph_ApplyHeight (gp_Header prop) <=? height then
    (if ph_PropType (gp_Header prop) =? PROPOSAL_GOVPARAMS then
       match gp_MajorOption prop with
       | None => panic
       | Some o =>
           let! gp := (match json_GovParams (vo_Option o) with
                       | Ok gp => ret gp
                       | Err e => throw (From_ e)
                       | Panic => panic
                       end) in
           modify (fun '(s, a) =>
             (set_newGovParams (Some (GovParams.MergeGovParams (govParams s) gp)) s, a))
       end
     else ret tt) ;;;
    modify (fun '(s, a) => (s, a ++ [key]))
  else ret tt.

Definition applyProposals (height : Z) : GM (list LedgerKey) :=
  let! r := run_var [] (Seek (lens_comp fst_lens gov_lens) KeyPrefixFrozenProp true (apply_one height) true) in
  let '(res, applied) := r in
  let! np := gets newGovParams in
  (match np with
   | Some gp => let! l := g_alloc (IGovParams gp) in ignore (gov_Set LedgerKeyGovParams l true)
   | None => ret tt
   end) ;;;
  for_each applied (fun k => ignore (gov_Del k true)) ;;;
  untry res ;;;
  ret applied.

(** The events name the frozen, removed and applied proposals. *)
Definition gov_EndBlock (height : Z) : GM (list bytes * list bytes * list bytes) :=
  let! fr := freezeProposals height in
  let! applied := applyProposals height in
  let! f := map_each (fst fr) (fun k => lift (UnwrapKeyPrefix k)) in
  let! r := map_each (snd fr) (fun k => lift (UnwrapKeyPrefix k)) in
  let! a := map_each applied (fun k => lift (UnwrapKeyPrefix k)) in
  ret (f, r, a).

Definition gov_Commit : GM (bytes * Z) :=
  let! hv := zoom gov_lens Commit in
  modify (fun s => match newGovParams s with
                   | Some gp => MkGovCtrler (govState s) gp None
                   | None => s
                   end) ;;;
  ret hv.

(** ** Slashing *)

Definition slash_one_prop (addr : Address) (rate : Z) (key : LedgerKey) (l : loc)
    : M (G * (Z * list loc)) unit :=
  let! prop := zoom fst_lens (get_prop l) in
  match findVoter (gp_Header prop) addr with
  | None => ret tt
  | Some _ =>
      let! r := lift (DoSlash prop addr rate) in
      zoom fst_lens (put_prop l (snd r)) ;;;
      modify (fun '(s, (acc, ls)) => (s, (i64 (acc + fst r), ls ++ [l])))
  end.

Definition gov_doSlash (targetAddr : Address) : GM Z :=
  let! gp := gets govParams in
  let! r := run_var (0, []) (Seek (lens_comp fst_lens gov_lens) KeyPrefixProposal true
    (slash_one_prop targetAddr (GovParams.SlashRate gp)) true) in
  let '(_, (slashPower, updated)) := r in
  for_each updated (fun l =>
    let! prop := get_prop l in
    ignore (gov_Set (LedgerKeyProposal (ph_TxHash (gp_Header prop))) l true)) ;;;
  ret slashPower.

Definition gov_BeginBlock (byzantines : list Address) : GM unit :=
  for_each byzantines (fun a => ignore (gov_doSlash a)).

(** ** Queries *)

Definition ReadAllProposals (exec : bool) : GM (list loc) :=
  let! r := run_var [] (Seek (lens_comp fst_lens gov_lens) KeyPrefixProposal true
    (fun _ l => modify (fun '(s, acc) => (s, acc ++ [l]))) exec) in
  let '(res, props) := r in
  match res with
  | inl _ => ret props
  | inr e => if Contains e ErrNotFoundResult then throw ErrNotFoundProposal else throw e
  end.

Definition ReadProposal (txhash : bytes) (exec : bool) : GM loc :=
  let! r := try (gov_Get (LedgerKeyProposal txhash) exec) in
  match r with
  | inl l => ret l
  | inr e => if Contains e ErrNotFoundResult then throw ErrNotFoundProposal else throw e
  end.

End GovOps.
