(* ===== verification/GovInv.v ===== *)
(** * GovInv: the items of the governance ledger

    What a proposal satisfies while it is open and once it is frozen: an open
    proposal counts its votes exactly and has no major option; a frozen one has
    an option that two thirds of the voting power chose.  Voting, slashing and
    the end of the voting keep the proposal's terms, and the ledger stores every
    item under the key of its kind. *)
From stdpp Require Import base gmap list strings.
From Stdlib Require Import ZArith Lia.
From S2P Require Import Prelude XErrors GoMonad LedgerKeys Iavl Ledger LedgerSpec Units Proto GovParams.
From S2P Require Import TrxTypes Proposal ProposalProps GovCtrler.

(** ** The terms of a proposal *)

(** [p'] is the proposal [p] at another time: same terms, same options in
    whatever order. *)
Record kin (p p' : GovProposal) : Prop := {
  kin_type : ph_PropType (gp_Header p') = ph_PropType (gp_Header p);
  kin_hash : ph_TxHash (gp_Header p') = ph_TxHash (gp_Header p);
  kin_start : ph_StartVotingHeight (gp_Header p') = ph_StartVotingHeight (gp_Header p);
  kin_end : ph_EndVotingHeight (gp_Header p') = ph_EndVotingHeight (gp_Header p);
  kin_apply : ph_ApplyHeight (gp_Header p') = ph_ApplyHeight (gp_Header p);
  kin_options : map vo_Option (gp_Options p') ≡ₚ map vo_Option (gp_Options p);
}.

#[global] Instance kin_preorder : PreOrder kin.
Proof.
  split; [done|]. intros p q r [] []. split; try congruence. etransitivity; eassumption.
Qed.

Lemma add_votes_text opts i d opts' :
  add_votes opts i d = Ok opts' -> map vo_Option opts' = map vo_Option opts.
Proof.
  unfold add_votes. destruct (i <? 0); [done|]. destruct (opts !! Z.to_nat i) as [o|] eqn:Ho; [|done].
  intros [= <-]. change (vo_Option <$> <[Z.to_nat i := MkVoteOption (vo_Option o) (i64 (vo_Votes o + d))]> opts = vo_Option <$> opts).
  rewrite list_fmap_insert. apply list_insert_id. now rewrite list_lookup_fmap, Ho.
Qed.

Lemma cancelVote_text opts v opts' v' :
  cancelVote opts v = Ok (opts', v') -> map vo_Option opts' = map vo_Option opts.
Proof.
  unfold cancelVote. destruct (0 <=? _); [|now intros [= <- _]].
  destruct (add_votes _ _ _) as [o| |] eqn:E; cbn; try done. intros [= <- _]. eapply add_votes_text, E.
Qed.

Lemma doVote_text opts v c opts' v' :
  doVote opts v c = Ok (opts', v') -> map vo_Option opts' = map vo_Option opts.
Proof.
  unfold doVote. destruct (0 <=? _); [|now intros [= <- _]].
  destruct (add_votes _ _ _) as [o| |] eqn:E; cbn; try done. intros [= <- _]. eapply add_votes_text, E.
Qed.

Lemma kin_put_votes p addr opts v :
  map vo_Option opts = map vo_Option (gp_Options p) -> kin p (put_votes p addr opts v).
Proof. intros E. split; cbn; try done. now rewrite E. Qed.

Lemma kin_reduce_total p q slash : kin p q -> kin p (reduce_total q slash).
Proof. now intros []. Qed.

Lemma kin_removeVoter p q addr : kin p q -> kin p (with_header q (removeVoter (gp_Header q) addr)).
Proof. intros []. unfold removeVoter. destruct (remove_last_voter _ _); done. Qed.

Lemma DoVote_kin p addr c p' : DoVote p addr c = Ok p' -> kin p p'.
Proof.
  unfold DoVote. destruct (findVoter _ _) as [v|]; [|done]. destruct (_ =? c); [intros [= <-]; reflexivity|].
  destruct (cancelVote _ v) as [[o1 v1]| |] eqn:E1; cbn [obind]; try done.
  destruct (doVote o1 v1 c) as [[o2 v2]| |] eqn:E2; cbn [obind]; try done. intros [= <-].
  apply kin_put_votes. rewrite (doVote_text _ _ _ _ _ E2). eapply cancelVote_text, E1.
Qed.

Lemma DoSlash_kin p addr rate sl p' : DoSlash p addr rate = Ok (sl, p') -> kin p p'.
Proof.
  unfold DoSlash. destruct (findVoter _ _) as [v|]; [|done].
  destruct (if 0 <=? vt_Choice v then _ else _) as [[o1 v1]| |] eqn:E1; cbn [obind]; try done.
  assert (Ho1 : map vo_Option o1 = map vo_Option (gp_Options p)).
  { destruct (0 <=? vt_Choice v); [eapply cancelVote_text, E1|]. now injection E1 as <- <-. }
  cbn [vt_Power]. generalize (if i64 (go_div (i64 (vt_Power v1 * rate)) 100) <=? 0 then vt_Power v1
    else i64 (go_div (i64 (vt_Power v1 * rate)) 100)). intros sl'. destruct (_ <=? 0); cbn [obind].
  - intros [= _ <-]. apply kin_reduce_total, kin_removeVoter, kin_put_votes, Ho1.
  - destruct (0 <=? vt_Choice v); cbn [obind].
    + destruct (doVote _ _ _) as [[o2 v2]| |] eqn:E2; cbn [obind]; try done. intros [= _ <-].
      apply kin_reduce_total, kin_put_votes. now rewrite (doVote_text _ _ _ _ _ E2).
    + intros [= _ <-]. now apply kin_reduce_total, kin_put_votes.
Qed.

Lemma kin_options_length p p' : kin p p' -> length (gp_Options p') = length (gp_Options p).
Proof. intros [_ _ _ _ _ E]. apply Permutation_length in E. now rewrite !length_map in E. Qed.

(** ** Open and frozen proposals *)

(** The integers of the message at their width. *)
Definition voter_ok (v : Voter) : Prop := in_i64 (vt_Power v) /\ in_i32 (vt_Choice v).
Definition option_ok (o : VoteOption) : Prop := in_i64 (vo_Votes o).

Record proposal_ok (p : GovProposal) : Prop := {
  pk_type : in_i32 (ph_PropType (gp_Header p));
  pk_heights : in_i64 (ph_StartVotingHeight (gp_Header p)) /\ in_i64 (ph_EndVotingHeight (gp_Header p)) /\
    in_i64 (ph_ApplyHeight (gp_Header p));
  pk_powers : in_i64 (ph_TotalVotingPower (gp_Header p)) /\ in_i64 (ph_MajorityPower (gp_Header p));
  pk_voters : Forall voter_ok (ph_Voters (gp_Header p));
  pk_options : Forall option_ok (gp_Options p);
  pk_major : from_option option_ok True (gp_MajorOption p);
}.

(** The voters that chose the option [o] of [p] have two thirds of the power;
    they chose it by its place in a list of the options. *)
Definition approved (p : GovProposal) (o : VoteOption) : Prop :=
  exists opts i, opts ≡ₚ gp_Options p /\ opts !! i = Some o /\
    zsum (map vt_Power (ph_Voters (gp_Header p))) * 2 / 3 <= votes_of (Z.of_nat i) (ph_Voters (gp_Header p)).

Lemma approved_elem p o : approved p o -> o ∈ gp_Options p.
Proof. intros (opts & i & <- & Hi & _). eapply list_elem_of_lookup_2, Hi. Qed.

Section Items.
Context `{GovProtos, GovJson}.

(** The options of a proposal on the parameters are parameters. *)
Definition parses (p : GovProposal) : Prop :=
  ph_PropType (gp_Header p) = PROPOSAL_GOVPARAMS ->
  Forall (fun t => exists gp, json_GovParams t = Ok gp) (map vo_Option (gp_Options p)).

Record open_ok (p : GovProposal) : Prop := {
  op_inv : prop_inv p;
  op_nonneg : Forall (fun v => 0 <= vt_Power v) (ph_Voters (gp_Header p));
  op_sum : zsum (map vt_Power (ph_Voters (gp_Header p))) * 100 < 2 ^ 63;
  op_options : 0 < Z.of_nat (length (gp_Options p)) < 2 ^ 31;
  op_none : gp_MajorOption p = None;
  op_type : in_i32 (ph_PropType (gp_Header p));
  op_heights : in_i64 (ph_StartVotingHeight (gp_Header p)) /\ in_i64 (ph_EndVotingHeight (gp_Header p)) /\
    in_i64 (ph_ApplyHeight (gp_Header p));
  op_parses : parses p;
}.

Record frozen_ok (p : GovProposal) : Prop := {
  fz_ok : proposal_ok p;
  fz_parses : parses p;
  fz_approved : exists o, gp_MajorOption p = Some o /\ approved p o;
}.

(** The items stored under a key. *)
Definition gitem_ok (k : bytes) (x : GovItem) : Prop :=
  match x with
  | IGovParams gp => k = LedgerKeyGovParams /\ GovParams.ok gp
  | IProposal p =>
      (k = LedgerKeyProposal (ph_TxHash (gp_Header p)) /\ open_ok p) \/
      (k = LedgerKeyFrozenProp (ph_TxHash (gp_Header p)) /\ frozen_ok p)
  end.

Lemma parses_kin p p' : kin p p' -> parses p -> parses p'.
Proof. intros K Hp Ht. rewrite (kin_options _ _ K). apply Hp. now rewrite <- (kin_type _ _ K). Qed.

Lemma open_powers p : open_ok p -> powers_ok (ph_Voters (gp_Header p)).
Proof. intros []. split; [done|lia]. Qed.

(** Open proposals stay open when their counts do. *)
Lemma open_kin p p' :
  open_ok p -> kin p p' -> prop_inv p' -> Forall (fun v => 0 <= vt_Power v) (ph_Voters (gp_Header p')) ->
  zsum (map vt_Power (ph_Voters (gp_Header p'))) <= zsum (map vt_Power (ph_Voters (gp_Header p))) ->
  gp_MajorOption p' = gp_MajorOption p -> open_ok p'.
Proof.
  intros [] K Hi Hn Hs Hm. split; try done.
  - lia.
  - now rewrite (kin_options_length _ _ K).
  - congruence.
  - now rewrite (kin_type _ _ K).
  - now rewrite (kin_start _ _ K), (kin_end _ _ K), (kin_apply _ _ K).
  - now apply (parses_kin p).
Qed.

Lemma elem_power_le v vs :
  Forall (fun v => 0 <= vt_Power v) vs -> v ∈ vs -> 0 <= vt_Power v <= zsum (map vt_Power vs).
Proof.
  intros Hn Hv. induction Hn as [|w vs Hw Hn IH]; [now apply not_elem_of_nil in Hv|]. cbn [map zsum].
  assert (0 <= zsum (map vt_Power vs)) by (apply zsum_nonneg; now apply Forall_map).
  apply elem_of_cons in Hv as [->|Hv]; [lia|]. specialize (IH Hv). lia.
Qed.

Lemma open_proposal_ok p : open_ok p -> proposal_ok p.
Proof.
  intros Hop. pose proof (powers_total _ (open_powers p Hop)) as Ht. destruct Hop as [Hi Hn Hs Ho Hm Hty Hh _].
  assert (Htot : in_i64 (ph_TotalVotingPower (gp_Header p))) by (rewrite (pi_total _ Hi); apply i64_range).
  split; try done.
  - split; [done|]. rewrite (pi_major _ Hi). apply i64_range.
  - apply Forall_forall. intros v Hv. pose proof (elem_power_le v _ Hn Hv).
    pose proof (proj1 (Forall_forall _ _) (pi_choice _ Hi) v Hv) as Hc. unfold choice_ok in Hc.
    unfold voter_ok, in_i64, in_i32. lia.
  - apply Forall_forall. intros o Hv. apply list_elem_of_lookup in Hv as [i Hv]. unfold option_ok.
    rewrite (pi_votes _ Hi i o Hv). apply i64_range.
  - now rewrite Hm.
Qed.

(** ** Voting, slashing and the end of the voting *)

Lemma DoVote_open p addr c :
  open_ok p -> IsVoter (gp_Header p) addr = true -> 0 <= c < Z.of_nat (length (gp_Options p)) ->
  exists p', DoVote p addr c = Ok p' /\ open_ok p' /\ kin p p'.
Proof.
  intros Hop Hv Hc. unfold IsVoter in Hv. apply existsb_exists in Hv as (w & Hw & Ew).
  destruct (findVoter (gp_Header p) addr) as [v|] eqn:Hf.
  2: { unfold findVoter in Hf. now rewrite (find_none _ _ Hf w Hw) in Ew. }
  destruct (DoVote_ok p addr v c (op_inv _ Hop) Hf Hc) as (opts & Hl & E & Ht).
  eexists. split; [exact E|]. pose proof (DoVote_kin _ _ _ _ E) as K. split; [|done].
  pose proof (op_nonneg _ Hop) as Hn. unfold findVoter in Hf. destruct (find_voter_inv _ _ _ Hf) as [Hin _].
  apply (open_kin p); try done.
  - apply put_votes_inv; try done. apply Hop.
  - cbn. apply put_voter_Forall; [done|]. exact (proj1 (Forall_forall _ _) Hn v Hin).
  - cbn. rewrite (put_voter_sum addr _ vt_Power _ v Hf). cbn. lia.
Qed.

Lemma removeVoter_sub h addr : forall v, v ∈ ph_Voters (removeVoter h addr) -> v ∈ ph_Voters h.
Proof.
  intros v. unfold removeVoter. destruct (remove_last_voter addr _) as [r|] eqn:E; [|done]. cbn. revert r E.
  induction (ph_Voters h) as [|w vs IH]; intros r; cbn; [done|].
  destruct (remove_last_voter addr vs) as [r'|]; [|destruct (is_voter addr w)]; intros [= <-]; set_solver.
Qed.

Lemma removeVoter_sum h addr :
  Forall (fun v => 0 <= vt_Power v) (ph_Voters h) ->
  zsum (map vt_Power (ph_Voters (removeVoter h addr))) <= zsum (map vt_Power (ph_Voters h)).
Proof.
  unfold removeVoter. destruct (remove_last_voter addr _) as [r|] eqn:E; [|done]. cbn. revert r E.
  induction (ph_Voters h) as [|w vs IH]; intros r; cbn; [done|].
  destruct (remove_last_voter addr vs) as [r'|]; [|destruct (is_voter addr w)]; intros [= <-] [Hw Hn]%Forall_cons.
  - cbn. specialize (IH r' eq_refl Hn). lia.
  - lia.
Qed.

Lemma DoSlash_open p addr v rate :
  open_ok p -> findVoter (gp_Header p) addr = Some v -> 0 <= rate <= 100 ->
  exists sl p', DoSlash p addr rate = Ok (sl, p') /\ open_ok p' /\ kin p p'.
Proof.
  intros Hop Hf Hr. pose proof (op_nonneg _ Hop) as Hn. pose proof (op_sum _ Hop) as Hs.
  destruct (find_voter_inv _ _ _ Hf) as [Hin _]. pose proof (elem_power_le v _ Hn Hin) as Hv.
  destruct (DoSlash_inv p addr v rate (op_inv _ Hop) Hf) as (p' & E & Hi & _); [lia..|].
  destruct (DoSlash_ok p addr v rate (op_inv _ Hop) Hf) as (opts & w & _ & Hw & _ & _ & _ & E'); [lia..|].
  destruct (slash_of_range (vt_Power v) rate) as [Hsl _]; [lia..|].
  eexists _, p'. split; [exact E|]. pose proof (DoSlash_kin _ _ _ _ _ E) as K. split; [|done].
  set (p1 := put_votes p addr opts w) in *. cbn zeta in E'.
  assert (Hp1 : Forall (fun v => 0 <= vt_Power v) (ph_Voters (gp_Header p1)) /\
    zsum (map vt_Power (ph_Voters (gp_Header p1))) <= zsum (map vt_Power (ph_Voters (gp_Header p)))).
  { cbn. split; [apply put_voter_Forall; [done|lia]|]. rewrite (put_voter_sum addr w vt_Power _ v Hf). lia. }
  rewrite E in E'. injection E' as ->. destruct Hp1 as [Hn1 Hs1]. apply (open_kin p); try done.
  - destruct (_ <=? _); [|done]. cbn. rewrite Forall_forall in *. intros u Hu. now apply Hn1, (removeVoter_sub _ addr).
  - destruct (_ <=? _); [|done]. cbn. etransitivity; [now apply removeVoter_sum|done].
  - now destruct (_ <=? _).
Qed.

(** At the end of the voting a proposal has a major option that two thirds of
    the power chose, or every option has less. *)
Lemma updateMajorOption_open p :
  open_ok p ->
  exists p', updateMajorOption p = Ok p' /\ kin p p' /\ gp_Header p' = gp_Header p /\
    match gp_MajorOption p' with
    | Some _ => frozen_ok p'
    | None => forall i, (i < length (gp_Options p))%nat ->
        votes_of (Z.of_nat i) (ph_Voters (gp_Header p)) < zsum (map vt_Power (ph_Voters (gp_Header p))) * 2 / 3
    end.
Proof.
  intros Hop. pose proof (open_powers p Hop) as Hpow. pose proof (op_inv _ Hop) as Hi.
  pose proof (majority_exact p Hi Hpow) as Em. unfold updateMajorOption.
  destruct (go_sort more_votes (gp_Options p)) as [|o rest] eqn:Es.
  { pose proof (length_go_sort more_votes (gp_Options p)) as Hl. rewrite Es in Hl. cbn in Hl.
    pose proof (op_options _ Hop). lia. }
  assert (Hperm : o :: rest ≡ₚ gp_Options p) by (rewrite <- Es; apply go_sort_perm).
  set (p' := MkGovProposal _ _ _). assert (K : kin p p').
  { split; try done. change (vo_Option <$> o :: rest ≡ₚ vo_Option <$> gp_Options p). now rewrite Hperm. }
  exists p'. split; [done|]. split; [done|]. split; [done|]. unfold p'. cbn [gp_MajorOption]. rewrite Em, (op_none _ Hop).
  assert (Ho : o ∈ gp_Options p) by (rewrite <- Hperm; now left). apply list_elem_of_lookup in Ho as [i Ho].
  destruct (Z.leb_spec (zsum (map vt_Power (ph_Voters (gp_Header p))) * 2 / 3) (vo_Votes o)) as [Hle|Hlt].
  - destruct (open_proposal_ok p Hop) as [Hty Hh Hpw Hvo Hopts _]. split.
    + split; try done; cbn.
      * now rewrite Hperm.
      * exact (proj1 (Forall_forall _ _) Hopts o (list_elem_of_lookup_2 _ _ _ Ho)).
    + exact (parses_kin p p' K (op_parses _ Hop)).
    + exists o. split; [done|].
      exists (gp_Options p), i. split; [done|]. split; [done|]. cbn. now rewrite <- (votes_exact p i o).
  - intros j Hj. apply lookup_lt_is_Some in Hj as [o' Ho'].
    pose proof (go_sort_head o _ rest o' Es (list_elem_of_lookup_2 _ _ _ Ho')).
    rewrite <- (votes_exact p j o') by done. lia.
Qed.

(** ** New proposals *)

(** What [VPowerHandler.Validators] answers: the validators, with powers that
    leave room for a percentage, and the sum. *)
Record vals_ok (vals : list (Address * Z)) (total : Z) : Prop := {
  va_nodup : NoDup (map fst vals);
  va_nonneg : Forall (fun v => 0 <= snd v) vals;
  va_total : total = zsum (map snd vals);
  va_room : total * 100 < 2 ^ 63;
}.

Definition fresh_voter (v : Address * Z) : Voter := MkVoter (fst v) (snd v) NOT_CHOICE.
Definition fresh_option (t : bytes) : VoteOption := MkVoteOption t 0.

Lemma fold_AddVoter vals : forall q,
  NoDup (map vt_Address (ph_Voters (gp_Header q)) ++ map fst vals) ->
  fold_left (fun q v => AddVoter q (fst v) (snd v)) vals q =
  with_header q (with_voters (gp_Header q) (ph_Voters (gp_Header q) ++ map fresh_voter vals)).
Proof.
  induction vals as [|v vals IH]; intros q Hn; cbn [fold_left map].
  - rewrite app_nil_r. now destruct q as [[]].
  - assert (Hf : findVoter (gp_Header q) (fst v) = None).
    { destruct (findVoter _ _) as [w|] eqn:Hf; [|done]. destruct (find_voter_inv _ _ _ Hf) as [Hw Ew].
      apply NoDup_app in Hn as (_ & Hd & _). destruct (Hd (fst v)); [|now left].
      rewrite <- Ew. now apply list_elem_of_fmap_2. }
    unfold AddVoter, addVoter. rewrite Hf. rewrite IH; cbn.
    + now rewrite <- app_assoc.
    + rewrite map_app. cbn. rewrite <- app_assoc. exact Hn.
Qed.

Lemma fold_AddOption opts : forall q,
  fold_left AddOption opts q =
  MkGovProposal (gp_Header q) (gp_Options q ++ map fresh_option opts) (gp_MajorOption q).
Proof.
  induction opts as [|o opts IH]; intros q; cbn [fold_left map].
  - rewrite app_nil_r. now destruct q.
  - rewrite IH. unfold AddOption. cbn. now rewrite <- app_assoc.
Qed.

Lemma new_proposal_eq vals total p txhash :
  NoDup (map fst vals) ->
  new_proposal vals total p txhash =
  MkGovProposal
    (MkProposalHeader (pp_OptType p) txhash (pp_StartVotingHeight p)
       (i64 (pp_StartVotingHeight p + pp_VotingPeriodBlocks p)) (pp_ApplyingHeight p) total (majority_of total)
       (map fresh_voter vals))
    (map fresh_option (pp_Options p)) None.
Proof. intros Hn. unfold new_proposal. now rewrite fold_AddVoter, fold_AddOption. Qed.

Lemma votes_of_fresh i vals : 0 <= i -> votes_of i (map fresh_voter vals) = 0.
Proof.
  intros Hi. unfold votes_of. induction vals as [|v vals IH]; cbn [map zsum]; [done|].
  rewrite IH. cbn [fresh_voter vt_Choice]. unfold NOT_CHOICE. destruct (Z.eqb_spec (-1) i); lia.
Qed.

(** The integers of the payload are of their types, and the options can be
    counted by an [int32]. *)
Definition proposal_payload_ok (p : TrxPayloadProposal) : Prop :=
  in_i64 (pp_StartVotingHeight p) /\ in_i64 (pp_ApplyingHeight p) /\ in_i32 (pp_OptType p) /\
  Z.of_nat (length (pp_Options p)) < 2 ^ 31.

Lemma check_options_parse opts :
  check_options opts = Ok tt -> Forall (fun t => exists gp, json_GovParams t = Ok gp) opts.
Proof.
  induction opts as [|o opts IH]; cbn; [done|]. destruct (json_GovParams o) eqn:E; try done. eauto.
Qed.

Lemma check_proposal_inv gp p height :
  check_proposal gp p height = Ok tt ->
  pp_Options p <> [] /\
  (pp_OptType p = PROPOSAL_GOVPARAMS -> Forall (fun t => exists gp, json_GovParams t = Ok gp) (pp_Options p)).
Proof.
  unfold check_proposal. destruct (_ <=? height); [done|]. destruct (_ || _); [done|].
  destruct (Z.eqb_spec (pp_OptType p) PROPOSAL_GOVPARAMS) as [Ht|Ht].
  - destruct (check_options (pp_Options p)) as [[]| |] eqn:E; cbn [obind]; try done.
    destruct (_ <? _); [done|]. destruct (_ || _); [done|]. destruct (pp_Options p); [done|].
    intros _. split; [done|]. intros _. now apply check_options_parse.
  - cbn [obind]. destruct (_ <? _); [done|]. destruct (_ || _); [done|]. now destruct (pp_Options p).
Qed.

Lemma new_proposal_open vals total p txhash gp height :
  vals_ok vals total -> proposal_payload_ok p -> check_proposal gp p height = Ok tt ->
  open_ok (new_proposal vals total p txhash).
Proof.
  intros [Hn Hp Ht Hr] (Hs & Ha & Hty & Hl) Hc. destruct (check_proposal_inv gp p height Hc) as [Hne Hpar].
  assert (Hsum : zsum (map vt_Power (map fresh_voter vals)) = total) by now rewrite map_map.
  assert (Ht0 : 0 <= total) by (rewrite Ht; apply zsum_nonneg; now apply Forall_map).
  rewrite new_proposal_eq by done. split; cbn.
  - split; cbn.
    + now rewrite map_map.
    + apply Forall_map, Forall_forall. intros v _. unfold choice_ok, fresh_voter, NOT_CHOICE. cbn. lia.
    + intros i o Ho. apply list_lookup_fmap_Some in Ho as (t & -> & _). now rewrite votes_of_fresh by lia.
    + rewrite Hsum. symmetry. apply i64_id. unfold in_i64. lia.
    + done.
  - now apply Forall_map.
  - lia.
  - rewrite length_map. destruct (pp_Options p); [done|]. cbn [length] in *. lia.
  - done.
  - done.
  - split; [done|]. split; [apply i64_range|done].
  - intros E. cbn in *. rewrite map_map. cbn. rewrite map_id. auto.
Qed.

End Items.

(** ** The laws of the items *)

Class GovProtosLaws `{GovProtos} : Prop := {
  gpl_params :: ProtoLaws GovParamsProto GovParams.ok;
  gpl_proposal :: ProtoLaws GovProposal proposal_ok;
}.

(** Parsed integers fit the fields they are parsed into. *)
Class GovJsonLaws `{GovJson} : Prop :=
  json_ok : forall b gp, json_GovParams b = Ok gp -> GovParams.ok gp.

Section Laws.
Context `{GovProtos, !GovProtosLaws, GovJson}.

#[export, refine] Instance GovItem_laws : LedgerItemLaws GovItem := { item_ok := gitem_ok }.
Proof.
  intros k [gp|p]; cbn; unfold decode_at; cbn.
  - intros [-> Hok]. destruct (proto_roundtrip gp Hok) as (b & Hm & Hu). exists b. now rewrite Hm; cbn; rewrite Hu.
  - intros Hk. assert (Hok : proposal_ok p) by (destruct Hk as [[_ Ho]|[_ Ho]]; [now apply open_proposal_ok|apply Ho]).
    destruct (proto_roundtrip p Hok) as (b & Hm & Hu). exists b. rewrite Hm. split; [done|].
    destruct Hk as [[-> _]|[-> _]]; cbn; now rewrite Hu.
Defined.

End Laws.
