(* ===== verification/GovWp.v ===== *)
(** * GovWp: what the governance controller does to its ledger

    The rules for the controller's reads and writes, the proposals an iteration
    visits, and for each operation the items it leaves: creating and voting,
    slashing, freezing the proposals whose voting has ended and applying the
    frozen ones at their height. *)
From stdpp Require Import base gmap list strings.
From Stdlib Require Import ZArith Lia Sorted.
From S2P Require Import Prelude XErrors GoMonad LedgerKeys Iavl Ledger LedgerSpec LedgerOps Units Proto.
From S2P Require Import GovParams TrxTypes Proposal ProposalProps GovCtrler GovInv.

Abbreviation gov_map := (gmap bytes GovItem).

Definition prop_hash (p : GovProposal) : bytes := ph_TxHash (gp_Header p).

(** Where a proposal is stored while it is open, and once it is frozen. *)
Definition okey (p : GovProposal) : LedgerKey := LedgerKeyProposal (prop_hash p).
Definition fkey (p : GovProposal) : LedgerKey := LedgerKeyFrozenProp (prop_hash p).
Arguments okey : simpl never.
Arguments fkey : simpl never.

Section Rules.
Context {T I : Type} `{Iavl T I, !IavlLaws T I}.
Context `{GovProtos, !GovProtosLaws, GovJson}.
Implicit Types (s : GovCtrler T I) (m : gov_map) (D : gset bytes).

Abbreviation gcoh D s m := (coh D (govState s) m).

Definition params s : GovParamsProto * option GovParamsProto := (govParams s, newGovParams s).

(** The object at [l] is [x] and in no cache. *)
Definition free (ls : LState GovItem T I) (l : loc) (x : GovItem) : Prop := forall k, held ls k l x.

Lemma free_uncached ls l x : free ls l x -> uncached ls l.
Proof.
  intros Hl k Hk. destruct (Hl (k ++ [0])) as [_ Ho]. apply Ho in Hk.
  apply (f_equal length) in Hk. rewrite length_app in Hk. cbn in Hk. lia.
Qed.

Lemma free_frames ls ls' e l x : frames ls ls' e -> Some l <> e -> free ls l x -> free ls' l x.
Proof. intros [F _] Hne Hl k. now apply F. Qed.

Lemma free_assign_rule D ls m l y x Q :
  coh D ls m -> free ls l y ->
  (forall ls', coh D ls' m -> free ls' l x -> frames ls ls' (Some l) -> Q (Ok tt) ls') ->
  wp (l_assign l x) Q ls.
Proof.
  intros HC Hl HQ. pose proof (free_uncached _ _ _ Hl) as Hu. destruct (Hl []) as [Hy _].
  apply (wp_assign_uncached D ls m); [done|eauto|done|]. intros ls' HC' Hh Hled. apply HQ; [done| |].
  - intros k. split; [now rewrite Hh, lookup_insert_eq|]. intros k' Hk'. unfold cached in Hk'. rewrite Hled in Hk'.
    now destruct (Hu k').
  - split; [|now rewrite Hled]. intros k' l' z Hne [Hz Ho']. split.
    + rewrite Hh, lookup_insert_ne; [done|]. congruence.
    + intros k''. unfold cached. rewrite Hled. apply Ho'.
Qed.

Lemma get_prop_rule s k l p Q :
  held (govState s) k l (IProposal p) -> Q (Ok p) s -> wp (get_prop l) Q s.
Proof.
  intros Hl HQ. apply wp_bind, wp_zoom. cbn [lget gov_lens]. apply (held_deref_rule _ k l _ _ Hl).
  apply wp_ret. now destruct s.
Qed.

Lemma gov_del_rule s m k Q :
  gcoh ∅ s m -> k <> [] ->
  (forall s', gcoh ∅ s' (delete k m) -> params s' = params s -> Q (Ok tt) s') ->
  wp (gov_Del k true) Q s.
Proof.
  intros HC Hk HQ. apply wp_zoom. cbn [lget gov_lens]. apply (held_del_rule ∅ _ m); [done|done|].
  intros ls HC' _. rewrite dirty_nil in HC'. now apply HQ.
Qed.

Lemma gov_set_free_rule s m k l x Q :
  gcoh ∅ s m -> k <> [] -> free (govState s) l x -> gitem_ok k x ->
  (forall s', gcoh ∅ s' (<[k := x]> m) -> frames (govState s) (govState s') (Some l) -> params s' = params s ->
    Q (Ok tt) s') ->
  wp (gov_Set k l true) Q s.
Proof.
  intros HC Hk Hl Hok HQ. apply wp_zoom. cbn [lget gov_lens]. apply (held_set_rule ∅ _ m k l x); try done.
  intros ls HC' _ F. rewrite dirty_nil in HC'. now apply HQ.
Qed.

(** Every item of a coherent ledger is stored under the key of its kind. *)
Lemma gov_typed D s m k x : gcoh D s m -> m !! k = Some x -> gitem_ok k x.
Proof.
  intros HC Hk. now destruct (represents_lookup _ _ _ _ (coh_tree _ _ _ HC) Hk) as (b & _ & [Hok _]).
Qed.

Lemma gov_open_ok D s m x p : gcoh D s m -> m !! LedgerKeyProposal x = Some (IProposal p) -> prop_hash p = x /\ open_ok p.
Proof.
  intros HC Hk. destruct (gov_typed D s m _ _ HC Hk) as [[E Ho]|[E _]]; [|done]. split; [|done].
  unfold prop_hash. now injection E.
Qed.

Lemma gov_frozen_ok D s m x p : gcoh D s m -> m !! LedgerKeyFrozenProp x = Some (IProposal p) -> prop_hash p = x /\ frozen_ok p.
Proof.
  intros HC Hk. destruct (gov_typed D s m _ _ HC Hk) as [[E _]|[E Ho]]; [done|]. split; [|done].
  unfold prop_hash. now injection E.
Qed.

(** ** Iterating over proposals *)

(** [ps] are the proposals stored under the keys with prefix [pre], in the order
    of their hashes. *)
Record listing (m : gov_map) (pre : bytes) (ps : list GovProposal) : Prop := {
  ls_in : forall p, p ∈ ps <-> m !! (pre ++ prop_hash p) = Some (IProposal p);
  ls_nodup : NoDup (map prop_hash ps);
  ls_sorted : StronglySorted (fun p q => 0 <= bytes_Compare (prop_hash q) (prop_hash p)) ps;
}.

Definition entry (pre : bytes) (kv : bytes * bytes) (p : GovProposal) : Prop :=
  fst kv = pre ++ prop_hash p /\ decode_at (fst kv) (snd kv) = Ok (IProposal p).

(** A prefix of keys under which only proposals are stored. *)
Definition prop_prefix (pre : bytes) : Prop := pre = KeyPrefixProposal \/ pre = KeyPrefixFrozenProp.

Lemma prop_prefix_item pre k x :
  prop_prefix pre -> gitem_ok k x -> bytes_HasPrefix k pre = true ->
  exists p, x = IProposal p /\ k = pre ++ prop_hash p.
Proof.
  intros Hpre Hok Hk. apply bytes_HasPrefix_spec in Hk as [t Ht].
  destruct x as [gp|p]; cbn in Hok; [destruct Hok as [-> _], Hpre; now subst|].
  exists p. split; [done|]. destruct Hok as [[-> _]|[-> _]], Hpre; subst; done.
Qed.

Lemma Forall_choice {A B} (R : A -> B -> Prop) (l : list A) :
  Forall (fun a => exists b, R a b) l -> exists l', Forall2 R l l'.
Proof.
  induction 1 as [|a l [b Hb] _ [l' IH]]; [exists []; constructor|]. exists (b :: l'). now constructor.
Qed.

Lemma listing_sorted pre kvs ps :
  prop_prefix pre -> Forall2 (entry pre) kvs ps -> StronglySorted (not_after key_less) kvs ->
  StronglySorted (fun p q => 0 <= bytes_Compare (prop_hash q) (prop_hash p)) ps.
Proof.
  intros Hpre HF. induction HF as [|kv p kvs ps [E _] HF IH]; intros Hs; [constructor|].
  inversion Hs as [|? ? Hs' Hall]; subst. constructor; [auto|]. clear IH Hs Hs'.
  induction HF as [|kv' p' kvs ps [E' _] HF IH]; [constructor|].
  apply Forall_cons in Hall as [Hh Hall]. constructor; [|auto].
  unfold not_after, key_less in Hh. rewrite E, E' in Hh. apply Z.ltb_ge in Hh. now destruct Hpre; subst.
Qed.

Lemma listing_exists D s m pre :
  gcoh D s m -> prop_prefix pre ->
  exists ps, listing m pre ps /\ Forall2 (entry pre) (with_prefix (exec_contents (govState s)) pre) ps.
Proof.
  intros HC Hpre. set (kvs := with_prefix (exec_contents (govState s)) pre).
  destruct (Forall_choice (entry pre) kvs) as [ps HF].
  { apply Forall_forall. intros [k b] Hin. apply elem_of_with_prefix in Hin as [Hb Hk].
    pose proof (coh_tree _ _ _ HC k) as Hr. rewrite Hb in Hr. inversion Hr as [? x Hst E1 E2|]; subst.
    destruct (prop_prefix_item pre k x Hpre (proj1 Hst) Hk) as (p & -> & ->). exists p. split; [done|].
    apply (stored_decode _ _ _ Hst). }
  exists ps. split; [|done].
  assert (Ek : map fst kvs = map (fun p => pre ++ prop_hash p) ps)
    by (clear -HF; induction HF as [|? ? ? ? [E _] _ IH]; cbn; congruence).
  split.
  - intros p. split.
    + intros [i Hi]%list_elem_of_lookup. destruct (Forall2_lookup_r _ _ _ _ _ HF Hi) as ([k b] & Hkv & E & Hd).
      apply list_elem_of_lookup_2, elem_of_with_prefix in Hkv as [Hb _]. cbn in E, Hd. subst k.
      eapply coh_stored; eassumption.
    + intros Hp. destruct (represents_lookup _ _ _ _ (coh_tree _ _ _ HC) Hp) as (b & Hb & Hst).
      assert (Hin : (pre ++ prop_hash p, b) ∈ kvs).
      { apply elem_of_with_prefix. split; [done|]. apply bytes_HasPrefix_spec. eauto. }
      apply list_elem_of_lookup in Hin as [i Hi]. destruct (Forall2_lookup_l _ _ _ _ _ HF Hi) as (q & Hq & _ & Hd).
      cbn in Hd. rewrite (stored_decode _ _ _ Hst) in Hd. injection Hd as <-. eapply list_elem_of_lookup_2, Hq.
  - pose proof (NoDup_with_prefix (exec_contents (govState s)) pre) as Hn. fold kvs in Hn. rewrite Ek in Hn.
    rewrite <- (map_map prop_hash (app pre)) in Hn. now apply NoDup_fmap_1 in Hn.
  - apply (listing_sorted pre kvs); [done..|apply with_prefix_sorted].
Qed.

(** An iteration over the proposals [ps]: every visit gets its proposal as a new
    object. *)
Lemma wp_Seek_props {B} D s m pre (b : B) ps cb (J : list GovProposal -> GovCtrler T I * B -> Prop) :
  gcoh D s m -> Forall2 (entry pre) (with_prefix (exec_contents (govState s)) pre) ps ->
  J [] (s, b) -> (forall ps0 st, J ps0 st -> gcoh D (fst st) m) ->
  (forall ps0 p l st ls, J ps0 st -> p ∈ ps -> coh D ls m -> free ls l (IProposal p) ->
    frames (govState (fst st)) ls None -> heap (govState (fst st)) !! l = None ->
    wp (cb (pre ++ prop_hash p) l) (okQ (fun _ => J (ps0 ++ [p])))
      (MkGovCtrler ls (govParams (fst st)) (newGovParams (fst st)), snd st)) ->
  wp (Seek (lens_comp fst_lens gov_lens) pre true cb true) (okQ (fun _ => J ps)) (s, b).
Proof.
  intros HC HF HJ0 HJ Hcb. unfold wp at 1. rewrite Seek_visits_aux. cbn [lget lens_comp fst_lens gov_lens fst].
  change (wp (for_each (with_prefix (exec_contents (govState s)) pre) (visit (lens_comp fst_lens gov_lens) cb))
    (okQ (fun _ => J ps)) (s, b)).
  set (P := fun rest st => exists ps0 psr, ps = ps0 ++ psr /\ Forall2 (entry pre) rest psr /\ J ps0 st).
  eapply wp_mono; [apply (wp_for_each _ _ P)|].
  - exists [], ps. done.
  - intros [k v] rest [s1 b1] (ps0 & psr & E & HFr & HJ1).
    inversion HFr as [|? p ? psr' [Ek Hd] HFr']; subst. cbn [fst snd] in *. subst k.
    apply wp_bind, wp_lift. cbn [fst snd]. rewrite Hd.
    apply wp_bind, wp_zoom. cbn [lget lens_comp fst_lens gov_lens fst].
    apply (held_alloc_rule D _ m); [exact (HJ _ _ HJ1)|]. intros l ls HC2 Hl _ F2 _ Hn.
    eapply wp_mono; [apply (Hcb ps0 p l (s1, b1) ls); try done; set_solver|].
    intros [[]|e|] st; cbn [okQ]; try done. intros HJ2. exists (ps0 ++ [p]), psr'. rewrite <- app_assoc. done.
  - intros [[]|e|] st; cbn [okQ]; try done. intros (ps0 & psr & -> & HFr & HJ1). inversion HFr; subst.
    now rewrite app_nil_r.
Qed.

(** ** Freezing *)

(** The proposal as it is frozen after height [h], when its voting has ended
    with a majority. *)
Definition won (h : Z) (p : GovProposal) : option GovProposal :=
  if ph_EndVotingHeight (gp_Header p) <? h then
    match updateMajorOption p with
    | Ok p' => match gp_MajorOption p' with Some _ => Some p' | None => None end
    | _ => None
    end
  else None.

(** The voting has ended without one. *)
Definition lost (h : Z) (p : GovProposal) : bool :=
  (ph_EndVotingHeight (gp_Header p) <? h) && negb (bool_decide (is_Some (won h p))).

Lemma won_frozen h p p' :
  open_ok p -> won h p = Some p' -> frozen_ok p' /\ kin p p' /\ gp_Header p' = gp_Header p.
Proof.
  intros Hop. unfold won. destruct (_ <? h); [|done].
  destruct (updateMajorOption_open p Hop) as (q & -> & K & Eh & Hm). destruct (gp_MajorOption q); [|done].
  now intros [= <-].
Qed.

Definition freezing s m h (ps0 : list GovProposal) (st : GovCtrler T I * frozen_acc) : Prop :=
  gcoh ∅ (fst st) m /\ params (fst st) = params s /\ NoDup (fa_new (snd st)) /\
  Forall2 (fun l p => free (govState (fst st)) l (IProposal p)) (fa_new (snd st)) (omap (won h) ps0) /\
  fa_frozen (snd st) = map okey (omap (won h) ps0) /\
  fa_removed (snd st) = map okey (filter (fun p => lost h p = true) ps0).

Lemma free_all_frames ls ls' e (locs : list loc) (qs : list GovProposal) :
  frames ls ls' e -> (forall l, l ∈ locs -> Some l <> e) ->
  Forall2 (fun l p => free ls l (IProposal p)) locs qs -> Forall2 (fun l p => free ls' l (IProposal p)) locs qs.
Proof.
  intros F Hne HF. induction HF as [|l p locs qs Hl HF IH]; constructor.
  - eapply free_frames; [exact F|apply Hne; now left|done].
  - apply IH. intros l' Hl'. apply Hne. now right.
Qed.

(** Allocated objects are not the new one. *)
Lemma free_all_fresh ls (locs : list loc) (qs : list GovProposal) l :
  Forall2 (fun l p => free ls l (IProposal p)) locs qs -> heap ls !! l = None -> l ∉ locs.
Proof.
  intros HF Hn [i Hi]%list_elem_of_lookup. destruct (Forall2_lookup_l _ _ _ _ _ HF Hi) as (p & _ & Hf).
  destruct (Hf []) as [Hl _]. congruence.
Qed.

Lemma wp_freeze_one s m h ps0 p l st ls :
  freezing s m h ps0 st -> open_ok p -> coh ∅ ls m -> free ls l (IProposal p) ->
  frames (govState (fst st)) ls None -> heap (govState (fst st)) !! l = None ->
  wp (freeze_one h (okey p) l) (okQ (fun _ => freezing s m h (ps0 ++ [p])))
    (MkGovCtrler ls (govParams (fst st)) (newGovParams (fst st)), snd st).
Proof.
  intros (HC1 & Hp1 & Hnd & HF & Ef & Er) Hop HC Hl F Hn. destruct st as [s1 a]. cbn [fst snd] in *.
  pose proof (free_all_fresh _ _ _ _ HF Hn) as Hfresh.
  assert (HF2 : Forall2 (fun l p => free ls l (IProposal p)) (fa_new a) (omap (won h) ps0)).
  { apply (free_all_frames _ _ None _ _ F); [done|exact HF]. }
  apply wp_bind, wp_zoom. cbn [lget fst_lens fst]. apply (get_prop_rule _ [] l p); [apply Hl|]. cbn [lset fst_lens snd].
  unfold freezing. rewrite omap_app, filter_app, map_app. cbn [omap list_omap]. rewrite filter_cons, filter_nil.
  destruct (ph_EndVotingHeight (gp_Header p) <? h) eqn:Eend.
  2: { assert (Ew : won h p = None) by (unfold won; now rewrite Eend).
       assert (El : lost h p = false) by (unfold lost; now rewrite Eend).
       apply wp_ret. cbn. rewrite Ew, El. cbn. rewrite !app_nil_r. now split_and!. }
  destruct (updateMajorOption_open p Hop) as (p' & Eu & K & Eh & Hm).
  assert (Ew : won h p = if gp_MajorOption p' then Some p' else None)
    by (unfold won; rewrite Eend, Eu; now destruct (gp_MajorOption p')).
  assert (El : lost h p = negb (bool_decide (is_Some (won h p)))) by (unfold lost; now rewrite Eend).
  rewrite El, Ew, Eu.
  apply wp_bind, wp_lift, wp_bind, wp_zoom. cbn [lget fst_lens fst]. apply wp_zoom. cbn [lget gov_lens govState].
  apply (free_assign_rule ∅ _ m l (IProposal p)); [done..|]. intros ls' HC' Hl' F'. cbn [lset gov_lens fst_lens snd].
  assert (HF3 : Forall2 (fun l p => free ls' l (IProposal p)) (fa_new a) (omap (won h) ps0)).
  { apply (free_all_frames _ _ _ _ _ F'); [|exact HF2]. intros l0 Hl0 E. injection E as <-. done. }
  assert (Ek : okey p = okey p') by (unfold okey, prop_hash; now rewrite Eh).
  destruct (gp_MajorOption p') as [o|]; apply wp_modify; cbn; rewrite ?app_nil_r.
  - split_and!; try done.
    + apply NoDup_app. split; [done|]. split; [|apply NoDup_singleton]. set_solver.
    + apply Forall2_app; [done|]. constructor; [exact Hl'|constructor].
    + now rewrite ?map_app, Ef, Ek.
  - split_and!; try done. now rewrite ?map_app, Er.
Qed.

(** Storing a proposal under a key of its hash. *)
Definition put_at (key : bytes -> LedgerKey) (m : gov_map) (p : GovProposal) : gov_map :=
  <[key (prop_hash p) := IProposal p]> m.

Lemma wp_put_props key locs qs : forall s m,
  gcoh ∅ s m -> NoDup locs -> Forall2 (fun l p => free (govState s) l (IProposal p)) locs qs ->
  Forall (fun p => key (prop_hash p) <> [] /\ gitem_ok (key (prop_hash p)) (IProposal p)) qs ->
  wp (for_each locs (fun l =>
        let! prop := get_prop l in
        ignore (gov_Set (key (ph_TxHash (gp_Header prop))) l true)))
    (okQ (fun _ s' => gcoh ∅ s' (fold_left (put_at key) qs m) /\ params s' = params s)) s.
Proof.
  revert qs. induction locs as [|l locs IH]; intros qs s m HC Hn HF Hok; inversion HF as [|? p ? qs' Hl HF']; subst.
  { now apply wp_ret. }
  apply NoDup_cons in Hn as [Hnin Hn]. apply Forall_cons in Hok as [[Hk Hp] Hok].
  cbn [for_each fold_left]. apply wp_bind, wp_bind, (get_prop_rule _ [] l p); [apply Hl|].
  apply wp_ignore, (gov_set_free_rule s m _ l (IProposal p)); [done..|].
  intros s1 HC1 F1 Hp1. eapply wp_mono; [apply (IH qs' s1 _ HC1 Hn); [|done]|].
  - apply (free_all_frames _ _ _ _ _ F1); [|done]. intros l' Hl' E. now injection E as <-.
  - intros [[]|e|] s2; cbn [okQ]; try done. intros [HC2 Hp2]. split; [exact HC2|congruence].
Qed.

Lemma wp_del_keys ks : forall s m,
  gcoh ∅ s m -> Forall (fun k => k <> []) ks ->
  wp (for_each ks (fun k => ignore (gov_Del k true)))
    (okQ (fun _ s' => gcoh ∅ s' (fold_left (fun m k => delete k m) ks m) /\ params s' = params s)) s.
Proof.
  induction ks as [|k ks IH]; intros s m HC Hk; cbn [for_each fold_left]; [now apply wp_ret|].
  apply Forall_cons in Hk as [Hk Hks]. apply wp_bind, wp_ignore, (gov_del_rule s m); [done..|].
  intros s1 HC1 Hp1. eapply wp_mono; [apply (IH s1 _ HC1 Hks)|].
  intros [[]|e|] s2; cbn [okQ]; try done. intros [HC2 Hp2]. split; [exact HC2|congruence].
Qed.

(** What is stored for the proposal [x] after freezing at height [h]. *)
Definition open_after (h : Z) (m : gov_map) (x : bytes) : option GovItem :=
  match m !! LedgerKeyProposal x with
  | Some (IProposal p) => if ph_EndVotingHeight (gp_Header p) <? h then None else Some (IProposal p)
  | y => y
  end.

Definition frozen_after (h : Z) (m : gov_map) (x : bytes) : option GovItem :=
  match m !! LedgerKeyProposal x with
  | Some (IProposal p) =>
      match won h p with Some p' => Some (IProposal p') | None => m !! LedgerKeyFrozenProp x end
  | _ => m !! LedgerKeyFrozenProp x
  end.

Definition froze (h : Z) (m m' : gov_map) : Prop :=
  (forall x, m' !! LedgerKeyProposal x = open_after h m x) /\
  (forall x, m' !! LedgerKeyFrozenProp x = frozen_after h m x) /\
  m' !! LedgerKeyGovParams = m !! LedgerKeyGovParams.

Lemma put_at_other key qs : forall m k,
  k ∉ map (fun p => key (prop_hash p)) qs -> fold_left (put_at key) qs m !! k = m !! k.
Proof.
  induction qs as [|q qs IH]; intros m k Hk; [done|]. cbn [fold_left map] in *.
  apply not_elem_of_cons in Hk as [Hk1 Hk2]. rewrite IH by done. unfold put_at. now rewrite lookup_insert_ne.
Qed.

Lemma put_at_lookup key qs : forall m q,
  Inj (=) (=) key -> NoDup (map prop_hash qs) -> q ∈ qs ->
  fold_left (put_at key) qs m !! key (prop_hash q) = Some (IProposal q).
Proof.
  induction qs as [|q0 qs IH]; intros m q Hinj Hn Hq; [now apply not_elem_of_nil in Hq|].
  cbn [fold_left map] in *. apply NoDup_cons in Hn as [Hnin Hn].
  apply elem_of_cons in Hq as [->|Hq]; [|auto]. rewrite put_at_other.
  - unfold put_at. now rewrite lookup_insert_eq.
  - intros (q' & E & Hq')%list_elem_of_fmap. apply Hnin, list_elem_of_fmap. exists q'. split; [now apply Hinj|done].
Qed.

#[export] Instance LedgerKeyProposal_inj : Inj (=) (=) LedgerKeyProposal.
Proof. intros x y E. now injection E. Qed.
#[export] Instance LedgerKeyFrozenProp_inj : Inj (=) (=) LedgerKeyFrozenProp.
Proof. intros x y E. now injection E. Qed.

Lemma elem_won h ps q :
  Forall open_ok ps -> q ∈ omap (won h) ps ->
  exists p, p ∈ ps /\ won h p = Some q /\ prop_hash q = prop_hash p /\ frozen_ok q.
Proof.
  intros Hop (p & Hp & E)%list_elem_of_omap. exists p. split; [done|]. split; [done|].
  destruct (won_frozen h p q (proj1 (Forall_forall _ _) Hop p Hp) E) as (Hf & _ & Eh).
  split; [|done]. unfold prop_hash. now rewrite Eh.
Qed.

(** Proposals that keep their hashes keep them apart. *)
Lemma NoDup_omap_kin (f : GovProposal -> option GovProposal) ps :
  (forall p q, p ∈ ps -> f p = Some q -> prop_hash q = prop_hash p) ->
  NoDup (map prop_hash ps) -> NoDup (map prop_hash (omap f ps)).
Proof.
  induction ps as [|p ps IH]; intros Hf Hn; [done|]. cbn [map] in Hn. apply NoDup_cons in Hn as [Hnin Hn].
  cbn [omap list_omap]. assert (IH' : NoDup (map prop_hash (omap f ps))) by (apply IH; [set_solver|done]).
  destruct (f p) as [q|] eqn:E; [|done]. cbn [map]. apply NoDup_cons. split; [|done].
  intros (q' & Eq & (p' & Hp' & E')%list_elem_of_omap)%list_elem_of_fmap. apply Hnin.
  rewrite <- (Hf p q), Eq, (Hf p' q') by (done || set_solver). now apply list_elem_of_fmap_2.
Qed.

Lemma listing_open s m ps : gcoh ∅ s m -> listing m KeyPrefixProposal ps -> Forall open_ok ps.
Proof.
  intros HC HL. apply Forall_forall. intros p Hp. apply HL in Hp. now apply (gov_open_ok ∅ s m (prop_hash p)).
Qed.

(** The keys of the proposals that were frozen or removed. *)
Lemma closed_key h m ps x :
  listing m KeyPrefixProposal ps -> Forall open_ok ps ->
  (LedgerKeyProposal x ∈ map okey (omap (won h) ps) \/
   LedgerKeyProposal x ∈ map okey (filter (fun p => lost h p = true) ps)) <->
  exists p, m !! LedgerKeyProposal x = Some (IProposal p) /\ prop_hash p = x /\
    ph_EndVotingHeight (gp_Header p) < h.
Proof.
  intros HL Hop. split.
  - intros [(q & E & Hq)%list_elem_of_fmap|(p & E & Hp)%list_elem_of_fmap]; injection E as ->.
    + destruct (elem_won h ps q Hop Hq) as (p & Hp & Hw & Eh & _). exists p. rewrite Eh. split; [now apply HL|].
      split; [done|]. unfold won in Hw. destruct (Z.ltb_spec (ph_EndVotingHeight (gp_Header p)) h); done.
    + apply list_elem_of_filter in Hp as [Hl Hp]. exists p. split; [now apply HL|]. split; [done|].
      unfold lost in Hl. apply andb_prop in Hl as [Hl _]. now apply Z.ltb_lt.
  - intros (p & Hm & <- & He). assert (Hp : p ∈ ps) by now apply HL. destruct (won h p) as [q|] eqn:E.
    + left. apply list_elem_of_fmap. exists q.
      destruct (won_frozen h p q (proj1 (Forall_forall _ _) Hop p Hp) E) as (_ & _ & Eh). split.
      * unfold okey, prop_hash. now rewrite Eh.
      * apply list_elem_of_omap. eauto.
    + right. apply list_elem_of_fmap. exists p. split; [done|]. apply list_elem_of_filter. split; [|done].
      unfold lost. rewrite E, bool_decide_eq_false_2 by (now intros []). now rewrite (proj2 (Z.ltb_lt _ _)).
Qed.

Lemma froze_fold s m h ps :
  gcoh ∅ s m -> listing m KeyPrefixProposal ps ->
  froze h m (fold_left (fun m k => delete k m) (map okey (filter (fun p => lost h p = true) ps))
    (fold_left (fun m k => delete k m) (map okey (omap (won h) ps)) (fold_left (put_at LedgerKeyFrozenProp) (omap (won h) ps) m))).
Proof.
  intros HC HL. pose proof (listing_open s m ps HC HL) as Hop.
  assert (Hoth : forall k qs, (forall x, k <> LedgerKeyProposal x) -> k ∉ map okey qs).
  { intros k qs Hk (q & E & _)%list_elem_of_fmap. now apply (Hk (prop_hash q)). }
  split_and!.
  - intros x. rewrite !foldl_delete. pose proof (closed_key h m ps x HL Hop) as Hck.
    rewrite (put_at_other _ _ m (LedgerKeyProposal x)) by (now intros (q & E & _)%list_elem_of_fmap).
    unfold open_after. destruct (m !! LedgerKeyProposal x) as [[gp|p]|] eqn:Em.
    + now destruct (gov_typed _ _ _ _ _ HC Em).
    + destruct (gov_open_ok _ _ _ _ _ HC Em) as [Eh _].
      destruct (Z.ltb_spec (ph_EndVotingHeight (gp_Header p)) h) as [He|He].
      * destruct (proj2 Hck) as [Hin|Hin]; [eauto|..];
          [destruct (bool_decide (_ ∈ map okey (filter _ _))); [done|]|]; now rewrite bool_decide_eq_true_2.
      * assert (Hno : forall p', Some (IProposal p) = Some (IProposal p') -> ~ ph_EndVotingHeight (gp_Header p') < h)
          by (intros p' [= <-]; lia).
        rewrite !bool_decide_eq_false_2; [done|intros Hin; destruct (proj1 Hck) as (p' & E & _ & Hlt); eauto; now destruct (Hno p')..].
    + repeat case_bool_decide; done.
  - intros x. rewrite !foldl_delete, !bool_decide_eq_false_2 by (apply Hoth; done). unfold frozen_after.
    assert (Hin : forall p, m !! LedgerKeyProposal x = Some (IProposal p) -> p ∈ ps /\ prop_hash p = x).
    { intros p Hp. destruct (gov_open_ok _ _ _ _ _ HC Hp) as [<- _]. split; [now apply HL|done]. }
    destruct (m !! LedgerKeyProposal x) as [[gp|p]|] eqn:Em; [now destruct (gov_typed _ _ _ _ _ HC Em)|..].
    + destruct (Hin p eq_refl) as [Hp Eh]. destruct (won h p) as [q|] eqn:E.
      * assert (Hq : q ∈ omap (won h) ps) by (apply list_elem_of_omap; eauto).
        destruct (won_frozen h p q (proj1 (Forall_forall _ _) Hop p Hp) E) as (_ & _ & Ehq).
        replace (LedgerKeyFrozenProp x) with (fkey q) by (unfold fkey, prop_hash; rewrite Ehq; now subst x).
        apply (put_at_lookup LedgerKeyFrozenProp); [apply _| |done]. apply (NoDup_omap_kin (won h)); [|apply HL]. intros p0 q0 Hp0 E0.
        destruct (won_frozen h p0 q0 (proj1 (Forall_forall _ _) Hop p0 Hp0) E0) as (_ & K0 & _). apply K0.
      * apply put_at_other. intros (q & E' & Hq)%list_elem_of_fmap. injection E' as ->.
        destruct (elem_won h ps q Hop Hq) as (p' & Hp' & Hw & Eh' & _). apply HL in Hp'. rewrite <- Eh' in Hp'.
        change (KeyPrefixProposal ++ prop_hash q) with (LedgerKeyProposal (prop_hash q)) in Hp'. congruence.
    + apply put_at_other. intros (q & E' & Hq)%list_elem_of_fmap. injection E' as ->.
      destruct (elem_won h ps q Hop Hq) as (p' & Hp' & _ & Eh' & _). apply HL in Hp'. rewrite <- Eh' in Hp'.
      change (KeyPrefixProposal ++ prop_hash q) with (LedgerKeyProposal (prop_hash q)) in Hp'. congruence.
  - rewrite !foldl_delete, !bool_decide_eq_false_2 by (apply Hoth; done).
    apply put_at_other. now intros (q & E & _)%list_elem_of_fmap.
Qed.

Lemma okeys_nonempty (ps : list GovProposal) : Forall (fun k => k <> []) (map okey ps).
Proof. apply Forall_map, Forall_forall. done. Qed.

Lemma fkeys_nonempty (ps : list GovProposal) : Forall (fun k => k <> []) (map fkey ps).
Proof. apply Forall_map, Forall_forall. done. Qed.

Lemma wp_freezeProposals s m h :
  gcoh ∅ s m ->
  wp (freezeProposals h) (okQ (fun fr s' => exists ps m', listing m KeyPrefixProposal ps /\
    gcoh ∅ s' m' /\ params s' = params s /\ froze h m m' /\
    fr = (map okey (omap (won h) ps), map okey (filter (fun p => lost h p = true) ps)))) s.
Proof.
  intros HC. destruct (listing_exists ∅ s m KeyPrefixProposal HC) as (ps & HL & HF); [now left|].
  pose proof (listing_open s m ps HC HL) as Hop.
  unfold freezeProposals. apply wp_bind, wp_run_var.
  eapply wp_mono; [apply (wp_Seek_props ∅ s m KeyPrefixProposal _ ps _ (freezing s m h) HC HF)|].
  - split_and!; try done; constructor.
  - intros ps0 st HJ. apply HJ.
  - intros ps0 p l st ls HJ Hp HC1 Hl F Hn. apply (wp_freeze_one s m h ps0 p l st ls); try done.
    exact (proj1 (Forall_forall _ _) Hop p Hp).
  - intros [[]|e|] [s1 a]; cbn [okQ fst snd]; try done. intros (HC1 & Hp1 & Hnd & HFn & Ef & Er). cbn [fst snd] in *.
    apply wp_bind. eapply wp_mono; [apply (wp_put_props LedgerKeyFrozenProp _ _ s1 m HC1 Hnd HFn)|].
    { apply Forall_forall. intros q Hq. destruct (elem_won h ps q Hop Hq) as (? & _ & _ & _ & ?). split; [done|now right]. }
    intros [[]|e|] s2; cbn [okQ]; try done. intros [HC2 Hp2]. rewrite Ef, Er.
    apply wp_bind. eapply wp_mono; [apply (wp_del_keys _ s2 _ HC2 (okeys_nonempty _))|].
    intros [[]|e|] s3; cbn [okQ]; try done. intros [HC3 Hp3].
    apply wp_bind. eapply wp_mono; [apply (wp_del_keys _ s3 _ HC3 (okeys_nonempty _))|].
    intros [[]|e|] s4; cbn [okQ]; try done. intros [HC4 Hp4].
    apply wp_bind, wp_ret, wp_ret. cbn [okQ]. eexists ps, _. split; [done|]. split; [exact HC4|].
    split; [congruence|]. split; [|done]. now apply (froze_fold s).
Qed.

(** ** Applying *)

Definition is_due (h : Z) (p : GovProposal) : Prop := ph_ApplyHeight (gp_Header p) <= h.

#[export] Instance is_due_dec h p : Decision (is_due h p).
Proof. unfold is_due. apply _. Defined.

(** The parameters that wait for the commit, after the proposal [p]. *)
Definition pend (gp : GovParamsProto) (np : option GovParamsProto) (p : GovProposal) : option GovParamsProto :=
  if ph_PropType (gp_Header p) =? PROPOSAL_GOVPARAMS then
    match gp_MajorOption p with
    | Some o => match json_GovParams (vo_Option o) with
                | Ok gp' => Some (GovParams.MergeGovParams gp gp')
                | _ => np
                end
    | None => np
    end
  else np.

Definition applying s m h (ps0 : list GovProposal) (st : GovCtrler T I * list LedgerKey) : Prop :=
  gcoh ∅ (fst st) m /\ govParams (fst st) = govParams s /\
  newGovParams (fst st) = fold_left (pend (govParams s)) (filter (is_due h) ps0) (newGovParams s) /\
  snd st = map fkey (filter (is_due h) ps0).

Lemma frozen_parses p :
  frozen_ok p -> ph_PropType (gp_Header p) = PROPOSAL_GOVPARAMS ->
  exists o gp, gp_MajorOption p = Some o /\ approved p o /\ json_GovParams (vo_Option o) = Ok gp.
Proof.
  intros [_ Hp (o & Ho & Ha)] Ht. pose proof (proj1 (Forall_forall _ _) (Hp Ht) (vo_Option o)) as Hj.
  destruct Hj as [gp Hgp]; [|eauto]. apply list_elem_of_fmap_2. now apply approved_elem.
Qed.

Lemma wp_apply_one s m h ps0 p l st ls :
  applying s m h ps0 st -> frozen_ok p -> coh ∅ ls m -> free ls l (IProposal p) ->
  wp (apply_one h (fkey p) l) (okQ (fun _ => applying s m h (ps0 ++ [p])))
    (MkGovCtrler ls (govParams (fst st)) (newGovParams (fst st)), snd st).
Proof.
  intros (HC1 & Hg & Hnp & Ek) Hfz HC Hl. destruct st as [s1 a]. cbn [fst snd] in *.
  apply wp_bind, wp_zoom. cbn [lget fst_lens fst]. apply (get_prop_rule _ [] l p); [apply Hl|]. cbn [lset fst_lens snd].
  unfold applying. rewrite filter_app, map_app, fold_left_app, filter_cons, filter_nil.
  destruct (Z.leb_spec (ph_ApplyHeight (gp_Header p)) h) as [Hd|Hd].
  2: { apply wp_ret. cbn. rewrite decide_False by (unfold is_due; lia). cbn. rewrite app_nil_r. now split_and!. }
  rewrite decide_True by done. cbn [map fold_left]. rewrite <- Hnp, <- Ek. unfold pend at 1.
  destruct (Z.eqb_spec (ph_PropType (gp_Header p)) PROPOSAL_GOVPARAMS) as [Ht|Ht].
  - destruct (frozen_parses p Hfz Ht) as (o & gp & -> & _ & ->).
    apply wp_bind, wp_bind, wp_ret, wp_modify, wp_modify. cbn. now rewrite Hg.
  - apply wp_bind, wp_ret, wp_modify. cbn. now split_and!.
Qed.

End Rules.

Section Blocks.
Context {T I : Type} `{Iavl T I, !IavlLaws T I}.
Context `{GovProtos, !GovProtosLaws, GovJson, !GovJsonLaws}.
Implicit Types (s : GovCtrler T I) (m : gov_map).

(** The ledger holds the parameters in force after the next commit. *)
Record gov_inv s m : Prop := {
  gi_coh : coh ∅ (govState s) m;
  gi_params : GovParams.ok (govParams s);
  gi_new : forall np, newGovParams s = Some np -> GovParams.ok np;
  gi_stored : m !! LedgerKeyGovParams = Some (IGovParams (default (govParams s) (newGovParams s)));
}.

Lemma pend_ok gp qs : forall np,
  GovParams.ok gp -> (forall x, np = Some x -> GovParams.ok x) ->
  forall x, fold_left (pend gp) qs np = Some x -> GovParams.ok x.
Proof.
  induction qs as [|q qs IH]; intros np Hgp Hnp; cbn [fold_left]; [done|]. apply IH; [done|].
  unfold pend. destruct (_ =? _); [|done]. destruct (gp_MajorOption q) as [o|]; [|done].
  destruct (json_GovParams (vo_Option o)) as [gp'| |] eqn:E; try done. intros x [= <-].
  apply GovParams.MergeGovParams_ok; [done|]. now apply (json_ok (vo_Option o)).
Qed.

Lemma pend_Some gp qs : forall x, fold_left (pend gp) qs (Some x) <> None.
Proof.
  induction qs as [|q qs IH]; intros x; cbn [fold_left]; [done|].
  unfold pend at 2. destruct (_ =? _); [|auto]. destruct (gp_MajorOption q) as [o|]; [|auto].
  destruct (json_GovParams _); auto.
Qed.

(** What is left of the frozen proposal [x] after applying at height [h]. *)
Definition frozen_left (h : Z) (y : option GovItem) : option GovItem :=
  match y with
  | Some (IProposal p) => if ph_ApplyHeight (gp_Header p) <=? h then None else Some (IProposal p)
  | _ => y
  end.

Lemma applied_fold s m h qs :
  coh ∅ (govState s) m -> listing m KeyPrefixFrozenProp qs ->
  let m' := fold_left (fun m k => delete k m) (map fkey (filter (is_due h) qs)) m in
  (forall x, m' !! LedgerKeyProposal x = m !! LedgerKeyProposal x) /\
  (forall x, m' !! LedgerKeyFrozenProp x = frozen_left h (m !! LedgerKeyFrozenProp x)) /\
  m' !! LedgerKeyGovParams = m !! LedgerKeyGovParams.
Proof.
  intros HC HL m'. unfold m'. split_and!.
  - intros x. rewrite foldl_delete, bool_decide_eq_false_2; [done|]. now intros (q & E & _)%list_elem_of_fmap.
  - intros x. rewrite foldl_delete. unfold frozen_left. case_bool_decide as Hin.
    + apply list_elem_of_fmap in Hin as (q & E & Hq). injection E as ->. apply list_elem_of_filter in Hq as [Hd Hq].
      apply HL in Hq. change (KeyPrefixFrozenProp ++ prop_hash q) with (LedgerKeyFrozenProp (prop_hash q)) in Hq.
      rewrite Hq, (proj2 (Z.leb_le _ _)); done.
    + destruct (m !! LedgerKeyFrozenProp x) as [[gp|p]|] eqn:Em; try done.
      destruct (Z.leb_spec (ph_ApplyHeight (gp_Header p)) h); [|done]. destruct Hin.
      destruct (gov_frozen_ok _ _ _ _ _ HC Em) as [<- _]. apply list_elem_of_fmap. exists p. split; [done|].
      apply list_elem_of_filter. split; [done|]. now apply HL.
  - rewrite foldl_delete, bool_decide_eq_false_2; [done|]. now intros (q & E & _)%list_elem_of_fmap.
Qed.

(** Writing the parameters that wait for the commit. *)
Lemma wp_put_params s m Q :
  coh ∅ (govState s) m -> (forall np, newGovParams s = Some np -> GovParams.ok np) ->
  (newGovParams s = None -> m !! LedgerKeyGovParams = Some (IGovParams (govParams s))) ->
  (forall s' m', params s' = params s -> coh ∅ (govState s') m' ->
    (forall k, k <> LedgerKeyGovParams -> m' !! k = m !! k) ->
    m' !! LedgerKeyGovParams = Some (IGovParams (default (govParams s) (newGovParams s))) -> Q (Ok tt) s') ->
  wp (match newGovParams s with
      | Some gp => let! l := g_alloc (IGovParams gp) in ignore (gov_Set LedgerKeyGovParams l true)
      | None => ret tt
      end) Q s.
Proof.
  intros HC Hok Hst HQ. destruct (newGovParams s) as [gp|] eqn:E; [|apply wp_ret, (HQ s m); auto].
  apply wp_bind, wp_zoom. cbn [lget gov_lens]. apply (held_alloc_rule ∅ _ m); [done|].
  intros l ls HC1 Hl _ _ _ _. apply wp_ignore.
  eapply (gov_set_free_rule _ m LedgerKeyGovParams l (IGovParams gp)); [exact HC1|done|exact Hl|split; auto|].
  intros s' HC' _ Hp. eapply HQ; [exact Hp|exact HC'| |].
  - intros k Hk. now rewrite lookup_insert_ne.
  - now rewrite lookup_insert_eq.
Qed.

Lemma wp_applyProposals s m h :
  gov_inv s m ->
  wp (applyProposals h) (okQ (fun applied s' => exists qs m', listing m KeyPrefixFrozenProp qs /\
    gov_inv s' m' /\ govParams s' = govParams s /\
    newGovParams s' = fold_left (pend (govParams s)) (filter (is_due h) qs) (newGovParams s) /\
    applied = map fkey (filter (is_due h) qs) /\
    (forall x, m' !! LedgerKeyProposal x = m !! LedgerKeyProposal x) /\
    (forall x, m' !! LedgerKeyFrozenProp x = frozen_left h (m !! LedgerKeyFrozenProp x)))) s.
Proof.
  intros [HC Hgp Hnew Hst].
  destruct (listing_exists ∅ s m KeyPrefixFrozenProp HC) as (qs & HL & HF); [now right|].
  unfold applyProposals. apply wp_bind, wp_run_var.
  eapply wp_mono; [apply (wp_Seek_props ∅ s m KeyPrefixFrozenProp _ qs _ (applying s m h) HC HF)|].
  - split_and!; done.
  - intros ps0 st HJ. apply HJ.
  - intros ps0 p l st ls HJ Hp HC1 Hl _ _. apply (wp_apply_one s m h ps0 p l st ls); try done.
    apply HL in Hp. now apply (gov_frozen_ok ∅ s m (prop_hash p)).
  - intros [[]|e|] [s1 a]; cbn [okQ fst snd]; try done. intros (HC1 & Hg1 & Hn1 & Ea). cbn [fst snd] in *.
    assert (Hok1 : forall np, newGovParams s1 = Some np -> GovParams.ok np)
      by (intros np E; rewrite Hn1 in E; exact (pend_ok _ _ _ Hgp Hnew np E)).
    assert (Hst1 : newGovParams s1 = None -> m !! LedgerKeyGovParams = Some (IGovParams (govParams s1))).
    { intros E. rewrite Hst, Hg1. destruct (newGovParams s) as [x|]; [|done].
      destruct (pend_Some (govParams s) (filter (is_due h) qs) x). congruence. }
    apply wp_bind, wp_gets, wp_bind, (wp_put_params s1 m); [done..|]. intros s2 m2 Hp2 HC2 Hm2 Hg2.
    rewrite Ea. apply wp_bind. eapply wp_mono; [apply (wp_del_keys _ s2 _ HC2 (fkeys_nonempty _))|].
    intros [[]|e|] s3; cbn [okQ]; try done. intros [HC3 Hp3]. apply wp_bind, wp_ret, wp_ret. cbn [okQ].
    assert (HL2 : listing m2 KeyPrefixFrozenProp qs).
    { destruct HL as [Hin Hnd Hso]. split; [|done..]. intros p. rewrite Hin, Hm2; done. }
    destruct (applied_fold s2 m2 h qs HC2 HL2) as (Ho & Hf & Hg).
    assert (Ep : params s3 = params s1) by congruence. injection Ep as Eg En.
    eexists qs, _. split; [done|]. split_and!; [split| | | | |].
    + exact HC3.
    + congruence.
    + intros np E. apply Hok1. congruence.
    + now rewrite Hg, Hg2, Eg, En.
    + congruence.
    + congruence.
    + done.
    + intros x. rewrite Ho. now apply Hm2.
    + intros x. rewrite Hf. f_equal. now apply Hm2.
Qed.

(** ** Slashing *)

(** The proposal after slashing the voter [addr], when there is one. *)
Definition slashed (addr : Address) (rate : Z) (p : GovProposal) : option GovProposal :=
  match findVoter (gp_Header p) addr with
  | Some _ => match DoSlash p addr rate with Ok (_, p') => Some p' | _ => None end
  | None => None
  end.

Lemma slashed_open addr rate p p' :
  open_ok p -> 0 <= rate <= 100 -> slashed addr rate p = Some p' -> open_ok p' /\ kin p p'.
Proof.
  intros Hop Hr. unfold slashed. destruct (findVoter _ addr) as [v|] eqn:Hf; [|done].
  destruct (DoSlash_open p addr v rate Hop Hf Hr) as (sl & q & -> & Hq & K). now intros [= <-].
Qed.

Definition slashing s m (addr : Address) (rate : Z) (ps0 : list GovProposal) (st : GovCtrler T I * (Z * list loc)) : Prop :=
  coh ∅ (govState (fst st)) m /\ params (fst st) = params s /\ NoDup (snd (snd st)) /\
  Forall2 (fun l p => free (govState (fst st)) l (IProposal p)) (snd (snd st)) (omap (slashed addr rate) ps0).

Lemma wp_slash_one_prop s m addr rate ps0 p l st ls key :
  slashing s m addr rate ps0 st -> open_ok p -> 0 <= rate <= 100 -> coh ∅ ls m -> free ls l (IProposal p) ->
  frames (govState (fst st)) ls None -> heap (govState (fst st)) !! l = None ->
  wp (slash_one_prop addr rate key l) (okQ (fun _ => slashing s m addr rate (ps0 ++ [p])))
    (MkGovCtrler ls (govParams (fst st)) (newGovParams (fst st)), snd st).
Proof.
  intros (HC1 & Hp1 & Hnd & HF) Hop Hr HC Hl F Hn. destruct st as [s1 [pw locs]]. cbn [fst snd] in *.
  pose proof (free_all_fresh _ _ _ _ HF Hn) as Hfresh.
  pose proof (free_all_frames _ _ None _ _ F ltac:(done) HF) as HF2.
  apply wp_bind, wp_zoom. cbn [lget fst_lens fst]. apply (get_prop_rule _ [] l p); [apply Hl|]. cbn [lset fst_lens snd].
  unfold slashing. rewrite omap_app. cbn [omap list_omap].
  destruct (findVoter (gp_Header p) addr) as [v|] eqn:Hf.
  2: { assert (Es : slashed addr rate p = None) by (unfold slashed; now rewrite Hf).
       apply wp_ret. rewrite Es. cbn. rewrite app_nil_r. now split_and!. }
  destruct (DoSlash_open p addr v rate Hop Hf Hr) as (sl & p' & Ed & _ & _).
  assert (Es : slashed addr rate p = Some p') by (unfold slashed; now rewrite Hf, Ed).
  rewrite Ed, Es. apply wp_bind, wp_lift, wp_bind, wp_zoom. cbn [lget fst_lens fst]. apply wp_zoom.
  cbn [lget gov_lens govState fst snd].
  apply (free_assign_rule ∅ _ m l (IProposal p)); [done..|]. intros ls' HC' Hl' F'. cbn [lset gov_lens fst_lens snd].
  apply wp_modify. cbn. split; [done|]. split; [done|]. split.
  - apply NoDup_app. split; [done|]. split; [|apply NoDup_singleton]. set_solver.
  - apply Forall2_app; [|constructor; [exact Hl'|constructor]].
    apply (free_all_frames _ _ _ _ _ F'); [|exact HF2]. intros l0 Hl0 E. injection E as <-. done.
Qed.

(** What slashing leaves of an open proposal. *)
Definition slash_item (addr : Address) (rate : Z) (y : option GovItem) : option GovItem :=
  match y with
  | Some (IProposal p) => Some (IProposal (default p (slashed addr rate p)))
  | _ => y
  end.

Definition slashes (addr : Address) (rate : Z) (m m' : gov_map) : Prop :=
  (forall x, m' !! LedgerKeyProposal x = slash_item addr rate (m !! LedgerKeyProposal x)) /\
  (forall x, m' !! LedgerKeyFrozenProp x = m !! LedgerKeyFrozenProp x) /\
  m' !! LedgerKeyGovParams = m !! LedgerKeyGovParams.

Lemma slashes_fold s m addr rate ps :
  coh ∅ (govState s) m -> 0 <= rate <= 100 -> listing m KeyPrefixProposal ps ->
  slashes addr rate m (fold_left (put_at LedgerKeyProposal) (omap (slashed addr rate) ps) m).
Proof.
  intros HC Hr HL. pose proof (listing_open s m ps HC HL) as Hop.
  assert (Hsl : forall q, q ∈ omap (slashed addr rate) ps -> exists p, p ∈ ps /\ slashed addr rate p = Some q /\
    prop_hash q = prop_hash p).
  { intros q (p & Hp & E)%list_elem_of_omap. exists p. split; [done|]. split; [done|].
    apply (slashed_open addr rate p q (proj1 (Forall_forall _ _) Hop p Hp) Hr E). }
  split_and!.
  2: { intros x. apply put_at_other. now intros (q & E & _)%list_elem_of_fmap. }
  2: { apply put_at_other. now intros (q & E & _)%list_elem_of_fmap. }
  intros x. assert (Hno : (forall p, m !! LedgerKeyProposal x = Some (IProposal p) -> slashed addr rate p = None) ->
    fold_left (put_at LedgerKeyProposal) (omap (slashed addr rate) ps) m !! LedgerKeyProposal x = m !! LedgerKeyProposal x).
  { intros Hn. apply put_at_other. intros (q & E & Hq)%list_elem_of_fmap. injection E as ->.
    destruct (Hsl q Hq) as (p & Hp & Es & Eh). rewrite (Hn p) in Es; [done|]. rewrite Eh. now apply HL. }
  unfold slash_item. destruct (m !! LedgerKeyProposal x) as [[gp|p]|] eqn:Em.
  - now rewrite Hno.
  - destruct (gov_open_ok _ _ _ _ _ HC Em) as [<- _]. assert (Hp : p ∈ ps) by now apply HL.
    destruct (slashed addr rate p) as [q|] eqn:Es; [|rewrite Hno; [done|]; now intros p' [= <-]].
    destruct (slashed_open addr rate p q (proj1 (Forall_forall _ _) Hop p Hp) Hr Es) as [_ K].
    replace (prop_hash p) with (prop_hash q) by apply K. apply put_at_lookup; [apply _| |apply list_elem_of_omap; eauto].
    apply (NoDup_omap_kin (slashed addr rate)); [|apply HL]. intros p0 q0 Hp0 E0.
    apply (slashed_open addr rate p0 q0 (proj1 (Forall_forall _ _) Hop p0 Hp0) Hr E0).
  - now rewrite Hno.
Qed.

Lemma wp_gov_doSlash s m addr :
  coh ∅ (govState s) m -> 0 <= GovParams.SlashRate (govParams s) <= 100 ->
  wp (gov_doSlash addr) (okQ (fun _ s' => exists m', coh ∅ (govState s') m' /\ params s' = params s /\
    slashes addr (GovParams.SlashRate (govParams s)) m m')) s.
Proof.
  intros HC Hr. destruct (listing_exists ∅ s m KeyPrefixProposal HC) as (ps & HL & HF); [now left|].
  pose proof (listing_open s m ps HC HL) as Hop. set (rate := GovParams.SlashRate (govParams s)) in *.
  unfold gov_doSlash. apply wp_bind, wp_gets, wp_bind, wp_run_var. fold rate.
  eapply wp_mono; [apply (wp_Seek_props ∅ s m KeyPrefixProposal _ ps _ (slashing s m addr rate) HC HF)|].
  - split_and!; try done; constructor.
  - intros ps0 st HJ. apply HJ.
  - intros ps0 p l st ls HJ Hp HC1 Hl F Hn. apply wp_slash_one_prop; try done.
    exact (proj1 (Forall_forall _ _) Hop p Hp).
  - intros [[]|e|] [s1 [pw locs]]; cbn [okQ fst snd]; try done. intros (HC1 & Hp1 & Hnd & HFn). cbn [fst snd] in *.
    apply wp_bind. eapply wp_mono; [apply (wp_put_props LedgerKeyProposal _ _ s1 m HC1 Hnd HFn)|].
    { apply Forall_forall. intros q (p & Hp & E)%list_elem_of_omap. split; [done|]. left. split; [done|].
      apply (slashed_open addr rate p q (proj1 (Forall_forall _ _) Hop p Hp) Hr E). }
    intros [[]|e|] s2; cbn [okQ]; try done. intros [HC2 Hp2]. apply wp_ret. cbn [okQ].
    eexists. split; [exact HC2|]. split; [congruence|]. now apply (slashes_fold s).
Qed.

End Blocks.
