(* ===== verification/GovProps.v ===== *)
(** * GovProps: governance from the proposal to the parameters

    The end of a block settles every proposal, and from the genesis on, whatever
    transactions, slashes and blocks follow, the parameters only change at a
    commit, by merging an option of a submitted proposal that voters with two
    thirds of the power chose. *)
From stdpp Require Import base gmap list strings.
From Stdlib Require Import ZArith Lia Sorted.
From S2P Require Import Prelude XErrors GoMonad LedgerKeys Iavl Ledger LedgerSpec LedgerOps Units Proto.
From S2P Require Import GovParams TrxTypes Proposal ProposalProps GovCtrler GovInv GovWp.

Section Props.
Context {T I : Type} `{Iavl T I, !IavlLaws T I}.
Context `{GovProtos, !GovProtosLaws, GovJson, !GovJsonLaws}.
Implicit Types (s : GovCtrler T I) (m : gov_map).

(** ** The end of a block *)

(** What the end of the block [h] makes of the proposals of [m]: ended ones are
    closed, those with a majority are frozen, frozen ones are applied at their
    height, and the parameters that wait for the commit are the current ones
    merged with the option of the last proposal on them. *)
Record settled (h : Z) s m s' m' (ev : list bytes * list bytes * list bytes) : Prop := {
  sd_inv : gov_inv s' m';
  sd_open : forall x, m' !! LedgerKeyProposal x = open_after h m x;
  sd_frozen : forall x, m' !! LedgerKeyFrozenProp x = frozen_left h (frozen_after h m x);
  sd_params : govParams s' = govParams s;
  sd_applied : exists qs,
    (forall q, q ∈ qs <-> frozen_after h m (prop_hash q) = Some (IProposal q) /\ is_due h q) /\
    StronglySorted (fun p q => 0 <= bytes_Compare (prop_hash q) (prop_hash p)) qs /\
    newGovParams s' = fold_left (pend (govParams s)) qs (newGovParams s) /\ snd ev = map prop_hash qs;
  sd_froze : forall x, x ∈ fst (fst ev) <->
    exists p, m !! LedgerKeyProposal x = Some (IProposal p) /\ is_Some (won h p);
  sd_removed : forall x, x ∈ snd (fst ev) <->
    exists p, m !! LedgerKeyProposal x = Some (IProposal p) /\ lost h p = true;
}.

Lemma wp_unwrap_keys (key : GovProposal -> LedgerKey) c (ps : list GovProposal) s Q :
  (forall p, key p = c :: prop_hash p) -> Q (Ok (map prop_hash ps)) s ->
  wp (map_each (map key ps) (fun k => lift (UnwrapKeyPrefix k))) Q s.
Proof.
  intros Hkey. revert Q. induction ps as [|p ps IH]; intros Q HQ; cbn [map map_each]; [now apply wp_ret|].
  rewrite Hkey. apply wp_bind, wp_lift. cbn [UnwrapKeyPrefix]. apply wp_bind, IH. now apply wp_ret.
Qed.

Lemma filter_due_listing h m qs :
  listing m KeyPrefixFrozenProp qs ->
  (forall q, q ∈ filter (is_due h) qs <-> m !! LedgerKeyFrozenProp (prop_hash q) = Some (IProposal q) /\ is_due h q) /\
  StronglySorted (fun p q => 0 <= bytes_Compare (prop_hash q) (prop_hash p)) (filter (is_due h) qs).
Proof.
  intros [Hin _ Hs]. split.
  - intros q. rewrite list_elem_of_filter, Hin. tauto.
  - clear Hin. induction Hs as [|p ps Hs IH Hall]; [constructor|]. rewrite filter_cons.
    case_decide; [|done]. constructor; [done|]. rewrite Forall_forall in *. intros q Hq.
    apply Hall. now apply list_elem_of_filter in Hq as [_ Hq].
Qed.

(** The events of freezing name the proposals of the ledger. *)
Lemma freeze_events s m h ps x :
  coh ∅ (govState s) m -> listing m KeyPrefixProposal ps ->
  (x ∈ map prop_hash (omap (won h) ps) <->
    exists p, m !! LedgerKeyProposal x = Some (IProposal p) /\ is_Some (won h p)) /\
  (x ∈ map prop_hash (filter (fun p => lost h p = true) ps) <->
    exists p, m !! LedgerKeyProposal x = Some (IProposal p) /\ lost h p = true).
Proof.
  intros HC HL. pose proof (listing_open s m ps HC HL) as Hop.
  assert (Hin : forall p, m !! LedgerKeyProposal x = Some (IProposal p) -> p ∈ ps /\ prop_hash p = x).
  { intros p Hp. destruct (gov_open_ok _ _ _ _ _ HC Hp) as [<- _]. split; [now apply HL|done]. }
  split; (split; [intros (q & -> & Hq)%list_elem_of_fmap|intros (p & Hp & Hw); destruct (Hin p Hp) as [Hps <-]]).
  - destruct (elem_won h ps q Hop Hq) as (p & Hp & Hw & -> & _). exists p. split; [now apply HL|eauto].
  - destruct Hw as [q Hw]. apply list_elem_of_fmap. exists q. split; [|apply list_elem_of_omap; eauto].
    destruct (won_frozen h p q (proj1 (Forall_forall _ _) Hop p Hps) Hw) as (_ & _ & Eh).
    unfold prop_hash. now rewrite Eh.
  - apply list_elem_of_filter in Hq as [Hl Hq]. exists q. split; [now apply HL|done].
  - apply list_elem_of_fmap_2, list_elem_of_filter. done.
Qed.

Lemma wp_gov_EndBlock s m h :
  gov_inv s m -> wp (gov_EndBlock h) (okQ (fun ev s' => exists m', settled h s m s' m' ev)) s.
Proof.
  intros Hinv. pose proof (gi_coh _ _ Hinv) as HC. unfold gov_EndBlock.
  apply wp_bind. eapply wp_mono; [apply (wp_freezeProposals s m h HC)|].
  intros [fr|e|] s1; cbn [okQ]; try done. intros (ps & m1 & HL & HC1 & Hp1 & (Ho1 & Hf1 & Hg1) & ->).
  pose proof (listing_open s m ps HC HL) as Hop. injection Hp1 as Eg1 En1.
  assert (Hinv1 : gov_inv s1 m1).
  { destruct Hinv as [_ Hgp Hnew Hst]. split; [done|..]; rewrite ?Hg1, ?Eg1, ?En1; done. }
  apply wp_bind. eapply wp_mono; [apply (wp_applyProposals s1 m1 h Hinv1)|].
  intros [applied|e|] s2; cbn [okQ]; try done. intros (qs & m2 & HL2 & Hinv2 & Eg2 & En2 & -> & Ho2 & Hf2).
  cbn [fst snd].
  do 3 apply wp_bind, (wp_unwrap_keys _ _ _ _ _ (fun p => eq_refl)). apply wp_ret. cbn [okQ]. exists m2.
  destruct (filter_due_listing h m1 qs HL2) as [Hq Hs]. split; cbn [fst snd].
  - done.
  - intros x. now rewrite Ho2.
  - intros x. now rewrite Hf2, Hf1.
  - congruence.
  - exists (filter (is_due h) qs). split; [intros q; rewrite Hq, Hf1; tauto|]. split; [done|].
    split; [now rewrite En2, Eg1, En1|done].
  - intros x. now apply (freeze_events s m h ps x HC HL).
  - intros x. now apply (freeze_events s m h ps x HC HL).
Qed.
(** C8. At the end of a block every proposal whose voting has ended is closed: it
    is frozen with its major option when that option has the majority and removed
    otherwise; every frozen proposal whose height has come is removed, and the
    parameters that take effect at the commit are the current ones merged with
    the major option of the last of them that is on the parameters; the events
    name exactly these proposals.  The block never fails here. *)
Theorem proposals_settled s m h :
  gov_inv s m -> exists ev s' m', gov_EndBlock h s = (Ok ev, s') /\ settled h s m s' m' ev.
Proof.
  intros Hinv. pose proof (wp_gov_EndBlock s m h Hinv) as Hw. unfold wp in Hw.
  destruct (gov_EndBlock h s) as [[ev|e|] s']; cbn in Hw; [|done..]. destruct Hw as [m' Hs]. eauto.
Qed.

(** ** Transactions *)

(** What an accepted transaction does to the ledger. *)
Definition gov_effect (vals : list (Address * Z)) (total : Z) (tx : Trx) (txhash : bytes) (height : Z)
    (m m' : gov_map) : Prop :=
  (exists pl, tx_Payload tx = Some (TrxPayloadProposal_ pl) /\ m !! LedgerKeyProposal txhash = None /\
     m' = <[LedgerKeyProposal txhash := IProposal (new_proposal vals total pl txhash)]> m) \/
  (exists x c p p', tx_Payload tx = Some (TrxPayloadVoting x c) /\ m !! LedgerKeyProposal x = Some (IProposal p) /\
     ph_StartVotingHeight (gp_Header p) <= height <= ph_EndVotingHeight (gp_Header p) /\
     DoVote p (tx_From tx) c = Ok p' /\ m' = <[LedgerKeyProposal x := IProposal p']> m).

Definition gov_run_trx isVal vals total tx txhash height : M (GovCtrler T I) unit :=
  gov_ValidateTrx isVal tx txhash height true ;;; gov_ExecuteTrx vals total tx txhash true.

(** The transaction changed nothing or had its effect. *)
Definition trx_post vals total tx txhash height s m (o : outcome unit) s' : Prop :=
  params s' = params s /\
  match o with
  | Ok _ => exists m', coh ∅ (govState s') m' /\ gov_effect vals total tx txhash height m m'
  | _ => coh ∅ (govState s') m
  end.

Definition gov_payload_ok (tx : Trx) : Prop :=
  match tx_Payload tx with Some (TrxPayloadProposal_ pl) => proposal_payload_ok pl | _ => True end.

Lemma new_proposal_hash vals total pl txhash :
  vals_ok vals total -> ph_TxHash (gp_Header (new_proposal vals total pl txhash)) = txhash.
Proof. intros Hv. now rewrite new_proposal_eq by apply Hv. Qed.

Lemma wp_propose isVal vals total tx txhash height s m :
  coh ∅ (govState s) m -> vals_ok vals total -> gov_payload_ok tx ->
  wp (validate_proposal isVal tx txhash height true ;;; execProposing vals total tx txhash true)
    (trx_post vals total tx txhash height s m) s.
Proof.
  intros HC Hv Hpay. unfold validate_proposal. apply wp_bind.
  destruct (negb (_ =? 0)); [now apply wp_throw|]. destruct (negb (isVal _)); [now apply wp_throw|].
  unfold execProposing. unfold gov_payload_ok in Hpay.
  destruct (tx_Payload tx) as [[| | |pl| | | |]|] eqn:Epl; try now apply wp_throw.
  apply wp_bind, wp_try, wp_zoom. cbn [lget gov_lens].
  destruct (m !! LedgerKeyProposal txhash) as [y|] eqn:Em.
  { apply (held_get_rule ∅ _ m _ y); [done..|]. intros l ls HC1 _ _ _ _. now apply wp_throw. }
  apply (wp_Get_none ∅ _ m); [done..|]. rewrite bool_decide_eq_true_2 by done.
  apply wp_bind, wp_gets, wp_lift. cbn [lset gov_lens govParams].
  destruct (check_proposal (govParams s) pl height) as [[]|e|] eqn:Ec; [|now destruct s..].
  apply wp_bind, wp_zoom. cbn [lget gov_lens govState].
  set (p := new_proposal vals total pl txhash). pose proof (new_proposal_hash vals total pl txhash Hv) as Eh. fold p in Eh.
  apply (held_alloc_rule ∅ _ m); [done|]. intros l ls HC1 Hl _ _ _ _.
  eapply (gov_set_free_rule _ m _ l (IProposal p)); [exact HC1|done|exact Hl| |].
  - left. split; [done|]. now apply (new_proposal_open vals total pl txhash (govParams s) height).
  - intros s' HC' _ Hp. split; [exact Hp|]. eexists. split; [exact HC'|]. left. exists pl.
    split; [done|]. split; [done|]. now rewrite Eh.
Qed.

(** A voting that passes the checks. *)
Lemma wp_validate_voting tx height s m x c Q :
  coh ∅ (govState s) m -> tx_Payload tx = Some (TrxPayloadVoting x c) ->
  (forall e s', params s' = params s -> coh ∅ (govState s') m -> Q (Err e) s') ->
  (forall s' p, params s' = params s -> coh ∅ (govState s') m -> m !! LedgerKeyProposal x = Some (IProposal p) ->
    IsVoter (gp_Header p) (tx_From tx) = true -> 0 <= c < Z.of_nat (length (gp_Options p)) ->
    ph_StartVotingHeight (gp_Header p) <= height <= ph_EndVotingHeight (gp_Header p) -> Q (Ok tt) s') ->
  wp (validate_voting tx height true) Q s.
Proof.
  intros HC Epl He HQ. unfold validate_voting. rewrite Epl.
  destruct (negb (_ =? 0)); [now apply wp_throw, He|]. apply wp_bind, wp_zoom. cbn [lget gov_lens].
  destruct (m !! LedgerKeyProposal x) as [y|] eqn:Em.
  2: { apply (wp_Get_none ∅ _ m); [done..|]. apply He; now destruct s. }
  apply (held_get_rule ∅ _ m _ y); [done..|]. intros l ls HC1 Hl _ _ _.
  pose proof (gov_typed _ _ _ _ _ HC Em) as Hok. destruct y as [gp|p]; [now destruct Hok|].
  destruct (gov_open_ok _ _ _ _ _ HC Em) as [_ Hop].
  apply wp_bind, (get_prop_rule _ (LedgerKeyProposal x) l p); [exact Hl|].
  destruct (IsVoter _ _) eqn:Ev; [|now apply wp_throw, He]. cbn [negb].
  pose proof (op_options _ Hop) as Hlen. rewrite i32_small by lia.
  destruct (Z.ltb_spec c 0), (Z.leb_spec (Z.of_nat (length (gp_Options p))) c); cbn [orb]; try now apply wp_throw, He.
  destruct (Z.ltb_spec (ph_EndVotingHeight (gp_Header p)) height),
    (Z.ltb_spec height (ph_StartVotingHeight (gp_Header p))); cbn [orb]; try now apply wp_throw, He.
  apply wp_ret, (HQ _ p); try done; lia.
Qed.

(** A vote that passed the checks is counted. *)
Lemma wp_execVoting tx s m x c p Q :
  coh ∅ (govState s) m -> tx_Payload tx = Some (TrxPayloadVoting x c) ->
  m !! LedgerKeyProposal x = Some (IProposal p) -> IsVoter (gp_Header p) (tx_From tx) = true ->
  0 <= c < Z.of_nat (length (gp_Options p)) ->
  (forall s' p', params s' = params s -> DoVote p (tx_From tx) c = Ok p' ->
    coh ∅ (govState s') (<[LedgerKeyProposal x := IProposal p']> m) -> Q (Ok tt) s') ->
  wp (execVoting tx true) Q s.
Proof.
  intros HC Epl Em Hv Hc HQ. unfold execVoting. rewrite Epl. apply wp_bind, wp_zoom. cbn [lget gov_lens].
  apply (held_get_rule ∅ _ m _ (IProposal p)); [done..|]. intros l ls HC2 Hl _ _ _.
  destruct (gov_open_ok _ _ _ _ _ HC Em) as [Eh Hop].
  apply wp_bind, (get_prop_rule _ (LedgerKeyProposal x) l p); [exact Hl|].
  destruct (DoVote_open p (tx_From tx) c Hop Hv Hc) as (p' & Ed & Hop' & K). rewrite Ed. apply wp_bind, wp_lift.
  assert (Eh' : ph_TxHash (gp_Header p') = x) by (rewrite (kin_hash _ _ K); exact Eh).
  apply wp_bind, wp_zoom. cbn [lget lset gov_lens govState].
  apply (held_assign_rule ∅ _ m l (LedgerKeyProposal x) (IProposal p)); [done..|]. intros ls3 HC3 Hl3 _ _.
  rewrite Eh'. apply wp_zoom. cbn [lget lset gov_lens govState].
  eapply (held_set_rule _ _ m _ l (IProposal p')); [exact HC3|done|exact Hl3|left; now rewrite Eh'|].
  intros ls4 HC4 _ _. rewrite dirty_one in HC4. by apply (HQ _ p').
Qed.

Lemma wp_vote vals total tx txhash height s m :
  coh ∅ (govState s) m ->
  wp (validate_voting tx height true ;;; execVoting tx true) (trx_post vals total tx txhash height s m) s.
Proof.
  intros HC. apply wp_bind. destruct (tx_Payload tx) as [[| | | |x c| | |]|] eqn:Epl.
  all: try (unfold validate_voting; rewrite Epl; destruct (negb (_ =? 0)); now apply wp_throw).
  apply (wp_validate_voting tx height s m x c); [done..|].
  intros s1 p Hp1 HC1 Em Hv Hc Hh. apply (wp_execVoting tx s1 m x c p); [done..|].
  intros s2 p' Hp2 Ed HC2. split; [by rewrite Hp2|]. eexists. split; [exact HC2|].
  right. exists x, c, p, p'. done.
Qed.

Lemma wp_gov_run_trx isVal vals total tx txhash height s m :
  coh ∅ (govState s) m -> vals_ok vals total -> gov_payload_ok tx ->
  wp (gov_run_trx isVal vals total tx txhash height) (trx_post vals total tx txhash height s m) s.
Proof.
  intros HC Hv Hpay. unfold gov_run_trx, gov_ValidateTrx, gov_ExecuteTrx.
  destruct (GetType tx =? TRX_PROPOSAL); [now apply wp_propose|].
  destruct (GetType tx =? TRX_VOTING); [now apply wp_vote|]. apply wp_bind, wp_throw. done.
Qed.

(** ** From the genesis on *)

(** The proposals submitted so far: the hash of the transaction and its payload. *)
Abbreviation submitted := (list (bytes * TrxPayloadProposal)).

(** [p] is a submitted proposal, at whatever stage. *)
Definition origin (hs : submitted) (p : GovProposal) : Prop :=
  exists pl, (prop_hash p, pl) ∈ hs /\ ph_PropType (gp_Header p) = pp_OptType pl /\
    ph_ApplyHeight (gp_Header p) = pp_ApplyingHeight pl /\ map vo_Option (gp_Options p) ≡ₚ pp_Options pl.

Inductive gov_step : submitted -> GovCtrler T I -> submitted -> GovCtrler T I -> Prop :=
| step_trx isVal vals total tx txhash height hs s o s' :
    vals_ok vals total -> gov_payload_ok tx ->
    gov_run_trx isVal vals total tx txhash height s = (o, s') ->
    gov_step hs s
      match o, tx_Payload tx with
      | Ok _, Some (TrxPayloadProposal_ pl) => (txhash, pl) :: hs
      | _, _ => hs
      end s'
| step_begin byzantines hs s o s' :
    0 <= GovParams.SlashRate (govParams s) <= 100 ->
    gov_BeginBlock byzantines s = (o, s') -> gov_step hs s hs s'
| step_end height hs s o s' : gov_EndBlock height s = (o, s') -> gov_step hs s hs s'
| step_commit hs s o s' : gov_Commit s = (o, s') -> gov_step hs s hs s'.

Inductive gov_reach : submitted -> GovCtrler T I -> Prop :=
| reach_genesis gp s o s' :
    coh ∅ (govState s) ∅ -> newGovParams s = None -> GovParams.ok gp ->
    gov_InitLedger gp s = (o, s') -> gov_reach [] s'
| reach_step hs s hs' s' : gov_reach hs s -> gov_step hs s hs' s' -> gov_reach hs' s'.

(** [np] merges into [gp] the option that voters with two thirds of the power of
    a submitted proposal on the parameters chose. *)
Definition voted (hs : submitted) (gp np : GovParamsProto) : Prop :=
  exists p o gp', origin hs p /\ ph_PropType (gp_Header p) = PROPOSAL_GOVPARAMS /\ approved p o /\
    json_GovParams (vo_Option o) = Ok gp' /\ np = GovParams.MergeGovParams gp gp'.

(** The invariant of the reachable states. *)
Record gov_ok (hs : submitted) s m : Prop := {
  go_inv : gov_inv s m;
  go_origin : forall k p, m !! k = Some (IProposal p) -> origin hs p;
  go_voted : forall np, newGovParams s = Some np -> voted hs (govParams s) np;
}.

Lemma origin_kin hs p p' : kin p p' -> origin hs p -> origin hs p'.
Proof.
  intros [Et Eh _ _ Ea Eo] (pl & Hin & Ht & Ha & Ho). exists pl. unfold prop_hash in *.
  rewrite Et, Eh, Ea, Eo. done.
Qed.

Lemma origin_more hs hs' p : hs ⊆ hs' -> origin hs p -> origin hs' p.
Proof. intros Hs (pl & Hin & Hr). exists pl. auto. Qed.

Lemma voted_more hs hs' gp np : hs ⊆ hs' -> voted hs gp np -> voted hs' gp np.
Proof. intros Hs (p & o & gp' & Ho & Hr). exists p, o, gp'. split; [now apply (origin_more hs)|done]. Qed.

(** Every proposal of the ledger is stored open or frozen. *)
Lemma stored_prop s m k p :
  coh ∅ (govState s) m -> m !! k = Some (IProposal p) ->
  k = LedgerKeyProposal (prop_hash p) \/ k = LedgerKeyFrozenProp (prop_hash p).
Proof. intros HC Hk. destruct (gov_typed _ _ _ _ _ HC Hk) as [[E _]|[E _]]; auto. Qed.

(** Steps that keep the parameters and derive every proposal from one. *)
Lemma gov_ok_kin hs s m s' m' :
  gov_ok hs s m -> coh ∅ (govState s') m' -> params s' = params s ->
  m' !! LedgerKeyGovParams = m !! LedgerKeyGovParams ->
  (forall k p', m' !! k = Some (IProposal p') -> exists k0 p, m !! k0 = Some (IProposal p) /\ kin p p') ->
  gov_ok hs s' m'.
Proof.
  intros [[_ Hgp Hnew Hst] Hor Hvo] HC' Hp Hg Hk. injection Hp as Eg En. split; [split| |].
  - done.
  - congruence.
  - intros np. rewrite En. auto.
  - now rewrite Hg, Eg, En.
  - intros k p' Hp'. destruct (Hk k p' Hp') as (k0 & p & Hp0 & K). apply (origin_kin hs p); [done|]. eauto.
  - intros np. rewrite En, Eg. auto.
Qed.

Lemma ok_propose hs s m s' vals total tx txhash pl :
  gov_ok hs s m -> params s' = params s -> vals_ok vals total ->
  let m' := <[LedgerKeyProposal txhash := IProposal (new_proposal vals total pl txhash)]> m in
  tx_Payload tx = Some (TrxPayloadProposal_ pl) -> coh ∅ (govState s') m' -> gov_ok ((txhash, pl) :: hs) s' m'.
Proof.
  intros [[_ Hgp Hnew Hst] Hor Hvo] Hp Hv m' Epl HC'. injection Hp as Eg En.
  assert (Hs : hs ⊆ (txhash, pl) :: hs) by set_solver. split; [split| |].
  - done.
  - congruence.
  - intros np. rewrite En. auto.
  - unfold m'. rewrite lookup_insert_ne by done. now rewrite Eg, En.
  - intros k p Hk. apply lookup_insert_Some in Hk as [[<- E]|[_ Hk]]; [|now apply (origin_more hs), (Hor k)].
    injection E as <-. rewrite new_proposal_eq by apply Hv. exists pl. cbn. split; [now left|].
    split; [done|]. split; [done|]. rewrite map_map. cbn. now rewrite map_id.
  - intros np. rewrite En, Eg. intros E. now apply (voted_more hs), Hvo.
Qed.

Lemma ok_trx hs s m isVal vals total tx txhash height o s' :
  gov_ok hs s m -> vals_ok vals total -> gov_payload_ok tx ->
  gov_run_trx isVal vals total tx txhash height s = (o, s') ->
  exists m', params s' = params s /\
    gov_ok match o, tx_Payload tx with
           | Ok _, Some (TrxPayloadProposal_ pl) => (txhash, pl) :: hs
           | _, _ => hs
           end s' m'.
Proof.
  intros Hok Hv Hpay E. pose proof (gi_coh _ _ (go_inv _ _ _ Hok)) as HC.
  pose proof (wp_gov_run_trx isVal vals total tx txhash height s m HC Hv Hpay) as Hw.
  unfold wp in Hw. rewrite E in Hw. cbn [fst snd] in Hw. destruct Hw as [Hp Hw].
  assert (Hsame : coh ∅ (govState s') m -> gov_ok hs s' m).
  { intros HC'. apply (gov_ok_kin hs s m); try done. intros k p' Hp'. exists k, p'. done. }
  destruct o as [[]|e|]; [|exists m; auto..]. destruct Hw as (m' & HC' & Heff). exists m'. split; [done|].
  destruct Heff as [(pl & Epl & Hn & ->)|(x & c & p & p' & Epl & Hx & _ & Ed & ->)]; rewrite Epl.
  - now apply (ok_propose hs s m s' vals total tx).
  - apply (gov_ok_kin hs s m); try done; [now rewrite lookup_insert_ne|].
    intros k q Hq. apply lookup_insert_Some in Hq as [[<- E']|[_ Hq]]; [|now exists k, q].
    injection E' as <-. exists (LedgerKeyProposal x), p. split; [done|]. eapply DoVote_kin, Ed.
Qed.

Lemma slashes_kin hs s m s' m' addr rate :
  gov_ok hs s m -> 0 <= rate <= 100 -> coh ∅ (govState s') m' -> params s' = params s -> slashes addr rate m m' ->
  gov_ok hs s' m'.
Proof.
  intros Hok Hr HC' Hp (Ho & Hf & Hg). pose proof (gi_coh _ _ (go_inv _ _ _ Hok)) as HC.
  apply (gov_ok_kin hs s m); try done. intros k p' Hk.
  destruct (stored_prop s' m' k p' HC' Hk) as [->| ->].
  - rewrite Ho in Hk. unfold slash_item in Hk.
    destruct (m !! LedgerKeyProposal (prop_hash p')) as [[gp|p]|] eqn:Em; [done| |done].
    exists (LedgerKeyProposal (prop_hash p')), p. split; [done|]. injection Hk as <-.
    destruct (slashed addr rate p) as [q|] eqn:Es; cbn; [|reflexivity].
    eapply slashed_open; [|exact Hr|exact Es]. now apply (gov_open_ok _ _ _ _ _ HC Em).
  - rewrite Hf in Hk. eexists _, p'. split; [exact Hk|reflexivity].
Qed.

Lemma wp_ok_begin hs s m byzantines :
  gov_ok hs s m -> 0 <= GovParams.SlashRate (govParams s) <= 100 ->
  wp (gov_BeginBlock byzantines) (okQ (fun _ s' => exists m', params s' = params s /\ gov_ok hs s' m')) s.
Proof.
  intros Hok Hr. unfold gov_BeginBlock.
  apply (wp_for_each _ _ (fun _ s' => exists m', params s' = params s /\ gov_ok hs s' m')); [eauto|].
  intros a rest s1 (m1 & Hp1 & Hok1). injection Hp1 as Eg En.
  apply wp_ignore. eapply wp_mono; [apply (wp_gov_doSlash s1 m1 a)|].
  - apply Hok1.
  - now rewrite Eg.
  - intros [pw|e|] s2; cbn [okQ]; try done. intros (m2 & HC2 & Hp2 & Hs). exists m2. split.
    + rewrite Hp2. unfold params. now rewrite Eg, En.
    + eapply slashes_kin; [exact Hok1| |exact HC2|exact Hp2|exact Hs]. now rewrite Eg.
Qed.

(** The proposals that are applied come from open or frozen ones. *)
Lemma frozen_after_origin hs s m h x q :
  gov_ok hs s m -> frozen_after h m x = Some (IProposal q) -> origin hs q /\ frozen_ok q.
Proof.
  intros Hok. pose proof (gi_coh _ _ (go_inv _ _ _ Hok)) as HC. unfold frozen_after.
  assert (Hf : m !! LedgerKeyFrozenProp x = Some (IProposal q) -> origin hs q /\ frozen_ok q).
  { intros Hq. split; [eapply go_origin; eauto|]. now apply (gov_frozen_ok _ _ _ _ _ HC Hq). }
  destruct (m !! LedgerKeyProposal x) as [[gp|p]|] eqn:Em; try done.
  destruct (won h p) as [p'|] eqn:Ew; [|done]. intros [= <-]. destruct (gov_open_ok _ _ _ _ _ HC Em) as [_ Hop].
  destruct (won_frozen h p p' Hop Ew) as (Hfz & K & _). split; [|done]. apply (origin_kin hs p); [done|].
  eapply go_origin; eauto.
Qed.

Lemma pend_voted hs gp qs : forall np,
  Forall (fun q => origin hs q /\ frozen_ok q) qs -> (forall x, np = Some x -> voted hs gp x) ->
  forall x, fold_left (pend gp) qs np = Some x -> voted hs gp x.
Proof.
  induction qs as [|q qs IH]; intros np Hqs Hnp; cbn [fold_left]; [done|].
  apply Forall_cons in Hqs as [[Ho Hf] Hqs]. apply IH; [done|]. unfold pend.
  destruct (Z.eqb_spec (ph_PropType (gp_Header q)) PROPOSAL_GOVPARAMS) as [Ht|]; [|done].
  destruct (frozen_parses q Hf Ht) as (o & gp' & -> & Ha & Ej). rewrite Ej. intros x [= <-].
  exists q, o, gp'. done.
Qed.

Lemma ok_end hs s m h s' m' ev : gov_ok hs s m -> settled h s m s' m' ev -> gov_ok hs s' m'.
Proof.
  intros Hok [Hinv Ho Hf Hg (qs & Hqs & _ & Hn & _) _ _]. pose proof (gi_coh _ _ Hinv) as HC'. split; [done|..].
  - intros k p Hk. destruct (stored_prop s' m' k p HC' Hk) as [->| ->].
    + rewrite Ho in Hk. unfold open_after in Hk.
      destruct (m !! LedgerKeyProposal _) as [[gp|p0]|] eqn:Em; [done| |done].
      destruct (_ <? h); [done|]. injection Hk as <-. eapply go_origin; eauto.
    + rewrite Hf in Hk. unfold frozen_left in Hk.
      destruct (frozen_after h m _) as [[gp|q]|] eqn:Em; [done| |done]. destruct (_ <=? h); [done|].
      injection Hk as <-. now apply (frozen_after_origin hs s m h _ _ Hok Em).
  - intros np E. rewrite Hg. rewrite Hn in E. eapply pend_voted; [|apply Hok|exact E].
    apply Forall_forall. intros q Hq. apply Hqs in Hq as [Hq _]. now apply (frozen_after_origin hs s m h _ _ Hok Hq).
Qed.

(** The commit puts the waiting parameters in force. *)
Lemma wp_ok_commit hs s m :
  gov_ok hs s m ->
  wp gov_Commit (okQ (fun _ s' => gov_ok hs s' m /\ govParams s' = default (govParams s) (newGovParams s))) s.
Proof.
  intros [[HC Hgp Hnew Hst] Hor Hvo]. unfold gov_Commit. apply wp_bind, wp_zoom. cbn [lget gov_lens].
  eapply wp_mono; [apply (wp_Commit _ m HC)|]. intros [hv|e|] ls; cbn [okQ]; try done. intros ([HC' _] & _).
  apply wp_bind, wp_modify, wp_ret. cbn [okQ lset gov_lens newGovParams govState govParams].
  destruct (newGovParams s) as [np|] eqn:E; (split; [|done]); (split; [split|..]); cbn; eauto.
  all: intros np'; rewrite ?E; done.
Qed.

Lemma ok_step hs s m hs' s' :
  gov_ok hs s m -> gov_step hs s hs' s' ->
  exists m', gov_ok hs' s' m' /\ (govParams s' = govParams s \/ voted hs (govParams s) (govParams s')).
Proof.
  intros Hok Hst. destruct Hst as [isVal vals total tx txhash height hs s o s' Hv Hpay E|byz hs s o s' Hr E
    |height hs s o s' E|hs s o s' E].
  - destruct (ok_trx hs s m _ _ _ _ _ _ _ _ Hok Hv Hpay E) as (m' & Hp & Hok'). injection Hp as Eg _. eauto.
  - pose proof (wp_ok_begin hs s m byz Hok Hr) as Hw. unfold wp in Hw. rewrite E in Hw.
    destruct o as [[]|e|]; cbn in Hw; [|done..]. destruct Hw as (m' & Hp & Hok'). injection Hp as Eg _. eauto.
  - pose proof (wp_gov_EndBlock s m height (go_inv _ _ _ Hok)) as Hw. unfold wp in Hw. rewrite E in Hw.
    destruct o as [ev|e|]; cbn in Hw; [|done..]. destruct Hw as [m' Hs]. exists m'.
    split; [now apply (ok_end hs s m height s' m' ev)|]. left. apply Hs.
  - pose proof (wp_ok_commit hs s m Hok) as Hw. unfold wp in Hw. rewrite E in Hw.
    destruct o as [hv|e|]; cbn in Hw; [|done..]. destruct Hw as [Hok' Eg]. exists m. split; [done|].
    destruct (newGovParams s) as [np|] eqn:En; [right|left; exact Eg]. rewrite Eg. now apply Hok.
Qed.

Lemma ok_genesis gp s o s' :
  coh ∅ (govState s) ∅ -> newGovParams s = None -> GovParams.ok gp -> gov_InitLedger gp s = (o, s') ->
  exists m, gov_ok [] s' m.
Proof.
  intros HC En Hgp E.
  assert (Hw : wp (gov_InitLedger gp) (okQ (fun _ s' => exists m, gov_ok [] s' m)) s).
  { unfold gov_InitLedger. apply wp_bind, wp_modify, wp_bind, wp_zoom. cbn [lget gov_lens govState].
    apply (held_alloc_rule ∅ _ ∅); [done|]. intros l ls HC1 Hl _ _ _ _. apply wp_ignore.
    eapply (gov_set_free_rule _ ∅ LedgerKeyGovParams l (IGovParams gp)); [exact HC1|done|exact Hl|done|].
    intros s1 HC' _ Hp. injection Hp as Eg1 En1. cbn in Eg1, En1. cbn [okQ]. rewrite En in En1.
    eexists. split; [split; [exact HC'|..]|..]; rewrite ?Eg1, ?En1; try done.
    intros k p Hk. apply lookup_insert_Some in Hk as [[_ ?]|[_ Hk]]; [done|]. now rewrite lookup_empty in Hk. }
  unfold wp in Hw. rewrite E in Hw. now destruct o.
Qed.

Lemma reach_ok hs s : gov_reach hs s -> exists m, gov_ok hs s m.
Proof.
  induction 1 as [gp s o s' HC En Hgp E|hs s hs' s' _ [m Hok] Hst]; [now apply (ok_genesis gp s o)|].
  destruct (ok_step hs s m hs' s' Hok Hst) as (m' & Hok' & _). eauto.
Qed.


(** C9. The items of the governance ledger are typed: from the genesis on, reading
    any key finds nothing or an item of the kind the key names, the parameters
    under their key and a proposal under its own hash, open or frozen, with its
    integers at their width and its counts exact; it never finds bytes that do not
    decode, or an item of another kind, so the type assertions on it succeed. *)
Theorem gov_items_typed hs s k :
  gov_reach hs s -> k <> [] ->
  wp (let! l := gov_Get k true in zoom gov_lens (l_deref l)) (fun o _ =>
    match o with
    | Ok x => gitem_ok k x
    | Err e => e = ErrNotFoundResult
    | Panic => False
    end) s.
Proof.
  intros Hr Hk. destruct (reach_ok hs s Hr) as [m [[HC _ _ _] _ _]]. apply wp_bind, wp_zoom. cbn [lget gov_lens].
  destruct (m !! k) as [x|] eqn:Ex; [|by apply (wp_Get_none ∅ _ m)].
  apply (held_get_rule ∅ _ m k x); [done..|]. intros l ls _ Hl _ _ _. apply wp_zoom. cbn [lget lset gov_lens govState].
  apply (held_deref_rule _ k l x _ Hl). exact (gov_typed _ _ _ _ _ HC Ex).
Qed.

(** A controller started on the ledger of a reachable state with nothing to
    commit has its parameters. *)
Theorem gov_load_committed hs s gp :
  gov_reach hs s -> newGovParams s = None ->
  exists s', gov_load (MkGovCtrler (govState s) gp None) = (Ok tt, s') /\ govParams s' = govParams s.
Proof.
  intros Hr En. destruct (reach_ok hs s Hr) as [m [[HC _ _ Hst] _ _]]. rewrite En in Hst. cbn in Hst.
  assert (Hw : wp gov_load (okQ (fun _ s' => govParams s' = govParams s)) (MkGovCtrler (govState s) gp None)).
  { apply wp_bind, wp_try, wp_zoom. cbn [lget gov_lens govState].
    apply (held_get_rule ∅ _ m _ (IGovParams (govParams s))); [done..|]. intros l ls _ Hl _ _ _.
    apply wp_bind, wp_zoom. cbn [lget lset gov_lens govState]. apply (held_deref_rule _ _ l _ _ Hl). now apply wp_modify. }
  unfold wp in Hw. destruct (gov_load _) as [[[]|e|] s']; cbn in Hw; [|done..]. eauto.
Qed.

End Props.

(** ** A chain that changes its slash rate *)
Module GovWitness.

(** Messages packed into lists of integers. *)
Definition pack_params (gp : GovParamsProto) : list (list Z) :=
  [[p_Version gp; p_EmptyBlockIntervalSecs gp; p_MaxValidatorCnt gp; p_MinValidatorPower gp;
    p_MinDelegatorPower gp; p_MaxValidatorsOfDelegator gp; p_MaxDelegatorsOfValidator gp;
    p_MinSelfPowerRate gp; p_MaxUpdatablePowerRate gp; p_MaxIndividualPowerRate gp;
    p_MinBondingBlocks gp; p_MinSignedBlocks gp; p_LazyUnbondingBlocks gp;
    p_InflationWeightPermil gp; p_InflationCycleBlocks gp; p_BondingBlocksWeightPermil gp;
    p_RipeningBlocks gp; p_ValidatorRewardRate gp; p_TxFeeRewardRate gp; p_SlashRate gp;
    p_MinTrxGas gp; p_BlockSizeLimit gp; p_BlockGasLimit gp; p_MinVotingPeriodBlocks gp;
    p_MaxVotingPeriodBlocks gp; p_LazyApplyingBlocks gp];
   p_XMaxTotalSupply gp; p_XRewardPoolAddress gp; p_XDeadAddress gp; p_XGasPrice gp].

Definition unpack_params (l : list (list Z)) : GovParamsProto :=
  match l with
  | [[i0; i1; i2; i3; i4; i5; i6; i7; i8; i9; i10; i11; i12; i13; i14; i15; i16; i17; i18; i19; i20;
      i21; i22; i23; i24; i25]; b0; b1; b2; b3] =>
      MkGovParams i0 i1 i2 i3 i4 i5 i6 i7 i8 i9 i10 i11 i12 b0 i13 i14 i15 i16 b1 b2 i17 i18 i19 b3 i20 i21
        i22 i23 i24 i25
  | _ => GovParams.zero
  end.

Definition pack_voter (v : Voter) : list Z := vt_Power v :: vt_Choice v :: vt_Address v.
Definition unpack_voter (l : list Z) : Voter :=
  match l with pw :: c :: a => MkVoter a pw c | _ => MkVoter [] 0 0 end.
Definition pack_option (o : VoteOption) : list Z := vo_Votes o :: vo_Option o.
Definition unpack_option (l : list Z) : VoteOption :=
  match l with n :: t => MkVoteOption t n | _ => MkVoteOption [] 0 end.

Definition pack_prop (p : GovProposal) : list (list Z) :=
  let h := gp_Header p in
  [ph_PropType h; ph_StartVotingHeight h; ph_EndVotingHeight h; ph_ApplyHeight h; ph_TotalVotingPower h;
   ph_MajorityPower h; Z.of_nat (length (ph_Voters h))] :: ph_TxHash h ::
  match gp_MajorOption p with Some o => pack_option o | None => [] end ::
  map pack_voter (ph_Voters h) ++ map pack_option (gp_Options p).

Definition unpack_prop (l : list (list Z)) : GovProposal :=
  match l with
  | [ty; st; en; ap; tot; maj; n] :: hash :: mo :: rest =>
      MkGovProposal
        (MkProposalHeader ty hash st en ap tot maj (map unpack_voter (take (Z.to_nat n) rest)))
        (map unpack_option (drop (Z.to_nat n) rest))
        match mo with [] => None | _ => Some (unpack_option mo) end
  | _ => MkGovProposal (MkProposalHeader 0 [] 0 0 0 0 0 []) [] None
  end.

Lemma unpack_pack_params gp : unpack_params (pack_params gp) = gp.
Proof. now destruct gp. Qed.

Lemma unpack_pack_prop p : unpack_prop (pack_prop p) = p.
Proof.
  destruct p as [[] opts maj]; cbn. rewrite Nat2Z.id, take_app_length', drop_app_length' by now rewrite length_map.
  rewrite !map_map. f_equal.
  - f_equal. rewrite <- map_id. apply map_ext. now intros [].
  - rewrite <- map_id. apply map_ext. now intros [].
  - now destruct maj as [[]|].
Qed.

#[local] Instance packed_params : Countable GovParamsProto := inj_countable' pack_params unpack_params unpack_pack_params.
Definition packed_prop : Countable GovProposal := inj_countable' pack_prop unpack_prop unpack_pack_prop.

#[local] Instance w_protos : GovProtos :=
  Build_GovProtos Countable_proto (@Countable_proto GovProposal _ packed_prop).
#[local] Instance w_protos_laws : GovProtosLaws.
Proof. split; apply Countable_proto_laws. Qed.

(** The text [1] sets the slash rate, any other is not valid. *)
Definition rate_30 : GovParamsRead :=
  MkGovParams 0 0 0 0 0 0 0 0 0 0 0 0 0 None 0 0 0 0 None None 0 0 30 None 0 0 0 0 0 0.
#[local] Instance w_json : GovJson := fun b =>
  match b with [1] => Ok rate_30 | _ => Err (GoError "invalid character") end.
#[local] Instance w_json_laws : GovJsonLaws.
Proof.
  intros b gp E. unfold json_GovParams, w_json in E.
  assert (E' : rate_30 = gp) by (destruct b as [|[|[| |]|] [|]]; congruence). subst gp.
  split; repeat constructor; vm_compute; congruence.
Qed.

Abbreviation wgov := (GovCtrler RefTree.tree (gmap bytes bytes)).

Definition gov_empty : wgov :=
  MkGovCtrler
    (MkLState empty_store
       (MkStateLedger (MkMutableLedger RefTree.empty [] ∅) (MkMemLedger (Some ∅) ∅ []))) GovParams.zero None.

Lemma gov_empty_coh : coh ∅ (govState gov_empty) ∅.
Proof. split; cbn; try done. constructor. Qed.

Definition val_a : Address := repeat 1 20.
Definition val_b : Address := repeat 2 20.
Definition vals : list (Address * Z) := [(val_a, 70); (val_b, 30)].

Lemma vals_fine : vals_ok vals 100.
Proof.
  split; [|repeat constructor; cbn; lia|done|done].
  apply (bool_decide_eq_true_1 (NoDup (map fst vals))). vm_compute. reflexivity.
Qed.

Definition gov_tx (from : Address) (ty : Z) (pl : ITrxPayload) : Trx :=
  MkTrx 1 0 0 from ZeroAddress 0 4000 0 ty (Some pl) [] [] [].

(** A proposal, a vote of the stronger validator, and the height of the proposal. *)
Definition w_payload : TrxPayloadProposal :=
  MkTrxPayloadProposal [] 10 86400 172810 PROPOSAL_GOVPARAMS [[1]].
Definition w_hash : bytes := [7; 7].
Definition w_propose := gov_run_trx (fun _ => true) vals 100 (gov_tx val_a TRX_PROPOSAL (TrxPayloadProposal_ w_payload)) w_hash 1.
Definition w_vote := gov_run_trx (fun _ => true) vals 100 (gov_tx val_a TRX_VOTING (TrxPayloadVoting w_hash 0)) [8] 20.

Definition gov0 : wgov := snd (gov_InitLedger GovParams.DefaultGovParams gov_empty).
Definition gov1 : wgov := snd (w_propose gov0).
Definition gov2 : wgov := snd (w_vote gov1).
Definition gov3 : wgov := snd (gov_EndBlock 172810 gov2).
Definition gov4 : wgov := snd (gov_Commit gov3).

Lemma default_ok : GovParams.ok GovParams.DefaultGovParams.
Proof. split; repeat constructor; vm_compute; congruence. Qed.

Lemma reach0 : gov_reach [] gov0.
Proof. eapply reach_genesis; [apply gov_empty_coh|done|apply default_ok|apply surjective_pairing]. Qed.

Lemma reach1 : gov_reach [(w_hash, w_payload)] gov1.
Proof.
  assert (E1 : fst (w_propose gov0) = Ok tt) by (vm_compute; reflexivity). apply (reach_step _ _ _ _ reach0).
  apply (step_trx (fun _ => true) vals 100 (gov_tx val_a TRX_PROPOSAL (TrxPayloadProposal_ w_payload)) w_hash 1
    [] gov0 (Ok tt) gov1 vals_fine); [repeat split; vm_compute; congruence|]. rewrite <- E1. apply surjective_pairing.
Qed.

Lemma reach2 : gov_reach [(w_hash, w_payload)] gov2.
Proof.
  assert (E2 : fst (w_vote gov1) = Ok tt) by (vm_compute; reflexivity). apply (reach_step _ _ _ _ reach1).
  apply (step_trx (fun _ => true) vals 100 (gov_tx val_a TRX_VOTING (TrxPayloadVoting w_hash 0)) [8] 20
    [(w_hash, w_payload)] gov1 (Ok tt) gov2 vals_fine I). rewrite <- E2. apply surjective_pairing.
Qed.

Lemma reach3 : gov_reach [(w_hash, w_payload)] gov3.
Proof. eapply reach_step; [exact reach2|]. eapply (step_end 172810), surjective_pairing. Qed.

Lemma proposals_settled_witness :
  exists m ev s' m', gov_inv gov2 m /\ gov_EndBlock 172810 gov2 = (Ok ev, s') /\ settled 172810 gov2 m s' m' ev /\
    ev = ([w_hash], [], [w_hash]).
Proof.
  destruct (reach_ok _ _ reach2) as [m Hok].
  destruct (proposals_settled gov2 m 172810 (go_inv _ _ _ Hok)) as (ev & s' & m' & E & Hs).
  exists m, ev, s', m'. split; [apply Hok|]. split; [exact E|]. split; [exact Hs|].
  assert (Ev : fst (gov_EndBlock 172810 gov2) = Ok ([w_hash], [], [w_hash])) by (vm_compute; reflexivity).
  rewrite E in Ev. cbn in Ev. congruence.
Defined.


(** The proposal the stronger validator has voted for. *)
Lemma gov_items_typed_witness :
  exists p, fst ((let! l := gov_Get (LedgerKeyProposal w_hash) true in zoom gov_lens (l_deref l)) gov2) = Ok (IProposal p) /\
    gitem_ok (LedgerKeyProposal w_hash) (IProposal p).
Proof.
  pose proof (gov_items_typed [(w_hash, w_payload)] gov2 (LedgerKeyProposal w_hash) reach2 ltac:(discriminate)) as Hw.
  unfold wp in Hw. destruct ((let! l := gov_Get (LedgerKeyProposal w_hash) true in zoom gov_lens (l_deref l)) gov2) as [[[gp|p]|e|] s'] eqn:E;
    [|exists p; split; [reflexivity|exact Hw]|..].
  - destruct Hw as [Hk _]. discriminate Hk.
  - exfalso. vm_compute in E. discriminate E.
  - destruct Hw.
Defined.

End GovWitness.
