(* ===== verification/TrxProps.v ===== *)
(** * TrxProps: transactions on the wire and their signatures

    Encoding is lossless; a verified transaction was signed by its sender over
    all of its fields and the chain's id; and where validation lets through what
    it means to refuse. *)
From stdpp Require Import base gmap list strings countable.
From Stdlib Require Import ZArith Lia.
From S2P Require Import Prelude XErrors GoMonad LedgerKeys Units Proto TrxTypes Signer.

(** The bytes of a well-formed transaction decode to it. *)
Lemma wf_codec `{Utf8, TrxProtos, !TrxProtosLaws} (tx : Trx) :
  tx_wf tx -> exists b, tx_Encode tx = Ok b /\ tx_Decode b = Ok tx.
Proof.
  intros Hwf. destruct (toProto_fromProto tx Hwf) as (pm & Ht & Hf & Hok).
  destruct (proto_roundtrip pm) as (b & Hm & Hu); [exact Hok|].
  exists b. unfold tx_Encode, tx_Decode. rewrite Ht; cbn. rewrite Hm, Hu; cbn. done.
Qed.

(** C28. Encoding a well-formed transaction of any type succeeds and decoding the
    bytes gives the same transaction: amounts, payload, signatures and payer
    included. *)
Theorem trx_roundtrip `{Utf8, TrxProtos, !TrxProtosLaws} (tx : Trx) :
  tx_wf tx -> exists b, tx_Encode tx = Ok b /\ tx_Decode b = Ok tx.
Proof. apply wf_codec. Qed.

Section Signatures.
Context `{CryptoLib, RlpLib}.

(** C27. The verification of a transaction returns an address and a key exactly
    when the address is the sender's, the key is the one recovered from the
    transaction's own signature and the hash of its preimage, and the address is
    the address of that key; the last byte of the signature names the preimage, of
    [SignerV0] for 0 and 1 and of [SignerV1] for 27 and 28, where it has to be the
    last of 65 and is reduced by 27.  The payer's verification returns the payer
    and the key of the payer's signature in the same way. *)
Theorem verified_signer_sound (s : Signers) (tx : Trx) addr pub :
  (VerifyTrxRLP s tx = Ok (addr, pub) <-> addr = tx_From tx /\ signed_by s tx false addr pub) /\
  (VerifyPayerTrxRLP s tx = Ok (addr, pub) <-> addr = tx_Payer tx /\ signed_by s tx true addr pub).
Proof. split; [exact (Verify_iff s tx false (addr, pub))|exact (Verify_iff s tx true (addr, pub))]. Qed.

(** What is signed verifies: a transaction signed by either signer, as its
    sender or as its payer, with the key of the address it names, passes the
    verification, which picks the signer by the recovery byte and returns that
    address and key. *)
Theorem signed_trx_verifies pub_of (s : Signers) (tx : Trx) prv (isPayer : bool) sig tx' :
  sign_recovers pub_of -> signer_of tx isPayer = PubKeyBytes2Addr (pub_of prv) ->
  signV0 s tx prv isPayer = Ok (sig, tx') \/ signV1 s tx prv isPayer = Ok (sig, tx') ->
  (if isPayer then VerifyPayerTrxRLP s tx' else VerifyTrxRLP s tx') = Ok (signer_of tx isPayer, pub_of prv).
Proof. intros Hr Ha [Hs|Hs]; [eapply signV0_verifies in Hs|eapply signV1_verifies in Hs]; eauto. Qed.

(** Two transactions with the same preimage under [SignerV1] have the same RLP
    record and were made for the same chain id. *)
Lemma preimage_binds_rlp (s s' : Signers) (tx tx' : Trx) isPayer b :
  rlp_prefix_free -> Z.of_nat (length b) < 2 ^ 63 -> in_u256 (chainIdNum s) -> in_u256 (chainIdNum s') ->
  getPreimageV1 s tx isPayer = Ok b -> getPreimageV1 s' tx' isPayer = Ok b ->
  (exists r, EncodeRLP (preimage_tx tx isPayer) = Ok r /\ EncodeRLP (preimage_tx tx' isPayer) = Ok r) /\
  chainIdNum s = chainIdNum s'.
Proof.
  intros Hpf Hl Hc Hc' Hp Hp'.
  apply preimageV1_inv in Hp as (r & e & Hr & He & ->). apply preimageV1_inv in Hp' as (r' & e' & Hr' & He' & Eb).
  assert (length (e ++ uBytes (chainIdNum s)) = length (e' ++ uBytes (chainIdNum s'))) as El by (by rewrite Eb).
  rewrite !length_app in *.
  assert (r = r') as <- by (eapply Hpf; try exact Eb; eauto using EncodeRLP_words; lia). assert (e = e') as <- by congruence.
  apply app_inv_head in Eb. apply uBytes_inj in Eb; [|done..]. eauto.
Qed.

(** Verification reads the 65th byte of the signature without looking at its
    length, and validation only refuses an empty one: a transaction with a
    one-byte signature passes [Validate] and makes the verification panic. *)
Theorem short_signature_panics (s : Signers) :
  exists tx, Validate tx = Ok tt /\ VerifyTrxRLP s tx = Panic.
Proof.
  exists (MkTrx 1 0 0 (repeat 1 20) (repeat 2 20) 0 0 0 TRX_TRANSFER None [1] [] []).
  split; [vm_compute; reflexivity|]. unfold VerifyTrxRLP. rewrite sig_v_short; [done|]. cbn. unfold SignatureLength. lia.
Qed.

End Signatures.

(** The type of a transaction is never refused by [Validate]: the test is a
    conjunction that no number satisfies. *)
Theorem Validate_never_checks_type (tx : Trx) : Validate tx <> Err ErrInvalidTrxType.
Proof.
  unfold Validate.
  assert ((tx_Type tx <? TRX_MIN_TYPE) && (TRX_MAX_TYPE <? tx_Type tx) = false) as ->.
  { change TRX_MIN_TYPE with 1. change TRX_MAX_TYPE with 8. lia. }
  repeat match goal with |- context [if ?b then _ else _] => destruct b end;
    intros E; vm_compute in E; discriminate E.
Qed.

(** ** Witnesses *)

Module TrxWitness.

Instance TrxProto_eq_dec : EqDecision TrxProto.
Proof. solve_decision. Defined.
Instance UnstakingProto_eq_dec : EqDecision UnstakingProto.
Proof. solve_decision. Defined.
Instance WithdrawProto_eq_dec : EqDecision WithdrawProto.
Proof. solve_decision. Defined.
Instance ProposalPayloadProto_eq_dec : EqDecision ProposalPayloadProto.
Proof. solve_decision. Defined.
Instance VotingProto_eq_dec : EqDecision VotingProto.
Proof. solve_decision. Defined.
Instance ContractProto_eq_dec : EqDecision ContractProto.
Proof. solve_decision. Defined.
Instance SetDocProto_eq_dec : EqDecision SetDocProto.
Proof. solve_decision. Defined.
Instance trxRLP_eq_dec : EqDecision trxRLP.
Proof. solve_decision. Defined.

#[refine] Instance TrxProto_countable : Countable TrxProto :=
  inj_countable' (fun m => (tp_Version m, tp_Time m, tp_Nonce m, tp_From m, tp_To m, tp_XAmount m,
      tp_Gas m, tp_XGasPrice m, tp_Type m, tp_XPayload m, tp_Sig m, tp_Payer m, tp_PayerSig m))
    (fun '(a, b, c, d, e, f, g, h, i, j, k, l, m) => MkTrxProto a b c d e f g h i j k l m) _.
Proof. by intros []. Defined.
#[refine] Instance UnstakingProto_countable : Countable UnstakingProto :=
  inj_countable' up_TxHash MkUnstakingProto _.
Proof. by intros []. Defined.
#[refine] Instance WithdrawProto_countable : Countable WithdrawProto :=
  inj_countable' wp_XReqAmt MkWithdrawProto _.
Proof. by intros []. Defined.
#[refine] Instance ProposalPayloadProto_countable : Countable ProposalPayloadProto :=
  inj_countable' (fun m => (ppp_Message m, ppp_StartVotingHeight m, ppp_VotingBlocks m,
      ppp_ApplyingHeight m, ppp_OptType m, ppp_Options m))
    (fun '(a, b, c, d, e, f) => MkProposalPayloadProto a b c d e f) _.
Proof. by intros []. Defined.
#[refine] Instance VotingProto_countable : Countable VotingProto :=
  inj_countable' (fun m => (vp_TxHash m, vp_Choice m)) (fun '(a, b) => MkVotingProto a b) _.
Proof. by intros []. Defined.
#[refine] Instance ContractProto_countable : Countable ContractProto :=
  inj_countable' cp_XData MkContractProto _.
Proof. by intros []. Defined.
#[refine] Instance SetDocProto_countable : Countable SetDocProto :=
  inj_countable' (fun m => (sp_Name m, sp_Url m)) (fun '(a, b) => MkSetDocProto a b) _.
Proof. by intros []. Defined.
#[refine] Instance trxRLP_countable : Countable trxRLP :=
  inj_countable (fun m => [[r_Version m; r_Time m; r_Nonce m; r_Gas m; r_Type m]; r_From m; r_To m;
      r_Amount m; r_GasPrice m; r_Payload m; r_Sig m])
    (fun l => match l with
              | [[ve; ti; no; ga; ty]; fr; to; am; gp; pl; sg] =>
                  Some (MkTrxRLP ve ti no fr to am ga gp ty pl sg)
              | _ => None
              end) _.
Proof. by intros []. Defined.

#[local] Instance w_utf8 : Utf8 := Any_utf8.
#[local] Instance w_trx_protos : TrxProtos :=
  Build_TrxProtos Countable_proto Countable_proto Countable_proto Countable_proto
    Countable_proto Countable_proto Countable_proto.
#[local] Instance w_trx_laws : TrxProtosLaws.
Proof. split; apply Countable_proto_laws. Qed.
#[local] Instance w_crypto : CryptoLib := Toy_crypto.
#[local] Instance w_rlp : RlpLib := {|
  rlp_Encode r := Ok [Z.pos (encode r)];
  rlp_EncodePayload p := payload_Encode p;
  rlp_Decode b := match b with
                  | [Z.pos p] => match decode p with Some r => Ok r | None => Err (GoError "rlp: value size exceeds available input length") end
                  | _ => Err (GoError "rlp: value size exceeds available input length")
                  end;
  rlp_DecodePayload ty b := Err (GoError "rlp: expected List");
  Sprintf_prefix id n := id ++ [n];
|}.

(** The key [7; 7; ...] signs a vote of its own address. *)
Definition w_prv : bytes := repeat 7 32.
Definition w_pub (prv : bytes) : bytes := take 33 (pad 64 prv ++ [0]).
Definition w_addr : Address := PubKeyBytes2Addr (w_pub w_prv).
Definition w_tx : Trx :=
  MkTrx 1 1700000000 3 w_addr (repeat 2 20) (10 ^ 18) 4000 250 TRX_VOTING
    (Some (TrxPayloadVoting (repeat 9 32) (-1))) [] w_addr [].
Definition w_signers : Signers := MkSigners [48; 120; 49] 1.
Definition w_signed (isPayer v1 : bool) : Trx :=
  match (if v1 then signV1 else signV0) w_signers w_tx w_prv isPayer with
  | Ok (_, tx) => tx
  | _ => w_tx
  end.

Lemma w_recovers : sign_recovers w_pub.
Proof.
  intros h prv sig [= <-]. rewrite length_app, length_pad. split; [done|]. split; [left|done].
  by rewrite lookup_app_r, length_pad by (rewrite length_pad; lia).
Qed.

Lemma trx_roundtrip_witness : exists b, tx_Encode w_tx = Ok b /\ tx_Decode b = Ok w_tx.
Proof. apply (trx_roundtrip w_tx). split; by vm_compute. Defined.

Lemma verified_signer_sound_witness :
  signed_by w_signers (w_signed false true) false w_addr (w_pub w_prv) /\
  signed_by w_signers (w_signed true false) true w_addr (w_pub w_prv).
Proof.
  split.
  - apply (proj1 (proj1 (verified_signer_sound w_signers (w_signed false true) w_addr (w_pub w_prv)))).
    vm_compute; reflexivity.
  - apply (proj1 (proj2 (verified_signer_sound w_signers (w_signed true false) w_addr (w_pub w_prv)))).
    vm_compute; reflexivity.
Defined.

Lemma signed_trx_verifies_witness :
  VerifyTrxRLP w_signers (w_signed false true) = Ok (w_addr, w_pub w_prv).
Proof.
  apply (signed_trx_verifies w_pub w_signers w_tx w_prv false (tx_Sig (w_signed false true))).
  - exact w_recovers.
  - reflexivity.
  - right. vm_compute. reflexivity.
Defined.

End TrxWitness.
