(* ===== verification/Numbers.v ===== *)
(** * Numbers: decimals and fixed-point numbers

    Amounts are computed with arbitrary-precision decimals
    ([shopspring/decimal]) and weights with fixed-point numbers
    ([robaho/fixed], wrapped by [libs/fxnum]).  Both packages are third-party:
    [DecimalLib] and [FixedLib] hold the functions the code calls, and
    [DecimalLaws] the documented behaviour of decimals, as rational numbers.
    [Q_decimal] and [Z_fixed] are concrete libraries for the witnesses. *)
From stdpp Require Import base list strings.
From Stdlib Require Import ZArith QArith Qpower Qround Lia Lqa.
From S2P Require Import Prelude XErrors GoMonad.

Open Scope Z_scope.

(** ** Decimals *)

(** [Div] and [QuoRem] panic when the divisor is zero; [QuoRem] returns the
    quotient with the given number of digits, and the remainder. *)
Class DecimalLib (Dec : Type) : Type := {
  dec_Zero : Dec;                        (* [Decimal{}] *)
  dec_New : Z -> Z -> Dec;               (* value, exponent of ten *)
  dec_FromBig : Z -> Z -> Dec;
  dec_Add : Dec -> Dec -> Dec;
  dec_Sub : Dec -> Dec -> Dec;
  dec_Mul : Dec -> Dec -> Dec;
  dec_Neg : Dec -> Dec;
  dec_Floor : Dec -> Dec;
  dec_Pow : Dec -> Dec -> Dec;
  dec_Div : Dec -> Dec -> outcome Dec;
  dec_QuoRem : Dec -> Dec -> Z -> outcome (Dec * Dec);
  dec_Sign : Dec -> Z;
  dec_BigInt : Dec -> Z;                 (* the integer part *)
  DivisionPrecision : Z;
}.

Definition dec_FromInt {Dec} `{DecimalLib Dec} (n : Z) : Dec := dec_New n 0.

(** [10 ^ e] *)
Definition Qpow10 (e : Z) : Q := (inject_Z 10) ^ e.

(** Decimals are exact under sums, differences and products.  A quotient never
    exceeds the fraction it stands for, and a power with a base of at least one
    and an exponent that is not positive lies between zero and one. *)
Class DecimalLaws (Dec : Type) `{DecimalLib Dec} : Type := {
  qval : Dec -> Q;
  dec_Zero_law : (qval dec_Zero == 0)%Q;
  dec_New_law : forall v e, (qval (dec_New v e) == inject_Z v * Qpow10 e)%Q;
  dec_FromBig_law : forall v, (qval (dec_FromBig v 0) == inject_Z v)%Q;
  dec_Add_law : forall a b, (qval (dec_Add a b) == qval a + qval b)%Q;
  dec_Sub_law : forall a b, (qval (dec_Sub a b) == qval a - qval b)%Q;
  dec_Mul_law : forall a b, (qval (dec_Mul a b) == qval a * qval b)%Q;
  dec_Neg_law : forall a, (qval (dec_Neg a) == - qval a)%Q;
  dec_Floor_law : forall a, (qval (dec_Floor a) == inject_Z (Qfloor (qval a)))%Q;
  dec_Pow_law : forall b e, (1 <= qval b)%Q -> (qval e <= 0)%Q -> (0 <= qval (dec_Pow b e) <= 1)%Q;
  dec_Div_law : forall a b, (0 <= qval a <= qval b)%Q -> (0 < qval b)%Q ->
    exists r, dec_Div a b = Ok r /\ (0 <= qval r <= 1)%Q;
  dec_QuoRem_law : forall a b p, (0 <= qval a)%Q -> (0 < qval b)%Q ->
    exists q r, dec_QuoRem a b p = Ok (q, r) /\ (0 <= qval q)%Q /\ (qval q * qval b <= qval a)%Q;
  dec_Sign_law : forall a, dec_Sign a < 0 <-> (qval a < 0)%Q;
  dec_BigInt_law : forall a, (0 <= qval a)%Q -> dec_BigInt a = Qfloor (qval a);
}.

(** ** Fixed-point numbers *)

Class FixedLib (Fixed : Type) : Type := {
  fixed_NewI : Z -> Z -> Fixed;          (* value, number of decimal places *)
  fixed_Add : Fixed -> Fixed -> Fixed;
  fixed_Sub : Fixed -> Fixed -> Fixed;
  fixed_Mul : Fixed -> Fixed -> Fixed;
  fixed_Div : Fixed -> Fixed -> Fixed;
  fixed_IsNaN : Fixed -> bool;
  fixed_MarshalBinary : Fixed -> outcome bytes;
}.

(** A difference that is a number gives the minuend back when added to the
    subtrahend: the library adds and subtracts 64-bit values and gives
    not-a-number for an operand that is not a number. *)
Class FixedLaws (Fixed : Type) `{FixedLib Fixed} : Prop :=
  fixed_Add_Sub : forall x y : Fixed, fixed_IsNaN (fixed_Sub y x) = false -> fixed_Add x (fixed_Sub y x) = y.

(** [binary.Uvarint]: seven bits a byte, least significant first; [i] bytes
    were read, whose value is [x].  It gives 0 when the buffer ends early or the
    value needs more than 64 bits. *)
Fixpoint Uvarint_from (i : nat) (x : Z) (buf : bytes) : Z :=
  match buf with
  | [] => 0
  | b :: rest =>
      if (i =? 10)%nat then 0
      else if b <? 128 then
        if (i =? 9)%nat && (1 <? b) then 0
        else Z.lor x (u64 (Z.shiftl b (7 * Z.of_nat i)))
      else Uvarint_from (S i) (Z.lor x (u64 (Z.shiftl (Z.land b 127) (7 * Z.of_nat i)))) rest
  end.

(** [binary.Varint]: the lowest bit is the sign. *)
Definition Varint (buf : bytes) : Z :=
  let ux := Uvarint_from 0 0 buf in
  let x := Z.shiftr ux 1 in
  if Z.land ux 1 =? 0 then x else Z.lnot x.

(** The largest number, [99999999999.9999999]. *)
Definition fixed_MAX : Q := inject_Z (10 ^ 18 - 1) * Qpow10 (-7).

(** Numbers have seven decimal places.  Sums and differences that stay between
    zero and the largest number are exact; a quotient is rounded, so that of a
    number by one at least as large lies between zero and one; the binary form
    is the varint of the number times [10 ^ 7]. *)
Class FixedNumLaws (Fixed : Type) `{FixedLib Fixed} : Type := {
  fxval : Fixed -> Q;
  fixed_NewI_val : forall v, 0 <= v < 10 ^ 11 ->
    fixed_IsNaN (fixed_NewI v 0) = false /\ (fxval (fixed_NewI v 0) == inject_Z v)%Q;
  fixed_Add_val : forall x y, fixed_IsNaN x = false -> fixed_IsNaN y = false ->
    (0 <= fxval x)%Q -> (0 <= fxval y)%Q -> (fxval x + fxval y <= fixed_MAX)%Q ->
    fixed_IsNaN (fixed_Add x y) = false /\ (fxval (fixed_Add x y) == fxval x + fxval y)%Q;
  fixed_Sub_val : forall x y, fixed_IsNaN x = false -> fixed_IsNaN y = false ->
    (0 <= fxval y)%Q -> (fxval y <= fxval x)%Q ->
    fixed_IsNaN (fixed_Sub x y) = false /\ (fxval (fixed_Sub x y) == fxval x - fxval y)%Q;
  fixed_Div_unit : forall x y, fixed_IsNaN x = false -> fixed_IsNaN y = false ->
    (0 <= fxval x <= fxval y)%Q -> (0 < fxval y)%Q ->
    fixed_IsNaN (fixed_Div x y) = false /\ (0 <= fxval (fixed_Div x y) <= 1)%Q;
  fixed_MarshalBinary_val : forall f, fixed_IsNaN f = false ->
    exists buf, fixed_MarshalBinary f = Ok buf /\
      (fxval f == inject_Z (Varint buf) * Qpow10 (-7))%Q;
}.

(** ** The wrapper [fxnum] *)

Section FxNum.
Context {Dec Fixed : Type} `{DecimalLib Dec, FixedLib Fixed}.

Definition fixedScaleDigits : Z := 7.

(** [fxnum.New] *)
Definition fx_New (val nexp : Z) : Fixed := fixed_NewI val nexp.
Definition fx_FromInt (val : Z) : Fixed := fx_New val 0.
Definition fx_ZERO : Fixed := fx_New 0 0.
Definition fx_ONE : Fixed := fx_New 1 0.
Definition fx_PermilBase : Fixed := fx_New 1000 0.

(** [QuoRem] divides; the remainder is always zero. *)
Definition fx_QuoRem (x o : Fixed) (precision : Z) : Fixed * Fixed := (fixed_Div x o, fx_ZERO).

Definition fx_Permil (n : Z) : Fixed := fixed_Div (fx_FromInt n) fx_PermilBase.

Definition FixedToDecimalByInt (f : Fixed) : outcome Dec :=
  if fixed_IsNaN f then Err (GoError "cannot convert NaN fixed.Fixed to decimal.Decimal")
  else
    match fixed_MarshalBinary f with
    | Err e => Err (GoError "failed to marshal fixed.Fixed to binary: %w")
    | Panic => Panic
    | Ok buf => Ok (dec_New (Varint buf) (- fixedScaleDigits))
    end.

(** [x, _ := f.ToDecimal()]: the callers drop the error, which leaves zero. *)
Definition fx_ToDecimal (f : Fixed) : outcome Dec :=
  match FixedToDecimalByInt f with
  | Err _ => Ok dec_Zero
  | other => other
  end.

End FxNum.

(** ** Concrete libraries *)

(** [x] cut to [p] digits after the point. *)
Definition Qcut (x : Q) (p : Z) : Q := inject_Z (Qfloor (x * Qpow10 p)) / Qpow10 p.

Definition Qtruncate (x : Q) : Z := if Qle_bool 0 x then Qfloor x else - Qfloor (- x).

(** Rational numbers; the power is exact for the exponents 0 and -1 and stays
    between its bounds for the others. *)
Definition Q_decimal : DecimalLib Q := {|
  dec_Zero := 0%Q;
  dec_New v e := (inject_Z v * Qpow10 e)%Q;
  dec_FromBig v e := (inject_Z v * Qpow10 e)%Q;
  dec_Add := Qplus;
  dec_Sub := Qminus;
  dec_Mul := Qmult;
  dec_Neg := Qopp;
  dec_Floor x := inject_Z (Qfloor x);
  dec_Pow b e := if Qle_bool 0 e then 1%Q else (/ b)%Q;
  dec_Div a b := if Qeq_bool b 0 then Panic else Ok (Qcut (a / b) 16);
  dec_QuoRem a b p := if Qeq_bool b 0 then Panic else Ok (Qcut (a / b) p, (a - Qcut (a / b) p * b)%Q);
  dec_Sign x := Z.sgn (Qnum x);
  dec_BigInt := Qtruncate;
  DivisionPrecision := 16;
|}.

Lemma Qpow10_pos p : (0 < Qpow10 p)%Q.
Proof. apply Qpower_0_lt. reflexivity. Qed.

Lemma Qcut_le x p : (Qcut x p <= x)%Q.
Proof.
  unfold Qcut. apply Qle_shift_div_r; [apply Qpow10_pos|]. apply Qfloor_le.
Qed.

Lemma Qcut_nonneg x p : (0 <= x)%Q -> (0 <= Qcut x p)%Q.
Proof.
  intros Hx. unfold Qcut. apply Qle_shift_div_l; [apply Qpow10_pos|]. rewrite Qmult_0_l.
  change 0%Q with (inject_Z 0). rewrite <- Zle_Qle. apply Qfloor_resp_le with (x := 0%Q).
  apply Qmult_le_0_compat; [done|apply Qlt_le_weak, Qpow10_pos].
Qed.

Lemma Qdiv_unit a b : (0 <= a <= b)%Q -> (0 < b)%Q -> (0 <= a / b <= 1)%Q.
Proof.
  intros [Ha Hab] Hb. split; [apply Qle_shift_div_l; [done|]|apply Qle_shift_div_r; [done|]]; lra.
Qed.

Lemma Qeq_bool_pos b : (0 < b)%Q -> Qeq_bool b 0 = false.
Proof.
  intros Hb. destruct (Qeq_bool b 0) eqn:E; [|done]. apply Qeq_bool_eq in E. lra.
Qed.

Definition Q_decimal_laws : @DecimalLaws Q Q_decimal.
Proof.
  refine {| qval x := x |}; cbn [dec_Zero dec_New dec_FromBig dec_Add dec_Sub dec_Mul dec_Neg
    dec_Floor dec_Pow dec_Div dec_QuoRem dec_Sign dec_BigInt Q_decimal]; intros; try reflexivity.
  - unfold Qpow10. cbn. ring.
  - destruct (Qle_bool 0 e); [lra|]. split; [apply Qinv_le_0_compat; lra|].
    apply Qle_shift_inv_r; lra.
  - rewrite Qeq_bool_pos by done. eexists. split; [done|].
    pose proof (Qdiv_unit a b H H0). split; [apply Qcut_nonneg; tauto|].
    eapply Qle_trans; [apply Qcut_le|tauto].
  - rewrite Qeq_bool_pos by done. do 2 eexists. split; [done|].
    assert (0 <= a / b)%Q by (apply Qle_shift_div_l; [done|lra]).
    split; [by apply Qcut_nonneg|]. pose proof (Qcut_le (a / b) p).
    assert (a == a / b * b)%Q as E by (field; lra). rewrite E at 2.
    apply Qmult_le_compat_r; lra.
  - unfold Qlt. cbn. lia.
  - unfold Qtruncate. apply Qle_bool_iff in H. by rewrite H.
Defined.

(** A fixed-point number is its value times [10 ^ 7]. *)
Fixpoint PutUvarint (fuel : nat) (x : Z) : bytes :=
  match fuel with
  | O => []
  | S f => if x <? 128 then [x] else (x mod 128 + 128) :: PutUvarint f (x / 128)
  end.

Definition PutVarint (x : Z) : bytes := PutUvarint 10 (if x <? 0 then - 2 * x - 1 else 2 * x).

(** Values of [10 ^ 18] and more are not numbers. *)
Definition Z_fixed : FixedLib Z := {|
  fixed_NewI v n := v * 10 ^ (7 - n);
  fixed_Add := Z.add;
  fixed_Sub := Z.sub;
  fixed_Mul a b := Z.quot (a * b) (10 ^ 7);
  fixed_Div a b := Z.quot (a * 10 ^ 7) b;
  fixed_IsNaN x := 10 ^ 18 <=? Z.abs x;
  fixed_MarshalBinary x := Ok (PutVarint x);
|}.

Lemma Z_fixed_laws : @FixedLaws Z Z_fixed.
Proof. intros x y _. cbn. lia. Qed.

Lemma lor_high acc x i : 0 <= i -> 0 <= acc < 2 ^ i -> 0 <= x -> Z.lor acc (Z.shiftl x i) = acc + x * 2 ^ i.
Proof.
  intros Hi Ha Hx. rewrite <- Z.shiftl_mul_pow2 by done.
  rewrite <- Z.lxor_lor, <- Z.add_nocarry_lxor; try done.
  all: apply Z.bits_inj'; intros n Hn; rewrite Z.land_spec, Z.bits_0, Z.shiftl_spec by done;
    destruct (Z.ltb_spec n i) as [Hlt|Hge]; [rewrite (Z.testbit_neg_r x) by lia; apply andb_false_r|];
    apply andb_false_intro1; destruct (decide (acc = 0)) as [->|]; [apply Z.testbit_0_l|];
    apply Z.bits_above_log2; [lia|]; apply Z.lt_le_trans with i; [apply Z.log2_lt_pow2; lia|done].
Qed.

(** What [PutUvarint] writes is read back. *)
Lemma Uvarint_Put fuel i acc x :
  (i + fuel = 10)%nat -> (0 < fuel)%nat -> 0 <= acc < 2 ^ (7 * Z.of_nat i) -> 0 <= x ->
  acc + x * 2 ^ (7 * Z.of_nat i) < 2 ^ 64 ->
  Uvarint_from i acc (PutUvarint fuel x) = acc + x * 2 ^ (7 * Z.of_nat i).
Proof.
  revert i acc x. induction fuel as [|fuel IH]; intros i acc x Hi Hf Ha Hx Hb; [lia|]. cbn [PutUvarint].
  destruct (Z.ltb_spec x 128) as [Hs|Hs]; cbn [Uvarint_from]; rewrite (proj2 (Nat.eqb_neq i 10)) by lia.
  - rewrite (proj2 (Z.ltb_lt x 128)) by done.
    replace ((i =? 9)%nat && (1 <? x)) with false.
    2: { symmetry. destruct (Nat.eqb_spec i 9) as [->|]; [|done]. cbn [andb]. apply Z.ltb_ge.
         change (7 * Z.of_nat 9) with 63 in *. lia. }
    unfold u64. rewrite Z.mod_small by (rewrite Z.shiftl_mul_pow2; lia). apply lor_high; lia.
  - pose proof (Z.mod_pos_bound x 128 ltac:(lia)) as Hm. pose proof (Z.div_mod x 128 ltac:(lia)) as Hd.
    rewrite (proj2 (Z.ltb_ge _ 128)) by lia.
    replace (Z.land (x mod 128 + 128) 127) with (x mod 128).
    2: { change 127 with (Z.ones 7). rewrite Z.land_ones by lia. change (2 ^ 7) with 128.
         replace (x mod 128 + 128) with (x mod 128 + 1 * 128) by lia. by rewrite Z_mod_plus_full, Z.mod_mod. }
    assert (2 ^ (7 * Z.of_nat (S i)) = 128 * 2 ^ (7 * Z.of_nat i)) as E7.
    { replace (7 * Z.of_nat (S i)) with (7 + 7 * Z.of_nat i) by lia. rewrite Z.pow_add_r by lia. done. }
    assert (0 < 2 ^ (7 * Z.of_nat i)) as Hp by (apply Z.pow_pos_nonneg; lia).
    unfold u64. rewrite Z.mod_small by (rewrite Z.shiftl_mul_pow2; nia). rewrite lor_high by lia.
    assert (0 < fuel)%nat as Hf'.
    { destruct fuel; [|lia]. assert (i = 9%nat) as -> by lia. change (7 * Z.of_nat 9) with 63 in *. lia. }
    rewrite IH; try done; try lia; rewrite ?E7; nia.
Qed.

Lemma Varint_Put x : - 10 ^ 18 < x < 10 ^ 18 -> Varint (PutVarint x) = x.
Proof.
  intros Hx. unfold Varint, PutVarint. set (ux := if x <? 0 then _ else _).
  assert (0 <= ux < 2 ^ 64) by (unfold ux; destruct (Z.ltb_spec x 0); lia).
  rewrite Uvarint_Put by (cbn; lia). cbn [Z.of_nat]. change (2 ^ (7 * 0)) with 1. rewrite Z.mul_1_r, Z.add_0_l.
  rewrite Z.shiftr_div_pow2 by lia. rewrite (Z.land_ones ux 1 ltac:(lia) : Z.land ux 1 = _).
  change (2 ^ 1) with 2. unfold Z.lnot, ux. destruct (Z.ltb_spec x 0).
  - replace (- 2 * x - 1) with (1 + (- x - 1) * 2) by lia. rewrite Z_mod_plus_full, Z.div_add by lia.
    change (1 mod 2 =? 0) with false. change (1 / 2) with 0. cbv iota. lia.
  - replace (2 * x) with (0 + x * 2) by lia. rewrite Z_mod_plus_full, Z.div_add by lia.
    change (0 mod 2 =? 0) with true. change (0 / 2) with 0. cbv iota. lia.
Qed.

Definition Z_fixed_num_laws : @FixedNumLaws Z Z_fixed.
Proof.
  refine {| fxval x := (x # 10000000)%Q |}; cbn [fixed_NewI fixed_Add fixed_Sub fixed_Div fixed_IsNaN
    fixed_MarshalBinary Z_fixed].
  - intros v Hv. split; [apply Z.leb_gt; lia|]. unfold Qeq. cbn. lia.
  - intros x y Hx Hy Hx0 Hy0 Hm. rewrite (eq_refl : fixed_MAX == (10 ^ 18 - 1 # 10000000))%Q in Hm.
    unfold Qle, Qplus, Qeq in *. cbn [Qnum Qden] in *. split; [apply Z.leb_gt|]; lia.
  - intros x y Hx Hy Hy0 Hyx. apply Z.leb_gt in Hx, Hy.
    unfold Qle, Qminus, Qopp, Qplus, Qeq in *. cbn [Qnum Qden] in *. split; [apply Z.leb_gt|]; lia.
  - intros x y Hx Hy [Hx0 Hxy] Hy0. unfold Qle, Qlt in *. cbn [Qnum Qden] in *.
    assert (0 <= Z.quot (x * 10 ^ 7) y <= 10 ^ 7) as Hq.
    { split; [apply Z.quot_pos; lia|]. rewrite Z.quot_div_nonneg by lia. apply Z.div_le_upper_bound; lia. }
    split; [apply Z.leb_gt; lia|]. lia.
  - intros f Hf. apply Z.leb_gt in Hf. exists (PutVarint f). split; [done|]. rewrite Varint_Put by lia.
    rewrite (eq_refl : Qpow10 (-7) == (1 # 10000000))%Q. unfold Qeq, Qmult, inject_Z. cbn [Qnum Qden]. lia.
Defined.
