(* ===== verification/Weights.v ===== *)
(** * Weights: the reward weights of bonded power

    [ctrlers/vpower/ctrler_weight.go], [weight_fxnum.go] and
    [weight_result.go]: every power chunk counts by its age, the weight of a
    delegator is its share of the scaled power in the total supply, and the last
    delegator of the last validator takes what rounding left
    ([weights_add_up]).  The variants of [weight_decimal.go] and [weight_fixed.go]
    follow. *)
From stdpp Require Import base gmap list strings.
From Stdlib Require Import ZArith Lia QArith Lqa.
From S2P Require Import Prelude XErrors GoMonad LedgerKeys Iavl Ledger Units Proto Signer.
From S2P Require Import GovParams VPowerItems ValSet Limiter VPowerCtrler Numbers VPowerProps.

Record Beneficiary (Fixed : Type) := NewBeneficiary {
  bf_addr : Address;
  bf_weight : Fixed;
  bf_signingRate : Fixed;
  bf_isVal : bool;
}.
Arguments NewBeneficiary {Fixed} _ _ _ _.
Arguments bf_addr {Fixed} _.
Arguments bf_weight {Fixed} _.
Arguments bf_signingRate {Fixed} _.
Arguments bf_isVal {Fixed} _.

Record fxnumWeight (Fixed : Type) := MkWeight {
  sumWeight : Fixed;
  valsWeight : Fixed;
  beneficiaries : list (Beneficiary Fixed);
}.
Arguments MkWeight {Fixed} _ _ _.
Arguments sumWeight {Fixed} _.
Arguments valsWeight {Fixed} _.
Arguments beneficiaries {Fixed} _.

(** What [ComputeWeight] collects of a delegator. *)
Record benefPowChunksW (Fixed : Type) := MkBenefPow {
  bp_pcs : list PowerChunk;
  bp_signW : Fixed;
  bp_val : bool;
}.
Arguments MkBenefPow {Fixed} _ _ _.
Arguments bp_pcs {Fixed} _.
Arguments bp_signW {Fixed} _.
Arguments bp_val {Fixed} _.

Section Weights.
Context {Fixed : Type} `{FixedLib Fixed}.

Definition NewWeight : fxnumWeight Fixed := MkWeight (fx_New 0 0) (fx_New 0 0) [].

(** [fxnumWeight.Add] *)
Definition weight_Add (w : fxnumWeight Fixed) (addr : Address) (weight signWeight : Fixed) (isVal : bool)
    : fxnumWeight Fixed :=
  MkWeight (fixed_Add (sumWeight w) weight)
    (if isVal then fixed_Add (valsWeight w) weight else valsWeight w)
    (beneficiaries w ++ [NewBeneficiary addr weight signWeight isVal]).

(** ** The power of chunks, scaled by age *)

(** One turn of the loop: the matured power and the rising power. *)
Definition scale_chunk (currHeight ripeningCycle : Z) (tau : Fixed) (acc : Z * Fixed) (pc : PowerChunk)
    : Z * Fixed :=
  let '(matured, rising) := acc in
  let dur := i64 (currHeight - pc_Height pc) in
  if ripeningCycle <=? dur then (i64 (matured + pc_Power pc), rising)
  else if 1 <=? dur then
    let w := fixed_Mul (fixed_Add (fixed_Div (fixed_Mul tau (fx_FromInt dur)) (fx_FromInt ripeningCycle))
               (fixed_Sub fx_ONE tau)) (fx_FromInt (pc_Power pc)) in
    (matured, fixed_Add rising w)
  else acc.

Definition fxnumScaledPowerChunks (pcs : list PowerChunk) (currHeight ripeningCycle tau : Z) : Fixed :=
  let '(matured, rising) :=
    fold_left (scale_chunk currHeight ripeningCycle (fx_Permil tau)) pcs (0, fx_ZERO) in
  fixed_Add rising (fx_FromInt matured).

Definition fxnumWeightOfPowerChunks (pcs : list PowerChunk) (currHeight ripeningCycle tau baseSupply : Z)
    : Fixed :=
  let basePower := match AmountToPower baseSupply with Ok p => p | _ => -1 end in
  fixed_Div (fxnumScaledPowerChunks pcs currHeight ripeningCycle tau) (fx_FromInt basePower).

(** ** The loop over the beneficiaries *)

Definition benef_less (a b : Address * benefPowChunksW Fixed) : bool := bytes_Compare (fst a) (fst b) <? 0.

(** The entries of the map of a validator, by address; its keys are the
    hexadecimal forms of the addresses, which sort as the addresses do. *)
Definition sorted_benefs (m : gmap Address (benefPowChunksW Fixed)) : list (Address * benefPowChunksW Fixed) :=
  go_sort benef_less (map_to_list m).

Definition is_nil {A} (l : list A) : bool := match l with [] => true | _ => false end.

Section Weigh.
Context (height ripeningBlocks tau : Z) (allScaledPower allWeight : Fixed).

Fixpoint weigh_keys (lastVal : bool) (ks : list (Address * benefPowChunksW Fixed)) (w : fxnumWeight Fixed)
    : fxnumWeight Fixed :=
  match ks with
  | [] => w
  | (addr, b) :: ks' =>
      let benefWeight :=
        if lastVal && is_nil ks' then fixed_Sub allWeight (sumWeight w)
        else fixed_Div (fixed_Mul allWeight (fxnumScaledPowerChunks (bp_pcs b) height ripeningBlocks tau))
               allScaledPower in
      weigh_keys lastVal ks' (weight_Add w addr benefWeight (bp_signW b) (bp_val b))
  end.

Fixpoint weigh_vals (ms : list (gmap Address (benefPowChunksW Fixed))) (w : fxnumWeight Fixed)
    : fxnumWeight Fixed :=
  match ms with
  | [] => w
  | m :: ms' => weigh_vals ms' (weigh_keys (is_nil ms') (sorted_benefs m) w)
  end.

End Weigh.

End Weights.

Section ComputeWeight.
Context {T I : Type} `{Iavl T I} `{VPowerProtos, CryptoLib}.
Context {Fixed : Type} `{FixedLib Fixed}.
Abbreviation VM := (M (VPowerCtrler T I)).

(** The missed blocks of a validator, zero when there is no count. *)
Definition missed_at (ledger : MemLedger I) (addr : Address) : outcome Z :=
  match mem_get ledger (LedgerKeyMissedBlockCount addr) with
  | Ok (IBlockCount c) => Ok c
  | Ok _ => Panic
  | Err e => if Contains e ErrNotFoundResult then Ok 0 else Err e
  | Panic => Panic
  end.

(** The loop over the delegators of a validator. *)
Fixpoint collect_delegators (ledger : MemLedger I) (val : Address) (signRate : Fixed)
    (froms : list Address) (m : gmap Address (benefPowChunksW Fixed)) (pcs : list PowerChunk)
    : outcome (gmap Address (benefPowChunksW Fixed) * list PowerChunk) :=
  match froms with
  | [] => Ok (m, pcs)
  | from :: froms' =>
      match mem_get ledger (LedgerKeyVPower from val) with
      | Ok (IVPower vpow) =>
          let b := match m !! from with
                   | None => MkBenefPow (v_PowerChunks vpow) signRate (bytes_Equal from val)
                   | Some b => MkBenefPow (bp_pcs b ++ v_PowerChunks vpow) (bp_signW b) (bp_val b)
                   end in
          collect_delegators ledger val signRate froms' (<[from := b]> m) (pcs ++ v_PowerChunks vpow)
      | Ok _ => Panic
      | Err e => Err e
      | Panic => Panic
      end
  end.

(** One validator: its map and its chunks after those of the earlier ones. *)
Definition collect_val (ledger : MemLedger I) (inflationCycle : Z)
    (acc : outcome (list (gmap Address (benefPowChunksW Fixed)) * list PowerChunk)) (d : Delegatee)
    : outcome (list (gmap Address (benefPowChunksW Fixed)) * list PowerChunk) :=
  obind acc (fun '(ms, pcs) =>
  obind (missed_at ledger (d_addr d)) (fun c =>
  let signRate := fixed_Sub (fx_FromInt 1) (fst (fx_QuoRem (fx_FromInt c) (fx_FromInt inflationCycle) 7)) in
  obind (collect_delegators ledger (d_addr d) signRate (d_Delegators d) ∅ pcs) (fun '(m, pcs') =>
  Ok (ms ++ [m], pcs')))).

Definition ComputeWeight (height inflationCycle ripeningBlocks tau baseSupply : Z)
    : VM (fxnumWeight Fixed) :=
  let! ledger := zoom vp_lens (ImitableLedgerAt (Z.max (i64 (height - 1)) 1)) in
  let! ptrs := gets lastValidators in
  let! vals := map_each ptrs get_dgt in
  let! r := lift (fold_left (collect_val ledger inflationCycle) vals (Ok ([], []))) in
  let '(ms, allPowChunks) := r in
  let supplyInPower := match AmountToPower baseSupply with Ok p => p | _ => -1 end in
  let allScaledPower := fxnumScaledPowerChunks allPowChunks height ripeningBlocks tau in
  let allWeight := fixed_Div allScaledPower (fx_FromInt supplyInPower) in
  let w := weigh_vals height ripeningBlocks tau allScaledPower allWeight ms NewWeight in
  ret (MkWeight allWeight (valsWeight w) (beneficiaries w)).

End ComputeWeight.

(** ** What the weights add up to *)

Section WeightSums.
Context {Fixed : Type} `{FixedLib Fixed}.

(** The sum of weights, added in order. *)
Definition fx_sum (ws : list Fixed) : Fixed := fold_left fixed_Add ws (fx_New 0 0).

(** The running sums are the sums of the beneficiaries so far. *)
Definition sums_ok (w : fxnumWeight Fixed) : Prop :=
  sumWeight w = fx_sum (map bf_weight (beneficiaries w)) /\
  valsWeight w = fx_sum (map bf_weight (List.filter bf_isVal (beneficiaries w))).

Lemma sums_ok_Add w addr x sw isVal : sums_ok w -> sums_ok (weight_Add w addr x sw isVal).
Proof.
  intros [Hs Hv]. unfold sums_ok, weight_Add, fx_sum in *; cbn [sumWeight valsWeight beneficiaries].
  rewrite List.filter_app, !List.map_app, !fold_left_app, <- Hs. cbn. split; [done|].
  destruct isVal; cbn; by rewrite <- Hv.
Qed.

Context (height ripeningBlocks tau : Z) (allScaledPower allWeight : Fixed).
Abbreviation wkeys := (weigh_keys height ripeningBlocks tau allScaledPower allWeight).
Abbreviation wvals := (weigh_vals height ripeningBlocks tau allScaledPower allWeight).

Lemma sums_ok_keys lastVal ks w : sums_ok w -> sums_ok (wkeys lastVal ks w).
Proof.
  revert w. induction ks as [|[a b] ks IH]; intros w Hw; cbn [weigh_keys]; [done|].
  by apply IH, sums_ok_Add.
Qed.

Lemma sums_ok_vals ms w : sums_ok w -> sums_ok (wvals ms w).
Proof.
  revert w. induction ms as [|m ms IH]; intros w Hw; cbn [weigh_vals]; [done|].
  by apply IH, sums_ok_keys.
Qed.

(** No weight is the not-a-number that an overflow gives. *)
Definition weights_num (w : fxnumWeight Fixed) : Prop :=
  Forall (fun b => fixed_IsNaN (bf_weight b) = false) (beneficiaries w).

(** The last beneficiary brings the sum to the weight of all chunks. *)
Lemma weigh_last_keys `{!FixedLaws Fixed} ks w :
  ks <> [] -> weights_num (wkeys true ks w) -> sumWeight (wkeys true ks w) = allWeight.
Proof.
  revert w. induction ks as [|[a b] ks IH]; intros w Hne; [done|]. cbn [weigh_keys].
  destruct ks as [|k ks]; [|by apply IH]. intros Hn.
  unfold weights_num in Hn. cbn [weigh_keys weight_Add beneficiaries] in Hn. apply Forall_app in Hn as [_ Hn].
  apply Forall_cons in Hn as [Hn _]. exact (fixed_Add_Sub _ _ Hn).
Qed.

Lemma sorted_benefs_nil (m : gmap Address (benefPowChunksW Fixed)) : sorted_benefs m = [] -> m = ∅.
Proof.
  unfold sorted_benefs. intros E. apply map_to_list_empty_iff.
  apply Permutation_nil. rewrite <- E. apply go_sort_perm.
Qed.

Lemma weigh_vals_sum `{!FixedLaws Fixed} ms w :
  ms <> [] -> Forall (fun m => m <> ∅) ms -> weights_num (wvals ms w) ->
  sumWeight (wvals ms w) = allWeight.
Proof.
  revert w. induction ms as [|m ms IH]; intros w Hne Hall; [done|].
  apply Forall_cons in Hall as [Hm Hall]. cbn [weigh_vals]. destruct ms as [|m' ms]; [|by apply IH].
  apply weigh_last_keys. intros E. by apply Hm, sorted_benefs_nil.
Qed.

(** The signing rates of the beneficiaries are those of the collected maps. *)
Definition rates_ok (P : Fixed -> Prop) (w : fxnumWeight Fixed) : Prop :=
  Forall (fun b => P (bf_signingRate b)) (beneficiaries w).

Definition maps_ok (P : Fixed -> Prop) (ms : list (gmap Address (benefPowChunksW Fixed))) : Prop :=
  Forall (map_Forall (fun _ b => P (bp_signW b))) ms.

Lemma rates_ok_keys P lastVal ks w :
  Forall (fun kb => P (bp_signW (snd kb))) ks -> rates_ok P w -> rates_ok P (wkeys lastVal ks w).
Proof.
  intros Hks. revert w. induction Hks as [|[a b] ks Hb Hks IH]; intros w Hw; cbn [weigh_keys]; [done|].
  apply IH. unfold rates_ok, weight_Add; cbn [beneficiaries]. apply Forall_app. split; [done|].
  by apply Forall_singleton.
Qed.

Lemma rates_ok_vals P ms w : maps_ok P ms -> rates_ok P w -> rates_ok P (wvals ms w).
Proof.
  intros Hms. revert w. induction Hms as [|m ms Hm Hms IH]; intros w Hw; cbn [weigh_vals]; [done|].
  apply IH, rates_ok_keys; [|done]. unfold sorted_benefs. rewrite go_sort_perm.
  apply Forall_forall. intros [a b] Hab. apply elem_of_map_to_list in Hab. exact (Hm _ _ Hab).
Qed.

End WeightSums.

Section WeightProps.
Context {T I : Type} `{Iavl T I} `{VPowerProtos, CryptoLib}.
Context {Fixed : Type} `{FixedLib Fixed}.

(** The committed ledger [ml] has the powers bonded to [d], whose list of
    delegators is not empty. *)
Definition val_stored (ml : MemLedger I) (d : Delegatee) : Prop :=
  d_Delegators d <> [] /\ is_ok (missed_at ml (d_addr d)) = true /\
  Forall (fun from => exists v, mem_get ml (LedgerKeyVPower from (d_addr d)) = Ok (IVPower v)) (d_Delegators d).

Definition is_vpower (o : outcome VItem) : bool := match o with Ok (IVPower _) => true | _ => false end.

Definition val_storedb (ml : MemLedger I) (d : Delegatee) : bool :=
  negb (is_nil (d_Delegators d)) && is_ok (missed_at ml (d_addr d)) &&
  forallb (fun from => is_vpower (mem_get ml (LedgerKeyVPower from (d_addr d)))) (d_Delegators d).

Lemma val_storedb_ok ml ds : forallb (val_storedb ml) ds = true -> Forall (val_stored ml) ds.
Proof.
  intros Hb. apply Is_true_true, forallb_True in Hb. eapply Forall_impl; [exact Hb|]. intros d Hd.
  unfold val_storedb in Hd. apply Is_true_true in Hd. apply andb_prop in Hd as [Hd Hf]. apply andb_prop in Hd as [Hd Hm].
  split; [by destruct (d_Delegators d)|]. split; [done|]. apply Is_true_true, forallb_True in Hf.
  eapply Forall_impl; [exact Hf|]. intros from Hx. unfold is_vpower in Hx.
  destruct (mem_get _ _) as [[]| |]; try done. eauto.
Qed.

Lemma collect_delegators_ok (ml : MemLedger I) val (signRate : Fixed) froms m (pcs : list PowerChunk) :
  Forall (fun from => exists v, mem_get ml (LedgerKeyVPower from val) = Ok (IVPower v)) froms ->
  exists m' pcs', collect_delegators ml val signRate froms m pcs = Ok (m', pcs') /\
    (froms <> [] \/ m <> ∅ -> m' <> ∅).
Proof.
  intros Hf. revert m pcs. induction Hf as [|f froms [v Hv] Hf IH]; intros m pcs; cbn [collect_delegators].
  - do 2 eexists. split; [done|]. by intros [|].
  - rewrite Hv. edestruct IH as (m' & pcs' & -> & Hne). do 2 eexists. split; [done|].
    intros _. apply Hne. right. apply insert_non_empty.
Qed.

Lemma collect_vals_ok (ml : MemLedger I) (cycle : Z) (vals : list Delegatee) (ms0 : list (gmap Address (benefPowChunksW Fixed)))
    (pcs0 : list PowerChunk) :
  Forall (val_stored ml) vals -> Forall (fun m => m <> ∅) ms0 ->
  exists ms pcs, fold_left (collect_val ml cycle) vals (Ok (ms0, pcs0)) = Ok (ms, pcs) /\
    Forall (fun m => m <> ∅) ms /\ length ms = (length ms0 + length vals)%nat.
Proof.
  intros Hd. revert ms0 pcs0. induction Hd as [|d vals (Hne & Hc & Hf) Hd IH]; intros ms0 pcs0 Hm; cbn [fold_left].
  - do 2 eexists. split; [done|]. split; [done|]. cbn. lia.
  - unfold collect_val at 2; cbn [obind]. destruct (missed_at ml (d_addr d)) as [c|e|]; try done. cbn [obind].
    edestruct (collect_delegators_ok ml (d_addr d)) as (m' & pcs' & -> & Hm'); [exact Hf|]. cbn [obind].
    edestruct (IH (ms0 ++ [m'])) as (ms & pcs & Hr & Hall & Hlen).
    { apply Forall_app. split; [done|]. apply Forall_singleton. auto. }
    exists ms, pcs. split; [exact Hr|]. split; [done|]. rewrite Hlen, length_app. cbn. lia.
Qed.

Lemma collect_delegators_rate P (ml : MemLedger I) val (signRate : Fixed) froms m (pcs : list PowerChunk) m' pcs' :
  P signRate -> map_Forall (fun _ b => P (bp_signW b)) m ->
  collect_delegators ml val signRate froms m pcs = Ok (m', pcs') -> map_Forall (fun _ b => P (bp_signW b)) m'.
Proof.
  intros HP. revert m pcs. induction froms as [|f froms IH]; intros m pcs Hm; cbn [collect_delegators].
  - by intros [= <- <-].
  - destruct (mem_get _ _) as [[]| |]; try done. apply IH, map_Forall_insert_2; [|done].
    destruct (m !! f) as [b|] eqn:E; [|done]. exact (Hm _ _ E).
Qed.

(** The signing rate of a validator that missed [c] blocks of a cycle. *)
Definition signing_rate (cycle c : Z) : Fixed := fixed_Sub (fx_FromInt 1) (fixed_Div (fx_FromInt c) (fx_FromInt cycle)).

Lemma collect_vals_rate P (ml : MemLedger I) (cycle : Z) (vals : list Delegatee) ms0 (pcs0 : list PowerChunk) ms pcs :
  (forall d c, d ∈ vals -> missed_at ml (d_addr d) = Ok c -> P (signing_rate cycle c)) -> maps_ok P ms0 ->
  fold_left (collect_val ml cycle) vals (Ok (ms0, pcs0)) = Ok (ms, pcs) -> maps_ok P ms.
Proof.
  assert (forall ds (o : outcome (list (gmap Address (benefPowChunksW Fixed)) * list PowerChunk)),
    (forall x, o <> Ok x) -> fold_left (collect_val ml cycle) ds o <> Ok (ms, pcs)) as Hno.
  { induction ds as [|d ds IH]; intros o Ho; cbn [fold_left]; [done|]. apply IH. intros x.
    by destruct o as [y| |]; [destruct (Ho y)|..]. }
  revert ms0 pcs0. induction vals as [|d vals IH]; intros ms0 pcs0 Hr Hm; cbn [fold_left].
  - by intros [= <- <-].
  - unfold collect_val at 2; cbn [obind]. destruct (missed_at ml (d_addr d)) as [c|e|] eqn:Ec; cbn [obind].
    2,3: intros E; by apply Hno in E.
    destruct (collect_delegators ml (d_addr d) _ _ _ _) as [[m pcs1]|e|] eqn:Ed; cbn [obind].
    2,3: intros E; by apply Hno in E.
    apply IH; [intros ?? ?; apply Hr; by constructor|]. apply Forall_app. split; [done|]. apply Forall_singleton.
    eapply collect_delegators_rate; [|apply map_Forall_empty|exact Ed].
    exact (Hr d c (list_elem_of_here _ _) Ec).
Qed.

Lemma wp_read_vals (s : VPowerCtrler T I) (ptrs : list loc) (vals : list Delegatee) Q :
  Forall2 (fun l d => objs (lstore (vpowerState s)) !! l = Some (IDelegatee d)) ptrs vals ->
  Q (Ok vals) s -> wp (map_each ptrs get_dgt) Q s.
Proof.
  intros Hv. revert Q. induction Hv as [|l d ptrs vals Hl Hv IH]; intros Q HQ; cbn [map_each]; [by apply wp_ret|].
  assert (get_dgt l s = (Ok d, s)) as E.
  { unfold get_dgt, v_deref, bind, zoom, l_deref. cbn. unfold zoom, deref. cbn.
    rewrite Hl. by destruct s as [[? ?] ? ? ?]. }
  apply wp_bind. unfold wp at 1. rewrite E. cbn. apply wp_bind, IH, wp_ret, HQ.
Qed.

Lemma NewMemLedgerAt_state ver (st : LState VItem T I) : snd (NewMemLedgerAt ver st) = st.
Proof.
  unfold NewMemLedgerAt, mut_GetReadOnlyTree, get_tree, bind, gets, lift, ret.
  destruct (0 <? ver); [|done]. by destruct (from_err _).
Qed.

(** When the committed ledger of the previous block has the powers of the
    last validators, computing the weights succeeds, the weights of the
    beneficiaries add up exactly to the total weight, since the last one takes
    what rounding left, and those of the validators to the validators' weight,
    unless a weight overflowed into the number library's not-a-number; every
    signing rate comes from the missed blocks of a validator. *)
Theorem weights_add_up `{!FixedLaws Fixed} (s : VPowerCtrler T I) ml (vals : list Delegatee) height cycle ripening tau supply :
  fst (NewMemLedgerAt (Z.max (i64 (height - 1)) 1) (vpowerState s)) = Ok ml ->
  Forall2 (fun l d => objs (lstore (vpowerState s)) !! l = Some (IDelegatee d)) (lastValidators s) vals ->
  Forall (val_stored ml) vals -> vals <> [] ->
  wp (ComputeWeight height cycle ripening tau supply) (okQ (fun w s' => s' = s /\
    (weights_num w -> fx_sum (map bf_weight (beneficiaries w)) = sumWeight w) /\
    fx_sum (map bf_weight (List.filter bf_isVal (beneficiaries w))) = valsWeight w /\
    (forall P, (forall d c, d ∈ vals -> missed_at ml (d_addr d) = Ok c -> P (signing_rate cycle c)) ->
      rates_ok P w))) s.
Proof.
  intros Hml Hv Hst Hne. unfold ComputeWeight. apply wp_bind. unfold wp at 1.
  assert (zoom vp_lens (ImitableLedgerAt (Z.max (i64 (height - 1)) 1)) s = (Ok ml, s)) as ->.
  { unfold zoom, ImitableLedgerAt. cbn [lget lset vp_lens].
    pose proof (NewMemLedgerAt_state (Z.max (i64 (height - 1)) 1) (vpowerState s)) as Es.
    destruct (NewMemLedgerAt _ _) as [o st]; cbn in *. subst. by destruct s. }
  cbn. apply wp_bind, wp_gets, wp_bind, (wp_read_vals s _ vals _ Hv), wp_bind, wp_lift.
  destruct (collect_vals_ok ml cycle vals [] [] Hst) as (ms & pcs & Ec & Hms & Hlen); [constructor|]. rewrite Ec.
  apply wp_ret. split; [done|]. cbn [beneficiaries sumWeight valsWeight].
  assert (ms <> []) as Hms0 by (destruct ms; [destruct vals|]; done).
  edestruct sums_ok_vals as [Hs Hvs]; [|rewrite <- Hs, <- Hvs; split; [|split; [done|]]]; [done| |].
  - intros Hn. by apply weigh_vals_sum.
  - intros P HP. apply rates_ok_vals; [|constructor].
    eapply collect_vals_rate; [exact HP|constructor|exact Ec].
Qed.

End WeightProps.

(** ** The weights of the genesis validators after their first block *)

Module WeightWitness.

Import VPowerProps.VPowerWitness.

#[local] Existing Instances w_crypto w_protos.
#[local] Instance w_fixed : FixedLib Z := Z_fixed.
#[local] Instance w_fixed_laws : FixedLaws Z := Z_fixed_laws.

Definition committed : vstate := snd (vpower_Commit (snd (vpower_InitLedger vals vempty))).

Definition committed_ledger : MemLedger (gmap bytes bytes) :=
  match fst (NewMemLedgerAt 1 (vpowerState committed)) with Ok ml => ml | _ => MkMemLedger None ∅ [] end.

Definition committed_vals : list Delegatee :=
  omap (fun l => match objs (lstore (vpowerState committed)) !! l with Some (IDelegatee d) => Some d | _ => None end)
    (lastValidators committed).

Lemma weights_add_up_witness :
  wp (ComputeWeight (Fixed := Z) 2 10 1000 200 (coins 35000000)) (okQ (fun w s' => s' = committed /\
    (weights_num w -> fx_sum (map bf_weight (beneficiaries w)) = sumWeight w) /\
    fx_sum (map bf_weight (List.filter bf_isVal (beneficiaries w))) = valsWeight w /\
    (forall P, (forall d c, d ∈ committed_vals -> missed_at committed_ledger (d_addr d) = Ok c ->
      P (signing_rate 10 c)) -> rates_ok P w))) committed.
Proof.
  apply (weights_add_up committed committed_ledger committed_vals).
  - vm_compute; reflexivity.
  - vm_compute; repeat constructor.
  - apply val_storedb_ok. vm_compute; reflexivity.
  - vm_compute; discriminate.
Defined.

End WeightWitness.

(** ** Weights in other number systems

    [ctrlers/vpower/weight_decimal.go] and [ctrlers/vpower/weight_fixed.go]: the
    weight of voting power, [(tau * min(age / cycle, 1) + 1 - tau) * power / supply],
    computed with decimals and with plain fixed-point numbers, which the controller's
    own computation ([Weights]) is compared with.

    Shown: in decimals the weight of any power that the supply covers lies between
    zero and one, the scaled power of many chunks is the sum of the scaled powers
    of each, the versions on powers with their ages and on chunks agree, and the
    plain fixed-point version is the controller's. *)

Open Scope Z_scope.

Section Decimal.
Context {Dec : Type} `{DecimalLib Dec}.

Definition DecimalOne : Dec := dec_FromInt 1.

(** Quotients panic when the divisor is zero. *)
Definition quo (a b : Dec) : outcome Dec := obind (dec_QuoRem a b DivisionPrecision) (fun '(q, _) => Ok q).

(** [(tau * dur) / ripeningCycle + keppa] times the power, of a rising chunk *)
Definition rising_weight (tau keppa cycle : Dec) (dur pow : Z) : outcome Dec :=
  obind (quo (dec_Mul tau (dec_FromInt dur)) cycle) (fun decW =>
  Ok (dec_Mul (dec_Add decW keppa) (dec_FromInt pow))).

(** One turn of the loops: the matured power, and the rising power. *)
Definition scale_turn (ripeningCycle : Z) (tau keppa cycle : Dec) (acc : outcome (Z * Dec)) (pd : Z * Z)
    : outcome (Z * Dec) :=
  obind acc (fun '(matured, rising) =>
  let '(pow, dur) := pd in
  if ripeningCycle <=? dur then Ok (i64 (matured + pow), rising)
  else if 1 <=? dur then obind (rising_weight tau keppa cycle dur pow) (fun decW => Ok (matured, dec_Add rising decW))
  else Ok (matured, rising)).

Definition permil (tau : Z) : Dec := dec_New tau (-3).

Definition dec_scaled (pds : list (Z * Z)) (ripeningCycle tau : Z) : outcome Dec :=
  let _tau := permil tau in
  let _keppa := dec_Sub DecimalOne _tau in
  obind (fold_left (scale_turn ripeningCycle _tau _keppa (dec_FromInt ripeningCycle)) pds (Ok (0, dec_Zero)))
    (fun '(matured, rising) => Ok (dec_Add rising (dec_FromInt matured))).

Definition power_dur (currHeight : Z) (pc : PowerChunk) : Z * Z := (pc_Power pc, i64 (currHeight - pc_Height pc)).

Definition decimalScaledPowerChunks (pcs : list PowerChunk) (currHeight ripeningCycle tau : Z) : outcome Dec :=
  dec_scaled (map (power_dur currHeight) pcs) ripeningCycle tau.

Definition decimalWeightOfPowerChunks (pcs : list PowerChunk) (currHeight ripeningCycle tau baseSupply : Z) : outcome Dec :=
  let decBaseSupply := dec_FromBig baseSupply (- DECIMAL) in
  obind (decimalScaledPowerChunks pcs currHeight ripeningCycle tau) (fun decScaledPower =>
  quo decScaledPower decBaseSupply).

Definition decimalScaledPowerChunk (pc : PowerChunk) (currHeight ripeningCycle tau : Z) : outcome Dec :=
  let _tau := permil tau in
  let _keppa := dec_Sub DecimalOne _tau in
  let dur := i64 (currHeight - pc_Height pc) in
  if ripeningCycle <=? dur then Ok (dec_FromInt (pc_Power pc))
  else if 1 <=? dur then rising_weight _tau _keppa (dec_FromInt ripeningCycle) dur (pc_Power pc)
  else Ok dec_Zero.

(** [vpdurs[i]] of every power; a missing one is an index out of range. *)
Fixpoint with_durs (pows vpdurs : list Z) : outcome (list (Z * Z)) :=
  match pows, vpdurs with
  | [], _ => Ok []
  | _ :: _, [] => Panic
  | p :: pows', d :: durs' => obind (with_durs pows' durs') (fun l => Ok ((p, d) :: l))
  end.

(** [Wa]: the sums of the amounts and of the amounts scaled by their ages. *)
Definition wa_turn (ripeningCycle : Z) (acc : outcome (Dec * Dec)) (pd : Z * Z) : outcome (Dec * Dec) :=
  obind acc (fun '(sumTmV, sumPowAmt) =>
  let '(pow, dur) := pd in
  if dur <=? 0 then Ok (sumTmV, sumPowAmt)
  else
    let vpAmt := dec_New pow DECIMAL in
    obind (if dur <? ripeningCycle then quo (dec_Mul (dec_FromInt dur) vpAmt) (dec_FromInt ripeningCycle) else Ok vpAmt) (fun tmV =>
    Ok (dec_Add sumTmV tmV, dec_Add sumPowAmt vpAmt))).

Definition Wa (pows vpdurs : list Z) (ripeningCycle tau : Z) (baseSupply : Dec) : outcome Dec :=
  let _tau := permil tau in
  let _keppa := dec_Sub DecimalOne _tau in
  obind (with_durs pows vpdurs) (fun pds =>
  obind (fold_left (wa_turn ripeningCycle) pds (Ok (dec_Zero, dec_Zero))) (fun '(sumTmV, sumPowAmt) =>
  quo (dec_Add (dec_Mul _tau sumTmV) (dec_Mul _keppa sumPowAmt)) baseSupply)).

Definition oldWi (pow vdur ripeningCycle tau : Z) (baseSupply : Dec) : outcome Dec :=
  if vdur <=? 0 then Ok dec_Zero
  else
    obind (if vdur <? ripeningCycle then quo (dec_FromInt vdur) (dec_FromInt ripeningCycle) else Ok DecimalOne) (fun decDur =>
    let decV := dec_New pow DECIMAL in
    let decTau := permil tau in
    let decKeppa := dec_Sub DecimalOne decTau in
    quo (dec_Mul (dec_Add (dec_Mul decTau decDur) decKeppa) decV) baseSupply).

Definition Wi (pow vdur ripeningCycle tau : Z) (baseSupply : Dec) : outcome Dec :=
  if vdur <=? 0 then Ok dec_Zero
  else
    let decTau := permil tau in
    let decKeppa := dec_Sub DecimalOne decTau in
    obind (if vdur <? ripeningCycle
           then obind (quo (dec_Mul decTau (dec_FromInt vdur)) (dec_FromInt ripeningCycle)) (fun decTm => Ok (dec_Add decTm decKeppa))
           else Ok DecimalOne) (fun decCo =>
    quo (dec_Mul decCo (dec_New pow DECIMAL)) baseSupply).

(** [WaEx] scales the sum of the rising powers to amounts at the end. *)
Definition waex_turn (ripeningCycle : Z) (tau keppa : Dec) (acc : outcome (Z * Dec)) (pd : Z * Z) : outcome (Z * Dec) :=
  obind acc (fun '(matured, weighted) =>
  let '(pow, dur) := pd in
  if ripeningCycle <=? dur then Ok (i64 (matured + pow), weighted)
  else if 1 <=? dur then
    obind (quo (dec_FromInt dur) (dec_FromInt ripeningCycle)) (fun decDur =>
    let decCo := dec_Add (dec_Mul tau decDur) keppa in
    Ok (matured, dec_Add weighted (dec_Mul decCo (dec_FromInt pow))))
  else Ok (matured, weighted)).

Definition WaEx (pows vpdurs : list Z) (ripeningCycle tau : Z) (baseSupply : Dec) : outcome Dec :=
  let _tau := permil tau in
  let _keppa := dec_Sub DecimalOne _tau in
  obind (with_durs pows vpdurs) (fun pds =>
  obind (fold_left (waex_turn ripeningCycle _tau _keppa) pds (Ok (0, dec_Zero))) (fun '(matured, weighted) =>
  let weightedPower := dec_Mul weighted (dec_New 1 DECIMAL) in
  quo (dec_Add weightedPower (dec_New matured DECIMAL)) baseSupply)).

Definition WaEx64 (pows durs : list Z) (ripeningCycle tau baseSupply : Z) : outcome Dec :=
  obind (with_durs pows durs) (fun pds =>
  obind (dec_scaled pds ripeningCycle tau) (fun decWeightedPower =>
  quo decWeightedPower (dec_FromBig baseSupply (- DECIMAL)))).

End Decimal.

(** ** Plain fixed-point numbers *)

Section Fixed.
Context {Fixed : Type} `{FixedLib Fixed}.

Definition fixed_permil (tau : Z) : Fixed := fixed_Div (fixed_NewI tau 0) (fixed_NewI 1000 0).

Definition fixed_rising (tau keppa cycle : Fixed) (dur pow : Z) : Fixed :=
  fixed_Mul (fixed_Add (fixed_Div (fixed_Mul tau (fixed_NewI dur 0)) cycle) keppa) (fixed_NewI pow 0).

Definition fixedScaledPowerChunks (pcs : list PowerChunk) (currHeight ripeningCycle tau : Z) : Fixed :=
  let _tau := fixed_permil tau in
  let _keppa := fixed_Sub (fixed_NewI 1 0) _tau in
  let '(matured, rising) :=
    fold_left (fun (acc : Z * Fixed) pc =>
      let '(matured, rising) := acc in
      let dur := i64 (currHeight - pc_Height pc) in
      if ripeningCycle <=? dur then (i64 (matured + pc_Power pc), rising)
      else if 1 <=? dur then (matured, fixed_Add rising (fixed_rising _tau _keppa (fixed_NewI ripeningCycle 0) dur (pc_Power pc)))
      else acc) pcs (0, fixed_NewI 0 0) in
  fixed_Add rising (fixed_NewI matured 0).

Definition fixedWeightOfPowerChunks (pcs : list PowerChunk) (currHeight ripeningCycle tau baseSupply : Z) : Fixed :=
  let totalPower := match AmountToPower baseSupply with Ok p => p | _ => -1 end in
  fixed_Div (fixedScaledPowerChunks pcs currHeight ripeningCycle tau) (fixed_NewI totalPower 0).

Definition fixedScaledPowerChunk (pc : PowerChunk) (currHeight ripeningCycle tau : Z) : Fixed :=
  let _tau := fixed_permil tau in
  let _keppa := fixed_Sub (fixed_NewI 1 0) _tau in
  let dur := i64 (currHeight - pc_Height pc) in
  if ripeningCycle <=? dur then fixed_NewI (pc_Power pc) 0
  else if 1 <=? dur then fixed_rising _tau _keppa (fixed_NewI ripeningCycle 0) dur (pc_Power pc)
  else fixed_NewI 0 0.

(** The controller's weights are the plain ones: the wrapper adds nothing. *)
Theorem fixed_is_fxnum pcs currHeight ripeningCycle tau baseSupply :
  fixedWeightOfPowerChunks pcs currHeight ripeningCycle tau baseSupply =
  fxnumWeightOfPowerChunks pcs currHeight ripeningCycle tau baseSupply.
Proof. reflexivity. Qed.

End Fixed.

(** ** The weight of covered power is at most one *)

Section Bounds.
Context {Dec : Type} `{DecimalLib Dec, !DecimalLaws Dec}.
(** [NewFromBigInt] is exact for every exponent. *)
Context (FromBig_exact : forall v e, (qval (dec_FromBig v e) == inject_Z v * Qpow10 e)%Q).

Definition qsum (ws : list Dec) : Q := fold_right (fun w acc => (qval w + acc)%Q) 0%Q ws.
Definition powers (pcs : list PowerChunk) : Z := fold_right (fun pc acc => pc_Power pc + acc) 0 pcs.

Lemma qval_int n : (qval (dec_FromInt n) == inject_Z n)%Q.
Proof. unfold dec_FromInt. rewrite dec_New_law. unfold Qpow10. cbn. ring. Qed.

Lemma permil_unit tau : 0 <= tau <= 1000 -> (0 <= qval (permil (Dec := Dec) tau) <= 1)%Q.
Proof.
  intros Ht. unfold permil. rewrite dec_New_law. change (Qpow10 (-3)) with (/ inject_Z 1000)%Q.
  assert (0 <= inject_Z tau)%Q by (change 0%Q with (inject_Z 0); rewrite <- Zle_Qle; lia).
  assert (inject_Z tau <= inject_Z 1000)%Q by (rewrite <- Zle_Qle; lia). split.
  - apply Qmult_le_0_compat; [done|]. by apply Qinv_le_0_compat.
  - apply Qle_shift_div_r; [done|]. lra.
Qed.

Lemma rising_bound tau cycle dur pow :
  0 <= tau <= 1000 -> 1 <= dur < cycle -> 0 <= pow ->
  exists w, rising_weight (permil (Dec := Dec) tau) (dec_Sub DecimalOne (permil tau)) (dec_FromInt cycle) dur pow = Ok w /\
    (0 <= qval w <= inject_Z pow)%Q.
Proof.
  intros Ht Hd Hp. pose proof (permil_unit tau Ht) as [Ht0 Ht1].
  assert (0 < inject_Z cycle)%Q by (change 0%Q with (inject_Z 0); rewrite <- Zlt_Qlt; lia).
  assert (0 <= inject_Z dur)%Q by (change 0%Q with (inject_Z 0); rewrite <- Zle_Qle; lia).
  assert (inject_Z dur <= inject_Z cycle)%Q by (rewrite <- Zle_Qle; lia).
  assert (0 <= inject_Z pow)%Q by (change 0%Q with (inject_Z 0); rewrite <- Zle_Qle; lia).
  destruct (dec_QuoRem_law (dec_Mul (permil tau) (dec_FromInt dur)) (dec_FromInt cycle : Dec) DivisionPrecision) as (q & r & Hq & Hq0 & Hq1).
  { rewrite dec_Mul_law, qval_int. by apply Qmult_le_0_compat. }
  { by rewrite qval_int. }
  rewrite dec_Mul_law, !qval_int in Hq1. assert (qval q <= qval (permil (Dec := Dec) tau))%Q as Hqt by nra.
  unfold rising_weight, quo. rewrite Hq. cbn [obind]. eexists. split; [reflexivity|].
  rewrite dec_Mul_law, dec_Add_law, dec_Sub_law, qval_int. unfold DecimalOne. rewrite qval_int.
  change (inject_Z 1) with 1%Q. split; [apply Qmult_le_0_compat; lra|]. nra.
Qed.

(** A chunk alone counts for at most its power. *)
Lemma chunk_bound pc currHeight cycle tau :
  0 <= tau <= 1000 -> 0 < cycle -> 0 <= pc_Power pc ->
  exists w : Dec, decimalScaledPowerChunk pc currHeight cycle tau = Ok w /\ (0 <= qval w <= inject_Z (pc_Power pc))%Q.
Proof.
  intros Ht Hc Hp. unfold decimalScaledPowerChunk. set (dur := i64 _).
  assert (0 <= inject_Z (pc_Power pc))%Q by (change 0%Q with (inject_Z 0); rewrite <- Zle_Qle; lia).
  destruct (Z.leb_spec cycle dur); [eexists; split; [done|]; rewrite qval_int; lra|].
  destruct (Z.leb_spec 1 dur); [by apply rising_bound|]. eexists. split; [done|]. rewrite dec_Zero_law. lra.
Qed.

(** The loop adds up the chunks, each on its own. *)
Lemma scaled_loop pcs currHeight cycle tau matured (rising : Dec) :
  0 <= tau <= 1000 -> 0 < cycle -> Forall (fun pc => 0 <= pc_Power pc) pcs -> 0 <= matured -> matured + powers pcs < 2 ^ 63 ->
  exists m r ws,
    fold_left (scale_turn cycle (permil tau) (dec_Sub DecimalOne (permil tau)) (dec_FromInt cycle)) (map (power_dur currHeight) pcs)
      (Ok (matured, rising)) = Ok (m, r) /\
    Forall2 (fun pc w => decimalScaledPowerChunk pc currHeight cycle tau = Ok w) pcs ws /\
    (qval r + inject_Z m == qval rising + inject_Z matured + qsum ws)%Q /\ (0 <= qsum ws <= inject_Z (powers pcs))%Q.
Proof.
  intros Ht Hc Hp. revert matured rising. induction Hp as [|pc pcs Hpc Hp IH]; intros matured rising Hm Hs.
  - exists matured, rising, []. split; [done|]. split; [constructor|]. cbn. split; [lra|]. change (inject_Z 0) with 0%Q. lra.
  - destruct (chunk_bound pc currHeight cycle tau Ht Hc Hpc) as (w & Hw & Hb). cbn [powers fold_right] in Hs. fold (powers pcs) in Hs.
    assert (0 <= powers pcs) as Hpp by (clear -Hp; induction Hp; cbn; [lia|]; unfold powers in *; lia).
    assert (exists m1 (r1 : Dec), scale_turn cycle (permil tau) (dec_Sub DecimalOne (permil tau)) (dec_FromInt cycle)
        (Ok (matured, rising)) (power_dur currHeight pc) = Ok (m1, r1) /\ 0 <= m1 /\ m1 <= matured + pc_Power pc /\
        (qval r1 + inject_Z m1 == qval rising + inject_Z matured + qval w)%Q) as (m1 & r1 & Et & Hm1 & Hm1' & Hq).
    { unfold decimalScaledPowerChunk in Hw. unfold scale_turn, power_dur. cbn [obind]. set (dur := i64 _) in *.
      destruct (cycle <=? dur); [|destruct (1 <=? dur)].
      - injection Hw as <-. eexists _, _. split; [done|]. rewrite i64_id by (unfold in_i64; lia). rewrite qval_int, inject_Z_plus. split; [lia|]. split; [lia|]. lra.
      - rewrite Hw. cbn [obind]. eexists _, _. split; [done|]. rewrite dec_Add_law. split; [lia|]. split; [lia|]. lra.
      - injection Hw as <-. eexists _, _. split; [done|]. rewrite dec_Zero_law. split; [lia|]. split; [lia|]. lra. }
    destruct (IH m1 r1 ltac:(lia) ltac:(lia)) as (m & r & ws & Hf & HF & Hsum & Hbd).
    exists m, r, (w :: ws). cbn [map fold_left]. rewrite Et. split; [exact Hf|]. split; [by constructor|].
    cbn [qsum fold_right powers]. fold (qsum ws) (powers pcs). rewrite inject_Z_plus. split; lra.
Qed.

(** In decimals, whenever the supply covers the powers of the chunks, their
    weight is computed without a panic and lies between zero and one, and the
    scaled power it is made of is exactly the sum of what each chunk counts for. *)
Theorem weight_at_most_one pcs currHeight cycle tau supply :
  0 <= tau <= 1000 -> 0 < cycle -> Forall (fun pc => 0 <= pc_Power pc) pcs -> powers pcs < 2 ^ 63 ->
  0 < supply -> powers pcs * 10 ^ 18 <= supply ->
  exists (w s : Dec) ws,
    decimalWeightOfPowerChunks pcs currHeight cycle tau supply = Ok w /\ (0 <= qval w <= 1)%Q /\
    decimalScaledPowerChunks pcs currHeight cycle tau = Ok s /\
    Forall2 (fun pc w => decimalScaledPowerChunk pc currHeight cycle tau = Ok w) pcs ws /\ (qval s == qsum ws)%Q.
Proof.
  intros Ht Hc Hp Hs Hsup Hcov.
  destruct (scaled_loop pcs currHeight cycle tau 0 dec_Zero Ht Hc Hp ltac:(lia) ltac:(lia)) as (m & r & ws & Hf & HF & Hsum & Hb).
  assert (decimalScaledPowerChunks pcs currHeight cycle tau = Ok (dec_Add r (dec_FromInt m))) as Hsc.
  { unfold decimalScaledPowerChunks, dec_scaled. cbn [obind]. by rewrite Hf. }
  assert (qval (dec_Add r (dec_FromInt m)) == qsum ws)%Q as Hval.
  { rewrite dec_Add_law, qval_int, Hsum, dec_Zero_law. change (inject_Z 0) with 0%Q. lra. }
  assert (qval (dec_FromBig supply (- DECIMAL)) == inject_Z supply / inject_Z (10 ^ 18))%Q as Hbase.
  { rewrite FromBig_exact. reflexivity. }
  assert (inject_Z (powers pcs) <= qval (dec_FromBig supply (- DECIMAL)))%Q as Hle.
  { rewrite Hbase. apply Qle_shift_div_l; [done|]. rewrite <- inject_Z_mult, <- Zle_Qle. done. }
  assert (0 < qval (dec_FromBig supply (- DECIMAL)))%Q as Hpos.
  { rewrite Hbase. apply Qlt_shift_div_l; [done|]. rewrite Qmult_0_l. change 0%Q with (inject_Z 0). rewrite <- Zlt_Qlt. done. }
  destruct (dec_QuoRem_law (dec_Add r (dec_FromInt m)) (dec_FromBig supply (- DECIMAL)) DivisionPrecision) as (q & rm & Hq & Hq0 & Hq1); [lra|done|].
  exists q, (dec_Add r (dec_FromInt m)), ws. split.
  { unfold decimalWeightOfPowerChunks. rewrite Hsc. cbn [obind]. unfold quo. by rewrite Hq. }
  split; [|done]. split; [done|]. assert (qval q * qval (dec_FromBig supply (- DECIMAL)) <= 1 * qval (dec_FromBig supply (- DECIMAL)))%Q as Hf1 by lra.
  by apply Qmult_le_r in Hf1.
Qed.

(** On powers and ages it is the same computation. *)
Theorem WaEx64_is_weight (pcs : list PowerChunk) currHeight cycle tau supply :
  WaEx64 (Dec := Dec) (map pc_Power pcs) (map (fun pc => i64 (currHeight - pc_Height pc)) pcs) cycle tau supply =
  decimalWeightOfPowerChunks pcs currHeight cycle tau supply.
Proof.
  unfold WaEx64, decimalWeightOfPowerChunks, decimalScaledPowerChunks.
  assert (with_durs (map pc_Power pcs) (map (fun pc => i64 (currHeight - pc_Height pc)) pcs) = Ok (map (power_dur currHeight) pcs)) as ->; [|done].
  induction pcs as [|pc pcs IH]; [done|]. cbn [map with_durs]. by rewrite IH.
Qed.

End Bounds.

Module DecimalWitness.

#[local] Instance w_dec : DecimalLib Q := Q_decimal.
#[local] Instance w_laws : DecimalLaws Q := Q_decimal_laws.

Lemma w_exact v e : (qval (dec_FromBig v e) == inject_Z v * Qpow10 e)%Q.
Proof. reflexivity. Qed.

(** A matured and a rising chunk. *)
Definition chunks : list PowerChunk := [MkPowerChunk 60 1 [1]; MkPowerChunk 40 50 [2]].

Lemma weight_at_most_one_witness :
  exists (w s : Q) ws,
    decimalWeightOfPowerChunks chunks 100 80 200 (1000 * 10 ^ 18) = Ok w /\ (0 <= qval w <= 1)%Q /\
    decimalScaledPowerChunks chunks 100 80 200 = Ok s /\
    Forall2 (fun pc w => decimalScaledPowerChunk pc 100 80 200 = Ok w) chunks ws /\ (qval s == qsum ws)%Q.
Proof.
  apply (weight_at_most_one w_exact chunks 100 80 200 (1000 * 10 ^ 18)); try lia.
  - repeat constructor; cbn; lia.
  - cbn. lia.
  - cbn. lia.
Defined.

End DecimalWitness.
