(* ===== verification/SupplyCtrler.v ===== *)
(** * SupplyCtrler: minting and rewards

    [ctrlers/supply/ctrler.go], [ctrler_mint.go], [ctrler_reward.go],
    [ctrler_burn.go] and [ctrler_block.go].  At the first and last step of a
    block that ends an inflation cycle the controller asks a goroutine for the
    issuance and distributes it as rewards, which a transaction withdraws.  The
    goroutine works on values fixed at the request (the last supply, the
    parameters, the ledger of the previous block), so its answer is computed at
    the request and kept in the response channel.  The items of the ledger come
    first. *)
From stdpp Require Import base gmap list strings.
From Stdlib Require Import ZArith Lia.
From S2P Require Import Prelude XErrors GoMonad LedgerKeys Iavl Ledger LedgerSpec Units Proto.
From S2P Require Import GovParams.
From S2P Require Import TrxTypes AcctCtrler VPowerCtrler Numbers Weights.

(** ** The total supply and the rewards

    [ctrlers/supply/supply.go] and [reward.go]: the record of the total supply
    and the cumulated reward of an address, with their encodings. *)

(** [changed] is not stored. *)
Record Supply := MkSupply {
  sp_Height : Z;
  sp_AdjustHeight : Z;
  sp_totalSupply : Z;
  sp_adjustSupply : Z;
  sp_changed : bool;
}.

Record Reward := MkReward {
  rw_Address : Address;
  rw_Height : Z;
  rw_issued : Z;
  rw_withdrawn : Z;
  rw_slashed : Z;
  rw_cumulated : Z;
}.

#[global] Instance Supply_eq_dec : EqDecision Supply.
Proof. solve_decision. Defined.
#[global] Instance Reward_eq_dec : EqDecision Reward.
Proof. solve_decision. Defined.

(** ** The total supply *)

Definition NewSupply : Supply := MkSupply 0 0 0 0 false.

(** [Supply.Add] *)
Definition supply_Add (s : Supply) (height amt : Z) : Supply :=
  MkSupply height (sp_AdjustHeight s) (uadd (sp_totalSupply s) amt) (sp_adjustSupply s) true.

(** [Supply.Sub] *)
Definition supply_Sub (s : Supply) (height amt : Z) : Supply :=
  MkSupply height (sp_AdjustHeight s) (usub (sp_totalSupply s) amt) (sp_adjustSupply s) true.

Definition adjusted (s : Supply) (height : Z) : Supply :=
  MkSupply (sp_Height s) height (sp_totalSupply s) (sp_totalSupply s) (sp_changed s).

Definition AdjustAdd (s : Supply) (height amt : Z) : Supply := adjusted (supply_Add s height amt) height.
Definition AdjustSub (s : Supply) (height amt : Z) : Supply := adjusted (supply_Sub s height amt) height.

Definition ResetChanged (s : Supply) : Supply :=
  MkSupply (sp_Height s) (sp_AdjustHeight s) (sp_totalSupply s) (sp_adjustSupply s) false.

(** ** Rewards *)

Definition NewReward (addr : Address) : Reward := MkReward addr 0 0 0 0 0.

(** [Issue], [Withdraw] and [Slash] start a new record at a greater height and
    panic at a smaller one. *)
Definition Issue (r : Reward) (amt h : Z) : outcome Reward :=
  if rw_Height r <? h
  then Ok (MkReward (rw_Address r) h amt 0 0 (uadd (rw_cumulated r) amt))
  else if rw_Height r =? h
  then Ok (MkReward (rw_Address r) (rw_Height r) (uadd (rw_issued r) amt) (rw_withdrawn r) (rw_slashed r)
             (uadd (rw_cumulated r) amt))
  else Panic.

Definition Withdraw (r : Reward) (amt h : Z) : outcome Reward :=
  if rw_Height r <? h
  then Ok (MkReward (rw_Address r) h 0 amt 0 (usub (rw_cumulated r) amt))
  else if rw_Height r =? h
  then Ok (MkReward (rw_Address r) (rw_Height r) (rw_issued r) (uadd (rw_withdrawn r) amt) (rw_slashed r)
             (usub (rw_cumulated r) amt))
  else Panic.

Definition reward_Slash (r : Reward) (amt h : Z) : outcome Reward :=
  if rw_Height r <? h
  then Ok (MkReward (rw_Address r) h 0 0 amt (usub (rw_cumulated r) amt))
  else if rw_Height r =? h
  then Ok (MkReward (rw_Address r) (rw_Height r) (rw_issued r) (rw_withdrawn r) (uadd (rw_slashed r) amt)
             (usub (rw_cumulated r) amt))
  else Panic.

(** ** The items of the ledger *)

Inductive SupplyItem : Type :=
| ISupply (x : Supply)
| IReward (x : Reward).

#[global] Instance SupplyItem_eq_dec : EqDecision SupplyItem.
Proof. solve_decision. Defined.

Record SupplyProto := MkSupplyProto {
  spp_Height : Z;
  spp_XTotalSupply : bytes;
  spp_AdjustHeight : Z;
  spp_XAdjustSupply : bytes;
}.

Record RewardProto := MkRewardProto {
  rwp_Address : bytes;
  rwp_XIssued : bytes;
  rwp_XWithdrawn : bytes;
  rwp_XSlashed : bytes;
  rwp_XCumulated : bytes;
  rwp_Height : Z;
}.

Class SupplyProtos : Type := {
  sps_supply :: Proto SupplyProto;
  sps_reward :: Proto RewardProto;
}.

Class SupplyProtosLaws `{SupplyProtos} : Prop := {
  spl_supply :: ProtoLaws SupplyProto (fun m => in_i64 (spp_Height m) /\ in_i64 (spp_AdjustHeight m));
  spl_reward :: ProtoLaws RewardProto (fun m => in_i64 (rwp_Height m));
}.

Section SupplyCodec.
Context `{SupplyProtos}.

(** [defaultNewItem] *)
Definition supply_newItem (key : LedgerKey) : outcome SupplyItem :=
  if bytes_HasPrefix key KeyPrefixTotalSupply then Ok (ISupply NewSupply)
  else if bytes_HasPrefix key KeyPrefixReward then Ok (IReward (NewReward []))
  else Panic.

Definition Supply_Encode (s : Supply) : outcome bytes :=
  from_err (Marshal (MkSupplyProto (sp_Height s) (uBytes (sp_totalSupply s))
    (sp_AdjustHeight s) (uBytes (sp_adjustSupply s)))).

Definition Supply_Decode (s : Supply) (v : bytes) : outcome Supply :=
  obind (from_err (Unmarshal v)) (fun m : SupplyProto =>
  Ok (MkSupply (spp_Height m) (spp_AdjustHeight m) (uSetBytes (spp_XTotalSupply m))
        (uSetBytes (spp_XAdjustSupply m)) (sp_changed s))).

Definition Reward_Encode (r : Reward) : outcome bytes :=
  from_err (Marshal (MkRewardProto (rw_Address r) (uBytes (rw_issued r)) (uBytes (rw_withdrawn r))
    (uBytes (rw_slashed r)) (uBytes (rw_cumulated r)) (rw_Height r))).

Definition Reward_Decode (v : bytes) : outcome Reward :=
  obind (from_err (Unmarshal v)) (fun m : RewardProto =>
  Ok (MkReward (rwp_Address m) (rwp_Height m) (uSetBytes (rwp_XIssued m)) (uSetBytes (rwp_XWithdrawn m))
        (uSetBytes (rwp_XSlashed m)) (uSetBytes (rwp_XCumulated m)))).

Definition SupplyItem_Encode (x : SupplyItem) : outcome bytes :=
  match x with
  | ISupply s => Supply_Encode s
  | IReward r => Reward_Encode r
  end.

Definition SupplyItem_Decode (x : SupplyItem) (k v : bytes) : outcome SupplyItem :=
  match x with
  | ISupply s => obind (Supply_Decode s v) (fun s' => Ok (ISupply s'))
  | IReward _ => obind (Reward_Decode v) (fun r => Ok (IReward r))
  end.

#[export] Instance SupplyItem_item : LedgerItem SupplyItem := {
  newItemFor := supply_newItem;
  Encode := SupplyItem_Encode;
  Decode := SupplyItem_Decode;
}.

End SupplyCodec.

(** An item the ledger stores under a key. *)
Definition supply_ok (s : Supply) : Prop :=
  in_i64 (sp_Height s) /\ in_i64 (sp_AdjustHeight s) /\ in_u256 (sp_totalSupply s) /\
  in_u256 (sp_adjustSupply s) /\ sp_changed s = false.

Definition reward_ok (r : Reward) : Prop :=
  in_i64 (rw_Height r) /\ in_u256 (rw_issued r) /\ in_u256 (rw_withdrawn r) /\
  in_u256 (rw_slashed r) /\ in_u256 (rw_cumulated r).

Definition sitem_ok (k : bytes) (x : SupplyItem) : Prop :=
  match x with
  | ISupply s => k = LedgerKeyTotalSupply /\ supply_ok s
  | IReward r => k = LedgerKeyReward (rw_Address r) /\ reward_ok r
  end.

#[export, refine] Instance SupplyItem_laws `{SupplyProtos, !SupplyProtosLaws} : LedgerItemLaws SupplyItem := {
  item_ok := sitem_ok;
}.
Proof.
  intros k [s|r]; cbn [sitem_ok].
  - intros [-> (Hh & Ha & Ht & Hs & Hc)].
    destruct (proto_roundtrip (MkSupplyProto (sp_Height s) (uBytes (sp_totalSupply s))
      (sp_AdjustHeight s) (uBytes (sp_adjustSupply s)))) as (b & Hm & Hu); [done|].
    exists b. unfold decode_at. cbn. unfold Supply_Encode, Supply_Decode. rewrite Hm, Hu. split; [done|]. cbn.
    rewrite !uSetBytes_uBytes by done. destruct s; cbn in *. by subst.
  - intros [-> (Hh & Hi & Hw & Hs & Hc)].
    destruct (proto_roundtrip (MkRewardProto (rw_Address r) (uBytes (rw_issued r)) (uBytes (rw_withdrawn r))
      (uBytes (rw_slashed r)) (uBytes (rw_cumulated r)) (rw_Height r))) as (b & Hm & Hu); [done|].
    exists b. unfold decode_at. cbn. unfold Reward_Encode, Reward_Decode. rewrite Hm, Hu. split; [done|]. cbn.
    rewrite !uSetBytes_uBytes by done. by destruct r.
Defined.

Record mintedReward := MkMintedReward {
  mr_addr : Address;
  mr_amt : Z;
}.

(** The error of the goroutine, or the minted sum and its parts. *)
Inductive respMint : Type :=
| MintFailed (xerr : error)
| Minted (sumMintedAmt : Z) (rewards : list mintedReward).

Record SupplyCtrler (T I : Type) := MkSupplyCtrler {
  supplyState : LState SupplyItem T I;
  lastTotalSupply : loc;
  respCh : list respMint;
}.
Arguments MkSupplyCtrler {T I} _ _ _.
Arguments supplyState {T I} _.
Arguments lastTotalSupply {T I} _.
Arguments respCh {T I} _.

Program Definition sup_lens {T I} : lens (SupplyCtrler T I) (LState SupplyItem T I) :=
  Lens supplyState (fun l s => MkSupplyCtrler l (lastTotalSupply s) (respCh s)) _ _ _.
Next Obligation. done. Qed.
Next Obligation. now intros ? ? []. Qed.
Next Obligation. done. Qed.

(** ** Issuance *)

Section Mint.
Context {Dec Fixed : Type} `{DecimalLib Dec, FixedLib Fixed}.

(** [uint256.MustFromBig] *)
Definition MustFromBig (b : Z) : outcome Z := if 2 ^ 256 <=? Z.abs b then Panic else Ok (u256 b).

(** [heightYears] always returns one. *)
Definition heightYears (height intval : Z) : Fixed := fx_FromInt 1.

Definition decimalSd (scaledHeight : Fixed) (lastSupply smax lambda : Z) (wa : Fixed) : outcome Dec :=
  let decLambdaAddOne := dec_Add (dec_New lambda (-3)) (dec_New 1 0) in
  obind (fx_ToDecimal scaledHeight) (fun decScaledH =>
  obind (fx_ToDecimal wa) (fun decWa =>
  let decExp := dec_Mul decWa decScaledH in
  let part1 := dec_Sub (dec_FromInt 1) (dec_Pow decLambdaAddOne (dec_Neg decExp)) in
  let part0 := dec_FromBig (usub smax lastSupply) 0 in
  Ok (dec_Mul part0 part1))).

Definition Sd := decimalSd.

(** What the loop over the beneficiaries carries. *)
Record mint_acc := MkMintAcc {
  ma_remainder : Dec;
  ma_sum : Z;
  ma_rewards : list mintedReward;
}.

Definition mint_one (rwdToAll rwdToVals decWaAll decWaVals : Dec) (acc : mint_acc) (benef : Beneficiary Fixed)
    : outcome mint_acc :=
  obind (fx_ToDecimal (bf_weight benef)) (fun decWi =>
  obind (dec_QuoRem (dec_Mul rwdToAll decWi) decWaAll DivisionPrecision) (fun '(rwd0, _) =>
  obind (if bf_isVal benef
         then obind (dec_QuoRem (dec_Mul rwdToVals decWi) decWaVals DivisionPrecision) (fun '(_rwd, _) =>
              Ok (dec_Add rwd0 _rwd))
         else Ok rwd0) (fun rwd1 =>
  obind (fx_ToDecimal (bf_signingRate benef)) (fun sw =>
  let rwd := dec_Mul (dec_Add rwd1 (ma_remainder acc)) sw in
  obind (MustFromBig (dec_BigInt rwd)) (fun amt =>
  Ok (MkMintAcc (dec_Sub rwd (dec_Floor rwd)) (uadd (ma_sum acc) amt)
        (ma_rewards acc ++ [MkMintedReward (bf_addr benef) amt]))))))).

Fixpoint mint_all (rwdToAll rwdToVals decWaAll decWaVals : Dec) (benefs : list (Beneficiary Fixed))
    (acc : mint_acc) : outcome mint_acc :=
  match benefs with
  | [] => Ok acc
  | b :: bs => obind (mint_one rwdToAll rwdToVals decWaAll decWaVals acc b)
                 (mint_all rwdToAll rwdToVals decWaAll decWaVals bs)
  end.

(** One request of [computeIssuanceAndRewardRoutine]; [weight] is the result of
    [VPowerHandler.ComputeWeight]. *)
Definition computeIssuanceAndReward (gp : GovParamsProto) (height lastSupply : Z)
    (weight : outcome (fxnumWeight Fixed)) : outcome respMint :=
  match weight with
  | Err xerr => Ok (MintFailed xerr)
  | Panic => Panic
  | Ok w =>
      obind (dec_Div (dec_FromInt (GovParams.ValidatorRewardRate gp)) (dec_FromInt 100)) (fun valRate : Dec =>
      obind (Sd (heightYears height 1) lastSupply (GovParams.MaxTotalSupply gp)
               (GovParams.InflationWeightPermil gp) (sumWeight w)) (fun addedSupply =>
      if dec_Sign addedSupply <? 0
      then Ok (MintFailed (NewOrdinary "critical error: calculated additional issuance amount must not be negative (got %v)"))
      else
        obind (fx_ToDecimal (sumWeight w)) (fun decWaAll =>
        obind (fx_ToDecimal (valsWeight w)) (fun decWaVals =>
        let rwdToVals := dec_Floor (dec_Mul addedSupply valRate) in
        let rwdToAll := dec_Sub addedSupply rwdToVals in
        obind (mint_all rwdToAll rwdToVals decWaAll decWaVals (beneficiaries w) (MkMintAcc dec_Zero 0 []))
          (fun acc => Ok (Minted (ma_sum acc) (ma_rewards acc)))))))
  end.

End Mint.

Section SupplyOps.
Context {T I : Type} `{Iavl T I} `{SupplyProtos}.
Abbreviation SC := (SupplyCtrler T I).
Abbreviation SM := (M (SupplyCtrler T I)).

Definition s_deref (l : loc) : SM SupplyItem := zoom sup_lens (l_deref l).
Definition s_assign (l : loc) (x : SupplyItem) : SM unit := zoom sup_lens (l_assign l x).
Definition s_alloc (x : SupplyItem) : SM loc := zoom sup_lens (l_alloc x).
Definition sup_Get (k : LedgerKey) (exec : bool) : SM loc := zoom sup_lens (Get k exec).
Definition sup_Set (k : LedgerKey) (l : loc) (exec : bool) : SM unit := zoom sup_lens (Set_ k l exec).
Definition sup_Del (k : LedgerKey) (exec : bool) : SM unit := zoom sup_lens (Del k exec).

(** A failed type assertion gives a nil pointer, which panics. *)
Definition get_supply (l : loc) : SM Supply :=
  let! x := s_deref l in match x with ISupply s => ret s | _ => panic end.
Definition get_reward (l : loc) : SM Reward :=
  let! x := s_deref l in match x with IReward r => ret r | _ => panic end.

Definition on_supply (f : Supply -> Supply) : SM unit :=
  let! l := gets lastTotalSupply in
  let! s := get_supply l in
  s_assign l (ISupply (f s)).

Definition set_last (l : loc) (s : SC) : SC := MkSupplyCtrler (supplyState s) l (respCh s).
Definition set_resp (ch : list respMint) (s : SC) : SC := MkSupplyCtrler (supplyState s) (lastTotalSupply s) ch.

(** [NewSupplyCtrler]: the supply of the last committed block. *)
Definition supply_load : SM unit :=
  let! r := try (sup_Get LedgerKeyTotalSupply true) in
  let! l := (match r with
             | inl l =>
                 let! x := s_deref l in
                 match x with
                 | ISupply _ => ret l
                 | _ => s_alloc (ISupply NewSupply)
                 end
             | inr e => if Contains e ErrNotFoundResult then s_alloc (ISupply NewSupply) else throw e
             end) in
  modify (set_last l).

Definition supply_InitLedger (initSupply : Z) : SM unit := on_supply (fun s => AdjustAdd s 1 initSupply).

Definition burn (height amt : Z) : SM unit :=
  let! l := gets lastTotalSupply in
  let! s := get_supply l in
  if 0 <=? uCmp amt (sp_totalSupply s) then throw ErrInvalidAmount
  else s_assign l (ISupply (AdjustSub s height amt)).

(** ** Rewards *)

Definition distRewardToState (rewards : list mintedReward) (height : Z) : SM unit :=
  for_each rewards (fun nrwd =>
    let! r := try (sup_Get (LedgerKeyReward (mr_addr nrwd)) true) in
    let! l := (match r with
               | inl l =>
                   let! x := s_deref l in
                   match x with
                   | IReward _ => ret l
                   | _ => s_alloc (IReward (NewReward (mr_addr nrwd)))
                   end
               | inr e =>
                   if Contains e ErrNotFoundResult then s_alloc (IReward (NewReward (mr_addr nrwd)))
                   else throw e
               end) in
    let! rwd := get_reward l in
    let! rwd' := lift (Issue rwd (mr_amt nrwd) height) in
    s_assign l (IReward rwd') ;;;
    sup_Set (LedgerKeyReward (mr_addr nrwd)) l true).

(** [distReward]: a reward pool is not supported, both branches are the same. *)
Definition distReward (rewards : list mintedReward) (height : Z) (poolAddr : Address) : SM unit :=
  if negb (bytes_Equal poolAddr []) && negb (bytes_Equal poolAddr ZeroAddress)
  then distRewardToState rewards height
  else distRewardToState rewards height.

(** ** The block *)

(** [requestMint]: the answer of the goroutine is put into the channel. *)
Definition requestMint {Dec Fixed} `{DecimalLib Dec, FixedLib Fixed} (gp : GovParamsProto) (height : Z)
    (weight : Z -> outcome (fxnumWeight Fixed)) : SM unit :=
  let! l := gets lastTotalSupply in
  let! s := get_supply l in
  let! resp := lift (computeIssuanceAndReward (Dec := Dec) gp height (sp_totalSupply s)
                       (weight (sp_totalSupply s))) in
  modify (fun st => set_resp (respCh st ++ [resp]) st).

(** [waitMint]; a receive from an empty channel never returns, which is a panic
    here. *)
Definition waitMint (gp : GovParamsProto) (height : Z) : SM unit :=
  let! ch := gets respCh in
  match ch with
  | [] => panic
  | resp :: ch' =>
      modify (set_resp ch') ;;;
      match resp with
      | MintFailed xerr => throw xerr
      | Minted sum rewards =>
          distReward rewards height (GovParams.RewardPoolAddress gp) ;;;
          on_supply (fun s => supply_Add s height sum)
      end
  end.

Definition supply_BeginBlock {Dec Fixed} `{DecimalLib Dec, FixedLib Fixed} (gp : GovParamsProto) (height : Z)
    (weight : Z -> outcome (fxnumWeight Fixed)) : SM unit :=
  let! b := lift (at_cycle_end height (GovParams.InflationCycleBlocks gp)) in
  if b : bool then requestMint (Dec := Dec) gp height weight else ret tt.

Definition supply_EndBlock (gp : GovParamsProto) (height : Z) : SM unit :=
  let! b := lift (at_cycle_end height (GovParams.InflationCycleBlocks gp)) in
  (if b : bool then waitMint gp height else ret tt) ;;;
  let! l := gets lastTotalSupply in
  let! s := get_supply l in
  if sp_changed s then
    sup_Set LedgerKeyTotalSupply l true ;;;
    on_supply ResetChanged
  else ret tt.

Definition supply_Commit : SM (bytes * Z) := zoom sup_lens Commit.

(** ** Transactions *)

(** [ValidateTrx] leaves the reward of the sender for [ExecuteTrx]. *)
Definition supply_ValidateTrx (tx : Trx) (exec : bool) : SM loc :=
  if GetType tx =? TRX_WITHDRAW then
    if negb (uSign (tx_Amount tx) =? 0) then throw (Wrapf ErrInvalidTrx "amount must be 0")
    else
      match tx_Payload tx with
      | Some (TrxPayloadWithdraw reqAmt) =>
          let! l := sup_Get (LedgerKeyReward (tx_From tx)) exec in
          let! rwd := get_reward l in
          if 0 <? uCmp reqAmt (rw_cumulated rwd) then throw (Wrapf ErrInvalidTrx "insufficient reward")
          else ret l
      | _ => throw ErrInvalidTrxPayloadType
      end
  else throw ErrUnknownTrxType.

Section WithAccounts.
Context {A : Type} `{IAccountHandler A}.
Abbreviation SA := (SupplyCtrler T I * A)%type.

Definition withdrawReward (currReward : loc) (amt height : Z) (exec : bool) : M SA unit :=
  let! addr := zoom fst_lens (
    let! r := get_reward currReward in
    let! r' := lift (Withdraw r amt height) in
    s_assign currReward (IReward r') ;;;
    (if rw_cumulated r' =? 0 then sup_Del (LedgerKeyReward (rw_Address r')) exec
     else sup_Set (LedgerKeyReward (rw_Address r')) currReward exec) ;;;
    ret (rw_Address r')) in
  zoom snd_lens (AcctCtrler.Reward addr amt exec).

Definition supply_ExecuteTrx (tx : Trx) (currReward : loc) (height : Z) (exec : bool) : M SA unit :=
  if GetType tx =? TRX_WITHDRAW then
    match tx_Payload tx with
    | Some (TrxPayloadWithdraw reqAmt) => withdrawReward currReward reqAmt height exec
    | _ => panic
    end
  else throw ErrUnknownTrxType.

End WithAccounts.

End SupplyOps.
