(* ===== verification/MintProps.v ===== *)
(** * MintProps: the issuance of a cycle

    The rewards computed for a cycle from the weights of the bonded power are
    one per beneficiary, add up to the minted sum, and do not lift a supply that
    is below its maximum above it; [lowered_max_overmints] shows what happens
    when the maximum was lowered below the supply. *)
From stdpp Require Import base gmap list strings.
From Stdlib Require Import ZArith QArith Qround Lia Lqa.
From S2P Require Import Prelude XErrors GoMonad LedgerKeys Iavl Ledger Units GovParams Proto Signer.
From S2P Require Import VPowerItems ValSet Limiter VPowerCtrler VPowerProps Numbers Weights SupplyCtrler.

Open Scope Z_scope.

Section MintProps.
Context {Dec Fixed : Type} `{DecimalLib Dec, !DecimalLaws Dec, FixedLib Fixed}.
Abbreviation Benef := (Beneficiary Fixed).

(** The value of a fixed-point number as the mint computes with it. *)
Definition dval (f : Fixed) : Q := match fx_ToDecimal f with Ok d => qval d | _ => 0%Q end.

Definition Qsum (l : list Q) : Q := foldr Qplus 0%Q l.

(** What the mint relies on of the weights: they are numbers that are not
    negative, they add up to at most the total, and so do those of the
    validators; a signing rate is a fraction of one. *)
Record weights_ok (w : fxnumWeight Fixed) : Prop := {
  wok_num : forall f, (exists b, b ∈ beneficiaries w /\ (f = bf_weight b \/ f = bf_signingRate b)) \/
    f = sumWeight w \/ f = valsWeight w -> is_ok (fx_ToDecimal (Dec := Dec) f) = true;
  wok_weight : forall b, b ∈ beneficiaries w -> (0 <= dval (bf_weight b))%Q;
  wok_sign : forall b, b ∈ beneficiaries w -> (0 <= dval (bf_signingRate b) <= 1)%Q;
  wok_sum : (Qsum (map (fun b => dval (bf_weight b)) (beneficiaries w)) <= dval (sumWeight w))%Q;
  wok_vals : (Qsum (map (fun b => dval (bf_weight b)) (List.filter bf_isVal (beneficiaries w)))
    <= dval (valsWeight w))%Q;
  wok_sum_pos : (0 < dval (sumWeight w))%Q;
  wok_vals_pos : (0 < dval (valsWeight w))%Q;
}.

Lemma dval_ok f : is_ok (fx_ToDecimal (Dec := Dec) f) = true -> exists d, fx_ToDecimal f = Ok d /\ dval f = qval d.
Proof. unfold dval. destruct (fx_ToDecimal f) as [d|e|]; [eauto|done..]. Qed.

(** ** One beneficiary *)

(** The most a beneficiary can get of the two pots [A] and [V]. *)
Definition share (A V W WV : Q) (b : Benef) : Q :=
  (A * dval (bf_weight b) / W + (if bf_isVal b then V * dval (bf_weight b) / WV else 0))%Q.

Lemma Qquo_le x w a : (0 < w)%Q -> (x * w <= a)%Q -> (x <= a / w)%Q.
Proof. intros Hw Hx. by apply Qle_shift_div_l. Qed.

Lemma Qmult_part a s : (0 <= a)%Q -> (0 <= s <= 1)%Q -> (0 <= a * s <= a)%Q.
Proof. nra. Qed.

Lemma MustFromBig_ok z : 0 <= z < 2 ^ 256 -> MustFromBig z = Ok z.
Proof.
  intros Hz. unfold MustFromBig. rewrite Z.abs_eq by lia.
  destruct (Z.leb_spec (2 ^ 256) z); [lia|]. by rewrite u256_id.
Qed.

Definition benef_ok (b : Benef) : Prop :=
  is_ok (fx_ToDecimal (Dec := Dec) (bf_weight b)) = true /\
  is_ok (fx_ToDecimal (Dec := Dec) (bf_signingRate b)) = true /\
  (0 <= dval (bf_weight b))%Q /\ (0 <= dval (bf_signingRate b) <= 1)%Q.

Lemma share_nonneg (A V W WV : Q) b :
  (0 <= A)%Q -> (0 <= V)%Q -> (0 < W)%Q -> (0 < WV)%Q -> (0 <= dval (bf_weight b))%Q ->
  (0 <= share A V W WV b)%Q.
Proof.
  intros HA HV HW HWV Hb. unfold share.
  assert (0 <= A * dval (bf_weight b) / W)%Q by (apply Qle_shift_div_l; [done|]; nra).
  destruct (bf_isVal b); [|lra].
  assert (0 <= V * dval (bf_weight b) / WV)%Q by (apply Qle_shift_div_l; [done|]; nra). lra.
Qed.

(** The part of the two pots before the signing rate. *)
Lemma quotients_ok (toAll toVals wAll wVals decWi : Dec) b :
  (0 <= qval toAll)%Q -> (0 <= qval toVals)%Q -> (0 < qval wAll)%Q -> (0 < qval wVals)%Q ->
  (0 <= qval decWi)%Q -> dval (bf_weight b) = qval decWi ->
  exists q r rwd1, dec_QuoRem (dec_Mul toAll decWi) wAll DivisionPrecision = Ok (q, r) /\
    (if bf_isVal b
     then obind (dec_QuoRem (dec_Mul toVals decWi) wVals DivisionPrecision) (fun '(_rwd, _) => Ok (dec_Add q _rwd))
     else Ok q) = Ok rwd1 /\
    (0 <= qval rwd1 <= share (qval toAll) (qval toVals) (qval wAll) (qval wVals) b)%Q.
Proof.
  intros HA HV HW HWV Hd Eb. unfold share. rewrite Eb.
  assert (0 <= qval (dec_Mul toAll decWi))%Q as HA' by (rewrite dec_Mul_law; by apply Qmult_le_0_compat).
  assert (0 <= qval (dec_Mul toVals decWi))%Q as HV' by (rewrite dec_Mul_law; by apply Qmult_le_0_compat).
  destruct (dec_QuoRem_law _ wAll DivisionPrecision HA' HW) as (q & r & Eq & Hq0 & Hq).
  rewrite dec_Mul_law in Hq. apply Qquo_le in Hq; [|done]. rewrite Eq.
  destruct (bf_isVal b).
  - destruct (dec_QuoRem_law _ wVals DivisionPrecision HV' HWV) as (v & r' & Ev & Hv0 & Hv).
    rewrite dec_Mul_law in Hv. apply Qquo_le in Hv; [|done]. rewrite Ev. cbn [obind].
    do 3 eexists. split; [done|]. split; [done|]. rewrite dec_Add_law. lra.
  - do 3 eexists. split; [done|]. split; [done|]. lra.
Qed.

Lemma mint_one_ok (toAll toVals wAll wVals : Dec) (acc : mint_acc (Dec := Dec)) b (B : Z) :
  (0 <= qval toAll)%Q -> (0 <= qval toVals)%Q -> (0 < qval wAll)%Q -> (0 < qval wVals)%Q ->
  benef_ok b -> (0 <= qval (ma_remainder acc))%Q -> 0 <= ma_sum acc -> B < 2 ^ 256 ->
  (inject_Z (ma_sum acc) + qval (ma_remainder acc)
    + share (qval toAll) (qval toVals) (qval wAll) (qval wVals) b <= inject_Z B)%Q ->
  exists rem amt, mint_one toAll toVals wAll wVals acc b =
      Ok (MkMintAcc rem (ma_sum acc + amt) (ma_rewards acc ++ [MkMintedReward (bf_addr b) amt])) /\
    0 <= amt /\ (0 <= qval rem)%Q /\
    (inject_Z (ma_sum acc + amt) + qval rem <= inject_Z (ma_sum acc) + qval (ma_remainder acc)
      + share (qval toAll) (qval toVals) (qval wAll) (qval wVals) b)%Q.
Proof.
  intros HA HV HW HWV (Hw & Hs & Hw0 & Hs01) Hrem Hsum HB Hbud. unfold mint_one.
  destruct (dval_ok _ Hw) as (decWi & Ew & Ewv), (dval_ok _ Hs) as (sw & Es & Esv).
  rewrite Ew, Es; cbn [obind]. rewrite Ewv in Hw0. rewrite Esv in Hs01.
  destruct (quotients_ok toAll toVals wAll wVals decWi b HA HV HW HWV Hw0 Ewv)
    as (q & r & rwd1 & -> & Er & Hr). cbn [obind]. rewrite Er; cbn [obind].
  set (rwd := dec_Mul (dec_Add rwd1 (ma_remainder acc)) sw).
  assert (0 <= qval rwd <= qval rwd1 + qval (ma_remainder acc))%Q as Hrwd.
  { unfold rwd. rewrite dec_Mul_law, dec_Add_law. apply Qmult_part; lra. }
  rewrite dec_BigInt_law by apply Hrwd.
  assert (0 <= Qfloor (qval rwd)) as Hf0 by (apply (Qfloor_resp_le 0); apply Hrwd).
  pose proof (Qfloor_le (qval rwd)) as Hfl.
  assert (ma_sum acc + Qfloor (qval rwd) <= B) as HB1.
  { rewrite Zle_Qle, inject_Z_plus. lra. }
  rewrite MustFromBig_ok by lia. cbn [obind]. unfold uadd. rewrite u256_id by (unfold in_u256; lia).
  do 2 eexists. split; [done|]. split; [done|].
  assert (qval (dec_Sub rwd (dec_Floor rwd)) == qval rwd - inject_Z (Qfloor (qval rwd)))%Q as Erem
    by (by rewrite dec_Sub_law, dec_Floor_law).
  rewrite Erem, inject_Z_plus. split; lra.
Qed.

(** ** All beneficiaries *)

Lemma mint_all_ok (toAll toVals wAll wVals : Dec) bs (acc : mint_acc (Dec := Dec)) (B : Z) :
  (0 <= qval toAll)%Q -> (0 <= qval toVals)%Q -> (0 < qval wAll)%Q -> (0 < qval wVals)%Q ->
  Forall benef_ok bs -> (0 <= qval (ma_remainder acc))%Q -> 0 <= ma_sum acc -> B < 2 ^ 256 ->
  (inject_Z (ma_sum acc) + qval (ma_remainder acc)
    + Qsum (map (share (qval toAll) (qval toVals) (qval wAll) (qval wVals)) bs) <= inject_Z B)%Q ->
  exists acc' new, mint_all toAll toVals wAll wVals bs acc = Ok acc' /\
    ma_rewards acc' = ma_rewards acc ++ new /\ map mr_addr new = map bf_addr bs /\
    Forall (fun r => 0 <= mr_amt r) new /\
    ma_sum acc' = ma_sum acc + zsum (map mr_amt new) /\ ma_sum acc' <= B.
Proof.
  intros HA HV HW HWV Hbs. revert acc. induction Hbs as [|b bs Hb Hbs IH]; intros acc Hrem Hsum HB Hbud.
  - exists acc, []. cbn [map Qsum foldr zsum mint_all] in *. rewrite app_nil_r.
    split; [done|]. split; [done|]. split; [done|]. split; [constructor|].
    split; [cbn; lia|]. rewrite Zle_Qle. lra.
  - unfold Qsum in *. cbn [map foldr mint_all] in *.
    assert (0 <= foldr Qplus 0 (map (share (qval toAll) (qval toVals) (qval wAll) (qval wVals)) bs))%Q as Hs0.
    { clear IH Hbud. induction Hbs as [|b' bs Hb' Hbs IH]; cbn [map foldr]; [lra|].
      pose proof (share_nonneg (qval toAll) (qval toVals) (qval wAll) (qval wVals) b'
        HA HV HW HWV (proj1 (proj2 (proj2 Hb')))). lra. }
    destruct (mint_one_ok toAll toVals wAll wVals acc b B) as (rem & amt & -> & Ha & Hr & Hle); try done; [lra|].
    cbn [obind]. edestruct (IH (MkMintAcc rem (ma_sum acc + amt) (ma_rewards acc ++ [MkMintedReward (bf_addr b) amt])))
      as (acc' & new & -> & Hrw & Had & Hpos & Hsm & HleB); [done|cbn; lia|done|cbn; lra|].
    exists acc', (MkMintedReward (bf_addr b) amt :: new). cbn in *.
    rewrite Hrw, Had, <- app_assoc. split; [done|]. split; [done|]. split; [done|].
    split; [by constructor|]. split; [cbn; lia|done].
Qed.

(** The shares of the beneficiaries do not exceed the pots. *)
Lemma Qsum_shares (A V W WV : Q) bs :
  (0 < W)%Q -> (0 < WV)%Q ->
  (Qsum (map (share A V W WV) bs) ==
    A * Qsum (map (fun b => dval (bf_weight b)) bs) / W
    + V * Qsum (map (fun b => dval (bf_weight b)) (List.filter bf_isVal bs)) / WV)%Q.
Proof.
  intros HW HWV. induction bs as [|b bs IH]; cbn [map List.filter Qsum foldr]; [field; lra|].
  unfold Qsum in IH. rewrite IH. unfold share. destruct (bf_isVal b); cbn [map foldr]; field; lra.
Qed.

Lemma Qpart_le a s w : (0 <= a)%Q -> (s <= w)%Q -> (0 < w)%Q -> (a * s / w <= a)%Q.
Proof. intros Ha Hs Hw. apply Qle_shift_div_r; [done|]. nra. Qed.

(** ** The issuance *)

Lemma dec_FromInt_law n : (qval (dec_FromInt n) == inject_Z n)%Q.
Proof. unfold dec_FromInt. rewrite dec_New_law. unfold Qpow10. cbn. ring. Qed.

Lemma Sd_bounds height lastSupply smax lambda wa :
  is_ok (fx_ToDecimal (Dec := Dec) (fx_FromInt 1 : Fixed)) = true -> (0 <= dval (fx_FromInt 1))%Q ->
  is_ok (fx_ToDecimal (Dec := Dec) wa) = true -> (0 <= dval wa)%Q ->
  0 <= lambda -> 0 <= lastSupply <= smax -> smax < 2 ^ 256 ->
  exists d, Sd (Dec := Dec) (heightYears height 1) lastSupply smax lambda wa = Ok d /\
    (0 <= qval d <= inject_Z (smax - lastSupply))%Q.
Proof.
  intros H1 Hd1 Hw Hdw Hl Hs Hmax. unfold Sd, decimalSd, heightYears.
  destruct (dval_ok _ H1) as (d1 & -> & E1), (dval_ok _ Hw) as (dw & -> & Ew). cbn [obind].
  rewrite E1 in Hd1. rewrite Ew in Hdw. eexists. split; [done|].
  set (base := dec_Add (dec_New lambda (-3)) (dec_New 1 0)).
  assert (1 <= qval base)%Q as Hb.
  { unfold base. rewrite dec_Add_law, !dec_New_law. pose proof (Qpow10_pos (-3)).
    assert (0 <= inject_Z lambda * Qpow10 (-3))%Q.
    { apply Qmult_le_0_compat; [change 0%Q with (inject_Z 0); by rewrite <- Zle_Qle|lra]. }
    assert (inject_Z 1 * Qpow10 0 == 1)%Q as -> by reflexivity. lra. }
  assert (qval (dec_Neg (dec_Mul dw d1)) <= 0)%Q as He by (rewrite dec_Neg_law, dec_Mul_law; nra).
  pose proof (dec_Pow_law base _ Hb He) as Hp.
  rewrite dec_Mul_law, dec_FromBig_law, dec_Sub_law, dec_FromInt_law. unfold usub. rewrite u256_id by (unfold in_u256; lia).
  change (inject_Z 1) with 1%Q. apply Qmult_part; [|lra].
  change 0%Q with (inject_Z 0). rewrite <- Zle_Qle. lia.
Qed.

(** The issuance from weights the mint relies on. *)
Lemma mint_of_weights (gp : GovParamsProto) (height lastSupply : Z) (w : fxnumWeight Fixed) :
  is_ok (fx_ToDecimal (Dec := Dec) (fx_FromInt 1 : Fixed)) = true -> (0 <= dval (fx_FromInt 1))%Q ->
  weights_ok w -> 0 <= GovParams.ValidatorRewardRate gp <= 100 -> 0 <= GovParams.InflationWeightPermil gp ->
  0 <= lastSupply <= GovParams.MaxTotalSupply gp -> GovParams.MaxTotalSupply gp < 2 ^ 256 ->
  exists sum rewards,
    computeIssuanceAndReward (Dec := Dec) gp height lastSupply (Ok w) = Ok (Minted sum rewards) /\
    sum = zsum (map mr_amt rewards) /\ map mr_addr rewards = map bf_addr (beneficiaries w) /\
    Forall (fun r => 0 <= mr_amt r) rewards /\
    lastSupply + sum <= GovParams.MaxTotalSupply gp.
Proof.
  intros H1 Hd1 Hw Hrate Hlam Hs Hmax. unfold computeIssuanceAndReward.
  destruct (dec_Div_law (dec_FromInt (GovParams.ValidatorRewardRate gp)) (dec_FromInt 100)) as (rate & -> & Hr).
  { rewrite !dec_FromInt_law. change 0%Q with (inject_Z 0). rewrite <- !Zle_Qle. lia. }
  { rewrite dec_FromInt_law. reflexivity. }
  cbn [obind]. destruct Hw as [Hnum Hw0 Hsg Hsum Hvals Hsp Hvp].
  edestruct (Sd_bounds height lastSupply (GovParams.MaxTotalSupply gp) (GovParams.InflationWeightPermil gp)
    (sumWeight w)) as (added & -> & Ha); [done|done|apply Hnum; auto|lra|done|done|done|]. cbn [obind].
  destruct (Z.ltb_spec (dec_Sign added) 0) as [Hneg|_]; [apply dec_Sign_law in Hneg; lra|].
  destruct (dval_ok _ (Hnum _ (or_intror (or_introl eq_refl)))) as (wAll & -> & EA).
  destruct (dval_ok _ (Hnum _ (or_intror (or_intror eq_refl)))) as (wVals & -> & EV). cbn [obind].
  rewrite EA in *. rewrite EV in *.
  set (toVals := dec_Floor (dec_Mul added rate)). set (toAll := dec_Sub added toVals).
  assert (0 <= qval toVals <= qval added)%Q as HtV.
  { unfold toVals. rewrite dec_Floor_law, dec_Mul_law.
    pose proof (Qmult_part (qval added) (qval rate) (proj1 Ha) Hr) as Hm.
    pose proof (Qfloor_le (qval added * qval rate)). split; [|lra].
    change 0%Q with (inject_Z 0). rewrite <- Zle_Qle. apply (Qfloor_resp_le 0). lra. }
  assert (qval toAll == qval added - qval toVals)%Q as EtA by (unfold toAll; by rewrite dec_Sub_law).
  assert (0 <= qval toAll)%Q as HtA by lra.
  edestruct (mint_all_ok toAll toVals wAll wVals (beneficiaries w) (MkMintAcc dec_Zero 0 [])
    (GovParams.MaxTotalSupply gp - lastSupply)) as (acc & new & -> & Hrw & Had & Hpos & Hsm & HB);
    [lra|lra|done|done| |cbn; rewrite dec_Zero_law; lra|cbn; lia|lia| |].
  - apply Forall_forall. intros b Hb. split; [apply Hnum; eauto|]. split; [apply Hnum; eauto|]. auto.
  - cbn [ma_sum ma_remainder]. rewrite dec_Zero_law, Qsum_shares by done.
    pose proof (Qpart_le (qval toAll) _ _ HtA Hsum Hsp).
    pose proof (Qpart_le (qval toVals) _ _ (proj1 HtV) Hvals Hvp). change (inject_Z 0) with 0%Q. lra.
  - cbn in *. do 2 eexists. split; [done|]. rewrite Hrw, Hsm. cbn in *. split; [lia|].
    split; [done|]. split; [done|]. lia.
Qed.

(** ** The weights the mint relies on *)

Context `{!FixedNumLaws Fixed}.

Lemma dval_val f : fixed_IsNaN f = false -> is_ok (fx_ToDecimal (Dec := Dec) f) = true /\ (dval f == fxval f)%Q.
Proof.
  intros Hn. unfold dval, fx_ToDecimal, FixedToDecimalByInt. rewrite Hn.
  destruct (fixed_MarshalBinary_val f Hn) as (buf & -> & ->). split; [done|].
  unfold fixedScaleDigits. by rewrite dec_New_law.
Qed.

(** A number between zero and one. *)
Definition fraction (f : Fixed) : Prop := fixed_IsNaN f = false /\ (0 <= fxval f <= 1)%Q.

Lemma Qsum_nonneg fs : Forall fraction fs -> (0 <= Qsum (map fxval fs))%Q.
Proof. induction 1 as [|f fs Hf Hfs IH]; unfold Qsum in *; cbn; [lra|]. unfold fraction in Hf. lra. Qed.

Lemma fx_add_val fs x : Forall fraction fs -> fixed_IsNaN x = false -> (0 <= fxval x)%Q ->
  (fxval x + Qsum (map fxval fs) <= fixed_MAX)%Q ->
  fixed_IsNaN (fold_left fixed_Add fs x) = false /\
  (fxval (fold_left fixed_Add fs x) == fxval x + Qsum (map fxval fs))%Q.
Proof.
  intros Hfs. revert x. induction Hfs as [|f fs [Hn Hf] Hfs IH]; intros x Hx Hx0 Hmax; unfold Qsum in *; cbn in *.
  - split; [done|lra].
  - pose proof (Qsum_nonneg fs Hfs) as Hs. unfold Qsum in Hs.
    destruct (fixed_Add_val x f) as [Hn' Ha]; try done; try lra.
    destruct (IH (fixed_Add x f)) as [Hr1 Hr2]; try done; try lra. split; [done|]. lra.
Qed.

Lemma Qsum_length fs : Forall fraction fs -> (Qsum (map fxval fs) <= inject_Z (Z.of_nat (length fs)))%Q.
Proof.
  induction 1 as [|f fs [_ Hf] Hfs IH]; unfold Qsum in *; cbn [map foldr length]; [done|].
  rewrite Nat2Z.inj_succ, <- Z.add_1_l, inject_Z_plus. change (inject_Z 1) with 1%Q. lra.
Qed.

(** The sum of fewer than [10 ^ 11] fractions is exact. *)
Lemma fx_sum_val fs : Forall fraction fs -> Z.of_nat (length fs) < 10 ^ 11 ->
  fixed_IsNaN (fx_sum fs) = false /\ (fxval (fx_sum fs) == Qsum (map fxval fs))%Q.
Proof.
  intros Hfs Hlen. unfold fx_sum, fx_New. destruct (fixed_NewI_val 0) as [Hn Hz0]; [lia|].
  assert (Qsum (map fxval fs) <= inject_Z (10 ^ 11 - 1))%Q as Hle.
  { eapply Qle_trans; [by apply Qsum_length|]. rewrite <- Zle_Qle. lia. }
  assert (inject_Z (10 ^ 11 - 1) <= fixed_MAX)%Q as Hm by (vm_compute; discriminate).
  change (inject_Z 0) with 0%Q in Hz0.
  destruct (fx_add_val fs (fixed_NewI 0 0)) as [Hr1 Hr2]; try done; try lra. split; [done|]. lra.
Qed.

Lemma Qsum_dval (bs : list Benef) : Forall (fun b => fraction (bf_weight b)) bs ->
  (Qsum (map (fun b => dval (bf_weight b)) bs) == Qsum (map fxval (map bf_weight bs)))%Q.
Proof.
  induction 1 as [|b bs [Hn _] Hbs IH]; unfold Qsum in *; cbn [map foldr]; [done|].
  rewrite (proj2 (dval_val _ Hn)), IH. done.
Qed.

(** What [ComputeWeight] is expected to return: weights between zero and one,
    none lost to rounding below zero or to an overflow, and a validator with a
    weight. *)
Record plain_weights (w : fxnumWeight Fixed) : Prop := {
  pw_weight : Forall (fun b => fraction (bf_weight b)) (beneficiaries w);
  pw_count : Z.of_nat (length (beneficiaries w)) < 10 ^ 11;
  pw_vals : (0 < fxval (valsWeight w))%Q;
}.

Lemma Qsum_filter (bs : list Benef) : Forall (fun b => fraction (bf_weight b)) bs ->
  (Qsum (map fxval (map bf_weight (List.filter bf_isVal bs))) <= Qsum (map fxval (map bf_weight bs)))%Q.
Proof.
  induction 1 as [|b bs [_ Hb] Hbs IH]; unfold Qsum in *; cbn [map foldr List.filter]; [done|].
  destruct (bf_isVal b); cbn [map foldr]; lra.
Qed.

Lemma plain_weights_ok w :
  plain_weights w -> fx_sum (map bf_weight (beneficiaries w)) = sumWeight w ->
  fx_sum (map bf_weight (List.filter bf_isVal (beneficiaries w))) = valsWeight w ->
  rates_ok fraction w -> weights_ok w.
Proof.
  intros [Hw Hc Hv] Hsum Hvals Hr.
  assert (Forall (fun b => fraction (bf_weight b)) (List.filter bf_isVal (beneficiaries w))) as Hwv.
  { apply Forall_forall. intros b Hb. apply list_elem_of_In, List.filter_In in Hb as [Hb _].
    apply list_elem_of_In in Hb. revert b Hb. by apply Forall_forall. }
  destruct (fx_sum_val (map bf_weight (beneficiaries w))) as [Hn1 Hs1];
    [by apply Forall_map|by rewrite length_map|]. rewrite Hsum in Hn1, Hs1.
  destruct (fx_sum_val (map bf_weight (List.filter bf_isVal (beneficiaries w)))) as [Hn2 Hs2];
    [by apply Forall_map| |]. { rewrite length_map. pose proof (List.filter_length_le bf_isVal (beneficiaries w)). lia. }
  rewrite Hvals in Hn2, Hs2. pose proof (Qsum_filter _ Hw) as Hle.
  destruct (dval_val _ Hn1) as [Ho1 Hd1], (dval_val _ Hn2) as [Ho2 Hd2].
  unfold rates_ok in Hr. rewrite Forall_forall in Hw, Hr. split.
  - intros f [(b & Hb & [-> | ->])|[-> | ->]]; [apply dval_val, Hw, Hb|apply dval_val, (Hr b Hb)|done|done].
  - intros b Hb. destruct (Hw b Hb) as [Hn Hf]. rewrite (proj2 (dval_val _ Hn)). apply Hf.
  - intros b Hb. destruct (Hr b Hb) as [Hn Hf]. rewrite (proj2 (dval_val _ Hn)). apply Hf.
  - rewrite Qsum_dval by (by apply Forall_forall). lra.
  - rewrite Qsum_dval by done. lra.
  - lra.
  - lra.
Qed.

Lemma signing_rate_fraction cycle c : 0 <= c <= cycle -> 0 < cycle < 10 ^ 11 -> fraction (signing_rate cycle c).
Proof.
  intros Hc Hcy. unfold signing_rate, fx_FromInt, fx_New.
  destruct (fixed_NewI_val c) as [Hn1 Hv1]; [lia|]. destruct (fixed_NewI_val cycle) as [Hn2 Hv2]; [lia|].
  destruct (fixed_NewI_val 1) as [Hn3 Hv3]; [lia|]. change (inject_Z 1) with 1%Q in Hv3.
  assert (0 <= inject_Z c <= inject_Z cycle)%Q by (change 0%Q with (inject_Z 0); rewrite <- !Zle_Qle; lia).
  assert (0 < inject_Z cycle)%Q by (change 0%Q with (inject_Z 0); rewrite <- Zlt_Qlt; lia).
  destruct (fixed_Div_unit (fixed_NewI c 0) (fixed_NewI cycle 0)) as [Hn4 Hv4]; try done; [lra|lra|].
  destruct (fixed_Sub_val (fixed_NewI 1 0) (fixed_Div (fixed_NewI c 0) (fixed_NewI cycle 0))) as [Hn5 Hv5];
    try done; [lra|lra|]. split; [done|]. lra.
Qed.

End MintProps.

Section Mint.
Context {T I : Type} `{Iavl T I} `{VPowerProtos, CryptoLib}.
Context {Dec Fixed : Type} `{DecimalLib Dec, !DecimalLaws Dec, FixedLib Fixed, !FixedLaws Fixed, !FixedNumLaws Fixed}.


End Mint.

(** ** Witnesses *)

Module MintWitness.
Import VPowerProps.VPowerWitness Weights.WeightWitness.

#[local] Existing Instances w_crypto w_protos.
#[local] Instance w_dec : DecimalLib Q := Q_decimal.
#[local] Instance w_dec_laws : DecimalLaws Q := Q_decimal_laws.
#[local] Instance w_fixed : FixedLib Z := Z_fixed.
#[local] Instance w_fixed_laws : FixedLaws Z := Z_fixed_laws.
#[local] Instance w_fixed_num_laws : FixedNumLaws Z := Z_fixed_num_laws.

(** A validator with a weight of 0.4 that signed every block and a delegator
    with a weight of 0.2 whose validator signed nine blocks of ten. *)
Definition weight2 : fxnumWeight Z :=
  MkWeight 6000000 4000000
    [NewBeneficiary (repeat 1 20) 4000000 10000000 true;
     NewBeneficiary (repeat 2 20) 2000000 9000000 false].

Definition coins (n : Z) : Z := n * 10 ^ 18.

(** The weights of the genesis validators after their first block. *)
Definition weight_at (supply : Z) : outcome (fxnumWeight Z) :=
  fst (ComputeWeight 2 (GovParams.InflationCycleBlocks GovParams.DefaultGovParams)
         (GovParams.RipeningBlocks GovParams.DefaultGovParams)
         (GovParams.BondingBlocksWeightPermil GovParams.DefaultGovParams) supply committed).

Definition fractionb (f : Z) : bool := (0 <=? f) && (f <=? 10 ^ 7).

Lemma fractionb_ok f : fractionb f = true -> fraction (Fixed := Z) f.
Proof.
  intros Hf. apply andb_prop in Hf as [H1 H2]. apply Z.leb_le in H1, H2.
  split; [cbn [fixed_IsNaN w_fixed Z_fixed]; apply Z.leb_gt; lia|].
  unfold Qle. cbn [fxval w_fixed_num_laws Z_fixed_num_laws Qnum Qden]. lia.
Qed.

Lemma plain_weights_b (w : fxnumWeight Z) :
  forallb (fun b => fractionb (bf_weight b)) (beneficiaries w) = true ->
  Z.of_nat (length (beneficiaries w)) < 10 ^ 11 -> 0 < valsWeight w -> plain_weights (Fixed := Z) w.
Proof.
  intros Hw Hl Hv. split; [|done|].
  - apply Is_true_true, forallb_True in Hw. eapply Forall_impl; [exact Hw|]. intros b Hb.
    by apply fractionb_ok, Is_true_true.
  - unfold Qlt. cbn [fxval w_fixed_num_laws Z_fixed_num_laws Qnum Qden]. lia.
Qed.

Lemma missed_b ml cycle ds :
  forallb (fun d => match missed_at ml (d_addr d) with Ok c => (0 <=? c) && (c <=? cycle) | _ => true end) ds = true ->
  forall d c, d ∈ ds -> missed_at (I := gmap bytes bytes) ml (d_addr d) = Ok c -> 0 <= c <= cycle.
Proof.
  intros Hb d c Hd Hc. apply Is_true_true, forallb_True in Hb. rewrite Forall_forall in Hb.
  specialize (Hb d Hd). rewrite Hc in Hb. apply Is_true_true, andb_prop in Hb as [H1 H2].
  apply Z.leb_le in H1, H2. lia.
Qed.


(** The option of a proposal that only sets the maximum total supply. *)
Definition only_max (smax : Z) : GovParamsRead :=
  MkGovParams 0 0 0 0 0 0 0 0 0 0 0 0 0 (Some (uBytes smax)) 0 0 0 0 None None 0 0 0 None 0 0 0 0 0 0.

(** When the maximum total supply is lowered below the present supply, the
    difference wraps around on 256 bits and the next cycle mints from it: the
    issuance exceeds the maximum instead of stopping. *)
Theorem lowered_max_overmints :
  let gp := GovParams.MergeGovParams GovParams.DefaultGovParams
              (only_max (coins 300000000)) in
  exists sum rewards,
    GovParams.MaxTotalSupply gp = coins 300000000 /\
    computeIssuanceAndReward (Dec := Q) gp 1000 (coins 350000000) (Ok weight2) = Ok (Minted sum rewards) /\
    10 ^ 30 * GovParams.MaxTotalSupply gp < sum.
Proof.
  eexists _, _. split; [vm_compute; reflexivity|]. split; [vm_compute; reflexivity|]. vm_compute. reflexivity.
Qed.

End MintWitness.
