(* ===== verification/SupplyProps.v ===== *)
(** * SupplyProps: minted supply becomes rewards, rewards become balance

    At the end of a cycle the minted sum is added to the total supply and, part
    by part, to the cumulated rewards; a withdrawal moves an amount from the
    cumulated reward of the sender to its balance.  Neither creates or loses
    anything on the way. *)
From stdpp Require Import base gmap list strings.
From Stdlib Require Import ZArith Lia.
From S2P Require Import Prelude XErrors GoMonad LedgerKeys Iavl Ledger LedgerSpec LedgerOps Units Proto.
From S2P Require Import GovParams Account TrxTypes AcctCtrler AcctSpec AcctProps VPowerCtrler VPowerTrx Numbers Weights SupplyCtrler.

Abbreviation smap := (gmap bytes SupplyItem).

(** The reward of an address, a new one when none is stored. *)
Definition reward_at (m : smap) (a : Address) : Reward :=
  match m !! LedgerKeyReward a with
  | Some (IReward r) => r
  | _ => NewReward a
  end.

Definition cum (m : smap) (a : Address) : Z := rw_cumulated (reward_at m a).

(** The sum of all cumulated rewards. *)
Definition cumulated (m : smap) : Z :=
  msum (fun _ x => match x with IReward r => rw_cumulated r | ISupply _ => 0 end) m.

Definition put_reward (m : smap) (r : Reward) : smap := <[LedgerKeyReward (rw_Address r) := IReward r]> m.

(** What a list of rewards gives an address. *)
Definition paid (rewards : list mintedReward) (a : Address) : Z :=
  zsum (map mr_amt (filter (fun r => mr_addr r = a) rewards)).

(** No reward is of a later block. *)
Definition heights_le (m : smap) (h : Z) : Prop := forall a, rw_Height (reward_at m a) <= h.

Lemma LedgerKeyReward_inj a b : LedgerKeyReward a = LedgerKeyReward b -> a = b.
Proof. intros E. by injection E. Qed.

Lemma LedgerKeyReward_supply a : LedgerKeyReward a <> LedgerKeyTotalSupply.
Proof. done. Qed.

Lemma reward_at_put m r a :
  reward_at (put_reward m r) a = if decide (a = rw_Address r) then r else reward_at m a.
Proof.
  unfold reward_at, put_reward. destruct (decide (a = rw_Address r)) as [->|Hne].
  - by rewrite lookup_insert_eq.
  - rewrite lookup_insert_ne; [done|]. intros E. by apply LedgerKeyReward_inj in E.
Qed.

(** ** Sums of rewards *)

Definition smap_ok (m : smap) : Prop := forall k x, m !! k = Some x -> sitem_ok k x.

Definition cum_item (k : bytes) (x : SupplyItem) : Z := match x with IReward r => rw_cumulated r | ISupply _ => 0 end.

Lemma cum_at_key m a : at_key cum_item m (LedgerKeyReward a) = cum m a.
Proof. unfold at_key, cum, reward_at. by destruct (m !! LedgerKeyReward a) as [[]|]. Qed.

Lemma cumulated_put m r : cumulated (put_reward m r) = cumulated m - cum m (rw_Address r) + rw_cumulated r.
Proof.
  unfold cumulated, put_reward. rewrite (msum_insert cum_item m). by rewrite cum_at_key.
Qed.

Lemma cum_item_nonneg m k x : smap_ok m -> m !! k = Some x -> 0 <= cum_item k x.
Proof.
  intros Hm Hx. specialize (Hm k x Hx). destruct x as [sp|r]; cbn in *; [lia|].
  destruct Hm as (_ & _ & _ & _ & _ & Hc). unfold in_u256 in Hc. lia.
Qed.

Lemma cum_nonneg m a : smap_ok m -> 0 <= cum m a.
Proof.
  intros Hm. rewrite <- cum_at_key. unfold at_key. destruct (m !! LedgerKeyReward a) as [x|] eqn:E; [|lia].
  by eapply cum_item_nonneg.
Qed.

Lemma cum_le m a : smap_ok m -> cum m a <= cumulated m.
Proof.
  intros Hm. rewrite <- cum_at_key. unfold at_key, cumulated.
  change (fun _ x => _) with cum_item. destruct (m !! LedgerKeyReward a) as [x|] eqn:E.
  - rewrite (msum_lookup_delete _ m _ x E).
    enough (0 <= msum cum_item (delete (LedgerKeyReward a) m)) by lia.
    apply msum_nonneg. intros k v Hv. apply lookup_delete_Some in Hv as [_ Hv]. by eapply cum_item_nonneg.
  - apply msum_nonneg. intros k v. by apply cum_item_nonneg.
Qed.

Lemma smap_ok_put m r : smap_ok m -> reward_ok r -> smap_ok (put_reward m r).
Proof.
  intros Hm Hr k x Hx. unfold put_reward in Hx. apply lookup_insert_Some in Hx as [[<- <-]|[_ Hx]]; [done|auto].
Qed.

Lemma cum_put m r a : cum (put_reward m r) a = if decide (a = rw_Address r) then rw_cumulated r else cum m a.
Proof. unfold cum. rewrite reward_at_put. by destruct (decide _). Qed.

(** The total supply is no reward. *)
Lemma cumulated_set_supply m x :
  smap_ok m -> cumulated (<[LedgerKeyTotalSupply := ISupply x]> m) = cumulated m.
Proof.
  intros Hm. unfold cumulated. change (fun _ x => _) with cum_item. rewrite (msum_insert cum_item m).
  enough (at_key cum_item m LedgerKeyTotalSupply = 0) by (cbn [cum_item]; lia). unfold at_key.
  destruct (m !! LedgerKeyTotalSupply) as [[|r]|] eqn:E; [done| |done].
  specialize (Hm _ _ E). cbn in Hm. destruct Hm as [Hk _]. by destruct (LedgerKeyReward_supply (rw_Address r)).
Qed.

Lemma amounts_fit m rewards :
  smap_ok m -> Forall (fun r => 0 <= mr_amt r) rewards ->
  cumulated m + zsum (map mr_amt rewards) < 2 ^ 256 -> Forall (fun r => in_u256 (mr_amt r)) rewards.
Proof.
  intros Hm Hr Hcu. apply Forall_forall. intros r Hin.
  pose proof (proj1 (Forall_forall _ _) Hr r Hin) as Hr0. cbn in Hr0.
  pose proof (zsum_elem_le (map mr_amt rewards) (mr_amt r) ltac:(by apply Forall_map) ltac:(by apply list_elem_of_fmap_2)).
  pose proof (cum_le m (mr_addr r) Hm). pose proof (cum_nonneg m (mr_addr r) Hm). unfold in_u256. lia.
Qed.

Section SupplyRules.
Context {T I : Type} `{Iavl T I, !IavlLaws T I} `{SupplyProtos, !SupplyProtosLaws}.
Implicit Types (s : SupplyCtrler T I) (m : smap) (D : gset bytes).

Abbreviation scoh D s m := (coh D (supplyState s) m).
Abbreviation sheld s k l x := (held (supplyState s) k l x).

(** What the ledger operations leave alone. *)
Definition sframes s s' (e : option loc) : Prop :=
  frames (supplyState s) (supplyState s') e /\ lastTotalSupply s' = lastTotalSupply s /\ respCh s' = respCh s.

Lemma sframes_trans s1 s2 s3 e : sframes s1 s2 e -> sframes s2 s3 e -> sframes s1 s3 e.
Proof. intros (F1 & E1 & R1) (F2 & E2 & R2). split; [eauto using frames_trans|split; congruence]. Qed.

Lemma sframes_weaken s s' e : sframes s s' None -> sframes s s' e.
Proof. intros (F & E). split; [by apply frames_weaken|done]. Qed.

Lemma coh_sitem D s m k x : scoh D s m -> m !! k = Some x -> sitem_ok k x.
Proof.
  intros HC Hk. destruct (represents_lookup _ _ _ _ (coh_tree _ _ _ HC) Hk) as (b & _ & [Hok _]). exact Hok.
Qed.

(** Under the key of a reward there is a reward of the address. *)
Lemma typed_reward D s m a x :
  scoh D s m -> m !! LedgerKeyReward a = Some x ->
  x = IReward (reward_at m a) /\ rw_Address (reward_at m a) = a /\ reward_ok (reward_at m a).
Proof.
  intros HC Hx. pose proof (coh_sitem D s m _ x HC Hx) as Hok. unfold reward_at. rewrite Hx.
  destruct x as [sp|r]; cbn in Hok.
  - destruct Hok as [E _]. by destruct (LedgerKeyReward_supply a).
  - destruct Hok as [E Hok]. apply LedgerKeyReward_inj in E. auto.
Qed.

Lemma reward_at_ok D s m a : scoh D s m -> reward_ok (reward_at m a) /\ rw_Address (reward_at m a) = a.
Proof.
  intros HC. destruct (m !! LedgerKeyReward a) as [x|] eqn:Hx.
  - destruct (typed_reward D s m a x HC Hx) as (_ & ? & ?). auto.
  - unfold reward_at. rewrite Hx. split; [|done]. unfold reward_ok, in_i64, in_u256. cbn. lia.
Qed.

Lemma s_deref_rule s k l x Q : sheld s k l x -> Q (Ok x) s -> wp (s_deref l) Q s.
Proof. intros Hl HQ. apply wp_zoom; cbn. apply (held_deref_rule _ k l x); [done|]. by destruct s. Qed.

Lemma get_reward_rule s k l r Q : sheld s k l (IReward r) -> Q (Ok r) s -> wp (get_reward l) Q s.
Proof. intros Hl HQ. by apply wp_bind, (s_deref_rule s k l _ _ Hl), wp_ret. Qed.

Lemma get_supply_rule s k l x Q : sheld s k l (ISupply x) -> Q (Ok x) s -> wp (get_supply l) Q s.
Proof. intros Hl HQ. by apply wp_bind, (s_deref_rule s k l _ _ Hl), wp_ret. Qed.

(** Changing the held object and storing it. *)
Lemma s_put_set_rule D s m l k y x Q :
  scoh D s m -> k <> [] -> k ∉ D -> sheld s k l y -> sitem_ok k x ->
  (forall s', scoh D s' (<[k := x]> m) -> sheld s' k l x -> sframes s s' (Some l) -> Q (Ok tt) s') ->
  wp (s_assign l x ;;; sup_Set k l true) Q s.
Proof.
  intros HC Hk HD Hl Hok HQ. apply wp_bind, wp_zoom; cbn. apply (held_assign_rule D _ m l k y); [done..|].
  intros ls HC' Hl' Hf Hled. apply wp_zoom; cbn. apply (held_set_rule (D ∪ {[k]}) _ m k l x); try done.
  intros ls' HC'' Hl'' Hf'. apply HQ; cbn; [|done|].
  - replace D with ((D ∪ {[k]}) ∖ {[k]}) by set_solver. done.
  - split; [|done]. eapply frames_trans; eauto.
Qed.

(** ** Distributing rewards *)

(** The object of a reward, stored or new. *)
Lemma wp_find_reward D s m a Q :
  scoh D s m -> LedgerKeyReward a ∉ D ->
  (forall l s', scoh D s' m -> sheld s' (LedgerKeyReward a) l (IReward (reward_at m a)) ->
    sframes s s' None -> Q (Ok l) s') ->
  wp (let! r := try (sup_Get (LedgerKeyReward a) true) in
      match r with
      | inl l =>
          let! x := s_deref l in
          match x with
          | IReward _ => ret l
          | _ => s_alloc (IReward (NewReward a))
          end
      | inr e => if Contains e ErrNotFoundResult then s_alloc (IReward (NewReward a)) else throw e
      end) Q s.
Proof.
  intros HC HD HQ. apply wp_bind, wp_try, wp_zoom; cbn [lget lset sup_lens].
  destruct (m !! LedgerKeyReward a) as [x|] eqn:Hx.
  - destruct (typed_reward D s m a x HC Hx) as (-> & _). apply (held_get_rule D _ m (LedgerKeyReward a) (IReward (reward_at m a))); try done.
    intros l ls HC' Hl Hf _ _. apply wp_bind, (s_deref_rule _ (LedgerKeyReward a) l (IReward (reward_at m a))); [done|].
    apply wp_ret. by apply HQ.
  - apply (wp_Get_none D _ m (LedgerKeyReward a)); try done. rewrite Contains_hit by reflexivity.
    apply wp_zoom; cbn. apply (held_alloc_rule D _ m); [by destruct s|].
    intros l ls HC' Hl _ Hf _ _. unfold reward_at in HQ. rewrite Hx in HQ. apply HQ; cbn; [done|done|].
    split; [by destruct s|done].
Qed.

(** The map after one reward. *)
Definition issue_map m (h : Z) (nrwd : mintedReward) : smap :=
  match Issue (reward_at m (mr_addr nrwd)) (mr_amt nrwd) h with
  | Ok r => put_reward m r
  | _ => m
  end.

Lemma Issue_ok r amt h :
  rw_Height r <= h -> in_i64 h -> reward_ok r -> in_u256 amt ->
  exists r', Issue r amt h = Ok r' /\ reward_ok r' /\ rw_Address r' = rw_Address r /\
    rw_Height r' = h /\ rw_cumulated r' = uadd (rw_cumulated r) amt.
Proof.
  intros Hh Hi (? & ? & ? & ? & ?) Ha. unfold Issue.
  assert (in_u256 0) by (unfold in_u256; lia).
  assert (forall a b, in_u256 (uadd a b)) by (intros; apply u256_range).
  destruct (Z.ltb_spec (rw_Height r) h) as [Hlt|Hge].
  - eexists. split; [done|]. unfold reward_ok; cbn. auto 10.
  - destruct (Z.eqb_spec (rw_Height r) h) as [E|]; [|lia].
    eexists. split; [done|]. unfold reward_ok; cbn. auto 10.
Qed.

Lemma wp_distReward D s m rewards h l0 x0 Q :
  scoh D s m -> (forall a, LedgerKeyReward a ∉ D) -> in_i64 h -> heights_le m h ->
  Forall (fun r => in_u256 (mr_amt r)) rewards -> sheld s LedgerKeyTotalSupply l0 (ISupply x0) ->
  (forall s', scoh D s' (foldl (fun m r => issue_map m h r) m rewards) ->
    sheld s' LedgerKeyTotalSupply l0 (ISupply x0) ->
    lastTotalSupply s' = lastTotalSupply s -> respCh s' = respCh s -> Q (Ok tt) s') ->
  wp (distRewardToState rewards h) Q s.
Proof.
  intros HC HD Hi Hh Hr. revert s m HC Hh Q. induction Hr as [|r rewards Hr Hrs IH]; intros s m HC Hh Q Hl0 HQ.
  - apply wp_ret. by apply HQ.
  - cbn [distRewardToState for_each]. apply wp_bind, wp_bind_assoc, wp_bind.
    apply (wp_find_reward D s m (mr_addr r)); [done|done|]. intros l s1 HC1 Hl (F1 & E1 & R1).
    apply wp_bind, (get_reward_rule _ _ _ _ _ Hl), wp_bind, wp_lift.
    destruct (reward_at_ok D s m (mr_addr r) HC) as [Hok Ha].
    destruct (Issue_ok (reward_at m (mr_addr r)) (mr_amt r) h) as (r' & Er & Hok' & Ha' & Hh' & _); try done.
    rewrite Er. apply (s_put_set_rule D s1 m l _ (IReward (reward_at m (mr_addr r)))); try done.
    { cbn. split; [|done]. by rewrite Ha', Ha. }
    intros s2 HC2 _ (F2 & E2 & R2).
    assert (sheld s2 LedgerKeyTotalSupply l0 (ISupply x0)) as Hl2.
    { apply F2; [|by apply F1]. intros [= ->]. destruct Hl as [Hl _], (proj1 F1 _ _ _ ltac:(done) Hl0) as [Hl' _].
      congruence. }
    assert (issue_map m h r = <[LedgerKeyReward (mr_addr r) := IReward r']> m) as Em.
    { unfold issue_map, put_reward. by rewrite Er, Ha', Ha. }
    apply (IH s2 (issue_map m h r)); [by rewrite Em| |done|].
    + intros a. unfold issue_map. rewrite Er, reward_at_put. destruct (decide _); [lia|apply Hh].
    + intros s3 HC3 Hl3 E3 R3. apply HQ; try done; congruence.
Qed.

Lemma smap_ok_reward m a : smap_ok m -> reward_ok (reward_at m a) /\ rw_Address (reward_at m a) = a.
Proof.
  intros Hm. unfold reward_at. destruct (m !! LedgerKeyReward a) as [x|] eqn:E.
  - specialize (Hm _ _ E). destruct x as [sp|r]; cbn in Hm.
    + destruct Hm as [Hk _]. by destruct (LedgerKeyReward_supply a).
    + destruct Hm as [Hk Hr]. apply LedgerKeyReward_inj in Hk. auto.
  - split; [|done]. unfold reward_ok, in_i64, in_u256; cbn. lia.
Qed.

Lemma issue_all m h rewards :
  smap_ok m -> heights_le m h -> in_i64 h -> Forall (fun r => 0 <= mr_amt r) rewards ->
  cumulated m + zsum (map mr_amt rewards) < 2 ^ 256 ->
  let m' := foldl (fun m r => issue_map m h r) m rewards in
  smap_ok m' /\ cumulated m' = cumulated m + zsum (map mr_amt rewards) /\
  (forall a, cum m' a = cum m a + paid rewards a) /\
  m' !! LedgerKeyTotalSupply = m !! LedgerKeyTotalSupply /\ heights_le m' h.
Proof.
  intros Hm Hh Hi Hr. revert m Hm Hh. induction Hr as [|r rewards Hr Hrs IH]; intros m Hm Hh Hsum; cbn [foldl map zsum foldr] in *.
  - split; [done|]. split; [cbn; lia|]. split; [intros a; cbn; lia|done].
  - assert (0 <= zsum (map mr_amt rewards)) as Hz.
    { apply zsum_nonneg. apply Forall_map. by apply Hrs. }
    pose proof (cum_le m (mr_addr r) Hm) as Hle. pose proof (cum_nonneg m (mr_addr r) Hm) as Hge.
    destruct (smap_ok_reward m (mr_addr r) Hm) as [Hok Ha].
    destruct (Issue_ok (reward_at m (mr_addr r)) (mr_amt r) h) as (r' & Er & Hok' & Ha' & Hh' & Hc);
      [apply Hh|done|done|unfold in_u256; lia|].
    fold (cum m (mr_addr r)) in Hc. unfold uadd in Hc. rewrite u256_id in Hc by (unfold in_u256; lia).
    assert (issue_map m h r = put_reward m r') as -> by (unfold issue_map; by rewrite Er).
    destruct (IH (put_reward m r')) as (Hm' & Hcu & Hpa & Hts & Hhs).
    + by apply smap_ok_put.
    + intros a. rewrite reward_at_put. destruct (decide _); [lia|apply Hh].
    + rewrite cumulated_put, Ha', Ha. lia.
    + rewrite Hts. split; [done|]. split; [rewrite Hcu, cumulated_put, Ha', Ha; lia|]. split; [|split; [|done]].
      * intros a. rewrite Hpa, cum_put, Ha', Ha. unfold paid. rewrite filter_cons.
        destruct (decide (a = mr_addr r)) as [->|Hne].
        -- rewrite decide_True by done. cbn [map zsum foldr]. fold (zsum (map mr_amt (filter (fun r0 => mr_addr r0 = mr_addr r) rewards))). lia.
        -- rewrite decide_False by congruence. lia.
      * unfold put_reward. by rewrite lookup_insert_ne.
Qed.

(** A reward that is issued [amt] at the height [h]: a record of an earlier height is
    started anew, and what is cumulated goes on. *)
Definition issued_to (r : Reward) (amt h : Z) : Reward :=
  let fresh := rw_Height r <? h in
  MkReward (rw_Address r) h (u256 ((if fresh then 0 else rw_issued r) + amt)) (if fresh then 0 else rw_withdrawn r)
    (if fresh then 0 else rw_slashed r) (u256 (rw_cumulated r + amt)).

Lemma Issue_issued r amt h : rw_Height r <= h -> in_u256 amt -> Issue r amt h = Ok (issued_to r amt h).
Proof.
  intros Hh Ha. unfold Issue, issued_to. destruct (Z.ltb_spec (rw_Height r) h) as [Hlt|Hge].
  - by rewrite Z.add_0_l, (u256_id amt).
  - destruct (Z.eqb_spec (rw_Height r) h) as [->|]; [done|lia].
Qed.

Lemma issued_to_twice r a b h : issued_to (issued_to r a h) b h = issued_to r (a + b) h.
Proof.
  unfold issued_to. cbn [rw_Height rw_Address rw_issued rw_withdrawn rw_slashed rw_cumulated]. rewrite Z.ltb_irrefl.
  f_equal; unfold u256; rewrite Zplus_mod_idemp_l; f_equal; lia.
Qed.

Lemma paid_none rewards a : a ∉ map mr_addr rewards -> paid rewards a = 0.
Proof.
  induction rewards as [|r rewards IH]; intros Ha; [done|]. cbn [map] in Ha. apply not_elem_of_cons in Ha as [Hne Ha].
  unfold paid. rewrite filter_cons, decide_False by congruence. by apply IH.
Qed.

(** The records of the paid addresses, and nothing else, change. *)
Lemma issue_records h rewards : forall m,
  smap_ok m -> heights_le m h -> in_i64 h -> Forall (fun r => in_u256 (mr_amt r)) rewards ->
  let m' := foldl (fun m r => issue_map m h r) m rewards in
  (forall a, a ∈ map mr_addr rewards ->
     m' !! LedgerKeyReward a = Some (IReward (issued_to (reward_at m a) (paid rewards a) h))) /\
  (forall k, (forall a, a ∈ map mr_addr rewards -> k <> LedgerKeyReward a) -> m' !! k = m !! k).
Proof.
  induction rewards as [|r rewards IH]; intros m Hm Hh Hi Hr; cbn [foldl map].
  { split; [intros a Ha; by apply elem_of_nil in Ha|done]. }
  apply Forall_cons in Hr as [Hr Hrs]. destruct (smap_ok_reward m (mr_addr r) Hm) as [Hok Ha].
  destruct (Issue_ok (reward_at m (mr_addr r)) (mr_amt r) h) as (r' & Er & Hok' & Ha' & Hh' & _); [apply Hh|done|done|done|].
  assert (r' = issued_to (reward_at m (mr_addr r)) (mr_amt r) h) as Hr' by (rewrite Issue_issued in Er; [congruence|apply Hh|done]).
  assert (issue_map m h r = put_reward m r') as -> by (unfold issue_map; by rewrite Er).
  destruct (IH (put_reward m r')) as [IH1 IH2]; [by apply smap_ok_put| |done|done|].
  { intros a. rewrite reward_at_put. destruct (decide _); [lia|apply Hh]. }
  assert (put_reward m r' !! LedgerKeyReward (mr_addr r) = Some (IReward r')) as Hput
    by (unfold put_reward; rewrite Ha', Ha; apply lookup_insert_eq).
  split.
  - intros a Hin. unfold paid. rewrite filter_cons. destruct (decide (mr_addr r = a)) as [<-|Hne]; cbn [map zsum foldr].
    + fold (zsum (map mr_amt (filter (fun r0 => mr_addr r0 = mr_addr r) rewards))). fold (paid rewards (mr_addr r)).
      rewrite <- issued_to_twice, <- Hr'. destruct (decide (mr_addr r ∈ map mr_addr rewards)) as [Hin'|Hnin].
      * rewrite (IH1 _ Hin'). do 2 f_equal. rewrite reward_at_put, Ha', Ha, decide_True by done. done.
      * rewrite IH2, Hput by (intros a Ha1 E; apply LedgerKeyReward_inj in E; by subst).
        assert (paid rewards (mr_addr r) = 0) as -> by (by apply paid_none).
        do 2 f_equal. subst r'. by rewrite issued_to_twice, Z.add_0_r.
    + assert (a ∈ map mr_addr rewards) as Hin' by (apply elem_of_cons in Hin as [->|]; done).
      fold (paid rewards a). rewrite (IH1 _ Hin'). do 2 f_equal. rewrite reward_at_put, Ha', Ha, decide_False by congruence. done.
  - intros k Hk. rewrite IH2 by (intros a Ha1; apply Hk; by right). unfold put_reward. rewrite Ha', Ha, lookup_insert_ne; [done|].
    intros E. apply (Hk (mr_addr r)); [by left|done].
Qed.

(** ** The total supply *)

Lemma wp_on_supply D s m f x Q :
  scoh D s m -> sheld s LedgerKeyTotalSupply (lastTotalSupply s) (ISupply x) ->
  (forall s', scoh (D ∪ {[LedgerKeyTotalSupply]}) s' m ->
    sheld s' LedgerKeyTotalSupply (lastTotalSupply s') (ISupply (f x)) ->
    lastTotalSupply s' = lastTotalSupply s -> respCh s' = respCh s -> Q (Ok tt) s') ->
  wp (on_supply f) Q s.
Proof.
  intros HC Hl HQ. apply wp_bind, wp_gets, wp_bind, (get_supply_rule _ _ _ _ _ Hl), wp_zoom; cbn.
  apply (held_assign_rule D _ m _ _ _ _ _ HC Hl). intros ls HC' Hl' Hf _. by apply HQ.
Qed.

(** Storing the changed supply and clearing its flag. *)
Lemma wp_store_supply D s m x Q :
  scoh D s m -> D ⊆ {[LedgerKeyTotalSupply]} ->
  sheld s LedgerKeyTotalSupply (lastTotalSupply s) (ISupply x) -> supply_ok (ResetChanged x) ->
  (forall s', scoh ∅ s' (<[LedgerKeyTotalSupply := ISupply (ResetChanged x)]> m) ->
    sheld s' LedgerKeyTotalSupply (lastTotalSupply s') (ISupply (ResetChanged x)) ->
    respCh s' = respCh s -> Q (Ok tt) s') ->
  wp (sup_Set LedgerKeyTotalSupply (lastTotalSupply s) true ;;; on_supply ResetChanged) Q s.
Proof.
  intros HC HD [Hl Ho] Hok HQ. set (k := LedgerKeyTotalSupply).
  destruct (item_encode k (ISupply (ResetChanged x))) as (b & He & _); [by split|].
  apply wp_bind, wp_zoom; cbn [lget sup_lens].
  apply (wp_Set_as D {[k]} _ m k _ (ISupply x) (ISupply (ResetChanged x)) b); try done;
    [set_solver|left; set_solver|].
  intros ls HC1 Hst Hca _ _ _. unfold on_supply. apply wp_bind, wp_gets, wp_bind; cbn [lset sup_lens lastTotalSupply].
  assert (held ls k (lastTotalSupply s) (ISupply x)) as Hl1.
  { split; [unfold heap; by rewrite Hst|]. apply (owner_cached_insert (supplyState s) ls k (lastTotalSupply s)); auto. }
  eapply (get_supply_rule _ k); [exact Hl1|]. apply wp_zoom; cbn [lget lset sup_lens].
  apply (held_clean_rule {[k]} ls (<[k := ISupply (ResetChanged x)]> m) _ k (ISupply x)); [done|done| | |].
  - by rewrite Hca, lookup_insert_eq.
  - by rewrite lookup_insert_eq.
  - intros ls' HC2 Hl2 _ _. by apply HQ.
Qed.

(** C37. At the end of an inflation cycle the minted sum becomes reward and
    supply.  The record of each rewarded address gets what it is paid: added to the
    cumulated amount and to the amount issued at this height, which with the
    withdrawn and slashed amounts starts at zero when the record is of an earlier
    height.  The total supply grows by exactly the sum of the rewards, at this
    height, its adjusted amount and height stay, and it is stored.  Every other item
    of the ledger is as before. *)
Theorem EndBlock_issues gp height s m x sum rewards ch :
  scoh ∅ s m -> sheld s LedgerKeyTotalSupply (lastTotalSupply s) (ISupply x) ->
  at_cycle_end height (GovParams.InflationCycleBlocks gp) = Ok true -> in_i64 height -> heights_le m height ->
  respCh s = Minted sum rewards :: ch ->
  Forall (fun r => 0 <= mr_amt r) rewards -> sum = zsum (map mr_amt rewards) ->
  cumulated m + sum < 2 ^ 256 -> 0 <= sp_totalSupply x -> sp_totalSupply x + sum < 2 ^ 256 ->
  in_i64 (sp_AdjustHeight x) -> in_u256 (sp_adjustSupply x) ->
  let x' := MkSupply height (sp_AdjustHeight x) (sp_totalSupply x + sum) (sp_adjustSupply x) false in
  wp (supply_EndBlock gp height) (okQ (fun _ s' => exists m',
    scoh ∅ s' m' /\ cumulated m' = cumulated m + sum /\
    (forall a, cum m' a = cum m a + paid rewards a) /\ heights_le m' height /\ respCh s' = ch /\
    (forall a, a ∈ map mr_addr rewards ->
       m' !! LedgerKeyReward a = Some (IReward (issued_to (reward_at m a) (paid rewards a) height))) /\
    m' !! LedgerKeyTotalSupply = Some (ISupply x') /\ sheld s' LedgerKeyTotalSupply (lastTotalSupply s') (ISupply x') /\
    (forall k, k <> LedgerKeyTotalSupply -> (forall a, a ∈ map mr_addr rewards -> k <> LedgerKeyReward a) -> m' !! k = m !! k))) s.
Proof.
  intros HC Hl Hcy Hi Hh Hch Hr -> Hcu Hx0 Hx Hah Has x'. unfold supply_EndBlock. apply wp_bind, wp_lift. rewrite Hcy.
  assert (smap_ok m) as Hm by (intros k y; apply (coh_sitem ∅ s m k y HC)).
  assert (0 <= zsum (map mr_amt rewards)) as Hz by (apply zsum_nonneg; by apply Forall_map).
  pose proof (amounts_fit m rewards Hm Hr Hcu) as Hfit.
  destruct (issue_all m height rewards) as (Hm' & Hcu' & Hpaid & Hts & Hh'); try done.
  destruct (issue_records height rewards m Hm Hh Hi Hfit) as [Hrec Hrest].
  set (m1 := foldl (fun m r => issue_map m height r) m rewards) in *.
  apply wp_bind. unfold waitMint. apply wp_bind, wp_gets. rewrite Hch. apply wp_bind, wp_modify, wp_bind.
  assert (forall P, wp (distRewardToState rewards height) P (set_resp ch s) ->
    wp (distReward rewards height (GovParams.RewardPoolAddress gp)) P (set_resp ch s)) as Hdist.
  { intros P HP. unfold distReward. by destruct (_ && _). }
  apply Hdist, (wp_distReward ∅ _ m rewards height (lastTotalSupply s) x); [done|intros a; apply not_elem_of_empty|done|done|exact Hfit|done|].
  intros s1 HC1 Hl1 E1 R1. cbn in E1, R1. rewrite <- E1 in Hl1.
  apply (wp_on_supply ∅ s1 m1 _ x); [done|done|]. intros s2 HC2 Hl2 E2 R2.
  apply wp_bind, wp_gets, wp_bind, (get_supply_rule _ _ _ _ _ Hl2). cbn [sp_changed supply_Add].
  apply (wp_store_supply (∅ ∪ {[LedgerKeyTotalSupply]}) s2 m1 (supply_Add x height (zsum (map mr_amt rewards))));
    [done|set_solver|done| |].
  { unfold supply_ok; cbn. unfold uadd. split; [done|]. split; [done|]. split; [apply u256_range|done]. }
  assert (ResetChanged (supply_Add x height (zsum (map mr_amt rewards))) = x') as ->.
  { unfold ResetChanged, supply_Add, x', uadd. cbn. rewrite u256_id; [done|]. unfold in_u256. lia. }
  intros s3 HC3 Hl3 R3. exists (<[LedgerKeyTotalSupply := ISupply x']> m1).
  split; [done|]. split; [by rewrite cumulated_set_supply|]. split; [|split; [|split; [congruence|]]].
  - intros a. rewrite <- Hpaid. unfold cum, reward_at. by rewrite lookup_insert_ne.
  - intros a. unfold heights_le, reward_at in *. rewrite lookup_insert_ne by done. apply Hh'.
  - split; [intros a Ha; rewrite lookup_insert_ne by done; by apply Hrec|]. split; [apply lookup_insert_eq|]. split; [done|].
    intros k Hk Hk'. rewrite lookup_insert_ne by done. by apply Hrest.
Qed.

End SupplyRules.

(** ** Withdrawing *)

Section Withdrawal.
Context {T I : Type} `{Iavl T I, !IavlLaws T I} `{SupplyProtos, !SupplyProtosLaws}.
Context {A : Type} `{IAccountHandler A, Utf8, !IAccountLaws A}.
Implicit Types (s : SupplyCtrler T I) (m : smap).

Abbreviation scoh D s m := (coh D (supplyState s) m).
Abbreviation sheld s k l x := (held (supplyState s) k l x).

(** Validation and execution of a withdrawal, as the executor runs them. *)
Definition run_withdraw (tx : Trx) (height : Z) : M (SupplyCtrler T I * A) unit :=
  let! l := zoom fst_lens (supply_ValidateTrx tx true) in
  supply_ExecuteTrx tx l height true.

(** The ledger after [amt] left the reward of [a]. *)
Definition withdrawn m (a : Address) (amt : Z) m' : Prop :=
  cum m' a = cum m a - amt /\ (forall b, b <> a -> cum m' b = cum m b) /\
  cumulated m' = cumulated m - amt /\ m' !! LedgerKeyTotalSupply = m !! LedgerKeyTotalSupply.

Lemma Withdraw_ok r amt h :
  rw_Height r <= h -> in_i64 h -> reward_ok r -> 0 <= amt <= rw_cumulated r ->
  exists r', Withdraw r amt h = Ok r' /\ reward_ok r' /\ rw_Address r' = rw_Address r /\
    rw_cumulated r' = rw_cumulated r - amt /\ rw_Height r' = h.
Proof.
  intros Hh Hi (? & ? & ? & ? & Hc) Ha. unfold Withdraw. unfold in_u256 in Hc.
  assert (in_u256 0 /\ in_u256 amt) as [? ?] by (unfold in_u256; lia).
  assert (forall a b, in_u256 (uadd a b)) by (intros; apply u256_range).
  assert (usub (rw_cumulated r) amt = rw_cumulated r - amt) as -> by (apply u256_id; unfold in_u256; lia).
  assert (in_u256 (rw_cumulated r - amt)) by (unfold in_u256; lia).
  destruct (Z.ltb_spec (rw_Height r) h) as [Hlt|Hge].
  - eexists. split; [done|]. unfold reward_ok; cbn. auto 10.
  - destruct (Z.eqb_spec (rw_Height r) h) as [E|]; [|lia].
    eexists. split; [done|]. unfold reward_ok; cbn. auto 10.
Qed.

Lemma withdrawn_put m a r :
  rw_Address r = a -> withdrawn m a (cum m a - rw_cumulated r) (put_reward m r).
Proof.
  intros Ha. split; [|split; [|split]].
  - rewrite cum_put, decide_True by done. lia.
  - intros b Hb. rewrite cum_put, decide_False by congruence. done.
  - rewrite cumulated_put, Ha. lia.
  - unfold put_reward. by rewrite lookup_insert_ne.
Qed.

Lemma withdrawn_del m a : withdrawn m a (cum m a) (delete (LedgerKeyReward a) m).
Proof.
  split; [|split; [|split]].
  - unfold cum at 1, reward_at. rewrite lookup_delete_eq. cbn. lia.
  - intros b Hb. unfold cum, reward_at. rewrite lookup_delete_ne; [done|].
    intros E. by apply LedgerKeyReward_inj in E.
  - unfold cumulated. change (fun _ x => _) with cum_item. rewrite (msum_delete cum_item m). by rewrite cum_at_key.
  - by rewrite lookup_delete_ne.
Qed.

Lemma wp_supply_Validate tx s m :
  GetType tx = TRX_WITHDRAW -> scoh ∅ s m ->
  wp (supply_ValidateTrx tx true) (fun o s' => scoh ∅ s' m /\
    match o with
    | Ok l => exists amt, tx_Payload tx = Some (TrxPayloadWithdraw amt) /\ amt <= cum m (tx_From tx) /\
        sheld s' (LedgerKeyReward (tx_From tx)) l (IReward (reward_at m (tx_From tx)))
    | Err _ => True
    | Panic => False
    end) s.
Proof.
  intros Hty HC. unfold supply_ValidateTrx. rewrite Hty. cbn [Z.eqb TRX_WITHDRAW Pos.eqb].
  destruct (negb _); [by apply wp_throw|].
  destruct (tx_Payload tx) as [[]|]; try by apply wp_throw. rename ReqAmt into amt.
  apply wp_bind, wp_zoom; cbn [lget lset sup_lens].
  destruct (m !! LedgerKeyReward (tx_From tx)) as [x|] eqn:Hx; [|by apply (wp_Get_none ∅ _ m (LedgerKeyReward (tx_From tx)))].
  destruct (typed_reward ∅ s m _ x HC Hx) as (-> & _).
  apply (held_get_rule ∅ _ m (LedgerKeyReward (tx_From tx)) (IReward (reward_at m (tx_From tx)))); try done.
  intros l ls HC' Hl _ _ _. apply wp_bind.
  eapply (get_reward_rule _ (LedgerKeyReward (tx_From tx))); [exact Hl|].
  rewrite uCmp_gt.
  destruct (Z.ltb_spec (rw_cumulated (reward_at m (tx_From tx))) amt) as [Hlt|Hge]; [by apply wp_throw|].
  apply wp_ret. split; [done|]. exists amt. split; [done|]. done.
Qed.

Lemma wp_debit_reward s m a l amt height :
  scoh ∅ s m -> sheld s (LedgerKeyReward a) l (IReward (reward_at m a)) -> heights_le m height ->
  in_i64 height -> 0 <= amt <= cum m a ->
  wp (let! r := get_reward l in
      let! r' := lift (Withdraw r amt height) in
      s_assign l (IReward r') ;;;
      (if rw_cumulated r' =? 0 then sup_Del (LedgerKeyReward (rw_Address r')) true
       else sup_Set (LedgerKeyReward (rw_Address r')) l true) ;;;
      ret (rw_Address r')) (okQ (fun b s' => b = a /\ exists m', scoh ∅ s' m' /\ withdrawn m a amt m' /\
        (0 <= height -> heights_le m' height))) s.
Proof.
  intros HC Hl Hh Hi Hamt. apply wp_bind, (get_reward_rule _ _ _ _ _ Hl), wp_bind, wp_lift.
  destruct (reward_at_ok ∅ s m a HC) as [Hok Ha].
  destruct (Withdraw_ok (reward_at m a) amt height) as (r' & -> & Hok' & Ha' & Hc & Hrh); [apply Hh|done|done|done|].
  rewrite Ha in Ha'. rewrite Ha'. fold (cum m a) in Hc. replace amt with (cum m a - rw_cumulated r') by lia.
  destruct (Z.eqb_spec (rw_cumulated r') 0) as [E|_].
  - apply wp_bind, wp_zoom; cbn. apply (held_assign_rule ∅ _ m _ _ _ _ _ HC Hl).
    intros ls HC1 _ _ _. apply wp_bind, wp_zoom; cbn. apply (held_del_rule (∅ ∪ {[LedgerKeyReward a]}) _ m); [done|done|].
    intros ls' HC2 _. apply wp_ret. split; [done|]. eexists. split; [by rewrite dirty_one in HC2|].
    rewrite E, Z.sub_0_r. split; [apply withdrawn_del|]. intros Hge0 b. unfold reward_at.
    destruct (decide (b = a)) as [->|Hne]; [by rewrite lookup_delete_eq|].
    rewrite lookup_delete_ne; [apply Hh|]. intros Eb. by apply LedgerKeyReward_inj in Eb.
  - apply wp_bind_assoc, wp_bind. apply (s_put_set_rule ∅ s m l _ (IReward (reward_at m a))); try done.
    { cbn. by rewrite Ha'. }
    intros s' HC' _ _. apply wp_ret. split; [done|]. eexists. split; [exact HC'|].
    rewrite <- Ha'. fold (put_reward m r'). split; [by apply withdrawn_put|].
    intros _ b. rewrite reward_at_put. destruct (decide _); [lia|apply Hh].
Qed.

(** C38. A withdrawal, validated and executed, either fails with an error and
    changes neither rewards nor accounts, or moves exactly the requested amount,
    which the sender had cumulated, from its reward to its balance; the other
    rewards and the total supply stay. *)
Theorem withdraw_pays tx height s m ac ma :
  GetType tx = TRX_WITHDRAW -> scoh ∅ s m -> heights_le m height -> in_i64 height ->
  accts ac ma -> length (tx_From tx) = AddrSize -> is_Some (ma !! LedgerKeyAccount (tx_From tx)) ->
  cum m (tx_From tx) < 2 ^ 255 ->
  (forall amt, tx_Payload tx = Some (TrxPayloadWithdraw amt) -> 0 <= amt) ->
  wp (run_withdraw tx height) (fun o st =>
    match o with
    | Ok _ => exists m' amt, tx_Payload tx = Some (TrxPayloadWithdraw amt) /\
        0 <= amt <= cum m (tx_From tx) /\ scoh ∅ (fst st) m' /\
        withdrawn m (tx_From tx) amt m' /\ accts (snd st) (credit ma (tx_From tx) amt)
    | Err _ => scoh ∅ (fst st) m /\ snd st = ac
    | Panic => False
    end) (s, ac).
Proof.
  intros Hty HC Hh Hi HA Hlen [x Hx] Hcum Hpos. unfold run_withdraw.
  apply wp_bind, wp_zoom. cbn [lget fst_lens fst].
  eapply wp_mono; [apply (wp_supply_Validate tx s m Hty HC)|]. intros [l|e|] s1 [HC1 Hr]; [|done|done].
  destruct Hr as (amt & Hp & Hle & Hl). unfold supply_ExecuteTrx. rewrite Hty, Hp. cbn [Z.eqb TRX_WITHDRAW Pos.eqb].
  specialize (Hpos amt Hp). unfold withdrawReward. apply wp_bind, wp_zoom. cbn [lget lset fst_lens fst snd].
  eapply wp_mono; [apply (wp_debit_reward s1 m (tx_From tx) l amt height); done|].
  intros [b|e|] s2; [|done|done]. intros (-> & m' & HC2 & Hw & _). apply wp_zoom. cbn [lget lset snd_lens fst snd].
  eapply wp_mono; [apply (Reward_law ac ma (tx_From tx) amt HA Hlen); lia|].
  intros o ac'. rewrite Hx. intros (-> & HA' & _). exists m', amt. auto.
Qed.

End Withdrawal.

(** ** A supply, two rewards and a withdrawal *)

Module SupplyWitness.

Import AcctProps.AcctWitness.

#[local] Existing Instances AcctWitness.w_utf8 AcctWitness.w_proto AcctWitness.w_laws.
#[local] Instance SupplyProto_eq_dec : EqDecision SupplyProto.
Proof. solve_decision. Defined.

#[local] Instance RewardProto_eq_dec : EqDecision RewardProto.
Proof. solve_decision. Defined.

#[local, refine] Instance SupplyProto_countable : Countable SupplyProto :=
  inj_countable (fun p => [[spp_Height p]; spp_XTotalSupply p; [spp_AdjustHeight p]; spp_XAdjustSupply p])
    (fun l => match l with [[h]; t; [ah]; a] => Some (MkSupplyProto h t ah a) | _ => None end) _.
Proof. by intros []. Defined.

#[local, refine] Instance RewardProto_countable : Countable RewardProto :=
  inj_countable (fun p => [rwp_Address p; rwp_XIssued p; rwp_XWithdrawn p; rwp_XSlashed p; rwp_XCumulated p; [rwp_Height p]])
    (fun l => match l with [a; i; w; sl; c; [h]] => Some (MkRewardProto a i w sl c h) | _ => None end) _.
Proof. by intros []. Defined.

#[local] Instance w_supplies : SupplyProtos := Build_SupplyProtos Countable_proto Countable_proto.
#[local] Instance w_supplies_laws : SupplyProtosLaws :=
  Build_SupplyProtosLaws _ (Countable_proto_laws _) (Countable_proto_laws _).

Abbreviation sstate := (SupplyCtrler RefTree.tree (gmap bytes bytes)).

Definition supply0 : Supply := MkSupply 0 1 1000000 1000000 false.
Definition rewards2 : list mintedReward := [MkMintedReward alice 30; MkMintedReward bob 12].

(** An empty ledger, the supply of the genesis, and a minted sum in the channel. *)
Definition sstart : sstate :=
  MkSupplyCtrler
    (MkLState (Store {[1%positive := ISupply supply0]} 2%positive)
       (MkStateLedger (MkMutableLedger RefTree.empty [] ∅) (MkMemLedger (Some ∅) ∅ []))) 1%positive
    [Minted 42 rewards2].

Lemma sstart_coh : coh ∅ (supplyState sstart) ∅.
Proof.
  split; cbn; try done; [constructor|].
  intros l x Hl. destruct (decide (l = 1%positive)) as [->|Hn]; [done|].
  cbn in Hl. by rewrite lookup_singleton_ne in Hl.
Qed.

Lemma sstart_held : held (supplyState sstart) LedgerKeyTotalSupply 1%positive (ISupply supply0).
Proof. split; [done|]. intros k Hk. cbn in Hk. by rewrite lookup_empty in Hk. Qed.

Lemma empty_heights h : 0 <= h -> heights_le ∅ h.
Proof. intros Hh a. unfold reward_at. by rewrite lookup_empty. Qed.

Lemma EndBlock_issues_witness :
  wp (supply_EndBlock GovParams.DefaultGovParams (GovParams.InflationCycleBlocks GovParams.DefaultGovParams))
    (okQ (fun _ s' => exists m', coh ∅ (supplyState s') m' /\ cum m' alice = 30 /\ cum m' bob = 12 /\
       m' !! LedgerKeyReward bob = Some (IReward (MkReward bob 604800 12 0 0 12)) /\
       m' !! LedgerKeyTotalSupply = Some (ISupply (MkSupply 604800 1 1000042 1000000 false)))) sstart.
Proof.
  eapply wp_mono.
  - apply (EndBlock_issues GovParams.DefaultGovParams _ sstart ∅ supply0 42 rewards2 []);
      [exact sstart_coh|exact sstart_held|vm_compute; reflexivity|vm_compute; split; congruence
      |apply empty_heights; vm_compute; congruence|done|repeat constructor; cbn; lia|done
      |vm_compute; reflexivity|cbn; lia|vm_compute; reflexivity|vm_compute; split; congruence|vm_compute; split; congruence].
  - intros [[]|e|] s'; [|done|done]. intros (m' & HC & _ & Hc & _ & _ & Hrec & Hsup & _ & _). exists m'. split; [done|]. rewrite !Hc.
    split; [by vm_compute|]. split; [by vm_compute|]. split; [|exact Hsup].
    rewrite Hrec by (right; left). vm_compute. reflexivity.
Defined.

Definition paid_state : sstate := snd (distRewardToState rewards2 7 sstart).
Definition paid_map : smap := foldl (fun m r => issue_map m 7 r) ∅ rewards2.

Lemma paid_coh : coh ∅ (supplyState paid_state) paid_map.
Proof.
  assert (wp (distRewardToState rewards2 7) (fun _ s' => coh ∅ (supplyState s') paid_map) sstart) as Hw; [|done].
  apply (wp_distReward ∅ sstart ∅ rewards2 7 1%positive supply0);
    [exact sstart_coh|set_solver|done|by apply empty_heights|repeat constructor; cbn; lia|exact sstart_held|done].
Qed.

Lemma paid_heights : heights_le paid_map 9.
Proof.
  destruct (issue_all ∅ 7 rewards2) as (_ & _ & _ & _ & Hh); [done|by apply empty_heights|done|repeat constructor; cbn; lia|done|].
  intros a. specialize (Hh a). unfold paid_map. lia.
Qed.

Definition withdrawal : Trx :=
  MkTrx 1 0 0 alice alice 0 0 0 TRX_WITHDRAW (Some (TrxPayloadWithdraw 30)) [] [] [].

Lemma withdraw_pays_witness :
  wp (run_withdraw withdrawal 9) (okQ (fun _ st => exists m',
    coh ∅ (supplyState (fst st)) m' /\ cum m' alice = 0 /\ cum m' bob = 12 /\
    accts (snd st) (credit start_map alice 30))) (paid_state, start).
Proof.
  pose proof (withdraw_pays withdrawal 9 paid_state paid_map start start_map eq_refl paid_coh paid_heights
    ltac:(done) start_inv eq_refl ltac:(vm_compute; eauto) ltac:(vm_compute; reflexivity)
    ltac:(by intros amt [= <-])) as Hw.
  assert (fst (run_withdraw withdrawal 9 (paid_state, start)) = Ok tt) as E by (vm_compute; reflexivity).
  unfold wp, okQ in *. rewrite E in *. destruct Hw as (m' & amt & [= <-] & _ & HC & (Hc' & Ho & _) & HA).
  change (tx_From withdrawal) with alice in *.
  exists m'. split; [exact HC|]. split; [rewrite Hc'; vm_compute; reflexivity|].
  split; [rewrite Ho; [vm_compute; reflexivity|vm_compute; congruence]|exact HA].
Defined.

End SupplyWitness.
