(* ===== verification/Merkle.v ===== *)
(** * Merkle: the hash tree of a transaction's events

    [types/merkle/tree.go]: a complete binary tree in an array, with the root
    at index 1 and the children of [i] at [2i] and [2i+1].  A [nil] slice is
    [None]; a missing leaf is [nil] and so is the hash of two missing children.
    Every real leaf has a proof that verifies, and a proof of the right length
    for a real index binds the leaf and the siblings, unless a collision of the hash
    is found in what the verifier and the tree hash;
    the verifier does not check the length, and a node does not say whether it
    is a leaf, so inner nodes and padding positions can be proved as leaves. *)
From stdpp Require Import base list strings.
From Stdlib Require Import ZArith Lia Arith.
From Equations Require Import Equations.
From S2P Require Import Prelude XErrors GoMonad Signer.

Local Open Scope nat_scope.

Abbreviation slice := (option bytes).

(** The bytes of a slice; a [nil] slice has none. *)
Definition sbytes (x : slice) : bytes := default [] x.

Record MerkleTree := MkMerkleTree {
  mt_nodes : list slice;
  mt_leafCount : nat;
}.

(** [bits.Len]: the number of bits needed. *)
Definition bits_Len (x : nat) : nat := match x with O => O | S _ => S (Nat.log2 x) end.

Definition nextPowerOf2 (n : nat) : nat := if n <=? 1 then 1 else Nat.shiftl 1 (bits_Len (n - 1)).

Section Merkle.
Context `{CryptoLib}.

Definition hashPair (left right : slice) : slice :=
  match left, right with
  | None, None => None
  | _, _ => Some (sha256 (sbytes left ++ sbytes right))
  end.

(** [nodes[i]]; every index the code uses is in range. *)
Definition node (ns : list slice) (i : nat) : slice := default None (ns !! i).

(** The internal nodes from [i] down to 1. *)
Fixpoint build (i : nat) (ns : list slice) : list slice :=
  match i with
  | O => ns
  | S i' => build i' (<[i := hashPair (node ns (2 * i)) (node ns (2 * i + 1))]> ns)
  end.

Definition leaf_node (preHashed : bool) (leaf : slice) : slice :=
  if preHashed then leaf else Some (sha256 (sbytes leaf)).

Definition newMerkleTree (leaves : list slice) (preHashed : bool) : MerkleTree :=
  let leafCount := nextPowerOf2 (length leaves) in
  let nodes := repeat None leafCount ++
               map (leaf_node preHashed) leaves ++ repeat None (leafCount - length leaves) in
  MkMerkleTree (build (leafCount - 1) nodes) leafCount.

Definition Root (t : MerkleTree) : slice := node (mt_nodes t) 1.

(** The siblings on the way from a node to the root. *)
Equations siblings (ns : list slice) (nodeIdx : nat) : list slice by wf nodeIdx lt :=
  siblings ns nodeIdx with le_lt_dec nodeIdx 1 => {
    | left _ => [];
    | right _ => node ns (Nat.lxor nodeIdx 1) :: siblings ns (nodeIdx / 2) }.
Next Obligation. change (nodeIdx / 2 < nodeIdx). apply Nat.div_lt; lia. Qed.

Definition Proof_ (t : MerkleTree) (index : Z) : outcome (slice * list slice) :=
  if (index <? 0)%Z || (Z.of_nat (mt_leafCount t) <=? index)%Z
  then Err (GoError "index %d out of range [0, %d)")
  else
    let nodeIdx := mt_leafCount t + Z.to_nat index in
    Ok (node (mt_nodes t) nodeIdx, siblings (mt_nodes t) nodeIdx).

(** Folding the siblings into the hash of the leaf. *)
Fixpoint climb (nodeIdx : Z) (current : slice) (sibs : list slice) : slice :=
  match sibs with
  | [] => current
  | sib :: sibs' =>
      climb (Z.quot nodeIdx 2)
        (if (Z.rem nodeIdx 2 =? 0)%Z then hashPair current sib else hashPair sib current) sibs'
  end.

Definition VerifyProof (index : Z) (data : slice) (sibs : list slice) (root : slice) (preHashed : bool)
    : outcome unit :=
  let current := sbytes (climb index (leaf_node preHashed data) sibs) in
  if negb (length current =? length (sbytes root)) then Err (GoError "length mismatch; expected %d, got %d")
  else if bytes_Equal current (sbytes root) then Ok tt
  else Err (GoError "hash mismatch; expected %x, got %x").

(** ** The array is a hash tree *)

Lemma node_insert_ne (ns : list slice) i j x : i <> j -> node (<[i := x]> ns) j = node ns j.
Proof. intros Hne. unfold node. by rewrite list_lookup_insert_ne. Qed.

Lemma build_length i ns : length (build i ns) = length ns.
Proof. revert ns. induction i as [|i IH]; intros ns; cbn [build]; [done|]. by rewrite IH, length_insert. Qed.

Lemma build_above i ns j : i < j -> node (build i ns) j = node ns j.
Proof.
  revert ns. induction i as [|i IH]; intros ns Hj; cbn [build]; [done|].
  rewrite IH by lia. apply node_insert_ne. lia.
Qed.

Lemma build_node i ns j :
  1 <= j <= i -> 2 * i + 1 < length ns ->
  node (build i ns) j = hashPair (node (build i ns) (2 * j)) (node (build i ns) (2 * j + 1)).
Proof.
  revert ns. induction i as [|i IH]; intros ns Hj Hlen; [lia|]. cbn [build].
  destruct (decide (j = S i)) as [->|Hne]; [|apply IH; [lia|rewrite length_insert; lia]].
  rewrite !build_above by lia. rewrite (node_insert_ne ns (S i) (2 * S i)), (node_insert_ne ns (S i) (2 * S i + 1)) by lia.
  unfold node at 1. rewrite list_lookup_insert_eq by lia. done.
Qed.

Lemma nextPowerOf2_pow n : exists d, nextPowerOf2 n = 2 ^ d /\ n <= 2 ^ d.
Proof.
  unfold nextPowerOf2. destruct (Nat.leb_spec n 1) as [Hle|Hlt]; [by exists 0|].
  exists (bits_Len (n - 1)). rewrite Nat.shiftl_1_l. split; [done|].
  unfold bits_Len. destruct (n - 1) as [|k] eqn:E; [lia|]. pose proof (Nat.log2_spec (S k)). lia.
Qed.

(** The children of every inner node hash to it. *)
Definition heap_ok (d : nat) (ns : list slice) : Prop :=
  forall j, 1 <= j < 2 ^ d -> node ns j = hashPair (node ns (2 * j)) (node ns (2 * j + 1)).

(** What the tree is: its depth, its inner nodes and its leaves. *)
Lemma tree_spec leaves preHashed :
  let t := newMerkleTree leaves preHashed in
  exists d, mt_leafCount t = 2 ^ d /\ length leaves <= 2 ^ d /\ heap_ok d (mt_nodes t) /\
    forall i x, leaves !! i = Some x -> node (mt_nodes t) (2 ^ d + i) = leaf_node preHashed x.
Proof.
  cbn. destruct (nextPowerOf2_pow (length leaves)) as (d & -> & Hle). exists d.
  assert (1 <= 2 ^ d) as Hpos by (pose proof (Nat.pow_nonzero 2 d); lia).
  split; [done|]. split; [done|]. split.
  - intros j Hj. apply build_node; [lia|].
    rewrite !length_app, !repeat_length, length_map. lia.
  - intros i x Hx. pose proof (lookup_lt_Some _ _ _ Hx) as Hi.
    rewrite build_above by lia. unfold node.
    rewrite lookup_app_r by (rewrite repeat_length; lia). rewrite repeat_length.
    replace (2 ^ d + i - 2 ^ d) with i by lia.
    rewrite lookup_app_l by (rewrite length_map; lia). by rewrite list_lookup_fmap, Hx.
Qed.

(** ** Proofs *)

Lemma lxor_even m : Nat.lxor (2 * m) 1 = 2 * m + 1.
Proof.
  apply Nat.bits_inj. intros [|n]; rewrite Nat.lxor_spec.
  - by rewrite Nat.testbit_even_0, Nat.testbit_odd_0.
  - rewrite Nat.testbit_even_succ', Nat.testbit_odd_succ'.
    rewrite (Nat.bits_above_log2 1 (S n)) by (cbn; lia). apply Bool.xorb_false_r.
Qed.

Lemma lxor_odd m : Nat.lxor (2 * m + 1) 1 = 2 * m.
Proof. by rewrite <- lxor_even, Nat.lxor_assoc, Nat.lxor_nilpotent, Nat.lxor_0_r. Qed.

Lemma half m b : b < 2 -> (2 * m + b) / 2 = m.
Proof. intros Hb. symmetry. by apply (Nat.div_unique _ 2 _ b). Qed.

Lemma siblings_root ns : siblings ns 1 = [].
Proof. simp siblings. destruct (le_lt_dec 1 1); [done|lia]. Qed.

Lemma siblings_step ns k : 1 < k -> siblings ns k = node ns (Nat.lxor k 1) :: siblings ns (k / 2).
Proof. intros Hk. rewrite siblings_equation_1. destruct (le_lt_dec k 1); [lia|done]. Qed.

(** An index of the next level, left or right. *)
Lemma index_cases d i : i < 2 ^ S d ->
  exists i' b, i' < 2 ^ d /\ i = 2 * i' + b /\ 2 ^ S d + i = 2 * (2 ^ d + i') + b /\ (b = 0 \/ b = 1).
Proof.
  intros Hi. exists (i / 2), (i mod 2). pose proof (Nat.div_mod_eq i 2). pose proof (Nat.mod_upper_bound i 2).
  cbn [Nat.pow] in *. assert (i / 2 < 2 ^ d) by (apply Nat.Div0.div_lt_upper_bound; lia).
  repeat split; lia.
Qed.

Lemma climb_even i x sib sibs : climb (Z.of_nat (2 * i + 0)) x (sib :: sibs) = climb (Z.of_nat i) (hashPair x sib) sibs.
Proof.
  cbn [climb]. rewrite Nat.add_0_r, Nat2Z.inj_mul, (Z.mul_comm 2), Z.rem_mul, Z.quot_mul by lia. done.
Qed.

Lemma climb_odd i x sib sibs : climb (Z.of_nat (2 * i + 1)) x (sib :: sibs) = climb (Z.of_nat i) (hashPair sib x) sibs.
Proof.
  cbn [climb]. replace (Z.of_nat (2 * i + 1)) with (1 + Z.of_nat i * 2)%Z by lia.
  rewrite Z.rem_add, Z.quot_add by lia. cbn. by rewrite Z.add_0_l.
Qed.

(** From any node the siblings lead to the root. *)
Lemma climb_siblings D ns d i :
  heap_ok D ns -> d <= D -> i < 2 ^ d -> climb (Z.of_nat i) (node ns (2 ^ d + i)) (siblings ns (2 ^ d + i)) = node ns 1.
Proof.
  intros Hh. revert i. induction d as [|d IH]; intros i Hd Hi.
  - cbn in Hi. replace i with 0 by lia. cbn [Nat.pow Nat.add]. by rewrite siblings_root.
  - destruct (index_cases d i Hi) as (i' & b & Hi' & -> & -> & Hb).
    assert (2 ^ d <= 2 ^ D / 2) as Hp.
    { apply Nat.div_le_lower_bound; [lia|]. change (2 * 2 ^ d) with (2 ^ S d). apply Nat.pow_le_mono_r; lia. }
    assert (1 <= 2 ^ d + i' < 2 ^ D) as Hr.
    { pose proof (Nat.pow_nonzero 2 d). pose proof (Nat.Div0.mul_div_le (2 ^ D) 2). lia. }
    rewrite siblings_step by lia. rewrite <- (IH i') by lia. rewrite (Hh _ Hr).
    destruct Hb as [-> | ->].
    + rewrite climb_even, half by lia. by rewrite Nat.add_0_r, lxor_even.
    + by rewrite climb_odd, half, lxor_odd by lia.
Qed.

Lemma VerifyProof_ok index data sibs root preHashed :
  sbytes (climb index (leaf_node preHashed data) sibs) = sbytes root <-> VerifyProof index data sibs root preHashed = Ok tt.
Proof.
  unfold VerifyProof. split.
  - intros ->. by rewrite Nat.eqb_refl, bytes_Equal_refl.
  - destruct (negb _); [done|]. destruct (bytes_Equal _ _) eqn:E; [|done]. intros _. by apply bytes_Equal_true.
Qed.

(** The proof of a leaf verifies: for every index of a leaf [Proof_]
    succeeds, returns the leaf's hash, and the siblings it returns verify the
    leaf against the root, for raw and for hashed leaves. *)
Theorem merkle_proof_verifies leaves (preHashed : bool) i x :
  leaves !! i = Some x ->
  let t := newMerkleTree leaves preHashed in
  exists sibs, Proof_ t (Z.of_nat i) = Ok (leaf_node preHashed x, sibs) /\
    VerifyProof (Z.of_nat i) x sibs (Root t) preHashed = Ok tt.
Proof.
  intros Hx. cbn zeta. destruct (tree_spec leaves preHashed) as (d & Hn & Hle & Hh & Hl).
  set (t := newMerkleTree leaves preHashed) in *. pose proof (lookup_lt_Some _ _ _ Hx) as Hi.
  exists (siblings (mt_nodes t) (2 ^ d + i)). unfold Proof_. rewrite Hn.
  destruct (Z.ltb_spec (Z.of_nat i) 0); [lia|]. destruct (Z.leb_spec (Z.of_nat (2 ^ d)) (Z.of_nat i)); [lia|].
  cbn [orb]. rewrite Nat2Z.id, (Hl i x Hx). split; [done|]. apply VerifyProof_ok.
  rewrite <- (Hl i x Hx). f_equal. apply (climb_siblings d); [done|lia|lia].
Qed.

(** The verifier does not tell leaves from inner nodes: the concatenation of
    the two children of any inner node of a tree verifies as a raw leaf, with
    the siblings of the inner node, although it need not be a leaf. *)
Theorem merkle_inner_verifies leaves (preHashed : bool) d i :
  let t := newMerkleTree leaves preHashed in
  2 ^ S d <= mt_leafCount t -> i < 2 ^ d -> node (mt_nodes t) (2 ^ d + i) <> None ->
  let left := node (mt_nodes t) (2 * (2 ^ d + i)) in
  let right := node (mt_nodes t) (2 * (2 ^ d + i) + 1) in
  VerifyProof (Z.of_nat i) (Some (sbytes left ++ sbytes right)) (siblings (mt_nodes t) (2 ^ d + i))
    (Root t) false = Ok tt.
Proof.
  cbn zeta. destruct (tree_spec leaves preHashed) as (D & Hn & _ & Hh & _).
  set (t := newMerkleTree leaves preHashed) in *. rewrite Hn. intros Hd Hi Hne.
  apply Nat.pow_le_mono_r_iff in Hd; [|lia]. apply VerifyProof_ok. unfold Root.
  rewrite <- (climb_siblings D (mt_nodes t) d i Hh ltac:(lia) Hi). do 2 f_equal. cbn [leaf_node sbytes default].
  assert (1 <= 2 ^ d + i < 2 ^ D) as Hr.
  { pose proof (Nat.pow_nonzero 2 d). pose proof (Nat.pow_le_mono_r 2 (S d) D). cbn [Nat.pow] in *. lia. }
  rewrite (Hh _ Hr) in Hne |- *. unfold hashPair in *. by destruct (node _ (2 * _)), (node _ (2 * _ + 1)).
Qed.

(** ** Soundness *)

(** What the verifier hashes on its way to the root, and what the tree hashed on
    the way from a node of depth [d]. *)
Fixpoint climb_inputs (nodeIdx : Z) (current : slice) (sibs : list slice) : list bytes :=
  match sibs with
  | [] => []
  | sib :: sibs' =>
      let '(l, r) := if (Z.rem nodeIdx 2 =? 0)%Z then (current, sib) else (sib, current) in
      (sbytes l ++ sbytes r) :: climb_inputs (Z.quot nodeIdx 2) (hashPair l r) sibs'
  end.

Fixpoint path_inputs (ns : list slice) (d nodeIdx : nat) : list bytes :=
  match d with
  | O => []
  | S d' => let p := nodeIdx / 2 in
      (sbytes (node ns (2 * p)) ++ sbytes (node ns (2 * p + 1))) :: path_inputs ns d' p
  end.

Definition proof_inputs (i : nat) (data : slice) (sibs : list slice) : list bytes :=
  sbytes data :: climb_inputs (Z.of_nat i) (leaf_node false data) sibs.

Definition tree_inputs (leaves : list slice) (i : nat) : list bytes :=
  let t := newMerkleTree leaves false in
  sbytes (node leaves i) :: path_inputs (mt_nodes t) (Nat.log2 (mt_leafCount t)) (mt_leafCount t + i).

(** The first level at which two different inputs have one hash. *)
Definition collides (p : bytes * bytes) : bool :=
  negb (bytes_Equal (fst p) (snd p)) && bytes_Equal (sha256 (fst p)) (sha256 (snd p)).
Definition find_collision (l1 l2 : list bytes) : option (bytes * bytes) := find collides (zip l1 l2).

Lemma collides_spec a b : collides (a, b) = true <-> a <> b /\ sha256 a = sha256 b.
Proof.
  unfold collides. cbn [fst snd]. rewrite andb_true_iff, bytes_Equal_true, negb_true_iff, <- not_true_iff_false, bytes_Equal_true. done.
Qed.

Lemma find_collision_in a b l1 l2 :
  (a, b) ∈ zip l1 l2 -> a <> b -> sha256 a = sha256 b ->
  exists a' b', find_collision l1 l2 = Some (a', b') /\ a' <> b' /\ sha256 a' = sha256 b'.
Proof.
  intros Hin Hne He. unfold find_collision. destruct (find collides (zip l1 l2)) as [[a' b']|] eqn:E.
  - apply find_some in E as [_ E]. apply collides_spec in E. by exists a', b'.
  - apply list_elem_of_In in Hin. apply (find_none _ _ E (a, b)) in Hin. assert (collides (a, b) = true) by (by apply collides_spec). congruence.
Qed.

(** A hash: present and of the hash's length. *)
Definition is_hash (x : slice) : Prop := exists b, x = Some b /\ length b = 32.

Context `{!CryptoLaws}.

Lemma hashPair_hash x y : is_hash x \/ is_hash y -> hashPair x y = Some (sha256 (sbytes x ++ sbytes y)) /\ is_hash (hashPair x y).
Proof.
  intros Hxy. assert (hashPair x y = Some (sha256 (sbytes x ++ sbytes y))) as E.
  { destruct Hxy as [(b & -> & _)|(b & -> & _)]; [done|]. by destruct x. }
  split; [done|]. rewrite E. eexists. split; [done|]. apply sha256_length.
Qed.

Lemma is_hash_eq x y : is_hash x -> is_hash y -> sbytes x = sbytes y -> x = y.
Proof. intros (b & -> & _) (c & -> & _). cbn. by intros ->. Qed.

Lemma is_hash_length x : is_hash x -> length (sbytes x) = 32.
Proof. by intros (b & -> & ?). Qed.

Lemma climb_inputs_even i x sib sibs :
  climb_inputs (Z.of_nat (2 * i + 0)) x (sib :: sibs) = (sbytes x ++ sbytes sib) :: climb_inputs (Z.of_nat i) (hashPair x sib) sibs.
Proof.
  cbn [climb_inputs]. rewrite Nat.add_0_r, Nat2Z.inj_mul, (Z.mul_comm 2), Z.rem_mul, Z.quot_mul by lia. done.
Qed.

Lemma climb_inputs_odd i x sib sibs :
  climb_inputs (Z.of_nat (2 * i + 1)) x (sib :: sibs) = (sbytes sib ++ sbytes x) :: climb_inputs (Z.of_nat i) (hashPair sib x) sibs.
Proof.
  cbn [climb_inputs]. replace (Z.of_nat (2 * i + 1)) with (1 + Z.of_nat i * 2)%Z by lia.
  rewrite Z.rem_add, Z.quot_add by lia. cbn. by rewrite Z.add_0_l.
Qed.

(** Two inputs of one level with one hash are the same or a collision. *)
Definition same_or_collision (P : Prop) (l1 l2 : list bytes) : Prop :=
  P \/ exists a b, (a, b) ∈ zip l1 l2 /\ a <> b /\ sha256 a = sha256 b.

Lemma level_cases (P Q : Prop) x y x' y' l1 l2 :
  is_hash x \/ is_hash y -> is_hash x' \/ is_hash y' ->
  same_or_collision (hashPair x y = hashPair x' y' /\ P) l1 l2 ->
  (sbytes x ++ sbytes y = sbytes x' ++ sbytes y' -> P -> Q) ->
  same_or_collision Q ((sbytes x ++ sbytes y) :: l1) ((sbytes x' ++ sbytes y') :: l2).
Proof.
  intros H1 H2 [[E HP]|(a & b & Hin & Hab)] HQ; [|right; exists a, b; split; [by right|done]].
  destruct (hashPair_hash x y H1) as [E1 _], (hashPair_hash x' y' H2) as [E2 _]. rewrite E1, E2 in E. injection E as E.
  destruct (decide (sbytes x ++ sbytes y = sbytes x' ++ sbytes y')) as [Hs|Hs]; [left; auto|].
  right. eexists _, _. split; [by left|done].
Qed.

(** Climbing to the root from a hash means starting at the node with its
    siblings. *)
Lemma climb_sound D ns d i x sibs :
  heap_ok D ns -> d <= D -> i < 2 ^ d -> length sibs = d -> is_hash x -> is_hash (node ns (2 ^ d + i)) ->
  climb (Z.of_nat i) x sibs = node ns 1 ->
  same_or_collision (x = node ns (2 ^ d + i) /\ map sbytes sibs = map sbytes (siblings ns (2 ^ d + i)))
    (climb_inputs (Z.of_nat i) x sibs) (path_inputs ns d (2 ^ d + i)).
Proof.
  intros Hh. revert i x sibs. induction d as [|d IH]; intros i x sibs Hd Hi Hs Hx Hn Hc.
  - cbn in Hi. replace i with 0 by lia. destruct sibs; [|done]. left. split; [done|]. by rewrite siblings_root.
  - destruct sibs as [|s sibs]; [done|]. injection Hs as Hs.
    destruct (index_cases d i Hi) as (i' & b & Hi' & -> & E & Hb). rewrite E in Hn |- *.
    assert (1 <= 2 ^ d + i' < 2 ^ D) as Hr.
    { pose proof (Nat.pow_nonzero 2 d). pose proof (Nat.pow_le_mono_r 2 (S d) D). cbn [Nat.pow] in *. lia. }
    rewrite siblings_step by lia. cbn [path_inputs map]. rewrite half by lia. pose proof (Hh _ Hr) as Hp. destruct Hb as [-> | ->].
    + rewrite climb_even in Hc. rewrite climb_inputs_even. rewrite Nat.add_0_r, lxor_even in *.
      apply (level_cases (map sbytes sibs = map sbytes (siblings ns (2 ^ d + i')))); [by left|by left| |].
      * rewrite <- Hp. apply IH; [lia|done|done| | |done]; [|rewrite Hp]; apply hashPair_hash; by left.
      * intros [E1 E2]%app_inj_1 ->; [|by rewrite !is_hash_length]. split; [by apply is_hash_eq|by rewrite E2].
    + rewrite climb_odd in Hc. rewrite climb_inputs_odd, lxor_odd.
      apply (level_cases (map sbytes sibs = map sbytes (siblings ns (2 ^ d + i')))); [by right|by right| |].
      * rewrite <- Hp. apply IH; [lia|done|done| | |done]; [|rewrite Hp]; apply hashPair_hash; by right.
      * intros [E1 E2]%app_inj_2 ->; [|by rewrite !is_hash_length]. split; [by apply is_hash_eq|by rewrite E1].
Qed.

Lemma climb_hash z x sibs : is_hash x -> is_hash (climb z x sibs).
Proof.
  revert z x. induction sibs as [|s sibs IH]; intros z x Hx; cbn [climb]; [done|].
  apply IH. destruct (_ =? _)%Z; apply hashPair_hash; auto.
Qed.

Lemma is_hash_root D ns d i : heap_ok D ns -> d <= D -> i < 2 ^ d -> is_hash (node ns (2 ^ d + i)) -> is_hash (node ns 1).
Proof.
  intros Hh. revert i. induction d as [|d IH]; intros i Hd Hi Hn.
  - cbn in Hi. by replace (2 ^ 0 + i) with 1 in Hn by (cbn; lia).
  - destruct (index_cases d i Hi) as (i' & b & Hi' & -> & E & Hb). rewrite E in Hn.
    apply (IH i'); [lia|done|]. rewrite (Hh (2 ^ d + i')).
    + apply hashPair_hash. destruct Hb as [-> | ->]; [left; by rewrite Nat.add_0_r in Hn|by right].
    + pose proof (Nat.pow_nonzero 2 d). pose proof (Nat.pow_le_mono_r 2 (S d) D). cbn [Nat.pow] in *. lia.
Qed.

(** C33. A proof binds the leaf: when a proof with as many siblings as the tree is
    deep verifies raw data at the index of a leaf against the root, the data is
    that leaf and the siblings are those the tree gives for it, or else a collision
    of the hash is found by comparing, level by level, what the verifier hashes
    with what the tree hashed on the way from that leaf to the root. *)
Theorem merkle_proof_sound leaves i x data sibs :
  leaves !! i = Some x ->
  let t := newMerkleTree leaves false in
  2 ^ length sibs = mt_leafCount t ->
  VerifyProof (Z.of_nat i) data sibs (Root t) false = Ok tt ->
  (sbytes data = sbytes x /\
   exists h sibs', Proof_ t (Z.of_nat i) = Ok (h, sibs') /\ map sbytes sibs = map sbytes sibs') \/
  exists a b, find_collision (proof_inputs i data sibs) (tree_inputs leaves i) = Some (a, b) /\ a <> b /\ sha256 a = sha256 b.
Proof.
  intros Hx. cbn zeta. destruct (tree_spec leaves false) as (d & Hn & Hle & Hh & Hl). unfold proof_inputs, tree_inputs.
  set (t := newMerkleTree leaves false) in *. rewrite Hn. intros Hd. apply Nat.pow_inj_r in Hd; [|lia].
  pose proof (lookup_lt_Some _ _ _ Hx) as Hi. intros Hv. apply VerifyProof_ok in Hv.
  assert (forall y, is_hash (leaf_node false y)) as Hleaf.
  { intros y. eexists. split; [done|]. apply sha256_length. }
  assert (is_hash (node (mt_nodes t) (2 ^ d + i))) as Hh1 by (rewrite (Hl i x Hx); apply Hleaf).
  replace (node leaves i) with x by (unfold node; by rewrite Hx). rewrite Nat.log2_pow2 by lia.
  destruct (climb_sound d (mt_nodes t) d i (leaf_node false data) sibs) as [[E Es]|(a & b & Hin & Hab & He)];
    [done|done|lia|done|apply Hleaf|done| | |].
  - apply is_hash_eq; [|by apply (is_hash_root d _ d i); try done; lia|done]. apply climb_hash, Hleaf.
  - rewrite (Hl i x Hx) in E. injection E as E.
    destruct (decide (sbytes data = sbytes x)) as [Hs|Hs]; [left; split; [done|]|right; by eapply find_collision_in; [left|..]].
    unfold Proof_. rewrite Hn. destruct (Z.ltb_spec (Z.of_nat i) 0); [lia|].
    destruct (Z.leb_spec (Z.of_nat (2 ^ d)) (Z.of_nat i)); [lia|]. cbn [orb]. rewrite Nat2Z.id. eauto.
  - right. eapply find_collision_in; [by right|done|done].
Qed.

End Merkle.

(** ** Three leaves *)

Module MerkleWitness.

#[local] Instance w_crypto : CryptoLib := Toy_crypto.
#[local] Instance w_crypto_laws : CryptoLaws := Toy_crypto_laws.

Definition leaves3 : list slice := [Some [1%Z]; Some [2%Z]; Some [3%Z]].
Definition tree3 : MerkleTree := newMerkleTree leaves3 false.

Definition proof_of (i : Z) : list slice := match Proof_ tree3 i with Ok (_, s) => s | _ => [] end.

Lemma merkle_proof_verifies_witness :
  exists sibs, Proof_ tree3 2 = Ok (leaf_node false (Some [3%Z]), sibs) /\
    VerifyProof 2 (Some [3%Z]) sibs (Root tree3) false = Ok tt.
Proof. apply (merkle_proof_verifies leaves3 false 2). reflexivity. Defined.

(** The proof of a leaf, and a forged leaf with the hash of the real one: the toy
    hash pads with zeros. *)
Definition forged : slice := Some [3; 0]%Z.

Lemma merkle_proof_sound_witness :
  VerifyProof 2 forged (proof_of 2) (Root tree3) false = Ok tt /\
  exists a b, find_collision (proof_inputs 2 forged (proof_of 2)) (tree_inputs leaves3 2) = Some (a, b) /\ a <> b /\ sha256 a = sha256 b.
Proof.
  split; [vm_compute; reflexivity|].
  destruct (merkle_proof_sound leaves3 2 (Some [3%Z]) forged (proof_of 2)) as [[Hd _]|Hc].
  - reflexivity.
  - vm_compute. reflexivity.
  - vm_compute. reflexivity.
  - discriminate Hd.
  - exact Hc.
Defined.

Lemma merkle_inner_verifies_witness :
  VerifyProof 1 (Some (sbytes (node (mt_nodes tree3) 6) ++ sbytes (node (mt_nodes tree3) 7)))
    (siblings (mt_nodes tree3) 3) (Root tree3) false = Ok tt.
Proof.
  apply (merkle_inner_verifies leaves3 false 1 1).
  - vm_compute. lia.
  - cbn. lia.
  - vm_compute. discriminate.
Defined.

End MerkleWitness.
