(* ===== verification/TrxCtx.v ===== *)
(** * TrxCtx: block and transaction contexts

    [ctrlers/types/block_ctx.go] and [trx_ctx.go].  A block context carries the
    header, the limits, the gas pool, the fees and the count of transactions of
    a block; a transaction context carries a decoded and verified transaction
    with pointers to the account objects of its sender, receiver and payer.
    The gas pool is go-ethereum's ([GasPoolLib], with its documented behaviour
    in [GasPoolLaws]); the hash of a transaction is Tendermint's ([TmHash]). *)
From stdpp Require Import base gmap list strings.
From Stdlib Require Import ZArith Lia.
From S2P Require Import Prelude XErrors GoMonad LedgerKeys Iavl Ledger Units Proto GovParams.
From S2P Require Import Account TrxTypes Signer AcctCtrler ValSet VPowerCtrler Merkle.

(** ** The gas pool *)

(** [AddGas] panics when the pool exceeds 64 bits, [SubGas] returns an error
    when the pool has less than the amount. *)
Class GasPoolLib (GP : Type) : Type := {
  gas_new : GP;                       (* [new(GasPool)] *)
  gas_Add : GP -> Z -> outcome GP;
  gas_Sub : GP -> Z -> outcome GP;
  gas_Gas : GP -> Z;
}.

Class GasPoolLaws (GP : Type) `{GasPoolLib GP} : Prop := {
  gas_range : forall p, 0 <= gas_Gas p < 2 ^ 64;
  gas_new_zero : gas_Gas gas_new = 0;
  gas_Add_law : forall p n, 0 <= n -> gas_Gas p + n < 2 ^ 64 ->
    exists p', gas_Add p n = Ok p' /\ gas_Gas p' = gas_Gas p + n;
  gas_Sub_law : forall p n, 0 <= n <= gas_Gas p ->
    exists p', gas_Sub p n = Ok p' /\ gas_Gas p' = gas_Gas p - n;
  gas_Sub_short : forall p n, gas_Gas p < n -> exists e, gas_Sub p n = Err e;
}.

(** ** Block contexts *)

(** What the code reads of [abcitypes.RequestBeginBlock]; the time is in
    nanoseconds. *)
Record RequestBeginBlock := MkRequestBeginBlock {
  rb_ChainID : bytes;
  rb_Height : Z;
  rb_Time : Z;
  rb_ProposerAddress : Address;
  rb_Byzantines : list Address;
  rb_Votes : list (Address * bool);
}.

(** The handlers are the controllers of the application, kept apart. *)
Record BlockContext (GP : Type) := MkBlockContext {
  bc_blockInfo : RequestBeginBlock;
  bc_blockSizeLimit : Z;
  bc_blockGasLimit : Z;
  bc_blockGasPool : GP;
  bc_feeSum : Z;
  bc_txsCnt : Z;
  bc_appHash : bytes;
  bc_ValUpdates : list ValidatorUpdate;
}.
Arguments MkBlockContext {GP} _ _ _ _ _ _ _ _.
Arguments bc_blockInfo {GP} _.
Arguments bc_blockSizeLimit {GP} _.
Arguments bc_blockGasLimit {GP} _.
Arguments bc_blockGasPool {GP} _.
Arguments bc_feeSum {GP} _.
Arguments bc_txsCnt {GP} _.
Arguments bc_appHash {GP} _.
Arguments bc_ValUpdates {GP} _.

Section BlockContexts.
Context {GP : Type} `{GasPoolLib GP}.
Implicit Types b : BlockContext GP.

Definition bc_Height b : Z := rb_Height (bc_blockInfo b).
Definition bc_ChainID b : bytes := rb_ChainID (bc_blockInfo b).

Definition set_gas (limit : Z) (pool : GP) b : BlockContext GP :=
  MkBlockContext (bc_blockInfo b) (bc_blockSizeLimit b) limit pool (bc_feeSum b) (bc_txsCnt b)
    (bc_appHash b) (bc_ValUpdates b).

Definition SetBlockSizeLimit (limit : Z) b : BlockContext GP :=
  MkBlockContext (bc_blockInfo b) limit (bc_blockGasLimit b) (bc_blockGasPool b) (bc_feeSum b)
    (bc_txsCnt b) (bc_appHash b) (bc_ValUpdates b).

(** A new pool with [uint64(gasLimit)] gas. *)
Definition setBlockGasLimit (gasLimit : Z) b : outcome (BlockContext GP) :=
  obind (gas_Add gas_new (u64 gasLimit)) (fun pool => Ok (set_gas gasLimit pool b)).

Definition AddFee (fee : Z) b : BlockContext GP :=
  MkBlockContext (bc_blockInfo b) (bc_blockSizeLimit b) (bc_blockGasLimit b) (bc_blockGasPool b)
    (uadd (bc_feeSum b) fee) (bc_txsCnt b) (bc_appHash b) (bc_ValUpdates b).

Definition AddTxsCnt (d : Z) b : BlockContext GP :=
  MkBlockContext (bc_blockInfo b) (bc_blockSizeLimit b) (bc_blockGasLimit b) (bc_blockGasPool b)
    (bc_feeSum b) (i64 (bc_txsCnt b + d)) (bc_appHash b) (bc_ValUpdates b).

Definition SetAppHash (hash : bytes) b : BlockContext GP :=
  MkBlockContext (bc_blockInfo b) (bc_blockSizeLimit b) (bc_blockGasLimit b) (bc_blockGasPool b)
    (bc_feeSum b) (bc_txsCnt b) hash (bc_ValUpdates b).

Definition SetValUpdates (ups : list ValidatorUpdate) b : BlockContext GP :=
  MkBlockContext (bc_blockInfo b) (bc_blockSizeLimit b) (bc_blockGasLimit b) (bc_blockGasPool b)
    (bc_feeSum b) (bc_txsCnt b) (bc_appHash b) ups.

Definition SetChainID (chainId : bytes) b : BlockContext GP :=
  let bi := bc_blockInfo b in
  MkBlockContext (MkRequestBeginBlock chainId (rb_Height bi) (rb_Time bi) (rb_ProposerAddress bi)
      (rb_Byzantines bi) (rb_Votes bi))
    (bc_blockSizeLimit b) (bc_blockGasLimit b) (bc_blockGasPool b) (bc_feeSum b) (bc_txsCnt b)
    (bc_appHash b) (bc_ValUpdates b).

Definition getBlockGasUsed b : Z := i64 (bc_blockGasLimit b - i64 (gas_Gas (bc_blockGasPool b))).
Definition GetBlockGasRemained b : Z := i64 (gas_Gas (bc_blockGasPool b)).

Definition UseBlockGas (gas : Z) b : outcome (BlockContext GP) :=
  match gas_Sub (bc_blockGasPool b) (u64 gas) with
  | Ok pool => Ok (set_gas (bc_blockGasLimit b) pool b)
  | Err e => Err (Wrap ErrInvalidGas e)
  | Panic => Panic
  end.

Definition RefundBlockGas (gas : Z) b : outcome (BlockContext GP) :=
  obind (gas_Add (bc_blockGasPool b) (u64 gas)) (fun pool =>
  if bc_blockGasLimit b <? i64 (gas_Gas pool) then Panic
  else Ok (set_gas (bc_blockGasLimit b) pool b)).

(** The governance handler gives the limits. *)
Definition NewBlockContext (bi : RequestBeginBlock) (gp : GovParamsProto) : outcome (BlockContext GP) :=
  setBlockGasLimit (GovParams.BlockGasLimit gp)
    (SetBlockSizeLimit (GovParams.BlockSizeLimit gp) (MkBlockContext bi 0 0 gas_new 0 0 [] [])).

Definition ExpectNextBlockContext (last : BlockContext GP) (blockIntval : Z) (gp : GovParamsProto)
    : outcome (BlockContext GP) :=
  NewBlockContext (MkRequestBeginBlock (bc_ChainID last) (i64 (bc_Height last + 1))
    (rb_Time (bc_blockInfo last) + blockIntval) [] [] []) gp.

(** ** Storing a block context

    [MarshalJSON] and [UnmarshalJSON] go through an anonymous structure; the
    JSON text itself is a parameter where the structure is stored. *)
Record blockContextJson := MkBlockContextJson {
  bj_BlockInfo : RequestBeginBlock;
  bj_BlockSizeLimit : Z;
  bj_BlockGasLimit : Z;
  bj_BlockGasUsed : Z;
  bj_FeeSum : Z;
  bj_TxsCnt : Z;
  bj_AppHash : bytes;
}.

Definition bctx_toJson b : blockContextJson :=
  MkBlockContextJson (bc_blockInfo b) (bc_blockSizeLimit b) (bc_blockGasLimit b) (getBlockGasUsed b)
    (bc_feeSum b) (bc_txsCnt b) (bc_appHash b).

(** The validator updates of the receiver, a new context, are left as they are. *)
Definition bctx_fromJson (j : blockContextJson) : outcome (BlockContext GP) :=
  obind (gas_Add gas_new (u64 (i64 (bj_BlockGasLimit j - bj_BlockGasUsed j)))) (fun pool =>
  Ok (MkBlockContext (bj_BlockInfo j) (bj_BlockSizeLimit j) (bj_BlockGasLimit j) pool (bj_FeeSum j)
    (bj_TxsCnt j) (bj_AppHash j) [])).

End BlockContexts.

(** ** Transaction contexts *)

Class TmHash : Type := tm_Hash : bytes -> bytes.

(** What a controller's [ValidateTrx] leaves for its [ExecuteTrx]. *)
Inductive ValidateResult : Type :=
| NoResult
| BondingResult (opt : bondingTrxOpt)
| RewardResult (rwd : loc).

(** An event: its type, and its attributes with their index flags. *)
Record Event := MkEvent {
  ev_Type : bytes;
  ev_Attributes : list (bytes * bytes * bool);
}.

Record TrxContext := MkTrxContext {
  tc_Tx : Trx;
  tc_TxIdx : Z;
  tc_TxHash : bytes;
  tc_Exec : bool;
  tc_SenderPubKey : bytes;
  tc_Sender : loc;
  tc_Receiver : loc;
  tc_Payer : loc;
  tc_GasUsed : Z;
  tc_RetData : bytes;
  tc_Events : list Event;
  tc_ValidateResult : ValidateResult;
}.

Definition set_GasUsed (g : Z) (c : TrxContext) : TrxContext :=
  MkTrxContext (tc_Tx c) (tc_TxIdx c) (tc_TxHash c) (tc_Exec c) (tc_SenderPubKey c) (tc_Sender c)
    (tc_Receiver c) (tc_Payer c) g (tc_RetData c) (tc_Events c) (tc_ValidateResult c).

Definition set_RetData (d : bytes) (c : TrxContext) : TrxContext :=
  MkTrxContext (tc_Tx c) (tc_TxIdx c) (tc_TxHash c) (tc_Exec c) (tc_SenderPubKey c) (tc_Sender c)
    (tc_Receiver c) (tc_Payer c) (tc_GasUsed c) d (tc_Events c) (tc_ValidateResult c).

Definition add_Events (evs : list Event) (c : TrxContext) : TrxContext :=
  MkTrxContext (tc_Tx c) (tc_TxIdx c) (tc_TxHash c) (tc_Exec c) (tc_SenderPubKey c) (tc_Sender c)
    (tc_Receiver c) (tc_Payer c) (tc_GasUsed c) (tc_RetData c) (tc_Events c ++ evs) (tc_ValidateResult c).

Definition set_Result (r : ValidateResult) (c : TrxContext) : TrxContext :=
  MkTrxContext (tc_Tx c) (tc_TxIdx c) (tc_TxHash c) (tc_Exec c) (tc_SenderPubKey c) (tc_Sender c)
    (tc_Receiver c) (tc_Payer c) (tc_GasUsed c) (tc_RetData c) (tc_Events c) r.

Section TrxContexts.
Context {A : Type} `{IAccountHandler A}.
Context `{TrxProtos, CryptoLib, RlpLib, TmHash}.

(** The checks of [NewTrxContext] that do not look at the accounts: the decoded
    transaction, the key of the sender and the address of the payer, empty when
    nobody else pays. *)
Definition open_trx (sg : Signers) (gp : GovParamsProto) (txbz : bytes)
    : outcome (Trx * bytes * Address) :=
  obind (tx_Decode txbz) (fun tx =>
  obind (Validate tx) (fun _ =>
  if tx_Gas tx <? GovParams.MinTrxGas gp
  then Err (Wrapf ErrInvalidGas "the tx has too small gas (min: %v)")
  else if negb (uCmp (tx_GasPrice tx) (GovParams.GasPrice gp) =? 0) then Err ErrInvalidGasPrice
  else
    obind (VerifyTrxRLP sg tx) (fun '(_, pubKey) =>
    if bytes_Equal (tx_PayerSig tx) [] then Ok (tx, pubKey, [])
    else
      match VerifyPayerTrxRLP sg tx with
      | Ok (payerAddr, _) => Ok (tx, pubKey, payerAddr)
      | Err e => Err (Wrap e (GoError "payer signature is invalid"))
      | Panic => Panic
      end))).

(** The account objects of a transaction: sender, receiver and payer. *)
Definition find_parties (tx : Trx) (payerAddr : Address) (exec : bool) : M A (loc * loc * loc) :=
  let! s := FindAccount (tx_From tx) exec in
  match s with
  | None => throw (Wrapf ErrNotFoundAccount "sender address: %v")
  | Some sender =>
      let toAddr := if bytes_Equal (tx_To tx) [] then ZeroAddress else tx_To tx in
      let! receiver := FindOrNewAccount toAddr exec in
      if bytes_Equal payerAddr [] then ret (sender, receiver, sender)
      else
        let! p := FindAccount payerAddr exec in
        match p with
        | None => throw (Wrapf ErrNotFoundAccount "payer address: %v")
        | Some payer => ret (sender, receiver, payer)
        end
  end.

Definition NewTrxContext (sg : Signers) (gp : GovParamsProto) (txsCnt : Z) (txbz : bytes) (exec : bool)
    : M A TrxContext :=
  let! r := lift (open_trx sg gp txbz) in
  let '(tx, pubKey, payerAddr) := r in
  let! ls := find_parties tx payerAddr exec in
  let '(sender, receiver, payer) := ls in
  ret (MkTrxContext tx txsCnt (tm_Hash txbz) exec pubKey sender receiver payer 0 [] [] NoResult).

(** The root of the tree of the attributes of all events. *)
Definition EventRoot (ctx : TrxContext) : option bytes :=
  if (length (tc_Events ctx) =? 0)%nat then None
  else
    let leaves := flat_map (fun evt => map (fun '(key, value, _) => Some (ev_Type evt ++ key ++ value))
                              (ev_Attributes evt)) (tc_Events ctx) in
    Root (newMerkleTree leaves false).

(** The receiver of a transfer decides by its code. *)
Definition IsHandledByEVM (ctx : TrxContext) : M A bool :=
  if GetType (tc_Tx ctx) =? TRX_CONTRACT then ret true
  else if GetType (tc_Tx ctx) =? TRX_TRANSFER then
    let! r := acct_get (tc_Receiver ctx) in
    ret (negb (bytes_Equal (acct_Code r) []))
  else ret false.

End TrxContexts.
