(* ===== verification/MetaDB.v ===== *)
(** * MetaDB: the node's own database

    [node/meta_db.go]: the context of the last block, the number of
    transactions and the sum of the fees.  The counters are kept in memory and
    written through, so opening the database again gives them back.  The
    key-value database is tm-db's ([TmDB], its documented behaviour in
    [TmDBLaws]); the JSON text of a block context is a parameter ([BctxJson]). *)
From stdpp Require Import base gmap list strings.
From Stdlib Require Import ZArith Lia.
From S2P Require Import Prelude XErrors GoMonad LedgerKeys Units HexBytes TrxCtx.

Class TmDB (D : Type) : Type := {
  db_Get : D -> bytes -> outcome (option bytes);
  db_SetSync : D -> bytes -> bytes -> outcome D;
}.

(** Both calls may fail; a value that was set is read back until its key is set
    again. *)
Class TmDBLaws (D : Type) `{TmDB D} : Prop := {
  db_no_panic : forall d k v, db_SetSync d k v <> Panic;
  db_get_set : forall d k v d', db_SetSync d k v = Ok d' -> db_Get d' k = Ok (Some v);
  db_get_other : forall d k v d' k', db_SetSync d k v = Ok d' -> k' <> k -> db_Get d' k' = db_Get d k';
}.

Class BctxJson : Type := {
  bctx_json : blockContextJson -> outcome bytes;
  bctx_unjson : bytes -> outcome blockContextJson;
}.

Definition keyBlockContext : bytes := text "bc".
Definition keyTxn : bytes := text "xn".
Definition keyTxFee : bytes := text "xf".
#[local] Arguments keyBlockContext : simpl never.
#[local] Arguments keyTxn : simpl never.
#[local] Arguments keyTxFee : simpl never.
#[local] Arguments put_be : simpl never.
#[local] Arguments uBytes : simpl never.

Record MetaDB (D : Type) := MkMetaDB {
  mdb_db : D;
  mdb_txn : Z;
  mdb_totalTxFee : Z;
}.
Arguments MkMetaDB {D} _ _ _.
Arguments mdb_db {D} _.
Arguments mdb_txn {D} _.
Arguments mdb_totalTxFee {D} _.

Section MetaDB.
Context {D : Type} `{TmDB D, BctxJson}.
Context {GP : Type} `{GasPoolLib GP}.

(** A failed read is a missing value. *)
Definition mdb_get (db : D) (k : bytes) : option bytes :=
  match db_Get db k with Ok v => v | _ => None end.

(** [OpenMetaDB] on an open database; [binary.BigEndian.Uint64] panics on a
    value shorter than eight bytes. *)
Definition OpenMetaDB (db : D) : outcome (MetaDB D) :=
  obind (match mdb_get db keyTxn with
         | Some v => if (length v <? 8)%nat then Panic else Ok (get_be (take 8 v) 0)
         | None => Ok 0
         end) (fun txn =>
  let fee := match mdb_get db keyTxFee with Some v => uSetBytes v | None => 0 end in
  Ok (MkMetaDB db txn fee)).

(** A text that does not parse is a missing context. *)
Definition LastBlockContext (m : MetaDB D) : outcome (option (BlockContext GP)) :=
  match mdb_get (mdb_db m) keyBlockContext with
  | None => Ok None
  | Some bz =>
      match obind (bctx_unjson bz) bctx_fromJson with
      | Ok b => Ok (Some b)
      | Err _ => Ok None
      | Panic => Panic
      end
  end.

Definition PutLastBlockContext (b : BlockContext GP) : M (MetaDB D) unit :=
  let! bz := lift (bctx_json (bctx_toJson b)) in
  let! m := gets id in
  let! db := lift (db_SetSync (mdb_db m) keyBlockContext bz) in
  modify (fun m => MkMetaDB db (mdb_txn m) (mdb_totalTxFee m)).

Definition PutTxn (n : Z) : M (MetaDB D) unit :=
  let! m := gets id in
  let! db := lift (db_SetSync (mdb_db m) keyTxn (put_be 8 n)) in
  modify (fun m => MkMetaDB db n (mdb_totalTxFee m)).

Definition PutTotalTxFee (f : Z) : M (MetaDB D) unit :=
  let! m := gets id in
  let! db := lift (db_SetSync (mdb_db m) keyTxFee (uBytes f)) in
  modify (fun m => MkMetaDB db (mdb_txn m) f).

(** ** Opening again *)

(** The counters in memory are those of the database. *)
Definition mdb_synced (m : MetaDB D) : Prop := OpenMetaDB (mdb_db m) = Ok m.

Context `{!TmDBLaws D}.

Lemma mdb_get_set d k v d' : db_SetSync d k v = Ok d' -> mdb_get d' k = Some v.
Proof. intros Hs. unfold mdb_get. by rewrite (db_get_set _ _ _ _ Hs). Qed.

Lemma mdb_get_other d k v d' k' : db_SetSync d k v = Ok d' -> k' <> k -> mdb_get d' k' = mdb_get d k'.
Proof. intros Hs Hk. unfold mdb_get. by rewrite (db_get_other _ _ _ _ k' Hs Hk). Qed.

Lemma synced_fields m db' :
  mdb_synced m -> mdb_get db' keyTxn = mdb_get (mdb_db m) keyTxn ->
  mdb_get db' keyTxFee = mdb_get (mdb_db m) keyTxFee ->
  OpenMetaDB db' = Ok (MkMetaDB db' (mdb_txn m) (mdb_totalTxFee m)).
Proof.
  unfold mdb_synced, OpenMetaDB. intros Hm -> ->. destruct m as [d t f]; cbn in *.
  destruct (match mdb_get d keyTxn with Some _ => _ | None => _ end); cbn in *; by simplify_eq.
Qed.

(** Writing one key leaves the others. *)
Lemma synced_set_bctx m bz db' :
  mdb_synced m -> db_SetSync (mdb_db m) keyBlockContext bz = Ok db' ->
  mdb_synced (MkMetaDB db' (mdb_txn m) (mdb_totalTxFee m)).
Proof.
  intros Hm Hs. unfold mdb_synced; cbn [mdb_db].
  apply synced_fields; [done| |]; apply (mdb_get_other _ _ _ _ _ Hs); done.
Qed.

Lemma synced_PutLastBlockContext b m : mdb_synced m -> mdb_synced (snd (PutLastBlockContext b m)).
Proof.
  intros Hm. unfold PutLastBlockContext, bind, lift, gets, modify; cbn.
  destruct (bctx_json _) as [bz|e|]; [|done..]. cbn.
  destruct (db_SetSync _ _ _) as [db'|e|] eqn:Hs; [|done..]. by apply (synced_set_bctx _ bz).
Qed.

Lemma synced_PutTxn n m : 0 <= n < 2 ^ 64 -> mdb_synced m -> mdb_synced (snd (PutTxn n m)).
Proof.
  intros Hn Hm. unfold PutTxn, bind, lift, gets, modify; cbn.
  destruct (db_SetSync _ _ _) as [db'|e|] eqn:Hs; [|done..]. cbn.
  unfold mdb_synced in *; cbn [mdb_db]. revert Hm. unfold OpenMetaDB.
  rewrite (mdb_get_set _ _ _ _ Hs), (mdb_get_other _ _ _ _ keyTxFee Hs) by done.
  rewrite length_put_be, (take_ge (put_be 8 n)) by (rewrite length_put_be; done).
  cbn [Nat.ltb Nat.leb obind]. rewrite get_put_be. change (256 ^ Z.of_nat 8) with (2 ^ 64).
  rewrite Z.mod_small by done. intros Hm.
  destruct (match mdb_get (mdb_db m) keyTxn with Some _ => _ | None => _ end); cbn in Hm; [|done..].
  destruct m as [d t f]; cbn in *. by simplify_eq.
Qed.

Lemma synced_PutTotalTxFee f m : in_u256 f -> mdb_synced m -> mdb_synced (snd (PutTotalTxFee f m)).
Proof.
  intros Hf Hm. unfold PutTotalTxFee, bind, lift, gets, modify; cbn.
  destruct (db_SetSync _ _ _) as [db'|e|] eqn:Hs; [|done..]. cbn.
  unfold mdb_synced in *; cbn [mdb_db]. revert Hm. unfold OpenMetaDB.
  rewrite (mdb_get_set _ _ _ _ Hs), (mdb_get_other _ _ _ _ keyTxn Hs), uSetBytes_uBytes by done.
  intros Hm. destruct (match mdb_get (mdb_db m) keyTxn with Some _ => _ | None => _ end); cbn in *; [|done..].
  destruct m as [d t g]; cbn in *. by simplify_eq.
Qed.

(** The stored context. *)
Definition stored_bctx (m : MetaDB D) : option bytes := mdb_get (mdb_db m) keyBlockContext.

Lemma stored_PutLastBlockContext b m :
  fst (PutLastBlockContext b m) = Ok tt ->
  exists bz, bctx_json (bctx_toJson b) = Ok bz /\ stored_bctx (snd (PutLastBlockContext b m)) = Some bz.
Proof.
  unfold PutLastBlockContext, bind, lift, gets, modify; cbn.
  destruct (bctx_json _) as [bz|e|]; [|done..]. cbn.
  destruct (db_SetSync _ _ _) as [db'|e|] eqn:Hs; [|done..]. intros _. exists bz. split; [done|].
  exact (mdb_get_set _ _ _ _ Hs).
Qed.

Lemma stored_PutTxn n m : stored_bctx (snd (PutTxn n m)) = stored_bctx m.
Proof.
  unfold PutTxn, bind, lift, gets, modify; cbn.
  destruct (db_SetSync _ _ _) as [db'|e|] eqn:Hs; [|done..]. exact (mdb_get_other _ _ _ _ keyBlockContext Hs ltac:(done)).
Qed.

Lemma stored_PutTotalTxFee f m : stored_bctx (snd (PutTotalTxFee f m)) = stored_bctx m.
Proof.
  unfold PutTotalTxFee, bind, lift, gets, modify; cbn.
  destruct (db_SetSync _ _ _) as [db'|e|] eqn:Hs; [|done..]. exact (mdb_get_other _ _ _ _ keyBlockContext Hs ltac:(done)).
Qed.

End MetaDB.

(** A concrete database for the witnesses. *)
#[local] Instance bytes_map_db : TmDB (gmap bytes bytes) := {
  db_Get d k := Ok (d !! k);
  db_SetSync d k v := Ok (<[k := v]> d);
}.

Lemma bytes_map_db_laws : TmDBLaws (gmap bytes bytes).
Proof.
  split; cbn.
  - done.
  - intros d k v d' Hd. injection Hd as <-. by rewrite lookup_insert_eq.
  - intros d k v d' k' Hd Hk. injection Hd as <-. by rewrite lookup_insert_ne.
Qed.
