(* ===== verification/TrxExecutor.v ===== *)
(** * TrxExecutor: validating and running a transaction

    [node/trx_executor.go].  A transaction that has a context is validated
    against the gas left in the block and the accounts, given to the controller
    of its type, and then charged: fee and nonce are handled after the
    controller, also when a delivered transaction failed.  The controllers of
    the application are the record [Chain]; [XState] adds the block context and
    the context of the transaction, which the controllers write to.  The
    virtual machine's controller is reached through its interface
    ([IEVMHandler]). *)
From stdpp Require Import base gmap list strings.
From Stdlib Require Import ZArith Lia.
From S2P Require Import Prelude XErrors GoMonad LedgerKeys Iavl Ledger Units Proto GovParams.
From S2P Require Import Account TrxTypes Signer AcctCtrler VPowerItems VPowerCtrler.
From S2P Require Import Proposal GovCtrler Numbers SupplyCtrler TrxCtx.

Record Chain (T I E : Type) := MkChain {
  ch_gov : GovCtrler T I;
  ch_acct : AcctCtrler T I;
  ch_vp : VPowerCtrler T I;
  ch_sup : SupplyCtrler T I;
  ch_evm : E;
}.
Arguments MkChain {T I E} _ _ _ _ _.
Arguments ch_gov {T I E} _.
Arguments ch_acct {T I E} _.
Arguments ch_vp {T I E} _.
Arguments ch_sup {T I E} _.
Arguments ch_evm {T I E} _.

Record XState (T I E GP : Type) := MkXState {
  x_ctx : TrxContext;
  x_bctx : BlockContext GP;
  x_chain : Chain T I E;
}.
Arguments MkXState {T I E GP} _ _ _.
Arguments x_ctx {T I E GP} _.
Arguments x_bctx {T I E GP} _.
Arguments x_chain {T I E GP} _.

(** The virtual machine's controller works on its own state, the accounts, the
    gas pool of the block and the context of the transaction. *)
Abbreviation EVMView E GP A := (E * A * (BlockContext GP * TrxContext))%type.

Class IEVMHandler (E GP A : Type) : Type := {
  evm_ValidateTrx : M (EVMView E GP A) unit;
  evm_ExecuteTrx : M (EVMView E GP A) unit;
  evm_BeginBlock : BlockContext GP -> GovParamsProto -> M (E * A) unit;
  evm_EndBlock : M (E * A) unit;
  evm_Commit : M (E * A) (bytes * Z);
}.

#[local] Obligation Tactic := idtac.

Section Lenses.
Context {T I E GP : Type}.
Abbreviation C := (Chain T I E).
Abbreviation X := (XState T I E GP).

Program Definition chain_lens : lens X C :=
  Lens x_chain (fun c s => MkXState (x_ctx s) (x_bctx s) c) _ _ _.
Next Obligation. done. Qed.
Next Obligation. now intros []. Qed.
Next Obligation. done. Qed.

Program Definition gov_of : lens C (GovCtrler T I) :=
  Lens ch_gov (fun g c => MkChain g (ch_acct c) (ch_vp c) (ch_sup c) (ch_evm c)) _ _ _.
Next Obligation. done. Qed.
Next Obligation. now intros []. Qed.
Next Obligation. done. Qed.

Program Definition acct_of : lens C (AcctCtrler T I) :=
  Lens ch_acct (fun a c => MkChain (ch_gov c) a (ch_vp c) (ch_sup c) (ch_evm c)) _ _ _.
Next Obligation. done. Qed.
Next Obligation. now intros []. Qed.
Next Obligation. done. Qed.

(** The voting power controller and the supply controller with the accounts
    they pay. *)
Program Definition vp_acct_of : lens C (VPowerCtrler T I * AcctCtrler T I) :=
  Lens (fun c => (ch_vp c, ch_acct c))
    (fun p c => MkChain (ch_gov c) (snd p) (fst p) (ch_sup c) (ch_evm c)) _ _ _.
Next Obligation. now intros []. Qed.
Next Obligation. now intros []. Qed.
Next Obligation. done. Qed.

Program Definition sup_acct_of : lens C (SupplyCtrler T I * AcctCtrler T I) :=
  Lens (fun c => (ch_sup c, ch_acct c))
    (fun p c => MkChain (ch_gov c) (snd p) (ch_vp c) (fst p) (ch_evm c)) _ _ _.
Next Obligation. now intros []. Qed.
Next Obligation. now intros []. Qed.
Next Obligation. done. Qed.

Program Definition evm_acct_of : lens C (E * AcctCtrler T I) :=
  Lens (fun c => (ch_evm c, ch_acct c))
    (fun p c => MkChain (ch_gov c) (snd p) (ch_vp c) (ch_sup c) (fst p)) _ _ _.
Next Obligation. now intros []. Qed.
Next Obligation. now intros []. Qed.
Next Obligation. done. Qed.

Program Definition evm_view : lens X (EVMView E GP (AcctCtrler T I)) :=
  Lens (fun s => (ch_evm (x_chain s), ch_acct (x_chain s), (x_bctx s, x_ctx s)))
    (fun v s => MkXState (snd (snd v)) (fst (snd v)) (lset evm_acct_of (fst v) (x_chain s))) _ _ _.
Next Obligation. now intros [[] []]. Qed.
Next Obligation. now intros [? ? []]. Qed.
Next Obligation. done. Qed.

Definition set_bctx (b : BlockContext GP) (s : X) : X := MkXState (x_ctx s) b (x_chain s).
Definition on_ctx (f : TrxContext -> TrxContext) (s : X) : X := MkXState (f (x_ctx s)) (x_bctx s) (x_chain s).

End Lenses.

Section TrxExecutor.
Context {T I : Type} `{Iavl T I}.
Context `{Proto AcctProto, GovProtos, GovJson, VPowerProtos, SupplyProtos, CryptoLib}.
Context {GP : Type} `{GasPoolLib GP}.
Context {E : Type} `{!IEVMHandler E GP (AcctCtrler T I)}.
Abbreviation X := (XState T I E GP).
Abbreviation XM := (M (XState T I E GP)).

Definition x_acct {B} (m : M (AcctCtrler T I) B) : XM B := zoom (lens_comp chain_lens acct_of) m.
Definition x_gov {B} (m : M (GovCtrler T I) B) : XM B := zoom (lens_comp chain_lens gov_of) m.
Definition x_vp {B} (m : M (VPowerCtrler T I * AcctCtrler T I) B) : XM B := zoom (lens_comp chain_lens vp_acct_of) m.
Definition x_sup {B} (m : M (SupplyCtrler T I * AcctCtrler T I) B) : XM B := zoom (lens_comp chain_lens sup_acct_of) m.

Definition x_govParams : XM GovParamsProto := gets (fun s => govParams (ch_gov (x_chain s))).
Definition x_height : XM Z := gets (fun s => bc_Height (x_bctx s)).

Definition commonValidation : XM unit :=
  let! ctx := gets x_ctx in
  let! remainedBlockGas := gets (fun s => GetBlockGasRemained (x_bctx s)) in
  let tx := tc_Tx ctx in
  if (remainedBlockGas <=? 0) || (remainedBlockGas <? tx_Gas tx)
  then throw (Wrapf ErrInvalidGas "blockGasLimit(%v), used(%v), remained(%v), txGasWanted(%v)")
  else
    let feeAmt := umul (tx_GasPrice tx) (u256_of_int (tx_Gas tx)) in
    let! sender := x_acct (acct_get (tc_Sender ctx)) in
    let! payer := x_acct (acct_get (tc_Payer ctx)) in
    (if negb (bytes_Compare (acct_Address sender) (acct_Address payer) =? 0)
     then lift (CheckBalance payer feeAmt) ;;; lift (CheckBalance sender (tx_Amount tx))
     else lift (CheckBalance sender (uadd feeAmt (tx_Amount tx)))) ;;;
    match CheckNonce sender (tx_Nonce tx) with
    | Err e => throw (Wrap e (GoError "ledger: %v, tx:%v, address: %v, txhash: %X"))
    | o => lift o
    end.

Definition is_gov_type (t : Z) : bool := (t =? TRX_PROPOSAL) || (t =? TRX_VOTING).
Definition is_acct_type (t : Z) : bool := (t =? TRX_TRANSFER) || (t =? TRX_SETDOC).
Definition is_vpower_type (t : Z) : bool := (t =? TRX_STAKING) || (t =? TRX_UNSTAKING).

(** Is the address one of the last validators? *)
Definition is_validator (vp : VPowerCtrler T I) (addr : Address) : bool :=
  match fst (IsValidator addr vp) with Ok b => b | _ => false end.

(** The controller of the type validates and leaves its result in the context. *)
Definition validateTrx : XM unit :=
  commonValidation ;;;
  let! ctx := gets x_ctx in
  let! gp := x_govParams in
  let! height := x_height in
  let tx := tc_Tx ctx in
  let t := GetType tx in
  if is_gov_type t then
    let! vp := gets (fun s => ch_vp (x_chain s)) in
    x_gov (gov_ValidateTrx (is_validator vp) tx (tc_TxHash ctx) height (tc_Exec ctx))
  else if is_acct_type t then lift (acct_ValidateTrx tx)
  else if t =? TRX_WITHDRAW then
    let! l := x_sup (zoom fst_lens (supply_ValidateTrx tx (tc_Exec ctx))) in
    modify (on_ctx (set_Result (RewardResult l)))
  else if is_vpower_type t then
    let! opt := x_vp (zoom fst_lens (vpower_ValidateTrx gp tx (tc_Exec ctx))) in
    modify (on_ctx (set_Result (BondingResult opt)))
  else if t =? TRX_CONTRACT then zoom evm_view evm_ValidateTrx
  else throw ErrUnknownTrxType.

(** The call of the controller in [runTrx], for a known type; [panic] is a
    failed type assertion on the result of the validation. *)
Definition execTrx : XM unit :=
  let! ctx := gets x_ctx in
  let! gp := x_govParams in
  let! height := x_height in
  let tx := tc_Tx ctx in
  let t := GetType tx in
  if t =? TRX_CONTRACT then zoom evm_view evm_ExecuteTrx
  else if is_gov_type t then
    let! vt := (if t =? TRX_PROPOSAL then x_vp (zoom fst_lens Validators) else ret ([], 0)) in
    x_gov (gov_ExecuteTrx (fst vt) (snd vt) tx (tc_TxHash ctx) (tc_Exec ctx))
  else if is_acct_type t then
    let! byEVM := x_acct (IsHandledByEVM ctx) in
    if byEVM then zoom evm_view evm_ExecuteTrx
    else x_acct (acct_ExecuteTrx tx (tc_Sender ctx) (Some (tc_Receiver ctx)) (tc_Exec ctx))
  else if t =? TRX_WITHDRAW then
    match tc_ValidateResult ctx with
    | RewardResult l => x_sup (supply_ExecuteTrx tx l height (tc_Exec ctx))
    | _ => panic
    end
  else
    match tc_ValidateResult ctx with
    | BondingResult opt =>
        x_vp (vpower_ExecuteTrx gp tx opt (tc_SenderPubKey ctx) (tc_Sender ctx) height (tc_TxHash ctx)
                (tc_Exec ctx))
    | _ => panic
    end.

Definition known_type (t : Z) : bool :=
  is_gov_type t || is_acct_type t || (t =? TRX_WITHDRAW) || is_vpower_type t || (t =? TRX_CONTRACT).

(** Gas, fee and nonce. *)
Definition postRunTrx : XM unit :=
  let! ctx0 := gets x_ctx in
  let! byEVM := x_acct (IsHandledByEVM ctx0) in
  (if byEVM then ret tt
   else
     modify (on_ctx (set_GasUsed (tx_Gas (tc_Tx ctx0)))) ;;;
     ignore (let! b := gets x_bctx in
             let! b' := lift (UseBlockGas (tx_Gas (tc_Tx ctx0)) b) in
             modify (set_bctx b'))) ;;;
  let! ctx := gets x_ctx in
  let fee := GasToFee (tc_GasUsed ctx) (tx_GasPrice (tc_Tx ctx)) in
  x_acct (acct_update (tc_Payer ctx) (fun a => SubBalance a fee)) ;;;
  x_acct (acct_update (tc_Sender ctx) (fun a => Ok (AddNonce a))) ;;;
  x_acct (SetAccount (tc_Sender ctx) (tc_Exec ctx)) ;;;
  let! sender := x_acct (acct_get (tc_Sender ctx)) in
  let! payer := x_acct (acct_get (tc_Payer ctx)) in
  if negb (bytes_Compare (acct_Address sender) (acct_Address payer) =? 0)
  then x_acct (SetAccount (tc_Payer ctx) (tc_Exec ctx))
  else ret tt.

(** The deferred function assigns to a local variable and not to the result, so
    what [postRunTrx] returns is lost; for an unknown type the variable is nil
    and [postRunTrx] runs. *)
Definition runTrx : XM unit :=
  let! ctx := gets x_ctx in
  if known_type (GetType (tc_Tx ctx)) then
    let! xerr := try execTrx in
    (if tc_Exec ctx || (match xerr with inl _ => true | inr _ => false end)
     then ignore postRunTrx else ret tt) ;;;
    untry xerr
  else ignore postRunTrx ;;; throw ErrUnknownTrxType.

Definition ExecuteSync : XM unit := validateTrx ;;; runTrx.

End TrxExecutor.
