(* ===== verification/Bank.v ===== *)
(** * Bank: a delivered transfer, abstractly

    What a transfer does to the accounts, the gas left in the block and the
    fees, without objects, caches and the order of writes ([bank_transfer]),
    and the theorem that running it through the executor does exactly this.
    The executor works on account objects it was given pointers to when the
    context was made; [views] relates a map of such pointers to the accounts.
    The second part is the preparation of a block's transactions. *)
From stdpp Require Import base gmap list strings.
From Stdlib Require Import ZArith Lia.
From S2P Require Import Prelude XErrors GoMonad LedgerKeys Iavl Ledger LedgerSpec LedgerOps.
From S2P Require Import Units Proto GovParams Account TrxTypes Signer AcctCtrler AcctSpec AcctProps.
From S2P Require Import VPowerItems VPowerCtrler Proposal GovCtrler Numbers SupplyCtrler.
From S2P Require Import TrxCtx TrxExecutor.

(** ** The abstract bank *)

Record bank := MkBank {
  bk_accts : accts_map;
  bk_gas : Z;          (* left in the block *)
  bk_fees : Z;         (* of the block, so far *)
}.

Definition fee_of (tx : Trx) : Z := tx_Gas tx * tx_GasPrice tx.

Definition bump (m : accts_map) (addr : Address) : accts_map := store_acct m (AddNonce (acct_at m addr)).

Definition affordable (m : accts_map) (tx : Trx) (payer : Address) : bool :=
  if bool_decide (payer = tx_From tx) then fee_of tx + tx_Amount tx <=? bal m (tx_From tx)
  else (fee_of tx <=? bal m payer) && (tx_Amount tx <=? bal m (tx_From tx)).

Definition acceptable (b : bank) (tx : Trx) (payer : Address) : bool :=
  (0 <? bk_gas b) && (tx_Gas tx <=? bk_gas b) && affordable (bk_accts b) tx payer &&
  (acct_Nonce (acct_at (bk_accts b) (tx_From tx)) =? tx_Nonce tx).

(** The amount moves, the payer pays the fee, the sender's nonce goes up. *)
Definition bank_transfer (b : bank) (tx : Trx) (payer : Address) : option bank :=
  if acceptable b tx payer then
    Some (MkBank
      (bump (debit (credit (debit (bk_accts b) (tx_From tx) (tx_Amount tx)) (tx_To tx) (tx_Amount tx))
              payer (fee_of tx)) (tx_From tx))
      (bk_gas b - tx_Gas tx) (bk_fees b + fee_of tx))
  else None.

(** Nobody's code changes. *)
Lemma code_store_same (m : accts_map) (y : Account) addr :
  acct_Code y = acct_Code (acct_at m (acct_Address y)) ->
  acct_Code (acct_at (store_acct m y) addr) = acct_Code (acct_at m addr).
Proof.
  intros Hc. destruct (decide (acct_Address y = addr)) as [<-|Hne].
  - by rewrite acct_at_store_eq.
  - by rewrite acct_at_store_ne.
Qed.

Lemma code_credit `{Utf8} m a amt addr : accts_ok m -> acct_Code (acct_at (credit m a amt) addr) = acct_Code (acct_at m addr).
Proof. intros Hm. apply code_store_same. cbn. by rewrite acct_at_Address. Qed.
Lemma code_debit `{Utf8} m a amt addr : accts_ok m -> acct_Code (acct_at (debit m a amt) addr) = acct_Code (acct_at m addr).
Proof. intros Hm. apply code_store_same. cbn. by rewrite acct_at_Address. Qed.
Lemma code_bump `{Utf8} m a addr : accts_ok m -> acct_Code (acct_at (bump m a) addr) = acct_Code (acct_at m addr).
Proof. intros Hm. apply code_store_same. cbn. by rewrite acct_at_Address. Qed.

Lemma wp_also {St A} (f : M St A) (Q1 Q : outcome A -> St -> Prop) st :
  wp f Q1 st -> wp f (fun o st' => Q1 o st' -> Q o st') st -> wp f Q st.
Proof. unfold wp. auto. Qed.

(** ** Pointers to account objects *)

Section Views.
Context {T I : Type} `{Iavl T I, !IavlLaws T I}.
Context `{Utf8, Proto AcctProto, !ProtoLaws AcctProto AcctProto_ok}.
Implicit Types (s : AcctCtrler T I) (m v : accts_map) (D : gset bytes) (P : gmap Address loc).

(** The pointers of [P] are the objects of their addresses, with the accounts of
    [v]; the ledger has the accounts of [v] except at the keys in [D], and its
    cache has the pointers of the accounts it stores. *)
Record views P D s v : Prop := {
  vw_ledger : exists m, ainv D s m /\ (forall k, k ∉ D -> m !! k = v !! k) /\
    forall addr l, P !! addr = Some l -> is_Some (m !! LedgerKeyAccount addr) ->
      cached (acctState s) !! LedgerKeyAccount addr = Some l;
  vw_ptr : forall addr l, P !! addr = Some l -> length addr = AddrSize /\ cheld s l (acct_at v addr);
  vw_ok : accts_ok v;
}.

Lemma views_addr P D s v addr l : views P D s v -> P !! addr = Some l -> acct_Address (acct_at v addr) = addr.
Proof. intros HV _. apply acct_at_Address, HV. Qed.

Lemma views_wf P D s v addr l : views P D s v -> P !! addr = Some l -> acct_wf (acct_at v addr).
Proof. intros HV Hl. apply (vw_ptr _ _ _ _ HV _ _ Hl). Qed.

Lemma views_clean P s v : views P ∅ s v -> ainv ∅ s v.
Proof.
  intros HV. destruct (vw_ledger _ _ _ _ HV) as (m & HI & Hm & _).
  assert (m = v) as <-; [|done]. apply map_eq. intros k. apply Hm, not_elem_of_empty.
Qed.

Lemma views_dirty P D D' s v : views P D s v -> D = D' -> views P D' s v.
Proof. by intros HV <-. Qed.

Lemma wp_view_get P D s v addr l Q :
  views P D s v -> P !! addr = Some l -> Q (Ok (acct_at v addr)) s -> wp (acct_get l) Q s.
Proof. intros HV Hl HQ. cbn. apply (wp_a_deref s l (acct_at v addr)); [|done]. apply (vw_ptr _ _ _ _ HV _ _ Hl). Qed.

(** What changing and storing an object do to the cache. *)
Lemma a_update_cached s l f : wp (a_update l f) (fun _ s' => cached (acctState s') = cached (acctState s)) s.
Proof.
  apply wp_bind, wp_zoom, wp_zoom. unfold wp, deref. cbn. destruct (objs _ !! l) as [x|]; [|done]. cbn.
  unfold lift. destruct (f x); done.
Qed.

Lemma setAccount_cached D s m l x :
  ainv D s m -> cheld s l x ->
  wp (setAccount l true)
    (fun _ s' => cached (acctState s') = <[LedgerKeyAccount (acct_Address x) := l]> (cached (acctState s))) s.
Proof.
  intros HI Hl. apply wp_bind, (wp_a_deref s l x _ Hl), wp_zoom; cbn. destruct Hl as [[Hl Ho] Hwf].
  by apply (wp_Set D _ m _ l x); [apply (ainv_coh _ _ _ HI)|..].
Qed.

(** Changing an object makes its key dirty. *)
Lemma wp_view_update P D s v addr l f x' Q :
  views P D s v -> P !! addr = Some l -> f (acct_at v addr) = Ok x' -> acct_wf x' -> acct_Address x' = addr ->
  (forall s', views P (D ∪ {[LedgerKeyAccount addr]}) s' (store_acct v x') -> Q (Ok tt) s') ->
  wp (a_update l f) Q s.
Proof.
  intros HV Hl Hf Hwf Ha HQ. destruct (vw_ledger _ _ _ _ HV) as (m & HI & Hm & Hca).
  pose proof (views_addr _ _ _ _ _ _ HV Hl) as Hax. destruct (vw_ptr _ _ _ _ HV _ _ Hl) as [Hlen Hh].
  apply (wp_also _ _ _ _ (a_update_cached s l f)).
  apply (wp_a_update D s m l (acct_at v addr) f x'); [done..|congruence|].
  rewrite Hax. intros s' HI' Hh' Hfr _ Ec. apply HQ. split.
  - exists m. split; [done|]. split; [|intros addr' l'; rewrite Ec; apply Hca].
    intros k Hk. unfold store_acct. rewrite Ha.
    rewrite lookup_insert_ne by (intros <-; apply Hk; set_solver). apply Hm. set_solver.
  - intros addr' l' Hl'. destruct (vw_ptr _ _ _ _ HV _ _ Hl') as [Hlen' Hh2]. split; [done|].
    destruct (decide (addr' = addr)) as [->|Hne].
    + rewrite acct_at_store_eq by done. assert (l' = l) as -> by congruence. done.
    + rewrite acct_at_store_ne by congruence. apply Hfr; [done|].
      rewrite (views_addr _ _ _ _ _ _ HV Hl'). done.
  - apply accts_ok_store; [apply HV|done].
Qed.

(** Storing an object cleans its key; an account that was not stored is stored
    as it is. *)
Definition touch v (addr : Address) : accts_map := store_acct v (acct_at v addr).

Lemma touch_stored v addr : accts_ok v -> is_Some (v !! LedgerKeyAccount addr) -> touch v addr = v.
Proof.
  intros Hok [x Hx]. unfold touch, store_acct. rewrite acct_at_Address, (acct_at_some v addr x Hx) by done.
  by apply insert_id.
Qed.

Lemma touch_acct_at v addr a : accts_ok v -> acct_at (touch v addr) a = acct_at v a.
Proof.
  intros Hok. pose proof (acct_at_Address v addr Hok) as Ha. unfold touch.
  destruct (decide (addr = a)) as [<-|Hne]; [by rewrite acct_at_store_eq|]. rewrite acct_at_store_ne; [done|congruence].
Qed.

Lemma wp_view_touch P D s v addr l Q :
  views P D s v -> P !! addr = Some l ->
  (forall s', views P (D ∖ {[LedgerKeyAccount addr]}) s' (touch v addr) -> Q (Ok tt) s') ->
  wp (setAccount l true) Q s.
Proof.
  intros HV Hl HQ. destruct (vw_ledger _ _ _ _ HV) as (m & HI & Hm & Hca).
  pose proof (views_addr _ _ _ _ _ _ HV Hl) as Hax. destruct (vw_ptr _ _ _ _ HV _ _ Hl) as [Hlen Hh].
  apply (wp_also _ _ _ _ (setAccount_cached D s m l _ HI Hh)).
  apply (wp_setAccount D s m l (acct_at v addr)); [done..|]. rewrite Hax.
  intros s' HI' Hh' Hfr _ Ec. apply HQ. pose proof (vw_ok _ _ _ _ HV) as Hok.
  split; [|intros addr' l' Hl'; rewrite touch_acct_at by done; split; [apply (vw_ptr _ _ _ _ HV _ _ Hl')|
    apply Hfr, (vw_ptr _ _ _ _ HV _ _ Hl')]|apply accts_ok_store; [done|apply Hh]].
  eexists. split; [exact HI'|]. unfold touch, store_acct. rewrite Hax. split.
  - intros k Hk. destruct (decide (k = LedgerKeyAccount addr)) as [->|Hne].
    + by rewrite !lookup_insert_eq.
    + rewrite !lookup_insert_ne by done. apply Hm. set_solver.
  - intros addr' l' Hl'. rewrite Ec. destruct (decide (addr' = addr)) as [->|Hne].
    + intros _. rewrite lookup_insert_eq. congruence.
    + rewrite !lookup_insert_ne by (intros E; by apply LedgerKeyAccount_inj in E). by apply Hca.
Qed.

(** Storing an object the accounts of [v] have. *)
Lemma wp_view_set P D s v addr l Q :
  views P D s v -> P !! addr = Some l -> is_Some (v !! LedgerKeyAccount addr) ->
  (forall s', views P (D ∖ {[LedgerKeyAccount addr]}) s' v -> Q (Ok tt) s') ->
  wp (setAccount l true) Q s.
Proof.
  intros HV Hl Hx HQ. apply (wp_view_touch P D s v addr l Q HV Hl). intros s' HV'. apply HQ.
  rewrite touch_stored in HV'; [done|apply HV|done].
Qed.

Lemma is_Some_store v x addr : is_Some (v !! LedgerKeyAccount addr) -> is_Some (store_acct v x !! LedgerKeyAccount addr).
Proof. unfold store_acct. intros Hx. destruct (decide (LedgerKeyAccount (acct_Address x) = LedgerKeyAccount addr)) as [->|Hne];
  [rewrite lookup_insert_eq; eauto|by rewrite lookup_insert_ne]. Qed.

Lemma is_Some_stored v x addr : acct_Address x = addr -> is_Some (store_acct v x !! LedgerKeyAccount addr).
Proof. intros <-. unfold store_acct. rewrite lookup_insert_eq. eauto. Qed.

(** The same on amounts. *)
Lemma wp_view_debit P D s v addr l amt Q :
  views P D s v -> P !! addr = Some l -> 0 <= amt < 2 ^ 255 -> amt <= bal v addr ->
  (forall s', views P (D ∪ {[LedgerKeyAccount addr]}) s' (debit v addr amt) -> Q (Ok tt) s') ->
  wp (a_update l (fun a => SubBalance a amt)) Q s.
Proof.
  intros HV Hl Ha Hb HQ. pose proof (views_wf _ _ _ _ _ _ HV Hl) as Hwf. pose proof (wf_balance _ Hwf) as Hr.
  apply (wp_view_update P D s v addr l _ (SetBalance (acct_at v addr) (bal v addr - amt))); try done.
  - by apply SubBalance_ok.
  - apply acct_wf_SetBalance; [done|]. unfold in_u256, bal in *. lia.
  - apply (views_addr _ _ _ _ _ _ HV Hl).
Qed.

Lemma wp_view_credit P D s v addr l amt Q :
  views P D s v -> P !! addr = Some l -> 0 <= amt < 2 ^ 255 ->
  (forall s', views P (D ∪ {[LedgerKeyAccount addr]}) s' (credit v addr amt) -> Q (Ok tt) s') ->
  wp (a_update l (fun a => AddBalance a amt)) Q s.
Proof.
  intros HV Hl Ha HQ. pose proof (views_wf _ _ _ _ _ _ HV Hl) as Hwf.
  apply (wp_view_update P D s v addr l _ (SetBalance (acct_at v addr) (uadd (bal v addr) amt))); try done.
  - by apply AddBalance_ok.
  - apply acct_wf_SetBalance; [done|apply u256_range].
  - apply (views_addr _ _ _ _ _ _ HV Hl).
Qed.

Lemma wp_view_bump P D s v addr l Q :
  views P D s v -> P !! addr = Some l ->
  (forall s', views P (D ∪ {[LedgerKeyAccount addr]}) s' (bump v addr) -> Q (Ok tt) s') ->
  wp (a_update l (fun a => Ok (AddNonce a))) Q s.
Proof.
  intros HV Hl HQ. apply (wp_view_update P D s v addr l _ (AddNonce (acct_at v addr))); try done.
  - apply acct_wf_AddNonce, (views_wf _ _ _ _ _ _ HV Hl).
  - apply (views_addr _ _ _ _ _ _ HV Hl).
Qed.

End Views.

Section Executing.
Context {T I : Type} `{Iavl T I, !IavlLaws T I}.
Context `{Utf8, Proto AcctProto, !ProtoLaws AcctProto AcctProto_ok}.
Context `{GovProtos, GovJson, VPowerProtos, SupplyProtos, CryptoLib}.
Context {GP : Type} `{GasPoolLib GP, !GasPoolLaws GP}.
Context {E : Type} `{!IEVMHandler E GP (AcctCtrler T I)}.
Implicit Types (x : XState T I E GP) (P : gmap Address loc) (v : accts_map) (c : TrxContext).

(** A delivered context whose objects are those of [P], with sensible numbers. *)
Record native_ctx P (payer : Address) c : Prop := {
  xc_exec : tc_Exec c = true;
  xc_from : P !! tx_From (tc_Tx c) = Some (tc_Sender c);
  xc_to : P !! tx_To (tc_Tx c) = Some (tc_Receiver c);
  xc_payer : P !! payer = Some (tc_Payer c);
  xc_amount : 0 <= tx_Amount (tc_Tx c) < 2 ^ 255;
  xc_gas : 0 <= tx_Gas (tc_Tx c) < 2 ^ 63;
  xc_price : 0 <= tx_GasPrice (tc_Tx c);
  xc_fee : fee_of (tc_Tx c) < 2 ^ 255;
}.

(** That of a transfer. *)
Record transfer_ctx P (payer : Address) c : Prop := {
  xc_native :> native_ctx P payer c;
  xc_type : GetType (tc_Tx c) = TRX_TRANSFER;
}.

Definition acct_in x : AcctCtrler T I := ch_acct (x_chain x).
Definition gas_in x : Z := gas_Gas (bc_blockGasPool (x_bctx x)).

Lemma wp_x_acct {B} (m : M (AcctCtrler T I) B) Q x :
  wp m (fun o a => Q o (lset (lens_comp chain_lens acct_of) a x)) (acct_in x) -> wp (x_acct m) Q x.
Proof. apply wp_zoom. Qed.

Lemma wp_x_get P D v addr l Q x :
  views P D (acct_in x) v -> P !! addr = Some l -> Q (Ok (acct_at v addr)) x -> wp (x_acct (acct_get l)) Q x.
Proof.
  intros HV Hl HQ. apply wp_x_acct, (wp_view_get P D _ v addr l _ HV Hl).
  change (acct_in x) with (lget (lens_comp (@chain_lens T I E GP) acct_of) x). by rewrite lset_lget.
Qed.

Lemma u64_small n : 0 <= n < 2 ^ 63 -> u64 n = n.
Proof. intros Hn. apply Z.mod_small. lia. Qed.

Lemma fee_mul tx : 0 <= tx_Gas tx < 2 ^ 63 -> 0 <= tx_GasPrice tx -> fee_of tx < 2 ^ 255 ->
  umul (tx_GasPrice tx) (u256_of_int (tx_Gas tx)) = fee_of tx /\
  GasToFee (tx_Gas tx) (tx_GasPrice tx) = fee_of tx /\ 0 <= fee_of tx.
Proof.
  intros Hg Hp Hf. unfold GasToFee, umul, u256_of_int, fee_of in *. rewrite u64_small by done.
  rewrite Z.mul_comm, u256_id; [|unfold in_u256; nia]. rewrite Z.mul_comm. split; [lia|]. split; [lia|nia].
Qed.

Lemma CheckBalance_le a amt : CheckBalance a amt = if amt <=? acct_Balance a then Ok tt else Err ErrInsufficientFund.
Proof. unfold CheckBalance. rewrite uCmp_gt. destruct (Z.ltb_spec (acct_Balance a) amt), (Z.leb_spec amt (acct_Balance a)); lia || done. Qed.

Lemma gas_remained x : gas_in x < 2 ^ 63 -> GetBlockGasRemained (x_bctx x) = gas_in x.
Proof. intros Hg. unfold GetBlockGasRemained. apply i64_id. pose proof (gas_range (bc_blockGasPool (x_bctx x))).
  unfold in_i64, gas_in in *. lia. Qed.

(** The check of the nonce, the last one. *)
Lemma wp_nonce_check a n x :
  wp (match CheckNonce a n with
      | Err e => throw (Wrap e (GoError "ledger: %v, tx:%v, address: %v, txhash: %X"))
      | o => lift o
      end) (fun o x' => x' = x /\ if acct_Nonce a =? n then o = Ok tt else exists e, o = Err e) x.
Proof. unfold CheckNonce. destruct (_ =? _); cbn [negb]; [by apply wp_lift|apply wp_throw; eauto]. Qed.

Lemma wp_commonValidation P v fees payer x :
  views P ∅ (acct_in x) v -> native_ctx P payer (x_ctx x) -> gas_in x < 2 ^ 63 ->
  wp commonValidation (fun o x' => x' = x /\
    if acceptable (MkBank v (gas_in x) fees) (tc_Tx (x_ctx x)) payer then o = Ok tt else exists e, o = Err e) x.
Proof.
  intros HV HC Hgas. destruct (fee_mul (tc_Tx (x_ctx x))) as (Hfee & _ & Hfee0); [apply HC..|].
  unfold commonValidation, acceptable; cbn [bk_gas bk_accts].
  apply wp_bind, wp_gets, wp_bind, wp_gets. rewrite (gas_remained x Hgas).
  destruct (Z.ltb_spec 0 (gas_in x)) as [Hg0|Hg0]; cycle 1.
  { rewrite (proj2 (Z.leb_le _ 0)) by lia. apply wp_throw. split; [done|]. cbn. eauto. }
  destruct (Z.leb_spec (tx_Gas (tc_Tx (x_ctx x))) (gas_in x)) as [Hg1|Hg1]; cycle 1.
  { rewrite (proj2 (Z.ltb_lt (gas_in x) _)) by lia. rewrite orb_true_r. apply wp_throw. split; [done|]. cbn. eauto. }
  rewrite (proj2 (Z.leb_gt _ 0)), (proj2 (Z.ltb_ge (gas_in x) _)) by lia. cbn [orb andb]. rewrite Hfee.
  apply wp_bind, (wp_x_get P ∅ v _ _ _ _ HV (xc_from _ _ _ HC)), wp_bind, (wp_x_get P ∅ v _ _ _ _ HV (xc_payer _ _ _ HC)).
  rewrite (views_addr _ _ _ _ _ _ HV (xc_from _ _ _ HC)), (views_addr _ _ _ _ _ _ HV (xc_payer _ _ _ HC)).
  apply wp_bind. unfold affordable. fold (bal v payer) (bal v (tx_From (tc_Tx (x_ctx x)))).
  case_bool_decide as Epay.
  - subst payer. rewrite bytes_Compare_refl. cbn [Z.eqb negb]. apply wp_lift. rewrite CheckBalance_le.
    unfold uadd. rewrite u256_id by (unfold in_u256; pose proof (xc_amount _ _ _ HC); pose proof (xc_fee _ _ _ HC); lia).
    change (acct_Balance (acct_at v ?a)) with (bal v a).
    destruct (_ <=? _); cbn [andb]; [apply wp_nonce_check|by eauto].
  - destruct (Z.eqb_spec (bytes_Compare (tx_From (tc_Tx (x_ctx x))) payer) 0) as [Ec|_];
      [apply bytes_Compare_eq in Ec; congruence|]. cbn [negb].
    apply wp_bind, wp_lift. rewrite CheckBalance_le. change (acct_Balance (acct_at v ?a)) with (bal v a).
    destruct (_ <=? bal v payer); cbn [andb]; [|by eauto].
    apply wp_lift. rewrite CheckBalance_le. change (acct_Balance (acct_at v ?a)) with (bal v a).
    destruct (_ <=? _); cbn [andb]; [apply wp_nonce_check|by eauto].
Qed.

(** The transfer of the account controller, with both accounts stored. *)
Lemma wp_transfer_exec P s v c payer Q :
  views P ∅ s v -> transfer_ctx P payer c -> tx_Amount (tc_Tx c) <= bal v (tx_From (tc_Tx c)) ->
  (forall s', views P ∅ s' (credit (debit v (tx_From (tc_Tx c)) (tx_Amount (tc_Tx c))) (tx_To (tc_Tx c))
                              (tx_Amount (tc_Tx c))) -> Q (Ok tt) s') ->
  wp (acct_ExecuteTrx (tc_Tx c) (tc_Sender c) (Some (tc_Receiver c)) true) Q s.
Proof.
  intros HV HC Hb HQ. unfold acct_ExecuteTrx. rewrite (xc_type _ _ _ HC). cbn [Z.eqb Pos.eqb TRX_TRANSFER].
  apply wp_bind. unfold transfer.
  apply wp_bind, (wp_view_debit P ∅ s v _ _ _ _ HV (xc_from _ _ _ HC) (xc_amount _ _ _ HC) Hb).
  intros s1 HV1. apply wp_bind, wp_try, (wp_view_credit P _ s1 _ _ _ _ _ HV1 (xc_to _ _ _ HC) (xc_amount _ _ _ HC)).
  intros s2 HV2. apply wp_ret, wp_bind, wp_ignore.
  apply (wp_view_set P _ s2 _ _ _ _ HV2 (xc_from _ _ _ HC)).
  { apply is_Some_store, is_Some_stored. cbn. apply (views_addr _ _ _ _ _ _ HV (xc_from _ _ _ HC)). }
  intros s3 HV3. apply wp_ignore, (wp_view_set P _ s3 _ _ _ _ HV3 (xc_to _ _ _ HC)).
  { apply is_Some_stored. cbn. apply (views_addr _ _ _ _ _ _ HV1 (xc_to _ _ _ HC)). }
  intros s4 HV4. apply HQ, (views_dirty _ _ _ _ _ HV4). set_solver.
Qed.

(** Payer and nonce after the controller. *)
Lemma wp_charge P v c payer x Q :
  views P ∅ (acct_in x) v -> native_ctx P payer c ->
  fee_of (tc_Tx c) <= bal v payer ->
  (forall s', views P ∅ s' (bump (debit v payer (fee_of (tc_Tx c))) (tx_From (tc_Tx c))) ->
     Q (Ok tt) (lset (lens_comp chain_lens acct_of) s' x)) ->
  wp (x_acct (acct_update (tc_Payer c) (fun a => SubBalance a (fee_of (tc_Tx c)))) ;;;
      x_acct (acct_update (tc_Sender c) (fun a => Ok (AddNonce a))) ;;;
      x_acct (SetAccount (tc_Sender c) true) ;;;
      let! sender := x_acct (acct_get (tc_Sender c)) in
      let! payer := x_acct (acct_get (tc_Payer c)) in
      if negb (bytes_Compare (acct_Address sender) (acct_Address payer) =? 0)
      then x_acct (SetAccount (tc_Payer c) true)
      else ret tt) Q x.
Proof.
  intros HV HC Hb HQ. destruct (fee_mul (tc_Tx c)) as (_ & _ & Hfee0); [apply HC..|].
  apply wp_bind, wp_x_acct, (wp_view_debit P _ _ v _ _ _ _ HV (xc_payer _ _ _ HC));
    [pose proof (xc_fee _ _ _ HC); lia|done|].
  intros s1 HV1. apply wp_bind, wp_x_acct, (wp_view_bump P _ _ _ _ _ _ HV1 (xc_from _ _ _ HC)).
  intros s2 HV2. apply wp_bind, wp_x_acct, (wp_view_set P _ _ _ _ _ _ HV2 (xc_from _ _ _ HC)).
  { apply is_Some_stored. cbn. apply (views_addr _ _ _ _ _ _ HV1 (xc_from _ _ _ HC)). }
  intros s3 HV3. set (x3 := lset _ s3 _).
  apply wp_bind, (wp_x_get P _ _ _ _ _ x3 HV3 (xc_from _ _ _ HC)), wp_bind, (wp_x_get P _ _ _ _ _ x3 HV3 (xc_payer _ _ _ HC)).
  rewrite (views_addr _ _ _ _ _ _ HV3 (xc_from _ _ _ HC)), (views_addr _ _ _ _ _ _ HV3 (xc_payer _ _ _ HC)).
  unfold x3. rewrite !lset_lset.
  destruct (Z.eqb_spec (bytes_Compare (tx_From (tc_Tx c)) payer) 0) as [Ec|Ec]; cbn [negb].
  - apply bytes_Compare_eq in Ec as <-. apply wp_ret, HQ, (views_dirty _ _ _ _ _ HV3). set_solver.
  - apply wp_x_acct, (wp_view_set P _ _ _ _ _ _ HV3 (xc_payer _ _ _ HC)).
    { apply is_Some_store, is_Some_stored. cbn. apply (views_addr _ _ _ _ _ _ HV (xc_payer _ _ _ HC)). }
    intros s4 HV4. rewrite lset_lset. apply HQ, (views_dirty _ _ _ _ _ HV4). set_solver.
Qed.

(** A transaction that is not for the machine: not a contract call, and not a
    transfer to an account with code. *)
Definition no_code v (tx : Trx) : Prop :=
  GetType tx <> TRX_CONTRACT /\ (GetType tx = TRX_TRANSFER -> acct_Code (acct_at v (tx_To tx)) = []).

Lemma no_code_transfer v tx : GetType tx = TRX_TRANSFER -> acct_Code (acct_at v (tx_To tx)) = [] -> no_code v tx.
Proof. intros Ht Hc. split; [by rewrite Ht|done]. Qed.

Lemma wp_plain_receiver P v c payer x Q :
  views P ∅ (acct_in x) v -> native_ctx P payer c -> no_code v (tc_Tx c) ->
  Q (Ok false) x -> wp (x_acct (IsHandledByEVM c)) Q x.
Proof.
  intros HV HC [Hnc Hcode] HQ. unfold IsHandledByEVM. rewrite (proj2 (Z.eqb_neq _ _) Hnc).
  change (acct_in x) with (lget (lens_comp (@chain_lens T I E GP) acct_of) x) in HV.
  apply wp_x_acct. destruct (Z.eqb_spec (GetType (tc_Tx c)) TRX_TRANSFER) as [Et|_].
  - apply wp_bind, (wp_view_get P ∅ _ v _ _ _ HV (xc_to _ _ _ HC)), wp_ret. rewrite (Hcode Et). by rewrite lset_lget.
  - apply wp_ret. change (acct_in x) with (lget (lens_comp (@chain_lens T I E GP) acct_of) x). by rewrite lset_lget.
Qed.

(** A debit and a credit that stay in range. *)
Lemma transfer_bal v from to amt addr :
  accts_ok v -> length from = AddrSize -> 0 <= amt -> amt <= bal v from -> total v < 2 ^ 256 ->
  bal (credit (debit v from amt) to amt) addr =
    bal v addr - (if bool_decide (addr = from) then amt else 0) + (if bool_decide (addr = to) then amt else 0) /\
  total (credit (debit v from amt) to amt) = total v.
Proof.
  intros Hok Hl Ha Hle Htot.
  assert (Hokd : accts_ok (debit v from amt)) by (apply accts_ok_debit; auto; lia).
  assert (bal (debit v from amt) to + amt < 2 ^ 256) as Hr.
  { pose proof (bal_le_total (debit v from amt) to Hokd). rewrite debit_total in * by done. lia. }
  rewrite credit_bal, credit_total, debit_bal, debit_total by done. split; [done|lia].
Qed.

(** After the amount has moved the payer still has the fee. *)
Lemma fee_left v tx payer :
  accts_ok v -> affordable v tx payer = true -> length (tx_From tx) = AddrSize ->
  0 <= tx_Amount tx -> total v < 2 ^ 256 -> 0 <= fee_of tx ->
  tx_Amount tx <= bal v (tx_From tx) /\
  fee_of tx <= bal (credit (debit v (tx_From tx) (tx_Amount tx)) (tx_To tx) (tx_Amount tx)) payer.
Proof.
  intros Hok Ha Hl Hamt Htot Hfee. unfold affordable in Ha.
  assert (tx_Amount tx <= bal v (tx_From tx)) as Hle by (case_bool_decide; lia). split; [done|].
  destruct (transfer_bal v (tx_From tx) (tx_To tx) (tx_Amount tx) payer) as [-> _]; [done..|].
  repeat case_bool_decide; subst; lia.
Qed.

Lemma wp_execTrx_transfer P v c payer x Q :
  views P ∅ (acct_in x) v -> transfer_ctx P payer c -> x_ctx x = c -> acct_Code (acct_at v (tx_To (tc_Tx c))) = [] ->
  tx_Amount (tc_Tx c) <= bal v (tx_From (tc_Tx c)) ->
  (forall s', views P ∅ s' (credit (debit v (tx_From (tc_Tx c)) (tx_Amount (tc_Tx c))) (tx_To (tc_Tx c))
                              (tx_Amount (tc_Tx c))) -> Q (Ok tt) (lset (lens_comp chain_lens acct_of) s' x)) ->
  wp execTrx Q x.
Proof.
  intros HV HC Hx Hcode Hle HQ. unfold execTrx, x_govParams, x_height.
  apply wp_bind, wp_gets, wp_bind, wp_gets, wp_bind, wp_gets. rewrite Hx.
  rewrite (xc_type _ _ _ HC). cbn [Z.eqb Pos.eqb TRX_CONTRACT TRX_TRANSFER is_gov_type is_acct_type TRX_PROPOSAL TRX_VOTING orb].
  apply wp_bind, (wp_plain_receiver P v c payer x);
    [done|apply HC|apply no_code_transfer; [apply HC|done]|]. rewrite (xc_exec _ _ _ HC).
  by apply wp_x_acct, (wp_transfer_exec P _ v c payer).
Qed.

(** Gas, fee and nonce of a transaction that is not for the machine. *)
Lemma wp_postRunTrx_native P v c payer x Q :
  views P ∅ (acct_in x) v -> native_ctx P payer c -> x_ctx x = c -> no_code v (tc_Tx c) ->
  fee_of (tc_Tx c) <= bal v payer -> tx_Gas (tc_Tx c) <= gas_in x ->
  (forall s' p', views P ∅ s' (bump (debit v payer (fee_of (tc_Tx c))) (tx_From (tc_Tx c))) ->
     gas_Gas p' = gas_in x - tx_Gas (tc_Tx c) ->
     Q (Ok tt) (MkXState (set_GasUsed (tx_Gas (tc_Tx c)) c) (set_gas (bc_blockGasLimit (x_bctx x)) p' (x_bctx x))
                  (lset acct_of s' (x_chain x)))) ->
  wp postRunTrx Q x.
Proof.
  intros HV HC Hx Hcode Hb Hg HQ. unfold postRunTrx. apply wp_bind, wp_gets. rewrite Hx.
  apply wp_bind, (wp_plain_receiver P v c payer x); [done..|].
  apply wp_bind, wp_bind, wp_modify, wp_ignore, wp_bind, wp_gets, wp_bind, wp_lift.
  unfold UseBlockGas. rewrite u64_small by apply HC. cbn [x_bctx on_ctx].
  destruct (gas_Sub_law (bc_blockGasPool (x_bctx x)) (tx_Gas (tc_Tx c))) as (p' & Hp & Hp').
  { pose proof (xc_gas _ _ _ HC). unfold gas_in in Hg. lia. }
  rewrite Hp. apply wp_modify, wp_bind, wp_gets. unfold on_ctx; cbn [x_ctx set_bctx]. rewrite Hx.
  destruct (fee_mul (tc_Tx c)) as (_ & Hfee & _); [apply HC..|].
  cbn [tc_GasUsed set_GasUsed tc_Tx tc_Payer tc_Sender tc_Exec]. rewrite Hfee, (xc_exec _ _ _ HC).
  apply (wp_charge P v c payer); [done..|]. intros s' HV'. by apply (HQ s' p').
Qed.

(** The executor on a transfer. *)
Lemma wp_ExecuteSync_transfer P v fees payer x :
  views P ∅ (acct_in x) v -> transfer_ctx P payer (x_ctx x) -> gas_in x < 2 ^ 63 -> total v < 2 ^ 256 ->
  acct_Code (acct_at v (tx_To (tc_Tx (x_ctx x)))) = [] ->
  wp ExecuteSync (fun o x' =>
    match bank_transfer (MkBank v (gas_in x) fees) (tc_Tx (x_ctx x)) payer with
    | Some b => o = Ok tt /\ exists s' p',
        x' = MkXState (set_GasUsed (tx_Gas (tc_Tx (x_ctx x))) (x_ctx x))
               (set_gas (bc_blockGasLimit (x_bctx x)) p' (x_bctx x)) (lset acct_of s' (x_chain x)) /\
        views P ∅ s' (bk_accts b) /\ gas_Gas p' = bk_gas b
    | None => (exists e, o = Err e) /\ x' = x
    end) x.
Proof.
  intros HV HC Hgas Htot Hcode. unfold ExecuteSync, validateTrx, bank_transfer.
  apply wp_bind, wp_bind. eapply wp_mono; [apply (wp_commonValidation P v fees payer x HV HC Hgas)|].
  intros o x' [-> Ho]. destruct (acceptable _ _ _) eqn:Eacc; cycle 1.
  { destruct Ho as [e ->]. eauto. }
  subst o. unfold acceptable in Eacc. cbn [bk_gas bk_accts bk_fees] in *. rewrite !andb_true_iff in Eacc.
  destruct Eacc as [[[_ Hg] Haff] _]. apply Z.leb_le in Hg.
  destruct (fee_mul (tc_Tx (x_ctx x))) as (_ & _ & Hfee0); [apply HC..|].
  destruct (vw_ptr _ _ _ _ HV _ _ (xc_from _ _ _ HC)) as [Hlen _].
  destruct (fee_left v (tc_Tx (x_ctx x)) payer (vw_ok _ _ _ _ HV) Haff Hlen) as [Hle Hfee];
    [apply HC|done|done|].
  unfold x_govParams, x_height. apply wp_bind, wp_gets, wp_bind, wp_gets, wp_bind, wp_gets.
  rewrite (xc_type _ _ _ HC). cbn [Z.eqb Pos.eqb TRX_TRANSFER is_gov_type is_acct_type TRX_PROPOSAL TRX_VOTING orb].
  apply wp_lift. unfold acct_ValidateTrx. rewrite (xc_type _ _ _ HC). cbn [Z.eqb Pos.eqb TRX_TRANSFER TRX_SETDOC].
  unfold runTrx. apply wp_bind, wp_gets. rewrite (xc_type _ _ _ HC), (xc_exec _ _ _ HC).
  change (known_type TRX_TRANSFER) with true. cbn [orb].
  apply wp_bind, wp_try, (wp_execTrx_transfer P v (x_ctx x) payer x); [done..|].
  intros s1 HV1. apply wp_bind, wp_ignore.
  eapply (wp_postRunTrx_native P _ (x_ctx x) payer); [exact HV1|apply HC|done| |done|exact Hg|].
  { apply no_code_transfer; [apply HC|]. rewrite code_credit, code_debit; [done|apply HV|]. apply accts_ok_debit; [apply HV|done|]. pose proof (xc_amount _ _ _ HC). lia. }
  intros s2 p' HV2 Hp'. apply wp_ret. split; [done|]. exists s2, p'. split; [|split; [done|exact Hp']].
  cbn. f_equal.
Qed.

End Executing.

(** ** What an abstract transfer keeps *)

Section BankFacts.
Context `{Utf8}.
Implicit Types b : bank.

(** A transaction with sensible numbers. *)
Definition tx_sane (tx : Trx) : Prop :=
  length (tx_From tx) = AddrSize /\ length (tx_To tx) = AddrSize /\
  0 <= tx_Amount tx < 2 ^ 255 /\ 0 <= tx_Gas tx < 2 ^ 63 /\ 0 <= tx_GasPrice tx /\ fee_of tx < 2 ^ 255.

(** The accounts are well-formed, and balances and fees stay in range together. *)
Definition bank_ok b : Prop :=
  accts_ok (bk_accts b) /\ 0 <= bk_gas b < 2 ^ 63 /\ 0 <= bk_fees b /\ total (bk_accts b) + bk_fees b < 2 ^ 256.

Lemma total_bump (m : accts_map) addr : accts_ok m -> total (bump m addr) = total m.
Proof. intros Hok. unfold bump. rewrite total_store. cbn. rewrite acct_at_Address by done. unfold bal. lia. Qed.

Lemma bal_bump (m : accts_map) addr a : accts_ok m -> bal (bump m addr) a = bal m a.
Proof.
  intros Hok. unfold bump. rewrite bal_store. cbn. rewrite acct_at_Address by done.
  case_bool_decide; [by subst|done].
Qed.

Lemma accts_ok_bump (m : accts_map) addr : accts_ok m -> length addr = AddrSize -> accts_ok (bump m addr).
Proof. intros Hok Ha. apply accts_ok_store; [done|]. by apply acct_wf_AddNonce, acct_at_ok. Qed.

Lemma fee_nonneg tx : tx_sane tx -> 0 <= fee_of tx.
Proof. intros (_ & _ & _ & Hg & Hp & _). unfold fee_of. nia. Qed.

(** An accepted transfer, and the accounts on its way. *)
Lemma bank_transfer_inv b tx payer b' :
  bank_ok b -> tx_sane tx -> length payer = AddrSize -> bank_transfer b tx payer = Some b' ->
  let m1 := debit (bk_accts b) (tx_From tx) (tx_Amount tx) in
  let m2 := credit m1 (tx_To tx) (tx_Amount tx) in
  let m3 := debit m2 payer (fee_of tx) in
  accts_ok m1 /\ accts_ok m2 /\ accts_ok m3 /\ tx_Amount tx <= bal (bk_accts b) (tx_From tx) /\
  0 <= tx_Gas tx <= bk_gas b /\ fee_of tx <= bal m2 payer /\
  acct_Nonce (acct_at (bk_accts b) (tx_From tx)) = tx_Nonce tx /\
  b' = MkBank (bump m3 (tx_From tx)) (bk_gas b - tx_Gas tx) (bk_fees b + fee_of tx).
Proof.
  intros (Hok & Hgas & Hfees & Htot) Hsane Hp. pose proof (fee_nonneg _ Hsane) as Hfee.
  destruct Hsane as (Hf & Ht & Hamt & Hg & Hpr & Hfm).
  unfold bank_transfer, acceptable. destruct (_ && _) eqn:Eacc; [|done]. intros [= <-]. rewrite !andb_true_iff in Eacc.
  destruct Eacc as [[[Hg0 Hg1] Haff] Hn]. apply Z.leb_le in Hg1. apply Z.eqb_eq in Hn.
  destruct (fee_left (bk_accts b) tx payer Hok Haff Hf) as [Hle Hfl]; [lia|lia|done|].
  assert (Hd : accts_ok (debit (bk_accts b) (tx_From tx) (tx_Amount tx))) by (apply accts_ok_debit; auto; lia).
  assert (Hc := accts_ok_credit _ (tx_To tx) (tx_Amount tx) Hd Ht).
  cbn zeta. do 2 (split; [done|]). split; [by apply accts_ok_debit|]. split; [done|]. split; [lia|]. by split.
Qed.

(** An abstract transfer: coins move, none appear or vanish. *)
Lemma bank_transfer_ok b tx payer b' :
  bank_ok b -> tx_sane tx -> length payer = AddrSize -> bank_transfer b tx payer = Some b' ->
  bank_ok b' /\
  total (bk_accts b') + bk_fees b' = total (bk_accts b) + bk_fees b /\
  (forall a, acct_Code (acct_at (bk_accts b') a) = acct_Code (acct_at (bk_accts b) a)) /\
  (forall a, bal (bk_accts b') a = bal (bk_accts b) a
     - (if bool_decide (a = tx_From tx) then tx_Amount tx else 0)
     + (if bool_decide (a = tx_To tx) then tx_Amount tx else 0)
     - (if bool_decide (a = payer) then fee_of tx else 0)).
Proof.
  intros Hb Hsane Hp Ht. destruct (bank_transfer_inv b tx payer b' Hb Hsane Hp Ht) as (Hd & Hc & Hd2 & Hle & Hg & Hfl & _ & ->).
  pose proof (fee_nonneg _ Hsane) as Hfee. destruct Hb as (Hok & Hgas & Hfees & Htot), Hsane as (Hf & Hto & Hamt & _).
  unfold bank_ok; cbn [bk_accts bk_gas bk_fees].
  assert (Hbal := fun a => transfer_bal (bk_accts b) (tx_From tx) (tx_To tx) (tx_Amount tx) a Hok Hf ltac:(lia) Hle ltac:(lia)).
  rewrite total_bump, debit_total, (proj2 (Hbal [])) by done. split; [|split; [lia|split]].
  - split; [by apply accts_ok_bump|]. lia.
  - intros a. by rewrite code_bump, code_debit, code_credit, code_debit.
  - intros a. rewrite bal_bump, debit_bal, (proj1 (Hbal a)) by done. done.
Qed.

(** Transfers with their payers, one after another: which are accepted, and the
    bank after them. *)
Fixpoint bank_run b (ts : list (Trx * Address)) : list bool * bank :=
  match ts with
  | [] => ([], b)
  | (tx, payer) :: ts' =>
      match bank_transfer b tx payer with
      | Some b' => let r := bank_run b' ts' in (true :: fst r, snd r)
      | None => let r := bank_run b ts' in (false :: fst r, snd r)
      end
  end.

(** The receivers are not contracts. *)
Definition plain b (ts : list (Trx * Address)) : Prop :=
  Forall (fun t => acct_Code (acct_at (bk_accts b) (tx_To (fst t))) = []) ts.

Lemma plain_code b b' ts :
  (forall a, acct_Code (acct_at (bk_accts b') a) = acct_Code (acct_at (bk_accts b) a)) -> plain b ts -> plain b' ts.
Proof. intros Hc Hp. eapply Forall_impl; [exact Hp|]. intros t. by rewrite Hc. Qed.

(** A run of transfers keeps the coins. *)
Lemma bank_run_conserves ts b :
  bank_ok b -> Forall (fun t => tx_sane (fst t) /\ length (snd t) = AddrSize) ts ->
  bank_ok (snd (bank_run b ts)) /\
  total (bk_accts (snd (bank_run b ts))) + bk_fees (snd (bank_run b ts)) = total (bk_accts b) + bk_fees b.
Proof.
  intros Hok Hts. revert b Hok. induction Hts as [|[tx payer] ts [Hs Hp] _ IH]; intros b Hok; [done|].
  cbn [bank_run]. destruct (bank_transfer b tx payer) as [b'|] eqn:Eb; cbn [snd]; [|by apply IH].
  destruct (bank_transfer_ok b tx payer b' Hok Hs Hp Eb) as (Hok' & Hc & _).
  destruct (IH b' Hok') as [H1 H2]. split; [done|]. lia.
Qed.

(** ** Nonces *)

Lemma nonce_store (m : accts_map) y addr :
  acct_Nonce y = acct_Nonce (acct_at m (acct_Address y)) ->
  acct_Nonce (acct_at (store_acct m y) addr) = acct_Nonce (acct_at m addr).
Proof.
  intros Hc. destruct (decide (acct_Address y = addr)) as [<-|Hne].
  - by rewrite acct_at_store_eq.
  - by rewrite acct_at_store_ne.
Qed.

Lemma nonce_credit (m : accts_map) a amt addr :
  accts_ok m -> acct_Nonce (acct_at (credit m a amt) addr) = acct_Nonce (acct_at m addr).
Proof. intros Hm. apply nonce_store. cbn. by rewrite acct_at_Address. Qed.
Lemma nonce_debit (m : accts_map) a amt addr :
  accts_ok m -> acct_Nonce (acct_at (debit m a amt) addr) = acct_Nonce (acct_at m addr).
Proof. intros Hm. apply nonce_store. cbn. by rewrite acct_at_Address. Qed.

Definition sane_all (ts : list (Trx * Address)) : Prop :=
  Forall (fun t => tx_sane (fst t) /\ length (snd t) = AddrSize) ts.

End BankFacts.

(** ** Prepare: the account objects of a block's transactions

    While the contexts of a block are made, looking up senders, receivers and
    payers gives every address one object, whatever the order of the lookups:
    [prepared] keeps the pointers handed out so far. *)

Section Prepare.
Context {T I : Type} `{Iavl T I, !IavlLaws T I}.
Context `{Utf8, Proto AcctProto, !ProtoLaws AcctProto AcctProto_ok}.
Implicit Types (a : AcctCtrler T I) (m : accts_map) (P : gmap Address loc).

Lemma wp_and {S A} (f : M S A) (Q1 Q2 : outcome A -> S -> Prop) s :
  wp f Q1 s -> wp f Q2 s -> wp f (fun o s' => Q1 o s' /\ Q2 o s') s.
Proof. unfold wp. auto. Qed.

(** A lookup keeps the objects in the cache. *)
Lemma findAccount_cached a m addr :
  ainv ∅ a m ->
  wp (findAccount addr true) (fun _ a' => forall k l,
    cached (acctState a) !! k = Some l -> cached (acctState a') !! k = Some l) a.
Proof.
  intros HI. unfold findAccount. apply wp_bind, wp_try, wp_zoom; cbn. pose proof (ainv_coh _ _ _ HI) as HC.
  destruct (m !! LedgerKeyAccount addr) as [x|] eqn:Ex.
  - apply (held_get_rule ∅ _ m (LedgerKeyAccount addr) x); done.
  - apply (wp_Get_none ∅ _ m (LedgerKeyAccount addr)); try done. by apply wp_ret.
Qed.

(** The pointers handed out: cached objects of stored accounts, and the new
    accounts of the others. *)
Record prepared P a m : Prop := {
  pp_inv : ainv ∅ a m;
  pp_ptr : forall addr l, P !! addr = Some l -> length addr = AddrSize /\ cheld a l (acct_at m addr) /\
    match m !! LedgerKeyAccount addr with
    | Some _ => cached (acctState a) !! LedgerKeyAccount addr = Some l
    | None => newbiesDeliver a !! addr = Some l
    end;
  pp_new : forall addr l, newbiesDeliver a !! addr = Some l -> P !! addr = Some l;
}.

Lemma prepared_views P a m : prepared P a m -> views P ∅ a m.
Proof.
  intros HP. split.
  - exists m. split; [apply HP|]. split; [done|]. intros addr l Hl [x Hx].
    destruct (pp_ptr _ _ _ HP _ _ Hl) as (_ & _ & Hc). by rewrite Hx in Hc.
  - intros addr l Hl. destruct (pp_ptr _ _ _ HP _ _ Hl) as (? & ? & _). done.
  - by eapply ainv_accts_ok, HP.
Qed.

Lemma prepared_start a m : ainv ∅ a m -> newbiesDeliver a = ∅ -> prepared ∅ a m.
Proof.
  intros HI Hn. split; [done| |].
  - intros addr l Hl. by rewrite lookup_empty in Hl.
  - intros addr l. by rewrite Hn, lookup_empty.
Qed.

(** Handing out one more pointer. *)
Lemma insert_subseteq_same P addr l : (forall l', P !! addr = Some l' -> l' = l) -> P ⊆ <[addr := l]> P.
Proof.
  intros Hs. destruct (P !! addr) as [l'|] eqn:E.
  - rewrite (Hs l' eq_refl) in E. by rewrite insert_id.
  - by apply insert_subseteq.
Qed.

Lemma wp_prep_find P a m addr x Q :
  prepared P a m -> length addr = AddrSize -> m !! LedgerKeyAccount addr = Some x ->
  (forall l a', prepared (<[addr := l]> P) a' m -> P ⊆ <[addr := l]> P -> Q (Ok (Some l)) a') ->
  wp (findAccount addr true) Q a.
Proof.
  intros HP Ha Hx HQ. pose proof (pp_inv _ _ _ HP) as HI.
  eapply wp_mono; [apply wp_and; [|apply (findAccount_cached a m addr HI)]|].
  { apply (wp_findAccount a m addr (fun o a' => exists l, o = Ok (Some l) /\ ainv ∅ a' m /\
      (forall l x, cheld a l x -> cheld a' l x) /\ newbiesDeliver a' = newbiesDeliver a /\ cheld a' l x /\
      cached (acctState a') !! LedgerKeyAccount addr = Some l /\
      forall l', cached (acctState a) !! LedgerKeyAccount addr = Some l' -> l' = l) HI).
    intros r a' HI' Hh Hn. rewrite Hx. intros (l & -> & Hl & Hc & Hs). by exists l. }
  cbn beta. intros o a' [(l & -> & HI' & Hh & Hn & Hl & Hc & Hs) Hmono].
  assert (forall l', P !! addr = Some l' -> l' = l) as Hsame.
  { intros l' Hl'. destruct (pp_ptr _ _ _ HP _ _ Hl') as (_ & _ & Hc'). rewrite Hx in Hc'. by apply Hs. }
  apply HQ; [|by apply insert_subseteq_same]. split; [done| |].
  - intros addr' l' Hl'. apply lookup_insert_Some in Hl' as [[<- <-]|[Hne Hl']].
    + rewrite Hx. split; [done|]. split; [|done]. by rewrite (acct_at_some m addr x Hx).
    + destruct (pp_ptr _ _ _ HP _ _ Hl') as (Hlen & Hh' & Hc'). split; [done|]. split; [by apply Hh|].
      destruct (m !! LedgerKeyAccount addr'); [by apply Hmono|by rewrite Hn].
  - intros addr' l'. rewrite Hn. intros Hl'. apply (pp_new _ _ _ HP) in Hl'.
    destruct (decide (addr' = addr)) as [->|Hne]; [|by rewrite lookup_insert_ne].
    rewrite lookup_insert_eq. f_equal. symmetry. by apply Hsame.
Qed.

(** The object of a new account, the first time and again. *)
Lemma wp_prep_newbie P a m addr Q :
  prepared P a m -> length addr = AddrSize -> m !! LedgerKeyAccount addr = None ->
  (forall l a', prepared (<[addr := l]> P) a' m -> P ⊆ <[addr := l]> P -> Q (Ok l) a') ->
  wp (let! acctKey := lift (ToAcctKey addr) in
      let! nb := gets (fun s => newbies true s !! acctKey) in
      match nb with
      | Some l => ret l
      | None =>
          let! l := a_alloc (NewAccountWithName addr []) in
          modify (set_newbie true acctKey l) ;;;
          ret l
      end) Q a.
Proof.
  intros HP Ha Hx HQ. apply wp_bind, wp_lift. unfold ToAcctKey. rewrite Ha, Nat.ltb_irrefl, <- Ha, take_ge by done.
  apply wp_bind, wp_gets. cbn [newbies]. destruct (newbiesDeliver a !! addr) as [l|] eqn:El.
  - pose proof (pp_new _ _ _ HP _ _ El) as Hl. apply wp_ret, HQ; rewrite insert_id; done.
  - apply wp_bind. pose proof (pp_inv _ _ _ HP) as HI.
    apply wp_zoom; cbn [lget acct_lens].
    apply (held_alloc_rule ∅ _ m); [apply (ainv_coh _ _ _ HI)|]. intros l ls HC' Hl Hun Hfr Hled _.
    apply wp_bind, wp_modify, wp_ret.
    assert (forall l', P !! addr = Some l' -> l' = l) as Hsame.
    { intros l' Hl'. destruct (pp_ptr _ _ _ HP _ _ Hl') as (_ & _ & Hc'). rewrite Hx in Hc'. congruence. }
    assert (Hwf : acct_wf (NewAccountWithName addr [])) by now apply acct_wf_new.
    assert (Hkeep : forall l0 x, cheld a l0 x -> cheld (set_newbie true addr l (lset acct_lens ls a)) l0 x).
    { intros l0 x Hh. by apply (cheld_frames_None a). }
    apply HQ; [|by apply insert_subseteq_same]. split.
    + split; [done|]. intros ad l0 Hl0. cbn in Hl0. apply lookup_insert_Some in Hl0 as [[<- <-]|[_ Hl0]].
      * exists (NewAccountWithName addr []). split; [|done]. split; [apply Hl|done].
      * destruct (ainv_newbies _ _ _ HI ad l0 Hl0) as (y & Hy & Hay). exists y. split; [apply Hkeep, Hy|done].
    + intros ad l0 Hl0. apply lookup_insert_Some in Hl0 as [[<- <-]|[Hne Hl0]].
      * split; [done|]. rewrite Hx. unfold acct_at. rewrite Hx. cbn. split; [split; [apply Hl|done]|by rewrite lookup_insert_eq].
      * destruct (pp_ptr _ _ _ HP _ _ Hl0) as (Hlen & Hh & Hc). split; [done|]. split; [by apply Hkeep|].
        cbn [acctState set_newbie lset acct_lens newbiesDeliver]. destruct (m !! LedgerKeyAccount ad); [unfold cached in *; rewrite Hled; exact Hc|by rewrite lookup_insert_ne].
    + intros ad l0 Hl0. cbn in Hl0. apply lookup_insert_Some in Hl0 as [[<- <-]|[Hne Hl0]];
        [by rewrite lookup_insert_eq|]. rewrite lookup_insert_ne by done. by apply (pp_new _ _ _ HP).
Qed.

Lemma wp_prep_find_or_new P a m addr Q :
  prepared P a m -> length addr = AddrSize ->
  (forall l a', prepared (<[addr := l]> P) a' m -> P ⊆ <[addr := l]> P -> Q (Ok l) a') ->
  wp (ctrl_FindOrNewAccount addr true) Q a.
Proof.
  intros HP Ha HQ. unfold ctrl_FindOrNewAccount. destruct (m !! LedgerKeyAccount addr) as [x|] eqn:Ex.
  - apply wp_bind, (wp_prep_find P a m addr x); [done..|]. intros l a' HP' Hs. by apply wp_ret, HQ.
  - apply wp_bind, (wp_findAccount a m addr _ (pp_inv _ _ _ HP)). intros r a' _ _ _. rewrite Ex. intros [-> ->].
    by apply (wp_prep_newbie P a m).
Qed.

End Prepare.
