(* ===== verification/TrxPreparer.v ===== *)
(** * TrxPreparer: preparing the transactions of a block in parallel

    [node/trx_preparer.go].  Delivered transactions are handed to goroutines
    over channels, one channel per goroutine; a goroutine makes the context of
    a transaction with a callback and puts the result at the transaction's
    index.  The goroutines interleave freely: a state of the preparer is reached
    by adding requests and by turns of any goroutine.  Whatever the order, when
    the wait group is at zero the results are those of the requests, in the
    order of delivery; every turn brings it one down, and it is at zero when no
    goroutine has work. *)
From stdpp Require Import base list strings.
From Stdlib Require Import ZArith Lia.
From S2P Require Import Prelude XErrors GoMonad.

Record requestParam := MkRequestParam {
  rp_idx : nat;
  rp_req : bytes;
}.

(** [out] is the context, or the response of a failed preparation. *)
Record resultValue (Ctx Resp : Type) := MkResultValue {
  rv_idx : nat;
  rv_req : bytes;
  rv_out : Ctx + Resp;
}.
Arguments MkResultValue {Ctx Resp} _ _ _.
Arguments rv_idx {Ctx Resp} _.
Arguments rv_req {Ctx Resp} _.
Arguments rv_out {Ctx Resp} _.

Record TrxPreparer (Ctx Resp : Type) := MkTrxPreparer {
  tp_WaitGroup : Z;
  tp_chReqParams : list (list requestParam);
  tp_reqCount : nat;
  tp_resultValues : list (option (resultValue Ctx Resp));
}.
Arguments MkTrxPreparer {Ctx Resp} _ _ _ _.
Arguments tp_WaitGroup {Ctx Resp} _.
Arguments tp_chReqParams {Ctx Resp} _.
Arguments tp_reqCount {Ctx Resp} _.
Arguments tp_resultValues {Ctx Resp} _.

(** The capacity of a channel. *)
Definition chanCap : nat := Z.to_nat 5000.

Section Preparer.
Context {Ctx Resp St : Type}.
Abbreviation TP := (TrxPreparer Ctx Resp).

(** [newTrxPreparer] and [start] with [n] goroutines. *)
Definition tp_start (n : nat) : TP := MkTrxPreparer 0 (repeat [] n) 0 [].

Definition tp_reset (tp : TP) : TP := MkTrxPreparer (tp_WaitGroup tp) (tp_chReqParams tp) 0 [].

(** [Add]; without goroutines the index of the channel is a division by zero. *)
Definition tp_Add (req : bytes) (tp : TP) : outcome TP :=
  let param := MkRequestParam (tp_reqCount tp) req in
  let len := length (tp_chReqParams tp) in
  if (len =? 0)%nat then Panic
  else
    let n := (rp_idx param mod len)%nat in
    match tp_chReqParams tp !! n with
    | None => Panic
    | Some q =>
        Ok (MkTrxPreparer (tp_WaitGroup tp + 1) (<[n := q ++ [param]]> (tp_chReqParams tp))
              (S (tp_reqCount tp)) (tp_resultValues tp ++ [None]))
    end.

(** The send of [Add] blocks while its channel is full. *)
Definition tp_can_Add (tp : TP) : Prop :=
  forall q, tp_chReqParams tp !! (tp_reqCount tp mod length (tp_chReqParams tp))%nat = Some q -> (length q < chanCap)%nat.

Definition tp_resultCount (tp : TP) : nat := length (tp_resultValues tp).

(** [onCompleted] *)
Definition tp_complete (r : resultValue Ctx Resp) (tp : TP) : outcome TP :=
  match tp_resultValues tp !! rv_idx r with
  | None => Panic
  | Some _ =>
      if tp_WaitGroup tp - 1 <? 0 then Panic
      else Ok (MkTrxPreparer (tp_WaitGroup tp - 1) (tp_chReqParams tp) (tp_reqCount tp)
                 (<[rv_idx r := Some r]> (tp_resultValues tp)))
  end.

Context (onPrepare : bytes -> nat -> M St (Ctx + Resp)).

(** A turn of goroutine [i], enabled when its channel has a request. *)
Definition trxPreparerRoutine (i : nat) : M (TP * St) unit :=
  fun '(tp, s) =>
    match tp_chReqParams tp !! i with
    | Some (param :: q) =>
        match onPrepare (rp_req param) (rp_idx param) s with
        | (Ok out, s') =>
            let tp1 := MkTrxPreparer (tp_WaitGroup tp) (<[i := q]> (tp_chReqParams tp)) (tp_reqCount tp)
                         (tp_resultValues tp) in
            match tp_complete (MkResultValue (rp_idx param) (rp_req param) out) tp1 with
            | Ok tp2 => (Ok tt, (tp2, s'))
            | _ => (Panic, (tp1, s'))
            end
        | (_, s') => (Panic, (tp, s'))
        end
    | _ => (Ok tt, (tp, s))
    end.

Definition enabled (tp : TP) (i : nat) : Prop := exists p q, tp_chReqParams tp !! i = Some (p :: q).

Inductive prep_step : TP * St -> TP * St -> Prop :=
| prep_work i tp s c' : enabled tp i -> trxPreparerRoutine i (tp, s) = (Ok tt, c') -> prep_step (tp, s) c'.

(** The configurations after the requests [reqs] of a block that starts in the
    state [s0]. *)
Inductive prep_reach (n : nat) (s0 : St) : list bytes -> TP * St -> Prop :=
| prep_reach_start : prep_reach n s0 [] (tp_start n, s0)
| prep_reach_add reqs tp s req tp' :
    prep_reach n s0 reqs (tp, s) -> tp_can_Add tp -> tp_Add req tp = Ok tp' ->
    prep_reach n s0 (reqs ++ [req]) (tp', s)
| prep_reach_step reqs c c' : prep_reach n s0 reqs c -> prep_step c c' -> prep_reach n s0 reqs c'.

(** ** The invariant *)

Definition pending (tp : TP) : list requestParam := concat (tp_chReqParams tp).

(** Every index has its result, or exactly one pending request. *)
Record prep_ok (reqs : list bytes) (tp : TP) : Prop := {
  ok_count : tp_reqCount tp = length reqs;
  ok_results : length (tp_resultValues tp) = length reqs;
  ok_wait : tp_WaitGroup tp = Z.of_nat (length (pending tp));
  ok_nodup : NoDup (map rp_idx (pending tp));
  ok_pending : forall p, p ∈ pending tp ->
    reqs !! rp_idx p = Some (rp_req p) /\ tp_resultValues tp !! rp_idx p = Some None;
  ok_open : forall i, tp_resultValues tp !! i = Some None -> i ∈ map rp_idx (pending tp);
  ok_done : forall i r, tp_resultValues tp !! i = Some (Some r) -> rv_idx r = i /\ reqs !! i = Some (rv_req r);
}.

Lemma concat_insert {A} (qs : list (list A)) i q q' :
  qs !! i = Some q -> concat (<[i := q']> qs) ++ q ≡ₚ concat qs ++ q'.
Proof.
  revert i. induction qs as [|q0 qs IH]; intros [|i] Hq; try done; cbn in *.
  - injection Hq as ->. solve_Permutation.
  - specialize (IH i Hq). rewrite <- !app_assoc, IH. done.
Qed.

Lemma pending_work tp i p q :
  tp_chReqParams tp !! i = Some (p :: q) -> pending tp ≡ₚ p :: concat (<[i := q]> (tp_chReqParams tp)).
Proof.
  intros Hq. pose proof (concat_insert _ i _ q Hq) as Hp.
  apply (Permutation_app_inv_r q). rewrite <- Hp. unfold pending. solve_Permutation.
Qed.

Lemma pending_add tp i p q :
  tp_chReqParams tp !! i = Some q -> concat (<[i := q ++ [p]]> (tp_chReqParams tp)) ≡ₚ p :: pending tp.
Proof.
  intros Hq. pose proof (concat_insert _ i _ (q ++ [p]) Hq) as Hp.
  apply (Permutation_app_inv_r q). rewrite Hp. unfold pending. solve_Permutation.
Qed.

Lemma prep_ok_start n : prep_ok [] (tp_start n).
Proof.
  assert (pending (tp_start n) = []) as E by (unfold pending; cbn; by induction n).
  split; rewrite ?E; try done; [constructor|..].
  - by intros p ?%elem_of_nil.
Qed.

Lemma prep_ok_add reqs tp req tp' : prep_ok reqs tp -> tp_Add req tp = Ok tp' -> prep_ok (reqs ++ [req]) tp'.
Proof.
  intros Hok. unfold tp_Add. destruct (_ =? 0)%nat; [done|].
  destruct (tp_chReqParams tp !! _) as [q|] eqn:Eq; [|done]. intros [= <-]. cbn [rp_idx] in *.
  set (param := MkRequestParam (tp_reqCount tp) req) in *. pose proof (pending_add tp _ param q Eq) as Hp.
  pose proof (ok_results _ _ Hok) as Hres. pose proof (ok_count _ _ Hok) as Hcnt.
  assert (forall i x, tp_resultValues tp !! i = Some x -> (i < length reqs)%nat) as Hlt.
  { intros i x Hi. apply lookup_lt_Some in Hi. lia. }
  split; cbn [tp_reqCount tp_resultValues tp_WaitGroup]; unfold pending; cbn [tp_chReqParams].
  - rewrite length_app. cbn. lia.
  - rewrite !length_app. cbn. lia.
  - rewrite Hp. cbn [length]. rewrite (ok_wait _ _ Hok). lia.
  - rewrite Hp. cbn [map]. constructor; [|apply Hok]. intros (x & Hx & Hin)%list_elem_of_fmap.
    apply (ok_pending _ _ Hok) in Hin as [_ Hn]. apply Hlt in Hn. rewrite <- Hx in Hn. cbn in Hn. lia.
  - intros x Hx. rewrite Hp in Hx. apply elem_of_cons in Hx as [-> | Hx].
    + cbn [rp_idx rp_req param]. rewrite Hcnt. split; [by apply list_lookup_middle|]. rewrite <- Hres. by apply list_lookup_middle.
    + apply (ok_pending _ _ Hok) in Hx as [H1 H2]. split; by apply lookup_app_l_Some.
  - intros i Hi. rewrite Hp. cbn [map]. apply elem_of_cons. apply lookup_app_Some in Hi as [Hi|[Hge Hi]].
    + right. by apply (ok_open _ _ Hok).
    + left. apply list_lookup_singleton_Some in Hi as [Hi _]. cbn. lia.
  - intros i r Hi. apply lookup_app_Some in Hi as [Hi|[_ Hi]].
    + destruct (ok_done _ _ Hok i r Hi) as [H1 H2]. split; [done|]. by apply lookup_app_l_Some.
    + by apply list_lookup_singleton_Some in Hi as [_ Hi].
Qed.

(** The state of the preparer after a turn. *)
Lemma routine_inv i tp s tp' s' :
  enabled tp i -> trxPreparerRoutine i (tp, s) = (Ok tt, (tp', s')) ->
  exists p q out, tp_chReqParams tp !! i = Some (p :: q) /\
    tp' = MkTrxPreparer (tp_WaitGroup tp - 1) (<[i := q]> (tp_chReqParams tp)) (tp_reqCount tp)
            (<[rp_idx p := Some (MkResultValue (rp_idx p) (rp_req p) out)]> (tp_resultValues tp)) /\
    onPrepare (rp_req p) (rp_idx p) s = (Ok out, s').
Proof.
  intros (p & q & Eq). unfold trxPreparerRoutine. rewrite Eq.
  destruct (onPrepare _ _ s) as [[out|e|] s1] eqn:Eo; [|done..]. unfold tp_complete. cbn.
  destruct (tp_resultValues tp !! rp_idx p); [|done]. destruct (_ <? 0); [done|].
  intros [= <- <-]. exists p, q, out. auto.
Qed.

Lemma prep_ok_work reqs i tp s tp' s' :
  prep_ok reqs tp -> enabled tp i -> trxPreparerRoutine i (tp, s) = (Ok tt, (tp', s')) ->
  prep_ok reqs tp' /\ tp_WaitGroup tp' = tp_WaitGroup tp - 1.
Proof.
  intros Hok He Hr. destruct (routine_inv _ _ _ _ _ He Hr) as (p & q & out & Eq & -> & _). split; [|done].
  pose proof (pending_work tp i p q Eq) as Hp. pose proof (ok_nodup _ _ Hok) as Hnd.
  rewrite Hp in Hnd. cbn [map] in Hnd. apply NoDup_cons in Hnd as [Hni Hnd].
  assert (p ∈ pending tp) as Hin by (rewrite Hp; by left).
  destruct (ok_pending _ _ Hok p Hin) as [Hreq Hnone]. pose proof (lookup_lt_Some _ _ _ Hnone) as Hlt.
  split; cbn [tp_reqCount tp_resultValues tp_WaitGroup]; unfold pending; cbn [tp_chReqParams].
  - apply Hok.
  - rewrite length_insert. apply Hok.
  - rewrite (ok_wait _ _ Hok), Hp. cbn [length]. lia.
  - done.
  - intros x Hx. assert (x ∈ pending tp) as Hx' by (rewrite Hp; by right).
    destruct (ok_pending _ _ Hok x Hx') as [H1 H2]. split; [done|]. rewrite list_lookup_insert_ne; [done|].
    intros E. apply Hni. rewrite E. by apply list_elem_of_fmap_2.
  - intros j Hj. destruct (decide (j = rp_idx p)) as [->|Hne].
    + by rewrite list_lookup_insert_eq in Hj by lia.
    + rewrite list_lookup_insert_ne in Hj by done. apply (ok_open _ _ Hok) in Hj. rewrite Hp in Hj.
      cbn [map] in Hj. apply elem_of_cons in Hj as [Hj|Hj]; done.
  - intros j r Hj. destruct (decide (j = rp_idx p)) as [->|Hne].
    + rewrite list_lookup_insert_eq in Hj by lia. injection Hj as <-. done.
    + rewrite list_lookup_insert_ne in Hj by done. by apply (ok_done _ _ Hok).
Qed.

Lemma prep_reach_ok n s0 reqs c : prep_reach n s0 reqs c -> prep_ok reqs (fst c).
Proof.
  induction 1 as [|reqs tp s req tp' Hr IH Hc Ha|reqs c c' Hr IH Hs].
  - apply prep_ok_start.
  - by eapply prep_ok_add.
  - destruct Hs as [i tp s [tp' s'] He Hw]. by apply (prep_ok_work reqs i tp s tp' s').
Qed.

(** What the callback keeps holds of the results and the state, whatever the
    order: [F] is known of the requests, [R] relates results and state. *)
Lemma prep_reach_results n s0 (F : bytes -> Prop) (R : list (option (resultValue Ctx Resp)) -> St -> Prop) :
  R [] s0 ->
  (forall rs s, R rs s -> R (rs ++ [None]) s) ->
  (forall rs s i req out s', R rs s -> F req -> rs !! i = Some None -> onPrepare req i s = (Ok out, s') ->
     R (<[i := Some (MkResultValue i req out)]> rs) s') ->
  forall reqs c, prep_reach n s0 reqs c -> Forall F reqs -> R (tp_resultValues (fst c)) (snd c).
Proof.
  intros H0 Hadd Hstep reqs c Hr. induction Hr as [|reqs tp s req tp' Hr IH Hc Ha|reqs c c' Hr IH Hs]; intros HF.
  - done.
  - apply Forall_app in HF as [HF _]. specialize (IH HF). unfold tp_Add in Ha. destruct (_ =? 0)%nat; [done|].
    destruct (tp_chReqParams tp !! _); [|done]. injection Ha as <-. by apply Hadd.
  - specialize (IH HF). destruct Hs as [i tp s [tp' s'] He Hw].
    destruct (routine_inv _ _ _ _ _ He Hw) as (p & q & out & Eq & -> & Eo).
    apply prep_reach_ok in Hr. assert (p ∈ pending tp) as Hin by (rewrite (pending_work tp i p q Eq); by left).
    destruct (ok_pending _ _ Hr p Hin) as [Hreq Hnone]. cbn in *. apply Hstep with s; try done.
    rewrite Forall_forall in HF. by apply HF, (list_elem_of_lookup_2 _ (rp_idx p)).
Qed.

(** Once the wait group is at zero every request has its result, at its index. *)
Lemma results_complete n s0 reqs tp s :
  prep_reach n s0 reqs (tp, s) -> tp_WaitGroup tp = 0 ->
  tp_resultCount tp = length reqs /\
  forall i req, reqs !! i = Some req ->
    exists r, tp_resultValues tp !! i = Some (Some r) /\ rv_idx r = i /\ rv_req r = req.
Proof.
  intros Hr Hw. apply prep_reach_ok in Hr. cbn in Hr. split; [apply (ok_results _ _ Hr)|]. intros i req Hi.
  assert (pending tp = []) as Hp.
  { apply length_zero_iff_nil. pose proof (ok_wait _ _ Hr). lia. }
  assert (is_Some (tp_resultValues tp !! i)) as [x Hx].
  { apply lookup_lt_is_Some. rewrite (ok_results _ _ Hr). by eapply lookup_lt_Some. }
  destruct x as [r|].
  - exists r. destruct (ok_done _ _ Hr i r Hx) as [E1 E2]. split; [done|]. split; [done|]. congruence.
  - apply (ok_open _ _ Hr) in Hx. rewrite Hp in Hx. by apply elem_of_nil in Hx.
Qed.

(** Whatever order the goroutines take their turns in, once the wait group
    is at zero there is exactly one result per delivered transaction, at the
    transaction's position, so the results are executed in the order of
    delivery and the checks on them never fail. *)
Theorem results_in_order n s0 reqs tp s :
  prep_reach n s0 reqs (tp, s) -> tp_WaitGroup tp = 0 ->
  tp_resultCount tp = length reqs /\
  forall i req, reqs !! i = Some req ->
    exists r, tp_resultValues tp !! i = Some (Some r) /\ rv_idx r = i /\ rv_req r = req.
Proof. apply results_complete. Qed.

(** Runs of the goroutines, with their length. *)
Inductive prep_run : nat -> TP * St -> TP * St -> Prop :=
| prep_run_nil c : prep_run 0 c c
| prep_run_step k c c1 c2 : prep_step c c1 -> prep_run k c1 c2 -> prep_run (S k) c c2.

Lemma prep_run_ok reqs k c c' :
  prep_run k c c' -> prep_ok reqs (fst c) ->
  prep_ok reqs (fst c') /\ tp_WaitGroup (fst c') = tp_WaitGroup (fst c) - Z.of_nat k.
Proof.
  induction 1 as [c|k c c1 c2 Hs Hrun IH]; intros Hr; [split; [done|lia]|].
  destruct Hs as [i tp s [tp1 s1] He Hw]. destruct (prep_ok_work _ _ _ _ _ _ Hr He Hw) as [Hr1 Hw1].
  destruct (IH Hr1) as [H1 H2]. split; [done|]. cbn in *. lia.
Qed.

(** A pending request is at the head of some channel. *)
Lemma pending_head tp p ps : pending tp = p :: ps -> exists i p' q, tp_chReqParams tp !! i = Some (p' :: q) /\ p' = p.
Proof.
  unfold pending. generalize (tp_chReqParams tp).
  intros qs. induction qs as [|[|x q] qs IH]; cbn; [done| |].
  - intros E. destruct (IH E) as (i & p' & q & Hq). by exists (S i), p', q.
  - intros [= -> _]. by exists 0%nat, p, q.
Qed.

(** After a run of the goroutines the wait group has fallen by the turns taken, and
    it is at zero exactly when no goroutine has work. *)
Lemma run_waits reqs k tp s tp' s' :
  prep_ok reqs tp -> prep_run k (tp, s) (tp', s') ->
  tp_WaitGroup tp' = tp_WaitGroup tp - Z.of_nat k /\ 0 <= tp_WaitGroup tp' /\
  (tp_WaitGroup tp' = 0 <-> forall i, ~ enabled tp' i).
Proof.
  intros Hr Hrun. destruct (prep_run_ok reqs _ _ _ Hrun Hr) as [Hok Hk]. cbn [fst] in *.
  pose proof (ok_wait _ _ Hok) as Hw. split; [done|]. split; [lia|]. split.
  - intros H0 i (p & q & Hq). pose proof (pending_work tp' i p q Hq) as Hp. rewrite Hp in Hw. cbn in Hw. lia.
  - intros Hno. destruct (pending tp') as [|p ps] eqn:Ep; [cbn in Hw; lia|]. exfalso.
    destruct (pending_head _ _ _ Ep) as (i & ? & q & Hq & ->). apply (Hno i). by exists p, q.
Qed.

(** A turn fails only by its callback. *)
Lemma turn_result reqs i tp s p q :
  prep_ok reqs tp -> tp_chReqParams tp !! i = Some (p :: q) ->
  match onPrepare (rp_req p) (rp_idx p) s with
  | (Ok out, s') => exists tp', trxPreparerRoutine i (tp, s) = (Ok tt, (tp', s')) /\
      tp_resultValues tp' !! rp_idx p = Some (Some (MkResultValue (rp_idx p) (rp_req p) out))
  | (_, s') => trxPreparerRoutine i (tp, s) = (Panic, (tp, s'))
  end.
Proof.
  intros Hok Hq. unfold trxPreparerRoutine. rewrite Hq. destruct (onPrepare _ _ s) as [[out|e|] s']; [|done..].
  unfold tp_complete. cbn. assert (p ∈ pending tp) as Hin by (rewrite (pending_work tp i p q Hq); by left).
  destruct (ok_pending _ _ Hok p Hin) as [_ Hnone]. rewrite Hnone. pose proof (ok_wait _ _ Hok) as Hw.
  rewrite (pending_work tp i p q Hq) in Hw. cbn in Hw. destruct (Z.ltb_spec (tp_WaitGroup tp - 1) 0); [lia|].
  eexists. split; [reflexivity|]. cbn. apply list_lookup_insert_eq. by eapply lookup_lt_Some.
Qed.

Lemma run_reach n s0 reqs k c c' : prep_reach n s0 reqs c -> prep_run k c c' -> prep_reach n s0 reqs c'.
Proof. intros Hr Hrun. induction Hrun as [|k c c1 c2 Hs _ IH]; [done|]. by apply IH, (prep_reach_step _ _ _ c). Qed.

(** ** Schedules *)

(** The requests are all added, then the goroutines take turns in the order of a
    schedule. *)
Definition deliver (n : nat) (reqs : list bytes) : TP :=
  foldl (fun tp r => match tp_Add r tp with Ok tp' => tp' | _ => tp end) (tp_start n) reqs.

Fixpoint work (sched : list nat) (c : TP * St) : option (TP * St) :=
  match sched with
  | [] => Some c
  | i :: sched' =>
      match tp_chReqParams (fst c) !! i, trxPreparerRoutine i c with
      | Some (_ :: _), (Ok _, c') => work sched' c'
      | _, _ => None
      end
  end.

Lemma deliver_snoc n reqs r :
  deliver n (reqs ++ [r]) = match tp_Add r (deliver n reqs) with Ok tp' => tp' | _ => deliver n reqs end.
Proof. unfold deliver. by rewrite foldl_app. Qed.

Lemma reach_deliver n s0 reqs :
  (0 < n)%nat -> (length reqs <= chanCap)%nat ->
  prep_reach n s0 reqs (deliver n reqs, s0) /\ length (tp_chReqParams (deliver n reqs)) = n /\
  Forall (fun q => (length q <= length reqs)%nat) (tp_chReqParams (deliver n reqs)).
Proof.
  intros Hn. induction reqs as [|r reqs IH] using rev_ind; intros Hl.
  { split; [constructor|]. cbn. split; [apply repeat_length|]. apply Forall_forall. by intros q ->%list_elem_of_In%repeat_spec. }
  rewrite length_app in *. cbn in Hl |- *. destruct IH as (Hr & Hlen & Hq); [lia|]. rewrite deliver_snoc.
  set (tp := deliver n reqs) in *. assert (tp_can_Add tp) as Hcan.
  { intros q Eq. rewrite Forall_lookup in Hq. specialize (Hq _ _ Eq). lia. }
  destruct (tp_Add r tp) as [tp'|e|] eqn:Ea.
  - split; [by apply (prep_reach_add _ _ _ tp)|]. unfold tp_Add in Ea. destruct (_ =? 0)%nat; [done|].
    destruct (tp_chReqParams tp !! _) as [q|] eqn:Eq; [|done]. injection Ea as <-. cbn. rewrite length_insert. split; [done|].
    apply Forall_insert; [eapply Forall_impl; [exact Hq|]; cbn; lia|]. rewrite Forall_lookup in Hq. specialize (Hq _ _ Eq).
    rewrite length_app. cbn. lia.
  - exfalso. unfold tp_Add in Ea. destruct (_ =? 0)%nat; [done|]. by destruct (tp_chReqParams tp !! _).
  - exfalso. unfold tp_Add in Ea. rewrite Hlen in Ea. destruct (Nat.eqb_spec n 0); [lia|]. cbn [rp_idx] in Ea.
    destruct (tp_chReqParams tp !! _) as [q|] eqn:Eq; [done|]. apply lookup_ge_None in Eq.
    pose proof (Nat.mod_upper_bound (tp_reqCount tp) n ltac:(lia)). lia.
Qed.

Lemma reach_work n s0 reqs sched c c' :
  prep_reach n s0 reqs c -> work sched c = Some c' -> prep_reach n s0 reqs c'.
Proof.
  revert c. induction sched as [|i sched IH]; intros [tp s] Hr Hw; cbn in Hw; [by injection Hw as <-|].
  destruct (tp_chReqParams tp !! i) as [[|p q]|] eqn:Eq; [done| |done].
  destruct (trxPreparerRoutine i (tp, s)) as [[[]|e|] c1] eqn:Et.
  - assert (work sched c1 = Some c') as Hw'.
    { unfold trxPreparerRoutine in Et. rewrite Eq in Et. by rewrite Et in Hw. }
    apply (IH c1); [|done]. eapply prep_reach_step; [exact Hr|]. apply (prep_work i); [|done]. by exists p, q.
  - unfold trxPreparerRoutine in Et. rewrite Eq in Et. by rewrite Et in Hw.
  - unfold trxPreparerRoutine in Et. rewrite Eq in Et. by rewrite Et in Hw.
Qed.

Lemma run_work sched c c' : work sched c = Some c' -> prep_run (length sched) c c'.
Proof.
  revert c. induction sched as [|i sched IH]; intros [tp s] Hw; cbn [work fst length] in *; [injection Hw as <-; constructor|].
  destruct (tp_chReqParams tp !! i) as [[|p q]|] eqn:Eq; [done| |done].
  destruct (trxPreparerRoutine i (tp, s)) as [[[]|e|] c1] eqn:Et; [|done..].
  eapply prep_run_step; [apply (prep_work i); [by exists p, q|exact Et]|by apply IH].
Qed.

End Preparer.

(** ** Two goroutines and three transactions *)

Module PreparerWitness.

Definition callback (req : bytes) (i : nat) : M nat (bytes + Z) := fun st => (Ok (inl req), S st).

Definition add (req : bytes) (tp : TrxPreparer bytes Z) : TrxPreparer bytes Z :=
  match tp_Add req tp with Ok tp' => tp' | _ => tp end.

Definition turn (i : nat) (c : TrxPreparer bytes Z * nat) : TrxPreparer bytes Z * nat :=
  snd (trxPreparerRoutine callback i c).

Definition reqs3 : list bytes := [[1]; [2]; [3]].
Definition added : TrxPreparer bytes Z := add [3] (add [2] (add [1] (tp_start 2))).
Definition prepared : TrxPreparer bytes Z * nat := turn 0 (turn 1 (turn 0 (added, 0%nat))).

Lemma added_reach : prep_reach callback 2 0%nat reqs3 (added, 0%nat).
Proof.
  apply (prep_reach_add callback 2 0%nat [[1]; [2]] (add [2] (add [1] (tp_start 2))) 0%nat [3]); [| |done].
  - apply (prep_reach_add callback 2 0%nat [[1]] (add [1] (tp_start 2)) 0%nat [2]); [| |done].
    + apply (prep_reach_add callback 2 0%nat [] (tp_start 2) 0%nat [1]); [constructor| |done].
      intros q Hq. vm_compute in Hq. injection Hq as <-. vm_compute. lia.
    + intros q Hq. vm_compute in Hq. injection Hq as <-. vm_compute. lia.
  - intros q Hq. vm_compute in Hq. injection Hq as <-. vm_compute. lia.
Qed.

Lemma turns : prep_run callback 3 (added, 0%nat) prepared.
Proof.
  assert (forall i c, enabled (fst c) i -> fst (trxPreparerRoutine callback i c) = Ok tt ->
    prep_step callback c (turn i c)) as Ht.
  { intros i [tp s] He Ho. apply (prep_work callback i tp s); [done|]. unfold turn. by destruct (trxPreparerRoutine _ _ _) as [? ?]; cbn in *; subst. }
  eapply prep_run_step; [apply (Ht 0%nat); [by do 2 eexists|done]|].
  eapply prep_run_step; [apply (Ht 1%nat); [by do 2 eexists|done]|].
  eapply prep_run_step; [apply (Ht 0%nat); [by do 2 eexists|done]|]. constructor.
Qed.

Lemma results_in_order_witness :
  tp_resultCount (fst prepared) = 3%nat /\
  forall i req, reqs3 !! i = Some req ->
    exists r, tp_resultValues (fst prepared) !! i = Some (Some r) /\ rv_idx r = i /\ rv_req r = req.
Proof.
  apply (results_in_order callback 2 0%nat reqs3 (fst prepared) (snd prepared)).
  - apply (run_reach callback 2 0%nat reqs3 3 (added, 0%nat)); [exact added_reach|exact turns].
  - vm_compute. reflexivity.
Defined.

End PreparerWitness.
