(* ===== verification/App.v ===== *)
(** * App: the application behind the consensus engine

    [node/app.go] and the genesis state of [genesis/].  The consensus engine
    calls [Info] and [InitChain] once, [CheckTx] for every transaction of its
    pool, and [BeginBlock], [DeliverTx], [EndBlock] and [Commit] for every
    block.  [Node] is the application without the preparer of transactions,
    which is kept beside it ([TrxPreparer]).  A delivered transaction is only
    handed to the preparer; its goroutines make the contexts, and [EndBlock]
    runs them in order once all are made.  Events of the controllers, the log
    and the locks are left out; texts of errors keep their format verbs. *)
From stdpp Require Import base gmap list strings.
From Stdlib Require Import ZArith Lia.
From S2P Require Import Prelude XErrors GoMonad LedgerKeys Iavl Ledger Units HexBytes Proto GovParams.
From S2P Require Import Account TrxTypes Signer AcctCtrler VPowerItems ValSet VPowerCtrler.
From S2P Require Import Proposal GovCtrler Numbers Weights SupplyCtrler TrxCtx MetaDB.
From S2P Require Import TrxExecutor TrxPreparer.

(** What the application reads of its configuration: the chain id, and whether
    the RPC service listens. *)
Record Config := MkConfig {
  cfg_ChainId : Z;
  cfg_RPC : bool;
}.

(** The texts of a chain id: [uint256]'s [MustFromHex], [MustFromDecimal] (they
    panic on other texts) and [Hex]. *)
Class ChainIdText : Type := {
  u256_MustFromHex : bytes -> outcome Z;
  u256_MustFromDecimal : bytes -> outcome Z;
  u256_Hex : Z -> bytes;
}.

(** ** Requests and responses *)

Record GenesisAppState := MkGenesisAppState {
  ga_AssetHolders : list (Address * Z);
  ga_GovParams : option GovParamsProto;
}.

(** [jsonx.Unmarshal] into a genesis state. *)
Class GenesisJson : Type := json_GenesisAppState : bytes -> outcome GenesisAppState.

Record RequestInitChain := MkRequestInitChain {
  ri_ChainId : bytes;
  ri_Validators : list (bytes * Z);
  ri_AppStateBytes : bytes;
  ri_MaxBytes : Z;
  ri_MaxGas : Z;
}.

Inductive CheckTxType : Type := CheckTxType_New | CheckTxType_Recheck.

Record ResponseCheckTx := MkResponseCheckTx {
  rc_Code : Z;
  rc_Log : string;
  rc_GasWanted : Z;
  rc_GasUsed : Z;
}.

Record ResponseDeliverTx := MkResponseDeliverTx {
  rd_Code : Z;
  rd_Log : string;
  rd_GasWanted : Z;
  rd_GasUsed : Z;
  rd_Data : option bytes;
  rd_Events : list Event;
}.

Record ResponseEndBlock := MkResponseEndBlock {
  re_ValidatorUpdates : list ValidatorUpdate;
  re_ConsensusParams : option (Z * Z);     (* MaxBytes, MaxGas *)
}.

Definition CodeTypeOK : Z := 0.

(** [TrxTypeString] *)
Definition TrxTypeString (t : Z) : bytes :=
  if t =? TRX_TRANSFER then text "transfer"
  else if t =? TRX_STAKING then text "staking"
  else if t =? TRX_UNSTAKING then text "unstaking"
  else if t =? TRX_WITHDRAW then text "withdraw"
  else if t =? TRX_PROPOSAL then text "proposal"
  else if t =? TRX_VOTING then text "voting"
  else if t =? TRX_CONTRACT then text "contract"
  else if t =? TRX_SETDOC then text "setdoc"
  else text "unknown".

(** [panic(xerr)] on an error. *)
Definition must {S A} (m : M S A) : M S A :=
  fun s => match m s with (Err _, s') => (Panic, s') | r => r end.

(** ** The state *)

Record Node (T I E GP D : Type) := MkNode {
  nd_chain : Chain T I E;
  nd_last : option (BlockContext GP);
  nd_curr : option (BlockContext GP);
  nd_meta : MetaDB D;
  nd_signers : Signers;                 (* made by [Info], the engine's first call *)
  nd_interval : Z;                      (* CreateEmptyBlocksInterval, seconds *)
}.
Arguments MkNode {T I E GP D} _ _ _ _ _ _.
Arguments nd_chain {T I E GP D} _.
Arguments nd_last {T I E GP D} _.
Arguments nd_curr {T I E GP D} _.
Arguments nd_meta {T I E GP D} _.
Arguments nd_signers {T I E GP D} _.
Arguments nd_interval {T I E GP D} _.

#[local] Obligation Tactic := idtac.

Program Definition node_chain {T I E GP D} : lens (Node T I E GP D) (Chain T I E) :=
  Lens nd_chain (fun c n => MkNode c (nd_last n) (nd_curr n) (nd_meta n) (nd_signers n) (nd_interval n)) _ _ _.
Next Obligation. done. Qed.
Next Obligation. now intros ? ? ? ? ? []. Qed.
Next Obligation. done. Qed.

Program Definition node_meta {T I E GP D} : lens (Node T I E GP D) (MetaDB D) :=
  Lens nd_meta (fun m n => MkNode (nd_chain n) (nd_last n) (nd_curr n) m (nd_signers n) (nd_interval n)) _ _ _.
Next Obligation. done. Qed.
Next Obligation. now intros ? ? ? ? ? []. Qed.
Next Obligation. done. Qed.

Section App.
Context {T I : Type} `{Iavl T I}.
Context `{Proto AcctProto, GovProtos, GovJson, VPowerProtos, SupplyProtos, TrxProtos, CryptoLib, RlpLib, TmHash}.
Context {GP : Type} `{GasPoolLib GP}.
Context {E : Type} `{!IEVMHandler E GP (AcctCtrler T I)}.
Context {D : Type} `{TmDB D, BctxJson, ChainIdText, GenesisJson}.
Context {Dec Fixed : Type} `{DecimalLib Dec, FixedLib Fixed}.
Abbreviation N := (Node T I E GP D).
Abbreviation NM := (M (Node T I E GP D)).
Abbreviation BC := (BlockContext GP).
Abbreviation TP := (TrxPreparer TrxContext ResponseDeliverTx).

Definition n_gov {B} (m : M (GovCtrler T I) B) : NM B := zoom (lens_comp node_chain gov_of) m.
Definition n_acct {B} (m : M (AcctCtrler T I) B) : NM B := zoom (lens_comp node_chain acct_of) m.
Definition n_vp {B} (m : M (VPowerCtrler T I * AcctCtrler T I) B) : NM B := zoom (lens_comp node_chain vp_acct_of) m.
Definition n_sup {B} (m : M (SupplyCtrler T I * AcctCtrler T I) B) : NM B := zoom (lens_comp node_chain sup_acct_of) m.
Definition n_evm {B} (m : M (E * AcctCtrler T I) B) : NM B := zoom (lens_comp node_chain evm_acct_of) m.

Definition n_govParams : NM GovParamsProto := gets (fun n => govParams (ch_gov (nd_chain n))).

Definition set_last (b : option BC) (n : N) : N :=
  MkNode (nd_chain n) b (nd_curr n) (nd_meta n) (nd_signers n) (nd_interval n).
Definition set_curr (b : option BC) (n : N) : N :=
  MkNode (nd_chain n) (nd_last n) b (nd_meta n) (nd_signers n) (nd_interval n).
Definition set_signers (sg : Signers) (n : N) : N :=
  MkNode (nd_chain n) (nd_last n) (nd_curr n) (nd_meta n) sg (nd_interval n).
Definition set_interval (i : Z) (n : N) : N :=
  MkNode (nd_chain n) (nd_last n) (nd_curr n) (nd_meta n) (nd_signers n) i.

(** A nil context is dereferenced: a panic. *)
Definition the_last : NM BC :=
  let! o := gets nd_last in match o with Some b => ret b | None => panic end.
Definition the_curr : NM BC :=
  let! o := gets nd_curr in match o with Some b => ret b | None => panic end.

(** ** Starting *)

Definition parseChainId (cid : bytes) : outcome Z :=
  if HasPrefix0x cid then u256_MustFromHex cid else u256_MustFromDecimal cid.

(** [Info]; [now] is the canonical time.  The response: height and hash. *)
Definition Info (cfg : Config) (now : Z) : NM (Z * bytes) :=
  let! m := gets nd_meta in
  let! o := lift (LastBlockContext m) in
  let! gp := n_govParams in
  let! b := (match o with
             | None => lift (NewBlockContext (MkRequestBeginBlock (u256_Hex (cfg_ChainId cfg)) 0 now [] [] []) gp)
             | Some b => ret b
             end) in
  modify (set_last (Some b)) ;;;
  (if negb (bytes_Equal (bc_ChainID b) []) then
     let! chainId := lift (parseChainId (bc_ChainID b)) in
     if negb (uCmp chainId (cfg_ChainId cfg) =? 0) then panic else ret tt
   else modify (set_last (Some (SetChainID (u256_Hex (cfg_ChainId cfg)) b)))) ;;;
  modify (set_signers (MkSigners (u256_Hex (cfg_ChainId cfg)) (cfg_ChainId cfg))) ;;;
  modify (set_interval (GovParams.EmptyBlockIntervalSecs gp)) ;;;
  let! last := the_last in
  ret (bc_Height last, bc_appHash last).

Definition GenesisAssetHolder_Hash (h : Address * Z) : bytes := DefaultHash [fst h; uBytes (snd h)].

(** [GenesisAppState.Hash] *)
Definition GenesisAppState_Hash (gp : GovParamsProto) (holders : list (Address * Z)) : outcome bytes :=
  obind (from_err (Marshal gp)) (fun bz => Ok (DefaultHash (bz :: map GenesisAssetHolder_Hash holders))).

(** The genesis state and the initial supply. *)
Definition checkRequestInitChain (req : RequestInitChain) : outcome (GovParamsProto * list (Address * Z) * Z) :=
  let genVotinPower := fold_left (fun acc v => i64 (acc + snd v)) (ri_Validators req) 0 in
  let genVotingPowerAmt := PowerToAmount genVotinPower in
  obind (json_GenesisAppState (ri_AppStateBytes req)) (fun ga =>
  let genTotalSupply := fold_left (fun acc h => uadd acc (snd h)) (ga_AssetHolders ga) genVotingPowerAmt in
  match ga_GovParams ga with
  | None => Panic
  | Some gp =>
      if 0 <? uCmp genTotalSupply (GovParams.MaxTotalSupply gp)
      then Err (GoError "error: initial supply (%d) cannot exceed max total supply (%d)")
      else Ok (gp, ga_AssetHolders ga, genTotalSupply)
  end).

(** The virtual machine has no genesis state. *)
Definition InitChain (req : RequestInitChain) : NM bytes :=
  let! r := must (lift (checkRequestInitChain req)) in
  let '(gp, holders, initTotalSupply) := r in
  must (n_gov (gov_InitLedger gp)) ;;;
  must (n_acct (acct_InitLedger holders)) ;;;
  ignore (n_sup (zoom fst_lens (supply_InitLedger initTotalSupply))) ;;;
  must (n_vp (zoom fst_lens (vpower_InitLedger (ri_Validators req)))) ;;;
  let! appHash := must (lift (GenesisAppState_Hash gp holders)) in
  let! last := the_last in
  let b := SetBlockSizeLimit (ri_MaxBytes req) (SetChainID (ri_ChainId req) last) in
  let! b' := lift (setBlockGasLimit (ri_MaxGas req) b) in
  modify (set_last (Some (SetAppHash appHash b'))) ;;;
  modify (fun n => set_interval (GovParams.EmptyBlockIntervalSecs (govParams (ch_gov (nd_chain n)))) n) ;;;
  ret appHash.

(** ** Checking transactions *)

(** [ExecuteSync] with a context, in a block context: its value or error, and
    the two contexts after it. *)
Definition run_trx (ctx : TrxContext) (b : BC) : NM ((unit + error) * TrxContext * BC) :=
  fun n =>
    match ExecuteSync (MkXState ctx b (nd_chain n)) with
    | (Ok a, x) => (Ok (inl a, x_ctx x, x_bctx x), lset node_chain (x_chain x) n)
    | (Err e, x) => (Ok (inr e, x_ctx x, x_bctx x), lset node_chain (x_chain x) n)
    | (Panic, x) => (Panic, lset node_chain (x_chain x) n)
    end.

Definition checkNewTx (txbz : bytes) : NM ResponseCheckTx :=
  let! last := the_last in
  let! gp := n_govParams in
  let! sg := gets nd_signers in
  let! b := lift (ExpectNextBlockContext last (GovParams.EmptyBlockIntervalSecs gp * 1000000000) gp) in
  let! r := try (n_acct (NewTrxContext sg gp (bc_txsCnt b) txbz false)) in
  match r with
  | inr e => let xerr := Wrap ErrCheckTx e in ret (MkResponseCheckTx (Code xerr) (Error xerr) 0 0)
  | inl txctx =>
      let! r := run_trx txctx b in
      let '(res, ctx', _) := r in
      match res with
      | inr e =>
          let xerr := Wrap ErrCheckTx e in
          ret (MkResponseCheckTx (Code xerr) (Error xerr) (tx_Gas (tc_Tx ctx')) 0)
      | inl _ => ret (MkResponseCheckTx CodeTypeOK EmptyString (tx_Gas (tc_Tx ctx')) (tc_GasUsed ctx'))
      end
  end.

(** The loop of the recheck, which runs once. *)
Definition recheck (tx : Trx) (sender : loc) (payer : option loc) : M (AcctCtrler T I) unit :=
  let feeAmt := GasToFee (tx_Gas tx) (tx_GasPrice tx) in
  let! sa := acct_get sender in
  (match payer with
   | None => lift (CheckBalance sa (uadd feeAmt (tx_Amount tx)))
   | Some p =>
       lift (CheckBalance sa (tx_Amount tx)) ;;;
       let! pa := acct_get p in
       lift (CheckBalance pa feeAmt)
   end) ;;;
  (match CheckNonce sa (tx_Nonce tx) with
   | Err e => throw (Wrap e (GoError "ledger: %v, tx:%v, address: %v, txhash: %X"))
   | o => lift o
   end) ;;;
  acct_update sender (fun a => Ok (AddNonce a)) ;;;
  match payer with
  | None =>
      acct_update sender (fun a => SubBalance a (uadd feeAmt (tx_Amount tx))) ;;;
      SetAccount sender false
  | Some p =>
      acct_update sender (fun a => SubBalance a (tx_Amount tx)) ;;;
      acct_update p (fun a => SubBalance a feeAmt) ;;;
      SetAccount sender false ;;;
      SetAccount p false
  end.

Definition recheckTx (txbz : bytes) : NM ResponseCheckTx :=
  let fails (gas : Z) (e : error) :=
    let xerr := Wrap ErrCheckTx e in MkResponseCheckTx (Code xerr) (Error xerr) gas 0 in
  let! d := try (lift (tx_Decode txbz)) in
  match d with
  | inr e => ret (fails 0 e)
  | inl tx =>
      let! s := n_acct (FindAccount (tx_From tx) false) in
      match s with
      | None => ret (fails (tx_Gas tx) (Wrapf ErrNotFoundAccount "sender address: %v"))
      | Some sender =>
          let! p := (if bytes_Equal (tx_Payer tx) [] then ret (inl None)
                     else let! p := n_acct (FindAccount (tx_Payer tx) false) in
                          match p with
                          | None => ret (inr (Wrapf ErrNotFoundAccount "payer address: %v"))
                          | Some p => ret (inl (Some p))
                          end) in
          match p with
          | inr e => ret (fails (tx_Gas tx) e)
          | inl payer =>
              let! r := try (n_acct (recheck tx sender payer)) in
              match r with
              | inl _ => ret (MkResponseCheckTx CodeTypeOK EmptyString (tx_Gas tx) (tx_Gas tx))
              | inr e =>
                  let xerr := Wrap ErrCheckTx e in
                  ret (MkResponseCheckTx (Code xerr) (Error xerr) (tx_Gas tx) (tx_Gas tx))
              end
          end
      end
  end.

Definition CheckTx (type : CheckTxType) (txbz : bytes) : NM ResponseCheckTx :=
  match type with
  | CheckTxType_New => checkNewTx txbz
  | CheckTxType_Recheck => recheckTx txbz
  end.

(** ** Blocks *)

(** The weights the mint of the block is computed from. *)
Definition blockWeight (gp : GovParamsProto) (height : Z) (vp : VPowerCtrler T I) (supply : Z)
    : outcome (fxnumWeight Fixed) :=
  fst (ComputeWeight height (GovParams.InflationCycleBlocks gp) (GovParams.RipeningBlocks gp)
         (GovParams.BondingBlocksWeightPermil gp) supply vp).

(** The account controller has nothing to do here. *)
Definition BeginBlock (req : RequestBeginBlock) : NM unit :=
  let! last := the_last in
  if negb (rb_Height req =? i64 (bc_Height last + 1)) then panic
  else
    let! gp := n_govParams in
    let! b0 := lift (NewBlockContext req gp) in
    let! b := lift (setBlockGasLimit (GovParams.BlockGasLimit gp)
                      (SetBlockSizeLimit (GovParams.BlockSizeLimit gp) b0)) in
    modify (set_curr (Some b)) ;;;
    must (n_gov (gov_BeginBlock (rb_Byzantines req))) ;;;
    let! vp := gets (fun n => ch_vp (nd_chain n)) in
    must (n_sup (zoom fst_lens (supply_BeginBlock (Dec := Dec) gp (rb_Height req)
                                  (blockWeight gp (rb_Height req) vp)))) ;;;
    must (n_vp (vpower_BeginBlock gp (MkBlockInfo (rb_Height req) (rb_Byzantines req) (rb_Votes req)))) ;;;
    must (n_evm (evm_BeginBlock b gp)).

(** The callback of the preparer. *)
Definition onPrepare (txbz : bytes) (idx : nat) : NM (TrxContext + ResponseDeliverTx) :=
  let! b := the_curr in
  let! gp := n_govParams in
  let! sg := gets nd_signers in
  let! r := try (n_acct (NewTrxContext sg gp (bc_txsCnt b) txbz true)) in
  match r with
  | inr e =>
      let xerr := Wrap ErrDeliverTx e in
      ret (inr (MkResponseDeliverTx (Code xerr) (Error xerr) 0 0 None []))
  | inl txctx =>
      modify (fun n => set_curr (option_map (AddTxsCnt 1) (nd_curr n)) n) ;;;
      ret (inl txctx)
  end.

(** [DeliverTx] hands the transaction over; its response has no meaning. *)
Definition DeliverTx (txbz : bytes) : M (TP * N) unit :=
  let! tp := gets fst in
  let! tp' := lift (tp_Add txbz tp) in
  modify (fun c => (tp', snd c)).

Definition tx_event (attrs : list (bytes * bytes * bool)) : Event := MkEvent (text "tx") attrs.

Definition failed_event (tx : Trx) (code : Z) : Event :=
  tx_event [(text "type", TrxTypeString (GetType tx), true);
            (text "sender", HexBytes_String (tx_From tx), true);
            (text "status", Dec_text code, false)].

Definition done_event (tx : Trx) : Event :=
  tx_event [(text "type", TrxTypeString (GetType tx), true);
            (text "sender", HexBytes_String (tx_From tx), true);
            (text "receiver", HexBytes_String (tx_To tx), true);
            (text "addrpair", HexBytes_String (tx_From tx) ++ HexBytes_String (tx_To tx), true);
            (text "amount", Dec_text (tx_Amount tx), false);
            (text "status", text "0", false)].

(** The block context of the transaction is the current one. *)
Definition asyncExecTrxContext (txctx : TrxContext) : NM ResponseDeliverTx :=
  let! b := the_curr in
  let! r := run_trx txctx b in
  let '(res, ctx, b') := r in
  match res with
  | inr e =>
      let xerr := Wrap ErrDeliverTx e in
      modify (set_curr (Some b')) ;;;
      let ctx' := add_Events [failed_event (tc_Tx ctx) (Code xerr)] ctx in
      ret (MkResponseDeliverTx (Code xerr) (Error xerr) (tx_Gas (tc_Tx ctx')) (tc_GasUsed ctx')
             (EventRoot ctx') (tc_Events ctx'))
  | inl _ =>
      let! gp := n_govParams in
      modify (set_curr (Some (AddFee (GasToFee (tc_GasUsed ctx) (GovParams.GasPrice gp)) b'))) ;;;
      let ctx' := add_Events [done_event (tc_Tx ctx)] ctx in
      ret (MkResponseDeliverTx CodeTypeOK EmptyString (tx_Gas (tc_Tx ctx')) (tc_GasUsed ctx')
             (EventRoot ctx') (tc_Events ctx'))
  end.

(** The results in their order; each response is given to the engine's
    callback with its request. *)
Fixpoint exec_results (idx : nat) (rs : list (option (resultValue TrxContext ResponseDeliverTx)))
    : NM (list (bytes * ResponseDeliverTx)) :=
  match rs with
  | [] => ret []
  | None :: _ => panic
  | Some r :: rs' =>
      if negb (idx =? rv_idx r)%nat then panic
      else
        let! res := (match rv_out r with
                     | inl txctx => asyncExecTrxContext txctx
                     | inr resp => ret resp
                     end) in
        let! rest := exec_results (S idx) rs' in
        ret ((rv_req r, res) :: rest)
  end.

(** The transactions of the block, after [Wait] has returned. *)
Definition execTrxs : M (TP * N) (list (bytes * ResponseDeliverTx)) :=
  let! tp := gets fst in
  let! b := zoom snd_lens the_curr in
  if negb (Z.of_nat (tp_resultCount tp) =? bc_txsCnt b) then panic
  else
    let! calls := zoom snd_lens (exec_results 0 (tp_resultValues tp)) in
    modify (fun c => (tp_reset (fst c), snd c)) ;;;
    ret calls.

(** The controllers' part of [EndBlock]; the virtual machine has nothing to do
    unless its handler says so. *)
Definition endControllers : NM ResponseEndBlock :=
  let! b := the_curr in
  let! gp := n_govParams in
  must (n_gov (gov_EndBlock (bc_Height b))) ;;;
  must (n_acct (acct_EndBlock gp (rb_ProposerAddress (bc_blockInfo b)) (bc_feeSum b))) ;;;
  must (n_sup (zoom fst_lens (supply_EndBlock gp (bc_Height b)))) ;;;
  let! ups := must (n_vp (vpower_EndBlock gp (bc_Height b))) in
  modify (set_curr (Some (SetValUpdates ups b))) ;;;
  must (n_evm evm_EndBlock) ;;;
  let! gp' := n_govParams in
  let size := GovParams.BlockSizeLimit gp' in
  let gas := GovParams.BlockGasLimit gp' in
  ret (MkResponseEndBlock ups
         (if negb (size =? bc_blockSizeLimit b) || negb (gas =? bc_blockGasLimit b)
          then Some (size, gas) else None)).

Definition EndBlock : M (TP * N) (list (bytes * ResponseDeliverTx) * ResponseEndBlock) :=
  let! calls := execTrxs in
  let! resp := zoom snd_lens endControllers in
  ret (calls, resp).

(** [Commit] of one controller: its hash, when its version is the height. *)
Definition commit_ctrler (height : Z) (m : NM (bytes * Z)) : NM bytes :=
  let! hv := must m in
  if negb (height =? snd hv) then panic else ret (fst hv).

(** The counters are kept when the RPC service listens. *)
Definition count_block (cfg : Config) (b : BC) : M (MetaDB D) unit :=
  if cfg_RPC cfg then
    (if 0 <? bc_txsCnt b
     then let! txn := gets mdb_txn in ignore (PutTxn (u64 (txn + u64 (bc_txsCnt b))))
     else ret tt) ;;;
    (if 0 <? uSign (bc_feeSum b)
     then let! fee := gets mdb_totalTxFee in ignore (PutTotalTxFee (uadd fee (bc_feeSum b)))
     else ret tt)
  else ret tt.

Definition Commit (cfg : Config) : NM bytes :=
  let! b := the_curr in
  let height := bc_Height b in
  let! h1 := commit_ctrler height (n_gov gov_Commit) in
  let! h2 := commit_ctrler height (n_acct acct_Commit) in
  let! h3 := commit_ctrler height (n_sup (zoom fst_lens supply_Commit)) in
  let! h4 := commit_ctrler height (n_vp (zoom fst_lens vpower_Commit)) in
  let! h5 := commit_ctrler height (n_evm evm_Commit) in
  let appHash := DefaultHash [h1; h2; h3; h4; h5] in
  let b' := SetAppHash appHash b in
  ignore (zoom node_meta (PutLastBlockContext b')) ;;;
  modify (fun n => set_curr None (set_last (Some b') n)) ;;;
  zoom node_meta (count_block cfg b') ;;;
  ret appHash.

End App.
