(* ===== verification/Making.v ===== *)
(** * Making: the contexts of a block's transactions

    Whatever order the goroutines of the preparer work in, the contexts they make
    are those of the delivered transactions, in the order of delivery, on one
    object per address, and the block counts them. *)
From stdpp Require Import base gmap list strings.
From Stdlib Require Import ZArith Lia.
From S2P Require Import Prelude XErrors GoMonad LedgerKeys Iavl Ledger LedgerSpec LedgerOps.
From S2P Require Import Units HexBytes Proto GovParams Account TrxTypes Signer AcctCtrler AcctSpec AcctProps.
From S2P Require Import VPowerItems VPowerCtrler Proposal GovCtrler Numbers SupplyCtrler.
From S2P Require Import TrxCtx MetaDB TrxExecutor Bank TrxPreparer App.

Section Blocks.
Context {T I : Type} `{Iavl T I}.
Context `{Proto AcctProto, GovProtos, GovJson, VPowerProtos, SupplyProtos, TrxProtos, CryptoLib, RlpLib, TmHash}.
Context {GP : Type} `{GasPoolLib GP}.
Context {E : Type} `{!IEVMHandler E GP (AcctCtrler T I)}.
Context {D : Type} `{TmDB D, BctxJson, ChainIdText, GenesisJson}.
Abbreviation Nd := (Node T I E GP D).
Abbreviation Res := (list (option (resultValue TrxContext ResponseDeliverTx))).
Implicit Types (n s : Node T I E GP D) (rs : list (option (resultValue TrxContext ResponseDeliverTx))).

(** ** Counting contexts *)

Definition is_made (o : option (resultValue TrxContext ResponseDeliverTx)) : bool :=
  match o with Some r => match rv_out r with inl _ => true | inr _ => false end | None => false end.

Definition made rs : nat := length (List.filter is_made rs).

Lemma made_app rs rs' : made (rs ++ rs') = (made rs + made rs')%nat.
Proof. unfold made. by rewrite List.filter_app, length_app. Qed.

Lemma made_insert rs i o : rs !! i = Some None -> made (<[i := o]> rs) = (made rs + (if is_made o then 1 else 0))%nat.
Proof.
  intros Hi. pose proof (lookup_lt_Some _ _ _ Hi) as Hlt.
  rewrite <- (take_drop_middle rs i None Hi) at 2. rewrite insert_take_drop by done.
  rewrite !made_app. change (o :: drop (S i) rs) with ([o] ++ drop (S i) rs).
  change (None :: drop (S i) rs) with ([None] ++ drop (S i) rs). rewrite !made_app. unfold made at 2 5. cbn.
  destruct (is_made o); cbn; lia.
Qed.

Lemma made_length rs : (made rs <= length rs)%nat.
Proof. apply filter_length_le. Qed.

Lemma made_lt rs i r resp : rs !! i = Some (Some r) -> rv_out r = inr resp -> (made rs < length rs)%nat.
Proof.
  intros Hi Hr. rewrite <- (take_drop_middle rs i _ Hi) at 1. rewrite made_app.
  change (Some r :: drop (S i) rs) with ([Some r] ++ drop (S i) rs). rewrite made_app.
  assert (made [Some r] = 0%nat) as -> by (unfold made; cbn; by rewrite Hr).
  pose proof (made_length (take i rs)). pose proof (made_length (drop (S i) rs)).
  pose proof (lookup_lt_Some _ _ _ Hi). rewrite length_take, length_drop in *. lia.
Qed.

Lemma made_all rs : Forall (fun o => is_made o = true) rs -> made rs = length rs.
Proof. intros Ha. unfold made. induction Ha as [|o rs Ho _ IH]; cbn; [done|]. rewrite Ho. cbn. by rewrite IH. Qed.

(** The callback changes the accounts, and counts a context it has made. *)
Lemma onPrepare_inv req i n out n' :
  onPrepare req i n = (Ok out, n') ->
  exists b a', nd_curr n = Some b /\
    n' = MkNode (lset acct_of a' (nd_chain n)) (nd_last n)
           (Some (match out with inl _ => AddTxsCnt 1 b | inr _ => b end)) (nd_meta n) (nd_signers n) (nd_interval n).
Proof.
  unfold onPrepare, the_curr, n_govParams, n_acct, try, bind, gets, modify, ret, zoom, panic.
  destruct (nd_curr n) as [b|] eqn:Eb; [|done]. cbn [lget lens_comp].
  destruct (NewTrxContext _ _ _ _ _ _) as [[c|e|] a']; [..|done]; intros [= <- <-]; exists b, a'; split; try done; cbn;
    unfold set_curr; cbn; by rewrite ?Eb.
Qed.

(** The current context counts the contexts made. *)
Definition counted rs n : Prop :=
  exists b, nd_curr n = Some b /\ bc_txsCnt b = i64 (Z.of_nat (made rs)).

Lemma counted_reach k n0 b0 reqs tp n :
  prep_reach onPrepare k n0 reqs (tp, n) -> nd_curr n0 = Some b0 -> bc_txsCnt b0 = 0 ->
  counted (tp_resultValues tp) n.
Proof.
  intros Hr Hb0 Hc0.
  refine (prep_reach_results onPrepare k n0 (fun _ => True) counted _ _ _ reqs (tp, n) Hr _); [| | |by apply Forall_true].
  - by exists b0.
  - intros rs s (b & Hb & Hc). exists b. split; [done|]. rewrite made_app. unfold made at 2. cbn. by rewrite Nat.add_0_r.
  - intros rs s i req out s' (b & Hb & Hc) _ Hi Ho. destruct (onPrepare_inv _ _ _ _ _ Ho) as (b' & a' & Hb' & ->).
    assert (b' = b) as -> by congruence. eexists. split; [done|]. rewrite made_insert by done. unfold is_made. cbn [rv_out].
    destruct out; cbn; [|by rewrite Nat.add_0_r]. rewrite Hc, i64_add_l. f_equal. lia.
Qed.

End Blocks.

Section Making.
Context {T I : Type} `{Iavl T I, !IavlLaws T I}.
Context `{Utf8, Proto AcctProto, !ProtoLaws AcctProto AcctProto_ok}.
Context `{GovProtos, GovJson, VPowerProtos, SupplyProtos, TrxProtos, CryptoLib, RlpLib, TmHash}.
Context {GP : Type} `{GasPoolLib GP, !GasPoolLaws GP}.
Context {E : Type} `{!IEVMHandler E GP (AcctCtrler T I)}.
Context {D : Type} `{TmDB D, BctxJson, ChainIdText, GenesisJson}.
Implicit Types (n s : Node T I E GP D) (b : bank) (P : gmap Address loc) (c : TrxContext).

(** ** Preparing returns *)

Lemma open_trx_To sg gp req tx pub p :
  open_trx sg gp req = Ok (tx, pub, p) -> length (if bytes_Equal (tx_To tx) [] then ZeroAddress else tx_To tx) = AddrSize.
Proof.
  unfold open_trx. destruct (tx_Decode req) as [tx'|e|]; [|done..]. cbn [obind].
  destruct (Validate tx') as [[]|e|] eqn:Ev; [|done..]. cbn [obind]. destruct (_ <? _); [done|]. destruct (negb _); [done|].
  destruct (VerifyTrxRLP sg tx') as [[a pk]|e|]; [|done..]. cbn [obind]. intros Hr.
  assert (tx' = tx) as ->.
  { destruct (bytes_Equal (tx_PayerSig tx') []); [by injection Hr|]. destruct (VerifyPayerTrxRLP _ _) as [[? ?]|e|]; [by injection Hr|done..]. }
  destruct (bytes_Equal (tx_To tx) []) eqn:Et; [done|]. unfold Validate in Ev. rewrite Et in Ev. destruct (negb (_ =? _)%nat); [done|].
  destruct (Nat.eqb_spec (length (tx_To tx)) AddrSize); [done|]. cbn in Ev. by rewrite orb_true_r in Ev.
Qed.

(** The accounts of a transaction are found, or one of them is missing. *)
Lemma wp_find_parties_total (a : AcctCtrler T I) m tx p Q :
  ainv ∅ a m -> length (if bytes_Equal (tx_To tx) [] then ZeroAddress else tx_To tx) = AddrSize ->
  (forall o a', o <> Panic -> ainv ∅ a' m -> Q o a') -> wp (find_parties tx p true) Q a.
Proof.
  intros HI Hto HQ. unfold find_parties. apply wp_bind, (wp_findAccount a m _ _ HI). intros [s|] a1 HI1 _ _ _; [|by apply HQ].
  cbv zeta. apply wp_bind. eapply wp_mono; [exact (ctrl_FindOrNew_spec a1 m _ HI1 Hto)|].
  intros [r|e|] a2; unfold okQ; try done. intros (HI2 & _). destruct (bytes_Equal p []); [apply wp_ret; by apply HQ|].
  apply wp_bind, (wp_findAccount a2 m _ _ HI2). intros [l|] a3 HI3 _ _ _; [apply wp_ret|]; by apply HQ.
Qed.

(** The node while the transactions of a block are prepared: the block is there, the
    accounts are those of the map, and parameters and signers stay. *)
Definition preparing n0 m n : Prop :=
  is_Some (nd_curr n) /\ ainv ∅ (ch_acct (nd_chain n)) m /\
  ch_gov (nd_chain n) = ch_gov (nd_chain n0) /\ nd_signers n = nd_signers n0.

(** The callback panics exactly on the transactions whose checks before the accounts
    panic, and otherwise makes a context or a response. *)
Lemma onPrepare_returns n0 m n req i :
  preparing n0 m n ->
  match open_trx (nd_signers n0) (govParams (ch_gov (nd_chain n0))) req with
  | Panic => fst (onPrepare req i n) = Panic
  | _ => exists out n', onPrepare req i n = (Ok out, n') /\ preparing n0 m n'
  end.
Proof.
  intros ([b Hb] & HI & Hg & Hs). rewrite <- Hg, <- Hs. destruct (open_trx _ _ req) as [[[tx pub] p]|e|] eqn:Eo.
  - assert (wp (onPrepare req i) (okQ (fun _ n' => preparing n0 m n')) n) as Hw.
    { unfold onPrepare, the_curr, n_govParams. apply wp_bind, wp_bind, wp_gets. rewrite Hb. apply wp_ret, wp_bind, wp_gets, wp_bind, wp_gets.
      apply wp_bind, wp_try, wp_zoom. unfold NewTrxContext. apply wp_bind, wp_lift. rewrite Eo. apply wp_bind.
      apply (wp_find_parties_total _ m tx p); [done|by eapply open_trx_To|]. intros [[[? ?] ?]|e|] a' Hp HI'; [| |done].
      - apply wp_ret, wp_bind, wp_modify, wp_ret. split; [cbn; by rewrite Hb|]. done.
      - apply wp_ret. split; [cbn; by rewrite Hb|]. done. }
    unfold wp in Hw. destruct (onPrepare req i n) as [[out|e|] n']; cbn in Hw; [|done..]. eauto.
  - unfold onPrepare, the_curr, n_govParams, n_acct, NewTrxContext, try, bind, gets, modify, ret, zoom, lift.
    rewrite Hb. cbn [lget lens_comp]. rewrite Eo. eexists _, _. split; [reflexivity|]. cbn. by rewrite Hb.
  - unfold onPrepare, the_curr, n_govParams, n_acct, NewTrxContext, try, bind, gets, modify, ret, zoom, lift.
    rewrite Hb. cbn [lget lens_comp]. by rewrite Eo.
Qed.

Lemma preparing_reach k n0 m reqs tp n :
  preparing n0 m n0 -> prep_reach onPrepare k n0 reqs (tp, n) -> preparing n0 m n.
Proof.
  intros H0' Hr. refine (prep_reach_results onPrepare k n0 (fun _ => True) (fun _ n => preparing n0 m n) H0' _ _ reqs (tp, n) Hr _);
    [done| |by apply Forall_true].
  intros rs s i req out s' Hs _ _ Ho. pose proof (onPrepare_returns n0 m s req i Hs) as Hret. rewrite Ho in Hret.
  destruct (open_trx _ _ req); [..|done]; by destruct Hret as (? & ? & [= <- <-] & ?).
Qed.

(** The transactions meant, with the key of their sender. *)
Context (K : bytes -> Trx -> Prop).

(** The bytes of a request are the transaction [t] with its payer, signed, priced
    as the parameters say, from and paid by stored accounts. *)
Definition opens (sg : Signers) (gp : GovParamsProto) (m : accts_map) (req : bytes) (t : Trx * Address) : Prop :=
  exists pub p, open_trx sg gp req = Ok (fst t, pub, p) /\
    snd t = (if bytes_Equal p [] then tx_From (fst t) else p) /\ length (snd t) = AddrSize /\
    K pub (fst t) /\ tx_sane (fst t) /\
    is_Some (m !! LedgerKeyAccount (tx_From (fst t))) /\ is_Some (m !! LedgerKeyAccount (snd t)).

Lemma open_trx_price sg gp req tx pub p :
  open_trx sg gp req = Ok (tx, pub, p) -> tx_GasPrice tx = GovParams.GasPrice gp.
Proof.
  unfold open_trx. destruct (tx_Decode req) as [tx'|e|]; [|done..]. cbn [obind].
  destruct (Validate tx') as [[]|e|]; [|done..]. cbn [obind]. destruct (_ <? _); [done|].
  destruct (Z.eqb_spec (uCmp (tx_GasPrice tx') (GovParams.GasPrice gp)) 0) as [E0|]; [|done]. cbn [negb].
  destruct (VerifyTrxRLP _ _) as [[? ?]|e|]; [|done..]. cbn [obind]. intros Hr.
  assert (tx' = tx) as ->; [|by apply uCmp_eq].
  destruct (bytes_Equal _ _); [by injection Hr|]. destruct (VerifyPayerTrxRLP _ _) as [[? ?]|e|]; [by injection Hr|done..].
Qed.

Lemma native_ctx_mono P P' payer c : P ⊆ P' -> native_ctx P payer c -> native_ctx P' payer c.
Proof. intros Hs HC. split; try apply HC; eapply lookup_weaken; try exact Hs; apply HC. Qed.

(** A result is the context of the transaction [t]. *)
Definition result_of P gp (o : option (resultValue TrxContext ResponseDeliverTx)) (t : Trx * Address) : Prop :=
  exists r c, o = Some r /\ rv_out r = inl c /\ tc_Tx c = fst t /\ native_ctx P (snd t) c /\
    K (tc_SenderPubKey c) (fst t) /\ tx_GasPrice (fst t) = GovParams.GasPrice gp.

(** The parties of a transaction, found in this order. *)
Lemma wp_find_parties P (a : AcctCtrler T I) m tx payer p Q :
  prepared P a m -> tx_sane tx -> payer = (if bytes_Equal p [] then tx_From tx else p) -> length payer = AddrSize ->
  is_Some (m !! LedgerKeyAccount (tx_From tx)) -> is_Some (m !! LedgerKeyAccount payer) ->
  (forall P' a' ls lr lp, prepared P' a' m -> P ⊆ P' -> P' !! tx_From tx = Some ls -> P' !! tx_To tx = Some lr ->
     P' !! payer = Some lp -> Q (Ok (ls, lr, lp)) a') ->
  wp (find_parties tx p true) Q a.
Proof.
  intros HP (Hf & Ht & _) Hpay Hlp [xf Hxf] [xp Hxp] HQ. unfold find_parties. cbn [FindAccount FindOrNewAccount AcctCtrler_handler].
  apply wp_bind, (wp_prep_find P a m (tx_From tx) xf); [done..|]. intros ls a1 HP1 Hs1.
  assert (bytes_Equal (tx_To tx) [] = false) as -> by (apply bool_decide_false; intros E0; by rewrite E0 in Ht).
  apply wp_bind. apply (wp_prep_find_or_new (<[tx_From tx := ls]> P) a1 m (tx_To tx)); [done..|]. intros lr a2 HP2 Hs2.
  set (P1 := <[tx_From tx := ls]> P) in *. set (P2 := <[tx_To tx := lr]> P1) in *.
  assert (P2 !! tx_From tx = Some ls) as Hls by (eapply lookup_weaken; [|exact Hs2]; apply lookup_insert_eq).
  destruct (bytes_Equal p []) eqn:Ep.
  - subst payer. apply wp_ret, (HQ P2); try done; [by etrans|apply lookup_insert_eq].
  - subst payer. apply wp_bind, (wp_prep_find P2 a2 m p xp); [done..|]. intros lp a3 HP3 Hs3.
    apply wp_ret, (HQ (<[p := lp]> P2)); try done.
    + by do 2 (etrans; [eassumption|]).
    + by eapply lookup_weaken.
    + eapply lookup_weaken; [|exact Hs3]. apply lookup_insert_eq.
    + apply lookup_insert_eq.
Qed.

(** A turn of a goroutine: the context is made. *)
Lemma onPrepare_opens P m t req i n out n' :
  prepared P (ch_acct (nd_chain n)) m ->
  opens (nd_signers n) (govParams (ch_gov (nd_chain n))) m req t ->
  onPrepare req i n = (Ok out, n') ->
  exists P' c, out = inl c /\ P ⊆ P' /\ prepared P' (ch_acct (nd_chain n')) m /\
    tc_Tx c = fst t /\ native_ctx P' (snd t) c /\ K (tc_SenderPubKey c) (fst t).
Proof.
  intros HP (pub & p & Ho & Hpay & Hlp & Hty & Hsane & Hsf & Hsp) Hr.
  assert (wp (onPrepare req i) (fun o n' => forall out, o = Ok out -> exists P' c, out = inl c /\ P ⊆ P' /\
      prepared P' (ch_acct (nd_chain n')) m /\ tc_Tx c = fst t /\ native_ctx P' (snd t) c /\
      K (tc_SenderPubKey c) (fst t)) n) as Hw.
  { unfold onPrepare, the_curr, n_govParams. apply wp_bind, wp_bind, wp_gets.
    destruct (nd_curr n) as [bc|]; [apply wp_ret|done].
    apply wp_bind, wp_gets, wp_bind, wp_gets, wp_bind, wp_try, wp_zoom. unfold NewTrxContext.
    apply wp_bind, wp_lift. rewrite Ho. apply wp_bind.
    apply (wp_find_parties P _ m (fst t) (snd t) p); [done..|]. intros P' a' ls lr lp HP' Hs Hls Hlr Hlpp.
    apply wp_ret, wp_bind, wp_modify, wp_ret. intros out0 [= <-]. eexists P', _. split; [done|]. split; [done|].
    split; [done|]. split; [done|]. destruct Hsane as (_ & _ & ? & ? & ? & ?). by split; [split|]. }
  unfold wp in Hw. rewrite Hr in Hw. by apply Hw.
Qed.

(** While the contexts are made only the accounts and the count of transactions
    change. *)
Definition only_contexts n0 (b0 : BlockContext GP) (a' : AcctCtrler T I) (bc : BlockContext GP) n : Prop :=
  n = MkNode (lset acct_of a' (nd_chain n0)) (nd_last n0) (Some bc) (nd_meta n0) (nd_signers n0) (nd_interval n0) /\
  bc_blockInfo bc = bc_blockInfo b0 /\ bc_blockGasPool bc = bc_blockGasPool b0 /\ bc_feeSum bc = bc_feeSum b0.

(** The objects, and the contexts made so far. *)
Definition making n0 (b0 : BlockContext GP) m (rs : list (option (resultValue TrxContext ResponseDeliverTx))) n : Prop :=
  let sg := nd_signers n0 in
  let gp := govParams (ch_gov (nd_chain n0)) in
  exists P a' bc, prepared P a' m /\ only_contexts n0 b0 a' bc n /\
    forall i r, rs !! i = Some (Some r) -> exists t, opens sg gp m (rv_req r) t /\ result_of P gp (Some r) t.

Lemma making_reach k n0 (b0 : BlockContext GP) m reqs tp n :
  prep_reach onPrepare k n0 reqs (tp, n) -> nd_curr n0 = Some b0 ->
  ainv ∅ (ch_acct (nd_chain n0)) m -> newbiesDeliver (ch_acct (nd_chain n0)) = ∅ ->
  Forall (fun req => exists t, opens (nd_signers n0) (govParams (ch_gov (nd_chain n0))) m req t) reqs ->
  making n0 b0 m (tp_resultValues tp) n.
Proof.
  intros Hr Hb0 HI Hnew HF.
  refine (prep_reach_results onPrepare k n0 _ (making n0 b0 m) _ _ _ reqs (tp, n) Hr HF).
  - exists ∅, (ch_acct (nd_chain n0)), b0. split; [by apply prepared_start|]. split; [|done]. split; [|done].
    destruct n0 as [[] ? ? ? ? ?]; cbn in *. by rewrite Hb0.
  - intros rs s (P & a' & bc & HP & Hn & Hres). exists P, a', bc. do 2 (split; [done|]).
    intros i r Hi. apply lookup_app_Some in Hi as [Hi|[_ Hi]]; [by apply (Hres i)|].
    by apply list_lookup_singleton_Some in Hi as [_ Hi].
  - intros rs s i req out s' (P & a' & bc & HP & (Hs & Hbi & Hpl & Hf) & Hres) [t Ht] Hi Ho.
    assert (prepared P (ch_acct (nd_chain s)) m) as HPs by (by rewrite Hs).
    assert (opens (nd_signers s) (govParams (ch_gov (nd_chain s))) m req t) as Hts by (by rewrite Hs).
    destruct (onPrepare_opens P m t req i s out s' HPs Hts Ho) as (P' & c & -> & Hsub & HP' & Htx & HC & HK).
    destruct (onPrepare_inv _ _ _ _ _ Ho) as (b' & a'' & Hb' & ->). rewrite Hs in Hb'. injection Hb' as <-.
    exists P', a'', (AddTxsCnt 1 bc). split; [done|]. split; [by rewrite Hs|]. intros j r Hj.
    destruct (decide (j = i)) as [->|Hne].
    + rewrite list_lookup_insert_eq in Hj by (by eapply lookup_lt_Some). injection Hj as <-.
      exists t. split; [done|]. eexists _, c. split; [done|]. do 4 (split; [done|]).
      destruct Ht as (pub & p & Ht & _). by apply (open_trx_price _ _ _ _ _ _ Ht).
    + rewrite list_lookup_insert_ne in Hj by done. destruct (Hres j r Hj) as (t' & Ht' & r' & c' & Er & Hq1 & Hq2 & Hq3 & Hq4 & Hq5).
      exists t'. split; [done|]. exists r', c'. do 3 (split; [done|]). split; [by apply (native_ctx_mono P)|done].
Qed.

Lemma opens_inj sg gp m req t t' : opens sg gp m req t -> opens sg gp m req t' -> t = t'.
Proof.
  intros (pub & p & Ho & Hp & _) (pub' & p' & Ho' & Hp' & _). destruct t as [tx py], t' as [tx' py']; cbn [fst snd] in *.
  rewrite Ho in Ho'. injection Ho' as <- <- <-. by rewrite Hp, Hp'.
Qed.

(** Once all contexts are made the results are those of the transactions, in
    order, and nothing else happened to the node. *)
Lemma made_results k n0 (b0 : BlockContext GP) m reqs ts tp n :
  prep_reach onPrepare k n0 reqs (tp, n) -> nd_curr n0 = Some b0 ->
  ainv ∅ (ch_acct (nd_chain n0)) m -> newbiesDeliver (ch_acct (nd_chain n0)) = ∅ ->
  Forall2 (opens (nd_signers n0) (govParams (ch_gov (nd_chain n0))) m) reqs ts -> tp_WaitGroup tp = 0 ->
  exists P a' bc, only_contexts n0 b0 a' bc n /\ views P ∅ a' m /\
    Forall2 (result_of P (govParams (ch_gov (nd_chain n0)))) (tp_resultValues tp) ts /\
    Forall2 (fun o req => exists r, o = Some r /\ rv_req r = req) (tp_resultValues tp) reqs.
Proof.
  intros Hr Hb0 HI Hnew HF Hw.
  assert (HF1 : Forall (fun req => exists t, opens (nd_signers n0) (govParams (ch_gov (nd_chain n0))) m req t) reqs).
  { apply Forall_forall. intros req Hreq. apply list_elem_of_lookup in Hreq as [i Hi].
    destruct (Forall2_lookup_l _ _ _ _ _ HF Hi) as (t & _ & Ht). by exists t. }
  destruct (making_reach k n0 b0 m reqs tp n Hr Hb0 HI Hnew HF1) as (P & a' & bc & HP & Hn & Hres).
  destruct (results_complete _ _ _ _ _ _ Hr Hw) as [Hcnt Hall]. unfold tp_resultCount in Hcnt. exists P, a', bc.
  split; [done|]. split; [by apply prepared_views|]. split.
  - apply Forall2_same_length_lookup. split; [rewrite Hcnt; by eapply Forall2_length|].
    intros i o t Ho Ht. destruct (Forall2_lookup_r _ _ _ _ _ HF Ht) as (req & Hreq & Hop).
    destruct (Hall i req Hreq) as (r & Hr' & _ & Hrq). rewrite Hr' in Ho. injection Ho as <-.
    destruct (Hres i r Hr') as (t' & Hop' & Hro). rewrite Hrq in Hop'. by rewrite (opens_inj _ _ _ _ _ _ Hop Hop').
  - apply Forall2_same_length_lookup. split; [done|].
    intros i o req Ho Hreq. destruct (Hall i req Hreq) as (r & Hr' & _ & Hrq). rewrite Hr' in Ho. injection Ho as <-. eauto.
Qed.

(** With all contexts made the transactions run in the order of delivery. *)
Lemma wp_execTrxs_made k n0 (b0 : BlockContext GP) P gp reqs ts tp n
    (Q : list (bytes * ResponseDeliverTx) -> TrxPreparer TrxContext ResponseDeliverTx * Node T I E GP D -> Prop) :
  prep_reach onPrepare k n0 reqs (tp, n) -> tp_WaitGroup tp = 0 -> nd_curr n0 = Some b0 -> bc_txsCnt b0 = 0 ->
  Z.of_nat (length reqs) < 2 ^ 63 -> Forall2 (result_of P gp) (tp_resultValues tp) ts ->
  ((forall i r, tp_resultValues tp !! i = Some (Some r) -> rv_idx r = i) ->
    wp (exec_results 0 (tp_resultValues tp)) (okQ (fun calls n' => Q calls (tp_reset tp, n'))) n) ->
  wp execTrxs (okQ Q) (tp, n).
Proof.
  intros Hr Hw Hb0 Hc0 Hlen Hres HQ. destruct (counted_reach _ _ _ _ _ _ Hr Hb0 Hc0) as (bc & Hbc & Hcnt).
  destruct (results_complete _ _ _ _ _ _ Hr Hw) as [Hrc Hall].
  assert (made (tp_resultValues tp) = length reqs) as Hmade.
  { rewrite <- Hrc. apply made_all, Forall_forall. intros o Ho. apply list_elem_of_lookup in Ho as [i Hi].
    destruct (Forall2_lookup_l _ _ _ _ _ Hres Hi) as (t & _ & r & c & -> & Hout & _). cbn. by rewrite Hout. }
  unfold execTrxs. apply wp_bind, wp_gets, wp_bind, wp_zoom. cbn [lget snd_lens snd fst].
  unfold the_curr. apply wp_bind, wp_gets. rewrite Hbc. apply wp_ret. rewrite Hcnt, Hmade, Hrc.
  rewrite i64_id by (unfold in_i64; lia). rewrite Z.eqb_refl. cbn [negb lset snd_lens].
  apply wp_bind, wp_zoom. cbn [lget snd_lens snd fst]. eapply wp_mono; [apply HQ|].
  - intros i r Hi. assert (i < length reqs)%nat as Hlt.
    { unfold tp_resultCount in Hrc. rewrite <- Hrc. by eapply lookup_lt_Some. }
    apply lookup_lt_is_Some in Hlt as [req Hq]. destruct (Hall i req Hq) as (r' & Hr' & Hidx & _). congruence.
  - by intros [calls|e|] n'.
Qed.

(** The calls of the engine's callback: each with its request, and success for
    the accepted transactions. *)
Definition calls_of (rs : list (option (resultValue TrxContext ResponseDeliverTx)))
    (calls : list (bytes * ResponseDeliverTx)) (oks : list bool) : Prop :=
  Forall2 (fun o call => exists r, o = Some r /\ fst call = rv_req r) rs calls /\
  Forall2 (fun call (ok : bool) => rd_Code (snd call) = if ok then CodeTypeOK else ErrCodeDeliverTx) calls oks.

Lemma calls_requests rs calls oks reqs :
  calls_of rs calls oks -> Forall2 (fun o req => exists r, o = Some r /\ rv_req r = req) rs reqs -> map fst calls = reqs.
Proof.
  intros [Hc _] Hr. apply list_eq. intros i. rewrite list_lookup_fmap.
  destruct (reqs !! i) as [req|] eqn:Ei.
  - destruct (Forall2_lookup_r _ _ _ _ _ Hr Ei) as (o & Ho & r & -> & Hrq).
    destruct (Forall2_lookup_l _ _ _ _ _ Hc Ho) as (call & -> & r' & Er & Hf). injection Er as <-. cbn. by rewrite Hf, Hrq.
  - apply lookup_ge_None in Ei. rewrite lookup_ge_None_2; [done|].
    by rewrite <- (Forall2_length _ _ _ Hc), (Forall2_length _ _ _ Hr).
Qed.

(** The key of the sender is recovered from its signature. *)
Lemma open_trx_key sg gp req tx pub p :
  open_trx sg gp req = Ok (tx, pub, p) -> PubKeyBytes2Addr pub = tx_From tx.
Proof.
  unfold open_trx. destruct (tx_Decode req) as [tx'|e|]; [|done..]. cbn [obind].
  destruct (Validate tx') as [[]|e|]; [|done..]. cbn [obind]. destruct (_ <? _); [done|].
  destruct (negb _); [done|]. destruct (VerifyTrxRLP sg tx') as [[a pk]|e|] eqn:Ev; [|done..]. cbn [obind]. intros Hr.
  assert (tx' = tx /\ pk = pub) as [-> ->].
  { destruct (bytes_Equal _ _); [by injection Hr|]. destruct (VerifyPayerTrxRLP _ _) as [[? ?]|e|]; [by injection Hr|done..]. }
  apply (Verify_iff sg tx false) in Ev as (Ef & pre & sig & _ & _ & Ea). cbn in Ea, Ef. congruence.
Qed.

End Making.
