(* ===== verification/Books.v ===== *)
(** * Books: all ledgers of the chain, abstractly

    The accounts, voting powers, rewards and proposals as maps, with the gas left
    and the fees of the block, and what a transaction of each native kind does to
    them: a transfer, a document, a staking, an unstaking, a withdrawal or a vote.
    Their worth, the coins in accounts, the coins bonded and frozen as voting
    power and the rewards not withdrawn, is only moved around by them. *)
From stdpp Require Import base gmap list strings.
From Stdlib Require Import ZArith Lia.
From S2P Require Import Prelude XErrors GoMonad LedgerKeys Iavl Ledger LedgerSpec LedgerOps.
From S2P Require Import Units Proto GovParams Account TrxTypes Signer AcctCtrler AcctSpec AcctProps.
From S2P Require Import VPowerItems Limiter VPowerCtrler VPowerInv VPowerTrx Proposal GovCtrler GovWp.
From S2P Require Import Numbers SupplyCtrler SupplyProps TrxCtx TrxExecutor Bank.

Record ledgers := MkLedgers {
  lg_accts : accts_map;
  lg_vp : vmap;
  lg_sup : smap;
  lg_gov : gov_map;
}.

Record books := MkBooks {
  bo_led : ledgers;
  bo_gas : Z;          (* left in the block *)
  bo_fees : Z;         (* of the block, so far *)
}.

Definition on_accts (f : accts_map -> accts_map) (L : ledgers) : ledgers :=
  MkLedgers (f (lg_accts L)) (lg_vp L) (lg_sup L) (lg_gov L).

(** Coins in accounts, bonded, frozen, and in rewards. *)
Definition worth (L : ledgers) : Z :=
  total (lg_accts L) + amountPerPower * (bonded (lg_vp L) + frozen (lg_vp L)) + cumulated (lg_sup L).

(** ** Effects *)

Definition put_doc (v : accts_map) (addr : Address) (name url : bytes) : accts_map :=
  store_acct v (SetDocURL (SetName (acct_at v addr) name) url).

(** What the controller of its type does for a transaction, at a height. *)
Inductive effect (gp : GovParamsProto) (h : Z) (tx : Trx) (L : ledgers) : ledgers -> Prop :=
| eff_transfer :
    GetType tx = TRX_TRANSFER ->
    effect gp h tx L (on_accts (fun v => credit (debit v (tx_From tx) (tx_Amount tx)) (tx_To tx) (tx_Amount tx)) L)
| eff_doc name url :
    GetType tx = TRX_SETDOC -> tx_Payload tx = Some (TrxPayloadSetDoc name url) ->
    effect gp h tx L (on_accts (fun v => touch (put_doc v (tx_From tx) name url) (tx_To tx)) L)
| eff_stake vp' :
    GetType tx = TRX_STAKING -> 0 < tx_power tx < 2 ^ 63 -> tx_Amount tx = PowerToAmount (tx_power tx) ->
    bonded vp' = bonded (lg_vp L) + tx_power tx -> frozen vp' = frozen (lg_vp L) ->
    vsum vp' (tx_From tx) (tx_To tx) = vsum (lg_vp L) (tx_From tx) (tx_To tx) + tx_power tx ->
    effect gp h tx L (MkLedgers (debit (lg_accts L) (tx_From tx) (tx_Amount tx)) vp' (lg_sup L) (lg_gov L))
| eff_unstake vp' hash :
    GetType tx = TRX_UNSTAKING -> tx_Payload tx = Some (TrxPayloadUnstaking hash) ->
    unstaked (lg_vp L) vp' (tx_From tx) (tx_To tx) hash (i64 (h + GovParams.LazyUnbondingBlocks gp)) ->
    bonded vp' + frozen vp' = bonded (lg_vp L) + frozen (lg_vp L) ->
    effect gp h tx L (MkLedgers (lg_accts L) vp' (lg_sup L) (lg_gov L))
| eff_withdraw sup' amt :
    GetType tx = TRX_WITHDRAW -> tx_Payload tx = Some (TrxPayloadWithdraw amt) ->
    0 <= amt <= cum (lg_sup L) (tx_From tx) -> withdrawn (lg_sup L) (tx_From tx) amt sup' ->
    effect gp h tx L (MkLedgers (credit (lg_accts L) (tx_From tx) amt) (lg_vp L) sup' (lg_gov L))
| eff_vote x c p p' :
    GetType tx = TRX_VOTING -> tx_Payload tx = Some (TrxPayloadVoting x c) ->
    lg_gov L !! LedgerKeyProposal x = Some (IProposal p) ->
    ph_StartVotingHeight (gp_Header p) <= h <= ph_EndVotingHeight (gp_Header p) ->
    DoVote p (tx_From tx) c = Ok p' ->
    effect gp h tx L (MkLedgers (lg_accts L) (lg_vp L) (lg_sup L) (<[LedgerKeyProposal x := IProposal p']> (lg_gov L))).

(** Then the payer pays the fee, and the sender's nonce goes up. *)
Definition charge (tx : Trx) (payer : Address) (v : accts_map) : accts_map :=
  bump (debit v payer (fee_of tx)) (tx_From tx).

Definition bank_of (b : books) : bank := MkBank (lg_accts (bo_led b)) (bo_gas b) (bo_fees b).

(** ** What an effect keeps *)

Section Effects.
Context `{Utf8, CryptoLib}.
Implicit Types (L : ledgers) (v : accts_map) (tx : Trx).

Lemma total_touch v addr : accts_ok v -> total (touch v addr) = total v.
Proof. intros Hok. unfold touch. rewrite total_store, acct_at_Address by done. unfold bal. lia. Qed.

Lemma bal_touch v addr a : accts_ok v -> bal (touch v addr) a = bal v a.
Proof. intros Hok. unfold bal. by rewrite touch_acct_at. Qed.

Lemma acct_wf_doc a name url : acct_wf a -> valid_utf8 name -> valid_utf8 url -> acct_wf (SetDocURL (SetName a name) url).
Proof. intros [] Hn Hu. by split. Qed.

Lemma total_doc v addr name url : accts_ok v -> total (put_doc v addr name url) = total v.
Proof. intros Hok. unfold put_doc. rewrite total_store. cbn. rewrite acct_at_Address by done. unfold bal. lia. Qed.

Lemma bal_doc v addr name url a : accts_ok v -> bal (put_doc v addr name url) a = bal v a.
Proof.
  intros Hok. unfold put_doc. rewrite bal_store. cbn. rewrite acct_at_Address by done. case_bool_decide; [by subst|done].
Qed.

(** Well-formed books, with all coins in range. *)
Record books_ok (h : Z) L (fees : Z) : Prop := {
  bo_accts_ok : accts_ok (lg_accts L);
  bo_vinv : vinv (lg_vp L);
  bo_nonneg : nonneg (lg_vp L);
  bo_sup_ok : smap_ok (lg_sup L);
  bo_heights : heights_le (lg_sup L) h;
  bo_fees_pos : 0 <= fees;
  bo_range : total (lg_accts L) + cumulated (lg_sup L) + fees <= lim_bound * amountPerPower;
}.

(** What the payload of each native kind must be; [open_trx] has checked the rest. *)
Definition native_kind (tx : Trx) : Prop :=
  GetType tx = TRX_TRANSFER \/
  (GetType tx = TRX_SETDOC /\ exists name url, tx_Payload tx = Some (TrxPayloadSetDoc name url) /\
     valid_utf8 name /\ valid_utf8 url) \/
  GetType tx = TRX_STAKING \/
  (GetType tx = TRX_UNSTAKING /\ exists hash, tx_Payload tx = Some (TrxPayloadUnstaking hash)) \/
  (GetType tx = TRX_WITHDRAW /\ forall amt, tx_Payload tx = Some (TrxPayloadWithdraw amt) -> 0 <= amt) \/
  GetType tx = TRX_VOTING.

Lemma lim_bound_range : lim_bound * amountPerPower < 2 ^ 255.
Proof. vm_compute. reflexivity. Qed.

Lemma affordable_le v tx payer :
  affordable v tx payer = true -> 0 <= tx_Amount tx -> 0 <= fee_of tx ->
  tx_Amount tx <= bal v (tx_From tx) /\ fee_of tx <= bal v payer /\
  (payer = tx_From tx -> fee_of tx + tx_Amount tx <= bal v payer).
Proof.
  unfold affordable. intros Ha Hamt Hfee. case_bool_decide; subst; [lia|].
  rewrite andb_true_iff, !Z.leb_le in Ha. split_and!; [lia..|done].
Qed.

Lemma books_total h L fees : books_ok h L fees ->
  0 <= total (lg_accts L) /\ 0 <= cumulated (lg_sup L) /\ total (lg_accts L) + cumulated (lg_sup L) + fees < 2 ^ 255.
Proof.
  intros HB. pose proof lim_bound_range. pose proof (bo_range _ _ _ HB).
  pose proof (bal_le_total (lg_accts L) [] (bo_accts_ok _ _ _ HB)). pose proof (cum_le (lg_sup L) [] (bo_sup_ok _ _ _ HB)).
  pose proof (cum_nonneg (lg_sup L) [] (bo_sup_ok _ _ _ HB)).
  pose proof (bal_nonneg (lg_accts L) [] (bo_accts_ok _ _ _ HB)). lia.
Qed.

(** The accounts after an effect: nothing but balances and documents is
    different, and stored accounts stay stored. *)
Record same_accts v v' : Prop := {
  sa_ok : accts_ok v';
  sa_code : forall a, acct_Code (acct_at v' a) = acct_Code (acct_at v a);
  sa_nonce : forall a, acct_Nonce (acct_at v' a) = acct_Nonce (acct_at v a);
  sa_stored : forall a, is_Some (v !! LedgerKeyAccount a) -> is_Some (v' !! LedgerKeyAccount a);
}.

Lemma same_accts_refl v : accts_ok v -> same_accts v v.
Proof. by split. Qed.

Lemma same_accts_trans v1 v2 v3 : same_accts v1 v2 -> same_accts v2 v3 -> same_accts v1 v3.
Proof.
  intros [] []. split; [done|intros a; congruence..|auto].
Qed.

Lemma same_accts_store v y :
  accts_ok v -> acct_wf y -> acct_Code y = acct_Code (acct_at v (acct_Address y)) ->
  acct_Nonce y = acct_Nonce (acct_at v (acct_Address y)) -> same_accts v (store_acct v y).
Proof.
  intros Hok Hy Hc Hn. split; [by apply accts_ok_store|intros a; by apply code_store_same|intros a; by apply nonce_store|].
  intros a. apply is_Some_store.
Qed.

Lemma same_credit v a amt : accts_ok v -> length a = AddrSize -> same_accts v (credit v a amt).
Proof.
  intros Hok Ha. apply same_accts_store; [done| |cbn; by rewrite acct_at_Address..].
  apply acct_wf_SetBalance; [by apply acct_at_ok|apply u256_range].
Qed.

Lemma same_debit v a amt : accts_ok v -> length a = AddrSize -> 0 <= amt <= bal v a -> same_accts v (debit v a amt).
Proof.
  intros Hok Ha Hamt. pose proof (acct_at_ok v a Hok Ha) as Hwf.
  apply same_accts_store; [done| |cbn; by rewrite acct_at_Address..].
  apply acct_wf_SetBalance; [done|]. pose proof (wf_balance _ Hwf). unfold bal, in_u256 in *. lia.
Qed.

Lemma same_touch v a : accts_ok v -> length a = AddrSize -> same_accts v (touch v a).
Proof. intros Hok Ha. apply same_accts_store; [done|by apply acct_at_ok|by rewrite acct_at_Address..]. Qed.

Lemma same_doc v a name url :
  accts_ok v -> length a = AddrSize -> valid_utf8 name -> valid_utf8 url -> same_accts v (put_doc v a name url).
Proof.
  intros Hok Ha Hn Hu. apply same_accts_store; [done| |cbn; by rewrite acct_at_Address..].
  apply acct_wf_doc; [by apply acct_at_ok|done..].
Qed.

(** After an effect the payer still has the fee, and the worth stays. *)
Lemma effect_ok gp h tx payer L L' fees :
  books_ok h L fees -> tx_sane tx -> affordable (lg_accts L) tx payer = true -> native_kind tx -> effect gp h tx L L' ->
  same_accts (lg_accts L) (lg_accts L') /\ fee_of tx <= bal (lg_accts L') payer /\ worth L' = worth L.
Proof.
  intros HB Hsane Haff Hk He. pose proof (fee_nonneg _ Hsane) as Hfee. destruct Hsane as (Hf & Ht & Hamt & _).
  destruct (affordable_le _ _ _ Haff ltac:(lia) Hfee) as (Hle & Hp & Hpf).
  destruct (books_total _ _ _ HB) as (Htot0 & Hcum0 & Hrange). pose proof (bo_accts_ok _ _ _ HB) as Hok.
  pose proof (bo_fees_pos _ _ _ HB) as Hfees. unfold worth.
  destruct He as [Hty|name url Hty Hpay|vp' Hty Hpw Eamt Eb Ef _|vp' hash Hty Hpay _ Ebf|sup' amt Hty Hpay Ha Hw|x c p p' Hty Hpay _ _ _];
    cbn [lg_accts lg_vp lg_sup on_accts].
  - destruct (fee_left (lg_accts L) tx payer Hok Haff Hf) as [_ Hfl]; [lia|lia|done|].
    assert (Hd : same_accts (lg_accts L) (debit (lg_accts L) (tx_From tx) (tx_Amount tx))) by (apply same_debit; auto; lia).
    destruct (transfer_bal (lg_accts L) (tx_From tx) (tx_To tx) (tx_Amount tx) payer Hok Hf) as [_ Et]; [lia..|].
    split; [|split; [done|lia]]. eapply same_accts_trans; [exact Hd|]. apply same_credit; [apply Hd|done].
  - destruct Hk as [Hk|[(_ & n & u & Hpay' & Hn & Hu)|Hk]]; [by rewrite Hty in Hk| |].
    + rewrite Hpay in Hpay'. injection Hpay' as <- <-. pose proof (same_doc (lg_accts L) _ _ _ Hok Hf Hn Hu) as Hd.
      pose proof (sa_ok _ _ Hd) as Hdo. split; [eapply same_accts_trans; [exact Hd|by apply same_touch]|].
      by rewrite bal_touch, bal_doc, total_touch, total_doc.
    + rewrite Hty in Hk. unfold TRX_SETDOC, TRX_STAKING, TRX_UNSTAKING, TRX_WITHDRAW, TRX_VOTING in Hk. lia.
  - split; [apply same_debit; auto; lia|]. rewrite debit_bal, debit_total by done.
    split; [case_bool_decide; [|lia]; specialize (Hpf ltac:(done)); lia|].
    rewrite Eb, Ef, Eamt, PowerToAmount_exact by lia. lia.
  - split; [by apply same_accts_refl|]. split; [done|lia].
  - destruct Hw as (_ & _ & Hw & _). pose proof (cum_le (lg_sup L) (tx_From tx) (bo_sup_ok _ _ _ HB)).
    pose proof (bal_le_total (lg_accts L) (tx_From tx) Hok). split; [by apply same_credit|].
    rewrite credit_bal, credit_total by (done || lia). split; [case_bool_decide; lia|lia].
  - split; [by apply same_accts_refl|done].
Qed.

(** ** Sequences of transactions *)

(** An accepted transaction; the books are well-formed after it. *)
Definition booked gp h (tx : Trx) (payer : Address) (b b' : books) : Prop :=
  acceptable (bank_of b) tx payer = true /\ books_ok h (bo_led b') (bo_fees b') /\ exists L,
    effect gp h tx (bo_led b) L /\
    b' = MkBooks (on_accts (charge tx payer) L) (bo_gas b - tx_Gas tx) (bo_fees b + fee_of tx).

(** Transactions with their payers one after another, and which were accepted; a
    refused one leaves the books as they are. *)
Inductive run_books gp h : list (Trx * Address) -> list bool -> books -> books -> Prop :=
| run_nil b : run_books gp h [] [] b b
| run_booked tx payer ts oks b b1 b2 :
    booked gp h tx payer b b1 -> run_books gp h ts oks b1 b2 ->
    run_books gp h ((tx, payer) :: ts) (true :: oks) b b2
| run_refused t ts oks b b2 :
    run_books gp h ts oks b b2 -> run_books gp h (t :: ts) (false :: oks) b b2.

Definition nonce_in (b : books) (addr : Address) : Z := acct_Nonce (acct_at (lg_accts (bo_led b)) addr).

(** A transaction with its payer, both sensible. *)
Definition native_pair (t : Trx * Address) : Prop :=
  tx_sane (fst t) /\ length (snd t) = AddrSize /\ native_kind (fst t).

(** The fee leaves the accounts, the sender's nonce goes up, and nothing else of
    the accounts changes. *)
Lemma charge_ok v tx payer :
  accts_ok v -> tx_sane tx -> length payer = AddrSize -> fee_of tx <= bal v payer ->
  total (charge tx payer v) = total v - fee_of tx /\
  (forall a, acct_Code (acct_at (charge tx payer v) a) = acct_Code (acct_at v a)) /\
  (forall a, acct_Nonce (acct_at (charge tx payer v) a) =
     if bool_decide (a = tx_From tx) then i64 (acct_Nonce (acct_at v a) + 1) else acct_Nonce (acct_at v a)) /\
  (forall a, is_Some (v !! LedgerKeyAccount a) -> is_Some (charge tx payer v !! LedgerKeyAccount a)).
Proof.
  intros Hok Hs Hp Hfee. pose proof (fee_nonneg _ Hs). unfold charge.
  pose proof (same_debit v payer (fee_of tx) Hok Hp ltac:(lia)) as Hd. pose proof (sa_ok _ _ Hd) as Hdo.
  split; [by rewrite total_bump, debit_total|]. split; [intros a; by rewrite code_bump, code_debit|]. split.
  - intros a. unfold bump. case_bool_decide as Ea.
    + subst a. rewrite acct_at_store_eq by (cbn; by apply acct_at_Address). cbn. by rewrite (sa_nonce _ _ Hd).
    + rewrite acct_at_store_ne; [apply Hd|]. cbn. rewrite acct_at_Address by done. congruence.
  - intros a Ha. by apply is_Some_store, Hd.
Qed.

Lemma booked_ok gp h t b b' :
  books_ok h (bo_led b) (bo_fees b) -> native_pair t -> booked gp h (fst t) (snd t) b b' ->
  worth (bo_led b') + bo_fees b' = worth (bo_led b) + bo_fees b /\
  nonce_in b (tx_From (fst t)) = tx_Nonce (fst t) /\
  (forall a, nonce_in b' a = if bool_decide (a = tx_From (fst t)) then i64 (nonce_in b a + 1) else nonce_in b a) /\
  (forall a, acct_Code (acct_at (lg_accts (bo_led b')) a) = acct_Code (acct_at (lg_accts (bo_led b)) a)) /\
  (forall a, is_Some (lg_accts (bo_led b) !! LedgerKeyAccount a) -> is_Some (lg_accts (bo_led b') !! LedgerKeyAccount a)).
Proof.
  intros HB (Hs & Hp & Hk) (Hacc & _ & L & He & ->). unfold acceptable in Hacc. rewrite !andb_true_iff in Hacc.
  destruct Hacc as [[_ Haff] Hn]. apply Z.eqb_eq in Hn.
  destruct (effect_ok gp h _ _ _ L _ HB Hs Haff Hk He) as (Hsame & Hfee & Hw).
  destruct (charge_ok (lg_accts L) (fst t) (snd t) (sa_ok _ _ Hsame) Hs Hp Hfee) as (Et & Hc & Hno & Hst).
  unfold nonce_in. cbn [bo_led bo_fees on_accts lg_accts]. split.
  { unfold worth in *. cbn [on_accts lg_accts lg_vp lg_sup]. rewrite Et. lia. }
  split; [done|]. split; [intros a; by rewrite Hno, (sa_nonce _ _ Hsame)|].
  split; [intros a; by rewrite Hc, (sa_code _ _ Hsame)|]. intros a Ha. by apply Hst, Hsame.
Qed.

(** Nothing appears or vanishes. *)
Lemma run_books_conserves gp h ts oks b b' :
  run_books gp h ts oks b b' -> books_ok h (bo_led b) (bo_fees b) -> Forall native_pair ts ->
  books_ok h (bo_led b') (bo_fees b') /\ worth (bo_led b') + bo_fees b' = worth (bo_led b) + bo_fees b.
Proof.
  intros Hr. induction Hr as [b|tx payer ts oks b b1 b2 Hb _ IH|t ts oks b b2 _ IH]; intros HB HF; [done| |].
  - apply Forall_cons in HF as [Ht HF]. destruct (booked_ok gp h (tx, payer) b b1 HB Ht Hb) as [Hw _].
    destruct (IH (proj1 (proj2 Hb)) HF) as [HB2 Hw2]. split; [done|]. lia.
  - apply Forall_cons in HF as [_ HF]. auto.
Qed.

(** ** Nonces *)

(** An accepted transaction has at least the nonce its sender starts with. *)
Lemma run_books_nonce gp h ts oks b b' j tx payer :
  run_books gp h ts oks b b' -> books_ok h (bo_led b) (bo_fees b) -> Forall native_pair ts ->
  nonce_in b (tx_From tx) + Z.of_nat (length ts) < 2 ^ 63 -> - 2 ^ 63 <= nonce_in b (tx_From tx) ->
  ts !! j = Some (tx, payer) -> oks !! j = Some true -> nonce_in b (tx_From tx) <= tx_Nonce tx.
Proof.
  intros Hr. revert j. induction Hr as [b|tx0 p0 ts oks b b1 b2 Hb _ IH|t ts oks b b2 _ IH]; intros j HB HF Hn Hn' Hj Ha; [done|..];
    apply Forall_cons in HF as [Ht HF]; cbn [length] in Hn; destruct j as [|j]; cbn in Hj, Ha; try done.
  - injection Hj as -> ->. destruct (booked_ok gp h (tx, payer) b b1 HB Ht Hb) as (_ & Hn0 & _). cbn in Hn0. lia.
  - destruct (booked_ok gp h (tx0, p0) b b1 HB Ht Hb) as (_ & _ & Hn1 & _). specialize (IH j (proj1 (proj2 Hb)) HF).
    rewrite (Hn1 (tx_From tx)) in IH.
    case_bool_decide; [rewrite i64_id in IH by (unfold in_i64; lia)|]; specialize (IH ltac:(lia) ltac:(lia) Hj Ha); lia.
  - apply (IH j); try done. lia.
Qed.

(** Accepted transactions of one sender have increasing nonces. *)
Lemma run_books_increasing gp h ts oks b b' i j txi pi txj pj :
  run_books gp h ts oks b b' -> books_ok h (bo_led b) (bo_fees b) -> Forall native_pair ts ->
  nonce_in b (tx_From txi) + Z.of_nat (length ts) < 2 ^ 63 -> - 2 ^ 63 <= nonce_in b (tx_From txi) ->
  (i < j)%nat -> ts !! i = Some (txi, pi) -> ts !! j = Some (txj, pj) -> tx_From txi = tx_From txj ->
  oks !! i = Some true -> oks !! j = Some true -> tx_Nonce txi < tx_Nonce txj.
Proof.
  intros Hr. revert i j. induction Hr as [b|tx0 p0 ts oks b b1 b2 Hb Hr IH|t ts oks b b2 _ IH]; intros i j HB HF Hn Hn' Hij Hi Hj Ef Hai Haj; [done|..];
    apply Forall_cons in HF as [Ht HF]; cbn [length] in Hn; (destruct j as [|j]; [lia|]); destruct i as [|i]; cbn in Hi, Hj, Hai, Haj; try done.
  - injection Hi as -> ->. destruct (booked_ok gp h (txi, pi) b b1 HB Ht Hb) as (_ & Hn0 & Hn1 & _).
    specialize (Hn1 (tx_From txi)). cbn [fst] in Hn0, Hn1. rewrite bool_decide_true in Hn1 by done.
    rewrite i64_id in Hn1 by (unfold in_i64; lia). rewrite Ef in *.
    pose proof (run_books_nonce gp h ts oks b1 b2 j txj pj Hr (proj1 (proj2 Hb)) HF ltac:(lia) ltac:(lia) Hj Haj). lia.
  - destruct (booked_ok gp h (tx0, p0) b b1 HB Ht Hb) as (_ & _ & Hn1 & _). specialize (Hn1 (tx_From txi)).
    apply (IH i j (proj1 (proj2 Hb)) HF); try done; [..|lia]; rewrite Hn1; case_bool_decide; try (rewrite i64_id by (unfold in_i64; lia)); lia.
  - apply (IH i j); try done; lia.
Qed.

End Effects.
