(* ===== verification/Native.v ===== *)
(** * Native: the executor on the native kinds of transactions

    A delivered transfer, document, staking, unstaking, withdrawal or vote goes
    through [ExecuteSync]: it is refused and no ledger changes, or it has exactly
    its effect on the books, in every ledger of the chain at once.  The executor
    works on the account objects of the context, the controllers look accounts up
    again by address; [views] says that they find the same objects. *)
From stdpp Require Import base gmap list strings.
From Stdlib Require Import ZArith Lia.
From S2P Require Import Prelude XErrors GoMonad LedgerKeys Iavl Ledger LedgerSpec LedgerOps.
From S2P Require Import Units Proto GovParams Account TrxTypes Signer AcctCtrler AcctSpec AcctProps.
From S2P Require Import VPowerItems Limiter VPowerCtrler VPowerInv VPowerWp VPowerTrx.
From S2P Require Import Proposal GovCtrler GovInv GovWp GovProps Numbers SupplyCtrler SupplyProps.
From S2P Require Import TrxCtx TrxExecutor Bank Books.

(** ** Accounts looked up again *)

Section Found.
Context {T I : Type} `{Iavl T I, !IavlLaws T I}.
Context `{Utf8, Proto AcctProto, !ProtoLaws AcctProto AcctProto_ok}.
Implicit Types (s : AcctCtrler T I) (v : accts_map) (P : gmap Address loc).

(** A stored account is found as the object handed out for it. *)
Lemma wp_view_find P s v addr l Q :
  views P ∅ s v -> P !! addr = Some l -> is_Some (v !! LedgerKeyAccount addr) ->
  (forall s', views P ∅ s' v -> Q (Ok (Some l)) s') ->
  wp (findAccount addr true) Q s.
Proof.
  intros HV Hl [x Hx] HQ. pose proof (views_clean _ _ _ HV) as HI. destruct (vw_ledger _ _ _ _ HV) as (m & _ & Hm & Hca).
  assert (m = v) as -> by (apply map_eq; intros k; apply Hm, not_elem_of_empty).
  apply (wp_also _ _ _ _ (findAccount_cached s v addr HI)).
  apply (wp_findAccount s v addr _ HI). intros r s' HI' Hh _. rewrite Hx. intros (l' & -> & _ & _ & Hsame) Hmono.
  rewrite <- (Hsame l) by (apply (Hca addr l Hl); eauto). apply HQ. split.
  - exists v. split; [done|]. split; [done|]. intros a la Ha Hs. by apply Hmono, (Hca a la).
  - intros a la Ha. destruct (vw_ptr _ _ _ _ HV _ _ Ha) as [? ?]. split; [done|by apply Hh].
  - apply HV.
Qed.

Lemma wp_view_reward P s v addr l amt Q :
  views P ∅ s v -> P !! addr = Some l -> is_Some (v !! LedgerKeyAccount addr) -> 0 <= amt < 2 ^ 255 ->
  (forall s', views P ∅ s' (credit v addr amt) -> Q (Ok tt) s') ->
  wp (ctrl_Reward addr amt true) Q s.
Proof.
  intros HV Hl Hs Ha HQ. apply wp_bind, (wp_view_find P s v addr l _ HV Hl Hs). intros s1 HV1.
  apply wp_bind, (wp_view_credit P ∅ s1 v addr l amt _ HV1 Hl Ha). intros s2 HV2.
  apply (wp_view_set P _ s2 _ addr l _ HV2 Hl); [by apply is_Some_store|].
  intros s3 HV3. apply HQ, (views_dirty _ _ _ _ _ HV3). set_solver.
Qed.

(** A document, and the receiver stored with it. *)
Lemma wp_view_doc P s v from to ls lr name url Q :
  views P ∅ s v -> P !! from = Some ls -> P !! to = Some lr -> valid_utf8 name -> valid_utf8 url ->
  (forall s', views P ∅ s' (touch (put_doc v from name url) to) -> Q (Ok tt) s') ->
  wp (setDoc ls name url ;;; ignore (setAccount ls true) ;;; ignore (setAccount lr true)) Q s.
Proof.
  intros HV Hs Hr Hn Hu HQ. pose proof (views_wf _ _ _ _ _ _ HV Hs) as Hwf. pose proof (views_addr _ _ _ _ _ _ HV Hs) as Ea.
  unfold setDoc. apply wp_bind, wp_bind.
  apply (wp_view_update P ∅ s v from ls _ (SetName (acct_at v from) name)); [done..|by destruct Hwf|done|].
  intros s1 HV1. set (v1 := store_acct v _) in *.
  assert (acct_at v1 from = SetName (acct_at v from) name) as E1 by (apply acct_at_store_eq; exact Ea).
  eapply (wp_view_update P _ s1 v1 from ls _ (SetDocURL (SetName (acct_at v from) name) url));
    [exact HV1|done|by rewrite E1|by apply acct_wf_doc|done|].
  intros s2 HV2. assert (store_acct v1 (SetDocURL (SetName (acct_at v from) name) url) = put_doc v from name url) as E2.
  { unfold v1, put_doc, store_acct. cbn. by rewrite insert_insert_eq. }
  rewrite E2 in HV2. apply wp_bind, wp_ignore, (wp_view_set P _ s2 _ from ls _ HV2 Hs).
  { apply is_Some_stored. exact Ea. }
  intros s3 HV3. apply wp_ignore, (wp_view_touch P _ s3 _ to lr _ HV3 Hr).
  intros s4 HV4. apply HQ, (views_dirty _ _ _ _ _ HV4). set_solver.
Qed.

End Found.

(** ** Validation and execution of each kind *)

Section Kinds.
Context {T I : Type} `{Iavl T I, !IavlLaws T I}.
Context `{Utf8, Proto AcctProto, !ProtoLaws AcctProto AcctProto_ok}.
Context `{GovProtos, !GovProtosLaws, GovJson, !GovJsonLaws, VPowerProtos, !VPowerProtosLaws}.
Context `{SupplyProtos, !SupplyProtosLaws, CryptoLib}.
Context {GP : Type} `{GasPoolLib GP, !GasPoolLaws GP}.
Context {E : Type} `{!IEVMHandler E GP (AcctCtrler T I)}.
Implicit Types (x : XState T I E GP) (P : gmap Address loc) (ch : Chain T I E) (L : ledgers).

(** The ledgers of the chain are those of the books, with the objects of [P]; the
    power counted by the limiter and all coins that could still be staked are
    within its bound. *)
Record chain_keeps P (gp : GovParamsProto) (h : Z) ch L (fees : Z) : Prop := {
  ck_ok : books_ok h L fees;
  ck_accts : views P ∅ (ch_acct ch) (lg_accts L);
  ck_vp : coh ∅ (vpowerState (ch_vp ch)) (lg_vp L);
  ck_lim : lim_ok lim_bound (vpowLimiter (ch_vp ch));
  ck_budget : (lastTotalPower (vpowLimiter (ch_vp ch)) + addingPower (vpowLimiter (ch_vp ch))) * amountPerPower +
    total (lg_accts L) + cumulated (lg_sup L) + fees <= lim_bound * amountPerPower;
  ck_sup : coh ∅ (supplyState (ch_sup ch)) (lg_sup L);
  ck_gov : coh ∅ (govState (ch_gov ch)) (lg_gov L);
  ck_gp : govParams (ch_gov ch) = gp;
}.

(** The part of [validateTrx] after [commonValidation]. *)
Definition controller_validate : M (XState T I E GP) unit :=
  let! ctx := gets x_ctx in
  let! gp := x_govParams in
  let! height := x_height in
  let tx := tc_Tx ctx in
  let t := GetType tx in
  if is_gov_type t then
    let! vp := gets (fun s => ch_vp (x_chain s)) in
    x_gov (gov_ValidateTrx (is_validator vp) tx (tc_TxHash ctx) height (tc_Exec ctx))
  else if is_acct_type t then lift (acct_ValidateTrx tx)
  else if t =? TRX_WITHDRAW then
    let! l := x_sup (zoom fst_lens (supply_ValidateTrx tx (tc_Exec ctx))) in
    modify (on_ctx (set_Result (RewardResult l)))
  else if is_vpower_type t then
    let! opt := x_vp (zoom fst_lens (vpower_ValidateTrx gp tx (tc_Exec ctx))) in
    modify (on_ctx (set_Result (BondingResult opt)))
  else if t =? TRX_CONTRACT then zoom evm_view evm_ValidateTrx
  else throw ErrUnknownTrxType.

Lemma validateTrx_split : validateTrx = (commonValidation ;;; controller_validate).
Proof. reflexivity. Qed.

(** A validated transaction: running it has its effect. *)
Definition ready P gp h L fees x x' : Prop :=
  x_bctx x' = x_bctx x /\ (exists r, x_ctx x' = set_Result r (x_ctx x)) /\
  wp execTrx (okQ (fun _ x'' => x_bctx x'' = x_bctx x /\ x_ctx x'' = x_ctx x' /\
    exists L', effect gp h (tc_Tx (x_ctx x)) L L' /\ chain_keeps P gp h (x_chain x'') L' fees)) x'.

Definition val_post P gp h L fees x (o : outcome unit) x' : Prop :=
  match o with
  | Ok _ => ready P gp h L fees x x'
  | Err _ => x_bctx x' = x_bctx x /\ x_ctx x' = x_ctx x /\ chain_keeps P gp h (x_chain x') L fees
  | Panic => False
  end.

Lemma set_Result_same c : c = set_Result (tc_ValidateResult c) c.
Proof. by destruct c. Qed.

(** The dispatch on the type of the transaction. *)
Ltac dispatch Hty :=
  unfold controller_validate, execTrx, x_govParams, x_height;
  apply wp_bind, wp_gets, wp_bind, wp_gets, wp_bind, wp_gets; cbv zeta;
  cbn [x_ctx on_ctx set_Result tc_Tx lset lens_comp chain_lens vp_acct_of sup_acct_of gov_of x_chain x_bctx];
  rewrite Hty;
  cbn [is_gov_type is_acct_type is_vpower_type Z.eqb Pos.eqb orb TRX_TRANSFER TRX_SETDOC TRX_PROPOSAL TRX_VOTING
       TRX_WITHDRAW TRX_STAKING TRX_UNSTAKING TRX_CONTRACT tc_ValidateResult set_Result tc_Exec tc_SenderPubKey
       tc_Sender tc_TxHash].

Context (P : gmap Address loc) (gp : GovParamsProto) (h : Z) (L : ledgers) (fees : Z) (payer : Address).
Context (x : XState T I E GP).
Context (HK : chain_keeps P gp h (x_chain x) L fees) (HC : native_ctx P payer (x_ctx x)).
Context (Hh : bc_Height (x_bctx x) = h) (Hh64 : in_i64 h) (Hh0 : 0 <= h).
Context (Haff : affordable (lg_accts L) (tc_Tx (x_ctx x)) payer = true).
#[local] Abbreviation tx := (tc_Tx (x_ctx x)).
#[local] Abbreviation c := (x_ctx x).

Lemma native_sane : tx_sane tx /\ tx_Amount tx <= bal (lg_accts L) (tx_From tx).
Proof.
  assert (tx_sane tx) as Hs.
  { split; [apply (vw_ptr _ _ _ _ (ck_accts _ _ _ _ _ _ HK) _ _ (xc_from _ _ _ HC))|].
    split; [apply (vw_ptr _ _ _ _ (ck_accts _ _ _ _ _ _ HK) _ _ (xc_to _ _ _ HC))|]. repeat split; apply HC. }
  split; [done|]. apply (affordable_le _ _ _ Haff); [apply HC|by apply fee_nonneg].
Qed.

(** The accounts changed, and nothing else. *)
Lemma keeps_accts a' v' :
  views P ∅ a' v' -> total v' = total (lg_accts L) ->
  chain_keeps P gp h (lset acct_of a' (x_chain x)) (on_accts (fun _ => v') L) fees.
Proof.
  intros HV Et. destruct HK as [[] ? ? ? ? ? ? ?]. split; try done; cbn; [|by rewrite Et].
  split; try done; [apply HV|]. cbn. by rewrite Et.
Qed.

Lemma validate_transfer :
  GetType tx = TRX_TRANSFER -> acct_Code (acct_at (lg_accts L) (tx_To tx)) = [] ->
  wp controller_validate (val_post P gp h L fees x) x.
Proof.
  intros Hty Hcode. destruct native_sane as [Hs Hle]. dispatch Hty.
  apply wp_lift. unfold acct_ValidateTrx. rewrite Hty. cbn [Z.eqb Pos.eqb TRX_TRANSFER TRX_SETDOC].
  split; [done|]. split; [eexists; apply set_Result_same|].
  apply (wp_execTrx_transfer P (lg_accts L) c payer x); try done; [apply HK|].
  intros a' HV. split; [done|]. split; [done|]. eexists. split; [by apply eff_transfer|].
  apply keeps_accts; [done|]. destruct (books_total _ _ _ (ck_ok _ _ _ _ _ _ HK)) as (_ & ? & ?).
  pose proof (bo_fees_pos _ _ _ (ck_ok _ _ _ _ _ _ HK)).
  apply (transfer_bal _ _ _ _ []); [apply (ck_ok _ _ _ _ _ _ HK)|apply Hs|apply HC|done|lia].
Qed.

Lemma validate_doc name url :
  GetType tx = TRX_SETDOC -> tx_Payload tx = Some (TrxPayloadSetDoc name url) -> valid_utf8 name -> valid_utf8 url ->
  wp controller_validate (val_post P gp h L fees x) x.
Proof.
  intros Hty Hpay Hn Hu. dispatch Hty.
  apply wp_lift. unfold acct_ValidateTrx. rewrite Hty, Hpay. cbn [Z.eqb Pos.eqb TRX_SETDOC].
  destruct (_ <? _); [done|]. destruct (_ <? _); [done|]. split; [done|]. split; [eexists; apply set_Result_same|].
  dispatch Hty.
  apply wp_bind, (wp_plain_receiver P (lg_accts L) c payer x); [apply HK|done|by split; rewrite Hty|].
  rewrite (xc_exec _ _ _ HC). apply wp_x_acct. unfold acct_ExecuteTrx. rewrite Hty, Hpay.
  cbn [Z.eqb Pos.eqb TRX_TRANSFER TRX_SETDOC].
  apply (wp_view_doc P _ (lg_accts L) (tx_From tx) (tx_To tx)); try done; [apply HK|apply HC|apply HC|].
  intros a' HV. split; [done|]. split; [done|]. eexists. split; [by apply (eff_doc _ _ _ _ name url)|].
  apply keeps_accts; [done|]. pose proof (bo_accts_ok _ _ _ (ck_ok _ _ _ _ _ _ HK)) as Hok.
  rewrite total_touch, total_doc; [done|done|]. apply same_doc; try done. apply native_sane.
Qed.

(** The stakes that validation allows are within the limiter's bound. *)
Lemma staking_fits :
  0 <= tx_Amount tx < 2 ^ 63 * amountPerPower /\
  lastTotalPower (vpowLimiter (ch_vp (x_chain x))) + addingPower (vpowLimiter (ch_vp (x_chain x))) + tx_power tx <= lim_bound.
Proof.
  destruct native_sane as [Hs Hle]. pose proof (ck_budget _ _ _ _ _ _ HK) as Hb. pose proof (ck_ok _ _ _ _ _ _ HK) as Hok.
  pose proof (bal_le_total (lg_accts L) (tx_From tx) (bo_accts_ok _ _ _ Hok)).
  destruct (books_total _ _ _ Hok) as (_ & Hcu & _). pose proof (bo_fees_pos _ _ _ Hok). pose proof (xc_amount _ _ _ HC).
  destruct (ck_lim _ _ _ _ _ _ HK). assert (tx_power tx * amountPerPower <= tx_Amount tx) as Hp.
  { unfold tx_power. rewrite Z.mul_comm. apply Z.mul_div_le. done. }
  assert (lim_bound < 2 ^ 63) by done. unfold amountPerPower in *. lia.
Qed.

Lemma validate_staking_kind :
  GetType tx = TRX_STAKING -> PubKeyBytes2Addr (tc_SenderPubKey c) = tx_From tx ->
  wp controller_validate (val_post P gp h L fees x) x.
Proof.
  intros Hty Hpk. destruct native_sane as [Hs Hle]. destruct staking_fits as [Hamt Hfit].
  destruct (tx_power_i64 tx Hamt) as [_ Hpr]. pose proof (ck_ok _ _ _ _ _ _ HK) as Hok.
  dispatch Hty. rewrite (ck_gp _ _ _ _ _ _ HK), (xc_exec _ _ _ HC). apply wp_bind, wp_zoom, wp_zoom. cbn [lget lens_comp fst_lens vp_acct_of chain_lens fst].
  unfold vpower_ValidateTrx. rewrite Hty. cbn [Z.eqb Pos.eqb TRX_STAKING].
  apply (wp_validate_staking gp tx _ (lg_vp L)); [apply HK|apply Hok|apply Hok|apply HK|done|done|..].
  - intros opt s1 HC1 Hopt Hpos Eamt HL1 [HM1 HM2]. apply wp_modify. split; [done|]. split; [by eexists|].
    dispatch Hty.
    apply wp_zoom. cbn [lget lens_comp fst_lens vp_acct_of chain_lens fst snd x_chain ch_vp ch_acct on_ctx].
    unfold vpower_ExecuteTrx. rewrite Hty, (xc_exec _ _ _ HC). cbn [Z.eqb Pos.eqb TRX_STAKING]. apply wp_bind, wp_zoom. cbn [lget fst_lens fst].
    apply (wp_bond_tx tx opt _ _ _ s1 (lg_vp L)); try done; [apply Hok|apply Hok|lia|by rewrite Hh|apply Hs|].
    intros s2 vp2 HC2 Hm2 Hn2 Hp2 Eb Ef Ev. cbn [lset fst_lens fst snd].
    apply wp_bind, wp_zoom. cbn [lget snd_lens snd].
    apply (wp_view_debit P ∅ _ (lg_accts L) (tx_From tx)); [apply HK|apply HC|apply HC|done|].
    intros a1 HV1. cbn [lset snd_lens fst snd]. apply wp_zoom. cbn [lget snd_lens snd].
    apply wp_ignore, (wp_view_set P _ a1 _ (tx_From tx) _ _ HV1); [apply HC|apply is_Some_stored; cbn; by eapply acct_at_Address, Hok|].
    intros a2 HV2. apply (views_dirty _ _ ∅) in HV2; [|clear; set_solver].
    split; [done|]. split; [done|]. eexists. split; [apply (eff_stake _ _ _ _ vp2); done || lia|].
    cbn [lset snd_lens fst_lens lens_comp chain_lens vp_acct_of x_chain fst snd on_ctx].
    assert (vpowLimiter s2 = vpowLimiter s1) as El by (unfold ptrs in Hp2; congruence).
    assert (total (debit (lg_accts L) (tx_From tx) (tx_Amount tx)) = total (lg_accts L) - tx_Amount tx) as Et by apply debit_total, Hok.
    pose proof (ck_budget _ _ _ _ _ _ HK) as Hb. pose proof (bo_range _ _ _ Hok). rewrite PowerToAmount_exact in Eamt by lia.
    split; cbn [ch_acct ch_vp ch_sup ch_gov lg_accts lg_vp lg_sup lg_gov]; [|done|done|by rewrite El| |apply HK..].
    + split; try done; try apply Hok; [apply HV2|]. cbn [lg_accts lg_sup]. rewrite Et. lia.
    + rewrite El, HM1, HM2, Et. lia.
  - intros e s1 HC1 El. split; [done|]. split; [done|]. destruct HK. split; try done; cbn; by rewrite El.
Qed.

Lemma validate_unstaking_kind :
  GetType tx = TRX_UNSTAKING -> (exists hash, tx_Payload tx = Some (TrxPayloadUnstaking hash)) ->
  wp controller_validate (val_post P gp h L fees x) x.
Proof.
  intros Hty Hpay. destruct native_sane as [Hs _]. pose proof (ck_ok _ _ _ _ _ _ HK) as Hok.
  dispatch Hty. rewrite (ck_gp _ _ _ _ _ _ HK), (xc_exec _ _ _ HC). apply wp_bind, wp_zoom, wp_zoom.
  cbn [lget lens_comp fst_lens vp_acct_of chain_lens fst].
  unfold vpower_ValidateTrx. rewrite Hty. cbn [Z.eqb Pos.eqb TRX_STAKING TRX_UNSTAKING].
  apply (wp_validate_unstaking tx _ (lg_vp L)); [apply HK|apply Hok|apply Hok|apply HK|done|..].
  - intros dl vl p d w hash s1 HC1 HL1 [HM1 HM2] Hp Hne Hd Hw Hdl Hvl [pc Hfc].
    destruct (findPowerChunk_del w hash pc Hfc) as [_ (pc' & w' & Hdel)].
    apply wp_modify. split; [done|]. split; [by eexists|]. dispatch Hty.
    apply wp_zoom. cbn [lget lens_comp fst_lens vp_acct_of chain_lens fst snd x_chain ch_vp ch_acct on_ctx].
    unfold vpower_ExecuteTrx. rewrite Hty, (xc_exec _ _ _ HC), Hh. cbn [ch_gov x_chain].
    rewrite (ck_gp _ _ _ _ _ _ HK). cbn [Z.eqb Pos.eqb TRX_STAKING TRX_UNSTAKING]. apply wp_zoom. cbn [lget fst_lens fst].
    eapply (wp_exeUnbonding gp tx dl vl p s1 (lg_vp L) d w hash pc' w'); try done; [apply Hok|apply Hok|apply Hs|].
    intros s2 vp2 HC2 Hm2 Hn2 Hp2 Ebf Hun. split; [done|]. split; [done|].
    eexists. split; [by apply (eff_unstake _ _ _ _ vp2 hash)|].
    cbn [lset snd_lens fst_lens lens_comp chain_lens vp_acct_of x_chain fst snd on_ctx].
    assert (vpowLimiter s2 = vpowLimiter s1) as El by (unfold ptrs in Hp2; congruence).
    destruct HK, Hok. split; cbn [ch_acct ch_vp ch_sup ch_gov lg_accts lg_vp lg_sup lg_gov]; try done; rewrite ?El; try done.
    rewrite HM1, HM2, Z.add_0_r. done.
  - intros e s1 HC1 El. split; [done|]. split; [done|]. destruct HK. split; try done; cbn; by rewrite El.
Qed.

Lemma validate_withdraw_kind :
  GetType tx = TRX_WITHDRAW -> (forall amt, tx_Payload tx = Some (TrxPayloadWithdraw amt) -> 0 <= amt) ->
  is_Some (lg_accts L !! LedgerKeyAccount (tx_From tx)) ->
  wp controller_validate (val_post P gp h L fees x) x.
Proof.
  intros Hty Hpay Hst. destruct native_sane as [Hs _]. pose proof (ck_ok _ _ _ _ _ _ HK) as Hok.
  dispatch Hty. rewrite (xc_exec _ _ _ HC). apply wp_bind, wp_zoom, wp_zoom.
  cbn [lget lens_comp fst_lens sup_acct_of chain_lens fst].
  eapply wp_mono; [apply (wp_supply_Validate tx _ (lg_sup L) Hty); apply HK|].
  intros [l|e|] s1 [HC1 Hr]; [|split; [done|]; split; [done|]; destruct HK; by split|done].
  destruct Hr as (amt & Hp & Hle & Hl). specialize (Hpay amt Hp).
  apply wp_modify. split; [done|]. split; [by eexists|]. dispatch Hty.
  apply wp_zoom. cbn [lget lens_comp fst_lens sup_acct_of chain_lens fst snd x_chain ch_sup ch_acct on_ctx].
  unfold supply_ExecuteTrx. rewrite Hty, (xc_exec _ _ _ HC), Hh, Hp. cbn [Z.eqb Pos.eqb TRX_WITHDRAW].
  unfold withdrawReward. apply wp_bind, wp_zoom. cbn [lget fst_lens fst].
  eapply wp_mono; [apply (wp_debit_reward s1 (lg_sup L) (tx_From tx) l amt h); try done; apply Hok|].
  intros [b|e|] s2; [|done|done]. intros (-> & sup2 & HC2 & Hw & Hhts). cbn [lset fst_lens fst snd].
  pose proof (cum_le (lg_sup L) (tx_From tx) (bo_sup_ok _ _ _ Hok)). destruct (books_total _ _ _ Hok) as (? & ? & ?).
  pose proof (bo_fees_pos _ _ _ Hok). pose proof (bal_le_total (lg_accts L) (tx_From tx) (bo_accts_ok _ _ _ Hok)).
  apply wp_zoom. cbn [lget snd_lens snd].
  apply (wp_view_reward P _ (lg_accts L) (tx_From tx) (tc_Sender c)); [apply HK|apply HC|done|lia|].
  intros a' HV. split; [done|]. split; [done|]. eexists. split; [by apply (eff_withdraw _ _ _ _ sup2 amt)|].
  cbn [lget lset snd_lens fst_lens lens_comp chain_lens sup_acct_of x_chain fst snd on_ctx].
  assert (total (credit (lg_accts L) (tx_From tx) amt) = total (lg_accts L) + amt) as Et by (apply credit_total; [apply Hok|lia..]).
  destruct Hw as (_ & _ & Ec & _). specialize (Hhts Hh0).
  assert (smap_ok sup2) as Hso by (intros k y Hy; by eapply coh_sitem).
  destruct HK, Hok. split; cbn [ch_acct ch_vp ch_sup ch_gov lg_accts lg_vp lg_sup lg_gov]; try done; [|lia].
  split; try done; [apply HV|]. cbn [lg_accts lg_sup]. lia.
Qed.

Lemma validate_voting_kind :
  GetType tx = TRX_VOTING -> wp controller_validate (val_post P gp h L fees x) x.
Proof.
  intros Hty. dispatch Hty. apply wp_bind, wp_gets, wp_zoom. cbn [lget lens_comp gov_of chain_lens].
  unfold gov_ValidateTrx. rewrite Hty, (xc_exec _ _ _ HC), Hh. cbn [Z.eqb Pos.eqb TRX_PROPOSAL TRX_VOTING].
  destruct (tx_Payload tx) as [[| | | |y ch| | |]|] eqn:Epl.
  5: { apply (wp_validate_voting tx h _ (lg_gov L) y ch); [apply HK|done| |].
    - intros e s1 Hp1 HC1. split; [done|]. split; [done|]. unfold params in Hp1. destruct HK. split; try done. cbn. congruence.
    - intros s1 p Hp1 HC1 Ey Hv Hc Hht. split; [done|]. split; [eexists; apply set_Result_same|]. dispatch Hty.
      apply wp_bind, wp_ret, wp_zoom. cbn [lget lens_comp gov_of chain_lens x_chain ch_gov].
      unfold gov_ExecuteTrx. rewrite Hty, (xc_exec _ _ _ HC). cbn [Z.eqb Pos.eqb TRX_PROPOSAL TRX_VOTING].
      apply (wp_execVoting tx s1 (lg_gov L) y ch p); [done..|]. intros s2 p' Hp2 Ed HC2.
      split; [done|]. split; [done|]. eexists. split; [by apply (eff_vote _ _ _ _ y ch p p')|].
      unfold params in Hp1, Hp2. destruct HK as [[] ? ? ? ? ? ? ?]. split; try done. cbn. congruence. }
  all: unfold validate_voting; rewrite Epl; destruct (negb (_ =? 0)); apply wp_throw; (split; [done|]; split; [done|]; destruct HK; by split).
Qed.

End Kinds.

(** ** The executor *)

Section Executor.
Context {T I : Type} `{Iavl T I, !IavlLaws T I}.
Context `{Utf8, Proto AcctProto, !ProtoLaws AcctProto AcctProto_ok}.
Context `{GovProtos, !GovProtosLaws, GovJson, !GovJsonLaws, VPowerProtos, !VPowerProtosLaws}.
Context `{SupplyProtos, !SupplyProtosLaws, CryptoLib}.
Context {GP : Type} `{GasPoolLib GP, !GasPoolLaws GP}.
Context {E : Type} `{!IEVMHandler E GP (AcctCtrler T I)}.
Implicit Types (x : XState T I E GP) (P : gmap Address loc) (ch : Chain T I E) (L : ledgers).

(** A transaction of a native kind that the executor can be given: the staker's
    key is the sender's, and a transfer is not to a contract. *)
Record native_trx (pub : bytes) (tx : Trx) : Prop := {
  nt_kind : native_kind tx;
  nt_key : GetType tx = TRX_STAKING -> PubKeyBytes2Addr pub = tx_From tx;
}.

Lemma native_kind_type tx : native_kind tx -> known_type (GetType tx) = true /\ GetType tx <> TRX_CONTRACT.
Proof.
  unfold native_kind. intros Hk. assert (known_type (GetType tx) = true /\ GetType tx <> TRX_CONTRACT); [|done].
  destruct Hk as [->|[[-> _]|[->|[[-> _]|[[-> _]| ->]]]]]; done.
Qed.

(** The controller of each kind. *)
Lemma wp_controller_validate P gp h L fees payer x :
  chain_keeps P gp h (x_chain x) L fees -> native_ctx P payer (x_ctx x) ->
  bc_Height (x_bctx x) = h -> in_i64 h -> 0 <= h ->
  affordable (lg_accts L) (tc_Tx (x_ctx x)) payer = true ->
  native_trx (tc_SenderPubKey (x_ctx x)) (tc_Tx (x_ctx x)) -> no_code (lg_accts L) (tc_Tx (x_ctx x)) ->
  is_Some (lg_accts L !! LedgerKeyAccount (tx_From (tc_Tx (x_ctx x)))) ->
  wp controller_validate (val_post P gp h L fees x) x.
Proof.
  intros HK HC Hh Hi Hh0 Haff [Hk Hkey] [_ Hcode] Hst.
  destruct Hk as [Hty|[(Hty & n & u & Hp & Hn & Hu)|[Hty|[[Hty Hp]|[[Hty Hp]|Hty]]]]].
  - apply (validate_transfer P gp h L fees payer); auto.
  - by apply (validate_doc P gp h L fees payer x HK HC Haff n u).
  - apply (validate_staking_kind P gp h L fees payer); auto.
  - by apply (validate_unstaking_kind P gp h L fees payer).
  - by apply (validate_withdraw_kind P gp h L fees payer).
  - by apply (validate_voting_kind P gp h L fees payer).
Qed.

(** Paying the fee moves coins from the accounts to the fees of the block. *)
Lemma keeps_charge P gp h ch L fees tx payer a' :
  chain_keeps P gp h ch L fees -> fee_of tx <= bal (lg_accts L) payer -> length payer = AddrSize -> 0 <= fee_of tx ->
  views P ∅ a' (charge tx payer (lg_accts L)) ->
  chain_keeps P gp h (lset acct_of a' ch) (on_accts (charge tx payer) L) (fees + fee_of tx).
Proof.
  intros HK Hfee Hp Hf0 HV. pose proof (ck_ok _ _ _ _ _ _ HK) as Hok. pose proof (bo_accts_ok _ _ _ Hok) as Ha.
  assert (total (charge tx payer (lg_accts L)) = total (lg_accts L) - fee_of tx) as Et.
  { unfold charge. rewrite total_bump, debit_total; [done|done|]. apply accts_ok_debit; auto. }
  destruct HK, Hok. split; try done; cbn [on_accts lg_accts lg_sup lset acct_of ch_vp]; [|rewrite Et; lia].
  split; try done; cbn [on_accts lg_accts lg_sup]; [apply HV|lia|rewrite Et; lia].
Qed.

Lemma wp_ExecuteSync_native P gp h L fees payer x :
  chain_keeps P gp h (x_chain x) L fees -> native_ctx P payer (x_ctx x) ->
  bc_Height (x_bctx x) = h -> in_i64 h -> 0 <= h -> gas_in x < 2 ^ 63 ->
  native_trx (tc_SenderPubKey (x_ctx x)) (tc_Tx (x_ctx x)) -> no_code (lg_accts L) (tc_Tx (x_ctx x)) ->
  is_Some (lg_accts L !! LedgerKeyAccount (tx_From (tc_Tx (x_ctx x)))) ->
  wp ExecuteSync (fun o x' =>
    match o with
    | Ok _ => exists b' p', booked gp h (tc_Tx (x_ctx x)) payer (MkBooks L (gas_in x) fees) b' /\
        chain_keeps P gp h (x_chain x') (bo_led b') (bo_fees b') /\
        x_bctx x' = set_gas (bc_blockGasLimit (x_bctx x)) p' (x_bctx x) /\ gas_Gas p' = bo_gas b' /\
        tc_Tx (x_ctx x') = tc_Tx (x_ctx x) /\ tc_GasUsed (x_ctx x') = tx_Gas (tc_Tx (x_ctx x))
    | Err _ => x_bctx x' = x_bctx x /\ x_ctx x' = x_ctx x /\ chain_keeps P gp h (x_chain x') L fees
    | Panic => False
    end) x.
Proof.
  intros HK HC Hh Hi Hh0 Hgas HT Hnc Hst. unfold ExecuteSync. rewrite validateTrx_split. apply wp_bind, wp_bind.
  pose proof (ck_accts _ _ _ _ _ _ HK) as HV.
  eapply wp_mono; [apply (wp_commonValidation P (lg_accts L) fees payer x HV HC Hgas)|].
  intros o x0 [-> Ho]. destruct (acceptable _ _ _) eqn:Eacc; [subst o|by destruct Ho as [e ->]].
  pose proof Eacc as Eacc'. unfold acceptable in Eacc'. cbn [bk_gas bk_accts] in Eacc'. rewrite !andb_true_iff in Eacc'.
  destruct Eacc' as [[[_ Hg] Haff] _]. apply Z.leb_le in Hg.
  eapply wp_mono; [by apply (wp_controller_validate P gp h L fees payer x)|].
  intros [[]|e|] x1; [|done|done]. intros (Eb & [r Ec] & Hrun).
  destruct (native_kind_type _ (nt_kind _ _ HT)) as [Hkn _].
  unfold runTrx. apply wp_bind, wp_gets. rewrite Ec. cbn [tc_Tx set_Result tc_Exec]. rewrite Hkn, (xc_exec _ _ _ HC). cbn [orb].
  apply wp_bind, wp_try. eapply wp_mono; [exact Hrun|]. intros [[]|e|] x2; [|done|done]. intros (Eb2 & Ec2 & L' & He & HK').
  rewrite Ec in Ec2. destruct (native_sane P gp h L fees payer x HK HC Haff) as [Hs _].
  destruct (effect_ok gp h _ payer L L' fees (ck_ok _ _ _ _ _ _ HK) Hs Haff (nt_kind _ _ HT) He) as (Hsame & Hfee & _).
  assert (native_ctx P payer (x_ctx x2)) as HC2 by (rewrite Ec2; destruct HC; by split).
  apply wp_bind, wp_ignore. eapply (wp_postRunTrx_native P (lg_accts L') (x_ctx x2) payer); try done;
    [apply HK'|..]; rewrite ?Ec2; cbn [tc_Tx set_Result].
  - destruct Hnc as [Hnc Hcode]. split; [done|]. intros Ht. rewrite (sa_code _ _ Hsame). by apply Hcode.
  - done.
  - unfold gas_in. rewrite Eb2. exact Hg.
  - intros s' p' HV' Hp'. apply wp_ret.
    assert (chain_keeps P gp h (lset acct_of s' (x_chain x2)) (on_accts (charge (tc_Tx (x_ctx x)) payer) L')
      (fees + fee_of (tc_Tx (x_ctx x)))) as HKc.
    { apply keeps_charge; [done..| |by apply fee_nonneg|exact HV']. apply (vw_ptr _ _ _ _ HV _ _ (xc_payer _ _ _ HC)). }
    eexists (MkBooks _ _ _), p'. split.
    { split; [exact Eacc|]. split; [|exists L'; split; [exact He|]; reflexivity]. apply (ck_ok _ _ _ _ _ _ HKc). }
    cbn [bo_led bo_fees bo_gas x_chain x_bctx x_ctx tc_Tx set_GasUsed tc_GasUsed]. rewrite Eb2.
    split; [exact HKc|split; [done|split; [rewrite Hp'; unfold gas_in; by rewrite Eb2|done]]].
Qed.

End Executor.
