(* ===== verification/ToyNode.v ===== *)
(** * ToyNode: a small node for the witnesses

    The parameters of the application instantiated by concrete functions, and a
    node at the start of a block with two accounts: a gas pool on 64 bits,
    account messages encoded as numbers, a table of transactions, the signatures
    of [Toy_crypto], and a virtual machine that does nothing. *)
From stdpp Require Import base gmap list strings countable.
From Stdlib Require Import ZArith Lia.
From S2P Require Import Prelude XErrors GoMonad LedgerKeys Iavl Ledger LedgerSpec LedgerOps.
From S2P Require Import Units Proto GovParams Account TrxTypes Signer AcctCtrler AcctSpec AcctProps.
From S2P Require Import VPowerItems Limiter VPowerCtrler Proposal GovCtrler Numbers SupplyCtrler.
From S2P Require Import TrxCtx MetaDB TrxExecutor TrxPreparer App.

Module ToyNode.

(** ** Parameters *)

#[export] Instance toy_gas : GasPoolLib Z := {
  gas_new := 0;
  gas_Add p n := if p mod 2 ^ 64 + n <? 2 ^ 64 then Ok (p mod 2 ^ 64 + n) else Panic;
  gas_Sub p n := if n <=? p mod 2 ^ 64 then Ok (p mod 2 ^ 64 - n) else Err (GoError "gas limit reached");
  gas_Gas p := p mod 2 ^ 64;
}.

#[export] Instance toy_gas_laws : GasPoolLaws Z.
Proof.
  assert (forall p, 0 <= p mod 2 ^ 64 < 2 ^ 64) as Hr by (intros p; apply Z.mod_pos_bound; lia).
  split; cbn [gas_Gas gas_Add gas_Sub gas_new toy_gas].
  - done.
  - done.
  - intros p n Hn Hlt. rewrite (proj2 (Z.ltb_lt _ _)) by done. eexists. split; [done|].
    specialize (Hr p). apply Z.mod_small. lia.
  - intros p n Hn. rewrite (proj2 (Z.leb_le _ _)) by lia. eexists. split; [done|].
    specialize (Hr p). apply Z.mod_small. lia.
  - intros p n Hlt. rewrite (proj2 (Z.leb_gt _ _)) by done. eauto.
Qed.

#[export] Instance toy_utf8 : Utf8 := Any_utf8.
#[export] Instance toy_acct : Proto AcctProto := Countable_proto.
#[export] Instance toy_acct_laws : ProtoLaws AcctProto AcctProto_ok := Countable_proto_laws AcctProto_ok.

(** Messages that are not stored. *)
Definition no_proto {A} : Proto A :=
  Build_Proto A (fun _ => Err (GoError "proto: unknown message")) (fun _ => Err (GoError "proto: unknown message")).
#[export] Instance toy_gov : GovProtos := Build_GovProtos no_proto no_proto.
#[export] Instance toy_json : GovJson := fun _ => Err (GoError "invalid character").
#[export] Instance toy_vpower : VPowerProtos := Build_VPowerProtos no_proto no_proto no_proto.
#[export] Instance toy_supply : SupplyProtos := Build_SupplyProtos no_proto no_proto.
#[export] Instance toy_crypto : CryptoLib := Toy_crypto.
#[export] Instance toy_rlp : RlpLib :=
  Build_RlpLib (fun r => Ok [r_Nonce r]) (fun _ => Ok []) (fun _ => Err (GoError "rlp: expected List"))
    (fun _ _ => Err (GoError "rlp: expected List")) (fun id n => id ++ [n]).
#[export] Instance toy_hash : TmHash := fun b => b.

(** The accounts of the genesis. *)
Definition alice : Address := repeat 1 20.
Definition bob : Address := repeat 2 20.
Definition carol : Address := repeat 3 20.

Definition price : bytes := p_XGasPrice GovParams.DefaultGovParams.

(** A transfer signed by the key [k; k; ...]. *)
Definition toy_tx (k : Z) (to : Address) (amt nonce : Z) : TrxProto :=
  MkTrxProto 1 0 nonce (repeat k 20) to (uBytes amt) 5000 price TRX_TRANSFER [] (repeat k 64 ++ [0]) [] [].

(** The transactions: [1] pays carol, [2] is [1] again in other bytes, [3] is the
    next one of alice, [4] is carol's, [5] of an unknown account. *)
Definition toy_table (b : bytes) : outcome TrxProto :=
  match b with
  | [1] | [2] => Ok (toy_tx 1 carol (10 ^ 18) 0)
  | [3] => Ok (toy_tx 1 bob 7 1)
  | [4] => Ok (toy_tx 2 alice 3 0)
  | [5] => Ok (toy_tx 9 alice 3 0)
  | _ => Err (GoError "proto: cannot parse invalid wire-format data")
  end.

#[export] Instance toy_trx : TrxProtos :=
  Build_TrxProtos (Build_Proto _ (fun _ => Ok []) toy_table) no_proto no_proto no_proto no_proto no_proto no_proto.

Abbreviation toy_accts := (AcctCtrler RefTree.tree (gmap bytes bytes)).

#[export] Instance toy_evm : IEVMHandler unit Z toy_accts := {
  evm_ValidateTrx := ret tt;
  evm_ExecuteTrx := ret tt;
  evm_BeginBlock _ _ := ret tt;
  evm_EndBlock := ret tt;
  evm_Commit := ret ([], 1);
}.

#[export] Instance toy_db : TmDB (gmap bytes bytes) := bytes_map_db.
#[export] Instance toy_db_laws : TmDBLaws (gmap bytes bytes) := bytes_map_db_laws.

(** Chain ids are short decimal texts here. *)
#[export] Instance toy_chain_id : ChainIdText :=
  Build_ChainIdText (fun _ => Panic) (fun b => match b with [c] => Ok (c - 48) | _ => Panic end) (fun c => [c + 48]).

(** A block context as lists of numbers. *)
#[export] Instance RequestBeginBlock_eq_dec : EqDecision RequestBeginBlock.
Proof. solve_decision. Defined.
#[export] Instance blockContextJson_eq_dec : EqDecision blockContextJson.
Proof. solve_decision. Defined.

Definition json_lists (j : blockContextJson) : list (list (list Z)) :=
  let bi := bj_BlockInfo j in
  [[[rb_Height bi; rb_Time bi; bj_BlockSizeLimit j; bj_BlockGasLimit j; bj_BlockGasUsed j; bj_FeeSum j; bj_TxsCnt j];
    rb_ChainID bi; rb_ProposerAddress bi; bj_AppHash j]; rb_Byzantines bi;
   map (fun v => (if snd v : bool then 1 else 0) :: fst v) (rb_Votes bi)].

Definition lists_json (l : list (list (list Z))) : option blockContextJson :=
  match l with
  | [[[h; t; s; g; u; f; c]; cid; prop; hash]; byz; votes] =>
      Some (MkBlockContextJson (MkRequestBeginBlock cid h t prop byz
        (map (fun v => match v with b :: a => (a, b =? 1) | [] => ([], false) end) votes)) s g u f c hash)
  | _ => None
  end.

Lemma lists_json_lists j : lists_json (json_lists j) = Some j.
Proof.
  destruct j as [[cid h t prop byz votes] s g u f c hash]. unfold lists_json, json_lists; cbn. do 3 f_equal.
  rewrite map_map. rewrite <- (map_id votes) at 2. apply map_ext. intros [a []]; done.
Qed.

#[export] Instance toy_bctx_json : BctxJson := {
  bctx_json j := Ok [Z.pos (encode (json_lists j))];
  bctx_unjson b :=
    match b with
    | [Z.pos p] => match decode p ≫= lists_json with
                   | Some j => Ok j
                   | None => Err (GoError "unexpected end of JSON input")
                   end
    | _ => Err (GoError "unexpected end of JSON input")
    end;
}.

(** ** The node *)

Definition empty_state {Item} : LState Item RefTree.tree (gmap bytes bytes) :=
  MkLState empty_store (MkStateLedger (MkMutableLedger RefTree.empty [] ∅) (MkMemLedger (Some ∅) ∅ [])).

Definition holders : list (Address * Z) := [(alice, 10 ^ 20); (bob, 10 ^ 19)].

Definition toy_accounts : toy_accts := snd (acct_InitLedger holders (MkAcctCtrler empty_state ∅ ∅)).
Definition toy_map : accts_map := genesis_accts holders ∅.

Lemma toy_accounts_inv : ainv ∅ toy_accounts toy_map.
Proof.
  assert (ainv ∅ (MkAcctCtrler (empty_state : LState Account RefTree.tree (gmap bytes bytes)) ∅ ∅) ∅) as He.
  { split; [|intros a l Hl; cbn in Hl; now rewrite lookup_empty in Hl]. split; cbn; try done. constructor. }
  pose proof (InitLedger_spec holders _ ∅ He) as Hw. unfold wp in Hw.
  destruct (fst (acct_InitLedger holders (MkAcctCtrler empty_state ∅ ∅))) eqn:E.
  - apply Hw. repeat constructor; vm_compute; congruence.
  - exfalso. vm_compute in E. congruence.
  - exfalso. vm_compute in E. congruence.
Qed.

Definition toy_chain : Chain RefTree.tree (gmap bytes bytes) unit :=
  MkChain (MkGovCtrler empty_state GovParams.DefaultGovParams None) toy_accounts
    (MkVPowerCtrler empty_state [] [] (MkLimiter 0 0 0 0 0)) (MkSupplyCtrler empty_state 1%positive []) tt.

Definition toy_bctx : BlockContext Z :=
  MkBlockContext (MkRequestBeginBlock [48] 1 0 bob [] []) 0 100000 100000 0 0 [] [].

Definition toy_node : Node RefTree.tree (gmap bytes bytes) unit Z (gmap bytes bytes) :=
  MkNode toy_chain None (Some toy_bctx) (MkMetaDB ∅ 0 0) (MkSigners [48] 1) 1.

End ToyNode.
