(* ===== verification/EvmTransition.v ===== *)
(** * EvmTransition: applying a message to the state

    [ctrlers/vm/evm/state_transition.go] and [block_ctx.go], which follow
    go-ethereum's state transition without its fee handling: gas is taken from
    the pool of the block, the message is run, and what is left goes back.  The
    interpreter itself, the intrinsic gas and the check of blob hashes are
    parameters ([EthVM]).  The wrapper of the state ([statedb.go]) comes first. *)
From stdpp Require Import base gmap list strings sorting.
From Stdlib Require Import ZArith Lia.
From S2P Require Import Prelude XErrors GoMonad LedgerKeys Iavl Ledger Units HexBytes.
From S2P Require Import Account AcctCtrler ValSet.
From S2P Require Import TrxCtx.

(** ** StateDB: the virtual machine's view of the accounts

    [ctrlers/vm/evm/statedb.go].  go-ethereum's [StateDB] is a parameter
    ([EthStateDB], its documented behaviour in [EthStateLaws]).  The wrapper
    copies nonce and balance of an account into it when the account is first
    touched, remembers at which snapshot that was, and [Finish] writes balances,
    code hashes and the nonces of contracts back to the accounts, in the order of
    the addresses. *)

Record EthLog := MkEthLog {
  el_Address : bytes;
  el_Topics : list bytes;
  el_Data : bytes;
  el_BlockNumber : Z;
  el_Removed : bool;
}.

(** A [common.Address] is 20 bytes, a [common.Hash] 32.  [Prepare] is called with
    the sender, the coinbase, the destination and the precompiled contracts. *)
Class EthStateDB (S : Type) : Type := {
  st_GetBalance : S -> Address -> Z;
  st_SetBalance : Address -> Z -> S -> S;
  st_GetNonce : S -> Address -> Z;
  st_SetNonce : Address -> Z -> S -> S;
  st_GetCodeHash : S -> Address -> bytes;
  st_GetCodeSize : S -> Address -> Z;
  st_GetRefund : S -> Z;
  st_Snapshot : S -> Z * S;
  st_RevertToSnapshot : Z -> S -> outcome S;
  st_SetTxContext : bytes -> Z -> S -> S;
  st_AddAddressToAccessList : Address -> S -> S;
  st_Prepare : Address -> Address -> option Address -> list Address -> S -> S;
  st_Finalise : S -> S;
  st_GetLogs : S -> bytes -> list EthLog;
  EmptyCodeHash : bytes;
}.

(** No code: the hash of a missing account or of empty code. *)
Definition no_code {S} `{EthStateDB S} (s : S) (a : Address) : Prop :=
  st_GetCodeHash s a = repeat 0 32 \/ st_GetCodeHash s a = EmptyCodeHash.

(** [st_valid id s]: the snapshot [id] can be reverted to.  *)
Class EthSnapshots (S : Type) `{EthStateDB S} : Type := {
  st_valid : Z -> S -> Prop;
  valid_Snapshot : forall s, st_valid (fst (st_Snapshot s)) (snd (st_Snapshot s));
  valid_SetBalance : forall id s a v, st_valid id s -> st_valid id (st_SetBalance a v s);
  valid_SetNonce : forall id s a v, st_valid id s -> st_valid id (st_SetNonce a v s);
  valid_context : forall id s h i, st_valid id s -> st_valid id (st_SetTxContext h i s);
  valid_access : forall id s a, st_valid id s -> st_valid id (st_AddAddressToAccessList a s);
  valid_revert : forall id s, st_valid id s -> exists s', st_RevertToSnapshot id s = Ok s';
}.

(** Setting a balance or a nonce is read back, touches nothing else and deploys no
    code; the access list and the context of the transaction are apart from the
    accounts. *)
Class EthStateLaws (S : Type) `{EthStateDB S} : Prop := {
  bal_SetBalance : forall s a v a', st_GetBalance (st_SetBalance a v s) a' = if bool_decide (a' = a) then v else st_GetBalance s a';
  bal_SetNonce : forall s a v a', st_GetBalance (st_SetNonce a v s) a' = st_GetBalance s a';
  nonce_SetNonce : forall s a v a', st_GetNonce (st_SetNonce a v s) a' = if bool_decide (a' = a) then v else st_GetNonce s a';
  nonce_SetBalance : forall s a v a', st_GetNonce (st_SetBalance a v s) a' = st_GetNonce s a';
  bal_context : forall s h i a', st_GetBalance (st_SetTxContext h i s) a' = st_GetBalance s a';
  nonce_context : forall s h i a', st_GetNonce (st_SetTxContext h i s) a' = st_GetNonce s a';
  bal_access : forall s a a', st_GetBalance (st_AddAddressToAccessList a s) a' = st_GetBalance s a';
  nonce_access : forall s a a', st_GetNonce (st_AddAddressToAccessList a s) a' = st_GetNonce s a';
  code_SetBalance : forall s a v a', no_code s a' -> no_code (st_SetBalance a v s) a';
  code_SetNonce : forall s a v a', no_code s a' -> no_code (st_SetNonce a v s) a';
  code_context : forall s h i a', no_code s a' -> no_code (st_SetTxContext h i s) a';
  code_access : forall s a a', no_code s a' -> no_code (st_AddAddressToAccessList a s) a';
  code_Snapshot : forall s a', no_code s a' -> no_code (snd (st_Snapshot s)) a';
}.

Record StateDBWrapper (S : Type) := MkWrapper {
  sw_StateDB : S;
  sw_accessedObjAddrs : gmap Address Z;
  sw_snapshot : Z;
  sw_exec : bool;
}.
Arguments MkWrapper {S} _ _ _ _.
Arguments sw_StateDB {S} _.
Arguments sw_accessedObjAddrs {S} _.
Arguments sw_snapshot {S} _.
Arguments sw_exec {S} _.

Section Wrapper.
Context {S : Type} `{EthStateDB S}.
Context {A : Type} `{IAccountHandler A}.
Abbreviation W := (StateDBWrapper S).
Abbreviation WM := (M (StateDBWrapper S * A)).

(** [NewStateDBWrapper] on an opened state. *)
Definition NewWrapper (s : S) : W := MkWrapper s ∅ 0 false.

Definition on_state (f : S -> S) (w : W) : W :=
  MkWrapper (f (sw_StateDB w)) (sw_accessedObjAddrs w) (sw_snapshot w) (sw_exec w).
Definition set_accessed (m : gmap Address Z) (w : W) : W :=
  MkWrapper (sw_StateDB w) m (sw_snapshot w) (sw_exec w).

Definition on_wrapper (f : W -> W) : WM unit := modify (fun c => (f (fst c), snd c)).

Definition addAccessedObjAddr (addr : Address) : WM unit :=
  let! w := gets fst in
  match sw_accessedObjAddrs w !! addr with
  | Some _ => ret tt
  | None =>
      let! l := zoom snd_lens (FindOrNewAccount addr (sw_exec w)) in
      let! acct := zoom snd_lens (acct_get l) in
      on_wrapper (on_state (st_SetNonce addr (u64 (acct_Nonce acct)))) ;;;
      on_wrapper (on_state (st_SetBalance addr (acct_Balance acct))) ;;;
      on_wrapper (fun w => set_accessed (<[addr := sw_snapshot w + 1]> (sw_accessedObjAddrs w)) w)
  end.

Definition sw_AddAddressToAccessList (addr : Address) : WM unit :=
  addAccessedObjAddr addr ;;;
  on_wrapper (on_state (st_AddAddressToAccessList addr)).

Definition Initiate (txhash : bytes) (txidx : Z) (from to : Address) (snap : Z) (exec : bool) : WM unit :=
  on_wrapper (fun w => MkWrapper (st_SetTxContext (Array32 txhash) txidx (sw_StateDB w))
                         (sw_accessedObjAddrs w) snap exec) ;;;
  sw_AddAddressToAccessList (Array20 from) ;;;
  if negb (IsZeroAddress to) then sw_AddAddressToAccessList (Array20 to) else ret tt.

(** One address of [Finish]; the error of [SetAccount] is dropped. *)
Definition finish_one (addr : Address) : WM unit :=
  let! w := gets fst in
  let s := sw_StateDB w in
  let amt := st_GetBalance s addr in
  let codeSize := st_GetCodeSize s addr in
  zoom snd_lens (
    let! l := FindOrNewAccount addr (sw_exec w) in
    acct_update l (fun a => Ok (SetBalance a amt)) ;;;
    (if 0 <? codeSize then
       let! acct := acct_get l in
       (if bytes_Equal (acct_Code acct) []
        then acct_update l (fun a => Ok (SetCode a (st_GetCodeHash s addr))) else ret tt) ;;;
       acct_update l (fun a => Ok (SetNonce a (i64 (st_GetNonce s addr))))
     else ret tt) ;;;
    ignore (SetAccount l (sw_exec w))).

Definition sorted_keys (m : gmap Address Z) : list Address :=
  go_sort (fun a b => bytes_Compare a b <? 0) (map fst (map_to_list m)).

Definition Finish : WM unit :=
  let! w := gets fst in
  for_each (sorted_keys (sw_accessedObjAddrs w)) finish_one ;;;
  on_wrapper (set_accessed ∅).

Definition sw_Snapshot : WM Z :=
  let! w := gets fst in
  let r := st_Snapshot (sw_StateDB w) in
  on_wrapper (fun w => MkWrapper (snd r) (sw_accessedObjAddrs w) (fst r) (sw_exec w)) ;;;
  ret (fst r).

(** The addresses touched after the snapshot are forgotten. *)
Definition revertAccessedObjAddr (snapshot : Z) (w : W) : W :=
  set_accessed (filter (fun kv => ~ (snapshot < snd kv)) (sw_accessedObjAddrs w)) w.

Definition sw_RevertToSnapshot (revid : Z) : WM unit :=
  on_wrapper (revertAccessedObjAddr revid) ;;;
  let! w := gets fst in
  let! s := lift (st_RevertToSnapshot revid (sw_StateDB w)) in
  on_wrapper (on_state (fun _ => s)).

(** [Prepare] with the rules of the chain, all forks up to Cancun, and no access
    list. *)
Definition sw_Prepare (sender coinbase : Address) (dst : option Address) (precompiles : list Address) : WM unit :=
  addAccessedObjAddr sender ;;;
  (match dst with Some d => addAccessedObjAddr d | None => ret tt end) ;;;
  for_each precompiles addAccessedObjAddr ;;;
  addAccessedObjAddr coinbase ;;;
  on_wrapper (on_state (st_Prepare sender coinbase dst precompiles)).

End Wrapper.

(** What the code sets of [vm.BlockContext]; [BaseFee] and [BlobBaseFee] are 0. *)
Record VMBlockContext := MkVMBlock {
  vb_Coinbase : Address;
  vb_GasLimit : Z;
  vb_BlockNumber : Z;
  vb_Time : Z;
}.

Definition evmBlockContext (coinbase : Address) (gasLimit bn tm : Z) : VMBlockContext :=
  MkVMBlock coinbase (u64 gasLimit) bn (u64 tm).

Definition BaseFee : Z := 0.
Definition BlobBaseFee : Z := 0.
Definition NoBaseFee : bool := true.

(** [core.Message]; the access list is nil. *)
Record Message := MkMessage {
  mg_To : option Address;
  mg_From : Address;
  mg_Nonce : Z;
  mg_Value : Z;
  mg_GasLimit : Z;
  mg_GasPrice : Z;
  mg_GasFeeCap : Z;
  mg_GasTipCap : Z;
  mg_Data : bytes;
  mg_SkipAccountChecks : bool;
  mg_BlobGasFeeCap : Z;
  mg_BlobHashes : option (list bytes);
}.

Definition evmMessage (from : Address) (to : option Address) (nonce gasLimit gasPrice amt : Z)
    (data : bytes) (isFake : bool) : Message :=
  MkMessage to from (u64 nonce) amt (u64 gasLimit) gasPrice 0 0 data isFake 0 None.

(** What a run of the interpreter returns: the data, the gas left, and its error. *)
Record VMOutput := MkVMOutput {
  vo_ret : bytes;
  vo_gas : Z;
  vo_err : option error;
}.

(** The interpreter works on the wrapper of the state and, through it, on the
    accounts. *)
Class EthVM (S A : Type) : Type := {
  vm_Call : VMBlockContext -> Address -> Address -> bytes -> Z -> Z -> M (StateDBWrapper S * A) VMOutput;
  vm_Create : VMBlockContext -> Address -> bytes -> Z -> Z -> M (StateDBWrapper S * A) VMOutput;
  IntrinsicGas : bytes -> bool -> outcome Z;     (* data, is a creation *)
  IsValidVersionedHash : bytes -> bool;
  ActivePrecompiles : list Address;
  ErrExecutionReverted : error;
}.

(** The interpreter returns, with its errors in the output, and uses at most the
    gas it is given; the refund counter is unsigned. *)
Class EthVMLaws (S A : Type) `{EthStateDB S, !EthVM S A} : Prop := {
  vm_Call_law : forall vb from to data gas v c, 0 <= gas ->
    exists out c', vm_Call vb from to data gas v c = (Ok out, c') /\ 0 <= vo_gas out <= gas;
  vm_Create_law : forall vb from data gas v c, 0 <= gas ->
    exists out c', vm_Create vb from data gas v c = (Ok out, c') /\ 0 <= vo_gas out <= gas;
  st_GetRefund_law : forall s : S, 0 <= st_GetRefund s;
  IntrinsicGas_law : forall data creation gas, IntrinsicGas data creation = Ok gas -> 0 < gas;
}.

Definition MaxInitCodeSize : Z := 49152.
Definition RefundQuotientEIP3529 : Z := 5.
Definition BlobTxBlobGasPerBlob : Z := 131072.

Record ExecutionResult := MkExecutionResult {
  er_UsedGas : Z;
  er_RefundedGas : Z;
  er_Err : option error;
  er_ReturnData : bytes;
}.

(** [VMStateTransition]: the state is the wrapper with the accounts. *)
Record VMStateTransition (GP S A : Type) := MkST {
  st_gp : GP;
  st_gasRemaining : Z;
  st_initialGas : Z;
  st_state : StateDBWrapper S * A;
}.
Arguments MkST {GP S A} _ _ _ _.
Arguments st_gp {GP S A} _.
Arguments st_gasRemaining {GP S A} _.
Arguments st_initialGas {GP S A} _.
Arguments st_state {GP S A} _.

#[local] Obligation Tactic := idtac.

Program Definition state_lens {GP S A} : lens (VMStateTransition GP S A) (StateDBWrapper S * A) :=
  Lens st_state (fun w t => MkST (st_gp t) (st_gasRemaining t) (st_initialGas t) w) _ _ _.
Next Obligation. done. Qed.
Next Obligation. now intros ? ? ? []. Qed.
Next Obligation. done. Qed.

Section Transition.
Context {S : Type} `{EthStateDB S}.
Context {A : Type} `{IAccountHandler A}.
Context `{!EthVM S A}.
Context {GP : Type} `{GasPoolLib GP}.
Abbreviation TM := (M (VMStateTransition GP S A)).
Context (vb : VMBlockContext) (msg : Message).

Definition db (t : VMStateTransition GP S A) : S := sw_StateDB (fst (st_state t)).

Definition gasUsed (t : VMStateTransition GP S A) : Z := u64 (st_initialGas t - st_gasRemaining t).
Definition set_pool (p : GP) (t : VMStateTransition GP S A) := MkST p (st_gasRemaining t) (st_initialGas t) (st_state t).
Definition set_remaining (g : Z) (t : VMStateTransition GP S A) := MkST (st_gp t) g (st_initialGas t) (st_state t).

Definition blobGasUsed : Z :=
  u64 (Z.of_nat (length (default [] (mg_BlobHashes msg))) * BlobTxBlobGasPerBlob).

(** [ethcore.ErrInsufficientFunds] and the like, with the text added to them. *)
Definition core_error (e : string) : error := GoError e.

(** The sender's balance covers value and fee cap; the gas limit leaves the pool. *)
Definition buyGas : TM unit :=
  let balanceCheck := mg_GasLimit msg * mg_GasFeeCap msg + mg_Value msg
                      + (if 0 <? blobGasUsed then blobGasUsed * mg_BlobGasFeeCap msg else 0) in
  if 2 ^ 256 <=? balanceCheck
  then throw (core_error "insufficient funds for gas * price + value: address %v required balance exceeds 256 bits")
  else
    let! s := gets db in
    if st_GetBalance s (mg_From msg) <? balanceCheck
    then throw (core_error "insufficient funds for gas * price + value: address %v have %v want %v")
    else
      let! p := gets st_gp in
      let! p' := lift (gas_Sub p (mg_GasLimit msg)) in
      modify (set_pool p') ;;;
      modify (fun t => MkST (st_gp t) (u64 (st_gasRemaining t + mg_GasLimit msg)) (mg_GasLimit msg) (st_state t)).

Definition check_nonce_eoa (s : S) : outcome unit :=
  if mg_SkipAccountChecks msg then Ok tt
  else
    let stNonce := st_GetNonce s (mg_From msg) in
    let msgNonce := mg_Nonce msg in
    if stNonce <? msgNonce then Err (core_error "nonce too high: address %v, tx: %d state: %d")
    else if msgNonce <? stNonce then Err (core_error "nonce too low: address %v, tx: %d state: %d")
    else if u64 (stNonce + 1) <? stNonce then Err (core_error "nonce has max value: address %v, nonce: %d")
    else
      let codeHash := st_GetCodeHash s (mg_From msg) in
      if negb (bytes_Equal codeHash (repeat 0 32)) && negb (bytes_Equal codeHash EmptyCodeHash)
      then Err (core_error "sender not an eoa: address %v, codehash: %s")
      else Ok tt.

(** The London fork is active. *)
Definition check_fee_cap : outcome unit :=
  if negb NoBaseFee || (0 <? mg_GasFeeCap msg) || (0 <? mg_GasTipCap msg) then
    if 2 ^ 256 <=? mg_GasFeeCap msg then Err (core_error "max fee per gas higher than 2^256-1: address %v, maxFeePerGas bit length: %d")
    else if 2 ^ 256 <=? mg_GasTipCap msg then Err (core_error "max priority fee per gas higher than 2^256-1: address %v, maxPriorityFeePerGas bit length: %d")
    else if mg_GasFeeCap msg <? mg_GasTipCap msg then Err (core_error "max priority fee per gas higher than max fee per gas: address %v, maxPriorityFeePerGas: %s, maxFeePerGas: %s")
    else if mg_GasFeeCap msg <? BaseFee then Err (core_error "max fee per gas less than block base fee: address %v, maxFeePerGas: %s baseFee: %s")
    else Ok tt
  else Ok tt.

Definition check_blobs : outcome unit :=
  match mg_BlobHashes msg with
  | None => Ok tt
  | Some hashes =>
      match mg_To msg with
      | None => Err (core_error "blob transaction of type create")
      | Some _ =>
          if (length hashes =? 0)%nat then Err (core_error "blob transaction missing blob hashes")
          else if negb (forallb IsValidVersionedHash hashes) then Err (core_error "blob %d has invalid hash version")
          else Ok tt
      end
  end.

(** The Cancun fork is active. *)
Definition check_blob_fee : outcome unit :=
  if 0 <? blobGasUsed then
    if NoBaseFee && (mg_BlobGasFeeCap msg =? 0) then Ok tt
    else if mg_BlobGasFeeCap msg <? BlobBaseFee then Err (core_error "max fee per blob gas less than block blob gas fee: address %v blobGasFeeCap: %v, blobBaseFee: %v")
    else Ok tt
  else Ok tt.

Definition preCheck : TM unit :=
  let! s := gets db in
  lift (check_nonce_eoa s) ;;;
  lift check_fee_cap ;;;
  lift check_blobs ;;;
  lift check_blob_fee ;;;
  buyGas.

(** [refundGas] with the quotient of the London fork; [AddGas] panics on overflow. *)
Definition refundGas (refundQuotient : Z) : TM Z :=
  let! t := gets id in
  let refund := Z.min (gasUsed t / refundQuotient) (st_GetRefund (db t)) in
  modify (fun t => set_remaining (u64 (st_gasRemaining t + refund)) t) ;;;
  let! t := gets id in
  let! p := lift (gas_Add (st_gp t) (st_gasRemaining t)) in
  modify (set_pool p) ;;;
  ret refund.

Definition set_nonce (addr : Address) (n : Z) : TM unit :=
  zoom state_lens (on_wrapper (on_state (st_SetNonce addr n))).

(** Running the message: a creation, or a call after the nonce has gone up. *)
Definition run_message (value : Z) : TM VMOutput :=
  let! gas := gets st_gasRemaining in
  match mg_To msg with
  | None => zoom state_lens (vm_Create vb (mg_From msg) (mg_Data msg) gas value)
  | Some to =>
      let! s := gets db in
      set_nonce (mg_From msg) (u64 (st_GetNonce s (mg_From msg) + 1)) ;;;
      zoom state_lens (vm_Call vb (mg_From msg) to (mg_Data msg) gas value)
  end.

(** The end of [TransitionDb]: the run, the refund and the result. *)
Definition settle (value : Z) : TM ExecutionResult :=
  let! out := run_message value in
  modify (set_remaining (vo_gas out)) ;;;
  let! gasRefund := refundGas RefundQuotientEIP3529 in
  let! used := gets gasUsed in
  ret (MkExecutionResult used gasRefund (vo_err out) (vo_ret out)).

Definition TransitionDb : TM ExecutionResult :=
  preCheck ;;;
  let contractCreation := match mg_To msg with None => true | Some _ => false end in
  let! gas := lift (IntrinsicGas (mg_Data msg) contractCreation) in
  let! remaining := gets st_gasRemaining in
  if remaining <? gas then throw (core_error "intrinsic gas too low: have %d, want %d")
  else
    modify (fun t => set_remaining (u64 (st_gasRemaining t - gas)) t) ;;;
    if 2 ^ 256 <=? mg_Value msg then throw (core_error "insufficient funds for transfer: address %v")
    else
      let value := mg_Value msg in
      let! s := gets db in
      if negb (value =? 0) && (st_GetBalance s (mg_From msg) <? value)
      then throw (core_error "insufficient funds for transfer: address %v")
      else if contractCreation && (MaxInitCodeSize <? Z.of_nat (length (mg_Data msg)))
      then throw (core_error "max initcode size exceeded: code size %v limit %v")
      else
        zoom state_lens (sw_Prepare (mg_From msg) (vb_Coinbase vb) (mg_To msg) ActivePrecompiles) ;;;
        settle value.

End Transition.
