(* ===== verification/EvmCtrler.v ===== *)
(** * EvmCtrler: the controller of the virtual machine

    [ctrlers/vm/evm/ctrler.go]: contract transactions, and transfers to
    contracts, are run by go-ethereum's virtual machine on a state the wrapper
    synchronises with the accounts.  Opening, committing and hashing the machine's
    own state are parameters ([EthDB]); heights and root hashes are kept in a
    tm-db database.  The chain's configuration has every fork up to Cancun. *)
From stdpp Require Import base gmap list strings.
From Stdlib Require Import ZArith Lia.
From S2P Require Import Prelude XErrors GoMonad LedgerKeys Iavl Ledger Units HexBytes Proto GovParams.
From S2P Require Import Account TrxTypes AcctCtrler TrxCtx MetaDB TrxExecutor EvmTransition.

(** [db] is the key-value database of the machine's state. *)
Class EthDB (S DB : Type) : Type := {
  state_New : bytes -> DB -> outcome S;                      (* root hash *)
  state_Commit : Z -> S -> DB -> outcome (bytes * S * DB);   (* block number *)
  trie_Commit : bytes -> S -> DB -> outcome DB;
  CreateAddress : Address -> Z -> Address;
}.

(** [NewBatch], its [Set]s and [WriteSync]. *)
Class TmBatch (D : Type) : Type := db_WriteBatch : D -> list (bytes * bytes) -> outcome D.

Record EVMCtrler (S DB D : Type) := MkEVMCtrler {
  ev_vmevm : option VMBlockContext;
  ev_ethDB : DB;
  ev_stateDBWrapper : option (StateDBWrapper S);
  ev_metadb : D;
  ev_lastRootHash : bytes;
  ev_lastBlockHeight : Z;
}.
Arguments MkEVMCtrler {S DB D} _ _ _ _ _ _.
Arguments ev_vmevm {S DB D} _.
Arguments ev_ethDB {S DB D} _.
Arguments ev_stateDBWrapper {S DB D} _.
Arguments ev_metadb {S DB D} _.
Arguments ev_lastRootHash {S DB D} _.
Arguments ev_lastBlockHeight {S DB D} _.

Definition lastBlockHeightKey : bytes := text "lbh".
Definition blockKey (h : Z) : bytes := text "bn" ++ FormatInt h.

Section EvmCtrler.
Context {S DB D A GP : Type} `{EthStateDB S, EthDB S DB, TmDB D, TmBatch D}.
Context `{IAccountHandler A, GasPoolLib GP, !EthVM S A}.
Abbreviation E := (EVMCtrler S DB D).
Abbreviation V := (EVMView (EVMCtrler S DB D) GP A).
Abbreviation VM := (M (EVMView (EVMCtrler S DB D) GP A)).

(** [NewEVMCtrler] on open databases. *)
Definition NewEVMCtrler (ethDB : DB) (metadb : D) : outcome E :=
  match db_Get metadb lastBlockHeightKey with
  | Ok val =>
      let bn := match val with None => Ok 0 | Some v => ParseInt v end in
      match bn with
      | Ok bn =>
          match db_Get metadb (blockKey bn) with
          | Ok hash => Ok (MkEVMCtrler None ethDB None metadb (default [] hash) bn)
          | _ => Panic
          end
      | _ => Panic
      end
  | _ => Panic
  end.

Definition set_wrapper (w : StateDBWrapper S) (e : E) : E :=
  MkEVMCtrler (ev_vmevm e) (ev_ethDB e) (Some w) (ev_metadb e) (ev_lastRootHash e) (ev_lastBlockHeight e).

(** [NewStateDBWrapper] *)
Definition NewStateDBWrapper (db : DB) (rootHash : bytes) : outcome (StateDBWrapper S) :=
  obind (state_New (Array32 rootHash) db) (fun s => Ok (NewWrapper s)).

Definition ctrl_BeginBlock (b : BlockContext GP) (gp : GovParamsProto) : M (E * A) unit :=
  let! e := gets fst in
  if negb (i64 (ev_lastBlockHeight e + 1) =? bc_Height b)
  then throw (Wrapf ErrBeginBlock "wrong block height - expected: %v, actual: %v")
  else
    let! w := lift (match NewStateDBWrapper (ev_ethDB e) (ev_lastRootHash e) with
                    | Err err => Err (From_ err) | o => o end) in
    let bi := bc_blockInfo b in
    let vb := evmBlockContext (Array20 (rb_ProposerAddress bi)) (bc_blockGasLimit b) (bc_Height b)
                (rb_Time bi / 1000000000) in
    modify (fun c => (MkEVMCtrler (Some vb) (ev_ethDB e) (Some w) (ev_metadb e) (ev_lastRootHash e)
                        (ev_lastBlockHeight e), snd c)).

(** ** Transactions *)

(** The data of the payload, nil for another payload. *)
Definition inputData (tx : Trx) : bytes :=
  match tx_Payload tx with Some (TrxPayloadContract data) => data | _ => [] end.

Definition v_acct {B} (m : M A B) : VM B := zoom (lens_comp fst_lens snd_lens) m.
Definition v_ctx : VM TrxContext := gets (fun v => snd (snd v)).
Definition on_trx (f : TrxContext -> TrxContext) : VM unit :=
  modify (fun v => (fst v, (fst (snd v), f (snd (snd v))))).

Definition ctrl_ValidateTrx : VM unit :=
  let! ctx := v_ctx in
  let! receiver := v_acct (acct_get (tc_Receiver ctx)) in
  let isZero := bytes_Equal (acct_Address receiver) ZeroAddress in
  if negb isZero && bytes_Equal (acct_Code receiver) [] then throw ErrInvalidAccountType
  else
    let data := inputData (tc_Tx ctx) in
    if isZero && (length data =? 0)%nat then throw ErrInvalidTrxPayloadParams
    else
      let! gas := lift (match IntrinsicGas data (IsZeroAddress (tx_To (tc_Tx ctx))) with
                        | Err err => Err (From_ err) | o => o end) in
      if u64 (tx_Gas (tc_Tx ctx)) <? gas
      then throw (Wrapf ErrInvalidGas "invalid gas: expected(%v+) got(%v)")
      else if negb (tc_Exec ctx) then on_trx (set_GasUsed (i64 gas))
      else ret tt.

(** The wrapper of the current block with the accounts; nil is dereferenced. *)
Definition with_wrapper {B} (m : M (StateDBWrapper S * A) B) : VM B :=
  fun v =>
    let '(e, a, bt) := v in
    match ev_stateDBWrapper e with
    | None => (Panic, v)
    | Some w => let '(o, (w', a')) := m (w, a) in (o, (set_wrapper w' e, a', bt))
    end.

(** The transition takes gas from the pool of the block and puts it back. *)
Definition run_transition (vb : VMBlockContext) (msg : Message) : VM ExecutionResult :=
  fun v =>
    let '(e, a, (b, ctx)) := v in
    match ev_stateDBWrapper e with
    | None => (Panic, v)
    | Some w =>
        let '(o, t) := TransitionDb vb msg (MkST (bc_blockGasPool b) 0 0 (w, a)) in
        (o, (set_wrapper (fst (st_state t)) e, snd (st_state t),
             (set_gas (bc_blockGasLimit b) (st_gp t) b, ctx)))
    end.

Definition toAddr (to : Address) : option Address :=
  if negb (bytes_Equal to []) && negb (IsZeroAddress to) then Some (Array20 to) else None.

Definition execVM (tx : Trx) (data : bytes) : VM ExecutionResult :=
  let! vm := gets (fun v => ev_vmevm (fst (fst v))) in
  match vm with
  | None => panic
  | Some vb =>
      let msg := evmMessage (Array20 (tx_From tx)) (toAddr (tx_To tx)) (tx_Nonce tx) (tx_Gas tx)
                   (tx_GasPrice tx) (tx_Amount tx) data false in
      let! r := try (run_transition vb msg) in
      match r with
      | inl res => ret res
      | inr err => throw (From_ err)
      end
  end.

Definition log_event (l : EthLog) : Event :=
  MkEvent (text "evm")
    ([(text "contractAddress", hex_EncodeToString (el_Address l), false)]
     ++ imap (fun i t => (text "topic." ++ Dec_text (Z.of_nat i), ToUpper (hex_EncodeToString t), true)) (el_Topics l)
     ++ (if (0 <? length (el_Data l))%nat then [(text "data", hex_EncodeToString (el_Data l), false)] else [])
     ++ [(text "blockNumber", Dec_text (el_BlockNumber l), false);
         (text "removed", if el_Removed l then text "true" else text "false", false)]).

Definition evmLogsToEvent (txHash : bytes) (s : S) : list Event := map log_event (st_GetLogs s txHash).

(** The error of a run that failed; one that was reverted with data has a reason. *)
Definition failed_error (err : error) (ret : bytes) : error :=
  if bool_decide (err = ErrExecutionReverted) && negb (bytes_Equal ret []) then Wrapf (From_ err) "reason: %s"
  else Wrap (From_ err) (GoError EmptyString).

(** The delivered transaction up to the result of the run, with the snapshot taken
    before it. *)
Definition startVM (ctx : TrxContext) : VM (Z * (ExecutionResult + error)) :=
  let tx := tc_Tx ctx in
  let! snap := with_wrapper (
    let! snap := sw_Snapshot in
    Initiate (tc_TxHash ctx) (tc_TxIdx ctx) (tx_From tx) (tx_To tx) snap (tc_Exec ctx) ;;;
    ret snap) in
  let! r := try (execVM tx (inputData tx)) in
  ret (snap, r).

(** In the checking phase only the amount is taken from the sender. *)
Definition ctrl_ExecuteTrx : VM unit :=
  let! ctx := v_ctx in
  let tx := tc_Tx ctx in
  if negb (tc_Exec ctx) then
    v_acct (acct_update (tc_Sender ctx) (fun a => SubBalance a (tx_Amount tx))) ;;;
    v_acct (SetAccount (tc_Sender ctx) false)
  else
    let! sr := startVM ctx in
    let snap := fst sr in
    match snd sr with
    | inr xerr =>
        with_wrapper (sw_RevertToSnapshot snap) ;;;
        with_wrapper Finish ;;;
        throw xerr
    | inl res =>
        on_trx (set_GasUsed (i64 (er_UsedGas res))) ;;;
        on_trx (set_RetData (er_ReturnData res)) ;;;
        match er_Err res with
        | Some err =>
            with_wrapper (sw_RevertToSnapshot snap) ;;;
            with_wrapper Finish ;;;
            throw (failed_error err (er_ReturnData res))
        | None =>
            with_wrapper Finish ;;;
            with_wrapper (on_wrapper (on_state st_Finalise)) ;;;
            let! w := with_wrapper (gets fst) in
            let evts := evmLogsToEvent (Array32 (tc_TxHash ctx)) (sw_StateDB w) in
            if bytes_Equal (tx_To tx) [] || IsZeroAddress (tx_To tx) then
              let created := CreateAddress (Array20 (tx_From tx)) (u64 (tx_Nonce tx)) in
              on_trx (set_RetData created) ;;;
              on_trx (add_Events (if (length evts =? 0)%nat
                then [MkEvent (text "evm") [(text "contractAddress", hex_EncodeToString created, false)]]
                else evts))
            else on_trx (add_Events evts)
        end
    end.

(** ** Blocks *)

Definition ctrl_EndBlock : M (E * A) unit := ret tt.

(** Errors of the state are panics, errors of the batch are dropped. *)
Definition ctrl_Commit : M (E * A) (bytes * Z) :=
  let! e := gets fst in
  match ev_stateDBWrapper e with
  | None => panic
  | Some w =>
      match state_Commit (u64 (u64 (ev_lastBlockHeight e) + 1)) (sw_StateDB w) (ev_ethDB e) with
      | Ok (rootHash, s1, db1) =>
          match trie_Commit rootHash s1 db1 with
          | Ok db2 =>
              let height := i64 (ev_lastBlockHeight e + 1) in
              let batch := [(lastBlockHeightKey, FormatInt height); (blockKey height, rootHash)] in
              let metadb := match db_WriteBatch (ev_metadb e) batch with Ok d => d | _ => ev_metadb e end in
              match NewStateDBWrapper db2 rootHash with
              | Ok w' =>
                  modify (fun c => (MkEVMCtrler (ev_vmevm e) db2 (Some w') metadb rootHash height, snd c)) ;;;
                  ret (rootHash, height)
              | _ => panic
              end
          | _ => panic
          end
      | _ => panic
      end
  end.

#[export] Instance EVMCtrler_handler : IEVMHandler E GP A := {
  evm_ValidateTrx := ctrl_ValidateTrx;
  evm_ExecuteTrx := ctrl_ExecuteTrx;
  evm_BeginBlock := ctrl_BeginBlock;
  evm_EndBlock := ctrl_EndBlock;
  evm_Commit := ctrl_Commit;
}.

End EvmCtrler.
