(* ===== verification/EvmProps.v ===== *)
(** * EvmProps: gas of the virtual machine

    The gas a message uses is exactly what the pool of the block loses, and it
    covers the intrinsic gas; a validated contract transaction runs and pays; a
    message that is refused after it has bought gas keeps all of it without
    paying; and a new process finds the height and root of the last commit. *)
From stdpp Require Import base gmap list strings.
From Stdlib Require Import ZArith Lia.
From S2P Require Import Prelude XErrors GoMonad LedgerKeys Iavl Ledger Units HexBytes Proto GovParams.
From S2P Require Import Account TrxTypes AcctCtrler AcctSpec TrxCtx MetaDB TrxExecutor EvmTransition EvmCtrler.
From S2P Require Import ToyNode.

Section Gas.
Context {S : Type} `{EthStateDB S}.
Context {A : Type} `{IAccountHandler A}.
Context `{!EthVM S A, !EthVMLaws S A}.
Context {GP : Type} `{GasPoolLib GP, !GasPoolLaws GP}.
Implicit Types (t : VMStateTransition GP S A) (msg : Message) (vb : VMBlockContext).

Definition pool t : Z := gas_Gas (st_gp t).

(** Gas is bought all at once, as the last thing of the check. *)
Lemma wp_buyGas msg t Q :
  0 <= mg_GasLimit msg ->
  (forall e, Q (Err e) t) ->
  (forall p', pool t >= mg_GasLimit msg -> gas_Gas p' = pool t - mg_GasLimit msg ->
     Q (Ok tt) (MkST p' (u64 (st_gasRemaining t + mg_GasLimit msg)) (mg_GasLimit msg) (st_state t))) ->
  wp (buyGas msg) Q t.
Proof.
  intros Hl HE HO. unfold buyGas. destruct (_ <=? _); [by apply wp_throw|]. apply wp_bind, wp_gets.
  destruct (_ <? _); [by apply wp_throw|]. apply wp_bind, wp_gets, wp_bind, wp_lift.
  destruct (Z.le_gt_cases (mg_GasLimit msg) (pool t)) as [Hle|Hgt].
  - destruct (gas_Sub_law (st_gp t) (mg_GasLimit msg)) as (p' & -> & Hp'); [done|].
    apply wp_bind, wp_modify, wp_modify. apply HO; [lia|done].
  - destruct (gas_Sub_short (st_gp t) (mg_GasLimit msg)) as [e ->]; [done|]. apply HE.
Qed.

Lemma lift_ok_or_err {X} (o : outcome unit) (f : M X unit) Q (x : X) :
  o <> Panic -> (forall e, Q (Err e) x) -> wp f Q x -> wp (lift o ;;; f) Q x.
Proof. intros Ho HE HO. apply wp_bind, wp_lift. destruct o as [[]|e|]; [exact HO|apply HE|done]. Qed.

Lemma wp_preCheck msg t Q :
  0 <= mg_GasLimit msg ->
  (forall e, Q (Err e) t) ->
  (forall p', pool t >= mg_GasLimit msg -> gas_Gas p' = pool t - mg_GasLimit msg ->
     Q (Ok tt) (MkST p' (u64 (st_gasRemaining t + mg_GasLimit msg)) (mg_GasLimit msg) (st_state t))) ->
  wp (preCheck msg) Q t.
Proof.
  intros Hl HE HO. unfold preCheck. apply wp_bind, wp_gets.
  apply lift_ok_or_err; [unfold check_nonce_eoa; repeat case_match; done|done|].
  apply lift_ok_or_err; [unfold check_fee_cap; repeat case_match; done|done|].
  apply lift_ok_or_err; [unfold check_blobs; repeat case_match; done|done|].
  apply lift_ok_or_err; [unfold check_blob_fee; repeat case_match; done|done|].
  by apply wp_buyGas.
Qed.

(** A run keeps the pool and returns some of the gas. *)
Lemma wp_run_message vb msg value t Q :
  0 <= st_gasRemaining t ->
  (forall out t', st_gp t' = st_gp t -> st_initialGas t' = st_initialGas t -> 0 <= vo_gas out <= st_gasRemaining t ->
     Q (Ok out) t') ->
  wp (run_message vb msg value) Q t.
Proof.
  intros Hr HQ. unfold run_message. apply wp_bind, wp_gets. destruct (mg_To msg) as [to|].
  - apply wp_bind, wp_gets, wp_bind. unfold set_nonce, on_wrapper. apply wp_zoom, wp_modify, wp_zoom. unfold wp.
    destruct (vm_Call_law vb (mg_From msg) to (mg_Data msg) (st_gasRemaining t) value
      (lget state_lens (lset state_lens (on_state (st_SetNonce (mg_From msg) (u64 (st_GetNonce (db t) (mg_From msg) + 1)))
         (fst (lget state_lens t)), snd (lget state_lens t)) t))) as (out & c' & -> & Hg); [done|]. by apply HQ.
  - apply wp_zoom. unfold wp.
    destruct (vm_Create_law vb (mg_From msg) (mg_Data msg) (st_gasRemaining t) value (lget state_lens t)) as (out & c' & -> & Hg);
      [done|]. by apply HQ.
Qed.

(** The refund goes from used to remaining, and the remaining into the pool. *)
Lemma wp_refundGas t Q :
  0 <= st_gasRemaining t <= st_initialGas t -> st_initialGas t < 2 ^ 64 -> pool t + st_initialGas t < 2 ^ 64 ->
  (forall r t', 0 <= r -> 5 * r <= st_initialGas t - st_gasRemaining t ->
     st_initialGas t' = st_initialGas t -> st_gasRemaining t' = st_gasRemaining t + r ->
     pool t' = pool t + st_gasRemaining t' -> Q (Ok r) t') ->
  wp (refundGas RefundQuotientEIP3529) Q t.
Proof.
  intros Hr Hi Hp HQ. unfold refundGas. apply wp_bind, wp_gets, wp_bind, wp_modify, wp_bind, wp_gets.
  assert (gasUsed t = st_initialGas t - st_gasRemaining t) as Hu by (unfold gasUsed, u64; apply Z.mod_small; lia).
  unfold id, RefundQuotientEIP3529. rewrite Hu. set (r := Z.min _ _). pose proof (st_GetRefund_law (db t)) as Hc.
  assert (0 <= r /\ 5 * r <= st_initialGas t - st_gasRemaining t) as [Hr0 Hr5].
  { pose proof (Z.mul_div_le (st_initialGas t - st_gasRemaining t) 5 ltac:(lia)).
    pose proof (Z.div_pos (st_initialGas t - st_gasRemaining t) 5 ltac:(lia) ltac:(lia)). lia. }
  apply wp_bind, wp_lift. cbn [st_gp st_gasRemaining set_remaining]. unfold u64. rewrite Z.mod_small by lia.
  destruct (gas_Add_law (st_gp t) (st_gasRemaining t + r)) as (p & -> & Hp'); [lia|unfold pool in Hp; lia|].
  apply wp_bind, wp_modify, wp_ret. by apply HQ.
Qed.

(** The run and the refund return, and the pool gets back what was not used. *)
Lemma wp_settle vb msg value t gas Q :
  st_gasRemaining t = st_initialGas t - gas -> 0 < gas <= st_initialGas t -> st_initialGas t < 2 ^ 64 ->
  pool t + st_initialGas t < 2 ^ 64 ->
  (forall r t', 4 * gas <= 5 * er_UsedGas r -> er_UsedGas r <= st_initialGas t ->
     pool t' = pool t + st_initialGas t - er_UsedGas r -> Q (Ok r) t') ->
  wp (settle vb msg value) Q t.
Proof.
  intros Hrem Hgas Hlim Hp HQ. unfold settle. apply wp_bind, (wp_run_message vb msg _ t); [lia|]. intros out t3 Hg3 Hi3 Hout.
  apply wp_bind, wp_modify, wp_bind, wp_refundGas; cbn [st_gasRemaining st_initialGas set_remaining]; rewrite ?Hi3; [lia|lia| |].
  - unfold pool at 1. cbn. rewrite Hg3. unfold pool in Hp. lia.
  - intros r t4 Hr0 Hr5 Hi4 Hr4 Hp4. apply wp_bind, wp_gets, wp_ret. unfold pool in *. cbn [st_gp set_remaining] in Hp4.
    rewrite Hg3 in Hp4. apply HQ; cbn [er_UsedGas]; unfold gasUsed, u64; rewrite Hi4, Hr4, Z.mod_small; lia.
Qed.

(** Preparing the state changes nothing of the gas. *)
Lemma wp_zoom_state {B} (f : M (StateDBWrapper S * A) B) t (Q : outcome B -> VMStateTransition GP S A -> Prop) :
  (forall o c, Q o (lset state_lens c t)) -> wp (zoom state_lens f) Q t.
Proof. intros HQ. apply wp_zoom. unfold wp. destruct (f _). apply HQ. Qed.

(** C22. The gas of a message is accounted for exactly.  When the transition returns
    a result, the block's pool has lost just the gas the message used, at most
    its limit, and at least four fifths of its intrinsic gas, whatever was
    refunded; when it is refused, the pool has lost nothing or, after the gas was
    bought, the whole limit. *)
Theorem transition_gas vb msg t :
  st_gasRemaining t = 0 -> 0 <= mg_GasLimit msg < 2 ^ 64 ->
  wp (TransitionDb vb msg) (fun o t' =>
    match o with
    | Ok r => pool t' = pool t - er_UsedGas r /\ er_UsedGas r <= mg_GasLimit msg /\
        exists gas, IntrinsicGas (mg_Data msg) (match mg_To msg with None => true | Some _ => false end) = Ok gas /\
          4 * gas <= 5 * er_UsedGas r
    | Err _ => pool t' = pool t \/ pool t' = pool t - mg_GasLimit msg
    | Panic => True
    end) t.
Proof.
  intros H0' Hlim. unfold TransitionDb. apply wp_bind, wp_preCheck; [lia|by left|].
  intros p' Hpool Hp'. rewrite H0', Z.add_0_l.
  assert (u64 (mg_GasLimit msg) = mg_GasLimit msg) as -> by (unfold u64; apply Z.mod_small; lia).
  pose proof (gas_range (st_gp t)) as Hrange. fold (pool t) in Hrange.
  set (t1 := MkST p' _ _ _). assert (pool t1 = pool t - mg_GasLimit msg) as Hp1 by done.
  apply wp_bind, wp_lift. destruct (IntrinsicGas _ _) as [gas|e|] eqn:Eg; [|by right|done].
  pose proof (IntrinsicGas_law _ _ _ Eg) as Hgas. apply wp_bind, wp_gets. cbn [st_gasRemaining t1].
  destruct (Z.ltb_spec (mg_GasLimit msg) gas) as [|Hge]; [apply wp_throw; by right|].
  apply wp_bind, wp_modify. destruct (_ <=? mg_Value msg); [apply wp_throw; by right|].
  apply wp_bind, wp_gets. destruct (_ && _); [apply wp_throw; by right|]. destruct (_ && _); [apply wp_throw; by right|].
  apply wp_bind, wp_zoom_state. intros [[]|e|] c; [|by right|done].
  set (t2 := lset state_lens c _).
  assert (st_gasRemaining t2 = mg_GasLimit msg - gas) as Hr2 by (cbn; unfold u64; apply Z.mod_small; lia).
  apply (wp_settle vb msg _ t2 gas); [done|cbn; lia|cbn; lia|change (pool t2) with (pool t1); cbn; lia|].
  intros r t3 Hlo Hhi Hp3. change (pool t2) with (pool t1) in Hp3. change (st_initialGas t2) with (mg_GasLimit msg) in *.
  split; [lia|]. split; [lia|]. by exists gas.
Qed.

End Gas.

(** ** A contract transaction up to the run *)

Section Contract.
Context {S : Type} `{EthStateDB S, !EthStateLaws S, !EthSnapshots S}.
Context {A : Type} `{IAccountHandler A, Utf8, !IAccountLaws A}.
Context `{!EthVM S A, !EthVMLaws S A}.
Context {GP : Type} `{GasPoolLib GP, !GasPoolLaws GP}.
Context {DB D : Type} `{EthDB S DB, TmDB D, TmBatch D}.
Implicit Types (w : StateDBWrapper S) (a : A) (m : accts_map) (v : EVMView (EVMCtrler S DB D) GP A).

(** The wrapper has the account of [from] as it is stored, and reverting to [snap]
    forgets every address touched. *)
Record started (snap : Z) (from : Address) (x : Account) m w a : Prop := {
  sd_accts : accts a m;
  sd_exec : sw_exec w = true;
  sd_snap : sw_snapshot w = snap;
  sd_valid : st_valid snap (sw_StateDB w);
  sd_touched : forall k i, sw_accessedObjAddrs w !! k = Some i -> snap < i;
  sd_code : no_code (sw_StateDB w) from;
  sd_from : from ∈ dom (sw_accessedObjAddrs w) ->
    st_GetNonce (sw_StateDB w) from = u64 (acct_Nonce x) /\ st_GetBalance (sw_StateDB w) from = acct_Balance x;
}.

Lemma wp_addAccessed snap from x m addr c Q :
  started snap from x m (fst c) (snd c) -> m !! LedgerKeyAccount from = Some x -> length addr = AddrSize ->
  (forall c', started snap from x m (fst c') (snd c') ->
     dom (sw_accessedObjAddrs (fst c')) = dom (sw_accessedObjAddrs (fst c)) ∪ {[addr]} -> Q (Ok tt) c') ->
  wp (addAccessedObjAddr addr) Q c.
Proof.
  intros HS Hx Ha HQ. unfold addAccessedObjAddr. apply wp_bind, wp_gets.
  destruct (sw_accessedObjAddrs (fst c) !! addr) as [i|] eqn:Ei.
  { apply wp_ret, HQ; [done|]. assert (addr ∈ dom (sw_accessedObjAddrs (fst c))) by by apply elem_of_dom. set_solver. }
  apply wp_bind, wp_zoom. rewrite (sd_exec _ _ _ _ _ _ HS).
  eapply wp_mono; [apply (FindOrNewAccount_law (snd c) m addr (sd_accts _ _ _ _ _ _ HS) Ha)|].
  intros [l|e|] a1; unfold okQ; try done. intros (HA1 & _ & y & Hy & Hay & Hstored).
  apply wp_bind, wp_zoom. cbn [lget lset snd_lens fst snd]. unfold wp at 1. rewrite (acct_get_law _ _ _ Hy). cbn [fst snd].
  unfold on_wrapper. apply wp_bind, wp_modify, wp_bind, wp_modify, wp_modify. cbn [lset snd_lens fst snd].
  destruct c as [w a0]. cbn [fst snd] in *. apply HQ; cbn [fst snd]; [|unfold set_accessed; cbn; rewrite dom_insert_L; set_solver].
  destruct HS as [HA Hex Hsn Hv Ht Hc Hf]. split; cbn [sw_exec sw_snapshot sw_StateDB sw_accessedObjAddrs on_state set_accessed]; try done.
  - by apply valid_SetBalance, valid_SetNonce.
  - intros k i Hk. apply lookup_insert_Some in Hk as [[<- <-]|[_ Hk]]; [lia|by apply (Ht k)].
  - by apply code_SetBalance, code_SetNonce.
  - rewrite nonce_SetBalance, nonce_SetNonce, bal_SetBalance, bal_SetNonce. intros Hin. rewrite dom_insert_L in Hin.
    case_bool_decide as E0; [rewrite <- E0 in Hstored; by rewrite (Hstored x Hx)|]. apply Hf. set_solver.
Qed.

Lemma wp_AddAddress snap from x m addr c Q :
  started snap from x m (fst c) (snd c) -> m !! LedgerKeyAccount from = Some x -> length addr = AddrSize ->
  (forall c', started snap from x m (fst c') (snd c') ->
     dom (sw_accessedObjAddrs (fst c')) = dom (sw_accessedObjAddrs (fst c)) ∪ {[addr]} -> Q (Ok tt) c') ->
  wp (sw_AddAddressToAccessList addr) Q c.
Proof.
  intros HS Hx Ha HQ. apply wp_bind, (wp_addAccessed snap from x m addr c); [done..|].
  intros [w1 a1] [HA Hex Hsn Hv Ht Hc Hf] Hd. apply wp_modify, HQ; [|done]. cbn [fst snd] in *.
  split; cbn [sw_exec sw_snapshot sw_StateDB sw_accessedObjAddrs on_state]; try done.
  - by apply valid_access.
  - by apply code_access.
  - by rewrite nonce_access, bal_access.
Qed.

Lemma Array20_id (addr : Address) : length addr = AddrSize -> Array20 addr = addr.
Proof. unfold Array20, array_of, AddrSize. intros Hl. rewrite Hl, take_ge by lia. cbn. by rewrite app_nil_r. Qed.

Lemma IsZeroAddress_nil : IsZeroAddress [] = true.
Proof. done. Qed.

(** Snapshot and [Initiate], on a wrapper nothing is touched in. *)
Lemma wp_start hash idx from to x m w a Q :
  accts a m -> sw_accessedObjAddrs w = ∅ -> no_code (sw_StateDB w) from -> m !! LedgerKeyAccount from = Some x ->
  length from = AddrSize -> to = [] \/ length to = AddrSize ->
  (forall snap c', started snap from x m (fst c') (snd c') -> from ∈ dom (sw_accessedObjAddrs (fst c')) ->
     Q (Ok snap) c') ->
  wp (let! snap := sw_Snapshot in Initiate hash idx from to snap true ;;; ret snap) Q (w, a).
Proof.
  intros HA Hacc Hc Hx Hlf Hlt HQ. unfold sw_Snapshot, Initiate, on_wrapper.
  apply wp_bind, wp_bind, wp_gets, wp_bind, wp_modify, wp_ret. set (snap := fst (st_Snapshot _)).
  apply wp_bind, wp_bind, wp_modify. rewrite Array20_id by done. apply wp_bind.
  apply (wp_AddAddress snap from x m from); [|done|done|].
  { split; cbn; try done.
    - apply valid_context, valid_Snapshot.
    - intros k i. by rewrite Hacc, lookup_empty.
    - by apply code_context, code_Snapshot.
    - rewrite Hacc, dom_empty_L. set_solver. }
  intros c1 HS1 Hd1. destruct (negb (IsZeroAddress to)) eqn:Ez.
  - destruct Hlt as [->|Hlt]; [done|]. rewrite Array20_id by done.
    apply (wp_AddAddress snap from x m to); [done..|]. intros c2 HS2 Hd2. apply wp_ret, HQ; [done|]. rewrite Hd2, Hd1. set_solver.
  - apply wp_ret, wp_ret, HQ; [done|]. rewrite Hd1. set_solver.
Qed.

(** ** The checks of the transition *)

(** The message of a transaction. *)
Definition msg_of (tx : Trx) : Message :=
  evmMessage (Array20 (tx_From tx)) (toAddr (tx_To tx)) (tx_Nonce tx) (tx_Gas tx) (tx_GasPrice tx) (tx_Amount tx)
    (inputData tx) false.

(** What the common validation has found of a contract transaction. *)
Record valid_contract (tx : Trx) (x : Account) : Prop := {
  vc_from : length (tx_From tx) = AddrSize;
  vc_to : tx_To tx = [] \/ length (tx_To tx) = AddrSize;
  vc_nonce : acct_Nonce x = tx_Nonce tx;
  vc_nonneg : 0 <= tx_Nonce tx < 2 ^ 63;
  vc_amount : 0 <= tx_Amount tx < 2 ^ 255;
  vc_balance : tx_Amount tx <= acct_Balance x;
  vc_gas : 0 <= tx_Gas tx < 2 ^ 63;
}.

(** All checks pass and the gas is bought. *)
Lemma wp_preCheck_valid snap x m tx (p : GP) c Q :
  started snap (tx_From tx) x m (fst c) (snd c) -> tx_From tx ∈ dom (sw_accessedObjAddrs (fst c)) ->
  valid_contract tx x -> tx_Gas tx <= gas_Gas p ->
  (forall p', gas_Gas p' = gas_Gas p - tx_Gas tx -> Q (Ok tt) (MkST p' (tx_Gas tx) (tx_Gas tx) c)) ->
  wp (preCheck (msg_of tx)) Q (MkST p 0 0 c).
Proof.
  intros HS Hd HV Hp HQ. destruct (sd_from _ _ _ _ _ _ HS Hd) as [Hn Hb].
  pose proof (vc_gas _ _ HV) as Hg. pose proof (vc_nonneg _ _ HV) as Hnn.
  assert (forall z, 0 <= z < 2 ^ 63 -> u64 z = z) as Hu by (intros z Hz; unfold u64; apply Z.mod_small; lia).
  unfold preCheck. apply wp_bind, wp_gets. unfold check_nonce_eoa, msg_of, evmMessage, db. cbn [mg_SkipAccountChecks mg_From mg_Nonce st_state].
  rewrite (Array20_id _ (vc_from _ _ HV)), Hn, (vc_nonce _ _ HV), !Hu by lia. rewrite Z.ltb_irrefl.
  assert (u64 (tx_Nonce tx + 1) <? tx_Nonce tx = false) as -> by (unfold u64; rewrite Z.mod_small; lia).
  assert (negb (bytes_Equal (st_GetCodeHash (sw_StateDB (fst c)) (tx_From tx)) (repeat 0 32)) &&
          negb (bytes_Equal (st_GetCodeHash (sw_StateDB (fst c)) (tx_From tx)) EmptyCodeHash) = false) as ->.
  { assert (forall b : bytes, bytes_Equal b b = true) as Hbb by (intros b; by apply bool_decide_true).
    destruct (sd_code _ _ _ _ _ _ HS) as [-> | ->]; rewrite Hbb; [done|apply andb_false_r]. }
  apply wp_bind, wp_lift, wp_bind, wp_lift, wp_bind, wp_lift, wp_bind, wp_lift.
  unfold buyGas. cbn [mg_GasLimit mg_GasFeeCap mg_Value mg_From]. change (blobGasUsed _) with 0. cbn [Z.ltb Z.compare].
  rewrite Z.mul_0_r, Z.add_0_r, Z.add_0_l. pose proof (vc_amount _ _ HV). pose proof (vc_balance _ _ HV).
  rewrite (proj2 (Z.leb_gt _ _)) by lia. apply wp_bind, wp_gets. unfold db. cbn [st_state].
  rewrite Hb, (proj2 (Z.ltb_ge _ _)) by lia. apply wp_bind, wp_gets, wp_bind, wp_lift. cbn [st_gp]. rewrite (Hu (tx_Gas tx)) by lia.
  destruct (gas_Sub_law p (tx_Gas tx)) as (p' & -> & Hp'); [lia|].
  apply wp_bind, wp_modify, wp_modify. cbn [st_gp set_pool st_gasRemaining st_state]. rewrite Z.add_0_l, Hu by lia. by apply HQ.
Qed.

Definition is_creation (tx : Trx) : bool := match toAddr (tx_To tx) with None => true | Some _ => false end.

(** After the gas is bought, up to the checks of the value. *)
Lemma wp_Transition_checked snap x m tx intr vb (p : GP) c Q :
  started snap (tx_From tx) x m (fst c) (snd c) -> tx_From tx ∈ dom (sw_accessedObjAddrs (fst c)) ->
  valid_contract tx x -> tx_Gas tx <= gas_Gas p ->
  IntrinsicGas (inputData tx) (is_creation tx) = Ok intr -> intr <= tx_Gas tx ->
  (forall p', gas_Gas p' = gas_Gas p - tx_Gas tx ->
     let t := MkST p' (tx_Gas tx - intr) (tx_Gas tx) c in
     wp (if is_creation tx && (MaxInitCodeSize <? Z.of_nat (length (inputData tx)))
         then throw (core_error "max initcode size exceeded: code size %v limit %v")
         else
           zoom state_lens (sw_Prepare (Array20 (tx_From tx)) (vb_Coinbase vb) (toAddr (tx_To tx)) ActivePrecompiles) ;;;
           settle vb (msg_of tx) (tx_Amount tx)) Q t) ->
  wp (TransitionDb vb (msg_of tx)) Q (MkST p 0 0 c).
Proof.
  intros HS Hd HV Hp Hi Hle HQ. unfold TransitionDb. apply wp_bind, (wp_preCheck_valid snap x m tx p c); [done..|].
  intros p' Hp'. cbn [mg_Data mg_To msg_of evmMessage]. change (match toAddr (tx_To tx) with None => true | Some _ => false end)
    with (is_creation tx). apply wp_bind, wp_lift. rewrite Hi. apply wp_bind, wp_gets. cbn [st_gasRemaining].
  pose proof (IntrinsicGas_law _ _ _ Hi). pose proof (vc_gas _ _ HV). rewrite (proj2 (Z.ltb_ge (tx_Gas tx) intr)) by lia.
  apply wp_bind, wp_modify. cbn [mg_Value mg_From msg_of evmMessage]. pose proof (vc_amount _ _ HV). pose proof (vc_balance _ _ HV).
  assert (2 ^ 256 <=? tx_Amount tx = false) as -> by (apply Z.leb_gt; lia). apply wp_bind, wp_gets.
  destruct (sd_from _ _ _ _ _ _ HS Hd) as [_ Hb]. unfold db. cbn [set_remaining st_state mg_From st_gasRemaining st_gp st_initialGas].
  rewrite (Array20_id _ (vc_from _ _ HV)), Hb, (proj2 (Z.ltb_ge _ _)), andb_false_r by lia.
  assert (u64 (tx_Gas tx - intr) = tx_Gas tx - intr) as -> by (unfold u64; apply Z.mod_small; lia).
  pose proof (HQ p' Hp') as Hg. rewrite (Array20_id _ (vc_from _ _ HV)) in Hg. exact Hg.
Qed.

Lemma wp_addAll snap from x m l c (Q : outcome unit -> StateDBWrapper S * A -> Prop) :
  started snap from x m (fst c) (snd c) -> m !! LedgerKeyAccount from = Some x -> Forall (fun p => length p = AddrSize) l ->
  (forall c', started snap from x m (fst c') (snd c') -> Q (Ok tt) c') -> wp (for_each l addAccessedObjAddr) Q c.
Proof.
  intros HS Hx Hl HQ. revert c HS. induction Hl as [|p l Hp _ IH]; intros c HS; cbn [for_each]; [by apply wp_ret, HQ|].
  apply wp_bind, (wp_addAccessed snap from x m); [done..|]. intros c' HS' _. by apply IH.
Qed.

(** Preparing touches more addresses. *)
Lemma wp_Prepare snap from x m sender coinbase dst pre c (Q : outcome unit -> StateDBWrapper S * A -> Prop) :
  started snap from x m (fst c) (snd c) -> m !! LedgerKeyAccount from = Some x ->
  length sender = AddrSize -> length coinbase = AddrSize -> (forall d, dst = Some d -> length d = AddrSize) ->
  Forall (fun p => length p = AddrSize) pre ->
  (forall c', Q (Ok tt) c') ->
  wp (sw_Prepare sender coinbase dst pre) Q c.
Proof.
  intros HS Hx Hs Hco Hd Hpre HQ. unfold sw_Prepare. apply wp_bind, (wp_addAccessed snap from x m); [done..|].
  intros c1 HS1 _. apply wp_bind.
  assert (Hrest : forall c2, started snap from x m (fst c2) (snd c2) ->
    wp (for_each pre addAccessedObjAddr ;;; addAccessedObjAddr coinbase ;;; on_wrapper (on_state (st_Prepare sender coinbase dst pre))) Q c2).
  { intros c2 HS2. apply wp_bind, (wp_addAll snap from x m); [done..|]. intros c3 HS3.
    apply wp_bind, (wp_addAccessed snap from x m); [done..|]. intros c4 _ _. by apply wp_modify. }
  destruct dst as [d|]; [|by apply wp_ret, Hrest].
  apply (wp_addAccessed snap from x m); [done|done|by apply Hd|]. intros c2 HS2 _. by apply Hrest.
Qed.

(** ** The controller around the transition *)

Abbreviation E := (EVMCtrler S DB D).
Abbreviation V := (EVMView E GP A).

Lemma wp_with_wrapper {B} (f : M (StateDBWrapper S * A) B) (e : E) a bt w (Q : outcome B -> V -> Prop) :
  ev_stateDBWrapper e = Some w -> wp f (fun o c => Q o (set_wrapper (fst c) e, snd c, bt)) (w, a) ->
  wp (with_wrapper f) Q (e, a, bt).
Proof. intros Hw Hf. unfold wp, with_wrapper in *. rewrite Hw. by destruct (f (w, a)) as [o [w' a']]. Qed.

Lemma is_creation_zero tx : is_creation tx = IsZeroAddress (tx_To tx).
Proof.
  unfold is_creation, toAddr, bytes_Equal. case_bool_decide as E0; [by rewrite E0|]. by destruct (IsZeroAddress (tx_To tx)).
Qed.

(** A delivered contract transaction at its turn: the block's wrapper has nothing
    touched, the sender has no code, validation has passed, and the pool has the
    gas the transaction asks for. *)
Record at_turn (e : E) w vb a m (b : BlockContext GP) (ctx : TrxContext) (x : Account) (intr : Z) : Prop := {
  at_vm : ev_vmevm e = Some vb;
  at_wrapper : ev_stateDBWrapper e = Some w;
  at_fresh : sw_accessedObjAddrs w = ∅;
  at_accts : accts a m;
  at_exec : tc_Exec ctx = true;
  at_eoa : no_code (sw_StateDB w) (tx_From (tc_Tx ctx));
  at_sender : m !! LedgerKeyAccount (tx_From (tc_Tx ctx)) = Some x;
  at_valid : valid_contract (tc_Tx ctx) x;
  at_pool : tx_Gas (tc_Tx ctx) <= gas_Gas (bc_blockGasPool b);
  at_intrinsic : IntrinsicGas (inputData (tc_Tx ctx)) (is_creation (tc_Tx ctx)) = Ok intr;
  at_gas : intr <= tx_Gas (tc_Tx ctx);
}.

(** [startVM] is [Initiate] and the transition. *)
Lemma wp_startVM e w vb a m b ctx x intr (Q : outcome (Z * (ExecutionResult + error)) -> V -> Prop) :
  at_turn e w vb a m b ctx x intr ->
  (forall snap c, started snap (tx_From (tc_Tx ctx)) x m (fst c) (snd c) ->
     tx_From (tc_Tx ctx) ∈ dom (sw_accessedObjAddrs (fst c)) ->
     wp (TransitionDb vb (msg_of (tc_Tx ctx))) (fun o t =>
       match o with
       | Ok r => Q (Ok (snap, inl r)) | Err err => Q (Ok (snap, inr (From_ err))) | Panic => Q Panic
       end (set_wrapper (fst (st_state t)) e, snd (st_state t), (set_gas (bc_blockGasLimit b) (st_gp t) b, ctx)))
       (MkST (bc_blockGasPool b) 0 0 c)) ->
  wp (startVM ctx) Q (e, a, (b, ctx)).
Proof.
  intros HT HQ. unfold startVM. apply wp_bind, (wp_with_wrapper _ e a _ w); [apply (at_wrapper _ _ _ _ _ _ _ _ _ HT)|].
  rewrite (at_exec _ _ _ _ _ _ _ _ _ HT). pose proof (at_valid _ _ _ _ _ _ _ _ _ HT) as HV.
  apply (wp_start _ _ (tx_From (tc_Tx ctx)) _ x m); try by destruct HT, HV.
  intros snap [w1 a1] HS Hd. apply wp_bind, wp_try. cbn [fst snd]. unfold execVM.
  apply wp_bind, wp_gets. cbn [fst snd set_wrapper ev_vmevm]. rewrite (at_vm _ _ _ _ _ _ _ _ _ HT).
  apply wp_bind, wp_try. specialize (HQ snap (w1, a1) HS Hd). unfold wp at 1. unfold wp in HQ. unfold run_transition.
  cbn [ev_stateDBWrapper set_wrapper]. unfold msg_of in HQ. destruct (TransitionDb vb _ _) as [[r|err|] t]; cbn [fst snd] in *.
  - by apply wp_ret, wp_ret.
  - by apply wp_throw, wp_ret.
  - done.
Qed.

(** The transition of an oversized creation. *)
Lemma wp_startVM_oversized e w vb a m b ctx x intr (Q : outcome (Z * (ExecutionResult + error)) -> V -> Prop) :
  at_turn e w vb a m b ctx x intr ->
  is_creation (tc_Tx ctx) = true -> MaxInitCodeSize < Z.of_nat (length (inputData (tc_Tx ctx))) ->
  (forall snap err w' a' b', started snap (tx_From (tc_Tx ctx)) x m w' a' ->
     gas_Gas (bc_blockGasPool b') = gas_Gas (bc_blockGasPool b) - tx_Gas (tc_Tx ctx) ->
     Q (Ok (snap, inr err)) (set_wrapper w' e, a', (b', ctx))) ->
  wp (startVM ctx) Q (e, a, (b, ctx)).
Proof.
  intros HT Hcr Hbig HQ. apply (wp_startVM e w vb a m b ctx x intr); [done|]. intros snap c HS Hd.
  apply (wp_Transition_checked snap x m _ intr); try by destruct HT.
  intros p' Hp'. cbn zeta. rewrite Hcr, (proj2 (Z.ltb_lt _ _) Hbig). apply wp_throw. by apply HQ.
Qed.

(** Reverting to the snapshot of the start and finishing leave the accounts alone. *)
Lemma wp_revert_finish snap from x m w a e bt err (Q : outcome unit -> V -> Prop) :
  started snap from x m w a ->
  (forall w', sw_accessedObjAddrs w' = ∅ -> Q (Err err) (set_wrapper w' e, a, bt)) ->
  wp (with_wrapper (sw_RevertToSnapshot snap) ;;; with_wrapper Finish ;;; throw err) Q (set_wrapper w e, a, bt).
Proof.
  intros [HA Hex Hsn Hv Ht Hc Hf] HQ. apply wp_bind, (wp_with_wrapper _ (set_wrapper w e) a bt w); [done|].
  unfold sw_RevertToSnapshot, on_wrapper. apply wp_bind, wp_modify, wp_bind, wp_gets, wp_bind, wp_lift. cbn [fst snd].
  change (sw_StateDB (revertAccessedObjAddr snap w)) with (sw_StateDB w).
  destruct (valid_revert _ _ Hv) as [s' ->]. apply wp_modify. cbn [fst snd].
  assert (filter (fun kv : Address * Z => ~ (snap < snd kv)) (sw_accessedObjAddrs w) = ∅) as He.
  { apply map_empty. intros k. destruct (filter _ _ !! k) as [i|] eqn:Ek; [|done].
    apply map_lookup_filter_Some in Ek as [Hk Hn]. by destruct Hn; apply (Ht k). }
  eapply wp_bind, wp_with_wrapper; [done|]. unfold Finish, on_wrapper. apply wp_bind, wp_gets, wp_bind. cbn [fst snd].
  assert (sorted_keys (sw_accessedObjAddrs (on_state (fun _ => s') (revertAccessedObjAddr snap w))) = []) as ->.
  { unfold revertAccessedObjAddr, on_state, set_accessed. cbn [sw_accessedObjAddrs]. by rewrite He. }
  apply wp_ret, wp_modify, wp_throw. cbn [fst snd]. by apply HQ.
Qed.

(** A contract creation whose code is longer than the virtual machine takes is
    not refused by validation, which looks at the intrinsic gas only.  Delivered,
    it fails after its gas was bought: the block loses the whole gas limit of the
    transaction, while the gas used, which the fee is computed from, stays what it
    was, and no account changes. *)
Theorem oversized_creation_free e w vb a m b ctx x intr y :
  at_turn e w vb a m b ctx x intr ->
  aheld a (tc_Receiver ctx) y -> acct_Address y = ZeroAddress -> is_creation (tc_Tx ctx) = true ->
  MaxInitCodeSize < Z.of_nat (length (inputData (tc_Tx ctx))) ->
  wp ctrl_ValidateTrx (okQ (fun _ v' => v' = (e, a, (b, ctx)))) (e, a, (b, ctx)) /\
  wp ctrl_ExecuteTrx (fun o v' =>
    (exists err, o = Err err) /\ accts (snd (fst v')) m /\ tc_GasUsed (snd (snd v')) = tc_GasUsed ctx /\
    gas_Gas (bc_blockGasPool (fst (snd v'))) = gas_Gas (bc_blockGasPool b) - tx_Gas (tc_Tx ctx)) (e, a, (b, ctx)).
Proof.
  intros HT Hy Hz Hcr Hbig. unfold MaxInitCodeSize in *. split.
  - unfold ctrl_ValidateTrx, v_ctx, v_acct. apply wp_bind, wp_gets, wp_bind, wp_zoom. cbn [fst snd].
    unfold wp at 1. cbn [lget lset lens_comp fst_lens snd_lens fst snd]. rewrite (acct_get_law _ _ _ Hy). cbn [fst snd]. rewrite Hz.
    assert (bytes_Equal ZeroAddress ZeroAddress = true) as -> by by apply bool_decide_true.
    rewrite (proj2 (Nat.eqb_neq _ _)) by lia. apply wp_bind, wp_lift.
    rewrite <- is_creation_zero, (at_intrinsic _ _ _ _ _ _ _ _ _ HT).
    pose proof (vc_gas _ _ (at_valid _ _ _ _ _ _ _ _ _ HT)). pose proof (at_gas _ _ _ _ _ _ _ _ _ HT).
    unfold u64. rewrite Z.mod_small, (proj2 (Z.ltb_ge _ _)), (at_exec _ _ _ _ _ _ _ _ _ HT) by lia. by apply wp_ret.
  - unfold ctrl_ExecuteTrx, v_ctx. apply wp_bind, wp_gets. cbn [fst snd]. rewrite (at_exec _ _ _ _ _ _ _ _ _ HT).
    apply wp_bind, (wp_startVM_oversized e w vb a m b ctx x intr); [done..|]. intros snap err w' a' b' HS Hp.
    cbn [fst snd]. apply (wp_revert_finish snap (tx_From (tc_Tx ctx)) x m); [done|]. intros w2 _. cbn [fst snd].
    split; [by eexists|]. split; [apply (sd_accts _ _ _ _ _ _ HS)|done].
Qed.

Lemma toAddr_length to d : toAddr to = Some d -> length d = AddrSize.
Proof.
  unfold toAddr, Array20, array_of, AddrSize. destruct (_ && _); [|done]. intros [= <-].
  rewrite length_app, length_take, repeat_length. lia.
Qed.

(** C23. A contract transaction that was validated runs.  Its sender is stored,
    without code, with the nonce of the transaction and the amount; the pool of the
    block has its gas limit, which covers the intrinsic gas; and if it creates a
    contract its data is not too long.  Then the start, the preparation, the
    virtual machine and the refund return a result and no error.  The block's pool
    has lost just the gas the result says was used, at most the limit of the
    transaction and at least four fifths of the intrinsic gas.  (A creation with
    longer data is refused: [oversized_creation_free].) *)
Theorem validated_contract_runs e w vb a m b ctx x intr :
  at_turn e w vb a m b ctx x intr ->
  is_creation (tc_Tx ctx) = false \/ Z.of_nat (length (inputData (tc_Tx ctx))) <= MaxInitCodeSize ->
  length (vb_Coinbase vb) = AddrSize -> Forall (fun p => length p = AddrSize) ActivePrecompiles ->
  wp (startVM ctx) (okQ (fun sr v' => exists r, snd sr = inl r /\
    er_UsedGas r <= tx_Gas (tc_Tx ctx) /\ 4 * intr <= 5 * er_UsedGas r /\
    gas_Gas (bc_blockGasPool (fst (snd v'))) = gas_Gas (bc_blockGasPool b) - er_UsedGas r)) (e, a, (b, ctx)).
Proof.
  intros HT Hsmall Hco Hpre. apply (wp_startVM e w vb a m b ctx x intr); [done|]. intros snap c HS Hd.
  apply (wp_Transition_checked snap x m _ intr); try by destruct HT.
  intros p' Hp'. cbn zeta.
  assert (is_creation (tc_Tx ctx) && (MaxInitCodeSize <? Z.of_nat (length (inputData (tc_Tx ctx)))) = false) as ->.
  { destruct Hsmall as [-> | Hs]; [done|]. rewrite (proj2 (Z.ltb_ge _ _) Hs). apply andb_false_r. }
  pose proof (vc_from _ _ (at_valid _ _ _ _ _ _ _ _ _ HT)) as Hfrom. rewrite (Array20_id _ Hfrom).
  apply wp_bind, wp_zoom, (wp_Prepare snap (tx_From (tc_Tx ctx)) x m); cbn [lget state_lens st_state]; try done.
  { apply (at_sender _ _ _ _ _ _ _ _ _ HT). }
  { intros d. apply toAddr_length. }
  intros c'. pose proof (IntrinsicGas_law _ _ _ (at_intrinsic _ _ _ _ _ _ _ _ _ HT)).
  pose proof (vc_gas _ _ (at_valid _ _ _ _ _ _ _ _ _ HT)). pose proof (at_gas _ _ _ _ _ _ _ _ _ HT).
  pose proof (gas_range (bc_blockGasPool b)).
  apply (wp_settle vb _ _ _ intr); unfold pool; cbn [lset state_lens st_gp st_initialGas st_gasRemaining]; [lia..|].
  intros r t' Hlo Hhi Hpool. unfold okQ. exists r. cbn [snd fst set_gas bc_blockGasPool]. repeat split; [lia|lia|].
  lia.
Qed.

End Contract.

(** ** A new process *)

(** The value a batch sets last for a key. *)
Definition batch_last (kvs : list (bytes * bytes)) (k : bytes) : option bytes :=
  foldl (fun r kv => if bool_decide (fst kv = k) then Some (snd kv) else r) None kvs.

(** A batch that was written is read back. *)
Class TmBatchLaws (D : Type) `{TmDB D, TmBatch D} : Prop :=
  batch_get : forall (d : D) kvs d' k v,
    db_WriteBatch d kvs = Ok d' -> batch_last kvs k = Some v -> db_Get d' k = Ok (Some v).

Section Restart.
Context {S DB D A GP : Type} `{EthStateDB S, EthDB S DB, TmDB D, TmBatch D, !TmBatchLaws D}.
Context `{IAccountHandler A, GasPoolLib GP, !EthVM S A}.
Abbreviation E := (EVMCtrler S DB D).

(** What a commit leaves, when the batch is written. *)
Lemma ctrl_Commit_inv (e : E) (a : A) root h e' a' :
  (forall batch, exists d, db_WriteBatch (ev_metadb e) batch = Ok d) ->
  ctrl_Commit (e, a) = (Ok (root, h), (e', a')) ->
  h = i64 (ev_lastBlockHeight e + 1) /\ ev_lastBlockHeight e' = h /\ ev_lastRootHash e' = root /\
  db_WriteBatch (ev_metadb e) [(lastBlockHeightKey, FormatInt h); (blockKey h, root)] = Ok (ev_metadb e').
Proof.
  intros Hw. unfold ctrl_Commit, bind, gets. cbn [fst]. destruct (ev_stateDBWrapper e) as [w|]; [|done].
  destruct (state_Commit _ _ _) as [[[root0 s1] db1]|err|]; [|done..].
  destruct (trie_Commit root0 s1 db1) as [db2|err|]; [|done..].
  destruct (NewStateDBWrapper db2 root0) as [w'|err|]; [|done..].
  destruct (Hw [(lastBlockHeightKey, FormatInt (i64 (ev_lastBlockHeight e + 1)));
                (blockKey (i64 (ev_lastBlockHeight e + 1)), root0)]) as [d Hd].
  unfold modify, ret, db_WriteBatch in *. cbn zeta. rewrite Hd. intros [= <- <- <- <-]. by rewrite Hd.
Qed.

(** A process started on the databases of a committed controller finds the height
    and the root of that commit, and begins the next block as the old process
    would have: with the same outcome, and when the block begins, in the same
    state. *)
Theorem evm_restart (e : E) (a : A) root h e' a' (b : BlockContext GP) (gp : GovParamsProto) :
  (forall batch, exists d, db_WriteBatch (ev_metadb e) batch = Ok d) ->
  ctrl_Commit (e, a) = (Ok (root, h), (e', a')) ->
  exists e2, NewEVMCtrler (ev_ethDB e') (ev_metadb e') = Ok e2 /\
    ev_lastBlockHeight e2 = h /\ ev_lastRootHash e2 = root /\
    fst (ctrl_BeginBlock b gp (e2, a')) = fst (ctrl_BeginBlock b gp (e', a')) /\
    (fst (ctrl_BeginBlock b gp (e', a')) = Ok tt ->
     snd (ctrl_BeginBlock b gp (e2, a')) = snd (ctrl_BeginBlock b gp (e', a'))).
Proof.
  intros Hw HC. destruct (ctrl_Commit_inv e a root h e' a' Hw HC) as (Hh & Hh' & Hr & Hb).
  exists (MkEVMCtrler None (ev_ethDB e') None (ev_metadb e') root h). repeat split.
  - unfold NewEVMCtrler. rewrite (batch_get _ _ _ lastBlockHeightKey (FormatInt h) Hb).
    + rewrite ParseInt_FormatInt by (subst h; apply i64_range). rewrite (batch_get _ _ _ (blockKey h) root Hb); [done|].
      unfold batch_last. cbn [foldl fst snd]. by rewrite (bool_decide_true (blockKey h = _)).
    + unfold batch_last. cbn [foldl fst snd]. rewrite bool_decide_false by (unfold blockKey; done). done.
  - unfold ctrl_BeginBlock, bind, gets. cbn [fst ev_lastBlockHeight ev_ethDB ev_lastRootHash]. rewrite Hh', Hr.
    destruct (negb _); [done|]. unfold lift. by destruct (NewStateDBWrapper _ _).
  - unfold ctrl_BeginBlock, bind, gets. cbn [fst ev_lastBlockHeight ev_ethDB ev_lastRootHash ev_metadb]. rewrite Hh', Hr.
    destruct (negb _); [done|]. unfold lift. by destruct (NewStateDBWrapper _ _).
Qed.

End Restart.

(** ** A small machine *)

Module EvmWitness.
Import ToyNode.

(** Balances, nonces, and the stack of snapshots. *)
Definition pair_state : Type := gmap Address Z * gmap Address Z.
Definition toy_state : Type := pair_state * list pair_state.

#[export] Instance toy_statedb : EthStateDB toy_state := {
  st_GetBalance s a := default 0 (fst (fst s) !! a);
  st_SetBalance a v s := ((<[a := v]> (fst (fst s)), snd (fst s)), snd s);
  st_GetNonce s a := default 0 (snd (fst s) !! a);
  st_SetNonce a v s := ((fst (fst s), <[a := v]> (snd (fst s))), snd s);
  st_GetCodeHash _ _ := repeat 0 32;
  st_GetCodeSize _ _ := 0;
  st_GetRefund _ := 4000;
  st_Snapshot s := (Z.of_nat (length (snd s)), (fst s, snd s ++ [fst s]));
  st_RevertToSnapshot id s :=
    match snd s !! Z.to_nat id with Some p => Ok (p, take (Z.to_nat id) (snd s)) | None => Panic end;
  st_SetTxContext _ _ s := s;
  st_AddAddressToAccessList _ s := s;
  st_Prepare _ _ _ _ s := s;
  st_Finalise s := s;
  st_GetLogs _ _ := [];
  EmptyCodeHash := repeat 1 32;
}.

#[export] Instance toy_state_laws : EthStateLaws toy_state.
Proof.
  split; try done; try (intros; by left).
  - intros s a v a'. cbn. case_bool_decide as E0; [by rewrite E0, lookup_insert_eq|by rewrite lookup_insert_ne].
  - intros s a v a'. cbn. case_bool_decide as E0; [by rewrite E0, lookup_insert_eq|by rewrite lookup_insert_ne].
Qed.

#[export, refine] Instance toy_snapshots : EthSnapshots toy_state := {
  st_valid id s := (Z.to_nat id < length (snd s))%nat;
}.
Proof.
  all: try done.
  - intros s. cbn. rewrite Nat2Z.id, length_app. cbn. lia.
  - intros id s Hv. cbn. destruct (lookup_lt_is_Some_2 _ _ Hv) as [p ->]. by eexists.
Defined.

(** A run uses three quarters of its gas. *)
Definition run_quarter (gas : Z) : M (StateDBWrapper toy_state * toy_accts) VMOutput :=
  ret (MkVMOutput [] (gas / 4) None).

#[export] Instance toy_vm : EthVM toy_state toy_accts := {
  vm_Call _ _ _ _ gas _ := run_quarter gas;
  vm_Create _ _ _ gas _ := run_quarter gas;
  IntrinsicGas _ creation := Ok (if creation : bool then 53000 else 21000);
  IsValidVersionedHash _ := true;
  ActivePrecompiles := [];
  ErrExecutionReverted := GoError "execution reverted";
}.

#[export] Instance toy_vm_laws : EthVMLaws toy_state toy_accts.
Proof.
  assert (forall gas, 0 <= gas -> 0 <= gas / 4 <= gas) as Hq.
  { intros gas Hg. pose proof (Z.div_pos gas 4 Hg ltac:(lia)). pose proof (Z.mul_div_le gas 4 ltac:(lia)). lia. }
  split.
  - intros. do 2 eexists. split; [done|]. by apply Hq.
  - intros. do 2 eexists. split; [done|]. by apply Hq.
  - done.
  - intros data [] gas [= <-]; lia.
Qed.

#[export] Instance toy_ethdb : EthDB toy_state unit := {
  state_New _ _ := Ok (∅, ∅, []);
  state_Commit bn s d := Ok (repeat bn 32, s, d);
  trie_Commit _ _ d := Ok d;
  CreateAddress _ _ := carol;
}.

#[export] Instance toy_batch : TmBatch (gmap bytes bytes) :=
  fun d kvs => Ok (foldl (fun d kv => <[fst kv := snd kv]> d) d kvs).

#[export] Instance toy_batch_laws : TmBatchLaws (gmap bytes bytes).
Proof.
  intros d kvs d' k v [= <-] Hl. cbn. f_equal. unfold batch_last in Hl. revert d v Hl.
  induction kvs as [|[k' v'] kvs IH] using rev_ind; intros d v; [done|]. rewrite !foldl_app. cbn.
  case_bool_decide as E0; [intros [= <-]; by rewrite E0, lookup_insert_eq|]. intros Hl. rewrite lookup_insert_ne by done. by apply IH.
Qed.

(** The account of the zero address is created when the transaction is prepared. *)
Definition prepared_run : outcome loc * toy_accts := FindOrNewAccount ZeroAddress true toy_accounts.
Definition zero_loc : loc := match fst prepared_run with Ok l => l | _ => 1%positive end.
Definition accts1 : toy_accts := snd prepared_run.

(** A creation by alice with [n] bytes of code. *)
Definition creation (n : nat) : Trx :=
  MkTrx 1 0 0 alice ZeroAddress 5 60000 1 TRX_CONTRACT (Some (TrxPayloadContract (repeat 96 n))) [] [] [].
Definition creation_ctx (n : nat) : TrxContext :=
  MkTrxContext (creation n) 0 [] true [] 1%positive zero_loc 1%positive 0 [] [] NoResult.

Definition vb1 : VMBlockContext := MkVMBlock bob 100000 1 0.
Definition wrapper1 : StateDBWrapper toy_state := NewWrapper (∅, ∅, []).
Definition ctrler1 : EVMCtrler toy_state unit (gmap bytes bytes) :=
  MkEVMCtrler (Some vb1) tt (Some wrapper1) ∅ [] 0.

Definition alice_acct : Account := default (NewAccount alice) (toy_map !! LedgerKeyAccount alice).

Lemma creation_at_turn n : at_turn ctrler1 wrapper1 vb1 accts1 toy_map toy_bctx (creation_ctx n) alice_acct 53000.
Proof.
  split; [reflexivity..| |reflexivity| | | | |reflexivity|].
  - pose proof (FindOrNewAccount_law toy_accounts toy_map ZeroAddress toy_accounts_inv eq_refl) as Hw.
    unfold wp, okQ in Hw. unfold accts1, prepared_run. destruct (fst (FindOrNewAccount _ _ _)); [apply Hw|done..].
  - by left.
  - by vm_compute.
  - split; [done|by right|..]; vm_compute; try done; by split.
  - by vm_compute.
  - by vm_compute.
Qed.

Lemma zero_held : exists y, aheld accts1 zero_loc y /\ acct_Address y = ZeroAddress.
Proof.
  pose proof (FindOrNewAccount_law toy_accounts toy_map ZeroAddress toy_accounts_inv eq_refl) as Hw.
  unfold wp, okQ in Hw. unfold accts1, zero_loc, prepared_run. destruct (fst (FindOrNewAccount _ _ _)); [|done..].
  destruct Hw as (_ & _ & y & Hy & Ha & _). by exists y.
Qed.

Definition big : nat := Z.to_nat 49153.

(** 60000 units of gas are gone from the block, and none are used. *)
Lemma oversized_creation_free_witness :
  wp (ctrl_ExecuteTrx (DB := unit) (D := gmap bytes bytes)) (fun o v' =>
    (exists err, o = Err err) /\ accts (snd (fst v')) toy_map /\ tc_GasUsed (snd (snd v')) = 0 /\
    gas_Gas (bc_blockGasPool (fst (snd v'))) = 40000) (ctrler1, accts1, (toy_bctx, creation_ctx big)).
Proof.
  destruct zero_held as (y & Hy & Ha).
  refine (proj2 (oversized_creation_free ctrler1 wrapper1 vb1 accts1 toy_map toy_bctx (creation_ctx big) alice_acct 53000 y
    (creation_at_turn big) Hy Ha eq_refl _)).
  cbn [tc_Tx creation_ctx inputData tx_Payload creation]. rewrite repeat_length. unfold big, MaxInitCodeSize. lia.
Defined.

Lemma validated_contract_runs_witness :
  wp (startVM (DB := unit) (D := gmap bytes bytes) (creation_ctx 10)) (okQ (fun sr v' => exists r, snd sr = inl r /\
    er_UsedGas r <= 60000 /\ 4 * 53000 <= 5 * er_UsedGas r /\
    gas_Gas (bc_blockGasPool (fst (snd v'))) = 100000 - er_UsedGas r)) (ctrler1, accts1, (toy_bctx, creation_ctx 10)).
Proof.
  refine (validated_contract_runs ctrler1 wrapper1 vb1 accts1 toy_map toy_bctx (creation_ctx 10) alice_acct 53000
    (creation_at_turn 10) (or_intror _) eq_refl (Forall_nil_2 _)). by vm_compute.
Defined.

(** A call of carol's by alice, who has 10. *)
Definition call_state : VMStateTransition Z toy_state toy_accts :=
  MkST 100000 0 0 (MkWrapper (∅ : gmap Address Z, ∅ : gmap Address Z, []) {[alice := 1; carol := 1; bob := 1]} 0 true, toy_accounts).
Definition call_msg : Message := evmMessage alice (Some carol) 0 50000 1 0 [] false.

Lemma transition_gas_witness :
  fst (TransitionDb vb1 call_msg call_state) = Ok (MkExecutionResult 38750 4000 None []) /\
  pool (snd (TransitionDb vb1 call_msg call_state)) = pool call_state - 38750.
Proof.
  assert (fst (TransitionDb vb1 call_msg call_state) = Ok (MkExecutionResult 38750 4000 None [])) as Hr by by vm_compute.
  split; [exact Hr|]. assert (0 <= mg_GasLimit call_msg < 2 ^ 64) as Hl by (vm_compute; by split).
  pose proof (transition_gas vb1 call_msg call_state eq_refl Hl) as Hw. unfold wp in Hw. rewrite Hr in Hw. exact (proj1 Hw).
Defined.

Lemma evm_restart_witness :
  let c := ctrl_Commit (S := toy_state) (ctrler1, toy_accounts) in
  fst c = Ok (repeat 1 32, 1) /\
  exists e2 : EVMCtrler toy_state unit (gmap bytes bytes),
    NewEVMCtrler tt (ev_metadb (fst (snd c))) = Ok e2 /\ ev_lastBlockHeight e2 = 1 /\
    ev_lastRootHash e2 = repeat 1 32.
Proof.
  intros c. split; [by vm_compute|].
  destruct (evm_restart (GP := Z) ctrler1 toy_accounts (repeat 1 32) 1 (fst (snd c)) (snd (snd c)) toy_bctx GovParams.DefaultGovParams)
    as (e2 & Hn & Hh & Hr & _).
  - intros batch. by eexists.
  - done.
  - by exists e2.
Defined.

End EvmWitness.
