(* ===== verification/Precompiled.v ===== *)
(** * Precompiled: the chain's own precompiled contracts

    [ctrlers/vm/evm/precompiled.go]: the verification of a P-256 signature and of
    a chain of X.509 certificates.  Curve, signatures and certificates are
    parameters ([X509Lib]); the input of the second contract is an array of
    certificates, each after its length in four bytes, which is parsed once for
    the price and once for the run. *)
From stdpp Require Import base list strings.
From Stdlib Require Import ZArith Lia.
From Equations Require Import Equations.
From S2P Require Import Prelude XErrors GoMonad LedgerKeys Units HexBytes.

#[local] Obligation Tactic := idtac.

Class X509Lib (Cert : Type) : Type := {
  P256_IsOnCurve : Z -> Z -> bool;
  ecdsa_Verify : Z * Z -> bytes -> Z -> Z -> bool;          (* public key, hash, r, s *)
  x509_ParseCertificate : bytes -> outcome Cert;
  x509_CheckSignatureFrom : Cert -> Cert -> outcome unit;   (* certificate, its parent *)
  cert_PublicKey : Cert -> option (Z * Z);                  (* of an ECDSA key *)
  cert_SerialNumber : Cert -> Z;
  cert_OrganizationalUnit : Cert -> list bytes;
}.

Definition P256VerifyGas : Z := 6900.
Definition P256VerifyInputLength : Z := 160.
Definition X509VerifyBaseGas : Z := 50000.
Definition X509VerifyPerCertGas : Z := 50000.
Definition true32Byte : bytes := repeat 0 31 ++ [1].

(** [input[a:b]] *)
Definition slice (a b : nat) (l : bytes) : bytes := take (b - a) (drop a l).

(** ** The array of certificates *)

(** The length in front of the rest. *)
Definition certLen (data : bytes) : nat := Z.to_nat (get_be (take 4 data) 0).

(** The loop of [countDERCerts], on the data from the offset. *)
Equations countDERCerts (data : bytes) : nat by wf (length data) lt :=
countDERCerts data with decide (4 <= length data)%nat => {
  | right _ => 0%nat
  | left H4 with decide (0 < certLen data /\ 4 + certLen data <= length data)%nat => {
    | right _ => 0%nat
    | left Hlen => S (countDERCerts (drop (4 + certLen data) data)) } }.
Next Obligation. intros. rewrite length_drop. lia. Qed.

(** The loop of [decodeDERCertArray]. *)
Equations decodeDERCertArray (input : bytes) : outcome (list bytes) by wf (length input) lt :=
decodeDERCertArray input with decide (0 < length input)%nat => {
  | right _ => Ok []
  | left H0 with decide (4 <= length input)%nat => {
    | right _ => Err (GoError "x509: truncated certificate length")
    | left H4 with decide (0 < certLen input)%nat => {
      | right _ => Err (GoError "x509: invalid certificate length")
      | left Hpos with decide (4 + certLen input <= length input)%nat => {
        | right _ => Err (GoError "x509: truncated certificate data")
        | left Hlen =>
            obind (decodeDERCertArray (drop (4 + certLen input) input)) (fun certs =>
            Ok (slice 4 (4 + certLen input) input :: certs)) } } } }.
Next Obligation. intros. rewrite length_drop. lia. Qed.

Section Precompiled.
Context {Cert : Type} `{X509Lib Cert}.

(** ** P-256 *)

Definition p256_RequiredGas (input : bytes) : Z := P256VerifyGas.

Definition p256_Run (input : bytes) : outcome bytes :=
  if negb (Z.of_nat (length input) =? P256VerifyInputLength) then Err (GoError "p256:invalid input length")
  else
    let hash := slice 0 32 input in
    let r := get_be (slice 32 64 input) 0 in
    let s := get_be (slice 64 96 input) 0 in
    let x := get_be (slice 96 128 input) 0 in
    let y := get_be (slice 128 160 input) 0 in
    if negb (P256_IsOnCurve x y) then Err (GoError "p256:invalid public key")
    else if ecdsa_Verify (x, y) hash r s then Ok true32Byte
    else Err (GoError "p256: failed verification").

(** ** Certificates *)

Definition x509_RequiredGas (input : bytes) : Z :=
  let n := countDERCerts input in
  if (n =? 0)%nat then X509VerifyBaseGas else X509VerifyBaseGas + Z.of_nat n * X509VerifyPerCertGas.

Fixpoint parse_all (ders : list bytes) : outcome (list Cert) :=
  match ders with
  | [] => Ok []
  | der :: ders' =>
      match x509_ParseCertificate der with
      | Ok c => obind (parse_all ders') (fun cs => Ok (c :: cs))
      | Err _ => Err (GoError "x509: failed to parse certificate %d: %v")
      | Panic => Panic
      end
  end.

(** Each certificate is signed by the next one. *)
Fixpoint check_chain (certs : list Cert) : outcome unit :=
  match certs with
  | subject :: ((issuer :: _) as certs') =>
      match x509_CheckSignatureFrom subject issuer with
      | Ok _ => check_chain certs'
      | Err _ => Err (GoError "x509: cert[%d] failed verification by cert[%d]: %v")
      | Panic => Panic
      end
  | _ => Ok tt
  end.

(** [big.Int.Bytes] of the absolute value; [LeftPadBytes] leaves longer ones. *)
Definition LeftPadBytes (b : bytes) (n : nat) : bytes := repeat 0 (n - length b) ++ b.

Definition big_Bytes (z : Z) : bytes := strip_zeros (put_be (Z.to_nat (Z.log2 (Z.abs z) / 8) + 1) (Z.abs z)).

Definition x509_Run (input : bytes) : outcome bytes :=
  obind (decodeDERCertArray input) (fun derCerts =>
  if (length derCerts =? 0)%nat then Err (GoError "x509: no certificates provided")
  else
    obind (parse_all derCerts) (fun certs =>
    obind (check_chain certs) (fun _ =>
    match certs with
    | [] => Panic
    | subjectCert :: _ =>
        match cert_PublicKey subjectCert with
        | None => Err (GoError "x509: unsupported public key type %T")
        | Some (x, y) =>
            Ok (LeftPadBytes (big_Bytes x) 32 ++ LeftPadBytes (big_Bytes y) 32
                ++ LeftPadBytes (big_Bytes (cert_SerialNumber subjectCert)) 32
                ++ match cert_OrganizationalUnit subjectCert with ou :: _ => ou | [] => [] end)
        end
    end))).

End Precompiled.

(** ** The array is read exactly *)

(** A certificate after its length. *)
Definition frame (der : bytes) : bytes := put_be 4 (Z.of_nat (length der)) ++ der.
Definition is_der (der : bytes) : Prop := (0 < length der)%nat /\ Z.of_nat (length der) < 2 ^ 32.

Lemma certLen_frame der rest : Z.of_nat (length der) < 2 ^ 32 -> certLen (frame der ++ rest) = length der.
Proof.
  intros Hl. unfold certLen, frame. rewrite <- app_assoc, take_app_length' by (by rewrite length_put_be).
  rewrite get_put_be. change (256 ^ Z.of_nat 4) with (2 ^ 32). rewrite Z.mod_small by lia. lia.
Qed.

Lemma length_frame der : length (frame der) = (4 + length der)%nat.
Proof. unfold frame. by rewrite length_app, length_put_be. Qed.

Lemma drop_frame der rest : drop (4 + length der) (frame der ++ rest) = rest.
Proof. rewrite drop_app_length'; [done|]. by rewrite length_frame. Qed.

Lemma slice_frame der rest : slice 4 (4 + length der) (frame der ++ rest) = der.
Proof.
  unfold slice, frame. rewrite <- app_assoc, drop_app_length' by (by rewrite length_put_be).
  by rewrite Nat.add_comm, Nat.add_sub, take_app_length.
Qed.

Lemma put_get_be (b : bytes) : Forall is_byte b -> put_be (length b) (get_be b 0) = b.
Proof.
  induction b as [|x b IH] using rev_ind; [done|]. intros [Hb Hx]%Forall_app. rewrite Forall_singleton in Hx.
  rewrite length_app, Nat.add_1_r, get_be_app. cbn [put_be get_be]. unfold is_byte in Hx.
  assert ((get_be b 0 * 256 + x) / 256 = get_be b 0) as -> by (rewrite Z.div_add_l, Z.div_small by lia; lia).
  assert ((get_be b 0 * 256 + x) mod 256 = x) as -> by (rewrite Z.add_comm, Z.mod_add, Z.mod_small by lia; lia).
  by rewrite IH.
Qed.

Lemma get_be_range (b : bytes) : Forall is_byte b -> 0 <= get_be b 0 < 256 ^ Z.of_nat (length b).
Proof.
  intros Hb. pose proof (get_put_be (length b) (get_be b 0) 0) as Hg. rewrite (put_get_be b Hb), Z.mul_0_l, Z.add_0_l in Hg.
  rewrite Hg. apply Z.mod_pos_bound. lia.
Qed.

(** The data starts with a whole certificate. *)
Lemma frame_split data :
  Forall is_byte data -> (4 <= length data)%nat -> (4 + certLen data <= length data)%nat ->
  data = frame (slice 4 (4 + certLen data) data) ++ drop (4 + certLen data) data.
Proof.
  intros Hb H4 Hlen. unfold frame, slice. rewrite Nat.add_comm, Nat.add_sub, (Nat.add_comm (certLen data) 4).
  rewrite length_take, length_drop, Nat.min_l by lia. rewrite <- app_assoc, <- drop_drop, take_drop.
  pose proof (put_get_be (take 4 data) (Forall_take _ _ _ Hb)) as Hp. rewrite length_take, Nat.min_l in Hp by lia.
  pose proof (get_be_range (take 4 data) (Forall_take _ _ _ Hb)).
  unfold certLen. rewrite Z2Nat.id by lia. rewrite Hp. by rewrite take_drop.
Qed.

Lemma decode_frame der rest :
  is_der der -> decodeDERCertArray (frame der ++ rest) = obind (decodeDERCertArray rest) (fun certs => Ok (der :: certs)).
Proof.
  intros [Hpos Hl]. pose proof (certLen_frame der rest Hl) as Hc.
  assert (length (frame der ++ rest) = 4 + length der + length rest)%nat as Hlen by (by rewrite length_app, length_frame).
  pose proof (drop_frame der rest) as Hdrop. pose proof (slice_frame der rest) as Hslice.
  revert Hc Hlen Hdrop Hslice. generalize (frame der ++ rest). intros input Hc Hlen Hdrop Hslice.
  funelim (decodeDERCertArray input); try lia. by rewrite Hc, Hslice.
Qed.

Lemma count_frame der rest : is_der der -> countDERCerts (frame der ++ rest) = S (countDERCerts rest).
Proof.
  intros [Hpos Hl]. pose proof (certLen_frame der rest Hl) as Hc.
  assert (length (frame der ++ rest) = 4 + length der + length rest)%nat as Hlen by (by rewrite length_app, length_frame).
  pose proof (drop_frame der rest) as Hdrop.
  revert Hc Hlen Hdrop. generalize (frame der ++ rest). intros input Hc Hlen Hdrop.
  funelim (countDERCerts input); try lia. by rewrite Hc.
Qed.

(** What is read is the input. *)
Lemma decode_inv input certs :
  Forall is_byte input -> decodeDERCertArray input = Ok certs -> Forall is_der certs /\ input = concat (map frame certs).
Proof.
  intros Hb. revert certs. funelim (decodeDERCertArray input); intros certs; rewrite <- ?Heqcall; try done.
  - intros [= <-]. by destruct input; [|cbn in *; lia].
  - destruct (decodeDERCertArray (drop (4 + certLen input) input)) as [cs|e|] eqn:Ed; [|done..].
    cbn [obind]. intros [= <-]. destruct (H (Forall_drop _ _ _ Hb) cs eq_refl) as (Hd & Hin).
    split; [|cbn [map concat]; rewrite <- Hin; by apply frame_split].
    constructor; [|done]. unfold is_der. change (S (S (S (S (certLen input))))) with (4 + certLen input)%nat.
    assert (length (slice 4 (4 + certLen input) input) = certLen input) as -> by (unfold slice; rewrite length_take, length_drop; lia).
    split; [done|]. pose proof (get_be_range (take 4 input) (Forall_take _ _ _ Hb)) as Hr. unfold certLen in *.
    rewrite length_take, Nat.min_l in Hr by lia. change (256 ^ Z.of_nat 4) with (2 ^ 32) in Hr. lia.
Qed.

Lemma count_frames certs : Forall is_der certs -> countDERCerts (concat (map frame certs)) = length certs.
Proof.
  induction 1 as [|der certs Hd _ IH]; cbn [map concat length].
  - by simp countDERCerts.
  - by rewrite count_frame, IH.
Qed.

Lemma decode_frames certs : Forall is_der certs -> decodeDERCertArray (concat (map frame certs)) = Ok certs.
Proof.
  induction 1 as [|der certs Hder _ IH]; cbn [map concat]; [by simp decodeDERCertArray|]. by rewrite decode_frame, IH.
Qed.

(** The array of certificates is read exactly.  Framed certificates are read
    back, and whatever is read is the framing of the whole input; the price,
    which comes from a parser of its own, is the base and one unit for each
    certificate that the run will read. *)
Theorem cert_array_exact (input : bytes) (certs : list bytes) :
  (Forall is_der certs -> input = concat (map frame certs) -> decodeDERCertArray input = Ok certs) /\
  (Forall is_byte input -> decodeDERCertArray input = Ok certs ->
   Forall is_der certs /\ input = concat (map frame certs) /\
   x509_RequiredGas input = X509VerifyBaseGas + Z.of_nat (length certs) * X509VerifyPerCertGas).
Proof.
  split.
  - intros Hd ->. by apply decode_frames.
  - intros Hb Hdec. destruct (decode_inv input certs Hb Hdec) as [Hd ->]. split; [done|]. split; [done|].
    unfold x509_RequiredGas. rewrite (count_frames certs Hd). by destruct certs.
Qed.

Lemma cert_array_exact_witness :
  decodeDERCertArray [0; 0; 0; 2; 48; 130; 0; 0; 0; 1; 5] = Ok [[48; 130]; [5]] /\
  x509_RequiredGas [0; 0; 0; 2; 48; 130; 0; 0; 0; 1; 5] = 150000.
Proof.
  destruct (cert_array_exact [0; 0; 0; 2; 48; 130; 0; 0; 0; 1; 5] [[48; 130]; [5]]) as [Hdec Hinv].
  assert (decodeDERCertArray [0; 0; 0; 2; 48; 130; 0; 0; 0; 1; 5] = Ok [[48; 130]; [5]]) as Hd.
  { apply Hdec; [|done]. repeat constructor; cbn; lia. }
  split; [exact Hd|]. apply Hinv; [|exact Hd]. repeat (constructor; [unfold is_byte; lia|]). constructor.
Defined.

(** ** What the run reports *)

Lemma get_be_zeros n (b : bytes) acc : acc = 0 -> get_be (repeat 0 n ++ b) acc = get_be b 0.
Proof. intros ->. by induction n. Qed.

Lemma big_Bytes_spec z : Z.abs z < 2 ^ 256 -> get_be (big_Bytes z) 0 = Z.abs z /\ (length (big_Bytes z) <= 32)%nat.
Proof.
  intros Hz. unfold big_Bytes. rewrite get_be_strip, get_put_be, Z.mul_0_l, Z.add_0_l.
  set (n := (Z.to_nat (Z.log2 (Z.abs z) / 8) + 1)%nat). pose proof (Z.log2_nonneg (Z.abs z)) as Hl.
  assert (Z.of_nat n = Z.log2 (Z.abs z) / 8 + 1) as Hn.
  { unfold n. rewrite Nat2Z.inj_add, Z2Nat.id by (apply Z.div_pos; lia). done. }
  split.
  - apply Z.mod_small. split; [lia|]. rewrite Hn. destruct (Z.eq_dec (Z.abs z) 0) as [->|Hnz]; [done|].
    change 256 with (2 ^ 8). rewrite <- Z.pow_mul_r by (try apply Z.add_nonneg_nonneg; try apply Z.div_pos; lia).
    pose proof (Z.log2_spec (Z.abs z) ltac:(lia)) as [_ Hs]. eapply Z.lt_le_trans; [exact Hs|]. apply Z.pow_le_mono_r; [lia|].
    pose proof (Z.div_mod (Z.log2 (Z.abs z)) 8 ltac:(lia)). pose proof (Z.mod_pos_bound (Z.log2 (Z.abs z)) 8 ltac:(lia)). lia.
  - pose proof (length_strip (put_be n (Z.abs z))) as Hs. rewrite length_put_be in Hs.
    assert (Z.log2 (Z.abs z) < 256) as Hlt by (destruct (Z.eq_dec (Z.abs z) 0) as [->|]; [done|apply Z.log2_lt_pow2; lia]).
    assert (Z.log2 (Z.abs z) / 8 < 32) by (apply Z.div_lt_upper_bound; lia). lia.
Qed.

(** A field of 32 bytes. *)
Lemma field_spec z rest : Z.abs z < 2 ^ 256 ->
  get_be (take 32 (LeftPadBytes (big_Bytes z) 32 ++ rest)) 0 = Z.abs z /\
  drop 32 (LeftPadBytes (big_Bytes z) 32 ++ rest) = rest.
Proof.
  intros Hz. destruct (big_Bytes_spec z Hz) as [Hg Hl].
  assert (length (LeftPadBytes (big_Bytes z) 32) = 32%nat) as H32.
  { unfold LeftPadBytes. rewrite length_app, repeat_length. lia. }
  rewrite take_app_length', drop_app_length' by done. split; [|done]. unfold LeftPadBytes. by rewrite get_be_zeros.
Qed.

Section X509.
Context {Cert : Type} `{X509Lib Cert}.

Lemma parse_all_ok ders certs :
  parse_all ders = Ok certs -> Forall2 (fun der c => x509_ParseCertificate der = Ok c) ders certs.
Proof.
  revert certs. induction ders as [|der ders IH]; intros certs; cbn; [by intros [= <-]|].
  destruct (x509_ParseCertificate der) eqn:E; [|done..]. destruct (parse_all ders); [|done..]. cbn. intros [= <-]. by constructor; [|apply IH].
Qed.

Lemma check_chain_ok certs :
  check_chain certs = Ok tt ->
  forall i c c', certs !! i = Some c -> certs !! S i = Some c' -> exists u, x509_CheckSignatureFrom c c' = Ok u.
Proof.
  induction certs as [|c0 [|c1 certs] IH]; intros Hc i c c' Hi Hi'; [done|by destruct i|]. cbn [check_chain] in Hc.
  destruct (x509_CheckSignatureFrom c0 c1) as [u|e|] eqn:E; [|done..]. destruct i as [|i]; [|by apply (IH Hc i)].
  cbn in Hi, Hi'. injection Hi as <-. injection Hi' as <-. by exists u.
Qed.

(** What the certificate contract returns is of the first certificate of a chain
    in which every certificate is signed by the next one: the coordinates of its
    key, its serial number, each in 32 bytes, and its first organizational unit. *)
Theorem x509_reports_subject input out :
  x509_Run input = Ok out ->
  exists ders certs subject x y,
    decodeDERCertArray input = Ok ders /\ Forall2 (fun der c => x509_ParseCertificate der = Ok c) ders certs /\
    head certs = Some subject /\ cert_PublicKey subject = Some (x, y) /\
    (forall i c c', certs !! i = Some c -> certs !! S i = Some c' -> exists u, x509_CheckSignatureFrom c c' = Ok u) /\
    (0 <= x < 2 ^ 256 -> 0 <= y < 2 ^ 256 -> 0 <= cert_SerialNumber subject < 2 ^ 256 ->
     get_be (slice 0 32 out) 0 = x /\ get_be (slice 32 64 out) 0 = y /\
     get_be (slice 64 96 out) 0 = cert_SerialNumber subject /\
     drop 96 out = default [] (head (cert_OrganizationalUnit subject))).
Proof.
  unfold x509_Run. destruct (decodeDERCertArray input) as [ders|e|]; [|done..]. cbn [obind].
  destruct (length ders =? 0)%nat; [done|]. destruct (parse_all ders) as [certs|e|] eqn:Ep; [|done..]. cbn [obind].
  destruct (check_chain certs) as [[]|e|] eqn:Ec; [|done..]. cbn [obind]. destruct certs as [|subject certs]; [done|].
  destruct (cert_PublicKey subject) as [[x y]|] eqn:Ek; [|done]. intros Hout. injection Hout as <-.
  exists ders, (subject :: certs), subject, x, y. split; [done|]. split; [by apply parse_all_ok|]. split; [done|]. split; [done|].
  split; [by apply check_chain_ok|]. intros Hx Hy Hs. set (ou := match cert_OrganizationalUnit subject with u :: _ => u | [] => [] end).
  destruct (field_spec x (LeftPadBytes (big_Bytes y) 32 ++ LeftPadBytes (big_Bytes (cert_SerialNumber subject)) 32 ++ ou)) as [Hx1 Hx2]; [lia|].
  destruct (field_spec y (LeftPadBytes (big_Bytes (cert_SerialNumber subject)) 32 ++ ou)) as [Hy1 Hy2]; [lia|].
  destruct (field_spec (cert_SerialNumber subject) ou) as [Hs1 Hs2]; [lia|]. rewrite Z.abs_eq in Hx1, Hy1, Hs1 by lia.
  unfold slice. cbn [Nat.sub]. rewrite drop_0, Hx1, Hx2, Hy1. change 64%nat with (32 + 32)%nat at 1. change 96%nat with (32 + (32 + 32))%nat.
  rewrite <- !drop_drop, Hx2, Hy2, Hs1, Hs2. repeat split. unfold ou. by destruct (cert_OrganizationalUnit subject).
Qed.

End X509.

(** ** Certificates of four bytes: key, serial number, and the two signers *)

Module X509Witness.

#[local] Instance toy_x509 : X509Lib (Z * Z * Z * Z) := {
  P256_IsOnCurve _ _ := true;
  ecdsa_Verify _ _ _ _ := true;
  x509_ParseCertificate b :=
    match b with [k; n; me; by_] => Ok (k, n, me, by_) | _ => Err (GoError "x509: malformed certificate") end;
  x509_CheckSignatureFrom c p :=
    let '(_, _, _, by_) := c in let '(_, _, me, _) := p in
    if by_ =? me then Ok tt else Err (GoError "x509: ECDSA verification failure");
  cert_PublicKey c := let '(k, _, _, _) := c in Some (k, k + 1);
  cert_SerialNumber c := let '(_, n, _, _) := c in n;
  cert_OrganizationalUnit c := [[79; 85]];
}.

Definition input2 : bytes := [0; 0; 0; 4; 10; 20; 1; 2; 0; 0; 0; 4; 11; 21; 2; 2].
Definition out2 : bytes := repeat 0 31 ++ [10] ++ repeat 0 31 ++ [11] ++ repeat 0 31 ++ [20] ++ [79; 85].

Lemma input2_decodes : decodeDERCertArray input2 = Ok [[10; 20; 1; 2]; [11; 21; 2; 2]].
Proof. apply (decode_frames [[10; 20; 1; 2]; [11; 21; 2; 2]]). repeat constructor; cbn; lia. Qed.

Lemma x509_reports_subject_witness : drop 96 out2 = [79; 85] /\ get_be (slice 0 32 out2) 0 = 10.
Proof.
  assert (x509_Run input2 = Ok out2) as Hrun by (unfold x509_Run; rewrite input2_decodes; by vm_compute).
  destruct (x509_reports_subject input2 out2 Hrun) as (ders & certs & subject & x & y & Hd & Hp & Hh & Hk & _ & Hf).
  rewrite input2_decodes in Hd. injection Hd as <-.
  inversion Hp as [|? c ? cs Hc _]; subst. injection Hc as <-. injection Hh as <-. injection Hk as <- <-.
  destruct Hf as (H1 & _ & _ & H2); [cbn; lia..|]. by split.
Defined.

End X509Witness.
