(* ===== verification/BlockProps.v ===== *)
(** * BlockProps: the transactions of a block

    From the delivered bytes to the accounts after the block: whatever order the
    goroutines of the preparer work in, a block of transfers has the effect of
    the abstract transfers one after another, and nothing else; and a block with
    a transaction that gets no context stops the application. *)
From stdpp Require Import base gmap list strings.
From Stdlib Require Import ZArith Lia.
From S2P Require Import Prelude XErrors GoMonad LedgerKeys Iavl Ledger LedgerSpec LedgerOps.
From S2P Require Import Units HexBytes Proto GovParams Account TrxTypes Signer AcctCtrler AcctSpec AcctProps.
From S2P Require Import VPowerItems VPowerCtrler Proposal GovCtrler Numbers SupplyCtrler.
From S2P Require Import TrxCtx MetaDB TrxExecutor Bank TrxPreparer App Making ToyNode.

Section Blocks.
Context {T I : Type} `{Iavl T I}.
Context `{Proto AcctProto, GovProtos, GovJson, VPowerProtos, SupplyProtos, TrxProtos, CryptoLib, RlpLib, TmHash}.
Context {GP : Type} `{GasPoolLib GP}.
Context {E : Type} `{!IEVMHandler E GP (AcctCtrler T I)}.
Context {D : Type} `{TmDB D, BctxJson, ChainIdText, GenesisJson}.
Abbreviation Nd := (Node T I E GP D).
Abbreviation Res := (list (option (resultValue TrxContext ResponseDeliverTx))).
Implicit Types (n s : Node T I E GP D) (rs : list (option (resultValue TrxContext ResponseDeliverTx))).

(** C35. A delivered transaction for which no context can be made stops the
    application: whatever the order of the goroutines, [EndBlock] finds that the
    results are more than the transactions counted in the block and panics,
    although such a transaction is meant to be recorded in the block as
    invalid. *)
Theorem failed_context_halts k n0 b0 reqs tp n i r resp :
  prep_reach onPrepare k n0 reqs (tp, n) -> nd_curr n0 = Some b0 -> bc_txsCnt b0 = 0 ->
  Z.of_nat (length reqs) < 2 ^ 63 ->
  tp_WaitGroup tp = 0 -> tp_resultValues tp !! i = Some (Some r) -> rv_out r = inr resp ->
  fst (EndBlock (tp, n)) = Panic.
Proof.
  intros Hr Hb0 Hc0 Hlen Hw Hi Hout. pose proof (counted_reach _ _ _ _ _ _ Hr Hb0 Hc0) as (b & Hb & Hc).
  destruct (results_complete _ _ _ _ _ _ Hr Hw) as [Hcnt _]. pose proof (made_lt _ _ _ _ Hi Hout) as Hlt.
  unfold EndBlock, execTrxs, the_curr, bind, gets, zoom. cbn [fst snd lget snd_lens]. rewrite Hb.
  cbn. unfold ret. cbn. rewrite Hc, i64_id by (unfold in_i64, tp_resultCount in *; lia).
  unfold tp_resultCount in *. destruct (Z.eqb_spec (Z.of_nat (length (tp_resultValues tp))) (Z.of_nat (made (tp_resultValues tp)))); [lia|].
  done.
Qed.

End Blocks.

(** ** Transfers *)

Section Transfers.
Context {T I : Type} `{Iavl T I, !IavlLaws T I}.
Context `{Utf8, Proto AcctProto, !ProtoLaws AcctProto AcctProto_ok}.
Context `{GovProtos, GovJson, VPowerProtos, SupplyProtos, TrxProtos, CryptoLib, RlpLib, TmHash}.
Context {GP : Type} `{GasPoolLib GP, !GasPoolLaws GP}.
Context {E : Type} `{!IEVMHandler E GP (AcctCtrler T I)}.
Context {D : Type} `{TmDB D, BctxJson, ChainIdText, GenesisJson}.
Implicit Types (n s : Node T I E GP D) (b : bank) (P : gmap Address loc) (c : TrxContext).

(** The node has the accounts, the gas and the fees of [b], and its objects are
    those of [P]. *)
Definition node_bank P (gp : GovParamsProto) n b : Prop :=
  exists bc, nd_curr n = Some bc /\ views P ∅ (ch_acct (nd_chain n)) (bk_accts b) /\
    gas_Gas (bc_blockGasPool bc) = bk_gas b /\ bc_feeSum bc = bk_fees b /\ govParams (ch_gov (nd_chain n)) = gp.

(** Only accounts, gas and fees differ. *)
Definition only_money n n' : Prop :=
  exists bc a' pool fees, nd_curr n = Some bc /\
    n' = MkNode (lset acct_of a' (nd_chain n)) (nd_last n)
           (Some (MkBlockContext (bc_blockInfo bc) (bc_blockSizeLimit bc) (bc_blockGasLimit bc) pool fees
              (bc_txsCnt bc) (bc_appHash bc) (bc_ValUpdates bc))) (nd_meta n) (nd_signers n) (nd_interval n).

Lemma only_money_refl n bc : nd_curr n = Some bc -> only_money n n.
Proof.
  intros Hb. exists bc, (ch_acct (nd_chain n)), (bc_blockGasPool bc), (bc_feeSum bc). split; [done|].
  destruct n as [[] ? [[]|] ? ? ?]; cbn in *; [|done]. by injection Hb as <-.
Qed.

Lemma only_money_trans n1 n2 n3 : only_money n1 n2 -> only_money n2 n3 -> only_money n1 n3.
Proof.
  intros (bc & a' & pool & fees & Hb & ->) (bc2 & a2 & pool2 & fees2 & Hb2 & ->). cbn in Hb2. injection Hb2 as <-.
  exists bc, a2, pool2, fees2. by split.
Qed.

Lemma Code_DeliverTx e : Code (Wrap ErrDeliverTx e) = ErrCodeDeliverTx.
Proof. done. Qed.

(** One delivered transfer. *)
Lemma wp_asyncExec_transfer P gp b payer c n :
  node_bank P gp n b -> bank_ok b -> transfer_ctx P payer c -> tx_GasPrice (tc_Tx c) = GovParams.GasPrice gp ->
  acct_Code (acct_at (bk_accts b) (tx_To (tc_Tx c))) = [] ->
  wp (asyncExecTrxContext c) (okQ (fun resp n' => only_money n n' /\
    match bank_transfer b (tc_Tx c) payer with
    | Some b' => rd_Code resp = CodeTypeOK /\ rd_GasUsed resp = tx_Gas (tc_Tx c) /\ node_bank P gp n' b'
    | None => rd_Code resp = ErrCodeDeliverTx /\ node_bank P gp n' b
    end)) n.
Proof.
  intros (bc & Hbc & HV & Hgas & Hfees & Hgp) (Hok & Hg & Hf0 & Htot) HC Hprice Hcode.
  unfold asyncExecTrxContext, the_curr. apply wp_bind, wp_bind, wp_gets. rewrite Hbc. apply wp_ret, wp_bind.
  pose proof (wp_ExecuteSync_transfer P (bk_accts b) (bk_fees b) payer (MkXState c bc (nd_chain n)) HV HC) as Hx.
  unfold gas_in in Hx. cbn [x_bctx x_ctx x_chain] in Hx. rewrite Hgas in Hx.
  specialize (Hx ltac:(lia) ltac:(lia) Hcode). replace (MkBank _ _ _) with b in Hx by (by destruct b).
  unfold run_trx. unfold wp at 1. unfold wp in Hx. destruct (ExecuteSync _) as [o x'] eqn:Ex. cbn [fst snd] in Hx.
  destruct (bank_transfer b (tc_Tx c) payer) as [b'|] eqn:Eb.
  - destruct Hx as (-> & s' & p' & -> & HV' & Hp'). cbn [fst snd x_ctx x_bctx x_chain]. unfold n_govParams.
    apply wp_bind, wp_gets, wp_bind, wp_modify, wp_ret. cbn [nd_chain node_chain lset ch_gov acct_of]. rewrite Hgp.
    destruct (fee_mul (tc_Tx c)) as (_ & Hfee & Hfee0); [apply HC..|]. cbn [set_GasUsed tc_GasUsed add_Events tc_Tx].
    rewrite <- Hprice, Hfee. split; [|split; [done|split; [done|]]].
    + eexists bc, s', p', _. split; [done|]. unfold set_curr, AddFee; cbn. reflexivity.
    + eexists. split; [done|]. cbn. split; [done|]. split; [done|]. split; [|done]. rewrite Hfees.
      unfold bank_transfer in Eb. destruct (acceptable _ _ _) eqn:Eacc; [|done]. injection Eb as <-. cbn.
      apply u256_id. unfold in_u256. unfold acceptable, affordable in Eacc. rewrite !andb_true_iff in Eacc.
      assert (fee_of (tc_Tx c) <= total (bk_accts b)).
      { pose proof (bal_le_total (bk_accts b) payer Hok). pose proof (xc_amount _ _ _ HC).
        case_bool_decide; subst; lia. }
      lia.
  - destruct Hx as ([e ->] & ->). cbn [fst snd x_ctx x_bctx x_chain].
    apply wp_bind, wp_modify, wp_ret. replace (set_curr _ _) with n.
    + split; [by eapply only_money_refl|]. split; [apply Code_DeliverTx|]. by exists bc.
    + destruct n; cbn in *. unfold set_curr; cbn. by rewrite Hbc.
Qed.

Definition is_transfer (_ : bytes) (tx : Trx) : Prop := GetType tx = TRX_TRANSFER.

Lemma views_sane P (a : AcctCtrler T I) v payer c :
  views P ∅ a v -> native_ctx P payer c -> tx_sane (tc_Tx c) /\ length payer = AddrSize.
Proof.
  intros HV HC. split; [|apply (vw_ptr _ _ _ _ HV _ _ (xc_payer _ _ _ HC))].
  split; [apply (vw_ptr _ _ _ _ HV _ _ (xc_from _ _ _ HC))|].
  split; [apply (vw_ptr _ _ _ _ HV _ _ (xc_to _ _ _ HC))|]. repeat split; apply HC.
Qed.

Lemma wp_exec_results P gp rs ts idx b n :
  Forall2 (result_of is_transfer P gp) rs ts -> (forall i r, rs !! i = Some (Some r) -> rv_idx r = (idx + i)%nat) ->
  node_bank P gp n b -> bank_ok b -> plain b ts ->
  wp (exec_results idx rs) (okQ (fun calls n' => only_money n n' /\
    calls_of rs calls (fst (bank_run b ts)) /\ node_bank P gp n' (snd (bank_run b ts)) /\
    bank_ok (snd (bank_run b ts)))) n.
Proof.
  intros HF. revert idx b n.
  induction HF as [|o [tx payer] rs ts (r & c & -> & Hout & Htx & HN0 & Hty & Hpr) HF IH]; intros idx b n Hidx HN Hok Hpl.
  { apply wp_ret. pose proof HN as (bc & Hbc & _). split; [by eapply only_money_refl|].
    split; [by split; constructor|]. by split. }
  cbn [fst snd] in *. subst tx. assert (transfer_ctx P payer c) as HC by (by split). apply Forall_cons in Hpl as [Hcode Hpl]. cbn [exec_results].
  rewrite (Hidx 0%nat r eq_refl), Nat.add_0_r, Nat.eqb_refl. cbn [negb]. rewrite Hout.
  apply wp_bind. eapply wp_mono; [apply (wp_asyncExec_transfer P gp b payer c n HN Hok HC Hpr Hcode)|].
  intros [resp|e|] n1; unfold okQ at 1; try done. intros [Hm1 Hres].
  assert (Hrest : forall b1, node_bank P gp n1 b1 -> bank_ok b1 -> plain b1 ts ->
    forall ok : bool, rd_Code resp = (if ok then CodeTypeOK else ErrCodeDeliverTx) ->
    wp (let! rest := exec_results (S idx) rs in ret ((rv_req r, resp) :: rest)) (okQ (fun calls n' => only_money n n' /\
      calls_of (Some r :: rs) calls (ok :: fst (bank_run b1 ts)) /\ node_bank P gp n' (snd (bank_run b1 ts)) /\
      bank_ok (snd (bank_run b1 ts)))) n1).
  { intros b1 HN1 Hok1 Hpl1 ok Hcode1. apply wp_bind. eapply wp_mono; [apply (IH (S idx) b1 n1); try done|].
    - intros i r' Hi. rewrite (Hidx (S i) r' Hi). lia.
    - intros [rest|e|] n2; unfold okQ at 1; try done. intros (Hm2 & [Hc1 Hc2] & HN2 & Hok2). apply wp_ret.
      split; [by eapply only_money_trans|]. split; [split; constructor; eauto|]. by split. }
  cbn [bank_run]. destruct (bank_transfer b (tc_Tx c) payer) as [b'|] eqn:Eb.
  - destruct Hres as (Hc1 & _ & HN1). destruct HN as (bc & _ & HV & _).
    destruct (views_sane P _ _ _ _ HV HC) as [Hsane Hpay].
    destruct (bank_transfer_ok b _ _ b' Hok Hsane Hpay Eb) as (Hok' & _ & Hsame & _).
    cbn [fst snd]. apply Hrest; [done..| |done]. by apply (plain_code b).
  - destruct Hres as (Hc1 & HN1). cbn [fst snd]. by apply Hrest.
Qed.

(** ** A block of transfers *)

Definition bank_at (b0 : BlockContext GP) (m : accts_map) : bank :=
  MkBank m (gas_Gas (bc_blockGasPool b0)) (bc_feeSum b0).

(** A block that starts in the node [n0] with the context [b0] and the accounts
    [m] has delivered the requests [reqs], the transfers [ts]; the goroutines
    have worked, in whatever order, to the preparer [tp] and the node [n], and
    nothing is left to do for them. *)
Record transfer_block (k : nat) n0 (b0 : BlockContext GP) m (reqs : list bytes) (ts : list (Trx * Address))
    (tp : TrxPreparer TrxContext ResponseDeliverTx) n : Prop := {
  tb_reach : prep_reach onPrepare k n0 reqs (tp, n);
  tb_wait : tp_WaitGroup tp = 0;
  tb_curr : nd_curr n0 = Some b0;
  tb_count : bc_txsCnt b0 = 0;
  tb_size : Z.of_nat (length reqs) < 2 ^ 63;
  tb_accts : ainv ∅ (ch_acct (nd_chain n0)) m;
  tb_new : newbiesDeliver (ch_acct (nd_chain n0)) = ∅;
  tb_txs : Forall2 (opens is_transfer (nd_signers n0) (govParams (ch_gov (nd_chain n0))) m) reqs ts;
  tb_bank : bank_ok (bank_at b0 m);
  tb_plain : plain (bank_at b0 m) ts;
}.

Lemma opens_sane n0 m reqs ts :
  Forall2 (opens is_transfer (nd_signers n0) (govParams (ch_gov (nd_chain n0))) m) reqs ts -> sane_all ts.
Proof.
  intros HF. induction HF as [|req t reqs ts (pub & p & _ & _ & Hl & _ & Hs & _) _ IH]; constructor; [by split|exact IH].
Qed.

Lemma wp_execTrxs k n0 (b0 : BlockContext GP) m reqs ts tp n :
  transfer_block k n0 b0 m reqs ts tp n ->
  wp execTrxs (okQ (fun calls st' =>
    map fst calls = reqs /\
    Forall2 (fun call (ok : bool) => rd_Code (snd call) = if ok then CodeTypeOK else ErrCodeDeliverTx)
      calls (fst (bank_run (bank_at b0 m) ts)) /\
    fst st' = tp_reset tp /\ only_money n (snd st') /\
    exists P, node_bank P (govParams (ch_gov (nd_chain n0))) (snd st') (snd (bank_run (bank_at b0 m) ts)))) (tp, n).
Proof.
  intros [Hr Hw Hb0 Hc0 Hlen HI Hnew HF Hok Hpl].
  destruct (made_results is_transfer k n0 b0 m reqs ts tp n Hr Hb0 HI Hnew HF Hw) as (P & a' & bc1 & Hmade0 & HV & Hres & Hreq).
  assert (node_bank P (govParams (ch_gov (nd_chain n0))) n (bank_at b0 m)) as HN.
  { destruct Hmade0 as (-> & _ & Hpl1 & Hf1). exists bc1. cbn. by rewrite Hpl1, Hf1. }
  apply (wp_execTrxs_made is_transfer k n0 b0 P (govParams (ch_gov (nd_chain n0))) reqs ts tp n); [done..|]. intros Hidx.
  eapply wp_mono; [apply (wp_exec_results P _ _ ts 0 (bank_at b0 m) n Hres); done|].
  intros [calls|e|] n'; unfold okQ; try done. intros (Hm & Hcalls & HN' & _).
  split; [by eapply calls_requests|]. split; [apply Hcalls|]. split; [done|]. split; [done|]. by exists P.
Qed.

(** C3. A block of transfers refines the abstract bank.  However the goroutines
    that make the contexts interleave, running the transactions at the end of
    the block never panics or fails; the engine's callback is called once per
    request, in the order of delivery, with success for exactly the transfers
    the abstract bank accepts one after another; accounts, gas left and fees
    afterwards are the bank's, nothing else of the node changes, and coins in
    accounts plus fees are as many as before. *)
Theorem block_of_transfers k n0 (b0 : BlockContext GP) m reqs ts tp n :
  transfer_block k n0 b0 m reqs ts tp n ->
  wp execTrxs (okQ (fun calls st' =>
    map fst calls = reqs /\
    Forall2 (fun call (ok : bool) => rd_Code (snd call) = if ok then CodeTypeOK else ErrCodeDeliverTx)
      calls (fst (bank_run (bank_at b0 m) ts)) /\
    fst st' = tp_reset tp /\ only_money n (snd st') /\
    (exists P, node_bank P (govParams (ch_gov (nd_chain n0))) (snd st') (snd (bank_run (bank_at b0 m) ts))) /\
    total (bk_accts (snd (bank_run (bank_at b0 m) ts))) + bk_fees (snd (bank_run (bank_at b0 m) ts))
      = total m + bc_feeSum b0)) (tp, n).
Proof.
  intros HB. eapply wp_mono; [apply (wp_execTrxs _ _ _ _ _ _ _ _ HB)|].
  intros [calls|e|] st'; unfold okQ; try done. intros (H1' & H2' & H3' & H4' & H5').
  destruct (bank_run_conserves ts (bank_at b0 m)) as [_ Hc]; [apply HB|apply (opens_sane _ _ _ _ (tb_txs _ _ _ _ _ _ _ _ HB))|].
  auto 10.
Qed.

(** C32. Waiting for the goroutines of a block ends.  From any state of the preparer
    that the delivered requests and the turns of the goroutines lead to, every run
    of [k] turns brings the wait group down by [k], which is never negative, so a
    run has no more turns than requests wait; and while it is not at zero some
    goroutine has work.  A goroutine with work completes its turn and records the
    context or the response, unless the checks of the transaction panic before they
    look at the accounts, as those of a signature of less than 65 bytes do; then the
    turn panics.  So when no delivered transaction does that, the runs that cannot
    go on are those that brought the wait group to zero. *)
Theorem wait_terminates w n0 (b0 : BlockContext GP) m reqs tp n k tp' n' :
  nd_curr n0 = Some b0 -> ainv ∅ (ch_acct (nd_chain n0)) m ->
  prep_reach onPrepare w n0 reqs (tp, n) -> prep_run onPrepare k (tp, n) (tp', n') ->
  let opened := open_trx (nd_signers n0) (govParams (ch_gov (nd_chain n0))) in
  (tp_WaitGroup tp' = tp_WaitGroup tp - Z.of_nat k /\ 0 <= tp_WaitGroup tp') /\
  (tp_WaitGroup tp' = 0 <-> forall i, ~ enabled tp' i) /\
  (forall i p q, tp_chReqParams tp' !! i = Some (p :: q) ->
     match opened (rp_req p) with
     | Panic => fst (trxPreparerRoutine onPrepare i (tp', n')) = Panic
     | _ => exists tp2 n2 out, trxPreparerRoutine onPrepare i (tp', n') = (Ok tt, (tp2, n2)) /\
         tp_resultValues tp2 !! rp_idx p = Some (Some (MkResultValue (rp_idx p) (rp_req p) out))
     end) /\
  (Forall (fun req => opened req <> Panic) reqs ->
     tp_WaitGroup tp' = 0 <-> forall st, ~ prep_step onPrepare (tp', n') st).
Proof.
  intros Hb HI Hr Hrun opened. assert (preparing n0 m n0) as H0' by (split; [by exists b0|done]).
  pose proof (run_reach _ _ _ _ _ _ _ Hr Hrun) as Hr'. pose proof (preparing_reach _ _ _ _ _ _ H0' Hr') as Hn.
  pose proof (prep_reach_ok _ _ _ _ _ Hr') as Hok. cbn [fst] in Hok.
  destruct (run_waits onPrepare reqs k tp n tp' n' (prep_reach_ok _ _ _ _ _ Hr) Hrun) as (Hw & Hpos & Hz).
  assert (forall i p q, tp_chReqParams tp' !! i = Some (p :: q) ->
     match opened (rp_req p) with
     | Panic => fst (trxPreparerRoutine onPrepare i (tp', n')) = Panic
     | _ => exists tp2 n2 out, trxPreparerRoutine onPrepare i (tp', n') = (Ok tt, (tp2, n2)) /\
         tp_resultValues tp2 !! rp_idx p = Some (Some (MkResultValue (rp_idx p) (rp_req p) out))
     end) as Hturn.
  { intros i p q Hq. pose proof (turn_result onPrepare reqs i tp' n' p q Hok Hq) as Ht.
    pose proof (onPrepare_returns n0 m n' (rp_req p) (rp_idx p) Hn) as Hret. fold (opened (rp_req p)) in Hret.
    destruct (opened (rp_req p)) as [x|e|].
    1,2: destruct Hret as (out & n2 & Eo & _); rewrite Eo in Ht; destruct Ht as (tp2 & Ht); eauto.
    destruct (onPrepare _ _ n') as [[out|e|] n2]; cbn in Hret; [done..|]. by rewrite Ht. }
  split; [done|]. split; [done|]. split; [exact Hturn|]. intros Hall. rewrite Hz. split.
  - intros Hno st Hs. inversion Hs as [i ? ? ? He]; subst. by apply (Hno i).
  - intros Hno i (p & q & Hq). pose proof (Hturn i p q Hq) as Ht.
    assert (opened (rp_req p) <> Panic) as Hp.
    { rewrite Forall_forall in Hall. apply Hall. destruct (ok_pending _ _ Hok p) as [Hreq _];
        [rewrite (pending_work tp' i p q Hq); by left|]. by eapply list_elem_of_lookup_2. }
    destruct (opened (rp_req p)) as [x|e|]; [| |done];
      destruct Ht as (tp2 & n2 & out & Ht & _); apply (Hno (tp2, n2)), (prep_work _ i); [by exists p, q|done|by exists p, q|done].
Qed.

End Transfers.

(** ** Four transactions, two goroutines *)

Module BlockWitness.
Import ToyNode.

Abbreviation Nd := (Node RefTree.tree (gmap bytes bytes) unit Z (gmap bytes bytes)).
Abbreviation TP := (TrxPreparer TrxContext ResponseDeliverTx).

Definition cb : bytes -> nat -> M Nd (TrxContext + ResponseDeliverTx) := onPrepare.

(** The requests are added, then the goroutines work in another order. *)
Definition reqs4 : list bytes := [[1]; [2]; [3]; [4]].
Definition start4 : TP * Nd := (deliver 2 reqs4, toy_node).
Definition worked : TP * Nd := default start4 (work cb [0; 1; 1; 0]%nat start4).

Lemma worked_reach : prep_reach cb 2 toy_node reqs4 worked.
Proof.
  apply (reach_work cb 2 toy_node reqs4 [0; 1; 1; 0]%nat start4); [|vm_compute; reflexivity].
  apply reach_deliver; [lia|unfold chanCap; cbn; lia].
Qed.

(** The transfers of the requests; their senders pay. *)
Definition opened (req : bytes) : Trx * Address :=
  match open_trx (nd_signers toy_node) GovParams.DefaultGovParams req with
  | Ok (tx, _, _) => (tx, tx_From tx)
  | _ => (MkTrx 0 0 0 [] [] 0 0 0 0 None [] [] [], [])
  end.
Definition txs4 : list (Trx * Address) := map opened reqs4.

Lemma opened_ok : Forall (fun req => opens is_transfer (nd_signers toy_node) GovParams.DefaultGovParams toy_map req (opened req)) reqs4.
Proof.
  assert (Hone : forall req pub, open_trx (nd_signers toy_node) GovParams.DefaultGovParams req = Ok (fst (opened req), pub, []) ->
    snd (opened req) = tx_From (fst (opened req)) -> length (tx_From (fst (opened req))) = AddrSize ->
    GetType (fst (opened req)) = TRX_TRANSFER -> tx_sane (fst (opened req)) ->
    is_Some (toy_map !! LedgerKeyAccount (tx_From (fst (opened req)))) ->
    opens is_transfer (nd_signers toy_node) GovParams.DefaultGovParams toy_map req (opened req)).
  { intros req pub Ho Hp Hl Ht Hs Hm. exists pub, []. rewrite Hp. do 5 (split; [done|]). by split. }
  assert (Hsane : Forall (fun req => tx_sane (fst (opened req))) reqs4).
  { repeat apply Forall_cons_2; [..|constructor]; (repeat split; vm_compute; congruence). }
  apply Forall_cons in Hsane as [Hs1 Hsane]. apply Forall_cons in Hsane as [Hs2 Hsane].
  apply Forall_cons in Hsane as [Hs3 Hsane]. apply Forall_cons in Hsane as [Hs4 _].
  repeat apply Forall_cons_2; [apply (Hone [1] (repeat 1 33))|apply (Hone [2] (repeat 1 33))|
    apply (Hone [3] (repeat 1 33))|apply (Hone [4] (repeat 2 33))|constructor];
    try assumption; try (vm_compute; reflexivity); (vm_compute; eexists; reflexivity).
Qed.

Lemma toy_block : transfer_block 2 toy_node toy_bctx toy_map reqs4 txs4 (fst worked) (snd worked).
Proof.
  split.
  - rewrite <- surjective_pairing. exact worked_reach.
  - vm_compute. reflexivity.
  - reflexivity.
  - reflexivity.
  - vm_compute. reflexivity.
  - exact toy_accounts_inv.
  - vm_compute. reflexivity.
  - unfold txs4. apply Forall2_fmap_r, Forall_Forall2_diag, opened_ok.
  - split; [exact (ainv_accts_ok _ _ _ toy_accounts_inv)|vm_compute; repeat split; congruence].
  - repeat apply Forall_cons_2; [vm_compute; reflexivity..|constructor].
Qed.

Lemma codes_of (calls : list (bytes * ResponseDeliverTx)) (oks : list bool) :
  Forall2 (fun call (ok : bool) => rd_Code (snd call) = if ok then CodeTypeOK else ErrCodeDeliverTx) calls oks ->
  map (fun call => rd_Code (snd call)) calls = map (fun ok : bool => if ok then 0 else ErrCodeDeliverTx) oks.
Proof. intros Hc. induction Hc as [|call ok calls oks Hc _ IH]; cbn; [done|]. by rewrite Hc, IH. Qed.

Lemma block_of_transfers_witness :
  wp execTrxs (okQ (fun calls c' =>
    map fst calls = reqs4 /\
    map (fun call => rd_Code (snd call)) calls = [0; ErrCodeDeliverTx; 0; 0] /\
    exists P b, node_bank P GovParams.DefaultGovParams (snd c') b /\ bal (bk_accts b) carol = 10 ^ 18)) (fst worked, snd worked).
Proof.
  eapply wp_mono; [exact (block_of_transfers 2 toy_node toy_bctx toy_map reqs4 txs4 (fst worked) (snd worked) toy_block)|].
  intros [calls|e|] c' Hc; [|destruct Hc|destruct Hc]. destruct Hc as (Hreq & Hcodes & _ & _ & [P HP] & _).
  split; [exact Hreq|]. split.
  - assert (E : fst (bank_run (bank_at toy_bctx toy_map) txs4) = [true; false; true; true]) by (vm_compute; reflexivity).
    rewrite E in Hcodes. exact (codes_of _ _ Hcodes).
  - eexists P, _. split; [exact HP|]. vm_compute. reflexivity.
Defined.

(** Two of the four transactions are prepared. *)
Definition half_worked : TP * Nd := default start4 (work cb [0; 1]%nat start4).

Lemma wait_terminates_witness :
  tp_WaitGroup (fst half_worked) = 2 /\
  (exists i, enabled (fst half_worked) i) /\ ~ forall c, ~ prep_step cb half_worked c.
Proof.
  destruct (wait_terminates 2 toy_node toy_bctx toy_map reqs4 (deliver 2 reqs4) toy_node 2 (fst half_worked) (snd half_worked))
    as ([Hw _] & He & _ & Hs).
  - reflexivity.
  - exact toy_accounts_inv.
  - apply reach_deliver; [lia|unfold chanCap; cbn; lia].
  - rewrite <- surjective_pairing. apply (run_work cb [0; 1]%nat start4). vm_compute. reflexivity.
  - assert (Hw2 : tp_WaitGroup (fst half_worked) = 2) by (rewrite Hw; vm_compute; reflexivity).
    split; [exact Hw2|]. split; [exists 0%nat; vm_compute; do 2 eexists; reflexivity|].
    rewrite <- surjective_pairing in Hs. intros Hno. rewrite <- Hs in Hno; [congruence|].
    apply Forall_forall. intros req Hreq. pose proof (proj1 (Forall_forall _ _) opened_ok req Hreq) as (pub & p & Ho & _).
    assert (Hg : govParams (ch_gov (nd_chain toy_node)) = GovParams.DefaultGovParams) by reflexivity. rewrite Hg, Ho. discriminate.
Defined.

(** Bytes that are not a transaction. *)
Definition garbled : TP * Nd := default (tp_start 2, toy_node) (work cb [0]%nat (deliver 2 [[0]], toy_node)).

Lemma failed_context_halts_witness : fst (EndBlock (fst garbled, snd garbled)) = Panic.
Proof.
  apply (failed_context_halts 2 toy_node toy_bctx [[0]] (fst garbled) (snd garbled) 0
    (MkResultValue 0 [0] (inr (MkResponseDeliverTx ErrCodeDeliverTx
      (Error (Wrap ErrDeliverTx (From_ (GoError "proto: cannot parse invalid wire-format data")))) 0 0 None [])))
    (MkResponseDeliverTx ErrCodeDeliverTx
      (Error (Wrap ErrDeliverTx (From_ (GoError "proto: cannot parse invalid wire-format data")))) 0 0 None []));
    [|reflexivity|reflexivity|reflexivity|vm_compute; reflexivity|vm_compute; reflexivity|reflexivity].
  rewrite <- surjective_pairing. apply (reach_work cb 2 toy_node [[0]] [0]%nat (deliver 2 [[0]], toy_node)); [|vm_compute; reflexivity].
  apply reach_deliver; [lia|unfold chanCap; cbn; lia].
Defined.

End BlockWitness.
