(* ===== verification/NativeProps.v ===== *)
(** * NativeProps: a block of native transactions

    Transfers, documents, stakings, unstakings, withdrawals and votes in any mix:
    whatever order the goroutines of the preparer work in, the end of the block
    runs them one after another on all ledgers of the chain; none of them panics
    or leaves a ledger damaged, nothing of the worth of the books appears or
    vanishes, and no transaction is executed twice. *)
From stdpp Require Import base gmap list strings.
From Stdlib Require Import ZArith Lia.
From S2P Require Import Prelude XErrors GoMonad LedgerKeys Iavl Ledger LedgerSpec LedgerOps.
From S2P Require Import Units HexBytes Proto GovParams Account TrxTypes Signer AcctCtrler AcctSpec AcctProps.
From S2P Require Import VPowerItems Limiter VPowerCtrler VPowerInv VPowerTrx VPowerProps.
From S2P Require Import Proposal GovCtrler GovInv GovWp GovProps Numbers SupplyCtrler SupplyProps.
From S2P Require Import TrxCtx MetaDB TrxExecutor Bank TrxPreparer App Making Books Native ToyNode.

Section NativeBlocks.
Context {T I : Type} `{Iavl T I, !IavlLaws T I}.
Context `{Utf8, Proto AcctProto, !ProtoLaws AcctProto AcctProto_ok}.
Context `{GovProtos, !GovProtosLaws, GovJson, !GovJsonLaws, VPowerProtos, !VPowerProtosLaws}.
Context `{SupplyProtos, !SupplyProtosLaws, TrxProtos, CryptoLib, RlpLib, TmHash}.
Context {GP : Type} `{GasPoolLib GP, !GasPoolLaws GP}.
Context {E : Type} `{!IEVMHandler E GP (AcctCtrler T I)}.
Context {D : Type} `{TmDB D, BctxJson, ChainIdText, GenesisJson}.
Implicit Types (n : Node T I E GP D) (b : books) (L : ledgers) (P : gmap Address loc) (c : TrxContext).

(** The node has the books [b] at the height [h], and its objects are those of [P]. *)
Definition node_books P (gp : GovParamsProto) (h : Z) n b : Prop :=
  exists bc, nd_curr n = Some bc /\ bc_Height bc = h /\ in_i64 h /\ 0 <= h /\
    chain_keeps P gp h (nd_chain n) (bo_led b) (bo_fees b) /\
    gas_Gas (bc_blockGasPool bc) = bo_gas b /\ bo_gas b < 2 ^ 63 /\ bc_feeSum bc = bo_fees b.

(** Only the controllers and the block's gas and fees differ. *)
Definition same_node n n' : Prop :=
  nd_last n' = nd_last n /\ nd_meta n' = nd_meta n /\ nd_signers n' = nd_signers n /\ nd_interval n' = nd_interval n.

(** A transaction the books can take: it is no call of the virtual machine, and
    its sender is stored. *)
Definition takes b (t : Trx * Address) : Prop :=
  no_code (lg_accts (bo_led b)) (fst t) /\ is_Some (lg_accts (bo_led b) !! LedgerKeyAccount (tx_From (fst t))).

Lemma takes_booked gp h t b b' ts :
  books_ok h (bo_led b) (bo_fees b) -> native_pair t -> booked gp h (fst t) (snd t) b b' ->
  Forall (takes b) ts -> Forall (takes b') ts.
Proof.
  intros HB Ht Hb HF. destruct (booked_ok gp h t b b' HB Ht Hb) as (_ & _ & _ & Hc & Hs).
  eapply Forall_impl; [exact HF|]. intros t' [[Hn Hn'] Hst]. split; [split; [done|]|auto]. intros Hty. rewrite Hc. auto.
Qed.

(** One delivered transaction. *)
Lemma wp_asyncExec_native P gp h b payer c n :
  node_books P gp h n b -> native_ctx P payer c -> native_trx (tc_SenderPubKey c) (tc_Tx c) ->
  tx_GasPrice (tc_Tx c) = GovParams.GasPrice gp -> takes b (tc_Tx c, payer) ->
  wp (asyncExecTrxContext c) (okQ (fun resp n' => same_node n n' /\ exists (ok : bool) b',
    rd_Code resp = (if ok then CodeTypeOK else ErrCodeDeliverTx) /\ node_books P gp h n' b' /\
    if ok then booked gp h (tc_Tx c) payer b b' else b' = b)) n.
Proof.
  intros (bc & Hbc & Hh & Hi & Hh0 & HK & Hgas & Hg63 & Hfees) HC HT Hprice [Hnc Hst]. cbn [fst] in Hnc, Hst.
  unfold asyncExecTrxContext, the_curr. apply wp_bind, wp_bind, wp_gets. rewrite Hbc. apply wp_ret, wp_bind.
  pose proof (wp_ExecuteSync_native P gp h (bo_led b) (bo_fees b) payer (MkXState c bc (nd_chain n)) HK HC Hh Hi Hh0) as Hx.
  unfold gas_in in Hx. cbn [x_bctx x_ctx x_chain] in Hx. rewrite Hgas in Hx. specialize (Hx Hg63 HT Hnc Hst).
  unfold run_trx. unfold wp at 1. unfold wp in Hx. destruct (ExecuteSync _) as [[[]|e|] x'] eqn:Ex; cbn [fst snd] in *; [..|done].
  - destruct Hx as (b' & p' & Hbk & HK' & Eb' & Hp' & Etx & Egu).
    apply wp_bind, wp_gets, wp_bind, wp_modify, wp_ret. cbn [nd_chain node_chain lset]. rewrite (ck_gp _ _ _ _ _ _ HK').
    destruct (fee_mul (tc_Tx c)) as (_ & Hfee & Hfee0); [apply HC..|].
    split; [done|]. exists true, b'. split; [done|]. split; [|by destruct b].
    pose proof Hbk as (Hacc & HB' & L' & _ & Eb). rewrite Egu, <- Hprice, Hfee, Eb'.
    eexists. split; [done|]. cbn. do 3 (split; [done|]). split; [exact HK'|]. split; [exact Hp'|]. rewrite Hfees. split.
    + rewrite Eb. cbn. pose proof (xc_gas _ _ _ HC). lia.
    + replace (bo_fees b') with (bo_fees b + fee_of (tc_Tx c)) in * by (by rewrite Eb). apply u256_id.
      pose proof (books_total _ _ _ HB'). pose proof (bo_fees_pos _ _ _ (ck_ok _ _ _ _ _ _ HK)). unfold in_u256. lia.
  - destruct Hx as (Eb' & Ec' & HK'). apply wp_bind, wp_modify, wp_ret. split; [done|]. exists false, b.
    split; [reflexivity|]. split; [|done]. exists bc. by rewrite Eb'.
Qed.

Lemma native_pair_ctx P gp h n b payer c :
  node_books P gp h n b -> native_ctx P payer c -> native_kind (tc_Tx c) -> native_pair (tc_Tx c, payer).
Proof.
  intros (bc & _ & _ & _ & _ & HK & _) HC Hk. pose proof (ck_accts _ _ _ _ _ _ HK) as HV.
  split; [|split; [apply (vw_ptr _ _ _ _ HV _ _ (xc_payer _ _ _ HC))|done]].
  split; [apply (vw_ptr _ _ _ _ HV _ _ (xc_from _ _ _ HC))|].
  split; [apply (vw_ptr _ _ _ _ HV _ _ (xc_to _ _ _ HC))|]. repeat split; apply HC.
Qed.

Lemma same_node_trans n1 n2 n3 : same_node n1 n2 -> same_node n2 n3 -> same_node n1 n3.
Proof. unfold same_node. intros (? & ? & ? & ?) (? & ? & ? & ?). repeat split; congruence. Qed.

Lemma wp_exec_native P gp h rs ts idx b n :
  Forall2 (result_of native_trx P gp) rs ts -> (forall i r, rs !! i = Some (Some r) -> rv_idx r = (idx + i)%nat) ->
  node_books P gp h n b -> Forall (takes b) ts ->
  wp (exec_results idx rs) (okQ (fun calls n' => same_node n n' /\ exists oks b',
    run_books gp h ts oks b b' /\ calls_of rs calls oks /\ node_books P gp h n' b')) n.
Proof.
  intros HF. revert idx b n.
  induction HF as [|o [tx payer] rs ts (r & c & -> & Hout & Htx & HC & HT & Hpr) HF IH]; intros idx b n Hidx HN Hts.
  { apply wp_ret. split; [done|]. exists [], b. split; [constructor|]. split; [by split; constructor|done]. }
  cbn [fst snd] in *. subst tx. apply Forall_cons in Hts as [Ht Hts]. cbn [exec_results].
  rewrite (Hidx 0%nat r eq_refl), Nat.add_0_r, Nat.eqb_refl. cbn [negb]. rewrite Hout.
  apply wp_bind. eapply wp_mono; [apply (wp_asyncExec_native P gp h b payer c n HN HC HT Hpr Ht)|].
  intros [resp|e|] n1; unfold okQ at 1; try done. intros (Hm1 & ok & b1 & Hcode & HN1 & Hstep).
  assert (Forall (takes b1) ts) as Hts1.
  { destruct ok; [|by subst b1]. pose proof HN as (bc & _ & _ & _ & _ & HK & _).
    eapply (takes_booked gp h (tc_Tx c, payer)); [apply HK|by apply (native_pair_ctx P gp h n b), HT|exact Hstep|done]. }
  apply wp_bind. eapply wp_mono; [apply (IH (S idx) b1 n1); try done|].
  { intros i r' Hi. rewrite (Hidx (S i) r' Hi). lia. }
  intros [rest|e|] n2; unfold okQ at 1; try done. intros (Hm2 & oks & b2 & Hrun & [Hc1 Hc2] & HN2). apply wp_ret.
  split; [by eapply same_node_trans|]. exists (ok :: oks), b2. split; [|split; [split; constructor; eauto|done]].
  destruct ok; [by eapply run_booked|]. subst b1. by apply run_refused.
Qed.

(** ** Blocks *)

(** The books at the start of a block. *)
Definition books_at (b0 : BlockContext GP) L : books := MkBooks L (gas_Gas (bc_blockGasPool b0)) (bc_feeSum b0).

(** A block that starts in the node [n0] with the context [b0] and the books of
    [L] has delivered the requests [reqs], the native transactions [ts], no
    transfer among them to a contract; the goroutines have worked, in whatever
    order, to the preparer [tp] and the node [n], and nothing is left to do for
    them. *)
Record native_block (k : nat) n0 (b0 : BlockContext GP) L (reqs : list bytes) (ts : list (Trx * Address))
    (tp : TrxPreparer TrxContext ResponseDeliverTx) n : Prop := {
  nb_reach : prep_reach onPrepare k n0 reqs (tp, n);
  nb_wait : tp_WaitGroup tp = 0;
  nb_curr : nd_curr n0 = Some b0;
  nb_count : bc_txsCnt b0 = 0;
  nb_size : Z.of_nat (length reqs) < 2 ^ 63;
  nb_books : node_books ∅ (govParams (ch_gov (nd_chain n0))) (bc_Height b0) n0 (books_at b0 L);
  nb_new : newbiesDeliver (ch_acct (nd_chain n0)) = ∅;
  nb_txs : Forall2 (opens (fun _ => native_kind) (nd_signers n0) (govParams (ch_gov (nd_chain n0))) (lg_accts L)) reqs ts;
  nb_plain : Forall (fun t => no_code (lg_accts L) (fst t)) ts;
}.

Lemma opens_native sg gp m reqs ts :
  Forall2 (opens (fun _ => native_kind) sg gp m) reqs ts ->
  Forall2 (opens native_trx sg gp m) reqs ts /\ Forall native_pair ts /\
  Forall (fun t => is_Some (m !! LedgerKeyAccount (tx_From (fst t)))) ts.
Proof.
  intros HF. induction HF as [|req t reqs ts (pub & p & Ho & Hp & Hl & Hk & Hs & Hf & Hpy) _ (IH1 & IH2 & IH3)]; [done|].
  split; [|by split; constructor]. constructor; [|done]. exists pub, p. do 3 (split; [done|]).
  split; [|done]. split; [done|]. intros _. by eapply open_trx_key.
Qed.

(** The transactions of a block, run at its end. *)
Lemma wp_execTrxs_native k n0 (b0 : BlockContext GP) L reqs ts tp n :
  native_block k n0 b0 L reqs ts tp n ->
  wp execTrxs (okQ (fun calls st' =>
    map fst calls = reqs /\ fst st' = tp_reset tp /\ same_node n (snd st') /\ exists P oks b',
      run_books (govParams (ch_gov (nd_chain n0))) (bc_Height b0) ts oks (books_at b0 L) b' /\
      Forall2 (fun call (ok : bool) => rd_Code (snd call) = if ok then CodeTypeOK else ErrCodeDeliverTx) calls oks /\
      node_books P (govParams (ch_gov (nd_chain n0))) (bc_Height b0) (snd st') b')) (tp, n).
Proof.
  intros [Hr Hw Hb0 Hc0 Hlen HN Hnew HF Hpl]. destruct (opens_native _ _ _ _ _ HF) as (HF' & _ & Hst).
  pose proof HN as (bc0 & Ebc & _ & Hi & Hh0 & HK & Hgas & Hg63 & Hfees). rewrite Hb0 in Ebc. injection Ebc as <-.
  destruct (made_results native_trx k n0 b0 (lg_accts L) reqs ts tp n Hr Hb0 (views_clean _ _ _ (ck_accts _ _ _ _ _ _ HK)) Hnew HF' Hw)
    as (P & a' & bc1 & (Hn & Hbi & Hpl1 & Hf1) & HV & Hres & Hreq).
  assert (node_books P (govParams (ch_gov (nd_chain n0))) (bc_Height b0) n (books_at b0 L)) as HN'.
  { exists bc1. rewrite Hn. cbn. unfold bc_Height. rewrite Hbi, Hpl1, Hf1. do 4 (split; [done|]). split; [|done].
    destruct HK as [? ? ? ? ? ? ? ?]. by split. }
  apply (wp_execTrxs_made native_trx k n0 b0 P (govParams (ch_gov (nd_chain n0))) reqs ts tp n); [done..|]. intros Hidx.
  eapply wp_mono; [apply (wp_exec_native P _ (bc_Height b0) _ ts 0 (books_at b0 L) n Hres Hidx HN')|].
  { apply Forall_forall. intros t Ht. split; [by apply (proj1 (Forall_forall _ _) Hpl)|by apply (proj1 (Forall_forall _ _) Hst)]. }
  intros [calls|e|] n'; unfold okQ; try done. intros (Hm & oks & b' & Hrun & Hcalls & HN2).
  split; [by eapply calls_requests|]. split; [done|]. split; [done|]. exists P, oks, b'. split; [done|]. split; [apply Hcalls|done].
Qed.

(** C2. A block of native transactions conserves value on all ledgers of the
    chain.  For any mix of transfers, documents, stakings, unstakings,
    withdrawals and votes, and however the goroutines that make the contexts
    interleave, running them at the end of the block never panics or fails; the
    engine's callback is called once per request, in the order of delivery; each
    transaction is refused and changes no ledger, or has exactly the effect of
    its kind and is charged its fee; after each of them the ledgers of accounts,
    voting powers and rewards keep their invariants; and the coins in accounts,
    bonded, frozen, in rewards and in the fees of the block are together as many
    as before. *)
Theorem native_block_conserves k n0 (b0 : BlockContext GP) L reqs ts tp n :
  native_block k n0 b0 L reqs ts tp n ->
  wp execTrxs (okQ (fun calls st' =>
    map fst calls = reqs /\ fst st' = tp_reset tp /\ same_node n (snd st') /\ exists P oks b',
      run_books (govParams (ch_gov (nd_chain n0))) (bc_Height b0) ts oks (books_at b0 L) b' /\
      Forall2 (fun call (ok : bool) => rd_Code (snd call) = if ok then CodeTypeOK else ErrCodeDeliverTx) calls oks /\
      node_books P (govParams (ch_gov (nd_chain n0))) (bc_Height b0) (snd st') b' /\
      worth (bo_led b') + bo_fees b' = worth L + bc_feeSum b0)) (tp, n).
Proof.
  intros HB. eapply wp_mono; [apply (wp_execTrxs_native _ _ _ _ _ _ _ _ HB)|].
  intros [calls|e|] st'; unfold okQ; try done. intros (Hq & Ht & Hs & P & oks & b' & Hrun & Hc & HN).
  do 3 (split; [done|]). exists P, oks, b'. do 3 (split; [done|]).
  destruct (opens_native _ _ _ _ _ (nb_txs _ _ _ _ _ _ _ _ HB)) as (_ & Hp & _).
  destruct (nb_books _ _ _ _ _ _ _ _ HB) as (bc & _ & _ & _ & _ & HK & _).
  destruct (run_books_conserves _ _ _ _ _ _ Hrun (ck_ok _ _ _ _ _ _ HK) Hp) as [_ Hw]. exact Hw.
Qed.

(** C4. No native transaction is executed twice: of two requests of a block whose
    transactions have the same sender, both succeed only if the later one has the
    greater nonce, so the same transaction delivered again is refused, whatever
    its kind. *)
Theorem native_no_replay k n0 (b0 : BlockContext GP) L reqs ts tp n i j txi pi txj pj :
  native_block k n0 b0 L reqs ts tp n ->
  (i < j)%nat -> ts !! i = Some (txi, pi) -> ts !! j = Some (txj, pj) -> tx_From txi = tx_From txj ->
  acct_Nonce (acct_at (lg_accts L) (tx_From txi)) + Z.of_nat (length ts) < 2 ^ 63 ->
  wp execTrxs (okQ (fun calls _ =>
    forall ci cj, calls !! i = Some ci -> calls !! j = Some cj ->
      rd_Code (snd ci) = CodeTypeOK -> rd_Code (snd cj) = CodeTypeOK -> tx_Nonce txi < tx_Nonce txj)) (tp, n).
Proof.
  intros HB Hij Hi Hj Hf Hn. eapply wp_mono; [apply (wp_execTrxs_native _ _ _ _ _ _ _ _ HB)|].
  intros [calls|e|] st'; unfold okQ; try done. intros (_ & _ & _ & P & oks & b' & Hrun & Hc & _) ci cj Hci Hcj Hoki Hokj.
  destruct (opens_native _ _ _ _ _ (nb_txs _ _ _ _ _ _ _ _ HB)) as (_ & Hp & _).
  destruct (nb_books _ _ _ _ _ _ _ _ HB) as (bc & _ & _ & _ & _ & HK & _).
  assert (Hacc : forall l cl, calls !! l = Some cl -> rd_Code (snd cl) = CodeTypeOK -> oks !! l = Some true).
  { intros l cl Hl Hcl. destruct (Forall2_lookup_l _ _ _ _ _ Hc Hl) as ([|] & Hb & Hcode); [done|]. by rewrite Hcl in Hcode. }
  apply (run_books_increasing _ _ ts oks _ b' i j txi pi txj pj Hrun (ck_ok _ _ _ _ _ _ HK) Hp); try done; [|by eapply Hacc..].
  destruct (proj1 (Forall_lookup _ _) Hp i _ Hi) as [[Hl _] _].
  apply (wf_nonce _ (acct_at_ok (lg_accts L) _ (bo_accts_ok _ _ _ (ck_ok _ _ _ _ _ _ HK)) Hl)).
Qed.

End NativeBlocks.

(** ** Seven transactions of all kinds *)

Module NativeWitness.
Import ToyNode.

#[local] Existing Instances VPowerWitness.w_protos VPowerWitness.w_protos_laws.
#[local] Existing Instances GovWitness.w_protos GovWitness.w_protos_laws GovWitness.w_json GovWitness.w_json_laws.
#[local] Existing Instances SupplyWitness.w_supplies SupplyWitness.w_supplies_laws.

Definition unit_tx (k nonce : Z) (to : Address) (amt ty : Z) (payload : bytes) : TrxProto :=
  MkTrxProto 1 0 nonce (repeat k 20) to (uBytes amt) 5000 price ty payload (repeat k 64 ++ [0]) [] [].

(** Alice pays carol; bob delegates to alice, takes the delegation back, and
    sets a document; alice withdraws from her reward and votes; the first
    request is delivered again. *)
Definition stake_req : bytes := repeat 6 32.

Definition native_table (b : bytes) : outcome TrxProto :=
  if bool_decide (b = stake_req) then Ok (unit_tx 2 0 alice (500 * 10 ^ 18) TRX_STAKING [])
  else match b with
  | [1] => Ok (unit_tx 1 0 carol (10 ^ 18) TRX_TRANSFER [])
  | [2] => Ok (unit_tx 2 1 alice 0 TRX_UNSTAKING stake_req)
  | [3] => Ok (unit_tx 1 1 alice 0 TRX_WITHDRAW (uBytes 20))
  | [4] => Ok (unit_tx 1 2 ZeroAddress 0 TRX_VOTING GovWitness.w_hash)
  | [5] => Ok (unit_tx 2 2 carol 0 TRX_SETDOC [98])
  | _ => Err (GoError "proto: cannot parse invalid wire-format data")
  end.

#[local] Instance native_protos : TrxProtos :=
  Build_TrxProtos (Build_Proto _ (fun _ => Ok []) native_table)
    (Build_Proto _ (fun _ => Ok []) (fun b => Ok (MkUnstakingProto b)))
    (Build_Proto _ (fun _ => Ok []) (fun b => Ok (MkWithdrawProto b))) no_proto
    (Build_Proto _ (fun _ => Ok []) (fun b => Ok (MkVotingProto b 0))) no_proto
    (Build_Proto _ (fun _ => Ok []) (fun b => Ok (MkSetDocProto b b))).

Abbreviation Nd := (Node RefTree.tree (gmap bytes bytes) unit Z (gmap bytes bytes)).
Abbreviation TP := (TrxPreparer TrxContext ResponseDeliverTx).

Definition rich : list (Address * Z) := [(alice, 10 ^ 20); (bob, 10 ^ 21)].
Definition rich_accounts : toy_accts := snd (acct_InitLedger rich (MkAcctCtrler empty_state ∅ ∅)).
Definition rich_map : accts_map := genesis_accts rich ∅.

(** Two validators, a proposal being voted on, rewards of alice and bob, and the
    block of height 20. *)
Definition native_chain : Chain RefTree.tree (gmap bytes bytes) unit :=
  MkChain GovWitness.gov1 rich_accounts VPowerWitness.vstart SupplyWitness.paid_state tt.

Definition native_bctx : BlockContext Z :=
  MkBlockContext (MkRequestBeginBlock [48] 20 0 bob [] []) 0 100000 100000 0 0 [] [].

Definition native_node : Nd := MkNode native_chain None (Some native_bctx) (MkMetaDB ∅ 0 0) (MkSigners [48] 1) 1.

Definition native_reqs : list bytes := [[1]; stake_req; [2]; [3]; [4]; [5]; [1]].
Definition cb : bytes -> nat -> M Nd (TrxContext + ResponseDeliverTx) := onPrepare.
Definition native_start : TP * Nd := (deliver 2 native_reqs, native_node).
Definition native_worked : TP * Nd := default native_start (work cb [1; 0; 0; 1; 0; 1; 0]%nat native_start).

Definition the_params : GovParamsProto := govParams (ch_gov native_chain).

Definition opened (req : bytes) : Trx * Address :=
  match open_trx (nd_signers native_node) the_params req with
  | Ok (tx, _, _) => (tx, tx_From tx)
  | _ => (MkTrx 0 0 0 [] [] 0 0 0 0 None [] [] [], [])
  end.
Definition native_txs : list (Trx * Address) := map opened native_reqs.

Lemma rich_inv : ainv ∅ rich_accounts rich_map.
Proof.
  assert (ainv ∅ (MkAcctCtrler (empty_state : LState Account RefTree.tree (gmap bytes bytes)) ∅ ∅) ∅) as He.
  { split; [|intros a l Hl; cbn in Hl; by rewrite lookup_empty in Hl]. split; cbn; try done. constructor. }
  pose proof (InitLedger_spec rich _ ∅ He) as Hw. unfold wp in Hw.
  destruct (fst (acct_InitLedger rich (MkAcctCtrler empty_state ∅ ∅))) eqn:Er; [|vm_compute in Er; congruence..].
  apply Hw. repeat constructor; vm_compute; congruence.
Qed.

Lemma opens_one req pub k ty :
  open_trx (nd_signers native_node) the_params req = Ok (fst (opened req), pub, []) ->
  opened req = (fst (opened req), tx_From (fst (opened req))) -> tx_From (fst (opened req)) = repeat k 20 -> k = 1 \/ k = 2 ->
  GetType (fst (opened req)) = ty -> native_kind (fst (opened req)) -> tx_sane (fst (opened req)) ->
  opens (fun _ => native_kind) (nd_signers native_node) the_params rich_map req (opened req).
Proof.
  intros Ho Hp Hf Hk Hty Hn Hs. assert (is_Some (rich_map !! LedgerKeyAccount (repeat k 20))) as Hst.
  { destruct Hk as [-> | ->]; vm_compute; eauto. }
  exists pub, []. rewrite Hp. cbn [fst snd]. rewrite Hf. do 5 (split; [done|]). by split.
Qed.

Lemma native_opened_ok : Forall (fun req => opens (fun _ => native_kind) (nd_signers native_node) the_params rich_map req (opened req)) native_reqs.
Proof.
  repeat apply Forall_cons_2; [apply (opens_one [1] (repeat 1 33) 1 TRX_TRANSFER)|apply (opens_one stake_req (repeat 2 33) 2 TRX_STAKING)
    |apply (opens_one [2] (repeat 2 33) 2 TRX_UNSTAKING)|apply (opens_one [3] (repeat 1 33) 1 TRX_WITHDRAW)
    |apply (opens_one [4] (repeat 1 33) 1 TRX_VOTING)|apply (opens_one [5] (repeat 2 33) 2 TRX_SETDOC)
    |apply (opens_one [1] (repeat 1 33) 1 TRX_TRANSFER)|constructor];
    try (vm_compute; reflexivity); try (left; reflexivity); try (right; reflexivity);
    try (repeat split; vm_compute; congruence).
  - right; right; by left.
  - right; right; right; left. split; [vm_compute; reflexivity|]. eexists. vm_compute. reflexivity.
  - right; right; right; right; left. split; [vm_compute; reflexivity|]. intros amt Ha. vm_compute in Ha. injection Ha as <-. lia.
  - by do 5 right.
  - right; left. split; [vm_compute; reflexivity|]. do 2 eexists. split; [vm_compute; reflexivity|]. done.
Qed.

Lemma plain_txs : Forall (fun t => no_code rich_map (fst t)) native_txs.
Proof.
  repeat apply Forall_cons_2; [..|constructor]; (split; [vm_compute; congruence|]); intros Hty; vm_compute in Hty |- *;
    (reflexivity || congruence).
Qed.

Lemma native_books : exists L, worth L = 10 ^ 20 + 10 ^ 21 + 18000000 * 10 ^ 18 + 42 /\
  node_books ∅ the_params 20 native_node (books_at native_bctx L) /\ lg_accts L = rich_map.
Proof.
  destruct VPowerWitness.vstart_inv as (mv & HCv & Hiv & Hnv & Eb & Ef).
  destruct (reach_ok _ _ GovWitness.reach1) as [mg [[HCg _ _ _] _ _]].
  destruct (issue_all ∅ 7 SupplyWitness.rewards2) as (Hsok & Hcum & _ & _ & Hhts);
    [done|by apply SupplyWitness.empty_heights|done|repeat constructor; cbn; lia|done|].
  fold SupplyWitness.paid_map in Hsok, Hcum, Hhts.
  assert (total rich_map = 10 ^ 20 + 10 ^ 21) as Et by (vm_compute; reflexivity).
  assert (cumulated SupplyWitness.paid_map = 42) as Ec by (rewrite Hcum; vm_compute; reflexivity).
  exists (MkLedgers rich_map mv SupplyWitness.paid_map mg). split; [unfold worth; cbn [lg_accts lg_vp lg_sup]; rewrite Et, Ec, Eb, Ef; vm_compute; reflexivity|].
  split; [|done]. exists native_bctx. do 2 (split; [done|]). split; [vm_compute; split; congruence|]. split; [lia|].
  split; [|split; [vm_compute; reflexivity|split; [vm_compute; reflexivity|done]]].
  assert (books_ok 20 (MkLedgers rich_map mv SupplyWitness.paid_map mg) 0) as Hok.
  { split; cbn [lg_accts lg_vp lg_sup]; [exact (ainv_accts_ok _ _ _ rich_inv)|exact Hiv|exact Hnv|exact Hsok
      |intros a; specialize (Hhts a); lia|lia|rewrite Et, Ec; vm_compute; congruence]. }
  split; [exact Hok| |exact HCv| | | |exact HCg|reflexivity].
  - split; [|intros a l Hl; by rewrite lookup_empty in Hl|exact (ainv_accts_ok _ _ _ rich_inv)].
    exists rich_map. split; [exact rich_inv|]. split; [done|]. intros a l Hl. by rewrite lookup_empty in Hl.
  - apply (lim_ok_reset 18000000 33); [vm_compute; split; congruence|lia].
  - change (lastTotalPower (vpowLimiter (ch_vp (nd_chain native_node)))) with 18000000.
    change (addingPower (vpowLimiter (ch_vp (nd_chain native_node)))) with 0.
    cbn [books_at bo_led bo_fees lg_accts lg_sup]. rewrite Et, Ec. vm_compute. congruence.
  - exact SupplyWitness.paid_coh.
Qed.

Definition codes (o : outcome (list (bytes * ResponseDeliverTx))) : list Z :=
  match o with Ok calls => map (fun call => rd_Code (snd call)) calls | _ => [] end.

Lemma codes_here : codes (fst (execTrxs native_worked)) = [0; 0; 0; 0; 0; 0; ErrCodeDeliverTx].
Proof. vm_compute. reflexivity. Qed.

Lemma native_worked_reach : prep_reach cb 2 native_node native_reqs native_worked.
Proof.
  apply (reach_work cb 2 native_node native_reqs [1; 0; 0; 1; 0; 1; 0]%nat native_start); [|vm_compute; reflexivity].
  apply reach_deliver; [lia|unfold chanCap; cbn; lia].
Qed.

Lemma native_here L :
  node_books ∅ the_params 20 native_node (books_at native_bctx L) -> lg_accts L = rich_map ->
  native_block 2 native_node native_bctx L native_reqs native_txs (fst native_worked) (snd native_worked).
Proof.
  intros HN EL. split.
  - rewrite <- surjective_pairing. exact native_worked_reach.
  - vm_compute. reflexivity.
  - reflexivity.
  - reflexivity.
  - vm_compute. reflexivity.
  - exact HN.
  - vm_compute. reflexivity.
  - rewrite EL. unfold native_txs. apply Forall2_fmap_r, Forall_Forall2_diag, native_opened_ok.
  - rewrite EL. exact plain_txs.
Qed.

Lemma native_block_conserves_witness :
  codes (fst (execTrxs native_worked)) = [0; 0; 0; 0; 0; 0; ErrCodeDeliverTx] /\
  wp execTrxs (okQ (fun calls st' => map fst calls = native_reqs /\ exists P b',
    node_books P the_params 20 (snd st') b' /\
    worth (bo_led b') + bo_fees b' = 10 ^ 20 + 10 ^ 21 + 18000000 * 10 ^ 18 + 42)) (fst native_worked, snd native_worked).
Proof.
  split; [exact codes_here|]. destruct native_books as (L & Ew & HN & EL).
  eapply wp_mono; [exact (native_block_conserves 2 native_node native_bctx L native_reqs native_txs _ _ (native_here L HN EL))|].
  intros [calls|e|] c' Hc; [|destruct Hc|destruct Hc]. destruct Hc as (Hreq & _ & _ & P & oks & b' & _ & _ & HN' & Hw).
  split; [exact Hreq|]. exists P, b'. split; [exact HN'|]. rewrite Hw, Ew. apply Z.add_0_r.
Defined.

Lemma native_no_replay_witness :
  wp execTrxs (okQ (fun calls _ =>
    forall ci cj, calls !! 0%nat = Some ci -> calls !! 6%nat = Some cj ->
      rd_Code (snd ci) = CodeTypeOK -> rd_Code (snd cj) = CodeTypeOK -> 0 < 0)) (fst native_worked, snd native_worked).
Proof.
  destruct native_books as (L & _ & HN & EL).
  apply (native_no_replay 2 native_node native_bctx L native_reqs native_txs (fst native_worked) (snd native_worked) 0 6
    (fst (opened [1])) alice (fst (opened [1])) alice (native_here L HN EL) (Nat.lt_0_succ 5) eq_refl eq_refl eq_refl).
  rewrite EL. vm_compute. reflexivity.
Defined.

End NativeWitness.
