(* ===== verification/AppProps.v ===== *)
(** * AppProps: commit and restart

    What a commit writes is what a restarted node comes up with: the height and
    hash it reports to the consensus engine, the context of the last block and
    the counters. *)
From stdpp Require Import base gmap list strings countable.
From Stdlib Require Import ZArith Lia.
From S2P Require Import Prelude XErrors GoMonad LedgerKeys Iavl Ledger LedgerSpec.
From S2P Require Import Units HexBytes Proto GovParams Account TrxTypes Signer AcctCtrler.
From S2P Require Import VPowerItems VPowerCtrler Proposal GovCtrler Numbers SupplyCtrler.
From S2P Require Import TrxCtx MetaDB TrxExecutor TrxPreparer App ToyNode.

(** Reading the JSON of a block context gives what was written. *)
Class BctxJsonLaws `{BctxJson} : Prop :=
  bctx_json_roundtrip : forall j bz, bctx_json j = Ok bz -> bctx_unjson bz = Ok j.

Section Restart.
Context {T I : Type} `{Iavl T I}.
Context `{Proto AcctProto, GovProtos, GovJson, VPowerProtos, SupplyProtos, CryptoLib}.
Context {GP : Type} `{GasPoolLib GP, !GasPoolLaws GP}.
Context {E : Type} `{!IEVMHandler E GP (AcctCtrler T I)}.
Context {D : Type} `{TmDB D, !TmDBLaws D, BctxJson, !BctxJsonLaws, ChainIdText}.
Implicit Types (n : Node T I E GP D) (b : BlockContext GP).

(** A stored context reads back, up to the updates of the validators. *)
Lemma bctx_json_gas b :
  gas_Gas (bc_blockGasPool b) < 2 ^ 63 ->
  exists p, bctx_fromJson (bctx_toJson b) = Ok (MkBlockContext (bc_blockInfo b) (bc_blockSizeLimit b) (bc_blockGasLimit b) p
      (bc_feeSum b) (bc_txsCnt b) (bc_appHash b) []) /\ gas_Gas p = gas_Gas (bc_blockGasPool b).
Proof.
  intros Hg. pose proof (gas_range (bc_blockGasPool b)) as Hr. unfold bctx_fromJson, bctx_toJson, getBlockGasUsed.
  cbn [bj_BlockGasLimit bj_BlockGasUsed bj_BlockInfo bj_BlockSizeLimit bj_FeeSum bj_TxsCnt bj_AppHash].
  rewrite i64_sub_r. replace (bc_blockGasLimit b - (bc_blockGasLimit b - i64 (gas_Gas (bc_blockGasPool b))))
    with (i64 (gas_Gas (bc_blockGasPool b))) by lia.
  rewrite i64_i64, i64_id by (unfold in_i64; lia). unfold u64. rewrite Z.mod_small by lia.
  destruct (gas_Add_law (gas_new : GP) (gas_Gas (bc_blockGasPool b))) as (p & Hp & Hp'); [lia|rewrite gas_new_zero; lia|].
  exists p. rewrite Hp. cbn. rewrite gas_new_zero in Hp'. split; [done|lia].
Qed.

(** ** What a commit keeps and writes *)

(** The controllers' commits leave the rest of the node. *)
Definition keeps_rest n n' : Prop :=
  nd_meta n' = nd_meta n /\ nd_curr n' = nd_curr n.

Lemma commit_ctrler_keeps {L} (ln : lens (Chain T I E) L) (m : M L (bytes * Z)) height h n n' :
  commit_ctrler height (zoom (lens_comp node_chain ln) m) n = (Ok h, n') -> keeps_rest n n'.
Proof.
  unfold commit_ctrler, must, bind, zoom. destruct (m _) as [[hv|e|] l]; [|done..]. cbn.
  destruct (negb _); [done|]. intros [= _ <-]. done.
Qed.

#[local] Arguments PutLastBlockContext : simpl never.
#[local] Arguments count_block : simpl never.

(** A successful commit: the hash, and the database with the context and the
    counters written. *)
Lemma Commit_inv cfg n hash n' :
  Commit cfg n = (Ok hash, n') ->
  exists b m1, nd_curr n = Some b /\
    m1 = snd (PutLastBlockContext (SetAppHash hash b) (nd_meta n)) /\
    nd_meta n' = snd (count_block cfg (SetAppHash hash b) m1).
Proof.
  unfold Commit, the_curr. unfold bind at 1 2, gets at 1. destruct (nd_curr n) as [b|] eqn:Eb; [|done]. cbn [ret].
  intros Hc. exists b, (snd (PutLastBlockContext (SetAppHash hash b) (nd_meta n))). split; [done|]. split; [done|].
  unfold bind at 1 in Hc.
  destruct (commit_ctrler _ (n_gov _) n) as [[h1|e|] n1] eqn:E1; [|done..]. unfold bind at 1 in Hc.
  destruct (commit_ctrler _ (n_acct _) n1) as [[h2|e|] n2] eqn:E2; [|done..]. unfold bind at 1 in Hc.
  destruct (commit_ctrler _ (n_sup _) n2) as [[h3|e|] n3] eqn:E3; [|done..]. unfold bind at 1 in Hc.
  destruct (commit_ctrler _ (n_vp _) n3) as [[h4|e|] n4] eqn:E4; [|done..]. unfold bind at 1 in Hc.
  destruct (commit_ctrler _ (n_evm _) n4) as [[h5|e|] n5] eqn:E5; [|done..].
  apply commit_ctrler_keeps in E1 as [M1 _], E2 as [M2 _], E3 as [M3 _], E4 as [M4 _], E5 as [M5 _].
  assert (nd_meta n5 = nd_meta n) as M by congruence. clear -Hc M. revert Hc. cbn zeta.
  set (hs := DefaultHash _). unfold bind, ignore, zoom, modify, ret. cbn [lget lset node_meta]. rewrite M.
  destruct (PutLastBlockContext (SetAppHash hs b) (nd_meta n)) as [[[]|e|] m1] eqn:Ep; [..|done]; cbn;
    destruct (count_block cfg (SetAppHash hs b) m1) as [[[]|e'|] m2] eqn:Ec; try done; intros [= <- <-]; cbn;
    rewrite Ep; cbn; by rewrite Ec.
Qed.

Lemma count_block_keeps cfg b (m : MetaDB D) :
  mdb_synced m -> mdb_synced (snd (count_block cfg b m)) /\ stored_bctx (snd (count_block cfg b m)) = stored_bctx m.
Proof.
  intros Hs.
  assert (wp (count_block cfg b) (fun _ m' => mdb_synced m' /\ stored_bctx m' = stored_bctx m) m) as Hw; [|exact Hw].
  unfold count_block. destruct (cfg_RPC cfg); [|by apply wp_ret].
  assert (Hfee : forall m', mdb_synced m' -> stored_bctx m' = stored_bctx m ->
    wp (if 0 <? uSign (bc_feeSum b)
        then let! fee := gets mdb_totalTxFee in ignore (PutTotalTxFee (uadd fee (bc_feeSum b))) else ret tt)
      (fun _ m' => mdb_synced m' /\ stored_bctx m' = stored_bctx m) m').
  { intros m' Hs' Hst. destruct (0 <? uSign (bc_feeSum b)); [|by apply wp_ret]. apply wp_bind, wp_gets, wp_ignore.
    pose proof (synced_PutTotalTxFee (uadd (mdb_totalTxFee m') (bc_feeSum b)) m' (u256_range _) Hs') as Hs2.
    pose proof (stored_PutTotalTxFee (uadd (mdb_totalTxFee m') (bc_feeSum b)) m') as Hst2.
    unfold wp. destruct (PutTotalTxFee _ m') as [[[]|e|] m2]; cbn in *; split; congruence. }
  apply wp_bind. destruct (0 <? bc_txsCnt b); [|by apply wp_ret, Hfee]. apply wp_bind, wp_gets, wp_ignore.
  pose proof (synced_PutTxn (u64 (mdb_txn m + u64 (bc_txsCnt b))) m (Z.mod_pos_bound _ (2 ^ 64) ltac:(lia)) Hs) as Hs2.
  pose proof (stored_PutTxn (u64 (mdb_txn m + u64 (bc_txsCnt b))) m) as Hst2.
  unfold wp at 1. destruct (PutTxn _ m) as [[[]|e|] m2]; cbn in *; try by apply Hfee. by split.
Qed.

(** C31. A restarted node resumes where the last commit was: after a successful
    commit whose writes of the block context reached the database, a node opened
    on that database has the same counters of transactions and fees, its [Info]
    neither fails nor panics, reports the height and the application hash of the
    commit, and has the committed block's context, with the gas that was left, as
    its last one. *)
Theorem restart_resumes cfg n b hash n1 n2 now :
  Commit cfg n = (Ok hash, n1) -> nd_curr n = Some b -> mdb_synced (nd_meta n) ->
  fst (PutLastBlockContext (SetAppHash hash b) (nd_meta n)) = Ok tt ->
  gas_Gas (bc_blockGasPool b) < 2 ^ 63 ->
  bc_ChainID b <> [] -> parseChainId (bc_ChainID b) = Ok (cfg_ChainId cfg) ->
  OpenMetaDB (mdb_db (nd_meta n1)) = Ok (nd_meta n2) ->
  nd_meta n2 = nd_meta n1 /\
  wp (Info cfg now) (okQ (fun r n3 => r = (bc_Height b, hash) /\
    exists p, gas_Gas p = gas_Gas (bc_blockGasPool b) /\
      nd_last n3 = Some (MkBlockContext (bc_blockInfo b) (bc_blockSizeLimit b) (bc_blockGasLimit b) p
                           (bc_feeSum b) (bc_txsCnt b) hash []))) n2.
Proof.
  intros Hc Hb Hs Hput Hgas Hcid Hparse Hopen.
  destruct (Commit_inv _ _ _ _ Hc) as (b' & m1 & Hb' & -> & Hm). assert (b' = b) as -> by congruence.
  pose proof (synced_PutLastBlockContext (SetAppHash hash b) (nd_meta n) Hs) as Hs1.
  destruct (stored_PutLastBlockContext _ _ Hput) as (bz & Hbz & Hst).
  destruct (count_block_keeps cfg (SetAppHash hash b) _ Hs1) as [Hs2 Hst2]. rewrite <- Hm in Hs2, Hst2.
  assert (nd_meta n2 = nd_meta n1) as M by (unfold mdb_synced in Hs2; congruence). split; [done|].
  destruct (bctx_json_gas (SetAppHash hash b) Hgas) as (p & Hp & Hpg).
  unfold Info, n_govParams, the_last. apply wp_bind, wp_gets, wp_bind, wp_lift. unfold LastBlockContext.
  change (mdb_get (mdb_db (nd_meta n2)) keyBlockContext) with (stored_bctx (nd_meta n2)). rewrite M, Hst2, Hst.
  rewrite (bctx_json_roundtrip _ _ Hbz). cbn [obind]. rewrite Hp.
  apply wp_bind, wp_gets, wp_bind, wp_ret, wp_bind, wp_modify, wp_bind.
  unfold bc_ChainID in *. cbn [bc_blockInfo SetAppHash] in *.
  replace (bytes_Equal (rb_ChainID (bc_blockInfo b)) []) with false by (symmetry; by apply bool_decide_false).
  cbn [negb]. apply wp_bind, wp_lift. rewrite Hparse.
  assert (uCmp (cfg_ChainId cfg) (cfg_ChainId cfg) = 0) as -> by (unfold uCmp; by rewrite Z.ltb_irrefl).
  cbn [Z.eqb negb]. apply wp_ret, wp_bind, wp_modify, wp_bind, wp_modify, wp_bind, wp_bind, wp_gets. cbn.
  apply wp_ret, wp_ret. split; [done|]. by exists p.
Qed.

End Restart.

(** ** The first block of a small node *)

Module RestartWitness.
Import ToyNode.

#[local] Instance toy_bctx_json_laws : BctxJsonLaws.
Proof.
  intros j bz [= <-]. cbn [bctx_unjson toy_bctx_json]. rewrite decode_encode. cbn [mbind option_bind]. by rewrite lists_json_lists.
Qed.

Definition cfg : Config := MkConfig 0 true.

(** The block has had two transactions with a fee. *)
Definition ended_bctx : BlockContext Z :=
  MkBlockContext (MkRequestBeginBlock [48] 1 5 bob [] [(bob, true)]) 1000 100000 90000 77 2 [] [].
Definition ended : Node RefTree.tree (gmap bytes bytes) unit Z (gmap bytes bytes) :=
  MkNode toy_chain None (Some ended_bctx) (MkMetaDB ∅ 0 0) (MkSigners [48] 1) 1.

Definition committed : outcome bytes * Node RefTree.tree (gmap bytes bytes) unit Z (gmap bytes bytes) := Commit cfg ended.
Definition hash : bytes := match fst committed with Ok h => h | _ => [] end.

(** A new process on the same database. *)
Definition restarted : Node RefTree.tree (gmap bytes bytes) unit Z (gmap bytes bytes) :=
  MkNode (nd_chain (snd committed)) None None
    (match OpenMetaDB (mdb_db (nd_meta (snd committed))) with Ok m => m | _ => MkMetaDB ∅ 0 0 end) (MkSigners [] 0) 0.

Lemma restart_resumes_witness :
  mdb_txn (nd_meta restarted) = 2 /\ mdb_totalTxFee (nd_meta restarted) = 77 /\
  wp (Info cfg 9) (okQ (fun r _ => r = (1, hash))) restarted.
Proof.
  assert (Hc : Commit cfg ended = (Ok hash, snd committed)).
  { fold committed. unfold hash. rewrite (surjective_pairing committed) at 1. by f_equal. }
  destruct (restart_resumes cfg ended ended_bctx hash (snd committed) restarted 9 Hc) as [_ Hw].
  - reflexivity.
  - vm_compute. reflexivity.
  - vm_compute. reflexivity.
  - vm_compute. reflexivity.
  - vm_compute. congruence.
  - vm_compute. reflexivity.
  - vm_compute. reflexivity.
  - split; [vm_compute; reflexivity|]. split; [vm_compute; reflexivity|].
    eapply wp_mono; [exact Hw|]. intros [r|e|] n3 Hr; [exact (proj1 Hr)|destruct Hr|destruct Hr].
Defined.

End RestartWitness.
