(* ===== verification/Query.v ===== *)
(** * Query: answering queries

    [node/query.go] and the [Query] methods of the controllers
    ([ctrlers/account/query.go], [ctrlers/vpower/ctrler_query.go],
    [ctrlers/gov/query.go], [ctrlers/supply/ctrler_query.go],
    [ctrlers/vm/evm/query.go]) with the account controller of a simulation
    ([SimuAcctCtrler] of [ctrlers/account/ctrler.go]) a call of the virtual machine
    runs on.  Every answer is read from the ledger of a committed version.  The
    JSON text of an answer is a parameter ([QueryJson]). *)
From stdpp Require Import base gmap list strings.
From Stdlib Require Import ZArith Lia.
From S2P Require Import Prelude XErrors GoMonad LedgerKeys Iavl Ledger Units HexBytes Proto GovParams.
From S2P Require Import Account TrxTypes Signer AcctCtrler VPowerItems ValSet VPowerCtrler Proposal GovCtrler.
From S2P Require Import SupplyCtrler TrxCtx MetaDB TrxExecutor App EvmTransition EvmCtrler.

(** ** Requests and answers *)

Record RequestQuery := MkRequestQuery {
  rq_Path : string;
  rq_Data : bytes;
  rq_Height : Z;
}.

Record ResponseQuery := MkResponseQuery {
  rp_Code : Z;
  rp_Log : string;
  rp_Key : bytes;
  rp_Height : Z;
  rp_Value : bytes;
}.

(** The answer about an account; a [Code] that is left out is nil. *)
Record acctAnswer := MkAcctAnswer {
  aa_Address : Address;
  aa_Name : bytes;
  aa_Nonce : Z;
  aa_Balance : bytes;
  aa_Code : option bytes;
  aa_DocURL : bytes;
}.

Record respStake := MkRespStake {
  rs_From : Address;
  rs_To : Address;
  rs_TxHash : bytes;
  rs_StartHeight : Z;
  rs_Power : Z;
}.

Record respDelegatee := MkRespDelegatee {
  rd_Addr : Address;
  rd_PubKey : bytes;
  rd_SelfPower : Z;
  rd_TotalPower : Z;
  rd_SlashedPower : Z;
  rd_Delegators : list Address;
  rd_NotSignedBlockCount : Z;
  rd_Stakes : list respStake;
}.

Record respProposal := MkRespProposal {
  rpp_Status : string;
  rpp_Proposal : option GovProposal;
}.

Record VMCallResult := MkVMCallResult {
  vr_UsedGas : Z;
  vr_Err : string;
  vr_ReturnData : bytes;
}.

(** [jsonx.Marshal] of the answers, and [jsonx.Unmarshal] of the account's, whose
    nonce is an [int64] in the first and a [uint64] in the other two. *)
Class QueryJson : Type := {
  json_account : acctAnswer -> outcome bytes;
  unjson_account : bytes -> outcome acctAnswer;
  json_account_code : acctAnswer -> outcome bytes;
  json_stakes : list respStake -> outcome bytes;
  json_delegatee : respDelegatee -> outcome bytes;
  json_proposals : list respProposal -> outcome bytes;
  json_proposal : respProposal -> outcome bytes;
  json_govItem : GovItem -> outcome bytes;
  json_reward : Reward -> outcome bytes;
  json_vmcall : VMCallResult -> outcome bytes;
}.

(** [xerrors.ErrQuery.Wrap(xerr)] on the error of a call. *)
Definition query_err {S A} (m : M S A) : M S A :=
  let! r := try m in
  match r with
  | inl a => ret a
  | inr e => throw (Wrap ErrQuery e)
  end.

(** [fmt.Sprintf("\"%v\"", n)] *)
Definition quoted (n : Z) : bytes := 34 :: FormatInt n ++ [34].

(** A [Seek] on [ml] whose callback appends to a local slice: its error, or the
    slice. *)
Definition seek_append {Item T I B : Type} `{LedgerItem Item, Iavl T I} (ml : MemLedger I) (prefix : bytes)
    (f : Item -> outcome (list B)) (acc : list B) : M (LState Item T I) (list B) :=
  let! r := run_var acc (mem_Seek fst_lens ml prefix true (fun _ l =>
    let! x := zoom fst_lens (l_deref l) in
    let! bs := lift (f x) in
    modify (fun '(s, acc) => (s, acc ++ bs)))) in
  let '(res, acc') := r in
  untry res ;;;
  ret acc'.

(** ** The account controller *)

Section AcctQuery.
Context {T I : Type} `{Iavl T I} `{Proto AcctProto} `{QueryJson}.

Definition answer_of (acct : Account) : acctAnswer :=
  MkAcctAnswer (acct_Address acct) (acct_Name acct) (acct_Nonce acct) (FormatInt (acct_Balance acct))
    (if bytes_Equal (acct_Code acct) [] then None else Some (acct_Code acct)) (acct_DocURL acct).

(** An account that is not found, for any reason, is answered as a new one. *)
Definition acct_Query (req : RequestQuery) : M (AcctCtrler T I) bytes :=
  let! immuLedger := query_err (zoom acct_lens (ImitableLedgerAt (rq_Height req))) in
  let! r := try (lift (mem_get immuLedger (LedgerKeyAccount (rq_Data req)))) in
  let acct := match r with inl a => a | inr _ => NewAccount (rq_Data req) end in
  query_err (lift (json_account (answer_of acct))).

(** [SimuAcctCtrler] and the accounts it has given out. *)
Record SimuAcctCtrler := MkSimuAcctCtrler {
  si_store : store Account;
  simuLedger : MemLedger I;
  si_newbies : gmap bytes loc;
}.

#[local] Obligation Tactic := idtac.

Program Definition si_lens : lens SimuAcctCtrler (store Account) :=
  Lens si_store (fun st s => MkSimuAcctCtrler st (simuLedger s) (si_newbies s)) _ _ _.
Next Obligation. done. Qed.
Next Obligation. now intros []. Qed.
Next Obligation. done. Qed.

Abbreviation SM := (M SimuAcctCtrler).

Definition simu_SetAccount (acct : loc) (exec : bool) : SM unit :=
  let! a := zoom si_lens (deref acct) in
  let! s := gets id in
  let! ml := lift (mem_Set (simuLedger s) (LedgerKeyAccount (acct_Address a)) a) in
  modify (fun s => MkSimuAcctCtrler (si_store s) ml (si_newbies s)).

Definition simu_findAccount (addr : Address) : SM (option loc) :=
  let! s := gets id in
  let! r := try (lift (mem_get (simuLedger s) (LedgerKeyAccount addr))) in
  match r with
  | inl a => let! l := zoom si_lens (alloc a) in ret (Some l)
  | inr _ => ret None
  end.

Definition simu_FindOrNewAccount (addr : Address) (exec : bool) : SM loc :=
  let! r := simu_findAccount addr in
  match r with
  | Some l => ret l
  | None =>
      let! acctKey := lift (ToAcctKey addr) in
      let! s := gets id in
      match si_newbies s !! acctKey with
      | Some l => ret l
      | None =>
          let! l := zoom si_lens (alloc (NewAccountWithName addr [])) in
          modify (fun s => MkSimuAcctCtrler (si_store s) (simuLedger s) (<[acctKey := l]> (si_newbies s))) ;;;
          ret l
      end
  end.

(** The other methods of the interface panic. *)
#[export] Instance Simu_handler : IAccountHandler SimuAcctCtrler := {
  acct_get l := zoom si_lens (deref l);
  acct_put l a := zoom si_lens (assign l a);
  SetAccount := simu_SetAccount;
  FindOrNewAccount := simu_FindOrNewAccount;
  FindAccount addr _ := simu_findAccount addr;
  Transfer _ _ _ _ := panic;
  Reward _ _ _ := panic;
  AddBalance_ _ _ _ := panic;
  SubBalance_ _ _ _ := panic;
  SetBalance_ _ _ _ := panic;
}.

Definition SimuAcctCtrlerAt (height : Z) : M (AcctCtrler T I) SimuAcctCtrler :=
  let! memLedger := zoom acct_lens (ImitableLedgerAt height) in
  ret (MkSimuAcctCtrler empty_store memLedger ∅).

End AcctQuery.
Arguments SimuAcctCtrler : clear implicits.

(** ** The voting powers *)

Section VPowerQuery.
Context {T I : Type} `{Iavl T I} `{VPowerProtos, CryptoLib, QueryJson}.
Abbreviation VL := (M (LState VItem T I)).

Definition stake_of (v : VPower) (pc : PowerChunk) : respStake :=
  MkRespStake (v_from v) (v_to v) (pc_TxHash pc) (pc_Height pc) (pc_Power pc).

(** The stakes of a voting power; another item is a nil pointer. *)
Definition item_stakes (x : VItem) : outcome (list respStake) :=
  match x with
  | IVPower v => Ok (map (stake_of v) (v_PowerChunks v))
  | _ => Panic
  end.

Definition queryStakes (height : Z) (addr : Address) : VL bytes :=
  let! atledger := query_err (ImitableLedgerAt height) in
  let! stakes := query_err (seek_append atledger (LedgerKeyVPower addr []) item_stakes []) in
  query_err (lift (json_stakes stakes)).

(** The loop over the delegators. *)
Fixpoint delegator_stakes (atledger : MemLedger I) (to : Address) (delegators : list Address)
    (stakes : list respStake) : VL (list respStake) :=
  match delegators with
  | [] => ret stakes
  | addr :: rest =>
      let! item := query_err (lift (mem_get atledger (LedgerKeyVPower addr to))) in
      let! ss := lift (item_stakes item) in
      delegator_stakes atledger to rest (stakes ++ ss)
  end.

(** [Int64] of a nil count is 0. *)
Definition count_of (r : VItem + error) : Z :=
  match r with inl (IBlockCount c) => c | _ => 0 end.

Definition queryDelegatee (height : Z) (addr : Address) : VL bytes :=
  let! atledger := query_err (ImitableLedgerAt height) in
  let! bc := try (lift (mem_get atledger (LedgerKeyMissedBlockCount addr))) in
  (match bc with
   | inr xerr => if negb (Contains xerr ErrNotFoundResult) then throw (Wrap ErrQuery xerr) else ret tt
   | inl _ => ret tt
   end) ;;;
  let n := count_of bc in
  let! item := query_err (lift (mem_get atledger (LedgerKeyDelegatee addr))) in
  match item with
  | IDelegatee dgtee =>
      let! stakes := delegator_stakes atledger (d_addr dgtee) (d_Delegators dgtee) [] in
      query_err (lift (json_delegatee
        (MkRespDelegatee (d_addr dgtee) (d_PubKey dgtee) (d_SelfPower dgtee) (d_SumPower dgtee) 0
           (d_Delegators dgtee) n stakes)))
  | _ => panic
  end.

(** A delegatee; another item is a nil pointer. *)
Definition item_dgt (x : VItem) : outcome Delegatee :=
  match x with IDelegatee d => Ok d | _ => Panic end.

(** [ret += d.SumPower] *)
Definition sum_powers (ds : list Delegatee) : Z :=
  fold_left (fun acc d => i64 (acc + d_SumPower d)) ds 0.

Definition queryTotalPower (height : Z) : VL bytes :=
  let! atledger := query_err (ImitableLedgerAt height) in
  let! ds := query_err (seek_append atledger KeyPrefixDelegatee (fun x => obind (item_dgt x) (fun d => Ok [d])) []) in
  ret (quoted (sum_powers ds)).

Definition queryVotingPower (height maxValCnt minValPower : Z) : VL bytes :=
  let! atledger := query_err (ImitableLedgerAt height) in
  let! delegatees := query_err (seek_append atledger KeyPrefixDelegatee
    (fun x => obind (item_dgt x) (fun d => Ok (if d_SelfPower d <? minValPower then [] else [d]))) []) in
  let sorted := go_sort power_less delegatees in
  let n := MinInt (Z.of_nat (length delegatees)) maxValCnt in
  let! validators := lift (if n <? 0 then Panic else Ok (take (Z.to_nat n) sorted)) in
  ret (quoted (sum_powers validators)).

Definition vp_Query (req : RequestQuery) (maxValCnt minValPower : Z) : M (VPowerCtrler T I) bytes :=
  zoom vp_lens (
    if bool_decide (rq_Path req = "stakes")%string then queryStakes (rq_Height req) (rq_Data req)
    else if bool_decide (rq_Path req = "delegatee")%string then queryDelegatee (rq_Height req) (rq_Data req)
    else if bool_decide (rq_Path req = "stakes/total_power")%string then queryTotalPower (rq_Height req)
    else if bool_decide (rq_Path req = "stakes/voting_power")%string
    then queryVotingPower (rq_Height req) maxValCnt minValPower
    else throw (Wrapf ErrQuery "unknown query path")).

End VPowerQuery.

(** ** Supply and rewards *)

Section SupplyQuery.
Context {T I : Type} `{Iavl T I} `{SupplyProtos, QueryJson}.
Abbreviation SL := (M (LState SupplyItem T I)).

Definition queryReward (height : Z) (address : Address) : SL bytes :=
  let! atledger := query_err (ImitableLedgerAt height) in
  let! r := try (lift (mem_get atledger (LedgerKeyReward address))) in
  (match r with
   | inr xerr => if negb (Contains xerr ErrNotFoundResult) then throw (Wrap ErrQuery xerr) else ret tt
   | inl _ => ret tt
   end) ;;;
  let rwd := match r with inl (IReward rwd) => rwd | _ => NewReward address end in
  query_err (lift (json_reward rwd)).

Definition queryTotalSupply (height : Z) : SL bytes :=
  let! atledger := query_err (ImitableLedgerAt height) in
  let! item := query_err (lift (mem_get atledger LedgerKeyTotalSupply)) in
  match item with
  | ISupply supply => ret (quoted (sp_totalSupply supply))
  | _ => throw (Wrap ErrQuery ErrNotFoundResult)
  end.

Definition supply_Query (req : RequestQuery) : M (SupplyCtrler T I) bytes :=
  zoom sup_lens (
    if bool_decide (rq_Path req = "reward")%string then queryReward (rq_Height req) (rq_Data req)
    else if bool_decide (rq_Path req = "total_supply")%string then queryTotalSupply (rq_Height req)
    else throw (Wrapf ErrQuery "unknown query path")).

End SupplyQuery.

(** ** Proposals and parameters *)

Section GovQuery.
Context {T I : Type} `{Iavl T I} `{GovProtos, QueryJson}.
Abbreviation GL := (M (LState GovItem T I)).

(** A failed type assertion leaves a nil proposal in the answer. *)
Definition resp_of (status : string) (x : GovItem) : respProposal :=
  MkRespProposal status (match x with IProposal p => Some p | _ => None end).

Definition query_proposals (atledger : MemLedger I) : GL bytes :=
  let! voting := query_err (seek_append atledger KeyPrefixProposal (fun x => Ok [resp_of "voting" x]) []) in
  let! both := query_err (seek_append atledger KeyPrefixFrozenProp (fun x => Ok [resp_of "frozen" x]) voting) in
  query_err (lift (json_proposals both)).

Definition query_proposal (atledger : MemLedger I) (txhash : bytes) : GL bytes :=
  let! r := try (lift (mem_get atledger (LedgerKeyProposal txhash))) in
  match r with
  | inl item => query_err (lift (json_proposal (resp_of "voting" item)))
  | inr xerr =>
      if Code xerr =? ErrCodeNotFoundResult then
        let! item := query_err (lift (mem_get atledger (LedgerKeyFrozenProp txhash))) in
        query_err (lift (json_proposal (resp_of "frozen" item)))
      else throw (Wrap ErrQuery xerr)
  end.

(** Another path is answered with nothing. *)
Definition gov_Query (req : RequestQuery) : M (GovCtrler T I) bytes :=
  zoom gov_lens (
    let! atledger := query_err (ImitableLedgerAt (rq_Height req)) in
    if bool_decide (rq_Path req = "proposal")%string then
      if (length (rq_Data req) =? 0)%nat then query_proposals atledger
      else query_proposal atledger (rq_Data req)
    else if bool_decide (rq_Path req = "gov_params")%string then
      let! govParams := query_err (lift (mem_get atledger LedgerKeyGovParams)) in
      query_err (lift (json_govItem govParams))
    else ret []).

End GovQuery.

(** ** Calls of the virtual machine *)

(** [StateDB.GetCode] *)
Class EthCode (S : Type) : Type := st_GetCode : S -> Address -> bytes.

Section EvmQuery.
Context {S DB D T I GP : Type} `{EthStateDB S, EthDB S DB, !EthCode S, TmDB D}.
Context `{Iavl T I, Proto AcctProto, GasPoolLib GP, !EthVM S (SimuAcctCtrler I), QueryJson}.
Abbreviation E := (EVMCtrler S DB D).
Abbreviation EM := (M (EVMCtrler S DB D * AcctCtrler T I)).

(** A state and accounts of a height, to be changed and thrown away. *)
Definition MemStateAt (height : Z) : EM (StateDBWrapper S * SimuAcctCtrler I) :=
  let! e := gets fst in
  let! hash := lift (from_err (db_Get (ev_metadb e) (blockKey height))) in
  let! stateDB := lift (from_err (state_New (Array32 (default [] hash)) (ev_ethDB e))) in
  let! memAcctHandler := zoom snd_lens (SimuAcctCtrlerAt height) in
  ret (MkWrapper stateDB ∅ 0 false, memAcctHandler).

Definition evm_GetCode (addr : Address) (height : Z) : EM bytes :=
  let! st := MemStateAt height in
  ret (st_GetCode (sw_StateDB (fst st)) (Array20 addr)).

Definition call_message (from to : Address) (data : bytes) : Message :=
  MkMessage (toAddr to) (Array20 from) 0 0 MaxInt64 0 0 0 data true 0 None.

(** Nobody cancels the machine of a call. *)
Definition callVM (from to : Address) (data : bytes) (height blockTime : Z) : EM ExecutionResult :=
  let! st := MemStateAt height in
  let vb := evmBlockContext (Array20 from) MaxInt64 height blockTime in
  lift (
    match Initiate [] 0 from to 0 false st with
    | (Ok _, st1) =>
        obind (gas_Add (gas_new : GP) (vb_GasLimit vb)) (fun gp =>
        from_err (fst (TransitionDb vb (call_message from to data) (MkST gp 0 0 st1))))
    | (Err e, _) => Err e
    | (Panic, _) => Panic
    end).

(** [Revert] and [Return] of an execution result. *)
Definition er_Revert (r : ExecutionResult) : bytes :=
  if bool_decide (er_Err r = Some ErrExecutionReverted) then er_ReturnData r else [].
Definition er_Return (r : ExecutionResult) : bytes :=
  match er_Err r with Some _ => [] | None => er_ReturnData r end.

(** What is answered; the data of a successful run only to a call. *)
Definition call_answer (path : string) (execRet : ExecutionResult) : VMCallResult :=
  match er_Err execRet with
  | Some err => MkVMCallResult (i64 (er_UsedGas execRet)) (Error err) (er_Revert execRet)
  | None =>
      MkVMCallResult (i64 (er_UsedGas execRet)) EmptyString
        (if bool_decide (path = "vm_call")%string then er_Return execRet else [])
  end.

(** [req.Data[types.AddrSize*2:]] panics on data that is too short. *)
Definition evm_Query (now : Z) (req : RequestQuery) : EM bytes :=
  if (length (rq_Data req) <? AddrSize * 2)%nat then panic
  else
    let from := take AddrSize (rq_Data req) in
    let to := take AddrSize (drop AddrSize (rq_Data req)) in
    let data := drop (AddrSize * 2) (rq_Data req) in
    let! e := gets fst in
    let height := if rq_Height req <=? 0 then ev_lastBlockHeight e else rq_Height req in
    let! execRet := callVM from to data height now in
    lift (from_err (json_vmcall (call_answer (rq_Path req) execRet))).

End EvmQuery.

(** ** The node *)

(** [Query] and [GetCode] of the virtual machine's controller. *)
Class IEVMQuery (E A : Type) : Type := {
  vm_Query : RequestQuery -> M (E * A) bytes;
  vm_GetCode : Address -> Z -> M (E * A) bytes;
}.

(** [fmt.Sprintf("\"%d\"", fee)] of a [*uint256.Int]. *)
Class FeeText : Type := fee_text : Z -> bytes.

Section NodeQuery.
Context {T I : Type} `{Iavl T I}.
Context `{Proto AcctProto, GovProtos, GovJson, VPowerProtos, SupplyProtos, CryptoLib, QueryJson, FeeText}.
Context {GP E D : Type} `{GasPoolLib GP} `{!IEVMQuery E (AcctCtrler T I)}.
Abbreviation NM := (M (Node T I E GP D)).

(** The value of a path, or its error. *)
Definition query_account (req : RequestQuery) : NM (bytes * option error) :=
  let! r := try (n_acct (acct_Query req)) in
  match r with
  | inr e => ret ([], Some e)
  | inl value =>
      match unjson_account value with
      | Panic => panic
      | Err e => ret (value, Some (Wrap ErrQuery e))
      | Ok acct =>
          match aa_Code acct with
          | None => ret (value, None)
          | Some _ =>
              let! c := try (n_evm (vm_GetCode (aa_Address acct) (rq_Height req))) in
              match c with
              | inr e => ret (value, Some (Wrap ErrQuery e))
              | inl code =>
                  match json_account_code (MkAcctAnswer (aa_Address acct) (aa_Name acct) (aa_Nonce acct)
                          (aa_Balance acct) (if bytes_Equal code [] then None else Some code) (aa_DocURL acct)) with
                  | Panic => panic
                  | Err e => ret (value, Some (Wrap ErrQuery e))
                  | Ok val => ret (val, None)
                  end
              end
          end
      end
  end.

(** The value of a controller, nothing on an error. *)
Definition answered (m : NM bytes) : NM (bytes * option error) :=
  let! r := try m in
  ret (match r with inl v => (v, None) | inr e => ([], Some e) end).

Definition is_path (req : RequestQuery) (ps : list string) : bool := bool_decide (rq_Path req ∈ ps).

Definition query_value (cfg : Config) (req : RequestQuery) : NM (bytes * option error) :=
  if is_path req ["chain_id"] then ret (uBytes (cfg_ChainId cfg), None)
  else if is_path req ["block_height"] then
    let! last := the_last in ret (put_be 8 (u64 (bc_Height last)), None)
  else if is_path req ["account"] then query_account req
  else if is_path req ["stakes"; "stakes/total_power"; "stakes/voting_power"; "delegatee"] then
    let! gp := n_govParams in
    answered (n_vp (zoom fst_lens (vp_Query req (GovParams.MaxValidatorCnt gp) (GovParams.MinValidatorPower gp))))
  else if is_path req ["reward"; "total_supply"] then answered (n_sup (zoom fst_lens (supply_Query req)))
  else if is_path req ["proposal"; "gov_params"] then answered (n_gov (gov_Query req))
  else if is_path req ["vm_call"; "vm_estimate_gas"] then answered (n_evm (vm_Query req))
  else if is_path req ["txn"] then
    let! m := gets nd_meta in ret (quoted (mdb_txn m), None)
  else if is_path req ["total_txfee"] then
    let! m := gets nd_meta in ret (fee_text (mdb_totalTxFee m), None)
  else ret ([], Some ErrInvalidQueryPath).

Definition Query (cfg : Config) (req0 : RequestQuery) : NM ResponseQuery :=
  let! height := (if rq_Height req0 =? 0 then let! last := the_last in ret (bc_Height last)
                  else ret (rq_Height req0)) in
  let req := MkRequestQuery (rq_Path req0) (rq_Data req0) height in
  let key := if (32 <? length (rq_Data req))%nat then DefaultHash [rq_Data req] else rq_Data req in
  let! r := query_value cfg req in
  let '(value, xerr) := r in
  ret (match xerr with
       | Some e => MkResponseQuery (Code e) (Error e) key height value
       | None => MkResponseQuery CodeTypeOK EmptyString key height value
       end).

End NodeQuery.
