(* ===== verification/History.v ===== *)
(** * History: committed versions do not change

    No operation of the node changes what the ledgers hold for a version that is
    already committed: a program [keeps] the history when the versions up to the
    last one of every ledger are the same after it.  The tactic [keeps] follows a
    program down to the operations of the ledgers. *)
From stdpp Require Import base gmap list strings.
From Stdlib Require Import ZArith Lia.
From S2P Require Import Prelude XErrors GoMonad LedgerKeys Iavl Ledger Units HexBytes Proto GovParams.
From S2P Require Import Account TrxTypes Signer AcctCtrler VPowerItems ValSet VPowerCtrler Proposal GovCtrler.
From S2P Require Import Numbers Weights SupplyCtrler TrxCtx MetaDB TrxExecutor Bank TrxPreparer App.
From S2P Require Import EvmTransition EvmCtrler Query.

(** ** Programs that keep a relation *)

Class Hist (S : Type) : Type := {
  hist : S -> S -> Prop;
  hist_refl : forall s, hist s s;
  hist_trans : forall s1 s2 s3, hist s1 s2 -> hist s2 s3 -> hist s1 s3;
}.

Definition keeps {S A : Type} `{Hist S} (m : M S A) : Prop := forall s, hist s (snd (m s)).

(** A part of a state without ledgers. *)
Definition no_hist (S : Type) : Hist S := {|
  hist _ _ := True;
  hist_refl _ := Logic.I;
  hist_trans _ _ _ _ _ := Logic.I;
|}.

#[export] Instance hist_list {A} : Hist (list A) := no_hist _.
#[export] Instance hist_Z : Hist Z := no_hist _.
#[export] Instance hist_frozen : Hist frozen_acc := no_hist _.
#[export] Instance hist_trx : Hist TrxContext := no_hist _.
#[export] Instance hist_block {GP} : Hist (BlockContext GP) := no_hist _.

(** The history of a part. *)
Definition hist_on {S L : Type} `{Hist L} (f : S -> L) : Hist S := {|
  hist s s' := hist (f s) (f s');
  hist_refl s := hist_refl (f s);
  hist_trans s1 s2 s3 := hist_trans (f s1) (f s2) (f s3);
|}.

#[export, refine] Instance hist_prod {A B} `{Hist A, Hist B} : Hist (A * B) := {|
  hist p q := hist (fst p) (fst q) /\ hist (snd p) (snd q);
|}.
Proof.
  - intros [a b]. split; apply hist_refl.
  - intros [a1 b1] [a2 b2] [a3 b3] [Ha Hb] [Ha' Hb']. split; eapply hist_trans; eauto.
Defined.

(** A lens that changes the history of the whole as it changes that of its part. *)
Class HistLens {S L : Type} `{Hist S, Hist L} (ln : lens S L) : Prop :=
  hist_lens : forall s l, hist (lget ln s) l -> hist s (lset ln l s).

Section Closure.
Context {S : Type} `{Hist S}.

Lemma keeps_ret {A} (a : A) : keeps (ret a).
Proof. intros s. apply hist_refl. Qed.
Lemma keeps_throw {A} e : keeps (@throw S A e).
Proof. intros s. apply hist_refl. Qed.
Lemma keeps_panic {A} : keeps (@panic S A).
Proof. intros s. apply hist_refl. Qed.
Lemma keeps_lift {A} (o : outcome A) : keeps (@lift S A o).
Proof. intros s. apply hist_refl. Qed.
Lemma keeps_gets {A} (f : S -> A) : keeps (gets f).
Proof. intros s. apply hist_refl. Qed.
Lemma keeps_modify (f : S -> S) : (forall s, hist s (f s)) -> keeps (modify f).
Proof. intros Hf s. apply Hf. Qed.

Lemma keeps_bind {A B} (m : M S A) (f : A -> M S B) : keeps m -> (forall a, keeps (f a)) -> keeps (bind m f).
Proof.
  intros Hm Hf s. unfold bind. specialize (Hm s). destruct (m s) as [[a|e|] s']; cbn in *; try done.
  eapply hist_trans; [exact Hm|apply Hf].
Qed.

Lemma keeps_try {A} (m : M S A) : keeps m -> keeps (try m).
Proof. intros Hm s. specialize (Hm s). unfold try. destruct (m s) as [[a|e|] s']; done. Qed.
Lemma keeps_ignore {A} (m : M S A) : keeps m -> keeps (ignore m).
Proof. intros Hm s. specialize (Hm s). unfold ignore. destruct (m s) as [[a|e|] s']; done. Qed.
Lemma keeps_must {A} (m : M S A) : keeps m -> keeps (must m).
Proof. intros Hm s. specialize (Hm s). unfold must. destruct (m s) as [[a|e|] s']; done. Qed.
Lemma keeps_untry {A} (r : A + error) : keeps (@untry S A r).
Proof. destruct r; [apply keeps_ret|apply keeps_throw]. Qed.

Lemma keeps_for_each {A} (l : list A) (body : A -> M S unit) : (forall x, keeps (body x)) -> keeps (for_each l body).
Proof. intros Hb. induction l as [|x l IH]; [apply keeps_ret|]. apply keeps_bind; [apply Hb|done]. Qed.

Lemma keeps_map_each {A B} (l : list A) (body : A -> M S B) : (forall x, keeps (body x)) -> keeps (map_each l body).
Proof.
  intros Hb. induction l as [|x l IH]; [apply keeps_ret|]. apply keeps_bind; [apply Hb|intros y].
  apply keeps_bind; [apply IH|intros ys]. apply keeps_ret.
Qed.

Lemma keeps_run_var {B A} `{Hist B} (b : B) (m : M (S * B) A) : keeps m -> keeps (run_var b m).
Proof. intros Hm s. specialize (Hm (s, b)). unfold run_var. destruct (m (s, b)) as [[a|e|] [s' b']]; apply Hm. Qed.

Lemma keeps_zoom {L A} `{Hist L} (ln : lens S L) (m : M L A) : HistLens ln -> keeps m -> keeps (zoom ln m).
Proof.
  intros Hl Hm s. specialize (Hm (lget ln s)). unfold zoom. destruct (m (lget ln s)) as [o l]. cbn in *. now apply hist_lens.
Qed.

End Closure.

#[export] Instance fst_hist {A B} `{Hist A, Hist B} : HistLens (@fst_lens A B).
Proof. intros [a b] a' Ha. split; [exact Ha|apply hist_refl]. Qed.
#[export] Instance snd_hist {A B} `{Hist A, Hist B} : HistLens (@snd_lens A B).
Proof. intros [a b] b' Hb. split; [apply hist_refl|exact Hb]. Qed.
#[export] Instance comp_hist {S L K} `{Hist S, Hist L, Hist K} (l1 : lens S L) (l2 : lens L K) `{!HistLens l1, !HistLens l2} :
  HistLens (lens_comp l1 l2).
Proof. intros s k Hk. cbn in *. now apply hist_lens, hist_lens. Qed.

(** ** The versions of a tree *)

Section Versions.
Context {T I : Type} `{Iavl T I}.

(** The versions of [t] are there in [t'], as they were. *)
Definition same_versions (t t' : T) : Prop :=
  tree_Version t <= tree_Version t' /\
  forall h, h <= tree_Version t -> tree_GetImmutable t' h = tree_GetImmutable t h.

Lemma same_versions_refl t : same_versions t t.
Proof. now split. Qed.
Lemma same_versions_trans t1 t2 t3 : same_versions t1 t2 -> same_versions t2 t3 -> same_versions t1 t3.
Proof. intros [H1 E1] [H2 E2]. split; [lia|]. intros h Hh. rewrite E2, E1 by lia. done. Qed.

End Versions.
Arguments same_versions : simpl never.

Create HintDb keeps discriminated.
#[export] Hint Resolve keeps_ret keeps_throw keeps_panic keeps_lift keeps_gets keeps_untry : keeps.

Ltac unfold_head m :=
  lazymatch m with
  | ?f _ => unfold_head f
  | ?f => unfold f
  end.

(** A change of a part without ledgers. *)
Ltac keeps_state :=
  intros; cbn; repeat match goal with
  | |- context [match ?x with _ => _ end] => destruct x; cbn
  end; repeat match goal with |- _ /\ _ => split end; first [exact Logic.I | apply same_versions_refl | apply hist_refl].

Ltac keeps_step :=
  lazymatch goal with
  | |- keeps (bind _ _) => apply keeps_bind; [|intros ?]
  | |- keeps (try _) => apply keeps_try
  | |- keeps (ignore _) => apply keeps_ignore
  | |- keeps (must _) => apply keeps_must
  | |- keeps (for_each _ _) => apply keeps_for_each; intros ?
  | |- keeps (map_each _ _) => apply keeps_map_each; intros ?
  | |- keeps (run_var _ _) => apply keeps_run_var
  | |- keeps (modify ?f) => try unfold_head f; apply keeps_modify; keeps_state
  | |- keeps (match ?x with _ => _ end) => destruct x
  | |- keeps ?m => first [solve [eauto 3 with keeps] | (apply keeps_zoom; [apply _|]) | unfold_head m; cbv beta zeta]
  end.

Ltac keeps := repeat keeps_step.

(** ** The ledgers *)

Section LedgerHistory.
Context {Item T I : Type} `{LedgerItem Item} `{Iavl T I, !IavlLaws T I}.

Definition hist_tree : Hist T :=
  {| hist := same_versions; hist_refl := same_versions_refl; hist_trans := same_versions_trans |}.

#[export] Instance hist_ledger : Hist (LState Item T I) := hist_on (H := hist_tree) (fun s => tree (commitLedger (ledger s))).
#[export] Instance hist_store : Hist (store Item) := no_hist _.
#[export] Instance store_hist : HistLens (@store_lens Item T I).
Proof. intros s st _. apply same_versions_refl. Qed.

Lemma hist_tree_Set t k v t' : tree_Set t k v = Ok t' -> same_versions t t'.
Proof.
  intros E. destruct (Set_law t k v) as (t1 & E1 & _ & Hv & Hi). rewrite E1 in E. injection E as <-.
  split; [lia|]. intros h _. apply Hi.
Qed.
Lemma hist_tree_Remove t k r : tree_Remove t k = Ok r -> same_versions t (snd r).
Proof.
  intros E. destruct (Remove_law t k) as (t1 & E1 & _ & Hv & Hi). rewrite E1 in E. injection E as <-.
  split; [cbn; lia|]. intros h _. apply Hi.
Qed.
Lemma hist_tree_SaveVersion t r : tree_SaveVersion t = Ok r -> same_versions t (snd r).
Proof.
  intros E. destruct (SaveVersion_law t) as (hash & t1 & i & E1 & _ & Hv & _ & _ & Hi). rewrite E1 in E.
  injection E as <-. split; [cbn; lia|]. intros h Hh. now apply Hi.
Qed.

Lemma keeps_get_tree : keeps (@get_tree Item T I).
Proof. apply keeps_gets. Qed.

Lemma l_deref_ledger l (s : LState Item T I) : ledger (snd (l_deref l s)) = ledger s.
Proof. unfold l_deref, zoom, deref. cbn. now destruct (objs (lstore s) !! l). Qed.

Lemma keeps_mut_Set k l : keeps (mut_Set (Item := Item) (T := T) k l).
Proof.
  apply keeps_bind; [|intros _; keeps].
  intros s. unfold mut_set, bind, get_tree, gets, lift. set (t := tree (commitLedger (ledger s))).
  rewrite Get_law. cbn. pose proof (l_deref_ledger l s) as Hs1.
  destruct (l_deref l s) as [[x|e|] s1]; cbn in *; [|rewrite Hs1; apply same_versions_refl..].
  destruct (Encode x) as [bz|e|]; cbn; [|rewrite Hs1; apply same_versions_refl..].
  destruct (tree_Set t k bz) as [t'|e|] eqn:Et; cbn; [|rewrite Hs1; apply same_versions_refl..].
  pose proof (hist_tree_Set _ _ _ _ Et) as Ht. destruct (value_changed _ _); exact Ht.
Qed.

Lemma keeps_mut_Del k : keeps (mut_Del (Item := Item) (T := T) k).
Proof.
  intros s. unfold mut_Del, bind, get_tree, gets, lift. set (t := tree (commitLedger (ledger s))).
  destruct (tree_Remove t k) as [[[old rm] t']|e|] eqn:Et; cbn; [|apply same_versions_refl..].
  pose proof (hist_tree_Remove _ _ _ Et) as Ht. destruct rm, k; exact Ht.
Qed.

Lemma keeps_mut_restore kv : keeps (mut_restore (Item := Item) (T := T) kv).
Proof.
  destruct kv as [k [v|]]; intros s; unfold mut_restore, bind, get_tree, gets, lift;
    set (t := tree (commitLedger (ledger s))).
  - destruct (tree_Set t k v) as [t'|e|] eqn:Et; cbn; [|apply same_versions_refl..].
    pose proof (hist_tree_Set _ _ _ _ Et) as Ht. destruct (decode_at k v), k; exact Ht.
  - destruct (tree_Remove t k) as [r|e|] eqn:Et; cbn; [|apply same_versions_refl..].
    pose proof (hist_tree_Remove _ _ _ Et) as Ht. destruct k; exact Ht.
Qed.

Lemma keeps_mut_Commit : keeps (mut_Commit (Item := Item) (T := T)).
Proof.
  intros s. unfold mut_Commit, bind, get_tree, gets, lift. set (t := tree (commitLedger (ledger s))).
  destruct (tree_SaveVersion t) as [[[hash ver] t']|e|] eqn:Et; cbn; [|apply same_versions_refl..].
  exact (hist_tree_SaveVersion _ _ Et).
Qed.

#[local] Hint Resolve keeps_get_tree keeps_mut_Set keeps_mut_Del keeps_mut_restore keeps_mut_Commit : keeps.

Lemma keeps_l_deref l : keeps (@l_deref Item T I l).
Proof. intros s. unfold l_deref, zoom, deref. cbn. destruct (objs (lstore s) !! l); apply same_versions_refl. Qed.
Lemma keeps_l_alloc x : keeps (@l_alloc Item T I x).
Proof. intros s. apply same_versions_refl. Qed.
Lemma keeps_l_assign l x : keeps (@l_assign Item T I l x).
Proof. intros s. apply same_versions_refl. Qed.
#[local] Hint Resolve keeps_l_deref keeps_l_alloc keeps_l_assign : keeps.

Lemma keeps_Get k exec : keeps (Get (Item := Item) (T := T) k exec).
Proof. keeps. Qed.
Lemma keeps_Set k l exec : keeps (Set_ (Item := Item) (T := T) k l exec).
Proof. keeps. Qed.
Lemma keeps_Del k exec : keeps (Del (Item := Item) (T := T) k exec).
Proof. keeps. Qed.
Lemma keeps_RevertToSnapshot snap exec : keeps (RevertToSnapshot (Item := Item) (T := T) snap exec).
Proof. keeps. Qed.
Lemma keeps_NewMemLedgerAt h : keeps (NewMemLedgerAt (Item := Item) (T := T) h).
Proof. keeps. Qed.
Lemma keeps_Commit : keeps (Ledger.Commit (Item := Item) (T := T)).
Proof. keeps. Qed.

(** An iteration keeps what its callback keeps. *)
Lemma keeps_seek_loop {S} `{Hist S} (ln : lens S (LState Item T I)) `{!HistLens ln} prefix kvs cb :
  (forall k l, keeps (cb k l)) -> keeps (seek_loop ln prefix kvs cb).
Proof.
  intros Hcb. induction kvs as [|[k v] kvs IH]; [apply keeps_ret|]. cbn [seek_loop].
  destruct (negb _); [apply keeps_ret|]. apply keeps_bind; [apply keeps_lift|intros x].
  apply keeps_bind; [apply keeps_zoom; [apply _|apply keeps_l_alloc]|intros l]. apply keeps_bind; [apply Hcb|done].
Qed.

Lemma keeps_Seek {S} `{Hist S} (ln : lens S (LState Item T I)) prefix asc cb exec :
  HistLens ln -> (forall k l, keeps (cb k l)) -> keeps (Seek ln prefix asc cb exec).
Proof.
  intros Hl Hcb. apply keeps_bind; [apply keeps_zoom; [apply _|keeps]|]. intros kvs. now apply keeps_seek_loop.
Qed.

Lemma keeps_mem_Seek {S} `{Hist S} (ln : lens S (LState Item T I)) ml prefix asc cb :
  HistLens ln -> (forall k l, keeps (cb k l)) -> keeps (mem_Seek ln ml prefix asc cb).
Proof.
  intros Hl Hcb. unfold mem_Seek. destruct (immuTree ml); [|apply keeps_throw].
  apply keeps_bind; [apply keeps_lift|]. intros kvs. now apply keeps_seek_loop.
Qed.

End LedgerHistory.

#[export] Hint Resolve keeps_l_deref keeps_l_alloc keeps_l_assign keeps_Get keeps_Set keeps_Del : keeps.
#[export] Hint Resolve keeps_RevertToSnapshot keeps_NewMemLedgerAt keeps_Commit : keeps.

(** A step of [keeps] that knows the iterations too. *)
Ltac keeps_ledger_step :=
  lazymatch goal with
  | |- keeps (Seek _ _ _ _ _) => apply keeps_Seek; [apply _|intros ? ?]
  | |- keeps (mem_Seek _ _ _ _ _) => apply keeps_mem_Seek; [apply _|intros ? ?]
  | _ => keeps_step
  end.
Ltac keeps ::= repeat keeps_ledger_step.

(** ** The controllers *)

Section Accounts.
Context {T I : Type} `{Iavl T I, !IavlLaws T I} `{Proto AcctProto}.

#[export] Instance hist_acct : Hist (AcctCtrler T I) := hist_on acctState.
#[export] Instance acct_hist : HistLens (@acct_lens T I).
Proof. intros s l Hl. exact Hl. Qed.

Lemma keeps_a_deref l : keeps (@a_deref T I l).
Proof. keeps. Qed.
Lemma keeps_a_assign l a : keeps (@a_assign T I l a).
Proof. keeps. Qed.
Lemma keeps_setAccount l exec : keeps (setAccount (T := T) l exec).
Proof. keeps. Qed.
Lemma keeps_findAccount addr exec : keeps (findAccount (T := T) addr exec).
Proof. keeps. Qed.
#[local] Hint Resolve keeps_a_deref keeps_a_assign keeps_setAccount keeps_findAccount : keeps.
Lemma keeps_FindOrNewAccount addr exec : keeps (ctrl_FindOrNewAccount (T := T) addr exec).
Proof. keeps. Qed.
Lemma keeps_Transfer from to amt exec : keeps (ctrl_Transfer (T := T) from to amt exec).
Proof. keeps. Qed.
Lemma keeps_Reward to amt exec : keeps (ctrl_Reward (T := T) to amt exec).
Proof. keeps. Qed.
Lemma keeps_AddBalance to amt exec : keeps (ctrl_AddBalance (T := T) to amt exec).
Proof. keeps. Qed.
Lemma keeps_SubBalance to amt exec : keeps (ctrl_SubBalance (T := T) to amt exec).
Proof. keeps. Qed.
Lemma keeps_SetBalance to amt exec : keeps (ctrl_SetBalance (T := T) to amt exec).
Proof. keeps. Qed.
Lemma keeps_acct_ExecuteTrx tx s r exec : keeps (acct_ExecuteTrx (T := T) tx s r exec).
Proof. keeps. Qed.
Lemma keeps_acct_InitLedger hs : keeps (acct_InitLedger (T := T) hs).
Proof. keeps. Qed.
Lemma keeps_acct_Commit : keeps (acct_Commit (T := T)).
Proof. keeps. Qed.

End Accounts.

(** The methods of the account handler. *)
Section Handler.
Context {T I : Type} `{Iavl T I, !IavlLaws T I} `{Proto AcctProto}.
Abbreviation A := (AcctCtrler T I).

Lemma keeps_h_get l : keeps (acct_get (A := A) l).
Proof. apply keeps_a_deref. Qed.
Lemma keeps_h_put l a : keeps (acct_put (A := A) l a).
Proof. apply keeps_a_assign. Qed.
Lemma keeps_h_SetAccount l exec : keeps (SetAccount (A := A) l exec).
Proof. apply keeps_setAccount. Qed.
Lemma keeps_h_FindOrNewAccount addr exec : keeps (FindOrNewAccount (A := A) addr exec).
Proof. apply keeps_FindOrNewAccount. Qed.
Lemma keeps_h_FindAccount addr exec : keeps (FindAccount (A := A) addr exec).
Proof. apply keeps_findAccount. Qed.
Lemma keeps_h_Transfer from to amt exec : keeps (Transfer (A := A) from to amt exec).
Proof. apply keeps_Transfer. Qed.
Lemma keeps_h_Reward to amt exec : keeps (AcctCtrler.Reward (A := A) to amt exec).
Proof. apply keeps_Reward. Qed.
Lemma keeps_h_AddBalance to amt exec : keeps (AddBalance_ (A := A) to amt exec).
Proof. apply keeps_AddBalance. Qed.
Lemma keeps_h_SubBalance to amt exec : keeps (SubBalance_ (A := A) to amt exec).
Proof. apply keeps_SubBalance. Qed.

End Handler.

#[export] Hint Resolve keeps_h_get keeps_h_put keeps_h_SetAccount keeps_h_FindOrNewAccount keeps_h_FindAccount : keeps.
#[export] Hint Resolve keeps_h_Transfer keeps_h_Reward keeps_h_AddBalance keeps_h_SubBalance : keeps.
#[export] Hint Resolve keeps_acct_ExecuteTrx keeps_acct_InitLedger keeps_acct_Commit : keeps.

Section VotingPowers.
Context {T I : Type} `{Iavl T I, !IavlLaws T I} `{VPowerProtos, CryptoLib} `{Proto AcctProto}.
Abbreviation V := (VPowerCtrler T I).
Abbreviation A := (AcctCtrler T I).

#[export] Instance hist_vp : Hist V := hist_on vpowerState.
#[export] Instance vp_hist : HistLens (@vp_lens T I).
Proof. intros s l Hl. exact Hl. Qed.

Lemma keeps_get_dgt l : keeps (@get_dgt T I l).
Proof. keeps. Qed.
Lemma keeps_get_vpow l : keeps (@get_vpow T I l).
Proof. keeps. Qed.
#[local] Hint Resolve keeps_get_dgt keeps_get_vpow : keeps.
Lemma keeps_bondPowerChunk d v p h txh exec : keeps (bondPowerChunk (T := T) d v p h txh exec).
Proof. keeps. Qed.
Lemma keeps_freezeList from pcs h exec : keeps (freezePowerChunkList (T := T) from pcs h exec).
Proof. keeps. Qed.
#[local] Hint Resolve keeps_bondPowerChunk keeps_freezeList : keeps.
Lemma keeps_unbond_all d h exec : keeps (unbond_all (T := T) d h exec).
Proof. keeps. Qed.
Lemma keeps_slash_each d r addrs acc : keeps (slash_each (T := T) d r addrs acc).
Proof. revert acc. induction addrs as [|a addrs IH]; intros acc; cbn [slash_each]; keeps. Qed.
#[local] Hint Resolve keeps_unbond_all keeps_slash_each : keeps.

Lemma keeps_vpower_ValidateTrx gp tx exec : keeps (vpower_ValidateTrx (T := T) gp tx exec).
Proof. keeps. Qed.
Lemma keeps_vpower_ExecuteTrx gp tx opt pk s h txh exec :
  keeps (vpower_ExecuteTrx (T := T) (A := A) gp tx opt pk s h txh exec).
Proof. keeps. Qed.
Lemma keeps_vpower_BeginBlock gp bi : keeps (vpower_BeginBlock (T := T) (A := A) gp bi).
Proof. keeps. Qed.
Lemma keeps_vpower_EndBlock gp h : keeps (vpower_EndBlock (T := T) (A := A) gp h).
Proof. keeps. Qed.
Lemma keeps_vpower_Commit : keeps (vpower_Commit (T := T)).
Proof. keeps. Qed.
Lemma keeps_vpower_InitLedger vs : keeps (vpower_InitLedger (T := T) vs).
Proof. keeps. Qed.
Lemma keeps_Validators : keeps (Validators (T := T) (I := I)).
Proof. keeps. Qed.

End VotingPowers.

Section Governance.
Context {T I : Type} `{Iavl T I, !IavlLaws T I} `{GovProtos, GovJson}.

#[export] Instance hist_gov : Hist (GovCtrler T I) := hist_on govState.
#[export] Instance gov_hist : HistLens (@gov_lens T I).
Proof. intros s l Hl. exact Hl. Qed.

Lemma keeps_gov_ValidateTrx isVal tx txh h exec : keeps (gov_ValidateTrx (T := T) isVal tx txh h exec).
Proof. keeps. Qed.
Lemma keeps_gov_ExecuteTrx vals total tx txh exec : keeps (gov_ExecuteTrx (T := T) vals total tx txh exec).
Proof. keeps. Qed.
Lemma keeps_gov_BeginBlock bs : keeps (gov_BeginBlock (T := T) bs).
Proof. keeps. Qed.
Lemma keeps_gov_EndBlock h : keeps (gov_EndBlock (T := T) h).
Proof. keeps. Qed.
Lemma keeps_gov_Commit : keeps (gov_Commit (T := T)).
Proof. keeps. Qed.
Lemma keeps_gov_InitLedger gp : keeps (gov_InitLedger (T := T) gp).
Proof. keeps. Qed.

End Governance.

Section SupplyHistory.
Context {T I : Type} `{Iavl T I, !IavlLaws T I} `{SupplyProtos, Proto AcctProto}.
Context {Dec Fixed : Type} `{DecimalLib Dec, FixedLib Fixed}.
Abbreviation A := (AcctCtrler T I).

#[export] Instance hist_sup : Hist (SupplyCtrler T I) := hist_on supplyState.
#[export] Instance sup_hist : HistLens (@sup_lens T I).
Proof. intros s l Hl. exact Hl. Qed.

Lemma keeps_supply_ValidateTrx tx exec : keeps (supply_ValidateTrx (T := T) tx exec).
Proof. keeps. Qed.
Lemma keeps_supply_ExecuteTrx tx r h exec : keeps (supply_ExecuteTrx (T := T) (A := A) tx r h exec).
Proof. keeps. Qed.
Lemma keeps_supply_BeginBlock gp h (w : Z -> outcome (fxnumWeight Fixed)) :
  keeps (supply_BeginBlock (T := T) (I := I) (Dec := Dec) gp h w).
Proof. keeps. Qed.
Lemma keeps_supply_EndBlock gp h : keeps (supply_EndBlock (T := T) gp h).
Proof. keeps. Qed.
Lemma keeps_supply_Commit : keeps (supply_Commit (T := T)).
Proof. keeps. Qed.
Lemma keeps_supply_InitLedger n : keeps (supply_InitLedger (T := T) (I := I) n).
Proof. keeps. Qed.

End SupplyHistory.

#[export] Hint Resolve keeps_vpower_ValidateTrx keeps_vpower_ExecuteTrx keeps_vpower_BeginBlock keeps_vpower_EndBlock
  keeps_vpower_Commit keeps_vpower_InitLedger keeps_Validators : keeps.
#[export] Hint Resolve keeps_gov_ValidateTrx keeps_gov_ExecuteTrx keeps_gov_BeginBlock keeps_gov_EndBlock keeps_gov_Commit
  keeps_gov_InitLedger : keeps.
#[export] Hint Resolve keeps_supply_ValidateTrx keeps_supply_ExecuteTrx keeps_supply_BeginBlock keeps_supply_EndBlock
  keeps_supply_Commit keeps_supply_InitLedger : keeps.

(** ** The node *)

Section NodeHistory.
Context {T I : Type} `{Iavl T I, !IavlLaws T I}.
Context {E GP D : Type}.

#[export, refine] Instance hist_chain : Hist (Chain T I E) := {|
  hist c c' := (hist (ch_gov c) (ch_gov c') /\ hist (ch_acct c) (ch_acct c')) /\
               (hist (ch_vp c) (ch_vp c') /\ hist (ch_sup c) (ch_sup c'));
|}.
Proof.
  - intros c. repeat split; apply Z.le_refl.
  - intros c1 c2 c3 [[Hg Ha] [Hv Hs]] [[Hg' Ha'] [Hv' Hs']].
    split; split; eapply hist_trans; eauto.
Defined.

#[export] Instance hist_node : Hist (Node T I E GP D) := hist_on nd_chain.
#[export] Instance hist_x : Hist (XState T I E GP) := hist_on x_chain.

End NodeHistory.

#[export] Instance hist_preparer {C R} : Hist (TrxPreparer C R) := no_hist _.

(** What the node needs of the virtual machine's controller: it keeps the history
    of the accounts. *)
Class EVMKeeps (E GP : Type) {T I : Type} `{Iavl T I, !IavlLaws T I} `{Proto AcctProto}
    `{!IEVMHandler E GP (AcctCtrler T I)} : Prop := {
  keeps_evm_ValidateTrx : keeps (S := EVMView E GP (AcctCtrler T I)) (H := hist_prod (H := hist_prod (H := no_hist E))) evm_ValidateTrx;
  keeps_evm_ExecuteTrx : keeps (S := EVMView E GP (AcctCtrler T I)) (H := hist_prod (H := hist_prod (H := no_hist E))) evm_ExecuteTrx;
  keeps_evm_BeginBlock : forall b gp, keeps (S := E * AcctCtrler T I) (H := hist_prod (H := no_hist E)) (evm_BeginBlock b gp);
  keeps_evm_EndBlock : keeps (S := E * AcctCtrler T I) (H := hist_prod (H := no_hist E)) evm_EndBlock;
  keeps_evm_Commit : keeps (S := E * AcctCtrler T I) (H := hist_prod (H := no_hist E)) evm_Commit;
}.
#[export] Hint Resolve keeps_evm_ValidateTrx keeps_evm_ExecuteTrx keeps_evm_BeginBlock keeps_evm_EndBlock keeps_evm_Commit : keeps.

Section Calls.
Context {T I : Type} `{Iavl T I, !IavlLaws T I}.
Context `{Proto AcctProto, GovProtos, GovJson, VPowerProtos, SupplyProtos, TrxProtos, CryptoLib, RlpLib, TmHash}.
Context {GP : Type} `{GasPoolLib GP}.
Context {E : Type} `{!IEVMHandler E GP (AcctCtrler T I), !EVMKeeps E GP}.
Context {D : Type} `{TmDB D, BctxJson, ChainIdText, GenesisJson}.
Context {Dec Fixed : Type} `{DecimalLib Dec, FixedLib Fixed}.
Context `{QueryJson, FeeText} `{!IEVMQuery E (AcctCtrler T I)}.
Abbreviation N := (Node T I E GP D).
Abbreviation X := (XState T I E GP).
#[local] Instance hist_evm : Hist E := no_hist E.

#[local] Instance node_chain_hist : HistLens (@node_chain T I E GP D).
Proof. intros n c Hc. exact Hc. Qed.
#[local] Instance hist_meta : Hist (MetaDB D) := no_hist _.
#[local] Instance node_meta_hist : HistLens (@node_meta T I E GP D).
Proof. intros n c _. apply (hist_refl (nd_chain n)). Qed.
#[local] Instance chain_lens_hist : HistLens (@chain_lens T I E GP).
Proof. intros n c Hc. exact Hc. Qed.
#[local] Instance gov_of_hist : HistLens (@gov_of T I E).
Proof. intros c g Hg. repeat split; try apply Hg; apply Z.le_refl. Qed.
#[local] Instance acct_of_hist : HistLens (@acct_of T I E).
Proof. intros c g Hg. repeat split; try apply Hg; apply Z.le_refl. Qed.
#[local] Instance vp_acct_of_hist : HistLens (@vp_acct_of T I E).
Proof. intros c g [Hg Hg']. repeat split; try apply Hg; try apply Hg'; apply Z.le_refl. Qed.
#[local] Instance sup_acct_of_hist : HistLens (@sup_acct_of T I E).
Proof. intros c g [Hg Hg']. repeat split; try apply Hg; try apply Hg'; apply Z.le_refl. Qed.
#[local] Instance evm_acct_of_hist : HistLens (@evm_acct_of T I E).
Proof. intros c g [_ Hg]. repeat split; try apply Hg; apply Z.le_refl. Qed.
#[local] Instance evm_view_hist : HistLens (@evm_view T I E GP).
Proof. intros c g [[_ Hg] _]. repeat split; try apply Hg; apply Z.le_refl. Qed.

Lemma keeps_IsHandledByEVM ctx : keeps (IsHandledByEVM (A := AcctCtrler T I) ctx).
Proof. keeps. Qed.
Lemma keeps_NewTrxContext sg gp cnt txbz exec : keeps (NewTrxContext (A := AcctCtrler T I) sg gp cnt txbz exec).
Proof. keeps. Qed.
#[local] Hint Resolve keeps_IsHandledByEVM keeps_NewTrxContext : keeps.

Lemma keeps_validateTrx : keeps (validateTrx (T := T) (E := E) (GP := GP)).
Proof. keeps. Qed.
Lemma keeps_execTrx : keeps (execTrx (T := T) (E := E) (GP := GP)).
Proof. keeps. Qed.
Lemma keeps_postRunTrx : keeps (postRunTrx (T := T) (E := E) (GP := GP)).
Proof. keeps. Qed.
#[local] Hint Resolve keeps_validateTrx keeps_execTrx keeps_postRunTrx : keeps.
Lemma keeps_ExecuteSync : keeps (ExecuteSync (T := T) (E := E) (GP := GP)).
Proof. keeps. Qed.

Lemma keeps_run_trx ctx b : keeps (run_trx (T := T) (E := E) (GP := GP) (D := D) ctx b).
Proof.
  intros n. unfold run_trx. pose proof (keeps_ExecuteSync (MkXState ctx b (nd_chain n))) as Hk.
  destruct (ExecuteSync _) as [[a|e|] x]; exact Hk.
Qed.
#[local] Hint Resolve keeps_run_trx : keeps.

Abbreviation TP := (TrxPreparer TrxContext ResponseDeliverTx).

Lemma keeps_Info cfg now : keeps (Info (T := T) (E := E) (GP := GP) (D := D) cfg now).
Proof. keeps. Qed.
Lemma keeps_InitChain req : keeps (InitChain (T := T) (E := E) (GP := GP) (D := D) req).
Proof. keeps. Qed.
Lemma keeps_CheckTx type txbz : keeps (CheckTx (T := T) (E := E) (GP := GP) (D := D) type txbz).
Proof. keeps. Qed.
Lemma keeps_BeginBlock req : keeps (BeginBlock (T := T) (E := E) (GP := GP) (D := D) (Dec := Dec) (Fixed := Fixed) req).
Proof. keeps. Qed.
Lemma keeps_onPrepare txbz idx : keeps (onPrepare (T := T) (E := E) (GP := GP) (D := D) txbz idx).
Proof. keeps. Qed.
Lemma keeps_exec_results idx rs : keeps (exec_results (T := T) (E := E) (GP := GP) (D := D) idx rs).
Proof. revert idx. induction rs as [|[r|] rs IH]; intros idx; cbn [exec_results]; keeps. Qed.
#[local] Hint Resolve keeps_exec_results : keeps.
Lemma keeps_EndBlock : keeps (EndBlock (T := T) (E := E) (GP := GP) (D := D)).
Proof. keeps. Qed.
Lemma keeps_Commit_node cfg : keeps (Commit (T := T) (E := E) (GP := GP) (D := D) cfg).
Proof. keeps. Qed.
Lemma keeps_DeliverTx txbz : keeps (DeliverTx (T := T) (I := I) (E := E) (GP := GP) (D := D) txbz).
Proof. keeps. Qed.

Lemma keeps_turn i : keeps (trxPreparerRoutine (onPrepare (T := T) (E := E) (GP := GP) (D := D)) i : M (TP * N) unit).
Proof.
  intros [tp n]. unfold trxPreparerRoutine. destruct (tp_chReqParams tp !! i) as [[|p q]|]; try apply hist_refl.
  pose proof (keeps_onPrepare (rp_req p) (rp_idx p) n) as Hk.
  destruct (onPrepare _ _ n) as [[out|e|] n']; try (split; [exact Logic.I|exact Hk]).
  destruct (tp_complete _ _); (split; [exact Logic.I|exact Hk]).
Qed.

(** ** Sequences of calls *)

(** The calls the consensus engine makes, and the turns of the goroutines that
    prepare transactions. *)
Inductive call : Type :=
| CInfo (now : Z)
| CInitChain (req : RequestInitChain)
| CCheckTx (type : CheckTxType) (txbz : bytes)
| CBeginBlock (req : RequestBeginBlock)
| CDeliverTx (txbz : bytes)
| CTurn (i : nat)
| CEndBlock
| CCommit.

Definition run_call (cfg : Config) (c : call) : M (TP * N) unit :=
  match c with
  | CInfo now => ignore (zoom snd_lens (Info cfg now))
  | CInitChain req => ignore (zoom snd_lens (InitChain req))
  | CCheckTx type txbz => ignore (zoom snd_lens (CheckTx type txbz))
  | CBeginBlock req => ignore (zoom snd_lens (BeginBlock (Dec := Dec) (Fixed := Fixed) req))
  | CDeliverTx txbz => ignore (DeliverTx txbz)
  | CTurn i => trxPreparerRoutine onPrepare i
  | CEndBlock => ignore EndBlock
  | CCommit => ignore (zoom snd_lens (Commit cfg))
  end.

Definition run_calls (cfg : Config) (cs : list call) : M (TP * N) unit := for_each cs (run_call cfg).

Lemma keeps_run_calls cfg cs : keeps (run_calls cfg cs).
Proof.
  apply keeps_for_each. intros [now|req|type txbz|req|txbz|i| |]; cbn [run_call].
  - apply keeps_ignore, keeps_zoom, keeps_Info. apply _.
  - apply keeps_ignore, keeps_zoom, keeps_InitChain. apply _.
  - apply keeps_ignore, keeps_zoom, keeps_CheckTx. apply _.
  - apply keeps_ignore, keeps_zoom, keeps_BeginBlock. apply _.
  - apply keeps_ignore, keeps_DeliverTx.
  - apply keeps_turn.
  - apply keeps_ignore, keeps_EndBlock.
  - apply keeps_ignore, keeps_zoom, keeps_Commit_node. apply _.
Qed.

End Calls.

(** ** The virtual machine *)

(** The interpreter reaches the accounts through the wrapper only, whose methods
    find accounts and never commit. *)
Class VMKeeps (S : Type) {T I : Type} `{Iavl T I, !IavlLaws T I} `{!EthVM S (AcctCtrler T I)} : Prop := {
  keeps_vm_Call : forall vb from to data gas v,
    keeps (H := hist_prod (H := no_hist _)) (vm_Call (S := S) (A := AcctCtrler T I) vb from to data gas v);
  keeps_vm_Create : forall vb from data gas v,
    keeps (H := hist_prod (H := no_hist _)) (vm_Create (S := S) (A := AcctCtrler T I) vb from data gas v);
}.
#[export] Hint Resolve keeps_vm_Call keeps_vm_Create : keeps.

Section Evm.
Context {S DB D GP T I : Type} `{EthStateDB S, EthDB S DB, TmDB D, TmBatch D, GasPoolLib GP}.
Context `{Iavl T I, !IavlLaws T I, Proto AcctProto, !EthVM S (AcctCtrler T I), !VMKeeps S}.
Abbreviation A := (AcctCtrler T I).
Abbreviation E := (EVMCtrler S DB D).
#[local] Instance hist_wrapper : Hist (StateDBWrapper S) := no_hist _.
#[local] Instance hist_evmctrler : Hist E := no_hist _.
#[local] Instance hist_transition : Hist (VMStateTransition GP S A) := hist_on st_state.
#[local] Instance state_lens_hist : HistLens (@state_lens GP S A).
Proof. intros t w Hw. exact Hw. Qed.

Lemma keeps_TransitionDb vb msg : keeps (TransitionDb (S := S) (A := A) (GP := GP) vb msg).
Proof. keeps. Qed.

Abbreviation V := (EVMView E GP A).

Lemma keeps_with_wrapper {B} (m : M (StateDBWrapper S * A) B) :
  keeps m -> keeps (with_wrapper (DB := DB) (D := D) (GP := GP) m).
Proof.
  intros Hm [[e a] bt]. unfold with_wrapper. destruct (ev_stateDBWrapper e) as [w|]; [|apply hist_refl].
  specialize (Hm (w, a)). destruct (m (w, a)) as [o [w' a']]. destruct Hm as [_ Ha].
  split; [split; [exact Logic.I|exact Ha]|apply hist_refl].
Qed.

Lemma keeps_run_transition vb msg : keeps (run_transition (S := S) (DB := DB) (D := D) (A := A) (GP := GP) vb msg).
Proof.
  intros [[e a] [b ctx]]. unfold run_transition. destruct (ev_stateDBWrapper e) as [w|]; [|apply hist_refl].
  pose proof (keeps_TransitionDb vb msg (MkST (bc_blockGasPool b) 0 0 (w, a))) as Hk.
  destruct (TransitionDb _ _ _) as [o t]. destruct Hk as [_ Ha]. split; [split; [exact Logic.I|exact Ha]|].
  split; exact Logic.I.
Qed.
#[local] Hint Resolve keeps_run_transition : keeps.

Ltac keeps_evm := repeat lazymatch goal with
  | |- keeps (with_wrapper _) => apply keeps_with_wrapper
  | _ => keeps_ledger_step
  end.

#[export] Instance EVMCtrler_keeps : EVMKeeps E GP (T := T) (I := I).
Proof.
  split.
  - change (keeps (ctrl_ValidateTrx (S := S) (DB := DB) (D := D) (A := A) (GP := GP))). keeps_evm.
  - change (keeps (ctrl_ExecuteTrx (S := S) (DB := DB) (D := D) (A := A) (GP := GP))). keeps_evm.
  - intros b gp. change (keeps (ctrl_BeginBlock (S := S) (DB := DB) (D := D) (A := A) (GP := GP) b gp)). keeps_evm.
  - change (keeps (ctrl_EndBlock (S := S) (DB := DB) (D := D) (A := A))). keeps_evm.
  - change (keeps (ctrl_Commit (S := S) (DB := DB) (D := D) (A := A))). keeps_evm.
Qed.

End Evm.
