(* ===== verification/QueryProps.v ===== *)
(** * QueryProps: what the answers are

    An answer is a function of the committed version it is read from: it changes
    nothing but the objects read, and no later call of the node changes it.  The
    powers, stakes, accounts and proposals answered are those of the version, and a
    call of the virtual machine is answered for every sender. *)
From stdpp Require Import base gmap list strings.
From Stdlib Require Import ZArith Lia.
From S2P Require Import Prelude XErrors GoMonad LedgerKeys Iavl Ledger LedgerSpec LedgerOps Units HexBytes Proto GovParams.
From S2P Require Import Account TrxTypes Signer AcctCtrler VPowerItems ValSet VPowerCtrler Proposal GovCtrler.
From S2P Require Import Numbers Weights SupplyCtrler TrxCtx MetaDB TrxExecutor Bank TrxPreparer App.
From S2P Require Import EvmTransition EvmCtrler Query History VPowerInv VPowerWp VPowerProps ToyNode AppProps.

(** ** Programs that only read *)

Section Det.
Context {Item T I : Type} `{LedgerItem Item, Iavl T I}.
Abbreviation LS := (LState Item T I).

(** The same outcome from every state, of which only the objects change. *)
Definition det {A : Type} (m : M LS A) : Prop :=
  exists o, forall s, exists st, m s = (o, MkLState st (ledger s)).

Lemma det_ret {A} (a : A) : det (ret a).
Proof. exists (Ok a). intros [st l]. now exists st. Qed.
Lemma det_throw {A} e : det (@throw LS A e).
Proof. exists (Err e). intros [st l]. now exists st. Qed.
Lemma det_panic {A} : det (@panic LS A).
Proof. exists Panic. intros [st l]. now exists st. Qed.
Lemma det_lift {A} (o : outcome A) : det (@lift LS A o).
Proof. exists o. intros [st l]. now exists st. Qed.

Lemma det_bind {A B} (m : M LS A) (f : A -> M LS B) : det m -> (forall a, det (f a)) -> det (bind m f).
Proof.
  intros [o Hm] Hf. destruct o as [a|e|].
  - destruct (Hf a) as [o' Ha]. exists o'. intros s. destruct (Hm s) as [st Es].
    destruct (Ha (MkLState st (ledger s))) as [st' Es']. exists st'. unfold bind. now rewrite Es, Es'.
  - exists (Err e). intros s. destruct (Hm s) as [st Es]. exists st. unfold bind. now rewrite Es.
  - exists Panic. intros s. destruct (Hm s) as [st Es]. exists st. unfold bind. now rewrite Es.
Qed.

Lemma det_try {A} (m : M LS A) : det m -> det (try m).
Proof.
  intros [o Hm]. exists (match o with Ok a => Ok (inl a) | Err e => Ok (inr e) | Panic => Panic end).
  intros s. destruct (Hm s) as [st Es]. exists st. unfold try. rewrite Es. now destruct o.
Qed.

Lemma det_query_err {A} (m : M LS A) : det m -> det (query_err m).
Proof. intros Hm. apply det_bind; [now apply det_try|]. intros [a|e]; [apply det_ret|apply det_throw]. Qed.

(** The entries given to a callback that appends. *)
Fixpoint scan {B : Type} (f : Item -> outcome (list B)) (kvs : list (bytes * bytes)) (acc : list B) : outcome (list B) :=
  match kvs with
  | [] => Ok acc
  | kv :: rest =>
      obind (decode_at (fst kv) (snd kv)) (fun x => obind (f x) (fun bs => scan f rest (acc ++ bs)))
  end.

Definition scan_at {B : Type} (ml : MemLedger I) (prefix : bytes) (f : Item -> outcome (list B)) (acc : list B)
    : outcome (list B) :=
  match immuTree ml with
  | None => Err ErrNotFoundResult
  | Some i => obind (from_err (imm_Iterator i prefix true)) (fun kvs => scan f (take_prefix prefix kvs) acc)
  end.

Lemma visits_scan {B} (f : Item -> outcome (list B)) kvs : forall (s : LS) acc, exists st acc',
  for_each kvs (visit fst_lens (fun _ l =>
    let! x := zoom fst_lens (l_deref l) in
    let! bs := lift (f x) in
    modify (fun '(s, acc) => (s, acc ++ bs)))) (s, acc) =
  match scan f kvs acc with
  | Ok r => (Ok tt, (MkLState st (ledger s), r))
  | Err e => (Err e, (MkLState st (ledger s), acc'))
  | Panic => (Panic, (MkLState st (ledger s), acc'))
  end.
Proof.
  induction kvs as [|[k v] kvs IH]; intros [st l] acc; cbn [scan for_each].
  { now exists st, acc. }
  unfold visit at 1, bind, lift. cbn [fst snd]. destruct (decode_at k v) as [x|e|]; [|now exists st, acc..].
  cbn [obind]. unfold zoom, l_alloc, l_deref, alloc, deref. cbn. unfold zoom, alloc, deref. cbn. rewrite lookup_insert_eq. cbn.
  destruct (f x) as [bs|e|]; cbn [obind]; [|now eexists _, acc..].
  edestruct IH as (st' & acc' & E). exists st', acc'. etransitivity; [exact E|]. done.
Qed.

Lemma seek_append_scan {B} (ml : MemLedger I) prefix (f : Item -> outcome (list B)) acc (s : LS) :
  exists st, seek_append ml prefix f acc s = (scan_at ml prefix f acc, MkLState st (ledger s)).
Proof.
  unfold seek_append, scan_at. set (cb := fun (_ : bytes) (l : loc) => _).
  unfold bind at 1, run_var, mem_Seek. destruct (immuTree ml) as [i|]; [|destruct s as [st l]; now exists st].
  unfold bind at 1, lift. destruct (from_err (imm_Iterator i prefix true)) as [kvs|e|];
    [|destruct s as [st l]; now exists st..].
  cbn [obind]. rewrite seek_loop_visits.
  destruct (visits_scan f (take_prefix prefix kvs) s acc) as (st & acc' & E). unfold cb. rewrite E.
  exists st. now destruct (scan _ _ _).
Qed.

Lemma det_seek_append {B} (ml : MemLedger I) prefix (f : Item -> outcome (list B)) acc : det (seek_append ml prefix f acc).
Proof. exists (scan_at ml prefix f acc). intros s. apply seek_append_scan. Qed.

(** ** Answers of a version *)

(** An answer at [h] depends on the ledger of the version [h] only, and leaves the
    ledgers alone. *)
Definition reads {A : Type} (h : Z) (q : M LS A) : Prop :=
  (forall s1 s2, fst (NewMemLedgerAt h s1) = fst (NewMemLedgerAt h s2) -> fst (q s1) = fst (q s2)) /\
  (forall s, ledger (snd (q s)) = ledger s).

Lemma NewMemLedgerAt_run h (s : LS) :
  NewMemLedgerAt h s =
  (if 0 <? h then
     match from_err (tree_GetImmutable (tree (commitLedger (ledger s))) h) with
     | Ok i => Ok (MkMemLedger (Some i) ∅ [])
     | Err e => Err e
     | Panic => Panic
     end
   else Ok (MkMemLedger None ∅ []), s).
Proof.
  unfold NewMemLedgerAt, mut_GetReadOnlyTree, get_tree, bind, gets, lift, ret. destruct (0 <? h); [|done].
  now destruct (from_err _).
Qed.

Lemma MemLedgerAt_reads h (s : LS) : snd (NewMemLedgerAt h s) = s.
Proof. now rewrite NewMemLedgerAt_run. Qed.

Lemma reads_body {A} h (body : MemLedger I -> M LS A) :
  (forall ml, det (body ml)) -> reads h (let! ml := query_err (ImitableLedgerAt h) in body ml).
Proof.
  intros Hb. unfold query_err, ImitableLedgerAt, bind, try, ret, throw. split.
  - intros s1 s2 E. pose proof (MemLedgerAt_reads h s1) as E1. pose proof (MemLedgerAt_reads h s2) as E2.
    destruct (NewMemLedgerAt h s1) as [o s1'], (NewMemLedgerAt h s2) as [o2 s2']. cbn in *. subst.
    destruct o2 as [ml|e|]; [|done..]. destruct (Hb ml) as [o Ho].
    destruct (Ho s1) as [st1 ->], (Ho s2) as [st2 ->]. done.
  - intros s. pose proof (MemLedgerAt_reads h s) as E. destruct (NewMemLedgerAt h s) as [o s']. cbn in E. subst.
    destruct o as [ml|e|]; [|done..]. destruct (Hb ml) as [o Ho]. now destruct (Ho s) as [st ->].
Qed.

End Det.

Create HintDb det discriminated.
#[export] Hint Resolve det_ret det_throw det_panic det_lift det_seek_append : det.

Ltac det :=
  repeat lazymatch goal with
  | |- det (bind _ _) => apply det_bind; [|intros ?]
  | |- det (try _) => apply det_try
  | |- det (query_err _) => apply det_query_err
  | |- det (match ?x with _ => _ end) => destruct x
  | |- det _ => first [solve [eauto 2 with det] | progress cbv beta zeta]
  end.

Section Readers.
Context {T I : Type} `{Iavl T I} `{VPowerProtos, SupplyProtos, GovProtos, CryptoLib, QueryJson, Proto AcctProto}.

Lemma det_delegator_stakes (ml : MemLedger I) to ds : forall stakes, det (delegator_stakes (T := T) ml to ds stakes).
Proof. induction ds as [|a ds IH]; intros stakes; cbn [delegator_stakes]; det. Qed.
#[local] Hint Resolve det_delegator_stakes : det.

Lemma reads_queryStakes h addr : reads h (queryStakes (T := T) (I := I) h addr).
Proof. apply reads_body. intros ml. det. Qed.
Lemma reads_queryDelegatee h addr : reads h (queryDelegatee (T := T) (I := I) h addr).
Proof. apply reads_body. intros ml. det. Qed.
Lemma reads_queryTotalPower h : reads h (queryTotalPower (T := T) (I := I) h).
Proof. apply reads_body. intros ml. det. Qed.
Lemma reads_queryVotingPower h maxValCnt minValPower : reads h (queryVotingPower (T := T) (I := I) h maxValCnt minValPower).
Proof. apply reads_body. intros ml. det. Qed.
Lemma reads_queryReward h addr : reads h (queryReward (T := T) (I := I) h addr).
Proof. apply reads_body. intros ml. det. Qed.
Lemma reads_queryTotalSupply h : reads h (queryTotalSupply (T := T) (I := I) h).
Proof. apply reads_body. intros ml. det. Qed.

Definition gov_body (req : RequestQuery) (atledger : MemLedger I) : M (LState GovItem T I) bytes :=
  if bool_decide (rq_Path req = "proposal")%string then
    if (length (rq_Data req) =? 0)%nat then query_proposals atledger else query_proposal atledger (rq_Data req)
  else if bool_decide (rq_Path req = "gov_params")%string then
    let! govParams := query_err (lift (mem_get atledger LedgerKeyGovParams)) in
    query_err (lift (json_govItem govParams))
  else ret [].

Lemma reads_gov_body req :
  reads (rq_Height req) (let! ml := query_err (ImitableLedgerAt (rq_Height req)) in gov_body req ml).
Proof. apply reads_body. intros ml. unfold gov_body, query_proposals, query_proposal. det. Qed.

(** The result of a query of a part is that of the part. *)
Lemma fst_zoom {S L A} (ln : lens S L) (m : M L A) s : fst (zoom ln m s) = fst (m (lget ln s)).
Proof. unfold zoom. now destruct (m (lget ln s)). Qed.

(** The answer about an account depends on the version of the ledger only. *)
Lemma acct_Query_reads req (s : AcctCtrler T I) : snd (acct_Query req s) = s.
Proof.
  unfold acct_Query, query_err, ImitableLedgerAt, bind, try, zoom, lift, ret, throw. rewrite NewMemLedgerAt_run. cbv beta iota.
  rewrite lset_lget. destruct (if 0 <? _ then _ else _) as [ml|e|]; [|done..]. cbv beta iota.
  destruct (mem_get ml _); [|..|done]; by destruct (json_account _).
Qed.

Lemma acct_Query_version req (s s' : AcctCtrler T I) :
  fst (NewMemLedgerAt (rq_Height req) (acctState s')) = fst (NewMemLedgerAt (rq_Height req) (acctState s)) ->
  fst (acct_Query req s') = fst (acct_Query req s).
Proof.
  intros Hv. unfold acct_Query, query_err, ImitableLedgerAt, bind, try, zoom, lift, ret, throw. cbn [lget acct_lens].
  destruct (NewMemLedgerAt _ (acctState s')) as [o ls'], (NewMemLedgerAt _ (acctState s)) as [o0 ls]. cbn in Hv. subst o0.
  destruct o as [ml|e|]; [|done..]. destruct (mem_get ml _); [|..|done]; by destruct (json_account _).
Qed.

(** The same version of the ledger. *)
Lemma same_version_ledger {Item} `{LedgerItem Item} (s s' : LState Item T I) h :
  same_versions (tree (commitLedger (ledger s))) (tree (commitLedger (ledger s'))) ->
  h <= tree_Version (tree (commitLedger (ledger s))) ->
  fst (NewMemLedgerAt h s') = fst (NewMemLedgerAt h s).
Proof. intros [_ Hv] Hh. rewrite !NewMemLedgerAt_run. cbn. now rewrite Hv. Qed.

End Readers.

(** The tests of the path of a request. *)
Ltac eval_paths :=
  repeat match goal with
  | |- context [is_path ?r ?l] => let b := eval vm_compute in (is_path r l) in change (is_path r l) with b
  | |- context [bool_decide (rq_Path ?r = ?p)] =>
      let b := eval vm_compute in (bool_decide (rq_Path r = p)) in change (bool_decide (rq_Path r = p)) with b
  end; cbv iota.

(** ** The node *)

Section Stable.
Context {T I : Type} `{Iavl T I, !IavlLaws T I}.
Context `{Proto AcctProto, GovProtos, GovJson, VPowerProtos, SupplyProtos, TrxProtos, CryptoLib, RlpLib, TmHash}.
Context {GP : Type} `{GasPoolLib GP}.
Context {E : Type} `{!IEVMHandler E GP (AcctCtrler T I), !EVMKeeps E GP}.
Context {D : Type} `{TmDB D, BctxJson, ChainIdText, GenesisJson}.
Context {Dec Fixed : Type} `{DecimalLib Dec, FixedLib Fixed}.
Context `{QueryJson, FeeText} `{!IEVMQuery E (AcctCtrler T I)}.
Abbreviation N := (Node T I E GP D).

(** The paths that are answered from the ledgers alone.  An account may be a
    contract, whose code is the virtual machine's; the power of the validators
    depends on the present parameters; calls of the virtual machine, the counts of
    transactions and fees and the height are answered from elsewhere. *)
Definition ledger_paths : list string :=
  ["stakes"; "stakes/total_power"; "delegatee"; "reward"; "total_supply"; "proposal"; "gov_params"]%string.

Definition vtree {Item} (s : LState Item T I) : Z := tree_Version (tree (commitLedger (ledger s))).

(** The height is committed in the ledgers. *)
Definition committed_to (n : N) (h : Z) : Prop :=
  0 < h <= vtree (vpowerState (ch_vp (nd_chain n))) /\ h <= vtree (acctState (ch_acct (nd_chain n))) /\
  h <= vtree (supplyState (ch_sup (nd_chain n))) /\ h <= vtree (govState (ch_gov (nd_chain n))).

Lemma answered_eq (q q' : M N bytes) n n' :
  fst (q n) = fst (q' n') -> fst (answered q n) = fst (answered q' n').
Proof.
  unfold answered, bind, try, ret. intros Eq. destruct (q n) as [o s], (q' n') as [o' s']. cbn in Eq. subst.
  now destruct o'.
Qed.

Lemma stable_read {Item} `{LedgerItem Item} (q : M (LState Item T I) bytes) h (s s' : LState Item T I) :
  reads h q -> same_versions (tree (commitLedger (ledger s))) (tree (commitLedger (ledger s'))) -> h <= vtree s ->
  fst (q s') = fst (q s).
Proof. intros [Hq _] Hv Hh. apply Hq. now apply same_version_ledger. Qed.

Lemma query_value_stable cfg path data h n n' :
  hist n n' -> committed_to n h -> path ∈ ledger_paths ->
  fst (query_value cfg (MkRequestQuery path data h) n') = fst (query_value cfg (MkRequestQuery path data h) n).
Proof.
  intros [[Hg _] [Hv Hs]] (Hh & _ & Hhs & Hhg) Hp. unfold query_value.
  repeat (apply elem_of_cons in Hp as [->|Hp]); [eval_paths..|now apply elem_of_nil in Hp].
  1-3: apply answered_eq; unfold n_vp, vp_Query; rewrite !fst_zoom; eval_paths; cbn [rq_Height rq_Data].
  4-5: apply answered_eq; unfold n_sup, supply_Query; rewrite !fst_zoom; eval_paths; cbn [rq_Height rq_Data].
  6-7: apply answered_eq; unfold n_gov, gov_Query; rewrite !fst_zoom.
  - apply (stable_read _ h); [apply reads_queryStakes|exact Hv|exact (proj2 Hh)].
  - apply (stable_read _ h); [apply reads_queryTotalPower|exact Hv|exact (proj2 Hh)].
  - apply (stable_read _ h); [apply reads_queryDelegatee|exact Hv|exact (proj2 Hh)].
  - apply (stable_read _ h); [apply reads_queryReward|exact Hs|exact Hhs].
  - apply (stable_read _ h); [apply reads_queryTotalSupply|exact Hs|exact Hhs].
  - apply (stable_read _ h); [apply (reads_gov_body (MkRequestQuery "proposal" data h))|exact Hg|exact Hhg].
  - apply (stable_read _ h); [apply (reads_gov_body (MkRequestQuery "gov_params" data h))|exact Hg|exact Hhg].
Qed.

(** The validators' power, with the parameters of the present. *)
Lemma voting_power_stable cfg data h n n' :
  let gp := govParams (ch_gov (nd_chain n)) in
  let gp' := govParams (ch_gov (nd_chain n')) in
  hist n n' -> committed_to n h ->
  GovParams.MaxValidatorCnt gp' = GovParams.MaxValidatorCnt gp -> GovParams.MinValidatorPower gp' = GovParams.MinValidatorPower gp ->
  let req := MkRequestQuery "stakes/voting_power" data h in
  fst (query_value cfg req n') = fst (query_value cfg req n).
Proof.
  cbn zeta. intros [_ [Hv _]] (Hh & _) Hmax Hmin. unfold query_value. eval_paths. unfold n_govParams, bind, gets. rewrite Hmax, Hmin.
  apply answered_eq. unfold n_vp, vp_Query. rewrite !fst_zoom. eval_paths. cbn [rq_Height].
  apply (stable_read _ h); [apply reads_queryVotingPower|exact Hv|exact (proj2 Hh)].
Qed.

(** An account, when the virtual machine's answer about its code is the same or
    it has none. *)
Definition code_kept (h : Z) (data : bytes) (n n' : N) : Prop :=
  forall v acct, fst (acct_Query (MkRequestQuery "account" data h) (ch_acct (nd_chain n))) = Ok v -> unjson_account v = Ok acct ->
    aa_Code acct = None \/ fst (n_evm (vm_GetCode (aa_Address acct) h) n') = fst (n_evm (vm_GetCode (aa_Address acct) h) n).

Lemma account_stable cfg data h n n' :
  hist n n' -> committed_to n h -> code_kept h data n n' ->
  let req := MkRequestQuery "account" data h in
  fst (query_value cfg req n') = fst (query_value cfg req n).
Proof.
  intros [[_ Ha] _] (_ & Hh & _) Hcode req. unfold query_value. subst req. eval_paths. set (req := MkRequestQuery "account" data h) in *.
  assert (fst (acct_Query req (ch_acct (nd_chain n'))) = fst (acct_Query req (ch_acct (nd_chain n)))) as Hq
    by (by apply acct_Query_version, same_version_ledger).
  assert (forall m : N, n_acct (acct_Query req) m = (fst (acct_Query req (ch_acct (nd_chain m))), m)) as Hrun.
  { intros m. unfold n_acct, zoom. change (lget (lens_comp node_chain acct_of) m) with (ch_acct (nd_chain m)).
    pose proof (acct_Query_reads req (ch_acct (nd_chain m))) as Er. revert Er.
    destruct (acct_Query req (ch_acct (nd_chain m))) as [o a]. cbn [fst snd]. intros ->.
    f_equal. exact (lset_lget _ _ (lens_comp node_chain acct_of) m). }
  unfold query_account, try, bind. rewrite !Hrun, Hq.
  destruct (fst (acct_Query req (ch_acct (nd_chain n)))) as [v|e|] eqn:Ev; [|done..]. destruct (unjson_account v) as [acct|e|] eqn:Eu; [|done..].
  specialize (Hcode v acct Ev Eu). destruct (aa_Code acct); [|done]. destruct Hcode as [Hcode|Hcode]; [done|].
  cbn [rq_Height req]. destruct (n_evm _ n') as [o' s'], (n_evm _ n) as [o s]. cbn in Hcode. subst o'.
  destruct o as [code|e|]; [|done..]. by destruct (json_account_code _).
Qed.

(** C6. The answer to a query at a committed height does not change: whatever
    calls the node receives after it, transactions checked, delivered and
    prepared in any order, blocks begun, ended and committed, the response to the
    same query is the same for stakes, total power, delegatees, rewards, the total
    supply, proposals and parameters; for an account that has no code, or whose
    code the virtual machine answers as before; and for the voting power as long
    as the present number of validators and their least power are the same. *)
Theorem answers_stable cfg cs tp n path data h :
  committed_to n h ->
  let n' := snd (snd (run_calls (Dec := Dec) (Fixed := Fixed) cfg cs (tp, n))) in
  let gp := govParams (ch_gov (nd_chain n)) in
  let gp' := govParams (ch_gov (nd_chain n')) in
  path ∈ ledger_paths \/
  path = "account"%string /\ code_kept h data n n' \/
  path = "stakes/voting_power"%string /\ GovParams.MaxValidatorCnt gp' = GovParams.MaxValidatorCnt gp /\
    GovParams.MinValidatorPower gp' = GovParams.MinValidatorPower gp ->
  fst (Query cfg (MkRequestQuery path data h) n') = fst (Query cfg (MkRequestQuery path data h) n).
Proof.
  intros Hc. pose proof (keeps_run_calls (Dec := Dec) (Fixed := Fixed) cfg cs (tp, n)) as [_ Hk]. cbn [snd] in Hk. cbn zeta.
  revert Hk. generalize (snd (snd (run_calls (Dec := Dec) (Fixed := Fixed) cfg cs (tp, n)))). intros n' Hk Hp.
  assert (fst (query_value cfg (MkRequestQuery path data h) n') = fst (query_value cfg (MkRequestQuery path data h) n)) as Ev.
  { destruct Hp as [Hp|[[-> Hp]|(-> & Hp1 & Hp2)]]; [by apply query_value_stable|by apply account_stable|by apply voting_power_stable]. }
  destruct Hc as [[Hh _] _]. unfold Query, bind. cbn [rq_Height rq_Path rq_Data].
  rewrite (proj2 (Z.eqb_neq h 0)) by lia. cbn.
  destruct (query_value cfg _ n') as [o s], (query_value cfg _ n) as [o' s']. cbn in Ev. subst.
  now destruct o' as [[v x]|e|].
Qed.

End Stable.

(** ** The items of a version *)

Section Items.
Context {Item T I : Type} `{LedgerItem Item, !LedgerItemLaws Item} `{Iavl T I, !IavlLaws T I}.
Implicit Types (c : gmap bytes bytes) (m : gmap bytes Item).

(** The version [h] of the ledger is committed and holds [m]. *)
Definition holds (s : LState Item T I) (h : Z) (m : gmap bytes Item) : Prop :=
  exists i, 0 < h /\ tree_GetImmutable (tree (commitLedger (ledger s))) h = Ok i /\ represents (imm_contents i) m.

(** A commit makes a version of what the delivering ledger holds. *)
Lemma commit_holds (s : LState Item T I) m :
  coh ∅ s m -> holds (snd (Ledger.Commit s)) (tree_Version (tree (commitLedger (ledger s))) + 1) m.
Proof.
  intros [Ht _ _ _]. unfold exec_contents in Ht. unfold Ledger.Commit, mut_Commit, bind, get_tree, gets, lift.
  set (t := tree (commitLedger (ledger s))) in *.
  destruct (SaveVersion_law t) as (hash & t' & i & Es & Hc & Hv & Hi & Hci & _). rewrite Es. cbn [from_err].
  unfold modify, ret. rewrite NewMemLedgerAt_run. pose proof (Version_nonneg t).
  rewrite (proj2 (Z.ltb_lt 0 (tree_Version t + 1))) by lia. cbn. rewrite Hi. cbn.
  exists i. split; [lia|]. split; [exact Hi|]. now rewrite Hci.
Qed.

(** The items with a prefix, in the order of their keys. *)
Definition items_with c m (prefix : bytes) : list Item := omap (fun kv => m !! fst kv) (with_prefix c prefix).

Lemma elem_of_items_with c m prefix x :
  represents c m -> x ∈ items_with c m prefix <-> exists k, m !! k = Some x /\ bytes_HasPrefix k prefix = true.
Proof.
  intros Hr. unfold items_with. rewrite list_elem_of_omap. split.
  - intros ([k b] & Hin & Hk). apply elem_of_with_prefix in Hin as [_ Hp]. exists k. split; [exact Hk|exact Hp].
  - intros (k & Hk & Hp). destruct (represents_lookup _ _ _ _ Hr Hk) as (b & Hb & _). exists (k, b).
    split; [|exact Hk]. now apply elem_of_with_prefix.
Qed.

(** A scan whose callback succeeds collects from all of them. *)
Lemma scan_items {B} (f : Item -> outcome (list B)) (g : Item -> list B) c m prefix acc :
  represents c m -> (forall x, x ∈ items_with c m prefix -> f x = Ok (g x)) ->
  scan f (with_prefix c prefix) acc = Ok (acc ++ flat_map g (items_with c m prefix)).
Proof.
  intros Hr. unfold items_with.
  assert (Hin : Forall (fun kv => c !! fst kv = Some (snd kv)) (with_prefix c prefix)).
  { apply Forall_forall. intros [k b] Hk. now apply elem_of_with_prefix in Hk as [Hk _]. }
  revert acc. induction Hin as [|[k b] kvs Hk _ IH]; intros acc Hf.
  { cbn. now rewrite app_nil_r. }
  pose proof (Hr k) as Hrk. cbn [fst snd] in Hk. rewrite Hk in Hrk. inversion Hrk as [? x Hst E1 E2|]; subst.
  assert (Eo : omap (fun kv : bytes * bytes => m !! fst kv) ((k, b) :: kvs) = x :: omap (fun kv => m !! fst kv) kvs).
  { cbn. now rewrite <- E2. }
  rewrite Eo in *. cbn [scan fst snd]. rewrite (stored_decode _ _ _ Hst). cbn [obind].
  rewrite (Hf x) by constructor. cbn [obind flat_map]. rewrite IH; [now rewrite app_assoc|].
  intros y Hy. apply Hf. now constructor.
Qed.

Lemma scan_at_items {B} (f : Item -> outcome (list B)) (g : Item -> list B) i m prefix acc :
  represents (imm_contents i) m -> (forall x, x ∈ items_with (imm_contents i) m prefix -> f x = Ok (g x)) ->
  scan_at (MkMemLedger (Some i) ∅ []) prefix f acc = Ok (acc ++ flat_map g (items_with (imm_contents i) m prefix)).
Proof.
  intros Hr Hf. unfold scan_at. cbn. rewrite imm_Iterator_law. cbn. unfold iteration.
  unfold entries_from. rewrite take_prefix_sorted by apply key_sorted_sorted. now apply scan_items.
Qed.

(** The body of a query on the ledger of a version. *)
Lemma query_at {A} (s : LState Item T I) h i (body : MemLedger I -> M (LState Item T I) A) :
  0 < h -> tree_GetImmutable (tree (commitLedger (ledger s))) h = Ok i ->
  (let! ml := query_err (ImitableLedgerAt h) in body ml) s = body (MkMemLedger (Some i) ∅ []) s.
Proof.
  intros Hh Hi. unfold query_err, ImitableLedgerAt, bind, try. rewrite NewMemLedgerAt_run.
  rewrite (proj2 (Z.ltb_lt 0 h)) by done. now rewrite Hi.
Qed.

(** A scan of a query that collects from all items. *)
Lemma query_items {A B} (f : Item -> outcome (list B)) (g : Item -> list B) i m prefix acc
    (k : list B -> M (LState Item T I) A) s :
  represents (imm_contents i) m -> (forall x, x ∈ items_with (imm_contents i) m prefix -> f x = Ok (g x)) ->
  exists st, (let! xs := query_err (seek_append (MkMemLedger (Some i) ∅ []) prefix f acc) in k xs) s =
    k (acc ++ flat_map g (items_with (imm_contents i) m prefix)) (MkLState st (ledger s)).
Proof.
  intros Hr Hf. destruct (seek_append_scan (MkMemLedger (Some i) ∅ []) prefix f acc s) as [st E].
  exists st. unfold query_err, bind, try. rewrite E, (scan_at_items f g i m prefix acc Hr Hf). done.
Qed.

End Items.

(** ** The answers about voting powers *)

(** A sum over a map is the sum over a list of its keys that has every key that
    counts. *)
Lemma msum_keys {V} (f : bytes -> V -> Z) (ks : list bytes) : forall m : gmap bytes V,
  NoDup ks -> (forall k v, m !! k = Some v -> f k v <> 0 -> k ∈ ks) -> msum f m = zsum (map (at_key f m) ks).
Proof.
  induction ks as [|k ks IH]; intros m Hnd Hall.
  - rewrite (msum_ext f (fun _ _ => 0)).
    + clear Hall. induction m as [|k v m Hk IHm] using map_ind; [apply msum_empty|].
      rewrite msum_insert_None by done. cbn in *. lia.
    + intros k v Hk. destruct (Z.eq_dec (f k v) 0) as [|Hn]; [done|]. specialize (Hall k v Hk Hn).
      now apply elem_of_nil in Hall.
  - apply NoDup_cons in Hnd as [Hk Hnd]. cbn [map zsum]. specialize (IH (delete k m) Hnd).
    rewrite msum_delete in IH. rewrite <- (zsum_map_ext (at_key f (delete k m)) (at_key f m)), <- IH; [lia| |].
    + intros k' v Hk' Hn. apply lookup_delete_Some in Hk' as [Hne Hk'].
      specialize (Hall k' v Hk' Hn). apply elem_of_cons in Hall as [->|]; done.
    + intros k' Hk'. unfold at_key. rewrite lookup_delete_ne by (intros ->; done). done.
Qed.

Section Powers.
Context {T I : Type} `{Iavl T I, !IavlLaws T I} `{VPowerProtos, !VPowerProtosLaws, CryptoLib, QueryJson}.
Implicit Types (m : vmap).

#[local] Arguments LedgerKeyDelegatee : simpl never.
#[local] Arguments LedgerKeyVPower : simpl never.

Definition dgt_list (x : VItem) : list Delegatee := match x with IDelegatee d => [d] | _ => [] end.

(** The delegatees of a version, in the order of their addresses. *)
Definition dgts_at (c : gmap bytes bytes) m : list Delegatee := flat_map dgt_list (items_with c m KeyPrefixDelegatee).

Lemma dgt_prefix m k x : typed m -> m !! k = Some x -> bytes_HasPrefix k KeyPrefixDelegatee = true ->
  exists d, x = IDelegatee d /\ k = LedgerKeyDelegatee (d_addr d).
Proof.
  intros Ht Hk Hp. specialize (Ht k x Hk). destruct x as [v|d|f|n]; cbn in Ht.
  - destruct Ht as (-> & _). discriminate.
  - destruct Ht as (-> & _). now exists d.
  - destruct Ht as ((h & from & -> & _) & _). discriminate.
  - destruct Ht as ((a & ->) & _). discriminate.
Qed.

Lemma items_dgt c m x :
  represents c m -> typed m -> x ∈ items_with c m KeyPrefixDelegatee -> exists d, x = IDelegatee d.
Proof.
  intros Hr Ht Hx. apply (elem_of_items_with _ _ _ _ Hr) in Hx as (k & Hk & Hp).
  destruct (dgt_prefix m k x Ht Hk Hp) as (d & -> & _). eauto.
Qed.

Lemma elem_of_dgts c m d : represents c m -> typed m ->
  d ∈ dgts_at c m <-> m !! LedgerKeyDelegatee (d_addr d) = Some (IDelegatee d).
Proof.
  intros Hr Ht. unfold dgts_at. rewrite list_elem_of_In, in_flat_map. split.
  - intros (x & Hx & Hd). apply list_elem_of_In in Hx. apply (elem_of_items_with _ _ _ _ Hr) in Hx as (k & Hk & Hp).
    destruct (dgt_prefix m k x Ht Hk Hp) as (d' & -> & ->). destruct Hd as [->|[]]. done.
  - intros Hk. exists (IDelegatee d). split; [|now left]. apply list_elem_of_In, (elem_of_items_with _ _ _ _ Hr).
    eexists. split; [exact Hk|]. apply bytes_HasPrefix_spec. now exists (d_addr d).
Qed.

Lemma dgts_keys c m : represents c m -> typed m ->
  map (fun d => LedgerKeyDelegatee (d_addr d)) (dgts_at c m) = map fst (with_prefix c KeyPrefixDelegatee).
Proof.
  intros Hr Ht. unfold dgts_at, items_with.
  assert (Hin : Forall (fun kv => is_Some (m !! fst kv) /\ bytes_HasPrefix (fst kv) KeyPrefixDelegatee = true)
                  (with_prefix c KeyPrefixDelegatee)).
  { apply Forall_forall. intros [k b] Hk. apply elem_of_with_prefix in Hk as [Hk Hp]. split; [|done].
    specialize (Hr k). rewrite Hk in Hr. inversion Hr. cbn. eauto. }
  induction Hin as [|[k b] kvs [[x Hx] Hp] _ IH]; [done|]. cbn [fst] in *.
  destruct (dgt_prefix m k x Ht Hx Hp) as (d & -> & ->).
  assert (Eo : omap (fun kv : bytes * bytes => m !! fst kv) ((LedgerKeyDelegatee (d_addr d), b) :: kvs) =
               IDelegatee d :: omap (fun kv => m !! fst kv) kvs) by (cbn; now rewrite Hx).
  rewrite Eo. cbn [flat_map dgt_list app map fst]. now f_equal.
Qed.

Lemma NoDup_dgts c m : represents c m -> typed m -> NoDup (map d_addr (dgts_at c m)).
Proof.
  intros Hr Ht. apply (NoDup_fmap_1 LedgerKeyDelegatee). pose proof (NoDup_with_prefix c KeyPrefixDelegatee) as Hnd.
  rewrite <- (dgts_keys c m Hr Ht) in Hnd. now rewrite <- (map_map d_addr LedgerKeyDelegatee) in Hnd.
Qed.

(** The keys of the powers bonded to a delegatee. *)
Definition bond_keys (d : Delegatee) : list bytes := map (fun f => LedgerKeyVPower f (d_addr d)) (d_Delegators d).

Lemma NoDup_bond_keys m ds : vinv m ->
  Forall (fun d => m !! LedgerKeyDelegatee (d_addr d) = Some (IDelegatee d)) ds -> NoDup (map d_addr ds) ->
  NoDup (flat_map bond_keys ds).
Proof.
  intros Hm Hds. induction Hds as [|d ds Hd Hds IH]; intros Hnd; [constructor|]. cbn [flat_map].
  apply NoDup_cons in Hnd as [Hd' Hnd]. pose proof (vi_typed _ Hm _ _ Hd) as (_ & _ & _ & Hl & _).
  pose proof (vi_part _ Hm _ Hl) as Hp. unfold dgt_part in Hp. rewrite Hd in Hp.
  apply NoDup_app. split; [|split; [|now apply IH]].
  - apply (NoDup_fmap_2_strong (fun f => LedgerKeyVPower f (d_addr d))); [intros f g _ _ Hfg; now apply vkey_inj_from in Hfg|].
    apply (dk_nodup _ _ _ Hp).
  - intros k Hk Hk'. apply list_elem_of_In, in_map_iff in Hk as (f & <- & _).
    apply list_elem_of_In, in_flat_map in Hk' as (d2 & Hd2 & Hk'). apply in_map_iff in Hk' as (g & E & _).
    pose proof (proj1 (Forall_forall _ _) Hds d2 (proj2 (list_elem_of_In _ _) Hd2)) as Hm2. cbn in Hm2.
    pose proof (vi_typed _ Hm _ _ Hm2) as (_ & _ & _ & Hl2 & _).
    apply vkey_to in E as [_ E]; [|congruence]. apply Hd'. rewrite <- E. apply (list_elem_of_fmap_2 d_addr).
    now apply list_elem_of_In.
Qed.

(** The delegatees have all that is bonded. *)
Lemma bonded_dgts c m : represents c m -> vinv m ->
  bonded m = zsum (map (fun d => vsum_all m (d_addr d)) (dgts_at c m)).
Proof.
  intros Hr Hm. pose proof (vi_typed _ Hm) as Ht.
  assert (Hds : Forall (fun d => m !! LedgerKeyDelegatee (d_addr d) = Some (IDelegatee d)) (dgts_at c m)).
  { apply Forall_forall. intros d Hd. now apply (elem_of_dgts c m d Hr Ht). }
  unfold bonded. rewrite (msum_keys bonded_of (flat_map bond_keys (dgts_at c m))).
  - clear Hr. induction Hds as [|d ds Hd _ IH]; [done|]. cbn [flat_map map zsum]. rewrite map_app, zsum_app, IH. f_equal.
    unfold vsum_all. rewrite Hd. unfold bond_keys. rewrite map_map. apply zsum_map_ext. intros f _. apply at_vkey.
  - apply (NoDup_bond_keys m); [done|done|]. now apply NoDup_dgts.
  - intros k [v|d|f|n] Hk Hn; try done. pose proof (Ht _ _ Hk) as (-> & _ & _ & Hl & _).
    pose proof (vi_part _ Hm _ Hl) as Hp. unfold dgt_part in Hp.
    destruct (m !! LedgerKeyDelegatee (v_to v)) as [[|d| |]|] eqn:Ed; try done.
    + pose proof (Ht _ _ Ed) as (Ek & _). apply dkey_inj in Ek.
      apply list_elem_of_In, in_flat_map. exists d. split.
      * apply list_elem_of_In, (elem_of_dgts c m d Hr Ht). now rewrite <- Ek.
      * apply in_map_iff. exists (v_from v). split; [now rewrite <- Ek|]. apply list_elem_of_In.
        apply (dk_powers _ _ _ Hp). eauto.
    + now rewrite Hp in Hk.
Qed.

Lemma fold_powers ds : forall acc, fold_left (fun acc d => i64 (acc + d_SumPower d)) ds (i64 acc) = i64 (acc + zsum (map d_SumPower ds)).
Proof.
  induction ds as [|d ds IH]; intros acc; cbn; [f_equal; lia|].
  replace (i64 (i64 acc + d_SumPower d)) with (i64 (acc + d_SumPower d)) by i64_ring. rewrite IH. f_equal. lia.
Qed.

Lemma sum_powers_spec ds : sum_powers ds = i64 (zsum (map d_SumPower ds)).
Proof. exact (fold_powers ds 0). Qed.

(** The total power answered for a committed height is what is bonded in the
    voting powers of that version, chunk by chunk, as a 64-bit number: the
    delegatees' sums neither miss a bonded chunk nor count one twice. *)
Theorem total_power_answer (s : LState VItem T I) h m :
  holds s h m -> vinv m -> fst (queryTotalPower h s) = Ok (quoted (i64 (bonded m))).
Proof.
  intros (i & Hh & Hi & Hr) Hm. pose proof (vi_typed _ Hm) as Ht. unfold queryTotalPower. rewrite (query_at s h i _ Hh Hi).
  destruct (query_items (fun x => obind (item_dgt x) (fun d => Ok [d])) dgt_list i m KeyPrefixDelegatee []
    (fun ds => ret (quoted (sum_powers ds))) s Hr) as [st ->]; [intros x Hx; now apply (items_dgt _ _ _ Hr Ht) in Hx as [d ->]|].
  cbn [ret fst app]. fold (dgts_at (imm_contents i) m). rewrite sum_powers_spec, (bonded_dgts _ _ Hr Hm). do 2 f_equal.
  apply eqm64_i64. assert (Hds : Forall (fun d => d_SumPower d = i64 (vsum_all m (d_addr d))) (dgts_at (imm_contents i) m)).
  { apply Forall_forall. intros d Hd. apply (elem_of_dgts _ _ _ Hr Ht) in Hd. unfold vsum_all. rewrite Hd.
    pose proof (Ht _ _ Hd) as (_ & _ & _ & Hl & _). pose proof (vi_part _ Hm _ Hl) as Hp. unfold dgt_part in Hp.
    rewrite Hd in Hp. apply (dk_sum _ _ _ Hp). }
  induction Hds as [|d ds Hd _ IH]; [done|]. cbn [map zsum]. rewrite Hd, IH, i64_eqm. done.
Qed.

(** The delegatees a validator is chosen from in the answer. *)
Definition eligible (minValPower : Z) (ds : list Delegatee) : list Delegatee :=
  List.filter (fun d => negb (d_SelfPower d <? minValPower)) ds.

Lemma flat_map_eligible minValPower ds :
  flat_map (fun d => if d_SelfPower d <? minValPower then [] else [d]) ds = eligible minValPower ds.
Proof. induction ds as [|d ds IH]; [done|]. cbn. rewrite IH. now destruct (_ <? _). Qed.

(** The voting power answered for a committed height is the power of the
    validators that would be selected from the delegatees of that version with
    the minimum self power; the node itself selects from all delegatees, so the
    answer is the power of its validators when no delegatee is below the
    minimum. *)
Theorem voting_power_answer (s : LState VItem T I) h i m maxVals minPower sorted sel :
  0 < h -> tree_GetImmutable (tree (commitLedger (ledger s))) h = Ok i -> represents (imm_contents i) m -> typed m ->
  selectValidators (eligible minPower (dgts_at (imm_contents i) m)) maxVals = Ok (sorted, sel) ->
  fst (queryVotingPower h maxVals minPower s) = Ok (quoted (i64 (zsum (map d_SumPower sel)))) /\
  (Forall (fun d => minPower <= d_SelfPower d) (dgts_at (imm_contents i) m) ->
   selectValidators (dgts_at (imm_contents i) m) maxVals = Ok (sorted, sel)).
Proof.
  intros Hh Hi Hr Ht Hsel. split.
  - unfold queryVotingPower. rewrite (query_at s h i _ Hh Hi).
    set (g := fun x => flat_map (fun d => if d_SelfPower d <? minPower then [] else [d]) (dgt_list x)).
    match goal with |- context [bind (query_err (seek_append ?ml ?p ?f ?acc)) ?k] =>
      destruct (query_items f g i m p acc k s Hr) as [st ->] end.
    { intros x Hx. apply (items_dgt _ _ _ Hr Ht) in Hx as [d ->]. cbn. destruct (_ <? _); done. }
    cbn [app]. replace (flat_map g _) with (eligible minPower (dgts_at (imm_contents i) m)).
    2: { rewrite <- flat_map_eligible. unfold dgts_at, g. induction (items_with _ _ _) as [|x xs IH]; [done|].
         cbn [flat_map]. now rewrite flat_map_app, IH. }
    unfold selectValidators in Hsel. unfold bind, lift. destruct (_ <? 0); [done|]. injection Hsel as _ <-.
    cbn. now rewrite sum_powers_spec.
  - intros Hmin. rewrite <- Hsel. f_equal. clear Hsel. unfold eligible. induction Hmin as [|d ds Hd _ IH]; [done|].
    cbn [List.filter]. rewrite (proj2 (Z.ltb_ge _ _) Hd). cbn [negb]. now f_equal.
Qed.

(** The stakes of a voting power item. *)
Definition stakes_of (x : VItem) : list respStake :=
  match x with IVPower v => map (stake_of v) (v_PowerChunks v) | _ => [] end.

Lemma vpow_prefix m k x addr : typed m -> length addr = AddrSize -> m !! k = Some x ->
  bytes_HasPrefix k (LedgerKeyVPower addr []) = true -> exists v, x = IVPower v /\ k = LedgerKeyVPower addr (v_to v) /\ v_from v = addr.
Proof.
  intros Ht Hl Hk Hp. specialize (Ht k x Hk). destruct x as [v|d|f|n]; cbn in Ht.
  - destruct Ht as (-> & _ & Hf & _). exists v. apply vpower_prefix_iff in Hp as ->; [done|congruence].
  - destruct Ht as (-> & _). discriminate.
  - destruct Ht as ((h & from & -> & _) & _). discriminate.
  - destruct Ht as ((a & ->) & _). discriminate.
Qed.

(** The stakes answered for an address at a committed height are the chunks
    of all voting powers the address has delegated in that version, and of no
    other, in the order of the delegatees' addresses. *)
Theorem stakes_answer (s : LState VItem T I) h i m addr :
  0 < h -> tree_GetImmutable (tree (commitLedger (ledger s))) h = Ok i -> represents (imm_contents i) m -> typed m ->
  length addr = AddrSize ->
  let xs := items_with (imm_contents i) m (LedgerKeyVPower addr []) in
  fst (queryStakes h addr s) = fst (query_err (lift (json_stakes (flat_map stakes_of xs))) s) /\
  forall x, x ∈ xs <-> exists v, x = IVPower v /\ v_from v = addr /\ m !! LedgerKeyVPower addr (v_to v) = Some x.
Proof.
  intros Hh Hi Hr Ht Hl xs. unfold xs. split.
  - unfold queryStakes. rewrite (query_at s h i _ Hh Hi).
    destruct (query_items item_stakes stakes_of i m (LedgerKeyVPower addr []) []
      (fun stakes => query_err (lift (json_stakes stakes))) s Hr) as [st ->].
    { intros x Hx. apply (elem_of_items_with _ _ _ _ Hr) in Hx as (k & Hk & Hp).
      destruct (vpow_prefix m k x addr Ht Hl Hk Hp) as (v & -> & _). done. }
    unfold query_err, bind, try, lift. cbn [app]. now destruct (json_stakes _).
  - intros x. rewrite (elem_of_items_with _ _ _ _ Hr). split.
    + intros (k & Hk & Hp). destruct (vpow_prefix m k x addr Ht Hl Hk Hp) as (v & -> & -> & Hv). eauto.
    + intros (v & -> & Hv & Hk). eexists. split; [exact Hk|]. now apply vpower_prefix_iff.
Qed.

End Powers.

(** ** Witnesses *)

Module QueryWitness.
Import VPowerProps.VPowerWitness.

#[local] Existing Instances w_crypto w_protos w_protos_laws.

#[local] Instance w_json : QueryJson := {|
  json_account _ := Ok []; unjson_account _ := Err (GoError "EOF"); json_account_code _ := Ok [];
  json_stakes ss := Ok (map rs_Power ss); json_delegatee d := Ok [rd_TotalPower d];
  json_proposals _ := Ok []; json_proposal _ := Ok []; json_govItem _ := Ok []; json_reward _ := Ok []; json_vmcall r := Ok [vr_UsedGas r];
|}.

(** The genesis validators after their first block. *)
Definition vledger : LState VItem RefTree.tree (gmap bytes bytes) := snd (Ledger.Commit (vpowerState vstart)).

Lemma vledger_holds : exists m, holds vledger 1 m /\ vinv m /\ bonded m = 18000000.
Proof.
  destruct vstart_inv as (m & HC & Hm & _ & Hb & _). exists m. split; [|done]. apply (commit_holds (vpowerState vstart) m HC).
Qed.

Example total_power_answer_witness : fst (queryTotalPower 1 vledger) = Ok (quoted 18000000).
Proof.
  destruct vledger_holds as (m & Hh & Hm & Hb). rewrite (total_power_answer vledger 1 m Hh Hm), Hb. reflexivity.
Defined.

(** Both validators are chosen, and then the stronger one alone. *)
Example voting_power_answer_witness : exists sel,
  fst (queryVotingPower 1 1 9000000 vledger) = Ok (quoted (i64 (zsum (map d_SumPower sel)))) /\
  fst (queryVotingPower 1 1 9000000 vledger) = Ok (quoted 10000000).
Proof.
  destruct vledger_holds as (m & (i & Hh & Hi & Hr) & Hm & _).
  destruct (selectValidators (eligible 9000000 (dgts_at (imm_contents i) m)) 1) as [[sorted sel]|e|] eqn:Es.
  - exists sel. split; [|vm_compute; reflexivity].
    exact (proj1 (voting_power_answer vledger 1 i m 1 9000000 sorted sel Hh Hi Hr (vi_typed _ Hm) Es)).
  - exfalso. unfold selectValidators in Es. destruct (_ <? 0); discriminate.
  - exfalso. unfold selectValidators, MinInt in Es. destruct (Z.ltb_spec (if Z.of_nat (length (eligible 9000000 (dgts_at (imm_contents i) m))) <? 1 then Z.of_nat (length (eligible 9000000 (dgts_at (imm_contents i) m))) else 1) 0) as [Hn|]; [|discriminate].
    destruct (_ <? 1); lia.
Defined.

Example stakes_answer_witness : exists xs,
  fst (queryStakes 1 addr2 vledger) = fst (query_err (lift (json_stakes (flat_map stakes_of xs))) vledger) /\
  fst (queryStakes 1 addr2 vledger) = Ok [8000000].
Proof.
  destruct vledger_holds as (m & (i & Hh & Hi & Hr) & Hm & _). eexists. split; [|vm_compute; reflexivity].
  exact (proj1 (stakes_answer vledger 1 i m addr2 Hh Hi Hr (vi_typed _ Hm) eq_refl)).
Defined.

(** With a minimum that one of the two validators does not have, the answer leaves
    its power out, while it is a validator. *)
Example voting_power_leaves_out :
  fst (queryVotingPower 1 21 9000000 vledger) = Ok (quoted 10000000) /\
  fst (sumPowerOfValidators vstart) = Ok 18000000.
Proof. split; vm_compute; reflexivity. Qed.

End QueryWitness.

Module StableWitness.
Import ToyNode RestartWitness.

#[local] Instance w_json : QueryJson := QueryWitness.w_json.
#[local] Instance w_fee : FeeText := FormatInt.
#[local] Instance w_evm_query : IEVMQuery unit toy_accts := {| vm_Query _ := ret []; vm_GetCode _ _ := ret [] |}.
#[local] Instance w_genesis : GenesisJson := fun _ => Err (GoError "EOF").
#[local] Instance w_evm_keeps : EVMKeeps unit Z (T := RefTree.tree) (I := gmap bytes bytes).
Proof. split; intros; apply keeps_ret. Qed.
#[local] Instance w_fixed : FixedLib Z := Z_fixed.
#[local] Instance w_dec : DecimalLib QArith_base.Q := Q_decimal.

(** After the first block: transactions are checked, and a second block is begun. *)
Definition later : list call :=
  [CCheckTx CheckTxType_New [3]; CBeginBlock (MkRequestBeginBlock [48] 2 9 bob [] []); CDeliverTx [1]; CTurn 0; CEndBlock; CCommit].

Abbreviation after := (snd (snd (run_calls (Dec := QArith_base.Q) (Fixed := Z) cfg later (tp_start 2, snd committed)))).

(** The total power and the power of the validators; and the account of an address. *)
Example answers_stable_witness :
  committed_to (snd committed) 1 /\
  fst (Query cfg (MkRequestQuery "stakes/total_power" [] 1) after) = fst (Query cfg (MkRequestQuery "stakes/total_power" [] 1) (snd committed)) /\
  fst (Query cfg (MkRequestQuery "stakes/voting_power" [] 1) after) = fst (Query cfg (MkRequestQuery "stakes/voting_power" [] 1) (snd committed)) /\
  fst (Query cfg (MkRequestQuery "account" bob 1) after) = fst (Query cfg (MkRequestQuery "account" bob 1) (snd committed)).
Proof.
  assert (Hc : committed_to (snd committed) 1) by (vm_compute; repeat split; congruence).
  split; [exact Hc|]. split; [|split].
  - apply (answers_stable cfg later (tp_start 2) (snd committed) "stakes/total_power" [] 1 Hc). left.
    unfold ledger_paths. constructor 2. constructor 1.
  - apply (answers_stable cfg later (tp_start 2) (snd committed) "stakes/voting_power" [] 1 Hc). right. right.
    split; [reflexivity|]. split; vm_compute; reflexivity.
  - apply (answers_stable cfg later (tp_start 2) (snd committed) "account" bob 1 Hc). right. left.
    split; [reflexivity|]. intros v acct _ _. right. vm_compute. reflexivity.
Defined.

End StableWitness.
