(* ===== verification/CallProps.v ===== *)
(** * CallProps: calls of the virtual machine are answered

    A query that calls the virtual machine runs on the accounts of a committed
    height ([SimuAcctCtrler]), whose objects it makes for itself: the call is
    answered whoever the sender is, and node and accounts are left as they were. *)
From stdpp Require Import base gmap list strings.
From Stdlib Require Import ZArith Lia.
From S2P Require Import Prelude XErrors GoMonad LedgerKeys Iavl Ledger LedgerSpec LedgerOps Units HexBytes Proto GovParams.
From S2P Require Import Account TrxTypes AcctCtrler AcctSpec TrxCtx MetaDB EvmTransition EvmCtrler ToyNode EvmProps Query QueryProps.

Section Simu.
Context {T I : Type} `{Iavl T I, !IavlLaws T I} `{Utf8, Proto AcctProto, !ProtoLaws AcctProto AcctProto_ok}.
Implicit Types (m : accts_map) (c : SimuAcctCtrler I).

(** The simulation of the version [i], which holds [m]: what it has made so far are
    accounts that [m] does not have. *)
Record simu_at (i : I) m c : Prop := {
  sa_ledger : simuLedger c = MkMemLedger (Some i) ∅ [];
  sa_holds : represents (imm_contents i) m;
  sa_wf : store_wf (si_store c);
  sa_new : forall addr l, si_newbies c !! addr = Some l ->
    m !! LedgerKeyAccount addr = None /\ objs (si_store c) !! l = Some (NewAccount addr);
}.

Lemma simu_mem_get i m c addr : simu_at i m c -> length addr = AddrSize ->
  mem_get (simuLedger c) (LedgerKeyAccount addr) =
  match m !! LedgerKeyAccount addr with Some a => Ok a | None => Err ErrNotFoundResult end.
Proof.
  intros [-> Hr _ _] Hl. unfold mem_get, mem_findRawBytes. rewrite keystr_ok by done. cbn [obind memStorage immuTree].
  rewrite lookup_empty, imm_Get_law. cbn [from_err obind]. specialize (Hr (LedgerKeyAccount addr)).
  inversion Hr as [b a Hst E1 E2|E1 E2]; cbn [obind]; [|done]. now apply stored_decode.
Qed.

(** Finding an account, and reading it. *)
Definition find_account (addr : Address) (exec : bool) : M (SimuAcctCtrler I) Account :=
  let! l := FindOrNewAccount addr exec in acct_get l.

Lemma find_account_ok i m c addr exec : simu_at i m c -> length addr = AddrSize ->
  wp (find_account addr exec) (okQ (fun a c' => a = acct_at m addr /\ simu_at i m c')) c.
Proof.
  intros HC Hl. unfold find_account. cbn [FindOrNewAccount acct_get Simu_handler].
  unfold simu_FindOrNewAccount, simu_findAccount, wp, bind, gets, try, lift, id. rewrite (simu_mem_get i m c addr HC Hl).
  unfold acct_at. destruct HC as [Hled Hr Hwf Hnew]. destruct (m !! LedgerKeyAccount addr) as [a|] eqn:Ea.
  - cbn. unfold zoom, alloc, deref. cbn. rewrite lookup_insert_eq. cbn. split; [done|]. split; cbn; [done|done| |].
    + now apply store_wf_alloc.
    + intros addr' l Hn. destruct (Hnew addr' l Hn) as [Hm Ho]. split; [done|].
      rewrite lookup_insert_ne; [done|]. intros <-. apply Hwf in Ho. lia.
  - cbn. unfold ToAcctKey. rewrite Hl. cbn [Nat.ltb Nat.leb AddrSize]. rewrite take_ge by (rewrite Hl; lia). cbn.
    destruct (si_newbies c !! addr) as [l|] eqn:En; cbn.
    + destruct (Hnew addr l En) as [_ Ho]. unfold zoom, deref. cbn. rewrite Ho. cbn. destruct c. now split.
    + unfold zoom, alloc, modify, deref. cbn. rewrite lookup_insert_eq. cbn. split; [done|]. split; cbn; [done|done| |].
      * now apply store_wf_alloc.
      * intros addr' l Hn. destruct (decide (addr' = addr)) as [->|Hne].
        -- rewrite lookup_insert_eq in Hn. injection Hn as <-. now rewrite lookup_insert_eq.
        -- rewrite lookup_insert_ne in Hn by done. destruct (Hnew addr' l Hn) as [Hm Ho]. split; [done|].
           rewrite lookup_insert_ne; [done|]. intros <-. apply Hwf in Ho. lia.
Qed.

End Simu.

Section Call.
Context {T I : Type} `{Iavl T I, !IavlLaws T I} `{Utf8, Proto AcctProto, !ProtoLaws AcctProto AcctProto_ok}.
Context {S DB D GP : Type} `{EthStateDB S, !EthStateLaws S, EthDB S DB, !EthCode S, TmDB D, GasPoolLib GP, !GasPoolLaws GP}.
Context `{!EthVM S (SimuAcctCtrler I), !EthVMLaws S (SimuAcctCtrler I), QueryJson}.
Implicit Types (m : accts_map) (c : StateDBWrapper S * SimuAcctCtrler I).
Abbreviation E := (EVMCtrler S DB D).

(** The machine sees the balances of the height for the addresses it has touched. *)
Record call_at (i : I) m c : Prop := {
  ca_simu : simu_at i m (snd c);
  ca_bal : forall a, a ∈ dom (sw_accessedObjAddrs (fst c)) -> st_GetBalance (sw_StateDB (fst c)) a = bal m a;
}.

Lemma call_at_state i m w a (f : S -> S) :
  (forall s x, st_GetBalance (f s) x = st_GetBalance s x) -> call_at i m (w, a) -> call_at i m (on_state f w, a).
Proof. intros Hf [Hs Hb]. split; [done|]. intros x Hx. cbn in *. now rewrite Hf, Hb. Qed.

Lemma wp_touch i m addr c : call_at i m c -> length addr = AddrSize ->
  wp (addAccessedObjAddr addr) (okQ (fun _ c' => call_at i m c' /\
    dom (sw_accessedObjAddrs (fst c')) = dom (sw_accessedObjAddrs (fst c)) ∪ {[addr]})) c.
Proof.
  intros [Hs Hb] Hl. destruct c as [w sc]. cbn [fst snd] in *. unfold addAccessedObjAddr. apply wp_bind, wp_gets. cbn [fst].
  destruct (sw_accessedObjAddrs w !! addr) as [n|] eqn:En.
  { apply wp_ret. split; [now split|]. cbn. assert (addr ∈ dom (sw_accessedObjAddrs w)) by now apply elem_of_dom. set_solver. }
  pose proof (find_account_ok i m sc addr (sw_exec w) Hs Hl) as Hf. unfold find_account, wp, bind in Hf.
  unfold wp, bind, zoom. cbn [lget lset snd_lens fst snd].
  destruct (FindOrNewAccount addr (sw_exec w) sc) as [[l|e|] sc1]; [|done..]. cbn [lget lset snd_lens fst snd].
  destruct (acct_get l sc1) as [[a|e|] sc2]; [|done..]. cbn in Hf. destruct Hf as [-> Hs2]. cbn.
  split; [|rewrite dom_insert_L; set_solver]. split; [done|]. cbn. intros x Hx. rewrite bal_SetBalance, bal_SetNonce.
  case_bool_decide as Hxa; [now subst|]. apply Hb. set_solver.
Qed.

Lemma wp_touch_all i m addrs c : call_at i m c -> Forall (fun a => length a = AddrSize) addrs ->
  wp (for_each addrs addAccessedObjAddr) (okQ (fun _ c' => call_at i m c')) c.
Proof.
  intros HC Hl. revert c HC. induction Hl as [|a addrs Ha _ IH]; intros c HC; cbn [for_each]; [now apply wp_ret|].
  apply wp_bind. eapply wp_mono; [apply (wp_touch i m a c HC Ha)|]. intros [[]|e|] c'; cbn; try done.
  intros [HC' _]. now apply IH.
Qed.

Lemma wp_access i m addr c : call_at i m c -> length addr = AddrSize ->
  wp (sw_AddAddressToAccessList addr) (okQ (fun _ c' => call_at i m c' /\
    dom (sw_accessedObjAddrs (fst c')) = dom (sw_accessedObjAddrs (fst c)) ∪ {[addr]})) c.
Proof.
  intros HC Hl. unfold sw_AddAddressToAccessList. apply wp_bind. eapply wp_mono; [apply (wp_touch i m addr c HC Hl)|].
  intros [[]|e|] [w' sc']; cbn [okQ]; try done. intros [HC' Hd]. apply wp_modify. split; [|exact Hd].
  apply call_at_state; [intros s x; apply bal_access|done].
Qed.

Lemma length_Array20 (a : Address) : length (Array20 a) = AddrSize.
Proof. unfold Array20, array_of, AddrSize. rewrite length_app, length_take, repeat_length. lia. Qed.

(** After [Initiate] the sender's balance is the one of the height. *)
Lemma wp_Initiate_call i m from to c : call_at i m c ->
  wp (Initiate [] 0 from to 0 false) (okQ (fun _ c' => call_at i m c' /\
    st_GetBalance (sw_StateDB (fst c')) (Array20 from) = bal m (Array20 from))) c.
Proof.
  intros HC. destruct c as [w sc]. unfold Initiate. apply wp_bind, wp_modify, wp_bind. cbn [fst snd].
  eapply wp_mono.
  { apply (wp_access i m (Array20 from)); [|apply length_Array20]. destruct HC as [Hs Hb]. split; [exact Hs|].
    intros x Hx. cbn in *. now rewrite bal_context, Hb. }
  intros [[]|e|] c1; cbn [okQ]; try done. intros [HC1 Hd]. cbn [fst sw_accessedObjAddrs] in Hd.
  assert (Hin : Array20 from ∈ dom (sw_accessedObjAddrs (fst c1))) by (rewrite Hd; set_solver).
  destruct (negb (IsZeroAddress to)).
  - eapply wp_mono; [apply (wp_access i m (Array20 to) c1 HC1), length_Array20|].
    intros [[]|e|] c2; cbn [okQ]; try done. intros [HC2 Hd2]. split; [done|]. apply (ca_bal _ _ _ HC2). rewrite Hd2. set_solver.
  - apply wp_ret. split; [done|]. now apply (ca_bal _ _ _ HC1).
Qed.

Lemma simu_bal_nonneg i m a : represents (imm_contents i) m -> 0 <= bal m a.
Proof.
  intros Hr. unfold bal, acct_at. destruct (m !! LedgerKeyAccount a) as [x|] eqn:Ex; cbn; [|lia].
  destruct (represents_lookup _ _ _ _ Hr Ex) as (b & _ & [[_ Hw] _]). destruct (wf_balance _ Hw). lia.
Qed.

(** The message of a call passes every check: its account is not checked, it pays
    for nothing, and its gas limit is the whole pool. *)
Lemma wp_preCheck_call from to data (p : GP) c Q :
  gas_Gas p = MaxInt64 -> 0 <= st_GetBalance (sw_StateDB (fst c)) (Array20 from) ->
  (forall p', gas_Gas p' = 0 -> Q (Ok tt) (MkST p' MaxInt64 MaxInt64 c)) ->
  wp (preCheck (call_message from to data)) Q (MkST p 0 0 c).
Proof.
  intros Hp Hb HQ. set (msg := call_message from to data). unfold preCheck. apply wp_bind, wp_gets.
  apply wp_bind, wp_lift. change (check_nonce_eoa msg _) with (Ok (A := unit) tt). cbv iota.
  apply wp_bind, wp_lift. change (check_fee_cap msg) with (Ok (A := unit) tt). cbv iota.
  apply wp_bind, wp_lift. change (check_blobs msg) with (Ok (A := unit) tt). cbv iota.
  apply wp_bind, wp_lift. change (check_blob_fee msg) with (Ok (A := unit) tt). cbv iota.
  unfold buyGas. set (need := mg_GasLimit msg * _ + _ + _). change need with 0. change (2 ^ 256 <=? 0) with false. cbv iota.
  apply wp_bind, wp_gets. change (db (MkST p 0 0 c)) with (sw_StateDB (fst c)). change (mg_From msg) with (Array20 from).
  destruct (Z.ltb_spec (st_GetBalance (sw_StateDB (fst c)) (Array20 from)) 0); [lia|].
  apply wp_bind, wp_gets, wp_bind, wp_lift. cbn [st_gp]. change (mg_GasLimit msg) with MaxInt64.
  destruct (gas_Sub_law p MaxInt64) as (p' & -> & Hp'); [unfold MaxInt64 in *; lia|].
  apply wp_bind, wp_modify, wp_modify. apply HQ. cbn. lia.
Qed.

(** The coinbase, the sender, the destination and the precompiled contracts. *)
Lemma wp_Prepare_call i m sender coinbase dst pre c : call_at i m c ->
  length sender = AddrSize -> length coinbase = AddrSize -> Forall (fun a => length a = AddrSize) pre ->
  (forall d, dst = Some d -> length d = AddrSize) ->
  wp (sw_Prepare sender coinbase dst pre) (okQ (fun _ _ => True)) c.
Proof.
  intros HC Hs Hco Hpre Hd. unfold sw_Prepare. apply wp_bind. eapply wp_mono; [apply (wp_touch i m sender c HC Hs)|].
  intros [[]|e|] c1; cbn [okQ]; try done. intros [HC1 _]. apply wp_bind.
  apply (wp_mono _ (okQ (fun _ c' => call_at i m c'))).
  { destruct dst as [d|]; [|now apply wp_ret]. eapply wp_mono; [apply (wp_touch i m d c1 HC1); now apply Hd|].
    intros [[]|e|] c2; cbn [okQ]; try done. now intros [HC2 _]. }
  intros [[]|e|] c2; cbn [okQ]; try done. intros HC2. apply wp_bind. eapply wp_mono; [apply (wp_touch_all i m pre c2 HC2 Hpre)|].
  intros [[]|e|] c3; cbn [okQ]; try done. intros HC3. apply wp_bind. eapply wp_mono; [apply (wp_touch i m coinbase c3 HC3 Hco)|].
  intros [[]|e|] c4; cbn [okQ]; done.
Qed.

Definition call_creation (to : Address) : bool := match toAddr to with None => true | Some _ => false end.

Lemma wp_Transition_call i m from to data intr vb (p : GP) c :
  call_at i m c -> st_GetBalance (sw_StateDB (fst c)) (Array20 from) = bal m (Array20 from) ->
  gas_Gas p = MaxInt64 -> length (vb_Coinbase vb) = AddrSize -> Forall (fun a => length a = AddrSize) ActivePrecompiles ->
  IntrinsicGas data (call_creation to) = Ok intr -> intr <= MaxInt64 ->
  (call_creation to = true -> Z.of_nat (length data) <= MaxInitCodeSize) ->
  wp (TransitionDb vb (call_message from to data)) (okQ (fun r _ => er_UsedGas r <= MaxInt64 /\ 4 * intr <= 5 * er_UsedGas r))
    (MkST p 0 0 c).
Proof.
  intros HC Hb Hp Hco Hpre Hi Hle Hsize. pose proof (sa_holds _ _ _ (ca_simu _ _ _ HC)) as Hr.
  pose proof (IntrinsicGas_law _ _ _ Hi) as Hpos.
  unfold TransitionDb. apply wp_bind, wp_preCheck_call; [done|rewrite Hb; apply (simu_bal_nonneg i m _ Hr)|]. intros p' Hp'.
  apply wp_bind, wp_lift. cbn [mg_Data mg_To call_message]. fold (call_creation to). rewrite Hi.
  apply wp_bind, wp_gets. cbn [st_gasRemaining]. destruct (Z.ltb_spec MaxInt64 intr); [lia|].
  apply wp_bind, wp_modify. cbn [mg_Value]. replace (2 ^ 256 <=? 0) with false by done. apply wp_bind, wp_gets. cbn [Z.eqb negb andb].
  destruct (call_creation to && _) eqn:Ec.
  { apply andb_true_iff in Ec as [Ec Hl]. specialize (Hsize Ec). apply Z.ltb_lt in Hl. lia. }
  apply wp_bind, wp_zoom. cbn [lget lset state_lens st_state set_remaining].
  eapply wp_mono; [apply (wp_Prepare_call i m); [done|apply length_Array20|done|done|]|].
  { intros d. apply toAddr_length. }
  intros [[]|e|] c'; cbn [okQ]; try done. intros _.
  eapply (wp_settle vb _ _ _ intr); unfold set_remaining; cbn [st_gasRemaining st_initialGas st_gp].
  - unfold u64. rewrite Z.mod_small; unfold MaxInt64 in *; lia.
  - lia.
  - unfold MaxInt64. lia.
  - unfold pool. cbn. rewrite Hp'. unfold MaxInt64. lia.
  - intros r t' Hlo Hhi _. cbn [okQ]. lia.
Qed.

(** The height [h] is committed by both controllers: the state of the machine
    opens, and the accounts of the version are [m]. *)
Record callable (e : E) (a : AcctCtrler T I) (h : Z) m : Prop := {
  cl_height : 0 < h;
  cl_state : exists hash s, db_Get (ev_metadb e) (blockKey h) = Ok hash /\
    state_New (Array32 (default [] hash)) (ev_ethDB e) = Ok s;
  cl_accts : exists i, tree_GetImmutable (tree (commitLedger (ledger (acctState a)))) h = Ok i /\ represents (imm_contents i) m;
}.

Lemma MemStateAt_ok e a h m : callable e a h m ->
  exists i c, MemStateAt h (e, a) = (Ok c, (e, a)) /\ call_at i m c.
Proof.
  intros [Hh (hash & s & Hd & Hs) (i & Hi & Hr)]. exists i, (MkWrapper s ∅ 0 false, MkSimuAcctCtrler empty_store (MkMemLedger (Some i) ∅ []) ∅).
  split.
  - unfold MemStateAt, SimuAcctCtrlerAt, ImitableLedgerAt, bind, gets, lift, zoom. cbn [fst snd lget lset snd_lens].
    rewrite Hd. cbn [from_err]. rewrite Hs. cbn [from_err lget acct_lens]. rewrite NewMemLedgerAt_run.
    rewrite (proj2 (Z.ltb_lt 0 h)) by done. rewrite Hi. cbn. now destruct a.
  - split; cbn; [|now intros x Hx; rewrite dom_empty_L in Hx; apply elem_of_empty in Hx].
    split; cbn; [done|done| |now intros addr l Hl; rewrite lookup_empty in Hl].
    intros l x Hl. cbn in Hl. now rewrite lookup_empty in Hl.
Qed.

Lemma callVM_ok e a h m from to data intr now : callable e a h m ->
  Forall (fun a => length a = AddrSize) ActivePrecompiles ->
  IntrinsicGas data (call_creation to) = Ok intr -> intr <= MaxInt64 ->
  (call_creation to = true -> Z.of_nat (length data) <= MaxInitCodeSize) ->
  exists r, callVM (GP := GP) from to data h now (e, a) = (Ok r, (e, a)) /\
    er_UsedGas r <= MaxInt64 /\ 4 * intr <= 5 * er_UsedGas r.
Proof.
  intros Hc Hpre Hi Hle Hsize. destruct (MemStateAt_ok e a h m Hc) as (i & c & Em & HC).
  unfold callVM, bind. rewrite Em. pose proof (wp_Initiate_call i m from to c HC) as Hw. unfold wp in Hw.
  destruct (Initiate [] 0 from to 0 false c) as [[[]|e'|] c1]; [|done..]. cbn [fst snd okQ] in Hw. destruct Hw as [HC1 Hb].
  set (vb := evmBlockContext _ _ _ _). assert (Hg : vb_GasLimit vb = MaxInt64) by now vm_compute.
  destruct (gas_Add_law (gas_new : GP) (vb_GasLimit vb)) as (p & Ep & Hp).
  { rewrite Hg. now vm_compute. }
  { rewrite gas_new_zero, Hg. now vm_compute. }
  rewrite Ep. cbn [obind]. rewrite gas_new_zero, Z.add_0_l, Hg in Hp.
  pose proof (wp_Transition_call i m from to data intr vb p c1 HC1 Hb Hp (length_Array20 from) Hpre Hi Hle Hsize) as Ht.
  unfold wp in Ht. destruct (TransitionDb vb _ _) as [[r|e'|] t]; [|done..]. exists r. cbn in *. done.
Qed.

(** C24. A call of the virtual machine at a committed height is answered, whoever
    the sender is and whatever its balance and nonce: no check refuses it, the
    gas in the answer is at least four fifths of the intrinsic gas, and neither
    the controller nor the accounts change.  Data too short for the two addresses
    makes the query panic instead. *)
Theorem vm_call_answered (now : Z) path from to data h (e : E) (a : AcctCtrler T I) m intr :
  callable e a h m -> length from = AddrSize -> length to = AddrSize ->
  Forall (fun a => length a = AddrSize) ActivePrecompiles ->
  IntrinsicGas data (call_creation to) = Ok intr -> intr <= MaxInt64 ->
  (call_creation to = true -> Z.of_nat (length data) <= MaxInitCodeSize) ->
  (exists r, evm_Query (GP := GP) now (MkRequestQuery path (from ++ to ++ data) h) (e, a) =
     (from_err (json_vmcall (call_answer path r)), (e, a)) /\
     er_UsedGas r <= MaxInt64 /\ 4 * intr <= 5 * er_UsedGas r) /\
  (forall short, (length short < AddrSize * 2)%nat ->
     fst (evm_Query (GP := GP) now (MkRequestQuery path short h) (e, a)) = Panic).
Proof.
  intros Hc Hf Ht Hpre Hi Hle Hsize. split.
  - destruct (callVM_ok e a h m from to data intr now Hc Hpre Hi Hle Hsize) as (r & Er & Hr). exists r. split; [|done].
    unfold evm_Query. cbn [rq_Data rq_Height rq_Path]. rewrite !length_app, Hf, Ht.
    destruct (Nat.ltb_spec (AddrSize + (AddrSize + length data)) (AddrSize * 2)); [lia|].
    rewrite take_app_length', (drop_app_length' from), take_app_length' by done.
    rewrite (app_assoc from to data), drop_app_length' by (rewrite length_app; lia).
    unfold bind at 1, gets. cbn [fst]. rewrite (proj2 (Z.leb_gt h 0)) by apply Hc. unfold bind. now rewrite Er.
  - intros short Hs. unfold evm_Query. cbn [rq_Data]. now rewrite (proj2 (Nat.ltb_lt _ _)).
Qed.

End Call.

(** ** A call on a small machine *)

Module CallWitness.
Import ToyNode EvmWitness.

Abbreviation simu := (SimuAcctCtrler (gmap bytes bytes)).

(** A run uses three quarters of its gas and changes no account. *)
#[local] Instance w_vm : EthVM toy_state simu := {|
  vm_Call _ _ _ _ gas _ := ret (MkVMOutput [7] (gas / 4) None);
  vm_Create _ _ _ gas _ := ret (MkVMOutput [] (gas / 4) None);
  IntrinsicGas _ creation := Ok (if creation : bool then 53000 else 21000);
  IsValidVersionedHash _ := true;
  ActivePrecompiles := [repeat 1 20];
  ErrExecutionReverted := GoError "execution reverted";
|}.

#[local] Instance w_vm_laws : EthVMLaws toy_state simu.
Proof.
  assert (forall gas, 0 <= gas -> 0 <= gas / 4 <= gas) as Hq.
  { intros gas Hg. pose proof (Z.div_pos gas 4 Hg ltac:(lia)). pose proof (Z.mul_div_le gas 4 ltac:(lia)). lia. }
  split.
  - intros. do 2 eexists. split; [done|]. now apply Hq.
  - intros. do 2 eexists. split; [done|]. now apply Hq.
  - done.
  - intros data [] gas [= <-]; lia.
Qed.

#[local] Instance w_code : EthCode toy_state := fun _ _ => [].
#[local] Instance w_json : QueryJson := QueryWitness.w_json.

Definition accts1 : toy_accts := snd (acct_Commit toy_accounts).

Lemma callable1 : callable ctrler1 accts1 1 toy_map.
Proof.
  destruct toy_accounts_inv as [HC _]. pose proof (commit_holds (acctState toy_accounts) toy_map HC) as (i & _ & Hi & Hr).
  split; [done| |].
  - exists None. eexists. split; reflexivity.
  - exists i. split; [|done]. exact Hi.
Qed.

(** Dave has no account; carol's address is called. *)
Example vm_call_answered_witness : exists r,
  evm_Query (GP := Z) 9 (MkRequestQuery "vm_call" (repeat 4 20 ++ carol ++ [1; 2]) 1) (ctrler1, accts1) =
    (from_err (json_vmcall (call_answer "vm_call" r)), (ctrler1, accts1)) /\ 4 * 21000 <= 5 * er_UsedGas r.
Proof.
  destruct (vm_call_answered (GP := Z) 9 "vm_call" (repeat 4 20) carol [1; 2] 1 ctrler1 accts1 toy_map 21000 callable1)
    as [(r & E & _ & Hr) _].
  - reflexivity.
  - reflexivity.
  - repeat constructor.
  - vm_compute. reflexivity.
  - vm_compute. congruence.
  - vm_compute. congruence.
  - exists r. split; [exact E|exact Hr].
Defined.

End CallWitness.
