(* ===== verification/Client.v ===== *)
(** * Client: the local client of the application

    [node/client.go].  The consensus engine talks to the application through
    clients that live in the same process, one each for consensus, pool, queries
    and snapshots, made by one creator and sharing one mutex: a call holds it, so
    calls do not overlap and a run is a sequence of calls and of turns of the
    goroutines that prepare transactions.  An asynchronous call gives its response
    to the callback of its client before it returns; a synchronous one returns it.
    A delivered transaction is not answered by its call, but by the callback of
    the client the application knows, which is the one made last, while [EndBlock]
    runs.

    Shown: whatever calls are made and however the goroutines interleave, every
    delivered transaction is answered exactly once, in the order of delivery, to
    that client, and all are once [EndBlock] has returned. *)
From stdpp Require Import base gmap list strings.
From Stdlib Require Import ZArith Lia.
From S2P Require Import Prelude XErrors GoMonad LedgerKeys Iavl Ledger Units HexBytes Proto GovParams.
From S2P Require Import Account TrxTypes Signer AcctCtrler VPowerItems ValSet VPowerCtrler.
From S2P Require Import Proposal GovCtrler Numbers Weights SupplyCtrler TrxCtx MetaDB.
From S2P Require Import TrxExecutor TrxPreparer App ToyNode EvmTransition EvmCtrler AppProps Query QueryProps.

(** The methods of [abcitypes.BaseApplication] the application inherits:
    [SetOption] and the snapshots. *)
Class BaseApplication (BReq BResp : Type) : Type := base_call : BReq -> BResp.

(** ** Requests *)

Section Requests.
Context {BReq BResp : Type}.

(** The requests that concern the node alone; the time [Info] reads is in it. *)
Inductive AppRequest : Type :=
| RInfo (now : Z)
| RBase (req : BReq)
| RCheckTx (type : CheckTxType) (tx : bytes)
| RQuery (req : RequestQuery)
| RCommit
| RInitChain (req : RequestInitChain)
| RBeginBlock (req : RequestBeginBlock).

Inductive Request : Type :=
| RFlush
| REcho (msg : bytes)
| RApp (req : AppRequest)
| RDeliverTx (tx : bytes)
| REndBlock.

Inductive Response : Type :=
| SFlush
| SEcho (msg : bytes)
| SInfo (res : Z * bytes)
| SBase (res : BResp)
| SCheckTx (res : ResponseCheckTx)
| SQuery (res : ResponseQuery)
| SCommit (res : bytes)
| SInitChain (res : bytes)
| SBeginBlock
| SDeliverTx (res : ResponseDeliverTx)
| SEndBlock (res : ResponseEndBlock).

End Requests.
Arguments AppRequest : clear implicits.
Arguments Request : clear implicits.
Arguments Response : clear implicits.

Section Client.
Context {T I : Type} `{Iavl T I}.
Context `{Proto AcctProto, GovProtos, GovJson, VPowerProtos, SupplyProtos, TrxProtos, CryptoLib, RlpLib, TmHash}.
Context {GP : Type} `{GasPoolLib GP}.
Context {E : Type} `{!IEVMHandler E GP (AcctCtrler T I)}.
Context {D : Type} `{TmDB D, BctxJson, ChainIdText, GenesisJson}.
Context {Dec Fixed : Type} `{DecimalLib Dec, FixedLib Fixed}.
Context `{QueryJson, FeeText} `{!IEVMQuery E (AcctCtrler T I)}.
Context {BReq BResp : Type} `{!BaseApplication BReq BResp}.
Abbreviation N := (Node T I E GP D).
Abbreviation TP := (TrxPreparer TrxContext ResponseDeliverTx).
Abbreviation Req := (Request BReq).
Abbreviation Resp := (Response BResp).

(** The application, its clients (for each, whether its callback is set), the
    client it knows, and the calls of callbacks so far. *)
Record Proxy := MkProxy {
  px_app : TP * N;
  px_clients : list bool;
  px_localClient : option nat;
  px_calls : list (nat * Req * Resp);
}.

#[local] Obligation Tactic := idtac.

Program Definition app_lens : lens Proxy (TP * N) :=
  Lens px_app (fun a p => MkProxy a (px_clients p) (px_localClient p) (px_calls p)) _ _ _.
Next Obligation. done. Qed.
Next Obligation. now intros []. Qed.
Next Obligation. done. Qed.

Abbreviation PM := (M Proxy).

(** [NewABCIClient] of the creator, with [SetLocalClient]. *)
Definition NewABCIClient : PM nat :=
  let! i := gets (fun p => length (px_clients p)) in
  modify (fun p => MkProxy (px_app p) (px_clients p ++ [false]) (Some i) (px_calls p)) ;;;
  ret i.

Definition SetResponseCallback (i : nat) : PM unit :=
  modify (fun p => MkProxy (px_app p) (<[i := true]> (px_clients p)) (px_localClient p) (px_calls p)).

(** [callback]; a callback that is not set is a nil function. *)
Definition callback (i : nat) (req : Req) (res : Resp) : PM unit :=
  let! cs := gets px_clients in
  if bool_decide (cs !! i = Some true)
  then modify (fun p => MkProxy (px_app p) cs (px_localClient p) (px_calls p ++ [(i, req, res)]))
  else panic.

(** The methods of the application. *)
Definition app_call (cfg : Config) (req : AppRequest BReq) : M N Resp :=
  match req with
  | RInfo now => let! r := Info cfg now in ret (SInfo r)
  | RBase b => ret (SBase (base_call b))
  | RCheckTx type tx => let! r := CheckTx type tx in ret (SCheckTx r)
  | RQuery q => let! r := Query cfg q in ret (SQuery r)
  | RCommit => let! r := App.Commit cfg in ret (SCommit r)
  | RInitChain q => let! r := InitChain q in ret (SInitChain r)
  | RBeginBlock q => BeginBlock (Dec := Dec) (Fixed := Fixed) q ;;; ret SBeginBlock
  end.

(** [EndBlock] with the calls of the callback it makes. *)
Definition app_EndBlock : PM Resp :=
  let! local := gets px_localClient in
  match local with
  | None => panic
  | Some client =>
      let! calls := zoom app_lens execTrxs in
      for_each calls (fun '(tx, res) => callback client (RDeliverTx tx) (SDeliverTx res)) ;;;
      let! r := zoom app_lens (zoom snd_lens endControllers) in
      ret (SEndBlock r)
  end.

(** The asynchronous methods: the returned [ReqRes], nil for a delivered
    transaction. *)
Definition client_Async (cfg : Config) (i : nat) (req : Req) : PM (option (Req * option Resp)) :=
  match req with
  | RFlush => ret (Some (RFlush, None))
  | REcho msg => callback i (REcho msg) (SEcho msg) ;;; ret (Some (req, Some (SEcho msg)))
  | RApp q => let! res := zoom app_lens (zoom snd_lens (app_call cfg q)) in callback i req res ;;; ret (Some (req, Some res))
  | RDeliverTx tx => zoom app_lens (DeliverTx tx) ;;; ret None
  | REndBlock => let! res := app_EndBlock in callback i req res ;;; ret (Some (req, Some res))
  end.

(** The synchronous methods; the response to a delivered transaction is empty. *)
Definition client_Sync (cfg : Config) (i : nat) (req : Req) : PM Resp :=
  match req with
  | RFlush => ret SFlush
  | REcho msg => ret (SEcho msg)
  | RApp q => zoom app_lens (zoom snd_lens (app_call cfg q))
  | RDeliverTx tx => zoom app_lens (DeliverTx tx) ;;; ret (SDeliverTx (MkResponseDeliverTx 0 EmptyString 0 0 None []))
  | REndBlock => app_EndBlock
  end.

(** ** Runs *)

Inductive event : Type :=
| ECall (async : bool) (i : nat) (req : Req)
| ESet (i : nat)
| ETurn (k : nat).

Definition run_event (cfg : Config) (e : event) : PM unit :=
  match e with
  | ECall true i req => let! _ := client_Async cfg i req in ret tt
  | ECall false i req => let! _ := client_Sync cfg i req in ret tt
  | ESet i => SetResponseCallback i
  | ETurn k => zoom app_lens (trxPreparerRoutine onPrepare k)
  end.

(** When a call can go on: [Wait] returns, the channel has room, the goroutine
    has a request. *)
Definition ready (e : event) (p : Proxy) : Prop :=
  match e with
  | ECall _ _ REndBlock => tp_WaitGroup (fst (px_app p)) = 0
  | ECall _ _ (RDeliverTx _) => tp_can_Add (fst (px_app p))
  | ETurn k => enabled (fst (px_app p)) k
  | _ => True
  end.

(** A panic in one of these stops the node; others are recovered from. *)
Definition critical (e : event) : bool :=
  match e with
  | ECall _ _ REndBlock | ECall _ _ (RDeliverTx _) | ETurn _ => true
  | _ => false
  end.

Inductive px_run (cfg : Config) (p0 : Proxy) : list event -> Proxy -> Prop :=
| px_run_nil : px_run cfg p0 [] p0
| px_run_snoc es e p o p' :
    px_run cfg p0 es p -> ready e p -> run_event cfg e p = (o, p') -> (critical e -> o = Ok tt) ->
    px_run cfg p0 (es ++ [e]) p'.

(** The transactions delivered by the calls, and those answered by callbacks. *)
Definition delivered (es : list event) : list bytes :=
  omap (fun e => match e with ECall _ _ (RDeliverTx tx) => Some tx | _ => None end) es.

Definition tx_answers (calls : list (nat * Req * Resp)) : list (nat * bytes * ResponseDeliverTx) :=
  omap (fun c => match c with (i, RDeliverTx tx, SDeliverTx r) => Some (i, tx, r) | _ => None end) calls.

(** ** Every delivered transaction is answered *)

Lemma bind_Ok {S A B : Type} (m : M S A) (f : A -> M S B) s b s' :
  bind m f s = (Ok b, s') -> exists a s1, m s = (Ok a, s1) /\ f a s1 = (Ok b, s').
Proof. unfold bind. destruct (m s) as [[a|e|] s1]; [|done..]. eauto. Qed.

Lemma callback_inv i req res p o p' :
  callback i req res p = (o, p') ->
  px_app p' = px_app p /\ px_localClient p' = px_localClient p /\
  (o = Ok tt -> px_calls p' = px_calls p ++ [(i, req, res)]) /\ (o <> Ok tt -> px_calls p' = px_calls p).
Proof.
  unfold callback, bind, gets, modify, panic. by destruct (bool_decide _); intros [= <- <-].
Qed.

Lemma callbacks_ok client (calls : list (bytes * ResponseDeliverTx)) p p' :
  for_each calls (fun '(tx, res) => callback client (RDeliverTx tx) (SDeliverTx res)) p = (Ok tt, p') ->
  px_app p' = px_app p /\ px_localClient p' = px_localClient p /\
  px_calls p' = px_calls p ++ map (fun '(tx, res) => (client, RDeliverTx tx, SDeliverTx res)) calls.
Proof.
  revert p. induction calls as [|[tx res] calls IH]; intros p; cbn [for_each].
  - intros [= <-]. cbn. by rewrite app_nil_r.
  - unfold bind at 1. destruct (callback _ _ _ p) as [[[]|e|] p1] eqn:Ec; [|done..].
    destruct (callback_inv _ _ _ _ _ _ Ec) as (Ha & Hl & Hc & _). intros Hr.
    destruct (IH p1 Hr) as (-> & -> & ->). rewrite Ha, Hl, Hc by done. cbn. by rewrite <- app_assoc.
Qed.

Lemma exec_results_requests idx rs (n : N) calls n' :
  exec_results idx rs n = (Ok calls, n') ->
  Forall2 (fun o c => exists r, o = Some r /\ fst c = rv_req r) rs calls.
Proof.
  revert idx n calls n'. induction rs as [|[r|] rs IH]; intros idx n calls n'; cbn [exec_results].
  - intros [= <- _]. constructor.
  - destruct (negb _); [done|]. intros (res & n1 & _ & Hr)%bind_Ok. apply bind_Ok in Hr as (rest & n2 & Er & [= <- _]).
    constructor; [by exists r|]. by apply IH in Er.
  - done.
Qed.

(** What [execTrxs] answers, and the preparer it leaves. *)
Lemma execTrxs_answers reqs (tp : TP) (n : N) calls tp' n' :
  prep_ok reqs tp -> execTrxs (tp, n) = (Ok calls, (tp', n')) -> map fst calls = reqs /\ tp' = tp_reset tp.
Proof.
  intros Hok. unfold execTrxs, bind at 1, gets. cbn [fst].
  unfold bind at 1, zoom at 1. destruct (the_curr _) as [[b|e|] n1]; [|done..].
  destruct (negb _); [done|]. unfold bind at 1, zoom. cbn [lget lset snd_lens snd fst].
  destruct (exec_results 0 _ n1) as [[cs|e|] n2] eqn:Er; [|done..]. unfold bind, modify, ret. intros [= <- <- _]. split; [|done].
  apply exec_results_requests in Er. apply list_eq. intros i. rewrite list_lookup_fmap.
  destruct (cs !! i) as [c|] eqn:Ec; cbn.
  - destruct (Forall2_lookup_r _ _ _ _ _ Er Ec) as (o & Ho & r & -> & ->).
    by destruct (ok_done _ _ Hok i r Ho) as [_ ->].
  - apply lookup_ge_None in Ec. symmetry. apply lookup_ge_None. by rewrite <- (ok_results _ _ Hok), (Forall2_length _ _ _ Er).
Qed.

Lemma prep_ok_reset reqs (tp : TP) : prep_ok reqs tp -> tp_WaitGroup tp = 0 -> prep_ok [] (tp_reset tp).
Proof.
  intros Hok Hw. assert (pending tp = []) as Hp.
  { apply length_zero_iff_nil. pose proof (ok_wait _ _ Hok). lia. }
  assert (pending (tp_reset tp) = []) as Hp' by exact Hp.
  split; rewrite ?Hp'; cbn [tp_reset tp_reqCount tp_resultValues tp_WaitGroup]; try done; [constructor|].
  by intros q ?%elem_of_nil.
Qed.

(** The requests delivered are those answered, to the application's client, and
    those the preparer has. *)
Definition in_order (es : list event) (p : Proxy) : Prop :=
  exists reqs, prep_ok reqs (fst (px_app p)) /\
    delivered es = map (fun a => snd (fst a)) (tx_answers (px_calls p)) ++ reqs /\
    Forall (fun a => px_localClient p = Some (fst (fst a))) (tx_answers (px_calls p)).

(** Programs that leave the preparer, and answer no delivered transaction. *)
Definition quiet {A} (m : PM A) : Prop :=
  forall p o p', m p = (o, p') ->
    fst (px_app p') = fst (px_app p) /\ px_localClient p' = px_localClient p /\
    tx_answers (px_calls p') = tx_answers (px_calls p).

Lemma quiet_ret {A} (a : A) : quiet (ret a).
Proof. by intros p o p' [= _ <-]. Qed.

Lemma quiet_bind {A B} (m : PM A) (f : A -> PM B) : quiet m -> (forall a, quiet (f a)) -> quiet (bind m f).
Proof.
  intros Hm Hf p o p'. unfold bind. destruct (m p) as [r p1] eqn:Em. destruct (Hm _ _ _ Em) as (<- & <- & <-).
  destruct r as [a|e|]; [apply Hf|by intros [= _ <-]..].
Qed.

Lemma quiet_callback i (req : Req) res : (forall tx, req <> RDeliverTx tx) -> quiet (callback i req res).
Proof.
  intros Hn p o p' Hc. unfold callback, bind, gets, modify, panic in Hc.
  destruct (bool_decide _); injection Hc as _ <-; [|done]. cbn. unfold tx_answers. rewrite omap_app.
  destruct req; cbn; rewrite ?app_nil_r; try done. by destruct (Hn tx).
Qed.

Lemma in_order_quiet {A} es e (m : PM A) p o p' :
  quiet m -> m p = (o, p') -> delivered [e] = [] -> in_order es p -> in_order (es ++ [e]) p'.
Proof.
  intros Hm Hr He (reqs & Hok & Hd & Hl). destruct (Hm _ _ _ Hr) as (Ha & Hlc & Hc).
  exists reqs. unfold delivered in *. by rewrite Ha, Hlc, Hc, omap_app, He, app_nil_r.
Qed.

Lemma node_zoom {A} (m : M N A) p o p' :
  zoom app_lens (zoom snd_lens m) p = (o, p') ->
  fst (px_app p') = fst (px_app p) /\ px_localClient p' = px_localClient p /\ px_calls p' = px_calls p.
Proof.
  unfold zoom. cbn. destruct p as [[tp n] cs lc calls]. cbn. destruct (m n) as [r n']. intros [= _ <-]. done.
Qed.

Lemma quiet_node {A} (m : M N A) : quiet (zoom app_lens (zoom snd_lens m)).
Proof. intros p o p' Hm. by apply node_zoom in Hm as (-> & -> & ->). Qed.

Lemma app_EndBlock_answers es a i p res p' :
  in_order es p -> tp_WaitGroup (fst (px_app p)) = 0 -> app_EndBlock p = (Ok res, p') ->
  in_order (es ++ [ECall a i REndBlock]) p' /\ tp_reqCount (fst (px_app p')) = 0%nat.
Proof.
  intros (reqs & Hok & Hd & Hl) Hw. unfold app_EndBlock. intros (local & p0 & Hg & Hr)%bind_Ok. unfold gets in Hg. injection Hg as <- <-.
  destruct (px_localClient p) as [client|] eqn:Elc; [|done].
  apply bind_Ok in Hr as (calls & p1 & Hx & Hr). apply bind_Ok in Hr as ([] & p2 & Hc & Hr).
  apply bind_Ok in Hr as (r & p3 & He & [= _ <-]). apply callbacks_ok in Hc as (Ha2 & Hl2 & Hc2).
  apply node_zoom in He as (Ha3 & Hl3 & Hc3).
  unfold zoom in Hx. cbn [lget lset app_lens] in Hx. destruct p as [[tp n] cs lc log]. cbn in Hok, Hw, Hd, Hl, Elc.
  cbn [px_app px_clients px_localClient px_calls] in Hx.
  destruct (execTrxs (tp, n)) as [o [tp1 n1]] eqn:Ex. injection Hx as -> <-. cbn in Ha2, Hl2, Hc2.
  destruct (execTrxs_answers _ _ _ _ _ _ Hok Ex) as [Hreq ->]. rewrite Ha3, Ha2. split; [|done].
  exists []. rewrite Ha3, Ha2. split; [by apply (prep_ok_reset reqs)|]. rewrite Hc3, Hc2, Hl3, Hl2, Elc.
  unfold delivered, tx_answers in *. rewrite !omap_app, map_app, app_nil_r, Hd. cbn [omap list_omap]. rewrite app_nil_r.
  assert (omap (fun c : nat * Req * Resp => match c with (j, RDeliverTx tx, SDeliverTx r0) => Some (j, tx, r0) | _ => None end)
    (map (fun '(tx, res0) => (client, RDeliverTx tx, SDeliverTx res0)) calls)
    = map (fun '(tx, res0) => (client, tx, res0)) calls) as ->.
  { clear. induction calls as [|[tx res0] calls IH]; [done|]. cbn. by f_equal. }
  split.
  - f_equal. rewrite <- Hreq, map_map. apply map_ext. by intros [].
  - apply Forall_app_2; [subst lc; done|]. apply Forall_forall. intros x Hx.
    apply list_elem_of_fmap in Hx as ([tx r0] & -> & _). done.
Qed.

(** A delivered transaction, and a turn of a goroutine. *)
Lemma in_order_deliver es a i tx p p' :
  in_order es p -> zoom app_lens (DeliverTx tx) p = (Ok tt, p') -> in_order (es ++ [ECall a i (RDeliverTx tx)]) p'.
Proof.
  intros (reqs & Hok & Hd & Hl). unfold zoom, DeliverTx, bind, gets, lift, modify. cbn [lget lset app_lens].
  destruct (tp_Add tx (fst (px_app p))) as [tp'|e|] eqn:Ea; [|done..]. intros [= <-].
  exists (reqs ++ [tx]). cbn. split; [by eapply prep_ok_add|]. unfold delivered in *. rewrite omap_app, Hd.
  cbn. by rewrite <- app_assoc.
Qed.

Lemma in_order_turn es k p p' :
  in_order es p -> enabled (fst (px_app p)) k -> zoom app_lens (trxPreparerRoutine onPrepare k) p = (Ok tt, p') ->
  in_order (es ++ [ETurn k]) p'.
Proof.
  intros (reqs & Hok & Hd & Hl) He. unfold zoom. cbn [lget lset app_lens]. destruct p as [[tp n] cs lc calls].
  cbn [px_app px_clients px_localClient px_calls fst] in *.
  destruct (trxPreparerRoutine _ _ _) as [o [tp' n']] eqn:Er. intros [= -> <-]. exists reqs. cbn.
  split; [by eapply prep_ok_work|]. unfold delivered in *. by rewrite omap_app, app_nil_r.
Qed.

Lemma in_order_step cfg es e p o p' :
  in_order es p -> ready e p -> run_event cfg e p = (o, p') -> (critical e -> o = Ok tt) ->
  in_order (es ++ [e]) p' /\ (forall a i, e = ECall a i REndBlock -> tp_reqCount (fst (px_app p')) = 0%nat).
Proof.
  intros Ho Hrd Hrun Hcr.
  destruct e as [a i req|i|k].
  - destruct req as [|msg|q|tx|].
    1,2,3: split; [|done]; eapply in_order_quiet; [|exact Hrun|done|exact Ho]; destruct a; cbn [run_event client_Async client_Sync];
      repeat first [apply quiet_ret | apply quiet_node | by apply quiet_callback | apply quiet_bind; [|intros ?]].
    + rewrite Hcr in Hrun by done. split; [|done]. destruct a; cbn [run_event] in Hrun;
        apply bind_Ok in Hrun as (x & p1 & Hc & [= <-]); apply bind_Ok in Hc as ([] & p2 & Hc & [= _ <-]); by apply in_order_deliver with p.
    + rewrite Hcr in Hrun by done. destruct a; cbn [run_event] in Hrun; apply bind_Ok in Hrun as (x & p1 & Hc & [= <-]).
      * apply bind_Ok in Hc as (res & p2 & He & Hc). apply bind_Ok in Hc as ([] & p3 & Hcb & [= _ <-]).
        destruct (app_EndBlock_answers es true i _ _ _ Ho Hrd He) as [Hio Hz].
        destruct (quiet_callback i REndBlock res ltac:(done) _ _ _ Hcb) as (Ha & Hlc & Hcl).
        rewrite Ha. split; [|by intros ? ? _]. destruct Hio as (reqs & Hio). exists reqs. by rewrite Ha, Hlc, Hcl.
      * destruct (app_EndBlock_answers es false i _ _ _ Ho Hrd Hc) as [Hio Hz]. split; [done|]. by intros ? ? _.
  - split; [|done]. destruct Ho as (reqs & Hok & Hd & Hl). injection Hrun as _ <-. exists reqs. cbn.
    unfold delivered in *. by rewrite omap_app, app_nil_r.
  - rewrite Hcr in Hrun by done. split; [by apply in_order_turn with p|done].
Qed.

(** C5. Whatever calls the clients make and however the goroutines interleave,
    over any number of blocks, the transactions delivered so far are exactly those
    answered, once each and in the order of delivery, followed by those that wait
    for the end of the block; every answer went to the callback of the client the
    application knows, and when [EndBlock] returns none is left to wait. *)
Theorem deliveries_answered cfg es p0 p :
  prep_ok [] (fst (px_app p0)) -> px_calls p0 = [] -> px_run cfg p0 es p ->
  exists waiting,
    delivered es = map (fun a => snd (fst a)) (tx_answers (px_calls p)) ++ waiting /\
    length waiting = tp_reqCount (fst (px_app p)) /\
    Forall (fun a => px_localClient p = Some (fst (fst a))) (tx_answers (px_calls p)) /\
    (forall es' a i, es = es' ++ [ECall a i REndBlock] -> waiting = []).
Proof.
  intros Hok0 Hc0 Hrun.
  assert (in_order es p /\ (forall es' a i, es = es' ++ [ECall a i REndBlock] -> tp_reqCount (fst (px_app p)) = 0%nat)) as [Hio Hend].
  { induction Hrun as [|es e p o p' Hr IH Hrd He Hcr].
    - split; [exists []; by rewrite Hc0|]. intros [] ? ? ?; done.
    - destruct (in_order_step cfg es e p o p' (proj1 IH) Hrd He Hcr) as [Hio Hend]. split; [done|].
      intros es' a i Heq. apply app_inj_tail in Heq as [_ ->]. by eapply Hend. }
  destruct Hio as (reqs & Hok & Hd & Hl). exists reqs. split; [done|]. split; [by rewrite (ok_count _ _ Hok)|].
  split; [done|]. intros es' a i He. apply length_zero_iff_nil. rewrite <- (ok_count _ _ Hok). by eapply Hend.
Qed.

End Client.
Arguments Proxy : clear implicits.

(** ** A block of two transactions *)

Module ClientWitness.
Import ToyNode RestartWitness.

#[local] Instance w_json : QueryJson := QueryWitness.w_json.
#[local] Instance w_fee : FeeText := FormatInt.
#[local] Instance w_evm_query : IEVMQuery unit toy_accts := {| vm_Query _ := ret []; vm_GetCode _ _ := ret [] |}.
#[local] Instance w_genesis : GenesisJson := fun _ => Err (GoError "EOF").
#[local] Instance w_fixed : FixedLib Z := Z_fixed.
#[local] Instance w_dec : DecimalLib QArith_base.Q := Q_decimal.
#[local] Instance w_base : BaseApplication unit unit := fun _ => tt.

Abbreviation Px := (Proxy RefTree.tree (gmap bytes bytes) Z unit (gmap bytes bytes) unit unit).

(** The supply of the genesis is known. *)
Definition genesis_node : Node RefTree.tree (gmap bytes bytes) unit Z (gmap bytes bytes) :=
  snd (n_sup (zoom fst_lens (zoom sup_lens (l_alloc (ISupply (MkSupply 1 1 (10 ^ 20 + 10 ^ 19) 0 false))))) toy_node).

(** Two clients, the one for consensus made last, each with its callback. *)
Definition start : Px :=
  snd ((NewABCIClient ;;; NewABCIClient ;;; SetResponseCallback 0 ;;; SetResponseCallback 1)
         (MkProxy (tp_start 2, genesis_node) [] None [])).

Definition ev (e : @event unit) : M Px unit := run_event (Dec := QArith_base.Q) (Fixed := Z) cfg e.
Definition after (es : list event) : Px := foldl (fun p e => snd (ev e p)) start es.

Definition block : list (@event unit) :=
  [ECall true 1 (RDeliverTx [1]); ECall true 1 (RDeliverTx [2]); ETurn 1; ECall true 0 (RApp (RQuery (MkRequestQuery "txn" [] 1)));
   ETurn 0; ECall false 1 REndBlock].

Definition answers : list (nat * bytes * Z) :=
  map (fun '(i, tx, r) => (i, tx, rd_Code r)) (tx_answers (px_calls (after block))).

Lemma run_snoc (es : list (@event unit)) e :
  px_run (Dec := QArith_base.Q) (Fixed := Z) cfg start es (after es) -> ready e (after es) -> fst (ev e (after es)) = Ok tt ->
  px_run (Dec := QArith_base.Q) (Fixed := Z) cfg start (es ++ [e]) (after (es ++ [e])).
Proof.
  intros Hr Hrd Ho. unfold after. rewrite foldl_app. eapply px_run_snoc; [exact Hr|exact Hrd| |intros _; exact Ho].
  cbn [foldl]. fold (after es). unfold ev. by destruct (run_event cfg e (after es)).
Qed.

Lemma can_add (tp : TrxPreparer TrxContext ResponseDeliverTx) :
  Forall (fun q => (length q < 100)%nat) (tp_chReqParams tp) -> tp_can_Add tp.
Proof.
  intros Hq q Eq. rewrite Forall_lookup in Hq. specialize (Hq _ _ Eq). apply (Nat.lt_trans _ 100); [done|]. unfold chanCap. lia.
Qed.

Lemma block_runs : px_run (Dec := QArith_base.Q) (Fixed := Z) cfg start block (after block).
Proof.
  apply (run_snoc (take 5 block)); [|vm_compute; reflexivity..].
  apply (run_snoc (take 4 block)); [|do 2 eexists; vm_compute; reflexivity|vm_compute; reflexivity].
  apply (run_snoc (take 3 block)); [|exact Logic.I|vm_compute; reflexivity].
  apply (run_snoc (take 2 block)); [|do 2 eexists; vm_compute; reflexivity|vm_compute; reflexivity].
  apply (run_snoc (take 1 block)); [|apply can_add; vm_compute; repeat constructor|vm_compute; reflexivity].
  apply (run_snoc []); [constructor|apply can_add; vm_compute; repeat constructor|vm_compute; reflexivity].
Qed.

Lemma deliveries_answered_witness :
  answers = [(1%nat, [1], CodeTypeOK); (1%nat, [2], ErrCodeDeliverTx)] /\
  exists waiting, [[1]; [2]] = map (fun a => snd (fst a)) (tx_answers (px_calls (after block))) ++ waiting /\ waiting = [].
Proof.
  split; [vm_compute; reflexivity|].
  destruct (deliveries_answered cfg block start (after block) (prep_ok_start 2) eq_refl block_runs) as (w & Hd & _ & _ & He).
  exists w. split; [exact Hd|]. exact (He (take 5 block) false 1%nat eq_refl).
Defined.

End ClientWitness.
