(* ===== verification/Rpc.v ===== *)
(** * Rpc: the routes of the node's RPC service

    [rpc/functions.go], [rpc/routes.go], [rpc/utils.go] and [rpc/eth_funcs.go].
    The service is Tendermint's: it looks a method up in its table of routes,
    reads the arguments and calls the function, and its [ABCIQuery] hands path,
    data and height to the application's [Query].  These are parameters; the
    table, what each function asks for and the texts it makes are modelled.

    Shown: every route that asks the application is answered by the read of the
    controller it is for, except [proposals], whose path the application does not
    know; a call of the virtual machine is read
    back by the application as it was given; a topic that names an address or hash
    in any case is the text of the events; block numbers of the Ethereum methods. *)
From stdpp Require Import base gmap list strings.
From Stdlib Require Import ZArith Lia Ascii.
From S2P Require Import Prelude XErrors GoMonad LedgerKeys Iavl Ledger Units HexBytes Proto GovParams.
From S2P Require Import Account TrxTypes Signer AcctCtrler VPowerItems ValSet VPowerCtrler.
From S2P Require Import Proposal GovCtrler Numbers Weights SupplyCtrler TrxCtx MetaDB.
From S2P Require Import TrxExecutor TrxPreparer App ToyNode EvmTransition EvmCtrler AppProps Query QueryProps.

(** ** Arguments *)

(** The request: a method over JSON, or the path of an URL; and whether there is
    a websocket. *)
Record RpcContext := MkRpcContext {
  ctx_Method : option string;
  ctx_URLPath : option string;
  ctx_WSConn : bool;
}.

Definition parseHeight (heightPtr : option Z) : Z :=
  match heightPtr with
  | None => 0
  | Some h => if h <? 0 then 0 else h
  end.

(** [strings.TrimPrefix(s, "/")] and [strings.TrimSuffix(s, "/")] *)
Definition TrimPrefixSlash (s : string) : string :=
  match s with
  | String "/"%char s' => s'
  | _ => s
  end.

Fixpoint TrimSuffixSlash (s : string) : string :=
  match s with
  | EmptyString => EmptyString
  | String "/"%char EmptyString => EmptyString
  | String c s' => String c (TrimSuffixSlash s')
  end.

Definition parsePath (ctx : RpcContext) : string :=
  match ctx_Method ctx with
  | Some method => method
  | None =>
      match ctx_URLPath ctx with
      | Some path => TrimSuffixSlash (TrimPrefixSlash path)
      | None => EmptyString
      end
  end.

(** [hexToUpper]: every match of [(?i)[a-f0-9]{40,}], that is every run of 40 or
    more hexadecimal digits that cannot be made longer. *)
Definition is_hex (c : Z) : bool := match hex_val c with Some _ => true | None => false end.

Definition hex_match (run : bytes) : bytes := if (40 <=? length run)%nat then ToUpper run else run.

Fixpoint hex_runs (run s : bytes) : bytes :=
  match s with
  | [] => hex_match run
  | c :: s' => if is_hex c then hex_runs (run ++ [c]) s' else hex_match run ++ c :: hex_runs [] s'
  end.

Definition hexToUpper (s : bytes) : bytes := hex_runs [] s.

(** ** Functions and routes *)

Inductive RpcFunc : Type :=
| QueryAccount | QueryDelegatee | QueryStakes | QueryStakes1 | QueryStakes2 | QueryReward | QueryTotalSupply
| QueryTotalTxFee | QueryProposal | QueryGovParams | Subscribe | Unsubscribe | TxSearch | Validators
| QueryVM | QueryEstimateGas | QueryTxn | EthChainId | EthGetBlockNumber | EthGetBlockByNumber.

(** The arguments by name. *)
Record RpcArgs := MkRpcArgs {
  ra_addr : bytes;
  ra_to : bytes;
  ra_txhash : bytes;
  ra_height : option Z;
  ra_data : bytes;
}.

(** The table of [AddRoutes]: the function of a route and the names of its
    arguments, as [NewRPCFunc] takes them. *)
Definition AddEthRoutes : list (string * (RpcFunc * string)) :=
  [("eth_chainId", (EthChainId, EmptyString)); ("eth_blockNumber", (EthGetBlockNumber, EmptyString));
   ("eth_getBlockByNumber", (EthGetBlockByNumber, "blockNumber, txDetails"))]%string.

Definition AddRoutes : list (string * (RpcFunc * string)) :=
  [("account", (QueryAccount, "addr,height")); ("delegatee", (QueryDelegatee, "addr,height"));
   ("stakes", (QueryStakes, "addr,height")); ("stakes/total_power", (QueryStakes1, "height"));
   ("stakes/voting_power", (QueryStakes2, "height")); ("reward", (QueryReward, "addr,height"));
   ("total_supply", (QueryTotalSupply, "height")); ("total_txfee", (QueryTotalTxFee, EmptyString));
   ("proposals", (QueryProposal, "txhash,height")); ("proposal", (QueryProposal, "txhash,height"));
   ("rule", (QueryGovParams, "height")); ("gov_params", (QueryGovParams, "height")); ("subscribe", (Subscribe, "query"));
   ("unsubscribe", (Unsubscribe, "query")); ("tx_search", (TxSearch, "query,prove,page,per_page,order_by"));
   ("validators", (Validators, "height,page,per_page")); ("vm_call", (QueryVM, "addr,to,height,data"));
   ("vm_estimate_gas", (QueryEstimateGas, "addr,to,height,data")); ("txn", (QueryTxn, EmptyString))]%string
  ++ AddEthRoutes.

Definition Routes : list (string * RpcFunc) :=
  Eval cbv [map fst snd AddRoutes AddEthRoutes app] in map (fun r => (fst r, fst (snd r))) AddRoutes.

(** [strings.Split(args, ",")], which trims nothing; no names for an empty text. *)
Fixpoint split_commas (cur s : string) : list string :=
  match s with
  | EmptyString => [cur]
  | String c s' => if Ascii.eqb c "," then cur :: split_commas EmptyString s' else split_commas (cur ++ String c EmptyString) s'
  end.

Definition argNames (args : string) : list string :=
  if String.eqb args EmptyString then [] else split_commas EmptyString args.

(** [params] of a call of the virtual machine *)
Definition vm_params (addr to data : bytes) : bytes := addr ++ to ++ data.

Section Functions.
Context {St : Type} (ABCIQuery : string -> bytes -> Z -> bool -> M St ResponseQuery).

(** The functions that pass the application's response on; [None] for another. *)
Definition rpc_query (ctx : RpcContext) (f : RpcFunc) (a : RpcArgs) : option (M St ResponseQuery) :=
  let height := parseHeight (ra_height a) in
  let path := parsePath ctx in
  match f with
  | QueryAccount | QueryDelegatee | QueryStakes | QueryReward => Some (ABCIQuery path (ra_addr a) height false)
  | QueryStakes1 | QueryStakes2 | QueryTotalSupply => Some (ABCIQuery path [] height false)
  | QueryTotalTxFee | QueryTxn => Some (ABCIQuery path [] 0 false)
  | QueryProposal => Some (ABCIQuery path (ra_txhash a) height false)
  | QueryGovParams =>
      Some (ABCIQuery (if String.eqb path "rule" then "gov_params" else path)%string [] height false)
  | QueryVM | QueryEstimateGas => Some (ABCIQuery path (vm_params (ra_addr a) (ra_to a) (ra_data a)) height false)
  | _ => None
  end.

(** [eth_chainId]: the value as a number in base 16; [eth_blockNumber]: eight
    bytes of the value, in base 10. *)
Fixpoint hex_digits (fuel : nat) (n : Z) (acc : bytes) : bytes :=
  match fuel with
  | O => acc
  | S k => if n =? 0 then acc else hex_digits k (n / 16) (hex_digit (n mod 16) :: acc)
  end.

(** [big.Int.Text(16)] of a number below [2 ^ (4 * fuel)] *)
Definition Text16 (fuel : nat) (n : Z) : bytes := if n =? 0 then [48] else hex_digits fuel n [].

Definition rpc_EthChainId : M St bytes :=
  let! resp := ABCIQuery "chain_id" [] 0 false in
  let n := get_be (rp_Value resp) 0 in
  ret (text "0x" ++ Text16 (2 * length (rp_Value resp)) n).

Definition rpc_EthGetBlockNumber : M St bytes :=
  let! resp := ABCIQuery "block_height" [] 0 false in
  if (length (rp_Value resp) <? 8)%nat then panic
  else ret (FormatInt (i64 (get_be (take 8 (rp_Value resp)) 0))).

(** [strconv.ParseInt(s, 16, 64)] takes no prefix. *)
Fixpoint parse_hex (s : bytes) (acc : Z) : option Z :=
  match s with
  | [] => Some acc
  | c :: s' => match hex_val c with Some d => parse_hex s' (acc * 16 + d) | None => None end
  end.

Definition ParseInt16 (s : bytes) : outcome Z :=
  let digits (s : bytes) := match s with [] => None | _ => parse_hex s 0 end in
  let parsed := match s with
                | 45 :: s' => option_map Z.opp (digits s')
                | 43 :: s' => digits s'
                | _ => digits s
                end in
  match parsed with
  | None => Err (GoError "strconv.ParseInt: parsing %q: invalid syntax")
  | Some n =>
      if (- 2 ^ 63 <=? n) && (n <? 2 ^ 63) then Ok n
      else Err (GoError "strconv.ParseInt: parsing %q: value out of range")
  end.

(** [ethAddrReg] *)
Definition ethAddrReg (s : bytes) : bool :=
  match s with
  | [48; 120; c] => is_hex c
  | _ => false
  end.

(** [eth_getBlockByNumber]; [Block] is Tendermint's, without a height it is the
    latest block. *)
Definition rpc_EthGetBlockByNumber {B : Type} (Block : option Z -> M St B) (number : bytes) : M St B :=
  let! h := (if ethAddrReg number then lift (ParseInt16 number) else ret 0) in
  Block (if h =? 0 then None else Some h).

(** [subscribe] only over a websocket; topics of [subscribe], [unsubscribe] and
    [tx_search] are rewritten. *)
Definition rpc_Subscribe {B : Type} (subscribe : bytes -> M St B) (ctx : RpcContext) (query : bytes) : M St B :=
  if negb (ctx_WSConn ctx) || negb (bool_decide (is_Some (ctx_Method ctx)))
  then throw (NewOrdinary "error connection type: no websocket connection")
  else subscribe (hexToUpper query).

Definition rpc_topic {B : Type} (search : bytes -> M St B) (query : bytes) : M St B := search (hexToUpper query).

(** [validators]: height zero is the latest. *)
Definition rpc_Validators {B : Type} (validators : option Z -> M St B) (heightPtr : option Z) : M St B :=
  validators (match heightPtr with Some 0 => None | _ => heightPtr end).

End Functions.

(** ** What the routes ask for *)

(** A request by the method [name], or by its URL. *)
Definition asks_for (ctx : RpcContext) (name : string) : Prop :=
  ctx_Method ctx = Some name \/
  (ctx_Method ctx = None /\
   (ctx_URLPath ctx = Some ("/" ++ name)%string \/ ctx_URLPath ctx = Some ("/" ++ name ++ "/")%string)).

Lemma asks_path ctx name f : (name, f) ∈ Routes -> asks_for ctx name -> parsePath ctx = name.
Proof.
  intros Hin [Hm|[Hm Hu]]; unfold parsePath; rewrite Hm; [done|].
  assert (forall nf, nf ∈ Routes -> TrimSuffixSlash (TrimPrefixSlash ("/" ++ fst nf)) = fst nf /\
    TrimSuffixSlash (TrimPrefixSlash ("/" ++ fst nf ++ "/")) = fst nf) as Hall.
  { apply Forall_forall. repeat (apply Forall_cons_2; [split; vm_compute; reflexivity|]). constructor. }
  destruct (Hall _ Hin) as [H1 H2]. by destruct Hu as [-> | ->].
Qed.

Definition asked_path (name : string) : string := if String.eqb name "rule" then "gov_params"%string else name.

Definition asked (f : RpcFunc) (a : RpcArgs) : bytes * Z :=
  match f with
  | QueryAccount | QueryDelegatee | QueryStakes | QueryReward => (ra_addr a, parseHeight (ra_height a))
  | QueryProposal => (ra_txhash a, parseHeight (ra_height a))
  | QueryVM | QueryEstimateGas => (vm_params (ra_addr a) (ra_to a) (ra_data a), parseHeight (ra_height a))
  | QueryTotalTxFee | QueryTxn => ([], 0)
  | _ => ([], parseHeight (ra_height a))
  end.

Section Node.
Context {T I : Type} `{Iavl T I}.
Context `{Proto AcctProto, GovProtos, GovJson, VPowerProtos, SupplyProtos, CryptoLib, QueryJson, FeeText}.
Context {GP E D : Type} `{GasPoolLib GP} `{!IEVMQuery E (AcctCtrler T I)}.
Abbreviation N := (Node T I E GP D).

Abbreviation NM := (M (Node T I E GP D)).
Implicit Types (a : RpcArgs) (v : NM (bytes * option error)).

(** The reads of the controllers' ledgers. *)
Definition vp_read (q : M (LState VItem T I) bytes) : NM (bytes * option error) := answered (n_vp (zoom fst_lens (zoom vp_lens q))).
Definition sup_read (q : M (LState SupplyItem T I) bytes) : NM (bytes * option error) := answered (n_sup (zoom fst_lens (zoom sup_lens q))).
Definition gov_read (h : Z) (q : MemLedger I -> M (LState GovItem T I) bytes) : NM (bytes * option error) :=
  answered (n_gov (zoom gov_lens (let! atledger := query_err (ImitableLedgerAt h) in q atledger))).

(** What is read of the parameters. *)
Definition params_at (atledger : MemLedger I) : M (LState GovItem T I) bytes :=
  let! govParams := query_err (lift (mem_get atledger LedgerKeyGovParams)) in query_err (lift (json_govItem govParams)).

Definition proposals_at (txhash : bytes) (atledger : MemLedger I) : M (LState GovItem T I) bytes :=
  if (length txhash =? 0)%nat then query_proposals atledger else query_proposal atledger txhash.

(** What each route is for, at the height [h]: the value with its error. *)
Definition route_values a (h : Z) : list (string * NM (bytes * option error)) :=
  [("account", query_account (MkRequestQuery "account" (ra_addr a) h));
   ("delegatee", vp_read (queryDelegatee h (ra_addr a)));
   ("stakes", vp_read (queryStakes h (ra_addr a)));
   ("stakes/total_power", vp_read (queryTotalPower h));
   ("stakes/voting_power", let! gp := n_govParams in
      vp_read (queryVotingPower h (GovParams.MaxValidatorCnt gp) (GovParams.MinValidatorPower gp)));
   ("reward", sup_read (queryReward h (ra_addr a)));
   ("total_supply", sup_read (queryTotalSupply h));
   ("total_txfee", let! m := gets nd_meta in ret (fee_text (mdb_totalTxFee m), None));
   ("txn", let! m := gets nd_meta in ret (quoted (mdb_txn m), None));
   ("proposal", gov_read h (proposals_at (ra_txhash a)));
   ("proposals", ret ([], Some ErrInvalidQueryPath));
   ("rule", gov_read h params_at);
   ("gov_params", gov_read h params_at);
   ("vm_call", answered (n_evm (vm_Query (MkRequestQuery "vm_call" (vm_params (ra_addr a) (ra_to a) (ra_data a)) h))));
   ("vm_estimate_gas", answered (n_evm (vm_Query (MkRequestQuery "vm_estimate_gas" (vm_params (ra_addr a) (ra_to a) (ra_data a)) h))))]%string.

Lemma route_values_found a h name v :
  (name, v) ∈ route_values a h -> List.find (fun e => String.eqb (fst e) name) (route_values a h) = Some (name, v).
Proof.
  assert (NoDup (map fst (route_values a h))) as Hnd.
  { unfold route_values. cbn [map fst]. apply (bool_decide_unpack _). vm_compute. constructor. }
  induction (route_values a h) as [|[k w] l IH]; intros Hin; [by apply elem_of_nil in Hin|].
  cbn [List.find map fst] in *. apply NoDup_cons in Hnd as [Hk Hnd].
  apply elem_of_cons in Hin as [[= -> ->]|Hin]; [by rewrite String.eqb_refl|].
  destruct (String.eqb_spec k name) as [->|_]; [|by apply IH]. destruct Hk. by apply (list_elem_of_fmap_2 fst _ (name, v)).
Qed.

(** The height a request is answered at: zero and less, and no height, are the
    last block's, and so is the height of a route without one. *)
Definition answer_height (f : RpcFunc) a (last : Z) : Z :=
  match f, ra_height a with
  | (QueryTotalTxFee | QueryTxn), _ | _, None => last
  | _, Some h => if h <=? 0 then last else h
  end.

(** The response with a value and its error. *)
Definition response_of (key : bytes) (h : Z) (r : bytes * option error) : ResponseQuery :=
  match snd r with
  | Some e => MkResponseQuery (Code e) (Error e) key h (fst r)
  | None => MkResponseQuery CodeTypeOK EmptyString key h (fst r)
  end.

Lemma Query_value cfg path data h (n : N) b :
  nd_last n = Some b ->
  let at_height := if h =? 0 then bc_Height b else h in
  let key := if (32 <? length data)%nat then DefaultHash [data] else data in
  Query cfg (MkRequestQuery path data h) n =
  (let! r := query_value cfg (MkRequestQuery path data at_height) in ret (response_of key at_height r)) n.
Proof.
  intros Hb. unfold Query, the_last, bind, gets, ret, response_of. cbn [rq_Path rq_Data rq_Height].
  destruct (h =? 0); rewrite ?Hb; cbn; destruct (query_value _ _ n) as [[[v [e|]]|e|] n']; done.
Qed.

Context (ABCIQuery : string -> bytes -> Z -> bool -> M N ResponseQuery) (cfg : Config).

(** The request a route makes of the application. *)
Lemma route_asks ctx name f a m (n : N) :
  (forall path data h prove n, ABCIQuery path data h prove n = Query cfg (MkRequestQuery path data h) n) ->
  (name, f) ∈ Routes -> asks_for ctx name -> rpc_query ABCIQuery ctx f a = Some m ->
  m n = Query cfg (MkRequestQuery (asked_path name) (fst (asked f a)) (snd (asked f a))) n.
Proof.
  intros Happ Hin Hctx Hm. pose proof (asks_path _ _ _ Hin Hctx) as Hp.
  unfold rpc_query in Hm. rewrite Hp in Hm. clear Hp Hctx. unfold Routes in Hin.
  repeat (apply elem_of_cons in Hin as [[= -> ->]|Hin]; [try done; injection Hm as <-; by rewrite Happ|]). by apply elem_of_nil in Hin.
Qed.

(** The value of a route is that of its path. *)
Lemma route_value cfg' name f a h m0 (n : N) ctx :
  (name, f) ∈ Routes -> rpc_query ABCIQuery ctx f a = Some m0 ->
  exists v, (name, v) ∈ route_values a h /\ query_value cfg' (MkRequestQuery (asked_path name) (fst (asked f a)) h) n = v n.
Proof.
  intros Hin Hm. unfold rpc_query in Hm. cbv zeta in Hm. unfold Routes in Hin.
  repeat (apply elem_of_cons in Hin as [[= -> ->]|Hin];
    [first [discriminate Hm|
       eexists; split; [unfold route_values; repeat (apply elem_of_cons; first [left; reflexivity|right])|];
       cbn [asked fst]; unfold query_value; eval_paths; unfold vp_Query, supply_Query, gov_Query; eval_paths; reflexivity]|]).
  by apply elem_of_nil in Hin.
Qed.

Lemma asked_height f a last : (if snd (asked f a) =? 0 then last else snd (asked f a)) = answer_height f a last.
Proof.
  assert ((if parseHeight (ra_height a) =? 0 then last else parseHeight (ra_height a)) =
    match ra_height a with None => last | Some h => if h <=? 0 then last else h end) as Hh.
  { unfold parseHeight. destruct (ra_height a) as [h|]; [|done]. destruct (Z.ltb_spec h 0), (Z.leb_spec h 0); try lia; [done| |].
    - by replace h with 0 by lia.
    - by destruct (Z.eqb_spec h 0); [lia|]. }
  unfold answer_height. destruct f; cbn [asked snd]; first [exact Hh | done].
Qed.

(** C39. Every route whose function asks the application is answered with what it is
    for, by method or by URL: the account with the code of the virtual machine, the
    delegatee, stakes and powers read from the voting power ledger, rewards and
    supply from the supply ledger, proposals and parameters from the governance
    ledger, calls by the virtual machine, counts and fees from the node's own
    database; at the height asked for, the last block's when none or none above
    zero is given.  A failed read is the error of the response.  Only [proposals],
    a route of the table, is no path of the application: its response is the error
    of an unknown path. *)
Theorem routes_reach_node ctx name f a m (n : N) b :
  (forall path data h prove n, ABCIQuery path data h prove n = Query cfg (MkRequestQuery path data h) n) ->
  (name, f) ∈ Routes -> asks_for ctx name -> rpc_query ABCIQuery ctx f a = Some m -> nd_last n = Some b ->
  let h := answer_height f a (bc_Height b) in
  exists v key, (name, v) ∈ route_values a h /\ m n = (let! r := v in ret (response_of key h r)) n.
Proof.
  intros Happ Hin Hctx Hm Hb. cbn zeta. rewrite (route_asks ctx name f a m n Happ Hin Hctx Hm), (Query_value _ _ _ _ _ _ Hb), asked_height.
  destruct (route_value cfg name f a (answer_height f a (bc_Height b)) m n ctx Hin Hm) as (v & Hv & Hq). exists v. eexists.
  split; [exact Hv|]. unfold bind. by rewrite Hq.
Qed.

End Node.

(** ** Calls of the virtual machine *)

Section VM.
Context {S DB D T I GP : Type} `{EthStateDB S, EthDB S DB, !EthCode S, TmDB D}.
Context `{Iavl T I, Proto AcctProto, GasPoolLib GP, !EthVM S (SimuAcctCtrler I), QueryJson}.

(** Sender, receiver and data of a call are read back as they were given when both
    addresses have their length; with other lengths the application takes them
    apart elsewhere. *)
Theorem vm_params_read now path addr to data h (s : EVMCtrler S DB D * AcctCtrler T I) :
  length addr = AddrSize -> length to = AddrSize ->
  evm_Query now (MkRequestQuery path (vm_params addr to data) h) s =
  (let! e := gets fst in
   let! execRet := callVM addr to data (if h <=? 0 then ev_lastBlockHeight e else h) now in
   lift (from_err (json_vmcall (call_answer path execRet)))) s.
Proof.
  intros Ha Ht. unfold evm_Query, vm_params. cbn [rq_Data rq_Height rq_Path].
  rewrite !length_app, Ha, Ht. destruct (Nat.ltb_spec (AddrSize + (AddrSize + length data)) (AddrSize * 2)) as [Hlt|_]; [lia|].
  rewrite (take_app_length' addr), (drop_app_length' addr), (take_app_length' to) by done.
  rewrite app_assoc, (drop_app_length' (addr ++ to)) by (rewrite length_app; lia). done.
Qed.

End VM.

(** ** Topics *)

Lemma is_hex_upper c : upper_hex (upper_char c) -> is_hex c = true.
Proof.
  unfold upper_hex, upper_char, is_hex, hex_val. intros Hu.
  repeat case_match; rewrite ?andb_true_iff, ?andb_false_iff in *; try done; lia.
Qed.

Lemma is_hex_spelling v hb : Forall is_byte hb -> ToUpper v = HexBytes_String hb -> Forall (fun c => is_hex c = true) v.
Proof.
  intros Hb Hv. apply String_upper_hex in Hb. rewrite <- Hv in Hb. clear Hv.
  induction v as [|c v IH]; [constructor|]. cbn in Hb. apply Forall_cons in Hb as [Hc Hb]. constructor; [by apply is_hex_upper|by apply IH].
Qed.

Lemma hex_runs_start run p c s : is_hex c = false -> hex_runs run ((p ++ [c]) ++ s) = hex_runs run (p ++ [c]) ++ hexToUpper s.
Proof.
  intros Hc. revert run. induction p as [|x p IH]; intros run; cbn [app hex_runs].
  - rewrite Hc. cbn. by rewrite <- app_assoc.
  - destruct (is_hex x); [apply IH|]. rewrite IH. by rewrite <- app_assoc.
Qed.

Lemma hex_runs_digits run v s :
  Forall (fun c => is_hex c = true) v -> (forall c, head s = Some c -> is_hex c = false) ->
  hex_runs run (v ++ s) = hex_match (run ++ v) ++ hexToUpper s.
Proof.
  intros Hv Hs. revert run. induction Hv as [|x v Hx Hv IH]; intros run; cbn [app hex_runs].
  - rewrite app_nil_r. destruct s as [|c s]; [by rewrite app_nil_r|]. unfold hexToUpper. cbn [hex_runs].
    by rewrite (Hs c eq_refl).
  - rewrite Hx, IH. by rewrite <- app_assoc.
Qed.

(** A topic that names an address, a hash or longer bytes in any case is
    rewritten to the text the events carry, whatever stands around it, and so a
    subscription or a search finds them. *)
Theorem topics_match_events pre v post hb :
  Forall is_byte hb -> (20 <= length hb)%nat -> ToUpper v = HexBytes_String hb ->
  (forall c, last pre = Some c -> is_hex c = false) -> (forall c, head post = Some c -> is_hex c = false) ->
  hexToUpper (pre ++ v ++ post) = hexToUpper pre ++ HexBytes_String hb ++ hexToUpper post.
Proof.
  intros Hb Hl Hv Hpre Hpost. pose proof (is_hex_spelling _ _ Hb Hv) as Hh.
  assert (hexToUpper (v ++ post) = HexBytes_String hb ++ hexToUpper post) as Hmid.
  { unfold hexToUpper at 1. rewrite hex_runs_digits by done. unfold hex_match. cbn [app].
    assert (length v = 2 * length hb)%nat as Hlen by (rewrite <- length_String, <- Hv; unfold ToUpper; by rewrite length_map).
    destruct (Nat.leb_spec 40 (length v)); [by rewrite Hv|lia]. }
  destruct pre as [|c pre _] using rev_ind; [done|]. unfold hexToUpper at 1. rewrite hex_runs_start; [by rewrite Hmid|].
  apply Hpre. by rewrite last_snoc.
Qed.

(** ** The Ethereum methods *)

(** [eth_getBlockByNumber] never asks for a block by its number: a text the
    expression takes has a prefix that is not read as a number, and any other text
    stands for the latest block. *)
Theorem eth_block_latest {St B : Type} (Block : option Z -> M St B) number s :
  rpc_EthGetBlockByNumber Block number s =
    if ethAddrReg number then (Err (GoError "strconv.ParseInt: parsing %q: invalid syntax"), s) else Block None s.
Proof.
  unfold rpc_EthGetBlockByNumber, bind. destruct (ethAddrReg number) eqn:E; [|done].
  assert (exists c, number = [48; 120; c]) as [c ->].
  { unfold ethAddrReg in E. destruct number as [|a [|b [|c [|]]]]; try (repeat case_match; congruence). exists c.
    destruct (decide (a = 48)) as [->|Ha]; [destruct (decide (b = 120)) as [->|Hb]; [done|]|]; repeat case_match; congruence. }
  done.
Qed.

Lemma parse_hex_app a b acc : parse_hex (a ++ b) acc = parse_hex a acc ≫= parse_hex b.
Proof. revert acc. induction a as [|c a IH]; intros acc; cbn; [done|]. by destruct (hex_val c). Qed.

Lemma hex_val_digit n : 0 <= n < 16 -> hex_val (hex_digit n) = Some n.
Proof.
  intros Hn. unfold hex_val, hex_digit. destruct (Z.ltb_spec n 10).
  - rewrite (proj2 (Z.leb_le 48 (48 + n))), (proj2 (Z.leb_le (48 + n) 57)) by lia. cbn. f_equal. lia.
  - rewrite (proj2 (Z.leb_gt (87 + n) 57)), andb_false_r by lia.
    rewrite (proj2 (Z.leb_le 97 (87 + n))), (proj2 (Z.leb_le (87 + n) 102)) by lia. cbn. f_equal. lia.
Qed.

Lemma hex_digits_read fuel n acc : 0 <= n < 16 ^ Z.of_nat fuel -> parse_hex (hex_digits fuel n acc) 0 = parse_hex acc n.
Proof.
  revert n acc. induction fuel as [|k IH]; intros n acc Hn; cbn [hex_digits].
  - change (16 ^ Z.of_nat 0) with 1 in Hn. assert (n = 0) as -> by lia. done.
  - destruct (Z.eqb_spec n 0) as [->|_]; [done|]. pose proof (Z.div_mod n 16). pose proof (Z.mod_pos_bound n 16).
    rewrite IH.
    + cbn [parse_hex]. rewrite hex_val_digit by lia. f_equal. lia.
    + rewrite Nat2Z.inj_succ, Z.pow_succ_r in Hn by lia. split; [apply Z.div_pos; lia|apply Z.div_lt_upper_bound; lia].
Qed.

Lemma get_be_bound b acc : Forall is_byte b -> 0 <= acc -> 0 <= get_be b acc < (acc + 1) * 256 ^ Z.of_nat (length b).
Proof.
  intros Hb. revert acc. induction Hb as [|x b Hx Hb IH]; intros acc Ha; cbn [get_be length].
  - change (256 ^ Z.of_nat 0) with 1. lia.
  - unfold is_byte in Hx. specialize (IH (acc * 256 + x) ltac:(lia)). rewrite Nat2Z.inj_succ, Z.pow_succ_r by lia.
    pose proof (Z.pow_nonneg 256 (Z.of_nat (length b))). nia.
Qed.

Lemma Text16_read b : Forall is_byte b -> parse_hex (Text16 (2 * length b) (get_be b 0)) 0 = Some (get_be b 0).
Proof.
  intros Hb. pose proof (get_be_bound b 0 Hb ltac:(lia)) as Hr. unfold Text16.
  destruct (Z.eqb_spec (get_be b 0) 0) as [->|_]; [done|]. rewrite hex_digits_read; [done|].
  replace (16 ^ Z.of_nat (2 * length b)) with (256 ^ Z.of_nat (length b)); [lia|].
  rewrite Nat2Z.inj_mul. change (Z.of_nat 2) with 2. rewrite Z.pow_mul_r by lia. done.
Qed.

Section EthNode.
Context {T I : Type} `{Iavl T I}.
Context `{Proto AcctProto, GovProtos, GovJson, VPowerProtos, SupplyProtos, CryptoLib, QueryJson, FeeText}.
Context {GP E D : Type} `{GasPoolLib GP} `{!IEVMQuery E (AcctCtrler T I)}.

(** [eth_chainId] is the configured chain id in base 16, and [eth_blockNumber] the
    height of the last block in base 10. *)
Theorem eth_answers cfg (n : Node T I E GP D) b :
  let abci path data h (_ : bool) := Query cfg (MkRequestQuery path data h) in
  in_u256 (cfg_ChainId cfg) -> nd_last n = Some b -> in_i64 (bc_Height b) ->
  (exists digits, rpc_EthChainId abci n = (Ok (text "0x" ++ digits), n) /\ parse_hex digits 0 = Some (cfg_ChainId cfg)) /\
  rpc_EthGetBlockNumber abci n = (Ok (FormatInt (bc_Height b)), n).
Proof.
  intros abci Hc Hb Hh.
  assert (forall path v, query_value cfg (MkRequestQuery path [] (bc_Height b)) n = (Ok (v, None), n) ->
    exists resp, abci path [] 0 false n = (Ok resp, n) /\ rp_Value resp = v) as Habci.
  { intros path v Hv. unfold abci, Query, the_last, bind, gets, ret. cbn [rq_Height rq_Path rq_Data Z.eqb].
    rewrite Hb. cbn. rewrite Hv. by eexists. }
  split.
  - destruct (Habci "chain_id"%string (uBytes (cfg_ChainId cfg)) eq_refl) as (resp & Hr & Hv).
    exists (Text16 (2 * length (rp_Value resp)) (get_be (rp_Value resp) 0)). split.
    + unfold rpc_EthChainId, bind. by rewrite Hr.
    + rewrite Hv. assert (Forall is_byte (uBytes (cfg_ChainId cfg))) as Hby.
      { unfold uBytes. generalize 32%nat (cfg_ChainId cfg). intros k z.
        assert (Forall is_byte (put_be k z)) as Hp.
        { revert z. induction k as [|k IH]; intros z; cbn; [constructor|]. apply Forall_app_2; [apply IH|].
          constructor; [apply Z.mod_pos_bound; lia|constructor]. }
        induction Hp as [|x l Hx Hl IHl]; cbn; [constructor|]. destruct (x =? 0); [done|by constructor]. }
      rewrite Text16_read by done. f_equal. unfold uBytes. rewrite get_be_strip, get_put_be.
      rewrite Z.mod_small; [lia|]. exact Hc.
  - destruct (Habci "block_height"%string (put_be 8 (u64 (bc_Height b)))) as (resp & Hr & Hv).
    { change (query_value cfg (MkRequestQuery "block_height" [] (bc_Height b)) n)
        with ((let! last := the_last in ret (put_be 8 (u64 (bc_Height last)), @None error)) n).
      unfold the_last, bind, gets, ret. by rewrite Hb. }
    unfold rpc_EthGetBlockNumber, bind. rewrite Hr, Hv, length_put_be. cbn [Nat.ltb Nat.leb].
    rewrite take_ge by (rewrite length_put_be; lia). rewrite get_put_be. unfold ret. do 3 f_equal.
    rewrite Z.mul_0_l, Z.add_0_l. change (256 ^ Z.of_nat 8) with (2 ^ 64). unfold u64. rewrite Z.mod_mod by lia.
    rewrite <- (i64_id (bc_Height b) Hh) at 2. apply eqm64_i64. unfold eqm64. by rewrite Z.mod_mod by lia.
Qed.

End EthNode.

Module RpcWitness.
Import ToyNode RestartWitness.

#[local] Instance w_json : QueryJson := QueryWitness.w_json.
#[local] Instance w_fee : FeeText := FormatInt.
#[local] Instance w_evm_query : IEVMQuery unit toy_accts := {| vm_Query _ := ret []; vm_GetCode _ _ := ret [] |}.

Abbreviation Nd := (Node RefTree.tree (gmap bytes bytes) unit Z (gmap bytes bytes)).
Definition abci (path : string) (data : bytes) (h : Z) (prove : bool) : M Nd ResponseQuery :=
  Query cfg (MkRequestQuery path data h).

(** After its first block, the proposals of a node are asked for by their URL and
    its total supply by the method. *)
Lemma routes_reach_node_witness :
  (exists resp, abci "proposals" [1; 2] 0 false (snd committed) = (Ok resp, snd committed) /\ rp_Code resp = ErrCodeInvalidQueryPath) /\
  (exists key, fst (abci "total_supply" [] 0 false (snd committed)) =
     fst ((let! r := sup_read (queryTotalSupply 1) in ret (response_of key 1 r)) (snd committed))).
Proof.
  destruct (nd_last (snd committed)) as [b|] eqn:Eb; [|vm_compute in Eb; discriminate Eb].
  assert (Hb : bc_Height b = 1) by (vm_compute in Eb; injection Eb as <-; reflexivity). split.
  - destruct (routes_reach_node abci cfg (MkRpcContext None (Some "/proposals/"%string) false) "proposals"%string QueryProposal
      (MkRpcArgs [] [] [1; 2] None []) (abci "proposals" [1; 2] 0 false) (snd committed) b) as (v & key & Hin & Hm).
    + reflexivity.
    + unfold Routes. repeat (apply elem_of_cons; first [left; reflexivity|right]).
    + right. split; [reflexivity|]. right. reflexivity.
    + reflexivity.
    + exact Eb.
    + apply route_values_found in Hin. cbn [List.find route_values fst String.eqb Ascii.eqb Bool.eqb andb] in Hin.
      injection Hin as <-. eexists. split; [exact Hm|reflexivity].
  - destruct (routes_reach_node abci cfg (MkRpcContext (Some "total_supply"%string) None false) "total_supply"%string QueryTotalSupply
      (MkRpcArgs [] [] [] (Some (-5)) []) (abci "total_supply" [] 0 false) (snd committed) b) as (v & key & Hin & Hm).
    + reflexivity.
    + unfold Routes. repeat (apply elem_of_cons; first [left; reflexivity|right]).
    + left. reflexivity.
    + reflexivity.
    + exact Eb.
    + cbn [answer_height ra_height] in Hin, Hm. change (-5 <=? 0) with true in Hin, Hm. rewrite Hb in Hin, Hm.
      apply route_values_found in Hin. cbn [List.find route_values fst String.eqb Ascii.eqb Bool.eqb andb] in Hin.
      injection Hin as <-. exists key. rewrite Hm. reflexivity.
Defined.

(** [tx.sender='ab..ab'] in lower case *)
Lemma topics_match_events_witness :
  hexToUpper (text "tx.sender='" ++ hex_EncodeToString (repeat 171 20) ++ text "'") =
  text "tx.sender='" ++ HexBytes_String (repeat 171 20) ++ text "'".
Proof.
  apply (topics_match_events (text "tx.sender='") (hex_EncodeToString (repeat 171 20)) (text "'") (repeat 171 20)).
  - cbn. unfold is_byte. repeat constructor; lia.
  - reflexivity.
  - reflexivity.
  - intros c [= <-]. reflexivity.
  - intros c [= <-]. reflexivity.
Defined.

End RpcWitness.
