(* ===== verification/Openapi.v ===== *)
(** * Openapi: the document of the RPC interface

    [tools/gen-openapi.go] writes an OpenAPI document from a table of endpoints: it
    groups them by tag, sorts each group by name and fills a template.  The table,
    the order and the text the template gives are modelled line by line; the
    theorems compare the document with the routes the node registers. *)
From stdpp Require Import base list strings sorting.
From Stdlib Require Import ZArith Lia.
From S2P Require Import Prelude Rpc.

Record Parameter_ := MkParameter {
  pm_Name : string;
  pm_Type : string;
  pm_Required : bool;
  pm_Description : string;
}.

Record Endpoint := MkEndpoint {
  ep_Name : string;
  ep_Method : string;
  ep_Description : string;
  ep_Parameters : list Parameter_;
  ep_Response : string;
  ep_Tag : string;
}.

(** ** The table *)

Definition endpoints1 : list Endpoint := [
  MkEndpoint "account" "GET" "Query account information by address"
    [MkParameter "addr" "string" true "Account address (hex bytes)";
      MkParameter "height" "integer" false "Block height (default: latest)"] "QueryResult" EmptyString;
  MkEndpoint "delegatee" "GET" "Query delegatee information by address"
    [MkParameter "addr" "string" true "Delegatee address (hex bytes)";
      MkParameter "height" "integer" false "Block height (default: latest)"] "QueryResult" EmptyString;
  MkEndpoint "stakes" "GET" "Query stakes information by address"
    [MkParameter "addr" "string" true "Address (hex bytes)";
      MkParameter "height" "integer" false "Block height (default: latest)"] "QueryResult" EmptyString;
  MkEndpoint "stakes/total_power" "GET" "Query total staking power"
    [MkParameter "height" "integer" false "Block height (default: latest)"] "QueryResult" EmptyString;
  MkEndpoint "stakes/voting_power" "GET" "Query total voting power"
    [MkParameter "height" "integer" false "Block height (default: latest)"] "QueryResult" EmptyString;
  MkEndpoint "reward" "GET" "Query reward information by address"
    [MkParameter "addr" "string" true "Address (hex bytes)";
      MkParameter "height" "integer" false "Block height (default: latest)"] "QueryResult" EmptyString;
  MkEndpoint "total_supply" "GET" "Query total token supply"
    [MkParameter "height" "integer" false "Block height (default: latest)"] "QueryResult" EmptyString;
  MkEndpoint "total_txfee" "GET" "Query total transaction fees"
    [] "QueryResult" EmptyString;
  MkEndpoint "proposals" "GET" "Query proposal information"
    [MkParameter "txhash" "string" true "Transaction hash (hex bytes)";
      MkParameter "height" "integer" false "Block height (default: latest)"] "QueryResult" EmptyString;
  MkEndpoint "proposal" "GET" "Query proposal information"
    [MkParameter "txhash" "string" true "Transaction hash (hex bytes)";
      MkParameter "height" "integer" false "Block height (default: latest)"] "QueryResult" EmptyString;
  MkEndpoint "rule" "GET" "Query governance parameters (deprecated, use gov_params)"
    [MkParameter "height" "integer" false "Block height (default: latest)"] "QueryResult" EmptyString;
  MkEndpoint "gov_params" "GET" "Query governance parameters"
    [MkParameter "height" "integer" false "Block height (default: latest)"] "QueryResult" EmptyString;
  MkEndpoint "subscribe" "GET" "Subscribe to events (WebSocket only)"
    [MkParameter "query" "string" true "Event query string"] "ResultSubscribe" EmptyString;
  MkEndpoint "unsubscribe" "GET" "Unsubscribe from events (WebSocket only)"
    [MkParameter "query" "string" true "Event query string"] "ResultUnsubscribe" EmptyString;
  MkEndpoint "tx_search" "GET" "Search transactions"
    [MkParameter "query" "string" true "Search query";
      MkParameter "prove" "boolean" false "Include proof";
      MkParameter "page" "integer" false "Page number";
      MkParameter "per_page" "integer" false "Results per page";
      MkParameter "order_by" "string" false "Order by (asc/desc)"] "ResultTxSearch" EmptyString
]%string.

Definition endpoints2 : list Endpoint := [
  MkEndpoint "validators" "GET" "Query validators"
    [MkParameter "height" "integer" false "Block height (default: latest)";
      MkParameter "page" "integer" false "Page number";
      MkParameter "per_page" "integer" false "Results per page"] "ResultValidators" EmptyString;
  MkEndpoint "vm_call" "GET" "Call VM (read-only)"
    [MkParameter "addr" "string" true "Caller address (hex bytes)";
      MkParameter "to" "string" true "Contract address (hex bytes)";
      MkParameter "height" "integer" false "Block height (default: latest)";
      MkParameter "data" "string" true "Call data (hex bytes)"] "QueryResult" EmptyString;
  MkEndpoint "vm_estimate_gas" "GET" "Estimate gas for VM call"
    [MkParameter "addr" "string" true "Caller address (hex bytes)";
      MkParameter "to" "string" true "Contract address (hex bytes)";
      MkParameter "height" "integer" false "Block height (default: latest)";
      MkParameter "data" "string" true "Call data (hex bytes)"] "QueryResult" EmptyString;
  MkEndpoint "txn" "GET" "Query transaction information"
    [] "QueryResult" EmptyString;
  MkEndpoint "health" "GET" "Check node health"
    [] "ResultHealth" EmptyString;
  MkEndpoint "status" "GET" "Get node status"
    [] "ResultStatus" EmptyString;
  MkEndpoint "net_info" "GET" "Get network info"
    [] "ResultNetInfo" EmptyString;
  MkEndpoint "blockchain" "GET" "Get blockchain info between min and max height"
    [MkParameter "minHeight" "integer" false "Minimum block height";
      MkParameter "maxHeight" "integer" false "Maximum block height"] "ResultBlockchainInfo" EmptyString;
  MkEndpoint "genesis" "GET" "Get genesis file"
    [] "ResultGenesis" EmptyString;
  MkEndpoint "genesis_chunked" "GET" "Get genesis file in chunks"
    [MkParameter "chunk" "integer" true "Chunk number"] "ResultGenesisChunk" EmptyString;
  MkEndpoint "block" "GET" "Get block at a given height"
    [MkParameter "height" "integer" false "Block height (default: latest)"] "ResultBlock" EmptyString;
  MkEndpoint "block_by_hash" "GET" "Get block by hash"
    [MkParameter "hash" "string" true "Block hash (hex bytes)"] "ResultBlock" EmptyString;
  MkEndpoint "block_results" "GET" "Get ABCI results for a block"
    [MkParameter "height" "integer" false "Block height (default: latest)"] "ResultBlockResults" EmptyString;
  MkEndpoint "commit" "GET" "Get block commit at a given height"
    [MkParameter "height" "integer" false "Block height (default: latest)"] "ResultCommit" EmptyString;
  MkEndpoint "check_tx" "GET" "Check transaction validity"
    [MkParameter "tx" "string" true "Transaction bytes (hex encoded)"] "ResultCheckTx" EmptyString;
  MkEndpoint "tx" "GET" "Get transaction by hash"
    [MkParameter "hash" "string" true "Transaction hash (hex bytes)";
      MkParameter "prove" "boolean" false "Include proof"] "ResultTx" EmptyString
]%string.

Definition endpoints3 : list Endpoint := [
  MkEndpoint "block_search" "GET" "Search for blocks"
    [MkParameter "query" "string" true "Search query";
      MkParameter "page" "integer" false "Page number";
      MkParameter "per_page" "integer" false "Results per page";
      MkParameter "order_by" "string" false "Order by (asc/desc)"] "ResultBlockSearch" EmptyString;
  MkEndpoint "consensus_params" "GET" "Get consensus parameters"
    [MkParameter "height" "integer" false "Block height (default: latest)"] "ResultConsensusParams" EmptyString;
  MkEndpoint "consensus_state" "GET" "Get consensus state"
    [] "ResultConsensusState" EmptyString;
  MkEndpoint "dump_consensus_state" "GET" "Dump consensus state"
    [] "ResultDumpConsensusState" EmptyString;
  MkEndpoint "unconfirmed_txs" "GET" "Get unconfirmed transactions"
    [MkParameter "limit" "integer" false "Maximum number of txs to return"] "ResultUnconfirmedTxs" EmptyString;
  MkEndpoint "num_unconfirmed_txs" "GET" "Get number of unconfirmed transactions"
    [] "ResultNumUnconfirmedTxs" EmptyString;
  MkEndpoint "broadcast_tx_commit" "GET" "Broadcast transaction and wait for commit"
    [MkParameter "tx" "string" true "Transaction bytes (hex encoded)"] "ResultBroadcastTxCommit" EmptyString;
  MkEndpoint "broadcast_tx_sync" "GET" "Broadcast transaction synchronously"
    [MkParameter "tx" "string" true "Transaction bytes (hex encoded)"] "ResultBroadcastTx" EmptyString;
  MkEndpoint "broadcast_tx_async" "GET" "Broadcast transaction asynchronously"
    [MkParameter "tx" "string" true "Transaction bytes (hex encoded)"] "ResultBroadcastTx" EmptyString;
  MkEndpoint "abci_query" "GET" "Query the application"
    [MkParameter "path" "string" true "Query path";
      MkParameter "data" "string" false "Query data (hex bytes)";
      MkParameter "height" "integer" false "Block height (default: latest)";
      MkParameter "prove" "boolean" false "Include proof"] "ResultABCIQuery" EmptyString;
  MkEndpoint "abci_info" "GET" "Get ABCI application info"
    [] "ResultABCIInfo" EmptyString;
  MkEndpoint "broadcast_evidence" "GET" "Broadcast evidence of misbehavior"
    [MkParameter "evidence" "string" true "Evidence JSON"] "ResultBroadcastEvidence" EmptyString
]%string.

Definition endpoints : list Endpoint := endpoints1 ++ endpoints2 ++ endpoints3.

(** ** The template *)

(** The text before the paths, and the schemas after them with their lines. *)
Definition header : list string := [
  "openapi: 3.0.3";
  "info:";
  "  title: BEATOZ Blockchain API";
  "  description: |";
  "    BEATOZ Blockchain API Documentation";
  EmptyString;
  "    This API provides access to the BEATOZ blockchain data and functionality.";
  EmptyString;
  "    **Base URL**: https://rpc-devnet0.beatoz.io";
  EmptyString;
  "    **Note**: All endpoints are accessed via HTTP GET requests with query parameters.";
  "  version: 1.0.0";
  "  contact:";
  "    name: BEATOZ Team";
  "    url: https://github.com/beatoz/beatoz-go";
  EmptyString;
  "servers:";
  "  - url: https://rpc-devnet0.beatoz.io";
  "    description: Development Network";
  "  - url: https://rpc-testnet0.beatoz.io";
  "    description: Test Network";
  "  - url: http://localhost:26657";
  "    description: Local development server";
  EmptyString;
  "paths:"
]%string.

Definition schemas : list (string * list string) := [
  ("QueryResult", ["      type: object";
     "      properties:";
     "        code:";
     "          type: integer";
     "          format: uint32";
     "          description: Response code (0 = success)";
     "        log:";
     "          type: string";
     "          description: Log message";
     "        info:";
     "          type: string";
     "          description: Additional info";
     "        index:";
     "          type: integer";
     "          format: int64";
     "          description: Index";
     "        key:";
     "          type: string";
     "          description: Key (hex bytes)";
     "        value:";
     "          type: object";
     "          description: Result value (JSON)";
     "        proof_ops:";
     "          type: object";
     "          description: Proof operations";
     "        height:";
     "          type: integer";
     "          format: int64";
     "          description: Block height";
     "        codespace:";
     "          type: string";
     "          description: Codespace"]);
  ("ResultSubscribe", ["      type: object";
     "      properties:";
     "        query:";
     "          type: string";
     "          description: Subscribed query"]);
  ("ResultUnsubscribe", ["      type: object";
     "      properties:";
     "        query:";
     "          type: string";
     "          description: Unsubscribed query"]);
  ("ResultTxSearch", ["      type: object";
     "      properties:";
     "        txs:";
     "          type: array";
     "          items:";
     "            type: object";
     "          description: List of transactions";
     "        total_count:";
     "          type: integer";
     "          description: Total number of results"]);
  ("ResultValidators", ["      type: object";
     "      properties:";
     "        block_height:";
     "          type: integer";
     "          format: int64";
     "          description: Block height";
     "        validators:";
     "          type: array";
     "          items:";
     "            type: object";
     "          description: List of validators";
     "        count:";
     "          type: integer";
     "          description: Number of validators";
     "        total:";
     "          type: integer";
     "          description: Total validators"]);
  ("ResultBlock", ["      type: object";
     "      properties:";
     "        block_id:";
     "          type: object";
     "          description: Block ID";
     "        block:";
     "          type: object";
     "          description: Block data"]);
  ("ResultHealth", ["      type: object";
     "      description: Node health response"]);
  ("ResultStatus", ["      type: object";
     "      description: Node status information"]);
  ("ResultNetInfo", ["      type: object";
     "      description: Network information"]);
  ("ResultBlockchainInfo", ["      type: object";
     "      description: Blockchain information"]);
  ("ResultGenesis", ["      type: object";
     "      description: Genesis file"]);
  ("ResultGenesisChunk", ["      type: object";
     "      description: Genesis chunk"]);
  ("ResultBlockResults", ["      type: object";
     "      description: Block results"]);
  ("ResultCommit", ["      type: object";
     "      description: Block commit"]);
  ("ResultCheckTx", ["      type: object";
     "      description: Check transaction result"]);
  ("ResultTx", ["      type: object";
     "      description: Transaction result"]);
  ("ResultBlockSearch", ["      type: object";
     "      description: Block search results"]);
  ("ResultConsensusParams", ["      type: object";
     "      description: Consensus parameters"]);
  ("ResultConsensusState", ["      type: object";
     "      description: Consensus state"]);
  ("ResultDumpConsensusState", ["      type: object";
     "      description: Consensus state dump"]);
  ("ResultUnconfirmedTxs", ["      type: object";
     "      description: Unconfirmed transactions"]);
  ("ResultNumUnconfirmedTxs", ["      type: object";
     "      description: Number of unconfirmed transactions"]);
  ("ResultBroadcastTxCommit", ["      type: object";
     "      description: Broadcast transaction commit result"]);
  ("ResultBroadcastTx", ["      type: object";
     "      description: Broadcast transaction result"]);
  ("ResultABCIQuery", ["      type: object";
     "      description: ABCI query result"]);
  ("ResultABCIInfo", ["      type: object";
     "      description: ABCI info"]);
  ("ResultBroadcastEvidence", ["      type: object";
     "      description: Broadcast evidence result"]);
  ("Error", ["      type: object";
     "      properties:";
     "        code:";
     "          type: integer";
     "          description: Error code";
     "        message:";
     "          type: string";
     "          description: Error message";
     "        data:";
     "          type: string";
     "          description: Additional error data"])
]%string.

(** A double quote *)
Definition dq : string := String (Ascii.ascii_of_nat 34) EmptyString.

(** What the template writes for a parameter and for an endpoint; [lower] is
    constantly [get]. *)
Definition param_lines (p : Parameter_) : list string := [
  "        - name: " ++ pm_Name p;
  "          in: query";
  "          required: " ++ (if pm_Required p then "true" else "false");
  "          description: " ++ dq ++ pm_Description p ++ dq;
  "          schema:";
  "            type: " ++ pm_Type p
]%string.

Definition ref_line (schema : string) : string :=
  ("                $ref: '#/components/schemas/" ++ schema ++ "'")%string.

Definition response_lines (code description schema : string) : list string := [
  "        '" ++ code ++ "':";
  "          description: " ++ description;
  "          content:";
  "            application/json:";
  "              schema:";
  ref_line schema
]%string.

Definition endpoint_lines (e : Endpoint) : list string :=
  (["  /" ++ ep_Name e ++ ":";
    "    get:";
    "      summary: " ++ ep_Description e;
    "      operationId: " ++ ep_Name e;
    "      tags:";
    "        - " ++ ep_Tag e]%string)
  ++ match ep_Parameters e with
     | [] => []
     | ps => "      parameters:"%string :: flat_map param_lines ps
     end
  ++ ["      responses:"%string]
  ++ response_lines "200" "Successful response" (ep_Response e)
  ++ response_lines "400" "Bad request" "Error"
  ++ response_lines "500" "Internal server error" "Error".

Fixpoint schema_lines (ss : list (string * list string)) : list string :=
  match ss with
  | [] => []
  | [(name, body)] => ("    " ++ name ++ ":")%string :: body
  | (name, body) :: ss' => ("    " ++ name ++ ":")%string :: body ++ EmptyString :: schema_lines ss'
  end.

Definition components_lines : list string :=
  ["components:"; "  schemas:"]%string ++ schema_lines schemas.

(** The lines of the document for a list of endpoints. *)
Definition document (es : list Endpoint) : list string :=
  header ++ flat_map endpoint_lines es ++ EmptyString :: components_lines.

(** ** Tags and order *)

Definition getTag (name : string) : string :=
  (if (3 <=? String.length name)%nat && String.eqb (String.substring 0 3 name) "vm_" then "Virtual Machine"
   else if existsb (String.eqb name) ["subscribe"; "unsubscribe"; "tx_search"] then "WebSocket"
   else if existsb (String.eqb name) ["stakes"; "stakes/total_power"; "stakes/voting_power"] then "Staking"
   else if existsb (String.eqb name) ["gov_params"; "rule"; "proposal"; "proposals"] then "Governance"
   else "BEATOZ RPC")%string.

Definition tagOrder : list string := ["BEATOZ RPC"; "Governance"; "Staking"; "Virtual Machine"; "WebSocket"]%string.

Definition assign_tag (e : Endpoint) : Endpoint :=
  MkEndpoint (ep_Name e) (ep_Method e) (ep_Description e) (ep_Parameters e) (ep_Response e) (getTag (ep_Name e)).

(** [tagMap] at a tag: the endpoints in the order of the table. *)
Definition tagMap (eps : list Endpoint) (tag : string) : list Endpoint :=
  List.filter (fun e => String.eqb (ep_Tag e) tag) eps.

Definition name_less (a b : Endpoint) : bool := String.ltb (ep_Name a) (ep_Name b).

Definition sortedEndpoints (eps : list Endpoint) : list Endpoint :=
  flat_map (fun tag => go_sort name_less (tagMap (map assign_tag eps) tag)) tagOrder.

(** [main]: the lines written. *)
Definition openapi_main (eps : list Endpoint) : list string := document (sortedEndpoints eps).

(** ** The order *)

Lemma Ascii_compare_N a b : Ascii.compare a b = N.compare (Ascii.N_of_ascii a) (Ascii.N_of_ascii b).
Proof. done. Qed.

Lemma compare_refl (s : string) : String.compare s s = Eq.
Proof. induction s as [|c s IH]; cbn; [done|]. rewrite Ascii_compare_N, N.compare_refl. exact IH. Qed.

(** Strings compared as Go does, byte by byte: a total order. *)
Lemma ltb_false_trans (a b c : string) :
  String.ltb a b = false -> String.ltb b c = false -> String.ltb a c = false.
Proof.
  unfold String.ltb. revert b c. induction a as [|x a IH]; intros [|y b] [|z c]; cbn; try done.
  rewrite !Ascii_compare_N. specialize (IH b c).
  destruct (N.compare_spec (Ascii.N_of_ascii x) (Ascii.N_of_ascii y)) as [E1|E1|E1],
    (N.compare_spec (Ascii.N_of_ascii y) (Ascii.N_of_ascii z)) as [E2|E2|E2],
    (N.compare_spec (Ascii.N_of_ascii x) (Ascii.N_of_ascii z)) as [E3|E3|E3]; try done; lia.
Qed.

Lemma ltb_asym (a b : string) : String.ltb a b = true -> String.ltb b a = false.
Proof. unfold String.ltb. rewrite (String.compare_antisym b a). by destruct (String.compare a b). Qed.

(** Every tag of [getTag] is one of the order. *)
Lemma getTag_ordered name : getTag name ∈ tagOrder.
Proof. unfold getTag. repeat case_match; apply (bool_decide_eq_true_1 _); vm_compute; reflexivity. Qed.

(** Where a tag comes in the document. *)
Definition tag_rank (tag : string) : nat :=
  match list_find (eq tag) tagOrder with Some (i, _) => i | None => length tagOrder end.

Definition in_order (a b : Endpoint) : Prop :=
  (tag_rank (ep_Tag a) < tag_rank (ep_Tag b))%nat \/ (ep_Tag a = ep_Tag b /\ name_less b a = false).

Lemma tagMap_tag eps tag e : e ∈ tagMap eps tag <-> e ∈ eps /\ ep_Tag e = tag.
Proof. unfold tagMap. by rewrite !list_elem_of_In, List.filter_In, String.eqb_eq. Qed.

(** The groups of some tags, none twice. *)
Lemma groups_perm eps tags :
  NoDup tags ->
  flat_map (fun tag => go_sort name_less (tagMap eps tag)) tags ≡ₚ List.filter (fun e => existsb (String.eqb (ep_Tag e)) tags) eps.
Proof.
  intros Hnd. induction Hnd as [|tag tags Hnin _ IH]; cbn [flat_map].
  { induction eps as [|e eps IHe]; [done|]. cbn. done. }
  rewrite IH, (go_sort_perm name_less). clear IH. induction eps as [|e eps IHe]; [done|].
  cbn [tagMap List.filter existsb]. fold (tagMap eps tag). destruct (String.eqb_spec (ep_Tag e) tag) as [Et|Et]; cbn [orb].
  - assert (existsb (String.eqb (ep_Tag e)) tags = false) as ->.
    { apply not_true_iff_false. intros Hex. apply existsb_exists in Hex as (t & Hin & Ht). apply String.eqb_eq in Ht.
      apply Hnin. rewrite <- Et, Ht. by apply list_elem_of_In. }
    cbn. by rewrite IHe.
  - destruct (existsb _ tags); [|exact IHe]. by rewrite <- Permutation_middle, IHe.
Qed.

Lemma groups_sorted eps tags :
  StronglySorted (fun a b => tag_rank a < tag_rank b)%nat tags ->
  StronglySorted in_order (flat_map (fun tag => go_sort name_less (tagMap eps tag)) tags).
Proof.
  induction 1 as [|tag tags Hs IH Ht]; cbn [flat_map]; [constructor|].
  assert (Forall (fun e => ep_Tag e = tag) (go_sort name_less (tagMap eps tag))) as Htag.
  { apply Forall_forall. intros e He. apply elem_of_go_sort, tagMap_tag in He. tauto. }
  pose proof (go_sort_sorted name_less (fun x y z => ltb_false_trans (ep_Name x) (ep_Name y) (ep_Name z))
    (fun x y => ltb_asym (ep_Name x) (ep_Name y)) (tagMap eps tag)) as Hgs.
  induction Hgs as [|e es Hes IHe He]; cbn [app]; [exact IH|]. apply Forall_cons in Htag as [Et Htag].
  constructor; [by apply IHe|]. apply Forall_app. split.
  - apply Forall_forall. intros e' He'. right. rewrite Et, (proj1 (Forall_forall _ _) Htag _ He'). split; [done|].
    by apply (proj1 (Forall_forall _ _) He).
  - apply Forall_forall. intros e' He'. left. apply list_elem_of_In, in_flat_map in He' as (t & Hin & He').
    apply list_elem_of_In, elem_of_go_sort, tagMap_tag in He' as [_ ->]. rewrite Et.
    apply (proj1 (Forall_forall _ _) Ht). by apply list_elem_of_In.
Qed.

(** Whatever the table, every endpoint is in the document, once, under the tag of
    its name; the tags come in their order and the endpoints of a tag in the
    order of their names. *)
Theorem sortedEndpoints_ok eps :
  sortedEndpoints eps ≡ₚ map assign_tag eps /\ StronglySorted in_order (sortedEndpoints eps).
Proof.
  split.
  - unfold sortedEndpoints. rewrite groups_perm.
    + induction eps as [|e eps IH]; [done|]. cbn [map List.filter].
      assert (existsb (String.eqb (ep_Tag (assign_tag e))) tagOrder = true) as ->.
      { apply existsb_exists. exists (getTag (ep_Name e)). split; [apply list_elem_of_In, getTag_ordered|apply String.eqb_refl]. }
      by rewrite IH.
    + apply (bool_decide_eq_true_1 _). vm_compute. reflexivity.
  - apply groups_sorted. repeat constructor; vm_compute; lia.
Qed.

(** ** The document and the routes *)

(** The schema a line refers to. *)
Definition ref_prefix : string := "                $ref: '#/components/schemas/".

Definition ref_of (line : string) : option string :=
  let n := String.length ref_prefix in
  if String.eqb (String.substring 0 n line) ref_prefix
  then Some (String.substring n (String.length line - n - 1) line) else None.

Definition ref_ok (line : string) : bool :=
  match ref_of line with
  | Some schema => existsb (String.eqb schema) (map fst schemas)
  | None => true
  end.

Lemma refs_check : forallb ref_ok (openapi_main endpoints) = true.
Proof. vm_compute. reflexivity. Qed.

Lemma schema_lines_defined ss name : name ∈ map fst ss -> ("    " ++ name ++ ":")%string ∈ schema_lines ss.
Proof.
  induction ss as [|[n body] ss IH]; cbn [map fst]; [by intros ?%elem_of_nil|]. intros [-> | Hin]%elem_of_cons.
  - destruct ss; cbn [schema_lines]; apply elem_of_cons; by left.
  - specialize (IH Hin). destruct ss as [|s ss]; [by apply elem_of_nil in Hin|].
    change (schema_lines ((n, body) :: s :: ss)) with (("    " ++ n ++ ":")%string :: body ++ EmptyString :: schema_lines (s :: ss)).
    apply elem_of_cons. right. apply elem_of_app. right. apply elem_of_cons. by right.
Qed.

Lemma refs_checked line schema :
  ref_ok line = true -> ref_of line = Some schema ->
  schema ∈ map fst schemas /\ ("    " ++ schema ++ ":")%string ∈ openapi_main endpoints.
Proof.
  unfold ref_ok. intros Hok Href. rewrite Href in Hok. apply existsb_exists in Hok as (n & Hin & Hn).
  apply String.eqb_eq in Hn as <-. apply list_elem_of_In in Hin. split; [done|].
  unfold openapi_main, document, components_lines. apply elem_of_app. right. apply elem_of_app. right.
  apply elem_of_cons. right. apply elem_of_app. right. by apply schema_lines_defined.
Qed.

(** The generated document describes the interface of the node: every
    route the node adds, except those for Ethereum's clients, has exactly one
    path in it, whose parameters are the arguments the route is registered with,
    in their order; no Ethereum route is documented; and every schema a response
    refers to is defined in the document. *)
Theorem openapi_describes_routes :
  (forall name f args, (name, (f, args)) ∈ AddRoutes -> (name, (f, args)) ∉ AddEthRoutes ->
     exists e, List.filter (fun e => String.eqb (ep_Name e) name) (sortedEndpoints endpoints) = [e] /\
       map pm_Name (ep_Parameters e) = argNames args) /\
  (forall name f args, (name, (f, args)) ∈ AddEthRoutes -> name ∉ map ep_Name (sortedEndpoints endpoints)) /\
  (forall line schema, line ∈ openapi_main endpoints -> ref_of line = Some schema ->
     schema ∈ map fst schemas /\ ("    " ++ schema ++ ":")%string ∈ openapi_main endpoints).
Proof.
  split; [|split].
  - intros name f args Hin Hne. unfold AddRoutes in Hin. apply elem_of_app in Hin as [Hin|Hin]; [|done]. clear Hne.
    repeat (apply elem_of_cons in Hin as [[= -> -> ->]|Hin]; [eexists; split; vm_compute; reflexivity|]).
    by apply elem_of_nil in Hin.
  - intros name f args Hin. unfold AddEthRoutes in Hin.
    repeat (apply elem_of_cons in Hin as [[= -> -> ->]|Hin]; [apply (bool_decide_eq_false_1 _); vm_compute; reflexivity|]).
    by apply elem_of_nil in Hin.
  - intros line schema Hin Href. apply (refs_checked line schema); [|done].
    by apply (proj1 (forallb_forall _ _) refs_check), list_elem_of_In.
Qed.
