(* ===== verification/Genesis.v ===== *)
(** * Genesis: the genesis made by the [init] command

    [cmd/commands/init.go] and [genesis/genesis.go].  The command checks its
    parameters, makes or loads the keys of the validators and of the holders, shares
    the voting power among the validators and the rest of the supply among the
    holders, and writes the document every node starts from; the application reads
    it in [InitChain].  The keys are arguments here, as are the texts of chain ids
    and durations and the JSON form of the state; writing files is left out.

    Shown: whenever the parameters are accepted the document is made, its powers and
    balances add up to the supply that was asked for, and the application accepts
    it with exactly that supply and the hash of the document. *)
From stdpp Require Import base gmap list strings.
From Stdlib Require Import ZArith Lia.
From S2P Require Import Prelude XErrors GoMonad LedgerKeys Units HexBytes Proto GovParams Account TrxTypes Signer.
From S2P Require Import AcctCtrler VPowerItems ValSet VPowerCtrler Proposal GovCtrler GovInv SupplyCtrler.
From S2P Require Import GovProps TrxCtx MetaDB TrxExecutor TrxPreparer App.

(** [uint256.FromHex], [uint256.FromDecimal] and [time.ParseDuration]. *)
Class InitText : Type := {
  u256_FromHex : bytes -> outcome Z;
  u256_FromDecimal : bytes -> outcome Z;
  ParseDuration : bytes -> outcome Z;
}.

(** Parameters and states that have a text: numbers fit their fields, amounts are
    their shortest bytes. *)
Definition params_text_ok (gp : GovParamsProto) : Prop :=
  GovParams.ok gp /\ Forall (fun b => exists n, in_u256 n /\ b = uBytes n) [p_XMaxTotalSupply gp; p_XGasPrice gp] /\
  Forall (Forall is_byte) [p_XRewardPoolAddress gp; p_XDeadAddress gp].

Definition genesis_text_ok (ga : GenesisAppState) : Prop :=
  Forall (fun h => Forall is_byte (fst h) /\ in_u256 (snd h)) (ga_AssetHolders ga) /\
  forall gp, ga_GovParams ga = Some gp -> params_text_ok gp.

(** [jsonx.Marshal] of a genesis state; it is read back by [jsonx.Unmarshal].
    JsonForms has both, and JsonProps the law. *)
Class GenesisWrite : Type := json_write : GenesisAppState -> outcome bytes.
Class GenesisWriteLaws `{GenesisWrite, GenesisJson} : Prop :=
  genesis_json : forall ga, genesis_text_ok ga -> exists bz, json_write ga = Ok bz /\ json_GenesisAppState bz = Ok ga.

(** [govParams.GetValues().XMaxTotalSupply = bz] *)
Definition set_XMaxTotalSupply (bz : bytes) (gp : GovParamsProto) : GovParamsProto :=
  {|
    p_Version := p_Version gp;
    p_EmptyBlockIntervalSecs := p_EmptyBlockIntervalSecs gp;
    p_MaxValidatorCnt := p_MaxValidatorCnt gp;
    p_MinValidatorPower := p_MinValidatorPower gp;
    p_MinDelegatorPower := p_MinDelegatorPower gp;
    p_MaxValidatorsOfDelegator := p_MaxValidatorsOfDelegator gp;
    p_MaxDelegatorsOfValidator := p_MaxDelegatorsOfValidator gp;
    p_MinSelfPowerRate := p_MinSelfPowerRate gp;
    p_MaxUpdatablePowerRate := p_MaxUpdatablePowerRate gp;
    p_MaxIndividualPowerRate := p_MaxIndividualPowerRate gp;
    p_MinBondingBlocks := p_MinBondingBlocks gp;
    p_MinSignedBlocks := p_MinSignedBlocks gp;
    p_LazyUnbondingBlocks := p_LazyUnbondingBlocks gp;
    p_XMaxTotalSupply := bz;
    p_InflationWeightPermil := p_InflationWeightPermil gp;
    p_InflationCycleBlocks := p_InflationCycleBlocks gp;
    p_BondingBlocksWeightPermil := p_BondingBlocksWeightPermil gp;
    p_RipeningBlocks := p_RipeningBlocks gp;
    p_XRewardPoolAddress := p_XRewardPoolAddress gp;
    p_XDeadAddress := p_XDeadAddress gp;
    p_ValidatorRewardRate := p_ValidatorRewardRate gp;
    p_TxFeeRewardRate := p_TxFeeRewardRate gp;
    p_SlashRate := p_SlashRate gp;
    p_XGasPrice := p_XGasPrice gp;
    p_MinTrxGas := p_MinTrxGas gp;
    p_BlockSizeLimit := p_BlockSizeLimit gp;
    p_BlockGasLimit := p_BlockGasLimit gp;
    p_MinVotingPeriodBlocks := p_MinVotingPeriodBlocks gp;
    p_MaxVotingPeriodBlocks := p_MaxVotingPeriodBlocks gp;
    p_LazyApplyingBlocks := p_LazyApplyingBlocks gp;
  |}.

(** ** Parameters *)

Record InitParams := MkInitParams {
  ip_CreateEmptyBlocks : bool;
  ip_CreateEmptyBlocksInterval : bytes;
  ip_ChainID : bytes;
  ip_ValCnt : Z;
  ip_HolderCnt : Z;
  ip_BlockSizeLimit : Z;
  ip_BlockGasLimit : Z;
  ip_MaxTotalSupply : Z;
  ip_InitTotalSupply : Z;
  ip_InitVotingPower : Z;
}.

Definition DefaultInitParams : InitParams :=
  MkInitParams true (text "1s") (text "0x0001") 1 10 22020096 100000000 700000000 350000000 35000000.

Section Init.
Context `{InitText, GenesisWrite, GenesisJson, GovProtos, CryptoLib}.

Definition InitParams_Validate (params : InitParams) : outcome unit :=
  obind (match (if HasPrefix0x (ip_ChainID params) then u256_FromHex (ip_ChainID params)
                else u256_FromDecimal (ip_ChainID params)) with
         | Ok _ => Ok tt
         | Err _ => Err (GoError "invalid chain_id: %s (%v)")
         | Panic => Panic
         end) (fun _ =>
  if ip_MaxTotalSupply params <? ip_InitTotalSupply params
  then Err (GoError "init_total_supply (%d) cannot exceed max_total_supply (%d)")
  else if ip_InitTotalSupply params <? ip_InitVotingPower params
  then Err (GoError "init_voting_power (%d) cannot exceed init_total_supply (%d)")
  else
    match ParseDuration (ip_CreateEmptyBlocksInterval params) with
    | Ok _ => Ok tt
    | Err _ => Err (GoError "invalid create_empty_blocks_interval: %s")
    | Panic => Panic
    end).

(** ** The document *)

Record GenesisDoc := MkGenesisDoc {
  gd_ChainID : bytes;
  gd_MaxBytes : Z;
  gd_MaxGas : Z;
  gd_Validators : list (bytes * Z);
  gd_AppState : bytes;
  gd_AppHash : bytes;
}.

(** [NewGenesisDoc]; the other consensus parameters are the engine's defaults. *)
Definition NewGenesisDoc (chainID : bytes) (maxBytes maxGas : Z) (validators : list (bytes * Z))
    (holders : list (Address * Z)) (gp : GovParamsProto) : outcome GenesisDoc :=
  obind (json_write (MkGenesisAppState holders (Some gp))) (fun appStateJsonBlob =>
  obind (GenesisAppState_Hash gp holders) (fun appHash =>
  Ok (MkGenesisDoc chainID maxBytes maxGas validators appStateJsonBlob appHash))).

(** The loops that share [amt] among the keys, the last one of which gets the
    rest [ramt] too. *)
Fixpoint share {K : Type} (amt ramt : Z) (keys : list K) : list (K * Z) :=
  match keys with
  | [] => []
  | [k] => [(k, i64 (amt + ramt))]
  | k :: keys' => (k, amt) :: share amt ramt keys'
  end.

(** The part of [InitFilesWith] that makes the genesis, with the validation the
    function starts with, of the public keys of the validators and the addresses
    of the holders; [interval] is the configured interval in seconds.  The
    division is by the number of keys. *)
Definition init_genesis (params : InitParams) (interval : Z) (pvs : list bytes) (walkeys : list Address)
    : outcome GenesisDoc :=
  obind (InitParams_Validate params) (fun _ =>
  match pvs, walkeys with
  | [], _ | _, [] => Panic
  | _, _ =>
      let nv := Z.of_nat (length pvs) in
      let nw := Z.of_nat (length walkeys) in
      let pow := go_div (ip_InitVotingPower params) nv in
      let rpow := Z.rem (ip_InitVotingPower params) nv in
      let valset := share pow rpow pvs in
      let realInitSupply := i64 (ip_InitTotalSupply params - ip_InitVotingPower params) in
      let amt := go_div realInitSupply nw in
      let ramt := Z.rem realInitSupply nw in
      let holders := map (fun h => (fst h, ToGrans (snd h))) (share amt ramt walkeys) in
      let govParams := GovParams.NewGovParams interval in
      let govParams := set_XMaxTotalSupply (uBytes (ToGrans (ip_MaxTotalSupply params))) govParams in
      NewGenesisDoc (ip_ChainID params) (ip_BlockSizeLimit params) (ip_BlockGasLimit params) valset holders govParams
  end).

(** The request the engine makes of the document: the validators are handed over
    in the order of its validator set. *)
Record hands_over (doc : GenesisDoc) (req : RequestInitChain) : Prop := {
  ho_chain : ri_ChainId req = gd_ChainID doc;
  ho_vals : ri_Validators req ≡ₚ gd_Validators doc;
  ho_state : ri_AppStateBytes req = gd_AppState doc;
  ho_bytes : ri_MaxBytes req = gd_MaxBytes doc;
  ho_gas : ri_MaxGas req = gd_MaxGas doc;
}.

(** ** The sums *)

Definition power_sum (vs : list (bytes * Z)) : Z := fold_right (fun v acc => snd v + acc) 0 vs.

Lemma share_sum {K} amt ramt (keys : list K) :
  keys <> [] -> in_i64 (amt + ramt) ->
  map fst (share amt ramt keys) = keys /\
  fold_right (fun v acc => snd v + acc) 0 (share amt ramt keys) = amt * Z.of_nat (length keys) + ramt.
Proof.
  intros Hne Hr. induction keys as [|k keys IH]; [done|]. destruct keys as [|k' keys].
  - cbn. rewrite i64_id by done. split; [done|]. lia.
  - destruct (IH ltac:(done)) as [IH1 IH2]. change (share amt ramt (k :: k' :: keys)) with ((k, amt) :: share amt ramt (k' :: keys)).
    cbn [map fst fold_right snd]. rewrite IH1, IH2. split; [done|]. cbn [length]. lia.
Qed.

Lemma share_range {K} amt ramt (keys : list K) :
  0 <= amt -> 0 <= ramt -> in_i64 (amt + ramt) -> Forall (fun v => 0 <= snd v < 2 ^ 63) (share amt ramt keys).
Proof.
  intros Ha Hr Hi. unfold in_i64 in Hi. induction keys as [|k keys IH]; [constructor|]. destruct keys as [|k' keys].
  - constructor; [|constructor]. cbn. rewrite i64_id by done. lia.
  - constructor; [cbn; lia|exact IH].
Qed.

(** An equal part and a rest that is smaller than the number of parts. *)
Lemma parts a n : 0 <= a < 2 ^ 63 -> 0 < n ->
  go_div a n * n + Z.rem a n = a /\ 0 <= go_div a n /\ 0 <= Z.rem a n /\ in_i64 (go_div a n + Z.rem a n).
Proof.
  intros Ha Hn. rewrite go_div_pos, Z.rem_mod_nonneg by lia. pose proof (Z.div_mod a n). pose proof (Z.mod_pos_bound a n).
  pose proof (Z.div_pos a n). unfold in_i64. split; [lia|]. split; [lia|]. split; [lia|]. nia.
Qed.

Lemma power_total vs acc : fold_left (fun acc (v : bytes * Z) => i64 (acc + snd v)) vs (i64 acc) = i64 (acc + power_sum vs).
Proof.
  revert acc. induction vs as [|v vs IH]; intros acc; cbn [fold_left power_sum fold_right]; [by rewrite Z.add_0_r|].
  rewrite i64_add_l, IH. f_equal. unfold power_sum. lia.
Qed.

Lemma power_sum_perm vs vs' : vs ≡ₚ vs' -> power_sum vs = power_sum vs'.
Proof. induction 1; cbn; try lia. unfold power_sum in *. lia. Qed.

Lemma balance_total (hs : list (Address * Z)) acc :
  Forall (fun h => 0 <= snd h) hs -> 0 <= acc -> acc + power_sum hs < 2 ^ 256 ->
  fold_left (fun acc h => uadd acc (snd h)) hs acc = acc + power_sum hs.
Proof.
  intros Hh. revert acc. induction Hh as [|h hs Hx Hh IH]; intros acc Ha Hb; cbn [fold_left power_sum fold_right] in *; [lia|].
  fold (power_sum hs) in *. assert (0 <= power_sum hs) as Hp.
  { clear -Hh. induction Hh; cbn; [lia|]. unfold power_sum in *. lia. }
  unfold uadd, u256. rewrite Z.mod_small by lia. rewrite IH by lia. lia.
Qed.

Lemma ToGrans_exact n : 0 <= n < 2 ^ 63 -> ToGrans n = n * amountPerPower.
Proof. apply PowerToAmount_exact. Qed.

Lemma grans_sum (hs : list (Address * Z)) :
  Forall (fun v => 0 <= snd v < 2 ^ 63) hs ->
  Forall (fun h => 0 <= snd h) (map (fun h => (fst h, ToGrans (snd h))) hs) /\
  power_sum (map (fun h => (fst h, ToGrans (snd h))) hs) = power_sum hs * amountPerPower.
Proof.
  intros Hh. induction Hh as [|h hs Hx Hh [IH1 IH2]]; [by split; [constructor|]|]. cbn [map power_sum fold_right fst snd].
  fold (power_sum (map (fun h => (fst h, ToGrans (snd h))) hs)) (power_sum hs). rewrite IH2, ToGrans_exact by done.
  split; [|lia]. constructor; [|done]. cbn. unfold amountPerPower. lia.
Qed.

Lemma genesis_params_ok bz interval : GovParams.ok (set_XMaxTotalSupply bz (GovParams.NewGovParams interval)).
Proof.
  assert (Hd : forall a b, 0 <= a < 2 ^ 40 -> 0 < b -> in_i64 (go_div a b)).
  { intros a b Ha Hb. rewrite go_div_pos by lia. unfold in_i64. pose proof (Z.div_pos a b). pose proof (Z.div_le_upper_bound a b a).
    assert (a <= b * a) by nia. lia. }
  pose proof (Z.mod_pos_bound ((if interval <=? 0 then 1 else interval) + 2 ^ 31) (2 ^ 32)) as Hi.
  split; repeat apply Forall_cons_2; try apply Forall_nil_2; cbn [set_XMaxTotalSupply GovParams.NewGovParams p_Version
    p_EmptyBlockIntervalSecs p_MaxValidatorCnt p_MaxValidatorsOfDelegator p_MaxDelegatorsOfValidator p_MinSelfPowerRate
    p_MaxUpdatablePowerRate p_MaxIndividualPowerRate p_InflationWeightPermil p_BondingBlocksWeightPermil p_ValidatorRewardRate
    p_TxFeeRewardRate p_SlashRate p_MinValidatorPower p_MinDelegatorPower p_MinBondingBlocks p_MinSignedBlocks
    p_LazyUnbondingBlocks p_InflationCycleBlocks p_RipeningBlocks p_MinTrxGas p_BlockSizeLimit p_BlockGasLimit
    p_MinVotingPeriodBlocks p_MaxVotingPeriodBlocks p_LazyApplyingBlocks]; try (unfold in_i64; lia).
  all: try (apply Hd; [unfold WeekSeconds, YearSeconds, DaySeconds; lia|destruct (Z.leb_spec interval 0); lia]).
  unfold i32. lia.
Qed.

Lemma genesis_state_ok n interval holders :
  Forall (fun h => Forall is_byte (fst h) /\ in_u256 (snd h)) holders -> in_u256 n ->
  genesis_text_ok (MkGenesisAppState holders (Some (set_XMaxTotalSupply (uBytes n) (GovParams.NewGovParams interval)))).
Proof.
  intros Hh Hn. split; [exact Hh|]. intros gp [= <-]. split; [apply genesis_params_ok|]. split.
  - repeat constructor; [by exists n|]. exists 48000000000. split; [unfold in_u256; lia|done].
  - cbn. repeat constructor; unfold is_byte; lia.
Qed.

Lemma holders_ok (hs : list (Address * Z)) walkeys :
  Forall (Forall is_byte) walkeys -> map fst hs = walkeys -> Forall (fun v => 0 <= snd v < 2 ^ 63) hs ->
  Forall (fun h => Forall is_byte (fst h) /\ in_u256 (snd h)) (map (fun h => (fst h, ToGrans (snd h))) hs).
Proof.
  intros Hw <- Hr. apply Forall_fmap. rewrite Forall_map in Hw. rewrite !Forall_forall in *. intros h Hh. cbn. split; [by apply Hw|].
  specialize (Hr h Hh). rewrite ToGrans_exact by lia. unfold in_u256, amountPerPower. lia.
Qed.

(** The check of the application on what the engine hands over. *)
Lemma check_accepts (doc : GenesisDoc) req gp holders total :
  hands_over doc req -> json_GenesisAppState (gd_AppState doc) = Ok (MkGenesisAppState holders (Some gp)) ->
  0 <= power_sum (gd_Validators doc) < 2 ^ 63 -> Forall (fun h => 0 <= snd h) holders ->
  power_sum (gd_Validators doc) * amountPerPower + power_sum holders = total ->
  total < 2 ^ 256 -> total <= GovParams.MaxTotalSupply gp ->
  checkRequestInitChain req = Ok (gp, holders, total).
Proof.
  intros Hreq Hj Hp Hh Ht Hb Hm. unfold checkRequestInitChain.
  pose proof (power_total (ri_Validators req) 0) as Hpt. change (i64 0) with 0 in Hpt.
  rewrite Hpt, Z.add_0_l, (power_sum_perm _ _ (ho_vals _ _ Hreq)).
  rewrite i64_id by (unfold in_i64; lia). rewrite PowerToAmount_exact by lia. rewrite (ho_state _ _ Hreq), Hj. cbn [obind ga_AssetHolders ga_GovParams].
  rewrite balance_total by (done || unfold amountPerPower in *; lia). rewrite Ht.
  unfold uCmp. destruct (Z.ltb_spec total (GovParams.MaxTotalSupply gp)); [done|].
  destruct (Z.ltb_spec (GovParams.MaxTotalSupply gp) total); [lia|]. done.
Qed.

Context `{!GenesisWriteLaws, !ProtoLaws GovParamsProto GovParams.ok}.

(** C17. Whenever the parameters of [init] are accepted and there is a validator and
    a holder, the genesis document is made: each validator and each holder is in
    it once, the powers add up to the initial voting power, the balances to the
    rest of the initial supply; the application accepts the document with exactly
    the initial supply, the maximum that was asked for and the document's hash. *)
Theorem init_genesis_accepted params interval pvs walkeys :
  InitParams_Validate params = Ok tt -> 0 <= ip_InitVotingPower params -> ip_MaxTotalSupply params < 2 ^ 63 ->
  pvs <> [] -> walkeys <> [] -> Forall (Forall is_byte) walkeys ->
  exists doc holders gp,
    init_genesis params interval pvs walkeys = Ok doc /\
    map fst (gd_Validators doc) = pvs /\ power_sum (gd_Validators doc) = ip_InitVotingPower params /\
    map fst holders = walkeys /\
    power_sum holders = (ip_InitTotalSupply params - ip_InitVotingPower params) * amountPerPower /\
    GovParams.MaxTotalSupply gp = ip_MaxTotalSupply params * amountPerPower /\
    GenesisAppState_Hash gp holders = Ok (gd_AppHash doc) /\
    forall req, hands_over doc req ->
      checkRequestInitChain req = Ok (gp, holders, ip_InitTotalSupply params * amountPerPower).
Proof.
  intros Hval Hv0 Hmax Hpv Hwk Hby.
  assert (ip_InitVotingPower params <= ip_InitTotalSupply params <= ip_MaxTotalSupply params) as Hord.
  { unfold InitParams_Validate in Hval. destruct (match _ with Ok _ => Ok tt | Err _ => _ | Panic => _ end); [|done..].
    cbn [obind] in Hval. destruct (Z.ltb_spec (ip_MaxTotalSupply params) (ip_InitTotalSupply params)); [done|].
    destruct (Z.ltb_spec (ip_InitTotalSupply params) (ip_InitVotingPower params)); [done|]. lia. }
  set (real := ip_InitTotalSupply params - ip_InitVotingPower params) in *.
  assert (0 < Z.of_nat (length pvs)) as Hnv by (destruct pvs; [done|cbn; lia]).
  assert (0 < Z.of_nat (length walkeys)) as Hnw by (destruct walkeys; [done|cbn; lia]).
  destruct (parts (ip_InitVotingPower params) _ ltac:(lia) Hnv) as (Hv1 & Hv2 & Hv3 & Hv4).
  destruct (parts real _ ltac:(unfold real; lia) Hnw) as (Hr1 & Hr2 & Hr3 & Hr4).
  destruct (share_sum _ _ pvs Hpv Hv4) as [Hvf Hvs]. destruct (share_sum _ _ walkeys Hwk Hr4) as [Hwf Hws].
  pose proof (share_range _ _ walkeys Hr2 Hr3 Hr4) as Hwr. destruct (grans_sum _ Hwr) as [Hg1 Hg2].
  set (holders := map (fun h => (fst h, ToGrans (snd h))) (share (go_div real (Z.of_nat (length walkeys))) (Z.rem real (Z.of_nat (length walkeys))) walkeys)) in *.
  set (gp := set_XMaxTotalSupply (uBytes (ToGrans (ip_MaxTotalSupply params))) (GovParams.NewGovParams interval)).
  destruct (genesis_json (MkGenesisAppState holders (Some gp))) as (bz & Hbz & Hread).
  { apply genesis_state_ok; [by eapply holders_ok|]. rewrite ToGrans_exact by lia. unfold in_u256, amountPerPower. lia. }
  destruct (proto_roundtrip gp (genesis_params_ok _ interval)) as (gbz & Hgbz & _).
  assert (Hhash : GenesisAppState_Hash gp holders = Ok (DefaultHash (gbz :: map GenesisAssetHolder_Hash holders))).
  { unfold GenesisAppState_Hash. by rewrite Hgbz. }
  assert (Hmx : GovParams.MaxTotalSupply gp = ip_MaxTotalSupply params * amountPerPower).
  { unfold GovParams.MaxTotalSupply, gp. cbn [set_XMaxTotalSupply p_XMaxTotalSupply]. rewrite ToGrans_exact by lia.
    apply uSetBytes_uBytes. unfold in_u256, amountPerPower. lia. }
  eexists _, holders, gp. split.
  { unfold init_genesis. rewrite Hval. cbn [obind]. destruct pvs as [|pv pvs]; [done|]. destruct walkeys as [|wk walkeys]; [done|].
    unfold NewGenesisDoc. rewrite i64_id by (unfold in_i64; lia). fold real. fold holders gp. rewrite Hbz. cbn [obind]. rewrite Hhash. reflexivity. }
  cbn [gd_Validators gd_AppHash].
  assert (power_sum holders = real * amountPerPower) as Hhs by (rewrite Hg2; unfold power_sum; rewrite Hws; lia).
  assert (power_sum (share (go_div (ip_InitVotingPower params) (Z.of_nat (length pvs))) (Z.rem (ip_InitVotingPower params) (Z.of_nat (length pvs))) pvs)
    = ip_InitVotingPower params) as Hvs' by (unfold power_sum; rewrite Hvs; lia).
  split; [exact Hvf|]. split; [exact Hvs'|]. split; [unfold holders; rewrite map_map; exact Hwf|]. split; [exact Hhs|]. split; [exact Hmx|].
  split; [exact Hhash|]. intros req Hreq. apply (check_accepts _ req gp holders _ Hreq Hread); cbn [gd_Validators]; rewrite ?Hvs', ?Hhs, ?Hmx; try done; unfold real, amountPerPower; lia.
Qed.

End Init.

Module GenesisWitness.

#[local] Instance w_text : InitText := {|
  u256_FromHex _ := Ok 1;
  u256_FromDecimal _ := Err (GoError "strconv.ParseInt: invalid syntax");
  ParseDuration _ := Ok 1000000000;
|}.
#[local] Instance w_params : Countable GovParamsProto := GovWitness.packed_params.
#[local] Instance w_protos : GovProtos := GovWitness.w_protos.
#[local] Instance w_protos_laws : ProtoLaws GovParamsProto GovParams.ok := Countable_proto_laws GovParams.ok.
#[local] Instance w_crypto : CryptoLib := Toy_crypto.

#[local] Instance w_state_eq : EqDecision GenesisAppState.
Proof. solve_decision. Defined.
#[local, refine] Instance w_state : Countable GenesisAppState :=
  inj_countable' (fun ga => (ga_AssetHolders ga, ga_GovParams ga)) (fun p => MkGenesisAppState (fst p) (snd p)) _.
Proof. by intros []. Defined.

#[local] Instance w_write : GenesisWrite := fun ga => Ok [Z.pos (encode ga)].
#[local] Instance w_read : GenesisJson := fun bz =>
  match bz with
  | [Z.pos p] => match decode p with Some ga => Ok ga | None => Err (GoError "EOF") end
  | _ => Err (GoError "EOF")
  end.
#[local] Instance w_json : GenesisWriteLaws.
Proof. intros ga _. eexists. split; [reflexivity|]. cbn. by rewrite decode_encode. Qed.

(** The default parameters, with three validators and three holders. *)
Lemma init_genesis_accepted_witness :
  exists doc holders gp,
    init_genesis DefaultInitParams 1 [[1]; [2]; [3]] [[4]; [5]; [6]] = Ok doc /\
    power_sum (gd_Validators doc) = 35000000 /\
    forall req, hands_over doc req ->
      checkRequestInitChain req = Ok (gp, holders, 350000000 * amountPerPower).
Proof.
  destruct (init_genesis_accepted DefaultInitParams 1 [[1]; [2]; [3]] [[4]; [5]; [6]]) as (doc & holders & gp & Hdoc & _ & Hp & _ & _ & _ & _ & Hc).
  - reflexivity.
  - cbn. lia.
  - cbn. lia.
  - done.
  - done.
  - repeat constructor; unfold is_byte; lia.
  - exists doc, holders, gp. split; [exact Hdoc|]. split; [exact Hp|exact Hc].
Defined.

End GenesisWitness.
