(* ===== verification/Wallet.v ===== *)
(** * Wallet: key files

    [types/crypto/wallet_key.go] with the paddings of [types/crypto/crypto.go],
    and [resetPassphrase] of [cmd/commands/wallet_key.go].  A private key is kept
    encrypted under a key derived from a passphrase.  The derivation, the block
    cipher, the curve and the JSON text of a wallet are parameters
    ([WalletLib]); padding and chaining of the blocks are written out.  What
    [rand.Read] gives is an argument.  [None] is a nil slice. *)
From stdpp Require Import base list strings countable.
From Stdlib Require Import ZArith Lia.
From S2P Require Import Prelude XErrors GoMonad LedgerKeys HexBytes Signer.

(** ** Padding *)

Definition ErrInvalidBlockSize : error := NewOrdinary "invalid blocksize".
Definition ErrInvalidPKCS5Data : error := NewOrdinary "invalid PKCS5 data (empty or not padded)".
Definition ErrInvalidPKCS5Padding : error := NewOrdinary "invalid PKCS5 padding on input".
Definition ErrInvalidPKCS7Data : error := NewOrdinary "invalid PKCS7 data (empty or not padded)".
Definition ErrInvalidPKCS7Padding : error := NewOrdinary "invalid PKCS7 padding on input".

(** [append(b, bytes.Repeat([]byte{byte(pad)}, pad)...)]; [Repeat] panics on a
    negative count. *)
Definition pad_with (b : bytes) (pad : Z) : outcome bytes :=
  if pad <? 0 then Panic else Ok (b ++ repeat (pad mod 256) (Z.to_nat pad)).

(** The loop over the padding: are the last [n] bytes all [c]? *)
Definition padded_with (b : bytes) (n : Z) (c : Z) : bool :=
  forallb (fun x => x =? c) (drop (length b - Z.to_nat n) b).

(** [%] truncates, and panics for zero. *)
Definition PKCS5Padding (b : bytes) (blocksize : Z) : outcome bytes :=
  if negb (Z.rem blocksize 8 =? 0) then Err ErrInvalidBlockSize
  else if (length b =? 0)%nat then Err ErrInvalidPKCS5Data
  else if blocksize =? 0 then Panic
  else pad_with b (blocksize - Z.rem (Z.of_nat (length b)) blocksize).

Definition PKCS5UnPadding (b : bytes) (blocksize : Z) : outcome bytes :=
  if negb (Z.rem blocksize 8 =? 0) then Err ErrInvalidBlockSize
  else if (length b =? 0)%nat then Err ErrInvalidPKCS5Data
  else if negb (Z.rem (Z.of_nat (length b)) 8 =? 0) then Err ErrInvalidPKCS5Data
  else
    let padlen := List.last b 0 in
    if (padlen =? 0) || (Z.of_nat (length b) <? padlen) || (blocksize <? padlen) then Err ErrInvalidPKCS5Data
    else if negb (padded_with b padlen padlen) then Err ErrInvalidPKCS5Padding
    else Ok (take (length b - Z.to_nat padlen) b).

Definition PKCS7Padding (b : bytes) (blocksize : Z) : outcome bytes :=
  if blocksize <=? 0 then Err ErrInvalidBlockSize
  else if (length b =? 0)%nat then Err ErrInvalidPKCS7Data
  else pad_with b (blocksize - Z.rem (Z.of_nat (length b)) blocksize).

Definition PKCS7UnPadding (b : bytes) (blocksize : Z) : outcome bytes :=
  if blocksize <=? 0 then Err ErrInvalidBlockSize
  else if (length b =? 0)%nat then Err ErrInvalidPKCS7Data
  else if negb (Z.rem (Z.of_nat (length b)) blocksize =? 0) then Err ErrInvalidPKCS7Padding
  else
    let n := List.last b 0 in
    if (n =? 0) || (Z.of_nat (length b) <? n) || (blocksize <? n) then Err ErrInvalidPKCS7Padding
    else if negb (padded_with b n n) then Err ErrInvalidPKCS7Padding
    else Ok (take (length b - Z.to_nat n) b).

(** ** The cipher *)

Definition DKLEN : Z := 32.
Definition AsymmAlgo : string := "tendermint/PrivKeySecp256k1".
Definition SymmAlgo : string := "aes-256-cbc".
Definition BlockSize : Z := 16.

Record cipherTextParams := MkCP {
  cp_Algo : string;
  cp_Text : bytes;
  cp_Iv : bytes;
  cp_Salt : bytes;
}.

Record dkParams := MkDK {
  dk_Algo : string;
  dk_Prf : string;
  dk_Iter : Z;
  dk_Salt : bytes;
  dk_DkLen : Z;
}.

Record WalletKey := MkWalletKey {
  wk_Version : Z;
  wk_Address : Address;
  wk_Algo : string;
  wk_CipherTextParams : option cipherTextParams;
  wk_DKParams : option dkParams;
  wk_prvKey : option bytes;
  wk_pubKey : option bytes;
}.

Class WalletLib : Type := {
  pbkdf2_Key : bytes -> bytes -> Z -> Z -> bytes;          (* passphrase, salt, iterations, length *)
  aes_NewCipher : bytes -> outcome unit;                   (* refuses keys of a wrong length *)
  aes_Encrypt : bytes -> bytes -> bytes;                   (* key, block *)
  aes_Decrypt : bytes -> bytes -> bytes;
  PrivKey_PubKey : bytes -> bytes;
  secp_Sign : bytes -> bytes -> outcome bytes;             (* hash, private key *)
  secp_VerifySignature : bytes -> bytes -> bytes -> bool;  (* public key, hash, signature *)
  wk_Marshal : WalletKey -> outcome bytes;                 (* the exported fields *)
  wk_Unmarshal : bytes -> outcome WalletKey;
}.

Definition xor_bytes (a b : bytes) : bytes := zip_with Z.lxor a b.

(** [cipher.NewCBCEncrypter(block, iv).CryptBlocks], on [n] blocks. *)
Fixpoint cbc_enc (enc : bytes -> bytes) (iv : bytes) (n : nat) (src : bytes) : bytes :=
  match n with
  | O => []
  | S n' => let c := enc (xor_bytes (take 16 src) iv) in c ++ cbc_enc enc c n' (drop 16 src)
  end.

Fixpoint cbc_dec (dec : bytes -> bytes) (iv : bytes) (n : nat) (src : bytes) : bytes :=
  match n with
  | O => []
  | S n' => xor_bytes (dec (take 16 src)) iv ++ cbc_dec dec (take 16 src) n' (drop 16 src)
  end.

(** Both panic when the vector is not a block or the text not whole blocks. *)
Definition CryptBlocks (f : bytes -> nat -> bytes -> bytes) (iv src : bytes) : outcome bytes :=
  if negb (Z.of_nat (length iv) =? BlockSize) || negb (Z.of_nat (length src) mod BlockSize =? 0) then Panic
  else Ok (f iv (length src / 16)%nat src).

Section Wallet.
Context `{CryptoLib, WalletLib}.

Definition newDKParams (algo : string) (salt : bytes) : dkParams :=
  MkDK algo "sha256" (600000 + get_be (take 2 salt) 0) salt DKLEN.

(** An error of the cipher or of the padding is a panic. *)
Definition encrypt (keyBytes pass salt iv : bytes) : outcome (cipherTextParams * dkParams) :=
  let dkp := newDKParams "pbkdf2" salt in
  let sk := pbkdf2_Key pass (dk_Salt dkp) (dk_Iter dkp) DKLEN in
  match aes_NewCipher sk, PKCS7Padding keyBytes BlockSize with
  | Ok _, Ok plaintext =>
      obind (CryptBlocks (cbc_enc (aes_Encrypt sk)) iv plaintext) (fun ciphertext =>
      Ok (MkCP SymmAlgo ciphertext iv [], dkp))
  | _, _ => Panic
  end.

(** The padded text shares the memory of [keyBytes] when its capacity [cap] has
    room for the padding; clearing the text then clears the key. *)
Definition key_after_padding (keyBytes : bytes) (cap : nat) : bytes :=
  if (length keyBytes + (16 - length keyBytes mod 16) <=? cap)%nat then repeat 0 (length keyBytes) else keyBytes.

Definition NewWalletKeyWith (keyBytes : bytes) (cap : nat) (pass : option bytes) (salt iv : bytes) : outcome WalletKey :=
  match pass with
  | Some s =>
      obind (encrypt keyBytes s salt iv) (fun '(cp, dkp) =>
      let pubKey := PrivKey_PubKey (key_after_padding keyBytes cap) in
      Ok (MkWalletKey 1 (tm_Address pubKey) AsymmAlgo (Some cp) (Some dkp) None (Some pubKey)))
  | None =>
      let pubKey := PrivKey_PubKey keyBytes in
      Ok (MkWalletKey 1 (tm_Address pubKey) AsymmAlgo (Some (MkCP SymmAlgo keyBytes [] [])) None
            (Some keyBytes) (Some pubKey))
  end.

(** One [Read] of at most 1000 bytes; [None] is a reader that fails. *)
Definition OpenWalletKey (file : option bytes) : outcome WalletKey :=
  match file with
  | None => Err (GoError "open: no such file or directory")
  | Some [] => Err (GoError "EOF")
  | Some b => wk_Unmarshal (take 1000 b)
  end.

Definition Save (wk : WalletKey) : outcome bytes := wk_Marshal wk.

Definition IsLock (wk : WalletKey) : bool := match wk_prvKey wk with None => true | Some _ => false end.

Definition set_keys (prv pub : option bytes) (wk : WalletKey) : WalletKey :=
  MkWalletKey (wk_Version wk) (wk_Address wk) (wk_Algo wk) (wk_CipherTextParams wk) (wk_DKParams wk) prv pub.

Definition Lock (wk : WalletKey) : WalletKey := set_keys None (wk_pubKey wk) wk.

Definition LockWith (wk : WalletKey) (pass salt iv : bytes) : outcome WalletKey :=
  match wk_prvKey wk with
  | None => Ok wk
  | Some prv =>
      obind (encrypt prv pass salt iv) (fun '(cp, dkp) =>
      Ok (MkWalletKey (wk_Version wk) (wk_Address wk) (wk_Algo wk) (Some cp) (Some dkp) None (wk_pubKey wk)))
  end.

(** A nil pointer is dereferenced when the parameters are missing. *)
Definition decrypt (wk : WalletKey) (s : bytes) : outcome bytes :=
  match wk_DKParams wk, wk_CipherTextParams wk with
  | Some dkp, Some cp =>
      let sk := pbkdf2_Key s (dk_Salt dkp) (dk_Iter dkp) (dk_DkLen dkp) in
      obind (aes_NewCipher sk) (fun _ =>
      obind (CryptBlocks (cbc_dec (aes_Decrypt sk)) (cp_Iv cp) (cp_Text cp)) (fun prvKey =>
      PKCS7UnPadding prvKey BlockSize))
  | _, _ => Panic
  end.

Definition Unlock (wk : WalletKey) (pass : option bytes) : outcome WalletKey :=
  if negb (IsLock wk) then Ok wk
  else
    obind (match pass with
           | Some s => decrypt wk s
           | None =>
               match wk_DKParams wk with
               | None => match wk_CipherTextParams wk with Some cp => Ok (cp_Text cp) | None => Panic end
               | Some _ => Err (GoError "wrong passphrase: the passphrase can not be empty")
               end
           end) (fun prvKey =>
    Ok (set_keys (Some prvKey) (Some (PrivKey_PubKey prvKey)) wk)).

Definition wk_Sign (wk : WalletKey) (msg : bytes) : outcome bytes :=
  match wk_prvKey wk with
  | None => Err (NewOrdinary "error: WalletKey is locked")
  | Some prv => secp_Sign (DefaultHash [msg]) prv
  end.

Definition wk_VerifySig (wk : WalletKey) (msg sig : bytes) : bool :=
  secp_VerifySignature (default [] (wk_pubKey wk)) (DefaultHash [msg]) sig.

(** [crypto.VerifySig], which cuts off the recovery byte. *)
Definition VerifySig (pubkey msg sig : bytes) : bool :=
  secp_VerifySignature pubkey (DefaultHash [msg]) (if (length sig =? 65)%nat then take 64 sig else sig).

(** [resetPassphrase] on the contents of the file: what is written back. *)
Definition resetPassphrase (file : option bytes) (pass0 pass1 salt iv : bytes) : outcome bytes :=
  obind (OpenWalletKey file) (fun wk =>
  obind (Unlock wk (Some pass0)) (fun wk =>
  obind (LockWith wk pass1 salt iv) (fun wk =>
  Save wk))).

End Wallet.

(** ** Padding and chaining invert *)

Lemma last_repeat_app (b : bytes) (c : Z) n : (0 < n)%nat -> List.last (b ++ repeat c n) 0 = c.
Proof.
  intros Hn. destruct n as [|n]; [lia|]. cbn [repeat]. by rewrite repeat_cons, app_assoc, last_last.
Qed.

Lemma padded_repeat (b : bytes) (c : Z) n : padded_with (b ++ repeat c n) (Z.of_nat n) c = true.
Proof.
  unfold padded_with. rewrite length_app, repeat_length, Nat2Z.id, Nat.add_sub, drop_app_length.
  apply forallb_forall. intros x Hx. apply repeat_spec in Hx. lia.
Qed.

(** Padding succeeds, fills whole blocks, and is removed again. *)
Lemma PKCS7_roundtrip (b : bytes) (blocksize : Z) :
  b <> [] -> 0 < blocksize < 256 ->
  exists p, PKCS7Padding b blocksize = Ok p /\ PKCS7UnPadding p blocksize = Ok b /\
    Z.of_nat (length p) mod blocksize = 0.
Proof.
  intros Hb Hs. unfold PKCS7Padding. rewrite (proj2 (Z.leb_gt _ _)) by lia.
  assert (length b <> 0)%nat as Hl by (destruct b; [done|cbn; lia]). rewrite (proj2 (Nat.eqb_neq _ _) Hl).
  rewrite Z.rem_mod_nonneg by lia. pose proof (Z.mod_pos_bound (Z.of_nat (length b)) blocksize ltac:(lia)) as Hm.
  set (n := blocksize - Z.of_nat (length b) mod blocksize). assert (0 < n <= blocksize) as Hn by lia.
  unfold pad_with. rewrite (proj2 (Z.ltb_ge _ _)), (Z.mod_small n) by lia. eexists. split; [done|].
  assert (Z.of_nat (length (b ++ repeat n (Z.to_nat n))) = Z.of_nat (length b) + n) as Hlen.
  { rewrite length_app, repeat_length. lia. }
  assert (Z.of_nat (length (b ++ repeat n (Z.to_nat n))) mod blocksize = 0) as Hmod.
  { rewrite Hlen. pose proof (Z.div_mod (Z.of_nat (length b)) blocksize ltac:(lia)).
    replace (Z.of_nat (length b) + n) with ((Z.of_nat (length b) / blocksize + 1) * blocksize) by lia.
    apply Z.mod_mul. lia. }
  split; [|done]. unfold PKCS7UnPadding. rewrite (proj2 (Z.leb_gt _ _)), (proj2 (Nat.eqb_neq _ _)) by lia.
  rewrite Z.rem_mod_nonneg, Hmod by lia. cbn [Z.eqb negb]. rewrite last_repeat_app by lia.
  rewrite Hlen, (proj2 (Z.eqb_neq n 0)), (proj2 (Z.ltb_ge _ n)), (proj2 (Z.ltb_ge blocksize n)) by lia. cbn [orb].
  pose proof (padded_repeat b n (Z.to_nat n)) as Hp. rewrite Z2Nat.id in Hp by lia. rewrite Hp. cbn [negb].
  rewrite length_app, repeat_length, Nat.add_sub. f_equal. apply take_app_length.
Qed.

Lemma xor_bytes_inv a iv : (length a <= length iv)%nat -> xor_bytes (xor_bytes a iv) iv = a.
Proof.
  revert iv. induction a as [|x a IH]; intros [|y iv] Hl; cbn in *; try done; [lia|].
  unfold xor_bytes in *. rewrite IH by lia. by rewrite Z.lxor_assoc, Z.lxor_nilpotent, Z.lxor_0_r.
Qed.

Lemma length_xor_bytes a iv : length (xor_bytes a iv) = Nat.min (length a) (length iv).
Proof. unfold xor_bytes. apply length_zip_with. Qed.

(** The laws of the packages.  A key of 32 bytes makes a cipher, whose blocks are
    decrypted again; a signature is 65 bytes, of which the first 64 verify, and
    no other length does; the JSON text gives the exported fields back. *)
Class WalletLaws `{WalletLib} : Prop := {
  pbkdf2_cipher : forall s salt iter, aes_NewCipher (pbkdf2_Key s salt iter DKLEN) = Ok tt;
  aes_length : forall sk b, aes_NewCipher sk = Ok tt -> length b = 16%nat -> length (aes_Encrypt sk b) = 16%nat;
  aes_inverse : forall sk b, aes_NewCipher sk = Ok tt -> length b = 16%nat -> aes_Decrypt sk (aes_Encrypt sk b) = b;
  secp_Sign_law : forall h prv sig, secp_Sign h prv = Ok sig ->
    length sig = 65%nat /\ secp_VerifySignature (PrivKey_PubKey prv) h (take 64 sig) = true;
  secp_Verify_length : forall pub h sig, length sig <> 64%nat -> secp_VerifySignature pub h sig = false;
  wk_json : forall wk b, wk_Marshal wk = Ok b -> wk_Unmarshal b = Ok (set_keys None None wk);
}.

Section WalletProps.
Context `{CryptoLib, WalletLib, !WalletLaws}.

Lemma cbc_inverse sk iv n src :
  aes_NewCipher sk = Ok tt -> length iv = 16%nat -> length src = (16 * n)%nat ->
  cbc_dec (aes_Decrypt sk) iv n (cbc_enc (aes_Encrypt sk) iv n src) = src /\
  length (cbc_enc (aes_Encrypt sk) iv n src) = (16 * n)%nat.
Proof.
  intros Hsk. revert iv src. induction n as [|n IH]; intros iv src Hiv Hs; cbn [cbc_enc cbc_dec].
  { destruct src; [done|cbn in Hs; lia]. }
  assert (length (take 16 src) = 16%nat) as Ht by (rewrite length_take; lia).
  assert (length (xor_bytes (take 16 src) iv) = 16%nat) as Hx by (rewrite length_xor_bytes; lia).
  set (c := aes_Encrypt sk (xor_bytes (take 16 src) iv)). assert (length c = 16%nat) as Hc by by apply aes_length.
  destruct (IH c (drop 16 src) Hc) as [IH1 IH2]; [rewrite length_drop; lia|].
  rewrite take_app_length', drop_app_length' by lia. unfold c at 1. rewrite aes_inverse, xor_bytes_inv by (done || lia).
  rewrite IH1, take_drop, length_app, IH2. split; [done|lia].
Qed.

(** What was encrypted under a passphrase is decrypted with it. *)
Lemma decrypt_encrypt key pass salt iv :
  key <> [] -> length iv = 16%nat ->
  exists cp dkp, encrypt key pass salt iv = Ok (cp, dkp) /\
    forall wk, wk_CipherTextParams wk = Some cp -> wk_DKParams wk = Some dkp -> decrypt wk pass = Ok key.
Proof.
  intros Hk Hiv. unfold encrypt. rewrite pbkdf2_cipher.
  destruct (PKCS7_roundtrip key BlockSize Hk) as (p & -> & Hun & Hmod); [unfold BlockSize; lia|].
  unfold CryptBlocks. rewrite Hmod, Hiv. cbn [Z.of_nat Z.eqb negb orb obind Pos.eqb].
  set (sk := pbkdf2_Key _ _ _ _).
  assert (length p = (16 * (length p / 16))%nat) as Hlen.
  { unfold BlockSize in Hmod. pose proof (Nat2Z.inj_mod (length p) 16). pose proof (Nat.div_mod_eq (length p) 16). lia. }
  destruct (cbc_inverse sk iv (length p / 16) p (pbkdf2_cipher _ _ _) Hiv Hlen) as [Hinv Hlc].
  do 2 eexists. split; [done|]. intros wk Hcp Hdk. unfold decrypt. rewrite Hdk, Hcp. cbn [dk_Salt dk_Iter dk_DkLen newDKParams cp_Iv cp_Text].
  assert (aes_NewCipher sk = Ok tt) as Hsk by apply pbkdf2_cipher.
  change (pbkdf2_Key pass salt (600000 + get_be (take 2 salt) 0) DKLEN) with sk. rewrite Hsk. cbn [obind]. unfold CryptBlocks. rewrite Hiv, Hlc.
  rewrite Nat.mul_comm, Nat.div_mul, Hinv by lia.
  assert (Z.of_nat (length p / 16 * 16) mod BlockSize = 0) as -> by (unfold BlockSize; rewrite Nat2Z.inj_mul; apply Z.mod_mul; lia).
  done.
Qed.

Lemma Open_saved wk b : Save wk = Ok b -> (0 < length b <= 1000)%nat -> OpenWalletKey (Some b) = Ok (set_keys None None wk).
Proof.
  intros Hs Hl. unfold OpenWalletKey. destruct b as [|x b]; [cbn in Hl; lia|]. rewrite take_ge by lia. by apply wk_json.
Qed.

Lemma decrypt_fields wk wk' s :
  wk_CipherTextParams wk' = wk_CipherTextParams wk -> wk_DKParams wk' = wk_DKParams wk -> decrypt wk' s = decrypt wk s.
Proof. intros H1' H2'. unfold decrypt. by rewrite H1', H2'. Qed.

(** Resetting the passphrase of a file keeps the address and encrypts what the old
    passphrase decrypted. *)
Lemma reset_rewrites wk b pass0 k pass1 salt1 iv1 :
  Save wk = Ok b -> (0 < length b <= 1000)%nat -> decrypt wk pass0 = Ok k -> k <> [] -> length iv1 = 16%nat ->
  exists wk2, resetPassphrase (Some b) pass0 pass1 salt1 iv1 = Save wk2 /\
    wk_Address wk2 = wk_Address wk /\ wk_prvKey wk2 = None /\ decrypt wk2 pass1 = Ok k.
Proof.
  intros Hs Hl Hd Hk Hiv. unfold resetPassphrase. rewrite (Open_saved _ _ Hs Hl). cbn [obind].
  unfold Unlock. cbn [IsLock set_keys wk_prvKey negb]. rewrite (decrypt_fields wk) by done. rewrite Hd. cbn [obind].
  unfold LockWith. cbn [set_keys wk_prvKey]. destruct (decrypt_encrypt k pass1 salt1 iv1 Hk Hiv) as (cp & dkp & -> & Hdec).
  cbn [obind]. eexists. split; [done|]. split; [done|]. split; [done|]. by apply Hdec.
Qed.

Lemma Unlock_decrypt wk s k :
  wk_prvKey wk = None -> decrypt wk s = Ok k -> Unlock wk (Some s) = Ok (set_keys (Some k) (Some (PrivKey_PubKey k)) wk).
Proof. intros Hp Hd. unfold Unlock, IsLock. rewrite Hp, Hd. done. Qed.

(** The wallet of a key, read back from its text, is unlocked to that key. *)
Lemma new_wallet_unlocks key pass salt iv wk :
  key <> [] -> length iv = 16%nat -> NewWalletKeyWith key (length key) pass salt iv = Ok wk ->
  Unlock (set_keys None None wk) pass = Ok (set_keys (Some key) (Some (PrivKey_PubKey key)) wk).
Proof.
  intros Hk Hiv. destruct pass as [s|]; cbn [NewWalletKeyWith]; [|by intros [= <-]].
  destruct (decrypt_encrypt key s salt iv Hk Hiv) as (cp & dkp & -> & Hdec). cbn [obind]. intros [= <-].
  by rewrite (Unlock_decrypt _ s key); [|done|apply Hdec].
Qed.

(** C34. A wallet keeps its key.  A key put into a wallet under a passphrase is locked
    there with its address; the passphrase unlocks exactly that key and its
    public key, and after the passphrase of the saved wallet was reset, the new
    one does, on the wallet opened from the new file. *)
Theorem wallet_keeps_key key pass salt iv pass1 salt1 iv1 :
  key <> [] -> length iv = 16%nat -> length iv1 = 16%nat ->
  exists wk, NewWalletKeyWith key (length key) (Some pass) salt iv = Ok wk /\ IsLock wk = true /\
    wk_Address wk = tm_Address (PrivKey_PubKey key) /\
    Unlock wk (Some pass) = Ok (set_keys (Some key) (Some (PrivKey_PubKey key)) wk) /\
    forall b, Save wk = Ok b -> (0 < length b <= 1000)%nat ->
      exists wk2, resetPassphrase (Some b) pass pass1 salt1 iv1 = Save wk2 /\
        forall b2, Save wk2 = Ok b2 -> (0 < length b2 <= 1000)%nat ->
          exists wk3, obind (OpenWalletKey (Some b2)) (fun w => Unlock w (Some pass1)) = Ok wk3 /\
            wk_prvKey wk3 = Some key /\ wk_Address wk3 = tm_Address (PrivKey_PubKey key).
Proof.
  intros Hk Hiv Hiv1. unfold NewWalletKeyWith.
  destruct (decrypt_encrypt key pass salt iv Hk Hiv) as (cp & dkp & -> & Hdec). cbn [obind].
  assert (key_after_padding key (length key) = key) as ->.
  { unfold key_after_padding. pose proof (Nat.mod_upper_bound (length key) 16 ltac:(lia)). by rewrite (proj2 (Nat.leb_gt _ _)) by lia. }
  set (wk := MkWalletKey _ _ _ _ _ _ _). assert (decrypt wk pass = Ok key) as Hd by by apply Hdec.
  exists wk. split; [done|]. split; [done|]. split; [done|]. split; [by apply Unlock_decrypt|].
  intros b Hs Hl. destruct (reset_rewrites wk b pass key pass1 salt1 iv1) as (wk2 & Hr & Ha & Hp & Hd2); [done..|].
  exists wk2. split; [done|]. intros b2 Hs2 Hl2. rewrite (Open_saved _ _ Hs2 Hl2). cbn [obind].
  rewrite (Unlock_decrypt _ pass1 key); [|done|by rewrite (decrypt_fields wk2)]. by eexists.
Qed.

(** A wrong passphrase is only noticed when the decrypted text is not padded:
    the key is never compared with the address of the wallet.  When a wrong
    passphrase gives a padded text, resetting the passphrase succeeds and
    replaces the file by one that has the old address and, under the new
    passphrase, the wrong key. *)
Theorem wrong_passphrase_loses_key wk b pass0 k pass1 salt1 iv1 :
  Save wk = Ok b -> (0 < length b <= 1000)%nat -> decrypt wk pass0 = Ok k -> k <> [] -> length iv1 = 16%nat ->
  exists wk2, resetPassphrase (Some b) pass0 pass1 salt1 iv1 = Save wk2 /\ wk_Address wk2 = wk_Address wk /\
    Unlock wk2 (Some pass1) = Ok (set_keys (Some k) (Some (PrivKey_PubKey k)) wk2).
Proof.
  intros Hs Hl Hd Hk Hiv. destruct (reset_rewrites wk b pass0 k pass1 salt1 iv1) as (wk2 & Hr & Ha & Hp & Hd2); [done..|].
  exists wk2. split; [done|]. split; [done|]. by apply Unlock_decrypt.
Qed.

(** An unlocked wallet refuses its own signatures, which have the recovery byte at
    their end; [crypto.VerifySig] cuts it off and accepts them. *)
Theorem own_signature_refused wk prv msg sig :
  wk_prvKey wk = Some prv -> wk_pubKey wk = Some (PrivKey_PubKey prv) -> wk_Sign wk msg = Ok sig ->
  wk_VerifySig wk msg sig = false /\ VerifySig (PrivKey_PubKey prv) msg sig = true.
Proof.
  unfold wk_Sign, wk_VerifySig, VerifySig. intros -> -> Hs. destruct (secp_Sign_law _ _ _ Hs) as [Hl Hv]. split.
  - apply secp_Verify_length. lia.
  - by rewrite (proj2 (Nat.eqb_eq _ _) Hl).
Qed.

(** A wallet without a passphrase panics when it is unlocked with one. *)
Theorem plain_wallet_panics key cap salt iv s wk :
  NewWalletKeyWith key cap None salt iv = Ok wk -> Unlock (Lock wk) (Some s) = Panic.
Proof. intros [= <-]. done. Qed.

End WalletProps.

(** ** A wallet under a one-time pad *)

Module WalletWitness.

#[export] Instance toy_crypto : CryptoLib := Toy_crypto.

Definition wk_tuple (wk : WalletKey) :=
  (wk_Version wk, wk_Address wk, wk_Algo wk,
   (fun c => (cp_Algo c, cp_Text c, cp_Iv c, cp_Salt c)) <$> wk_CipherTextParams wk,
   (fun d => (dk_Algo d, dk_Prf d, dk_Iter d, dk_Salt d, dk_DkLen d)) <$> wk_DKParams wk).

Definition tuple_wk t : WalletKey :=
  let '(v, a, al, cp, dk) := t in
  MkWalletKey v a al ((fun '(x, y, z, w) => MkCP x y z w) <$> cp)
    ((fun '(x, y, z, w, u) => MkDK x y z w u) <$> dk) None None.

Lemma tuple_wk_tuple wk : tuple_wk (wk_tuple wk) = set_keys None None wk.
Proof. by destruct wk as [v a al [[]|] [[]|] p q]. Qed.

(** The key is the passphrase, the cipher adds it to a block, and a signature
    starts with the public key. *)
#[export] Instance toy_wallet : WalletLib := {
  pbkdf2_Key s _ _ _ := pad 32 s;
  aes_NewCipher sk := if (length sk =? 32)%nat then Ok tt else Err (GoError "crypto/aes: invalid key size");
  aes_Encrypt sk b := xor_bytes b (take 16 sk);
  aes_Decrypt sk b := xor_bytes b (take 16 sk);
  PrivKey_PubKey prv := pad 33 prv;
  secp_Sign _ prv := Ok (pad 64 prv ++ [0]);
  secp_VerifySignature pub _ sig := (length sig =? 64)%nat && bool_decide (take 33 sig = pub);
  wk_Marshal wk := Ok [Z.pos (encode (wk_tuple wk))];
  wk_Unmarshal b :=
    match b with
    | [Z.pos p] => match decode p with Some t => Ok (tuple_wk t) | None => Err (GoError "unexpected end of JSON input") end
    | _ => Err (GoError "unexpected end of JSON input")
    end;
}.

#[export] Instance toy_wallet_laws : WalletLaws.
Proof.
  assert (forall sk : bytes, aes_NewCipher sk = Ok tt -> length (take 16 sk) = 16%nat) as Hsk.
  { intros sk. cbn. destruct (Nat.eqb_spec (length sk) 32) as [E|]; [|done]. intros _. rewrite length_take. lia. }
  split.
  - intros. cbn. by rewrite length_pad.
  - intros sk b Hc Hb. cbn. rewrite length_xor_bytes, (Hsk sk Hc). lia.
  - intros sk b Hc Hb. apply xor_bytes_inv. rewrite (Hsk sk Hc). lia.
  - intros h prv sig [= <-]. rewrite length_app, length_pad. split; [done|]. cbn [secp_VerifySignature toy_wallet].
    rewrite take_app_length' by (by rewrite length_pad). rewrite length_pad. cbn [Nat.eqb andb]. apply bool_decide_eq_true.
    unfold pad. rewrite take_take. cbn [Nat.min]. change (repeat 0 64) with (repeat 0 33 ++ repeat 0 31).
    rewrite app_assoc, take_app_le; [done|]. rewrite length_app, repeat_length. lia.
  - intros pub h sig Hl. cbn. by rewrite (proj2 (Nat.eqb_neq _ _) Hl).
  - intros wk b [= <-]. cbn [wk_Unmarshal toy_wallet]. by rewrite decode_encode, tuple_wk_tuple.
Qed.

Definition key : bytes := repeat 7 32.
Definition iv1 : bytes := repeat 3 16.

Lemma wallet_keeps_key_witness :
  exists wk, NewWalletKeyWith key 32 (Some [1; 2]) [] iv1 = Ok wk /\ IsLock wk = true /\
    Unlock wk (Some [1; 2]) = Ok (set_keys (Some key) (Some (pad 33 key)) wk).
Proof.
  destruct (wallet_keeps_key key [1; 2] [] iv1 [5] [] iv1) as (wk & Hn & Hl & _ & Hu & _); [done..|].
  by exists wk.
Defined.

(** The last byte of the wrong key turns sixteen bytes of padding into one. *)
Definition wrong : bytes := repeat 0 15 ++ [17].
Definition wallet : WalletKey :=
  match NewWalletKeyWith key 32 (Some []) [] iv1 with Ok wk => wk | _ => MkWalletKey 0 [] EmptyString None None None None end.
Definition wrong_key : bytes := match decrypt wallet wrong with Ok k => k | _ => [] end.

Lemma wrong_passphrase_loses_key_witness :
  length wrong_key = 47%nat /\
  exists wk2, resetPassphrase (Some [Z.pos (encode (wk_tuple wallet))]) wrong [9] [] iv1 = Save wk2 /\
    wk_Address wk2 = tm_Address (PrivKey_PubKey key) /\
    Unlock wk2 (Some [9]) = Ok (set_keys (Some wrong_key) (Some (PrivKey_PubKey wrong_key)) wk2).
Proof.
  assert (decrypt wallet wrong = Ok wrong_key) as Hd by by vm_compute.
  split; [by vm_compute|].
  destruct (wrong_passphrase_loses_key wallet [Z.pos (encode (wk_tuple wallet))] wrong wrong_key [9] [] iv1)
    as (wk2 & Hr & Ha & Hu); [done|cbn; lia|exact Hd|by vm_compute|done|].
  exists wk2. split; [exact Hr|]. split; [rewrite Ha; by vm_compute|exact Hu].
Defined.

End WalletWitness.
