(* ===== verification/Commands.v ===== *)
(** * Commands: transactions made by the command line

    [NewTrx] of [ctrlers/types/trx.go], the constructors of
    [cmd/commands/web3/trx.go] and the [bond] and [unbond] commands of
    [cmd/commands/validator.go].  A command unlocks the validator's wallet, makes a
    transaction with the nonce of its account and the gas and price of the chain,
    signs it for the chain and sends the encoded bytes.  The queries and the
    broadcast over the network are arguments.

    Shown: what is made by any of the constructors and signed by the key of its
    sender is decoded, validated and verified by the node, which does not see the
    empty payload the constructors put into transfers and staking; and so the
    commands send a transaction the node opens. *)
From stdpp Require Import base gmap list strings.
From Stdlib Require Import ZArith Lia.
From S2P Require Import Prelude XErrors GoMonad LedgerKeys Units HexBytes Proto GovParams Account TrxTypes Signer.
From S2P Require Import TrxProps TrxCtx Wallet.

(** ** Constructors *)

(** The time is an argument. *)
Definition NewTrx (now ver : Z) (from to : Address) (nonce gas gasPrice amt : Z) (payload : ITrxPayload) : Trx :=
  MkTrx ver now nonce from to amt gas gasPrice (payload_Type payload) (Some payload) [] [] [].

Definition NewTrxTransfer (now : Z) (from to : Address) (nonce gas gasPrice amt : Z) : Trx :=
  NewTrx now 1 from to nonce gas gasPrice amt TrxPayloadAssetTransfer.
Definition NewTrxStaking (now : Z) (from to : Address) (nonce gas gasPrice amt : Z) : Trx :=
  NewTrx now 1 from to nonce gas gasPrice amt TrxPayloadStaking.
Definition NewTrxUnstaking (now : Z) (from to : Address) (nonce gas gasPrice : Z) (txhash : bytes) : Trx :=
  NewTrx now 1 from to nonce gas gasPrice 0 (TrxPayloadUnstaking txhash).
Definition NewTrxWithdraw (now : Z) (from to : Address) (nonce gas gasPrice req : Z) : Trx :=
  NewTrx now 1 from to nonce gas gasPrice 0 (TrxPayloadWithdraw req).
Definition NewTrxProposal (now : Z) (from to : Address) (nonce gas gasPrice : Z) (msg : bytes)
    (start period applyingHeight optType : Z) (options : list bytes) : Trx :=
  NewTrx now 1 from to nonce gas gasPrice 0
    (TrxPayloadProposal_ (MkTrxPayloadProposal msg start period applyingHeight optType options)).
Definition NewTrxVoting (now : Z) (from to : Address) (nonce gas gasPrice : Z) (txHash : bytes) (choice : Z) : Trx :=
  NewTrx now 1 from to nonce gas gasPrice 0 (TrxPayloadVoting txHash choice).
Definition NewTrxContract (now : Z) (from to : Address) (nonce gas gasPrice amt : Z) (data : bytes) : Trx :=
  NewTrx now 1 from to nonce gas gasPrice amt (TrxPayloadContract data).
Definition NewTrxSetDoc (now : Z) (from : Address) (nonce gas gasPrice : Z) (name docUrl : bytes) : Trx :=
  NewTrx now 1 from ZeroAddress nonce gas gasPrice 0 (TrxPayloadSetDoc name docUrl).

(** ** The commands *)

Section Commands.
Context `{TrxProtos, CryptoLib, RlpLib, WalletLib}.
(** [uint256.Int.SetFromDecimal]; the account's nonce and balance; the broadcast
    with the codes of [CheckTx] and [DeliverTx]. *)
Context (SetFromDecimal : bytes -> outcome Z) (QueryAccount : Address -> outcome (Z * Z)) (broadcast : bytes -> outcome (Z * Z)).

Definition commit_codes (r : Z * Z) : outcome unit :=
  if negb (fst r =? 0) then Err (GoError "check tx failed: %v")
  else if negb (snd r =? 0) then Err (GoError "deliver tx failed: %v")
  else Ok tt.

(** Sign, encode, send. *)
Definition sign_and_send (sg : Signers) (tx : Trx) (wk : WalletKey) : outcome unit :=
  obind (signV1 sg tx (default [] (wk_prvKey wk)) false) (fun '(_, tx') =>
  obind (tx_Encode tx') (fun txbz =>
  obind (broadcast txbz) commit_codes)).

(** The wallet is unlocked unless it is already. *)
Definition unlocked (wk : WalletKey) (pass : bytes) : outcome WalletKey :=
  if IsLock wk then Unlock wk (Some pass) else Ok wk.

Definition handleBondCmd (now : Z) (sg : Signers) (gp : GovParamsProto) (wk : WalletKey) (pass bondAmt : bytes) : outcome unit :=
  obind (SetFromDecimal bondAmt) (fun amt =>
  obind (QueryAccount (wk_Address wk)) (fun '(nonce, balance) =>
  if 0 <? uCmp amt balance then Err (GoError "insufficient balance")
  else
    obind (unlocked wk pass) (fun wk' =>
    sign_and_send sg (NewTrxStaking now (wk_Address wk') (wk_Address wk') nonce (GovParams.MinTrxGas gp)
                        (GovParams.GasPrice gp) amt) wk'))).

Definition handleUnbondCmd (now : Z) (sg : Signers) (gp : GovParamsProto) (wk : WalletKey) (pass unbondTxHash : bytes) : outcome unit :=
  obind (match hex_DecodeString (TrimPrefix0x unbondTxHash) with
         | Err _ => Err (GoError "invalid txhash: %w")
         | o => o
         end) (fun txHash =>
  obind (QueryAccount (wk_Address wk)) (fun '(nonce, _) =>
  obind (unlocked wk pass) (fun wk' =>
  sign_and_send sg (NewTrxUnstaking now (wk_Address wk') (wk_Address wk') nonce (GovParams.MinTrxGas gp)
                      (GovParams.GasPrice gp) txHash) wk'))).

End Commands.

(** ** What the node opens *)

(** The transaction as it comes out of the decoder: transfers and staking have no
    payload there. *)
Definition on_node (tx : Trx) : Trx :=
  MkTrx (tx_Version tx) (tx_Time tx) (tx_Nonce tx) (tx_From tx) (tx_To tx) (tx_Amount tx) (tx_Gas tx) (tx_GasPrice tx)
    (tx_Type tx)
    (match tx_Payload tx with
     | Some TrxPayloadAssetTransfer | Some TrxPayloadStaking => None
     | p => p
     end)
    (tx_Sig tx) (tx_Payer tx) (tx_PayerSig tx).

(** What [NewTrx] is given: integers and texts that fit their fields; an amount
    with the highest bit set counts as negative. *)
Record makes `{Utf8} (tx : Trx) (payload : ITrxPayload) : Prop := {
  mk_version : in_i32 (tx_Version tx);
  mk_time : in_i64 (tx_Time tx);
  mk_nonce : in_i64 (tx_Nonce tx);
  mk_gas : in_i64 (tx_Gas tx);
  mk_amount : 0 <= tx_Amount tx < 2 ^ 255;
  mk_price : 0 <= tx_GasPrice tx < 2 ^ 255;
  mk_payload : payload_ok payload;
  mk_to : length (tx_To tx) = AddrSize \/ (tx_Type tx = TRX_CONTRACT /\ tx_To tx = []);
}.

Section Opens.
Context `{Utf8, TrxProtos, !TrxProtosLaws, CryptoLib, RlpLib}.

(** The encoders of the payloads of transfers and staking write nothing. *)
Definition empty_payloads : Prop :=
  rlp_EncodePayload TrxPayloadAssetTransfer = Ok [] /\ rlp_EncodePayload TrxPayloadStaking = Ok [].

Lemma on_node_Encode tx : tx_Encode (on_node tx) = tx_Encode tx.
Proof. unfold tx_Encode, toProto. cbn. by destruct (tx_Payload tx) as [[]|]. Qed.

Lemma on_node_RLP tx isPayer : empty_payloads -> EncodeRLP (preimage_tx (on_node tx) isPayer) = EncodeRLP (preimage_tx tx isPayer).
Proof.
  intros [Ha Hs]. unfold EncodeRLP. cbn. destruct (tx_Payload tx) as [[]|]; rewrite ?Ha, ?Hs; done.
Qed.

Lemma on_node_Verify s tx : empty_payloads -> VerifyTrxRLP s (on_node tx) = VerifyTrxRLP s tx.
Proof.
  intros He. unfold VerifyTrxRLP. cbn [tx_Sig on_node]. destruct (sig_v _) as [v|e|]; [|done..]. cbn [obind].
  unfold getSigner. destruct (_ || _); [|destruct (_ || _); [|done]]; cbn [obind];
    unfold verifyV0, verifyV1, getPreimageV0, getPreimageV1, rlp_EncodeToBytes; by rewrite on_node_RLP.
Qed.

Lemma on_node_wf tx payload : makes tx payload -> tx_Payload tx = Some payload -> tx_Type tx = payload_Type payload -> tx_wf (on_node tx).
Proof.
  intros [] Hp Ht. split; try done; try (unfold in_u256; cbn; lia). cbn. rewrite Hp, Ht. by destruct payload; cbn; auto.
Qed.

Lemma on_node_Validate tx payload :
  makes tx payload -> tx_Payload tx = Some payload -> tx_Type tx = payload_Type payload -> length (tx_From tx) = AddrSize ->
  tx_Sig tx <> [] -> tx_Payer tx = [] -> Validate (on_node tx) = Ok tt.
Proof.
  intros [] Hp Ht Hf Hs Hy. unfold Validate. cbn [on_node tx_From tx_To tx_Type tx_Amount tx_GasPrice tx_Payload tx_Sig tx_Payer tx_PayerSig].
  rewrite Hf, Nat.eqb_refl, Hy. cbn [negb].
  assert (negb (length (tx_To tx) =? AddrSize)%nat && (negb (tx_Type tx =? TRX_CONTRACT) || negb (bytes_Equal (tx_To tx) [])) = false) as ->.
  { destruct mk_to0 as [Hl|[Hc Hn]]; [by rewrite Hl, Nat.eqb_refl|]. rewrite Hc, Hn. done. }
  assert (forall a, 0 <= a < 2 ^ 255 -> (uSign a <? 0) = false) as Hsign.
  { intros a Ha. unfold uSign. repeat case_match; lia. }
  rewrite !Hsign by done. rewrite Hp, Ht. replace (bytes_Equal (tx_Sig tx) []) with false
    by (symmetry; destruct (bytes_Equal (tx_Sig tx) []) eqn:E; [apply bytes_Equal_true in E; congruence|done]).
  by destruct payload.
Qed.

Lemma signV1_fields pub_of s tx prv sig tx' :
  sign_recovers pub_of -> signV1 s tx prv false = Ok (sig, tx') -> tx' = with_sig tx sig /\ length sig = SignatureLength.
Proof.
  intros Hr. unfold signV1. destruct (getPreimageV1 _ _ _) as [pre|e|]; [|done..]. cbn [obind].
  destruct (ethcrypto_Sign _ _) as [sig0|e|] eqn:Es; [|done..]. cbn [obind from_proto_err]. destruct (Hr _ _ _ Es) as (Hl & _ & _).
  rewrite Hl, Nat.eqb_refl. cbn [negb]. destruct (sig_v sig0) as [v|e|]; [|done..]. cbn [obind]. intros [= <- <-]. split; [done|].
  destruct (_ || _); [|done]. unfold set_v. by rewrite length_insert.
Qed.

(** The bytes a node opens, for the theorems on constructors and commands. *)
Lemma made_opens pub_of (sg : Signers) (gp : GovParamsProto) now from to nonce gas gasPrice amt payload prv sig tx' :
  sign_recovers pub_of -> empty_payloads ->
  let tx := NewTrx now 1 from to nonce gas gasPrice amt payload in
  makes tx payload -> from = PubKeyBytes2Addr (pub_of prv) -> length from = AddrSize ->
  GovParams.MinTrxGas gp <= gas -> gasPrice = GovParams.GasPrice gp ->
  signV1 sg tx prv false = Ok (sig, tx') ->
  exists bz, tx_Encode tx' = Ok bz /\ open_trx sg gp bz = Ok (on_node (with_sig tx sig), pub_of prv, []).
Proof.
  intros Hrec He tx Hmk Hfrom Hlen Hgas Hprice Hsign.
  destruct (signV1_fields _ _ _ _ _ _ Hrec Hsign) as [-> Hsig].
  assert (makes (with_sig tx sig) payload) as Hmk' by (destruct Hmk; by split).
  destruct (wf_codec (on_node (with_sig tx sig))) as (bz & Henc & Hdec); [by eapply on_node_wf|].
  exists bz. rewrite on_node_Encode in Henc. split; [done|]. unfold open_trx. rewrite Hdec. cbn [obind].
  rewrite (on_node_Validate _ payload Hmk') by (try done; cbn; intros ->; done). cbn [obind on_node with_sig tx NewTrx tx_Gas tx_GasPrice tx_PayerSig].
  destruct (Z.ltb_spec gas (GovParams.MinTrxGas gp)); [lia|]. rewrite Hprice. unfold uCmp. rewrite Z.ltb_irrefl. cbn [Z.eqb negb].
  fold (with_sig tx sig). change (VerifyTrxRLP sg (MkTrx _ _ _ _ _ _ _ _ _ _ _ _ _)) with (VerifyTrxRLP sg (on_node (with_sig tx sig))).
  rewrite on_node_Verify by done.
  pose proof (signV1_verifies pub_of sg tx prv false sig _ Hrec Hfrom Hsign) as Hv. cbn [verify_as] in Hv. rewrite Hv. cbn [obind]. done.
Qed.

(** C18. A transaction made by any of the constructors with values that fit, the gas
    and the price the chain asks for, and signed for the chain with the key of its
    sender, is encoded to bytes that every node of the chain decodes, validates
    and verifies: it opens them to the sender's key and that transaction as nodes
    hold it ([on_node]), which keeps every field but the empty payload of a
    transfer or a staking. *)
Theorem sent_transaction_opens pub_of (sg : Signers) (gp : GovParamsProto) now from to nonce gas gasPrice amt payload prv sig tx' :
  sign_recovers pub_of -> empty_payloads ->
  let tx := NewTrx now 1 from to nonce gas gasPrice amt payload in
  makes tx payload -> from = PubKeyBytes2Addr (pub_of prv) -> length from = AddrSize ->
  GovParams.MinTrxGas gp <= gas -> gasPrice = GovParams.GasPrice gp ->
  signV1 sg tx prv false = Ok (sig, tx') ->
  exists bz, tx_Encode tx' = Ok bz /\ open_trx sg gp bz = Ok (on_node (with_sig tx sig), pub_of prv, []).
Proof. apply made_opens. Qed.

Context `{WalletLib}.

(** The [bond] command of a wallet whose key is that of its address, with an amount
    the account has: what it broadcasts opens to a staking transaction of that
    amount, and its outcome is that of the broadcast. *)
Theorem bond_command_opens pub_of SetFromDecimal QueryAccount broadcast now (sg : Signers) gp wk wk' pass text amt nonce balance prv sig tx' :
  sign_recovers pub_of -> empty_payloads ->
  SetFromDecimal text = Ok amt -> QueryAccount (wk_Address wk) = Ok (nonce, balance) -> amt <= balance < 2 ^ 255 -> 0 <= amt ->
  in_i64 now -> in_i64 nonce -> in_i64 (GovParams.MinTrxGas gp) -> 0 <= GovParams.GasPrice gp < 2 ^ 255 ->
  unlocked wk pass = Ok wk' -> wk_Address wk' = wk_Address wk -> wk_prvKey wk' = Some prv ->
  wk_Address wk = PubKeyBytes2Addr (pub_of prv) -> length (wk_Address wk) = AddrSize ->
  signV1 sg (NewTrxStaking now (wk_Address wk) (wk_Address wk) nonce (GovParams.MinTrxGas gp) (GovParams.GasPrice gp) amt) prv false = Ok (sig, tx') ->
  exists bz tx, handleBondCmd SetFromDecimal QueryAccount broadcast now sg gp wk pass text = obind (broadcast bz) commit_codes /\
    open_trx sg gp bz = Ok (tx, pub_of prv, []) /\
    tx_Type tx = TRX_STAKING /\ tx_From tx = wk_Address wk /\ tx_To tx = wk_Address wk /\ tx_Amount tx = amt /\ tx_Nonce tx = nonce.
Proof.
  intros Hrec He Ht Hq Hb Ha Hnow Hn Hg Hp Hu Hwa Hwp Haddr Hlen Hsign.
  assert (makes (NewTrxStaking now (wk_Address wk) (wk_Address wk) nonce (GovParams.MinTrxGas gp) (GovParams.GasPrice gp) amt)
    TrxPayloadStaking) as Hmk.
  { split; cbn; try done; first [unfold in_i32; lia|lia|by left]. }
  destruct (made_opens pub_of sg gp now (wk_Address wk) (wk_Address wk) nonce _ _ amt TrxPayloadStaking prv sig tx'
    Hrec He Hmk Haddr Hlen (Z.le_refl _) eq_refl Hsign) as (bz & Henc & Hopen).
  exists bz, (on_node (with_sig (NewTrxStaking now (wk_Address wk) (wk_Address wk) nonce (GovParams.MinTrxGas gp) (GovParams.GasPrice gp) amt) sig)).
  split; [|by split]. unfold handleBondCmd. rewrite Ht. cbn [obind]. rewrite Hq. cbn [obind].
  unfold uCmp. destruct (Z.ltb_spec amt balance); cbn [Z.ltb Z.compare].
  - rewrite Hu. cbn [obind]. unfold sign_and_send. rewrite Hwa, Hwp. change (default [] (Some prv)) with prv. rewrite Hsign. cbn [obind]. by rewrite Henc.
  - destruct (Z.ltb_spec balance amt); [lia|]. cbn [Z.ltb Z.compare].
    rewrite Hu. cbn [obind]. unfold sign_and_send. rewrite Hwa, Hwp. change (default [] (Some prv)) with prv. rewrite Hsign. cbn [obind]. by rewrite Henc.
Qed.

End Opens.

Module CommandWitness.
Import TrxWitness.

#[local] Instance w_utf8 : Utf8 := Any_utf8.
#[local] Instance w_trx_protos : TrxProtos := TrxWitness.w_trx_protos.
#[local] Instance w_trx_laws : TrxProtosLaws := TrxWitness.w_trx_laws.
#[local] Instance w_crypto : CryptoLib := Toy_crypto.
#[local] Instance w_rlp : RlpLib := TrxWitness.w_rlp.

(** A transfer. *)
Definition pay : Trx :=
  NewTrxTransfer 1700000000 w_addr (repeat 2 20) 3 5000 (GovParams.GasPrice GovParams.DefaultGovParams) (10 ^ 18).
Definition pay_signed : bytes * Trx :=
  match signV1 w_signers pay w_prv false with Ok r => r | _ => ([], pay) end.

Lemma sent_transaction_opens_witness :
  exists bz, tx_Encode (snd pay_signed) = Ok bz /\
    open_trx w_signers GovParams.DefaultGovParams bz = Ok (on_node (with_sig pay (fst pay_signed)), w_pub w_prv, []).
Proof.
  apply (sent_transaction_opens w_pub w_signers GovParams.DefaultGovParams 1700000000 w_addr (repeat 2 20) 3 5000
    (GovParams.GasPrice GovParams.DefaultGovParams) (10 ^ 18) TrxPayloadAssetTransfer w_prv (fst pay_signed) (snd pay_signed)).
  - exact w_recovers.
  - split; reflexivity.
  - split; first [exact Logic.I|left; reflexivity|vm_compute; split; congruence].
  - reflexivity.
  - reflexivity.
  - vm_compute. congruence.
  - reflexivity.
  - vm_compute. reflexivity.
Defined.

End CommandWitness.
