(* ===== verification/Rlp.v ===== *)
(** * Rlp: the RLP forms of transactions and payloads

    [EncodeRLP], [DecodeRLP] and [Equal] of [Trx] ([ctrlers/types/trx.go]) and of
    every payload ([trx_transfer.go], [trx_staking.go], [trx_withdraw.go],
    [trx_proposal.go], [trx_voting.go], [trx_contract.go], [trx_setdoc.go]).

    The package go-ethereum/rlp is third-party code.  Its values are items, byte
    strings and lists of items; [RlpItems] holds the two functions between items
    and bytes, and [RlpItemsLaws] what its documentation promises of them: an item
    is read back from its encoding, whatever follows, and holds its parts.  How Go
    values become items and back (strings, unsigned integers, structs) is written
    out.  [rlp_lib]
    assembles the [RlpLib] the signers are parameterized by, so what they assume of
    it is proved here; the wire format at the end of the file satisfies
    the laws. *)
From stdpp Require Import base gmap list strings.
From Stdlib Require Import ZArith Lia.
From S2P Require Import Prelude XErrors GoMonad LedgerKeys Units Proto TrxTypes Signer TrxProps Commands.

Inductive ritem : Type :=
| RStr (b : bytes)
| RList (l : list ritem).

Class RlpItems : Type := {
  rlp_item : ritem -> bytes;
  rlp_read : bytes -> outcome (ritem * bytes);
}.

Class RlpItemsLaws `{RlpItems} : Prop := {
  rlp_read_item it rest :
    Z.of_nat (length (rlp_item it)) < 2 ^ 63 -> rlp_read (rlp_item it ++ rest) = Ok (it, rest);
  rlp_item_nonempty it : rlp_item it <> [];
  rlp_item_str b : (length b <= length (rlp_item (RStr b)))%nat;
  rlp_item_part it l : it ∈ l -> (length (rlp_item it) <= length (rlp_item (RList l)))%nat;
}.

(** ** Go values and items *)

Definition u32 (z : Z) : Z := z mod 2 ^ 32.

Definition rlp_uint (z : Z) : ritem := RStr (uBytes z).

Definition ErrExpectedString : error := GoError "rlp: expected String or Byte".
Definition ErrExpectedList : error := GoError "rlp: expected List".
Definition ErrCanonInt : error := GoError "rlp: non-canonical integer format".
Definition errUintOverflow : error := GoError "rlp: uint overflow".
Definition errTooFew : error := GoError "rlp: too few elements".
Definition errTooMany : error := GoError "rlp: input list has too many elements".
Definition ErrMoreThanOneValue : error := GoError "rlp: input contains more than one value".

Definition as_bytes (it : ritem) : outcome bytes :=
  match it with
  | RStr b => Ok b
  | RList _ => Err ErrExpectedString
  end.

(** An unsigned integer of [w] bytes. *)
Definition as_uint (w : nat) (it : ritem) : outcome Z :=
  obind (as_bytes it) (fun b =>
  if (w <? length b)%nat then Err errUintOverflow
  else match b with
       | 0 :: _ => Err ErrCanonInt
       | _ => Ok (uSetBytes b)
       end).

Definition as_list (it : ritem) : outcome (list ritem) :=
  match it with
  | RStr _ => Err ErrExpectedList
  | RList l => Ok l
  end.

Fixpoint each_bytes (l : list ritem) : outcome (list bytes) :=
  match l with
  | [] => Ok []
  | it :: l' => obind (as_bytes it) (fun b => obind (each_bytes l') (fun bs => Ok (b :: bs)))
  end.

(** The fields of a struct, read in order. *)
Definition field {A B} (as_ : ritem -> outcome A) (l : list ritem) (k : A -> list ritem -> outcome B) : outcome B :=
  match l with
  | [] => Err errTooFew
  | it :: l' => obind (as_ it) (fun a => k a l')
  end.

Definition last_field {A B} (as_ : ritem -> outcome A) (l : list ritem) (k : A -> outcome B) : outcome B :=
  field as_ l (fun a l' => match l' with [] => k a | _ => Err errTooMany end).

(** ** [Equal] *)

Definition Options_Equal (a b : list bytes) : bool :=
  (length a =? length b)%nat &&
  forallb (fun '(x, y) => bytes_Compare x y =? 0) (zip a b).

Definition Proposal_Equal (tx tx0 : TrxPayloadProposal) : bool :=
  if negb (bytes_Equal (pp_Message tx) (pp_Message tx0)) then false
  else if negb (pp_StartVotingHeight tx =? pp_StartVotingHeight tx0) then false
  else if negb (pp_VotingPeriodBlocks tx =? pp_VotingPeriodBlocks tx0) then false
  else if negb (pp_ApplyingHeight tx =? pp_ApplyingHeight tx0) then false
  else if negb (pp_OptType tx =? pp_OptType tx0) then false
  else Options_Equal (pp_Options tx) (pp_Options tx0).

(** The [Equal] of a payload with another, which may be nil; those of transfers
    and staking do not look at it. *)
Definition payload_Equal (tx : ITrxPayload) (tx0 : option ITrxPayload) : bool :=
  match tx with
  | TrxPayloadAssetTransfer | TrxPayloadStaking => true
  | TrxPayloadUnstaking h =>
      match tx0 with Some (TrxPayloadUnstaking h0) => bytes_Compare h h0 =? 0 | _ => false end
  | TrxPayloadWithdraw amt =>
      match tx0 with Some (TrxPayloadWithdraw amt0) => uCmp amt amt0 =? 0 | _ => false end
  | TrxPayloadProposal_ p =>
      match tx0 with Some (TrxPayloadProposal_ p0) => Proposal_Equal p p0 | _ => false end
  | TrxPayloadVoting h c =>
      match tx0 with
      | Some (TrxPayloadVoting h0 c0) => if negb (bytes_Compare h h0 =? 0) then false else if negb (c =? c0) then false else true
      | _ => false
      end
  | TrxPayloadContract d =>
      match tx0 with Some (TrxPayloadContract d0) => bytes_Compare d d0 =? 0 | _ => false end
  | TrxPayloadSetDoc n u =>
      match tx0 with Some (TrxPayloadSetDoc n0 u0) => bytes_Equal n n0 && bytes_Equal u u0 | _ => false end
  end.

Definition trx_Equal (tx tx0 : Trx) : bool :=
  if negb (tx_Version tx =? tx_Version tx0) then false
  else if negb (tx_Time tx =? tx_Time tx0) then false
  else if negb (tx_Nonce tx =? tx_Nonce tx0) then false
  else if negb (bytes_Compare (tx_From tx) (tx_From tx0) =? 0) then false
  else if negb (bytes_Compare (tx_To tx) (tx_To tx0) =? 0) then false
  else if negb (uCmp (tx_Amount tx) (tx_Amount tx0) =? 0) then false
  else if negb (tx_Gas tx =? tx_Gas tx0) then false
  else if negb (uCmp (tx_GasPrice tx) (tx_GasPrice tx0) =? 0) then false
  else if negb (tx_Type tx =? tx_Type tx0) then false
  else if negb (tx_Version tx =? tx_Version tx0) then false
  else if negb (bytes_Compare (tx_Sig tx) (tx_Sig tx0) =? 0) then false
  else match tx_Payload tx with
       | Some p => payload_Equal p (tx_Payload tx0)
       | None => match tx_Payload tx0 with Some _ => false | None => true end
       end.

Section Rlp.
Context `{RlpItems}.

(** ** [EncodeRLP] of the payloads: what they write *)

Definition Encode (it : ritem) : outcome bytes := Ok (rlp_item it).

Definition Proposal_EncodeRLP (tx : TrxPayloadProposal) : outcome bytes :=
  Encode (RList [RStr (pp_Message tx); rlp_uint (u64 (pp_StartVotingHeight tx)); rlp_uint (u64 (pp_VotingPeriodBlocks tx));
                 rlp_uint (u64 (pp_ApplyingHeight tx)); rlp_uint (u32 (pp_OptType tx)); RList (map RStr (pp_Options tx))]).

Definition Voting_EncodeRLP (TxHash : bytes) (Choice : Z) : outcome bytes :=
  Encode (RList [RStr TxHash; rlp_uint (u32 Choice)]).

Definition payload_EncodeRLP (p : ITrxPayload) : outcome bytes :=
  match p with
  | TrxPayloadAssetTransfer | TrxPayloadStaking => Ok []
  | TrxPayloadUnstaking h => Encode (RStr h)
  | TrxPayloadProposal_ p => Proposal_EncodeRLP p
  | TrxPayloadVoting h c => Voting_EncodeRLP h c
  | TrxPayloadContract d => Encode (RStr d)
  | TrxPayloadSetDoc n u => Encode (RList [RStr n; RStr u])
  | TrxPayloadWithdraw amt => Encode (RStr (uBytes amt))
  end.

(** ** [DecodeRLP] of the payloads: the value and what is left of the stream *)

Definition stream_Decode {A} (as_ : ritem -> outcome A) (s : bytes) : outcome (A * bytes) :=
  obind (rlp_read s) (fun '(it, rest) => obind (as_ it) (fun a => Ok (a, rest))).

Definition as_Proposal (it : ritem) : outcome ITrxPayload :=
  obind (as_list it) (fun l =>
  field as_bytes l (fun Message l =>
  field (as_uint 8) l (fun StartVotingHeight l =>
  field (as_uint 8) l (fun VotingPeriodBlocks l =>
  field (as_uint 8) l (fun ApplyingHeight l =>
  field (as_uint 4) l (fun OptType l =>
  last_field (fun it => obind (as_list it) each_bytes) l (fun Options =>
  Ok (TrxPayloadProposal_ (MkTrxPayloadProposal Message (i64 StartVotingHeight) (i64 VotingPeriodBlocks)
        (i64 ApplyingHeight) (i32 OptType) Options))))))))).

Definition as_Voting (it : ritem) : outcome ITrxPayload :=
  obind (as_list it) (fun l =>
  field as_bytes l (fun TxHash l =>
  last_field (as_uint 4) l (fun Choice =>
  Ok (TrxPayloadVoting TxHash (i32 Choice))))).

Definition as_SetDoc (it : ritem) : outcome ITrxPayload :=
  obind (as_list it) (fun l =>
  field as_bytes l (fun Name l =>
  last_field as_bytes l (fun URL =>
  Ok (TrxPayloadSetDoc Name URL)))).

(** The decoders of transfers and staking read nothing. *)
Definition payload_DecodeRLP (ty : Z) (s : bytes) : outcome (ITrxPayload * bytes) :=
  if ty =? TRX_TRANSFER then Ok (TrxPayloadAssetTransfer, s)
  else if ty =? TRX_STAKING then Ok (TrxPayloadStaking, s)
  else if ty =? TRX_UNSTAKING then stream_Decode (fun it => obind (as_bytes it) (fun bz => Ok (TrxPayloadUnstaking bz))) s
  else if ty =? TRX_WITHDRAW then stream_Decode (fun it => obind (as_bytes it) (fun bz => Ok (TrxPayloadWithdraw (uSetBytes bz)))) s
  else if ty =? TRX_PROPOSAL then stream_Decode as_Proposal s
  else if ty =? TRX_VOTING then stream_Decode as_Voting s
  else if ty =? TRX_CONTRACT then stream_Decode (fun it => obind (as_bytes it) (fun bz => Ok (TrxPayloadContract bz))) s
  else if ty =? TRX_SETDOC then stream_Decode as_SetDoc s
  else Err ErrInvalidTrxPayloadType.

(** [rlp.DecodeBytes]: exactly one value. *)
Definition DecodeBytes {A} (dec : bytes -> outcome (A * bytes)) (bz : bytes) : outcome A :=
  obind (dec bz) (fun '(a, rest) => match rest with [] => Ok a | _ => Err ErrMoreThanOneValue end).

(** ** The record of a transaction *)

Definition trx_item (r : trxRLP) : ritem :=
  RList [rlp_uint (r_Version r); rlp_uint (r_Time r); rlp_uint (r_Nonce r); RStr (r_From r); RStr (r_To r);
         RStr (r_Amount r); rlp_uint (r_Gas r); RStr (r_GasPrice r); rlp_uint (r_Type r); RStr (r_Payload r); RStr (r_Sig r)].

Definition as_trxRLP (it : ritem) : outcome trxRLP :=
  obind (as_list it) (fun l =>
  field (as_uint 8) l (fun Version l =>
  field (as_uint 8) l (fun Time l =>
  field (as_uint 8) l (fun Nonce l =>
  field as_bytes l (fun From l =>
  field as_bytes l (fun To l =>
  field as_bytes l (fun Amount l =>
  field (as_uint 8) l (fun Gas l =>
  field as_bytes l (fun GasPrice l =>
  field (as_uint 8) l (fun Type_ l =>
  field as_bytes l (fun Payload l =>
  last_field as_bytes l (fun Sig =>
  Ok (MkTrxRLP Version Time Nonce From To Amount Gas GasPrice Type_ Payload Sig))))))))))))).

(** The library of the signers, on top of the items; [pre] formats the prefix of
    [SignerV0]. *)
Definition rlp_lib (pre : bytes -> Z -> bytes) : RlpLib := {|
  rlp_Encode r := Encode (trx_item r);
  rlp_EncodePayload := payload_EncodeRLP;
  rlp_Decode := DecodeBytes (stream_Decode as_trxRLP);
  rlp_DecodePayload ty := DecodeBytes (payload_DecodeRLP ty);
  Sprintf_prefix := pre;
|}.

End Rlp.

(** ** Integers *)

Lemma put_be_app a b v : put_be (a + b) v = put_be a (v / 256 ^ Z.of_nat b) ++ put_be b v.
Proof.
  revert v. induction b as [|b IH]; intros v.
  - rewrite Nat.add_0_r, app_nil_r. cbn. by rewrite Z.div_1_r.
  - rewrite Nat.add_succ_r. cbn [put_be]. rewrite IH, app_assoc.
    by rewrite Z.div_div, Nat2Z.inj_succ, Z.pow_succ_r by lia.
Qed.

Lemma strip_put_zero n b : strip_zeros (put_be n 0 ++ b) = strip_zeros b.
Proof.
  revert b. induction n as [|n IH]; intros b; [done|]. cbn [put_be].
  change (0 / 256) with 0. change (0 mod 256) with 0. by rewrite <- app_assoc, IH.
Qed.

Lemma length_uBytes w z : (w <= 32)%nat -> 0 <= z < 256 ^ Z.of_nat w -> (length (uBytes z) <= w)%nat.
Proof.
  intros Hw Hz. unfold uBytes. replace 32%nat with (32 - w + w)%nat by lia.
  rewrite put_be_app, Z.div_small, strip_put_zero by done. etrans; [apply length_strip|]. by rewrite length_put_be.
Qed.

Lemma uBytes_head z b : uBytes z <> 0 :: b.
Proof.
  unfold uBytes. generalize (put_be 32 z) as l. induction l as [|x l IH]; [done|].
  cbn [strip_zeros]. destruct (Z.eqb_spec x 0); [done|]. by intros [= -> _].
Qed.

Lemma as_uint_ok w z : (w <= 32)%nat -> 0 <= z < 256 ^ Z.of_nat w -> as_uint w (rlp_uint z) = Ok z.
Proof.
  intros Hw Hz. unfold as_uint, rlp_uint. cbn [as_bytes obind].
  destruct (Nat.ltb_spec w (length (uBytes z))); [pose proof (length_uBytes w z Hw Hz); lia|].
  assert (in_u256 z) as Hu.
  { split; [lia|]. apply Z.lt_le_trans with (256 ^ Z.of_nat w); [lia|].
    change (2 ^ 256) with (256 ^ 32). apply Z.pow_le_mono_r; lia. }
  rewrite <- (uSetBytes_uBytes z Hu) at 2.
  destruct (uBytes z) as [|x b] eqn:E; [done|]. destruct x; [by apply uBytes_head in E|done..].
Qed.

Lemma as_u64 z : 0 <= z < 2 ^ 64 -> as_uint 8 (rlp_uint z) = Ok z.
Proof. intros Hz. apply as_uint_ok; [lia|]. change (256 ^ Z.of_nat 8) with (2 ^ 64). lia. Qed.

Lemma as_u64_u64 z : as_uint 8 (rlp_uint (u64 z)) = Ok (u64 z).
Proof. apply as_u64. unfold u64. apply Z.mod_pos_bound. lia. Qed.

Lemma as_u32_u32 z : as_uint 4 (rlp_uint (u32 z)) = Ok (u32 z).
Proof. apply as_uint_ok; [lia|]. unfold u32. change (256 ^ Z.of_nat 4) with (2 ^ 32). apply Z.mod_pos_bound. lia. Qed.

Lemma i64_u64 z : in_i64 z -> i64 (u64 z) = z.
Proof.
  intros Hz. rewrite <- (i64_id z Hz) at 2. apply eqm64_i64. unfold eqm64, u64.
  by rewrite Z.mod_mod by lia.
Qed.

Lemma i32_u32 z : in_i32 z -> i32 (u32 z) = z.
Proof. unfold in_i32, i32, u32. intros Hz. Z.div_mod_to_equations. lia. Qed.

Lemma i32_u64 z : in_i32 z -> i32 (u64 z) = z.
Proof. unfold in_i32, i32, u64. intros Hz. Z.div_mod_to_equations. lia. Qed.

Lemma each_bytes_map l : each_bytes (map RStr l) = Ok l.
Proof. induction l as [|b l IH]; [done|]. cbn. by rewrite IH. Qed.

(** ** What the forms keep *)

Definition payload_ints (p : ITrxPayload) : Prop :=
  match p with
  | TrxPayloadProposal_ p =>
      in_i64 (pp_StartVotingHeight p) /\ in_i64 (pp_VotingPeriodBlocks p) /\ in_i64 (pp_ApplyingHeight p) /\ in_i32 (pp_OptType p)
  | TrxPayloadVoting _ c => in_i32 c
  | TrxPayloadWithdraw amt => in_u256 amt
  | _ => True
  end.

(** A payload is of the type of its transaction, its integers at their width. *)
Definition payload_fits (tx : Trx) : Prop :=
  match tx_Payload tx with
  | None => True
  | Some p => tx_Type tx = payload_Type p /\ payload_ints p
  end.

(** The payer and its signature are not part of the form. *)
Definition no_payer (tx : Trx) : Trx :=
  MkTrx (tx_Version tx) (tx_Time tx) (tx_Nonce tx) (tx_From tx) (tx_To tx) (tx_Amount tx) (tx_Gas tx) (tx_GasPrice tx)
    (tx_Type tx) (tx_Payload tx) (tx_Sig tx) [] [].

Section Kept.
Context `{RlpItems, !RlpItemsLaws} (pre : bytes -> Z -> bytes).

#[local] Hint Extern 0 RlpLib => exact (rlp_lib pre) : typeclass_instances.

Lemma stream_item {A} (as_ : ritem -> outcome A) it a :
  Z.of_nat (length (rlp_item it)) < 2 ^ 63 -> as_ it = Ok a -> DecodeBytes (stream_Decode as_) (rlp_item it) = Ok a.
Proof.
  intros Hl Ha. unfold DecodeBytes, stream_Decode. rewrite <- (app_nil_r (rlp_item it)), rlp_read_item by done.
  cbn [obind]. by rewrite Ha.
Qed.

Lemma payload_rlp_kept p bz :
  payload_ints p -> payload_EncodeRLP p = Ok bz -> Z.of_nat (length bz) < 2 ^ 63 ->
  DecodeBytes (payload_DecodeRLP (payload_Type p)) bz = Ok p.
Proof.
  intros Hp. destruct p as [| |h|p|h c|d|n u|amt]; intros [= <-] Hl; try done;
    (apply stream_item; [done|]); cbn [as_bytes obind payload_ints] in *.
  - done.
  - destruct Hp as (? & ? & ? & ?). unfold as_Proposal, field, last_field, field. cbn [as_list as_bytes obind].
    rewrite !as_u64_u64, as_u32_u32. cbn [obind]. rewrite each_bytes_map. cbn [obind].
    rewrite !i64_u64, i32_u32 by done. by destruct p.
  - unfold as_Voting, field, last_field, field. cbn [as_list as_bytes obind]. rewrite as_u32_u32. cbn [obind]. by rewrite i32_u32.
  - done.
  - done.
  - by rewrite uSetBytes_uBytes.
Qed.

Lemma payload_rlp_empty p : payload_EncodeRLP p = Ok [] -> p = TrxPayloadAssetTransfer \/ p = TrxPayloadStaking.
Proof. destruct p; cbn; auto; intros [= E]; by apply rlp_item_nonempty in E. Qed.

Lemma trx_item_kept r : rlp_words r -> as_trxRLP (trx_item r) = Ok r.
Proof.
  unfold rlp_words. rewrite !Forall_cons. intros (? & ? & ? & ? & ? & _).
  unfold as_trxRLP, trx_item, last_field, field. cbn [as_list obind as_bytes].
  rewrite !as_u64 by done. cbn [obind]. by destruct r.
Qed.

(** Two records whose encodings overlap are the same. *)
Lemma items_prefix_free : rlp_prefix_free.
Proof.
  intros a b x y e f Ha Hb [= <-] [= <-] He Hf E.
  pose proof (rlp_read_item (trx_item a) x He) as Ra. rewrite E, rlp_read_item in Ra by done. assert (trx_item b = trx_item a) as Ei by congruence.
  pose proof (trx_item_kept a Ha) as Ka. rewrite <- Ei, trx_item_kept in Ka by done. congruence.
Qed.

Lemma items_empty_payloads : empty_payloads.
Proof. done. Qed.

Lemma payload_in_record r : (length (r_Payload r) <= length (rlp_item (trx_item r)))%nat.
Proof. etrans; [apply rlp_item_str|]. apply rlp_item_part. set_solver. Qed.

Lemma trx_rlp_kept tx bz :
  tx_ints tx -> payload_fits tx -> rlp_EncodeToBytes tx = Ok bz -> Z.of_nat (length bz) < 2 ^ 63 ->
  DecodeRLP bz = Ok (on_node (no_payer tx)).
Proof.
  intros (? & ? & ? & ? & ? & ? & ?) Hf. unfold rlp_EncodeToBytes.
  destruct (EncodeRLP tx) as [r|e|] eqn:Er; [|done..]. intros [= <-] Hl.
  pose proof (payload_in_record r) as Hpl. unfold DecodeRLP. cbn [rlp_Decode rlp_lib].
  rewrite (stream_item _ _ r Hl) by eauto using trx_item_kept, EncodeRLP_words. cbn [obind].
  unfold EncodeRLP in Er. destruct (match tx_Payload tx with Some _ => _ | None => _ end) as [bp|e|] eqn:Ep; [|done..].
  injection Er as <-. cbn [r_Version r_Time r_Nonce r_From r_To r_Amount r_Gas r_GasPrice r_Type r_Payload r_Sig] in *.
  rewrite !i64_u64, !i32_u64, !uSetBytes_uBytes by done.
  enough ((if bytes_Equal bp [] then Ok None
           else if (TRX_MIN_TYPE <=? tx_Type tx) && (tx_Type tx <=? TRX_MAX_TYPE)
                then obind (rlp_DecodePayload (tx_Type tx) bp) (fun p => Ok (Some p)) else Err ErrInvalidTrxPayloadType)
          = Ok (tx_Payload (on_node tx))) as -> by done.
  unfold payload_fits in Hf. cbn [on_node tx_Payload]. destruct (tx_Payload tx) as [p|]; [|by injection Ep as <-].
  destruct Hf as [-> Hi]. destruct (bytes_Equal bp []) eqn:Eb.
  - apply bytes_Equal_true in Eb as ->. by apply payload_rlp_empty in Ep as [-> | ->].
  - cbn [rlp_DecodePayload rlp_lib]. rewrite (payload_rlp_kept p bp Hi Ep) by lia.
    destruct p; try done; injection Ep as <-; done.
Qed.

End Kept.

(** ** The wire format of RLP

    The format go-ethereum/rlp documents: a byte below 128 stands for itself, any
    other string and every list has a header with its length.  The instance of the
    items of [Rlp.v] with this format satisfies their laws, so the theorems proved
    against the laws are about the bytes nodes exchange. *)

Definition header (off n : Z) : bytes :=
  if n <? 56 then [off + n] else (off + 55 + Z.of_nat (length (uBytes n))) :: uBytes n.

Definition single (b : bytes) : bool :=
  match b with
  | [x] => (0 <=? x) && (x <? 128)
  | _ => false
  end.

Fixpoint wire (it : ritem) : bytes :=
  match it with
  | RStr b => if single b then b else header 128 (Z.of_nat (length b)) ++ b
  | RList l => let body := concat (map wire l) in header 192 (Z.of_nat (length body)) ++ body
  end.

Definition ErrEOF : error := GoError "unexpected EOF".
Definition ErrCanonSize : error := GoError "rlp: non-canonical size information".
Definition ErrValueTooLarge : error := GoError "rlp: value size exceeds available input length".

Definition cut (n : Z) (bz : bytes) : outcome (bytes * bytes) :=
  if Z.of_nat (length bz) <? n then Err ErrValueTooLarge else Ok (take (Z.to_nat n) bz, drop (Z.to_nat n) bz).

(** The length a header announces, and what follows it. *)
Definition read_header (off c : Z) (bz : bytes) : outcome (Z * bytes) :=
  if c <? off + 56 then Ok (c - off, bz)
  else obind (cut (c - off - 55) bz) (fun '(l, rest) =>
       match l with
       | 0 :: _ => Err ErrCanonSize
       | _ => if uSetBytes l <? 56 then Err ErrCanonSize else Ok (uSetBytes l, rest)
       end).

Fixpoint wire_read (fuel : nat) (bz : bytes) {struct fuel} : outcome (ritem * bytes) :=
  match fuel, bz with
  | S fuel, c :: rest =>
      if c <? 128 then Ok (RStr [c], rest)
      else if c <? 192 then
        obind (read_header 128 c rest) (fun '(n, rest) =>
        obind (cut n rest) (fun '(b, rest) =>
        if single b then Err ErrCanonSize else Ok (RStr b, rest)))
      else
        obind (read_header 192 c rest) (fun '(n, rest) =>
        obind (cut n rest) (fun '(body, rest) =>
        obind (wire_read_all fuel body) (fun l => Ok (RList l, rest))))
  | _, _ => Err ErrEOF
  end
with wire_read_all (fuel : nat) (bz : bytes) {struct fuel} : outcome (list ritem) :=
  match fuel, bz with
  | _, [] => Ok []
  | S fuel, _ =>
      obind (wire_read fuel bz) (fun '(it, rest) =>
      obind (wire_read_all fuel rest) (fun l => Ok (it :: l)))
  | _, _ => Err ErrEOF
  end.

#[export] Instance wire_items : RlpItems := {|
  rlp_item := wire;
  rlp_read bz := wire_read (2 * length bz) bz;
|}.

Lemma ritem_nested_ind (P : ritem -> Prop) :
  (forall b, P (RStr b)) -> (forall l, Forall P l -> P (RList l)) -> forall it, P it.
Proof.
  intros Hs Hl. fix IH 1. intros [b|l]; [apply Hs|apply Hl]. induction l as [|it l IHl]; constructor; [apply IH|exact IHl].
Qed.

Lemma cut_app b rest : cut (Z.of_nat (length b)) (b ++ rest) = Ok (b, rest).
Proof.
  unfold cut. rewrite length_app, Nat2Z.id. destruct (Z.ltb_spec (Z.of_nat (length b + length rest)) (Z.of_nat (length b))); [lia|].
  by rewrite take_app_length, drop_app_length.
Qed.

Lemma uBytes_nonempty n : 0 < n < 2 ^ 256 -> uBytes n <> [].
Proof. intros Hn E. pose proof (uSetBytes_uBytes n ltac:(unfold in_u256; lia)) as H. rewrite E in H. change (uSetBytes []) with 0 in H. lia. Qed.

(** A header is read back: its first byte says that it is one of [off]. *)
Lemma header_read off n : 0 <= n < 2 ^ 63 ->
  exists c tl, header off n = c :: tl /\ off <= c < off + 64 /\ forall rest, read_header off c (tl ++ rest) = Ok (n, rest).
Proof.
  intros Hn. unfold header, read_header. destruct (Z.ltb_spec n 56).
  - exists (off + n), []. split; [done|]. split; [lia|]. intros rest. destruct (Z.ltb_spec (off + n) (off + 56)); [|lia].
    do 2 f_equal. lia.
  - pose proof (length_uBytes 8 n ltac:(lia) ltac:(change (256 ^ Z.of_nat 8) with (2 ^ 64); lia)) as Hl.
    pose proof (uBytes_nonempty n ltac:(lia)) as Hne.
    eexists _, _. split; [done|]. destruct (uBytes n) as [|x b] eqn:E; [done|]. cbn [length] in *. split; [lia|]. intros rest.
    destruct (Z.ltb_spec (off + 55 + Z.of_nat (S (length b))) (off + 56)); [lia|].
    replace (off + 55 + Z.of_nat (S (length b)) - off - 55) with (Z.of_nat (length (x :: b))) by (cbn [length]; lia).
    rewrite cut_app. cbn [obind]. rewrite <- E, uSetBytes_uBytes by (unfold in_u256; lia).
    destruct (Z.ltb_spec n 56); [lia|]. destruct x; [by apply uBytes_head in E|done..].
Qed.

Lemma length_header off n : (1 <= length (header off n))%nat.
Proof. unfold header. case_match; cbn [length]; lia. Qed.

Lemma length_wire it : (1 <= length (wire it))%nat.
Proof.
  destruct it as [b|l]; cbn [wire]; [destruct (single b) eqn:E; [destruct b; cbn; [done|lia]|]|];
    rewrite length_app; [pose proof (length_header 128 (Z.of_nat (length b)))|pose proof (length_header 192 (Z.of_nat (length (concat (map wire l)))))]; lia.
Qed.

(** ** The laws *)

(** The fuel the reader needs. *)
Fixpoint need (it : ritem) : nat :=
  match it with
  | RStr _ => 1
  | RList l => S (foldr (fun x n => S (Nat.max (need x) n)) 0%nat l)
  end.

Definition need_all (l : list ritem) : nat := foldr (fun x n => S (Nat.max (need x) n)) 0%nat l.

Definition reads (it : ritem) : Prop := forall fuel rest,
  (need it <= fuel)%nat -> Z.of_nat (length (wire it)) < 2 ^ 63 -> wire_read fuel (wire it ++ rest) = Ok (it, rest).

Lemma reads_all l fuel : Forall reads l -> (need_all l <= fuel)%nat -> Z.of_nat (length (concat (map wire l))) < 2 ^ 63 ->
  wire_read_all fuel (concat (map wire l)) = Ok l.
Proof.
  intros Hl. revert fuel. induction Hl as [|it l Hit Hl IH]; intros fuel Hn Hs; [by destruct fuel|].
  cbn [need_all foldr map concat] in *. rewrite length_app in Hs. destruct fuel as [|fuel]; [lia|].
  change (foldr _ 0%nat l) with (need_all l) in Hn. pose proof (length_wire it) as H1.
  pose proof (Hit fuel (concat (map wire l)) ltac:(lia) ltac:(lia)) as E.
  cbn [wire_read_all]. destruct (wire it ++ concat (map wire l)) as [|c bz] eqn:Eb.
  { apply (f_equal length) in Eb. rewrite length_app in Eb. cbn in Eb. lia. }
  rewrite E. cbn [obind]. by rewrite IH by lia.
Qed.

Lemma wire_reads it : reads it.
Proof.
  induction it as [b|l IH] using ritem_nested_ind; intros fuel rest Hn Hs; cbn [need wire] in *; (destruct fuel as [|fuel]; [lia|]).
  - destruct (single b) eqn:E.
    + destruct b as [|x [|y b]]; try done. cbn [single] in E. apply andb_true_iff in E as [_ E].
      cbn [app wire_read]. by rewrite E.
    + rewrite length_app in Hs. destruct (header_read 128 (Z.of_nat (length b)) ltac:(lia)) as (c & tl & Eh & Hc & Hr).
      rewrite Eh, <- app_assoc. cbn [app wire_read]. destruct (Z.ltb_spec c 128); [lia|]. destruct (Z.ltb_spec c 192); [|lia].
      rewrite Hr. cbn [obind]. rewrite cut_app. cbn [obind]. by rewrite E.
  - rewrite length_app in Hs. destruct (header_read 192 (Z.of_nat (length (concat (map wire l)))) ltac:(lia)) as (c & tl & Eh & Hc & Hr).
    rewrite Eh, <- app_assoc. cbn [app wire_read]. destruct (Z.ltb_spec c 128); [lia|]. destruct (Z.ltb_spec c 192); [lia|].
    rewrite Hr. cbn [obind]. rewrite cut_app. cbn [obind]. rewrite reads_all by (try done; unfold need_all; lia). done.
Qed.

(** The fuel of [rlp_read] is enough: an item takes at least half of what it needs. *)
Lemma need_bound it : (need it <= 2 * length (wire it))%nat.
Proof.
  induction it as [b|l IH] using ritem_nested_ind; [cbn [need]; pose proof (length_wire (RStr b)); lia|].
  cbn [need wire]. rewrite length_app. pose proof (length_header 192 (Z.of_nat (length (concat (map wire l))))).
  enough (foldr (fun x n => S (Nat.max (need x) n)) 0%nat l <= 1 + 2 * length (concat (map wire l)))%nat by lia.
  clear H. induction IH as [|it l Hit Hl IHl]; [cbn; lia|]. cbn [foldr map concat]. rewrite length_app.
  pose proof (length_wire it). lia.
Qed.

#[export] Instance wire_laws : RlpItemsLaws.
Proof.
  split.
  - intros it rest Hl. cbn [rlp_read rlp_item wire_items] in *. apply wire_reads; [|done].
    rewrite length_app. pose proof (need_bound it). lia.
  - intros it E. cbn [rlp_item wire_items] in E. pose proof (length_wire it) as H. rewrite E in H. cbn in H. lia.
  - intros b. cbn [rlp_item wire_items wire]. destruct (single b); [done|]. rewrite length_app. lia.
  - intros it l Hin. cbn [rlp_item wire_items wire]. rewrite length_app.
    enough (length (wire it) <= length (concat (map wire l)))%nat by lia.
    induction Hin as [l|x l Hin IH]; cbn [map concat]; rewrite length_app; lia.
Qed.
