(* ===== verification/RlpProps.v ===== *)
(** * RlpProps: what the RLP forms determine

    The form of a transaction keeps every field but the payer's; what [SignerV1]
    signs determines the whole transaction, its payload and its chain.  The
    witnesses run on the wire format of [Rlp.v]. *)
From stdpp Require Import base gmap list strings.
From Stdlib Require Import ZArith Lia.
From S2P Require Import Prelude XErrors GoMonad LedgerKeys Units Proto TrxTypes Signer TrxProps Commands Rlp.

(** ** [Equal] *)

Lemma uCmp_0 a b : (uCmp a b =? 0) = true <-> a = b.
Proof. rewrite Z.eqb_eq. split; [apply uCmp_eq|]. intros ->. unfold uCmp. by rewrite Z.ltb_irrefl. Qed.

Lemma bytes_Compare_0 a b : (bytes_Compare a b =? 0) = true <-> a = b.
Proof. rewrite Z.eqb_eq. apply bytes_Compare_eq. Qed.

Lemma if_negb (b c : bool) : (if negb b then false else c) = true <-> b = true /\ c = true.
Proof. destruct b, c; naive_solver. Qed.

Lemma if_negb_true (b : bool) : (if negb b then false else true) = true <-> b = true.
Proof. by destruct b. Qed.

Lemma Options_Equal_spec a b : Options_Equal a b = true <-> a = b.
Proof.
  unfold Options_Equal. rewrite andb_true_iff, Nat.eqb_eq. revert b.
  induction a as [|x a IH]; intros [|y b]; cbn; [naive_solver..|].
  rewrite andb_true_iff, bytes_Compare_0. specialize (IH b). naive_solver.
Qed.

Lemma Proposal_Equal_spec p q : Proposal_Equal p q = true <-> p = q.
Proof.
  unfold Proposal_Equal. rewrite !if_negb, Options_Equal_spec, !Z.eqb_eq, bytes_Equal_true.
  destruct p, q; cbn; naive_solver.
Qed.

(** The payloads whose [Equal] looks at nothing. *)
Definition blind (p : option ITrxPayload) : Prop :=
  p = Some TrxPayloadAssetTransfer \/ p = Some TrxPayloadStaking.

Lemma payload_Equal_spec p q : payload_Equal p q = true <-> q = Some p \/ blind (Some p).
Proof.
  unfold blind. destruct p; cbn [payload_Equal]; try (split; [auto|done]);
    (destruct q as [[]|]; try (split; [done|]; intros [[=]|[[=]|[=]]]));
    rewrite ?if_negb, ?if_negb_true, ?andb_true_iff, ?bytes_Compare_0, ?bytes_Equal_true, ?uCmp_0, ?Z.eqb_eq, ?Proposal_Equal_spec;
    (split; [intros; destruct_and?; subst; auto|intros [[= ->]|[[=]|[=]]]]); auto.
Qed.

Lemma trx_Equal_spec tx tx0 :
  trx_Equal tx tx0 = true <-> same_signed tx tx0 /\ (tx_Payload tx0 = tx_Payload tx \/ blind (tx_Payload tx)).
Proof.
  unfold trx_Equal, same_signed. rewrite !if_negb, !bytes_Compare_0, !uCmp_0, !Z.eqb_eq.
  enough (match tx_Payload tx with
          | Some p => payload_Equal p (tx_Payload tx0)
          | None => match tx_Payload tx0 with Some _ => false | None => true end
          end = true <-> tx_Payload tx0 = tx_Payload tx \/ blind (tx_Payload tx)) as -> by tauto.
  unfold blind. destruct (tx_Payload tx) as [p|]; [apply payload_Equal_spec|].
  destruct (tx_Payload tx0); naive_solver.
Qed.

Lemma on_node_blind tx : tx_Payload tx = tx_Payload (on_node tx) \/ blind (tx_Payload tx).
Proof. unfold blind, on_node; cbn. destruct (tx_Payload tx) as [[]|]; auto. Qed.

Lemma on_node_not_blind tx : ~ blind (tx_Payload (on_node tx)).
Proof. unfold blind, on_node; cbn. destruct (tx_Payload tx) as [[]|]; naive_solver. Qed.

Section Forms.
Context `{RlpItems, !RlpItemsLaws} (pre : bytes -> Z -> bytes).

#[local] Hint Extern 0 RlpLib => exact (rlp_lib pre) : typeclass_instances.

(** C29. The RLP form of a transaction is decoded to the transaction without the
    payer and its signature, and without the payload of a transfer or a staking,
    which is empty.  [Equal] accepts the decoded transaction, and its answer does
    not depend on which of the two is asked exactly when no payload was dropped:
    the empty payloads are equal to everything, nothing is equal to them. *)
Theorem trx_rlp_roundtrip tx bz :
  tx_ints tx -> payload_fits tx -> rlp_EncodeToBytes tx = Ok bz -> Z.of_nat (length bz) < 2 ^ 63 ->
  let tx' := on_node (no_payer tx) in
  DecodeRLP bz = Ok tx' /\ trx_Equal tx tx' = true /\ (trx_Equal tx' tx = true <-> tx_Payload tx' = tx_Payload tx).
Proof.
  intros Hi Hf He Hl tx'. split; [by eapply trx_rlp_kept|]. rewrite !trx_Equal_spec.
  pose proof (on_node_blind tx) as Hb. pose proof (on_node_not_blind tx) as Hn.
  split; [split; [by repeat split|naive_solver]|]. split; [intros [_ [E|E]]; [done|by destruct Hn]|].
  intros E. split; [by repeat split|auto].
Qed.

Context `{CryptoLib}.

(** C26. What [SignerV1] signs determines the transaction and the chain: two
    transactions with the same preimage are decoded to the same transaction, with
    every field and the payload, but for the payer, the payer's signature and, for
    the sender, the signature, and were made for the same chain id; in particular
    a signature cannot be replayed on another chain. *)
Theorem preimage_binds_transaction (s s' : Signers) (tx tx' : Trx) isPayer b :
  tx_ints tx -> tx_ints tx' -> payload_fits tx -> payload_fits tx' ->
  in_u256 (chainIdNum s) -> in_u256 (chainIdNum s') -> Z.of_nat (length b) < 2 ^ 63 ->
  getPreimageV1 s tx isPayer = Ok b -> getPreimageV1 s' tx' isPayer = Ok b ->
  on_node (preimage_tx tx isPayer) = on_node (preimage_tx tx' isPayer) /\ chainIdNum s = chainIdNum s'.
Proof.
  intros Hi Hi' Hf Hf' Hc Hc' Hl Hp Hp'.
  destruct (preimage_binds_rlp s s' tx tx' isPayer b) as [(r & Er & Er') Ec]; try done; [apply items_prefix_free|].
  split; [|done]. apply preimageV1_inv in Hp as (r0 & e & Er0 & Ee & ->). rewrite Er in Er0. injection Er0 as <-.
  rewrite length_app in Hl.
  assert (DecodeRLP e = Ok (on_node (preimage_tx tx isPayer))) as D.
  { apply (trx_rlp_kept pre (preimage_tx tx isPayer)); [done..| |lia]. unfold rlp_EncodeToBytes. by rewrite Er. }
  assert (DecodeRLP e = Ok (on_node (preimage_tx tx' isPayer))) as D'.
  { apply (trx_rlp_kept pre (preimage_tx tx' isPayer)); [done..| |lia]. unfold rlp_EncodeToBytes. by rewrite Er'. }
  congruence.
Qed.

End Forms.

(** ** Witnesses *)

Module RlpWitness.

Definition w_prefix (id : bytes) (n : Z) : bytes := id ++ [n].
#[local] Hint Extern 0 RlpLib => exact (rlp_lib w_prefix) : typeclass_instances.
#[local] Instance w_crypto : CryptoLib := Toy_crypto.

(** A proposal with two options and a staking transaction, as they are made. *)
Definition w_proposal : Trx :=
  MkTrx 1 1700000000 3 (repeat 7 20) (repeat 0 20) 0 4000 250 TRX_PROPOSAL
    (Some (TrxPayloadProposal_ (MkTrxPayloadProposal [104; 105] 100 (-1) 400 257 [[1]; repeat 200 60]))) [] [] [].
Definition w_staking : Trx :=
  MkTrx 1 1700000000 4 (repeat 7 20) (repeat 7 20) (10 ^ 18) 4000 250 TRX_STAKING (Some TrxPayloadStaking)
    (repeat 5 65) (repeat 9 20) (repeat 6 65).

Definition w_bytes : bytes :=
  match rlp_EncodeToBytes w_staking with
  | Ok bz => bz
  | _ => []
  end.

Lemma trx_rlp_roundtrip_witness :
  DecodeRLP w_bytes = Ok (on_node (no_payer w_staking)) /\ trx_Equal w_staking (on_node (no_payer w_staking)) = true /\
  (trx_Equal (on_node (no_payer w_staking)) w_staking = true <-> tx_Payload (on_node (no_payer w_staking)) = tx_Payload w_staking).
Proof.
  apply (trx_rlp_roundtrip w_prefix w_staking w_bytes).
  - unfold tx_ints. by vm_compute.
  - unfold payload_fits. by vm_compute.
  - vm_compute. reflexivity.
  - by vm_compute.
Defined.

Lemma preimage_binds_transaction_witness :
  on_node (preimage_tx w_proposal false) = on_node (preimage_tx (with_payerSig (with_sig w_proposal [1]) [2]) false) /\
  chainIdNum (MkSigners [48] 1) = chainIdNum (MkSigners [] 1).
Proof.
  eapply (preimage_binds_transaction w_prefix (MkSigners [48] 1) (MkSigners [] 1) w_proposal
    (with_payerSig (with_sig w_proposal [1]) [2]) false).
  - unfold tx_ints. by vm_compute.
  - unfold tx_ints. by vm_compute.
  - unfold payload_fits. by vm_compute.
  - unfold payload_fits. by vm_compute.
  - by vm_compute.
  - by vm_compute.
  - shelve.
  - vm_compute. reflexivity.
  - vm_compute. reflexivity.
  Unshelve. by vm_compute.
Defined.

End RlpWitness.
