(* ===== verification/Jsonx.v ===== *)
(** * Jsonx: integers and names of the JSON texts

    [libs/jsonx]: two extensions of the JSON package.  Fields of 64-bit integers
    are written as decimal strings and read from strings and numbers, unless their
    tag says so already; names with underscores or a capital are written in camel
    case and read in both forms.  The package calls the extensions with the fields
    of a struct and gives them streams of tokens; it is not modelled.  Names are
    ASCII text.

    Shown: an integer of any kind and width is read back from the text written for
    it, whatever the field held before; a text that is no number is read as zero,
    and one that is too large for the field is cut to its width. *)
From stdpp Require Import base list strings.
From Stdlib Require Import ZArith Lia.
From S2P Require Import Prelude XErrors GoMonad HexBytes.

(** ** Integers *)

(** [reflect.Kind] *)
Inductive Kind : Type :=
| KInt | KInt8 | KInt16 | KInt32 | KInt64
| KUint | KUint8 | KUint16 | KUint32 | KUint64
| KOther.

#[global] Instance Kind_eq_dec : EqDecision Kind.
Proof. solve_decision. Defined.

Definition signed (k : Kind) : bool :=
  match k with KInt | KInt8 | KInt16 | KInt32 | KInt64 => true | _ => false end.

(** Bits of the kind on a 64-bit machine; zero for other kinds. *)
Definition width (k : Kind) : Z :=
  match k with
  | KInt8 | KUint8 => 8
  | KInt16 | KUint16 => 16
  | KInt32 | KUint32 => 32
  | KInt | KInt64 | KUint | KUint64 => 64
  | KOther => 0
  end.

(** The conversion [T(i)]. *)
Definition convert (k : Kind) (i : Z) : Z :=
  if signed k then (i + 2 ^ (width k - 1)) mod 2 ^ width k - 2 ^ (width k - 1) else i mod 2 ^ width k.

Definition in_kind (k : Kind) (v : Z) : Prop :=
  if signed k then - 2 ^ (width k - 1) <= v < 2 ^ (width k - 1) else 0 <= v < 2 ^ width k.

(** [strconv.ParseUint(s, 10, 64)] takes no sign. *)
Definition ParseUint (s : bytes) : outcome Z :=
  match parse_digits s with
  | None => Err (GoError "strconv.ParseUint: parsing %q: invalid syntax")
  | Some n => if n <? 2 ^ 64 then Ok n else Err (GoError "strconv.ParseUint: parsing %q: value out of range")
  end.

(** What comes next in the input: a string, a number with the values the package
    reads from it, or something else. *)
Inductive token : Type :=
| StringValue (s : bytes)
| NumberValue (ReadInt64 ReadUint64 : Z)
| OtherValue.

(** [integerCodec.IsEmpty], [Encode] and [Decode] on a field of the kind [k]: the
    string written, nothing for another kind; the value of the field afterwards. *)
Definition codec_IsEmpty (k : Kind) (v : Z) : bool :=
  match k with KOther => false | _ => v =? 0 end.

Definition codec_Encode (k : Kind) (v : Z) : option bytes :=
  match k with
  | KOther => None
  | KInt | KInt8 | KInt16 | KInt32 | KInt64 => Some (FormatInt v)
  | KUint | KUint8 | KUint16 | KUint32 | KUint64 => Some (Dec_text v)
  end.

Definition decodeSigned (k : Kind) (old : Z) (t : token) : Z :=
  match t with
  | StringValue s => match ParseInt s with Ok i => convert k i | _ => 0 end
  | NumberValue i _ => convert k i
  | OtherValue => old
  end.

Definition decodeUnsigned (k : Kind) (old : Z) (t : token) : Z :=
  match t with
  | StringValue s => match ParseUint s with Ok i => convert k i | _ => 0 end
  | NumberValue _ u => convert k u
  | OtherValue => old
  end.

Definition codec_Decode (k : Kind) (old : Z) (t : token) : Z :=
  match k with
  | KOther => old
  | KInt | KInt8 | KInt16 | KInt32 | KInt64 => decodeSigned k old t
  | KUint | KUint8 | KUint16 | KUint32 | KUint64 => decodeUnsigned k old t
  end.

(** [strings.Split] at one character *)
Fixpoint Split (sep : Z) (s : bytes) : list bytes :=
  match s with
  | [] => [[]]
  | c :: s' =>
      match Split sep s' with
      | [] => [[c]]
      | p :: ps => if c =? sep then [] :: p :: ps else (c :: p) :: ps
      end
  end.

(** [integerExtension.UpdateStructDescriptor] on one field: whether its encoder and
    decoder become a codec of its kind. *)
Fixpoint integer_binding (targets : list Kind) (kind : Kind) (jsonTags : bytes) : option Kind :=
  match targets with
  | [] => None
  | target :: rest =>
      if negb (bool_decide (kind = target)) then integer_binding rest kind jsonTags
      else if bytes_Equal jsonTags (text "-") then integer_binding rest kind jsonTags
      else if negb (bytes_Equal jsonTags []) && existsb (fun part => bytes_Equal part (text "string")) (Split 44 jsonTags)
      then None
      else Some kind
  end.

(** ** Names *)

Definition lower_char (c : Z) : Z := if (65 <=? c) && (c <=? 90) then c + 32 else c.

(** [strings.ToLower(p[:1]) + p[1:]] and [strings.ToUpper(p[:1]) + p[1:]] *)
Definition lower_first (p : bytes) : bytes := match p with [] => [] | c :: p' => lower_char c :: p' end.
Definition upper_first (p : bytes) : bytes := match p with [] => [] | c :: p' => upper_char c :: p' end.

Definition isFirstCharUpper (s : bytes) : bool :=
  match s with [] => false | c :: _ => (65 <=? c) && (c <=? 90) end.

Definition has_underscore (s : bytes) : bool := existsb (Z.eqb 95) s.

(** [toLowerFirstCamel]: empty parts are skipped, the first other one starts in
    lower case, the following ones in upper case. *)
Definition camel_step (out p : bytes) : bytes :=
  if bytes_Equal p [] then out
  else if bytes_Equal out [] then out ++ lower_first p
  else out ++ upper_first p.

Definition toLowerFirstCamel (s : bytes) : bytes :=
  if has_underscore s then fold_left camel_step (Split 95 s) []
  else lower_first s.

(** [camelCaseExtension.UpdateStructDescriptor] on one field: the names it is
    written as and read from, when they are changed. *)
Definition camel_binding (field jsonTag : bytes) : option (list bytes * list bytes) :=
  if bytes_Equal jsonTag (text "-") then None
  else
    let tagName :=
      if bytes_Equal jsonTag [] then field
      else match Split 44 jsonTag with
           | p :: _ => if bytes_Equal p [] then field else p
           | [] => field
           end in
    if has_underscore tagName || isFirstCharUpper tagName then
      let camelName := toLowerFirstCamel tagName in
      Some ([camelName], [camelName; tagName])
    else None.

(** ** Round trip *)

Lemma convert_id k v : k <> KOther -> in_kind k v -> convert k v = v.
Proof.
  unfold in_kind, convert. intros Hk Hv. assert (1 <= width k) by (destruct k; cbn; try lia; done).
  destruct (signed k); [|by rewrite Z.mod_small by lia].
  assert (2 ^ width k = 2 * 2 ^ (width k - 1)) as Hw by (rewrite <- Z.pow_succ_r by lia; f_equal; lia).
  rewrite Z.mod_small by lia. lia.
Qed.

Lemma in_kind_wide k v : in_kind k v -> if signed k then in_i64 v else 0 <= v < 2 ^ 64.
Proof. destruct k; cbn; unfold in_i64; lia. Qed.

Lemma ParseUint_Dec n : 0 <= n < 2 ^ 64 -> ParseUint (Dec_text n) = Ok n.
Proof.
  intros Hn. unfold ParseUint, parse_digits, Dec_text. pose proof (text_uint_text (N.to_uint (Z.to_N n))) as Ht.
  destruct (uint_text (N.to_uint (Z.to_N n))) as [|c t] eqn:Eu.
  - exfalso. cbn in Ht. injection Ht as Ht. pose proof (DecimalN.Unsigned.of_to (Z.to_N n)) as Ho.
    rewrite <- Ht in Ho. cbn in Ho. assert (n = 0) as -> by lia. cbn in Eu. done.
  - rewrite Ht. cbn [option_map]. rewrite DecimalN.Unsigned.of_to. destruct (Z.ltb_spec (Z.of_N (Z.to_N n)) (2 ^ 64)); [|lia].
    f_equal. lia.
Qed.

(** A field of any integer kind is read back from the string written for it,
    whatever it held before. *)
Theorem integers_roundtrip k v old :
  k <> KOther -> in_kind k v ->
  exists s, codec_Encode k v = Some s /\ codec_Decode k old (StringValue s) = v.
Proof.
  intros Hk Hv. pose proof (in_kind_wide _ _ Hv) as Hw. pose proof (convert_id _ _ Hk Hv) as Hc.
  destruct (signed k) eqn:Es.
  - exists (FormatInt v). split; [by destruct k|]. replace (codec_Decode k old (StringValue (FormatInt v))) with
      (decodeSigned k old (StringValue (FormatInt v))) by (by destruct k).
    cbn. by rewrite ParseInt_FormatInt.
  - exists (Dec_text v). split; [by destruct k|]. replace (codec_Decode k old (StringValue (Dec_text v))) with
      (decodeUnsigned k old (StringValue (Dec_text v))) by (by destruct k).
    cbn. by rewrite ParseUint_Dec.
Qed.

(** The integer extension takes over exactly the fields of its target kinds whose
    tag neither hides them nor asks for a string already. *)
Theorem integer_binding_spec targets kind tags :
  integer_binding targets kind tags = Some kind <->
  kind ∈ targets /\ tags <> text "-" /\ (tags = [] \/ text "string" ∉ Split 44 tags).
Proof.
  assert (Hex : existsb (fun part => bytes_Equal part (text "string")) (Split 44 tags) = true <-> text "string" ∈ Split 44 tags).
  { rewrite existsb_exists. setoid_rewrite bytes_Equal_true. rewrite list_elem_of_In. split; [intros (x & Hx & ->); done|eauto]. }
  induction targets as [|t targets IH]; cbn [integer_binding].
  - split; [done|]. by intros [?%elem_of_nil _].
  - destruct (bool_decide_reflect (kind = t)) as [<-|Hn]; cbn [negb].
    + destruct (bytes_Equal tags (text "-")) eqn:Et.
      * apply bytes_Equal_true in Et. rewrite IH. split; intros (_ & Hd & _); done.
      * assert (tags <> text "-") as Hd by (intros ->; by rewrite bytes_Equal_refl in Et).
        destruct (bytes_Equal tags []) eqn:E0; cbn [negb andb].
        { apply bytes_Equal_true in E0. split; [|done]. intros _. split; [by left|]. auto. }
        assert (tags <> []) as Hn0 by (intros ->; by rewrite bytes_Equal_refl in E0).
        destruct (existsb _ _) eqn:Ee.
        { split; [done|]. intros (_ & _ & [?|Hs]); [done|]. destruct Hs. by apply Hex. }
        split; [|done]. intros _. split; [by left|]. split; [done|]. right. intros Hin. apply Hex in Hin. congruence.
    + rewrite IH. split; intros (Hin & Hr); (split; [|exact Hr]); [by right|]. by apply elem_of_cons in Hin as [->|].
Qed.

(** Text that is no number is zero, and a number too large for the field is cut. *)
Example codec_forgives :
  codec_Decode KInt64 7 (StringValue (text "12a")) = 0 /\ codec_Decode KInt32 7 (StringValue (text "4294967297")) = 1.
Proof. by vm_compute. Qed.

(** ** Names are stable *)

Lemma Split_parts sep s : Forall (fun p => existsb (Z.eqb sep) p = false) (Split sep s).
Proof.
  induction s as [|c s IH]; cbn [Split]; [by repeat constructor|].
  destruct (Split sep s) as [|p ps] eqn:E.
  - exfalso. destruct s; cbn in E; [done|]. destruct (Split sep s); [done|]. by destruct (_ =? sep).
  - destruct (Z.eqb_spec c sep) as [->|Hn]; [by constructor|]. apply Forall_cons in IH as [Hp Hps]. constructor; [|done].
    cbn. rewrite Hp. destruct (Z.eqb_spec sep c); [congruence|done].
Qed.

(** A name the camel extension leaves as it is. *)
Definition camel (s : bytes) : Prop := has_underscore s = false /\ isFirstCharUpper s = false.

Lemma camel_lower_first p : has_underscore p = false -> camel (lower_first p).
Proof.
  destruct p as [|c p]; [done|]. unfold camel, has_underscore, isFirstCharUpper, lower_first, lower_char. cbn [existsb].
  rewrite orb_false_iff. intros [Hc Hp]. rewrite Hp, orb_false_r. apply Z.eqb_neq in Hc.
  destruct (Z.leb_spec 65 c), (Z.leb_spec c 90); cbn [andb]; split; rewrite ?Z.eqb_neq, ?andb_false_iff, ?Z.leb_gt; lia.
Qed.

Lemma camel_step_ok out p : camel out -> has_underscore p = false -> camel (camel_step out p).
Proof.
  intros [Ho Hf] Hp. unfold camel_step. destruct (bytes_Equal p []); [done|].
  destruct (bytes_Equal out []) eqn:E; [apply bytes_Equal_true in E as ->; by apply camel_lower_first|].
  destruct out as [|x out]; [done|]. split; [|done]. unfold has_underscore in *. rewrite existsb_app, Ho. cbn.
  destruct p as [|c p]; [done|]. cbn [upper_first existsb] in *. apply orb_false_iff in Hp as [Hc ->]. rewrite orb_false_r.
  unfold upper_char. apply Z.eqb_neq in Hc. destruct (Z.leb_spec 97 c), (Z.leb_spec c 122); cbn [andb]; apply Z.eqb_neq; lia.
Qed.

(** The name written is read again, the name of the tag too, and the extension
    would not change the written name. *)
Theorem camel_names_stable field tag to from :
  camel_binding field tag = Some (to, from) ->
  exists name tagName, to = [name] /\ from = [name; tagName] /\ camel name.
Proof.
  unfold camel_binding. destruct (bytes_Equal tag (text "-")); [done|]. set (tagName := if bytes_Equal tag [] then _ else _).
  destruct (_ || _); [|done]. intros [= <- <-]. exists (toLowerFirstCamel tagName), tagName. split; [done|]. split; [done|].
  unfold toLowerFirstCamel. destruct (has_underscore tagName) eqn:Eu; [|by apply camel_lower_first].
  pose proof (Split_parts 95 tagName) as Hp. assert (camel []) as Hc by done. revert Hc. generalize (@nil Z).
  induction Hp as [|p ps Hp Hps IH]; intros out Hc; cbn [fold_left]; [done|]. by apply IH, camel_step_ok.
Qed.

Lemma integers_roundtrip_witness :
  codec_Encode KInt64 (- 2 ^ 63) = Some (text "-9223372036854775808") /\
  exists s, codec_Encode KInt64 (- 2 ^ 63) = Some s /\ codec_Decode KInt64 5 (StringValue s) = - 2 ^ 63.
Proof.
  split; [vm_compute; reflexivity|]. apply (integers_roundtrip KInt64 (- 2 ^ 63) 5); [discriminate|]. cbn. lia.
Defined.
