(* ===== verification/SFilePV.v ===== *)
(** * SFilePV: the signing key of a validator and its last signature

    [types/crypto/sfile_pv.go].  The validator signs votes and proposals; to
    never sign two different messages for one height, round and step it keeps
    the last one, in memory and in a file, and gives a signature out only after
    the file is written.  The canonical messages of Tendermint, their encoding,
    the signature scheme and the JSON text of the file are parameters
    ([PVLib], with their documented behaviour in [PVLaws]).  The key is in a
    wallet file, written anew at every start. *)
From stdpp Require Import base list strings.
From Stdlib Require Import ZArith Lia.
From S2P Require Import Prelude XErrors GoMonad Signer Wallet.

Definition stepNone : Z := 0.
Definition stepPropose : Z := 1.
Definition stepPrevote : Z := 2.
Definition stepPrecommit : Z := 3.

(** [tmproto.PrevoteType] and [tmproto.PrecommitType] *)
Definition PrevoteType : Z := 1.
Definition PrecommitType : Z := 2.

(** What the code reads and writes of [tmproto.Vote] and [tmproto.Proposal];
    the other fields, which are signed, are [BlockID] bytes. *)
Record Vote := MkVote {
  vt_Type : Z;
  vt_Height : Z;
  vt_Round : Z;
  vt_BlockID : bytes;
  vt_Timestamp : Z;
  vt_Signature : bytes;
}.

Record Proposal := MkProposal {
  pr_Height : Z;
  pr_Round : Z;
  pr_BlockID : bytes;
  pr_Timestamp : Z;
  pr_Signature : bytes;
}.

(** The canonical messages: a timestamp and the rest. *)
Record Canonical := MkCanonical {
  cn_Rest : bytes;
  cn_Timestamp : Z;
}.

#[global] Instance Canonical_eq_dec : EqDecision Canonical.
Proof. solve_decision. Defined.

(** [nil] is [None]. *)
Record LastSignState := MkLastSignState {
  ls_Height : Z;
  ls_Round : Z;
  ls_Step : Z;
  ls_Signature : option bytes;
  ls_SignBytes : option bytes;
}.

Class PVLib : Type := {
  CanonicalizeVote : bytes -> Vote -> Canonical;
  CanonicalizeProposal : bytes -> Proposal -> Canonical;
  MarshalVote : Canonical -> bytes;
  MarshalProposal : Canonical -> bytes;
  UnmarshalVote : bytes -> outcome Canonical;
  UnmarshalProposal : bytes -> outcome Canonical;
  PrivKey_Sign : bytes -> bytes -> outcome bytes;
  lss_Marshal : LastSignState -> outcome bytes;
  lss_Unmarshal : bytes -> outcome LastSignState;
}.

Definition set_vote_time (t : Z) (v : Vote) : Vote :=
  MkVote (vt_Type v) (vt_Height v) (vt_Round v) (vt_BlockID v) t (vt_Signature v).
Definition set_vote_sig (sg : bytes) (v : Vote) : Vote :=
  MkVote (vt_Type v) (vt_Height v) (vt_Round v) (vt_BlockID v) (vt_Timestamp v) sg.
Definition set_prop_time (t : Z) (p : Proposal) : Proposal :=
  MkProposal (pr_Height p) (pr_Round p) (pr_BlockID p) t (pr_Signature p).
Definition set_prop_sig (sg : bytes) (p : Proposal) : Proposal :=
  MkProposal (pr_Height p) (pr_Round p) (pr_BlockID p) (pr_Timestamp p) sg.

(** The states the file stores: absent or non-empty byte strings. *)
Definition lss_stored (l : LastSignState) : Prop :=
  ls_Signature l <> Some [] /\ ls_SignBytes l <> Some [].

Class PVLaws `{PVLib} : Prop := {
  Unmarshal_vote : forall c, UnmarshalVote (MarshalVote c) = Ok c;
  Unmarshal_proposal : forall c, UnmarshalProposal (MarshalProposal c) = Ok c;
  canonical_vote : forall chain v sg t,
    CanonicalizeVote chain (set_vote_sig sg v) = CanonicalizeVote chain v /\
    CanonicalizeVote chain (set_vote_time t v) =
      MkCanonical (cn_Rest (CanonicalizeVote chain v)) t /\
    cn_Timestamp (CanonicalizeVote chain v) = vt_Timestamp v;
  canonical_proposal : forall chain p sg t,
    CanonicalizeProposal chain (set_prop_sig sg p) = CanonicalizeProposal chain p /\
    CanonicalizeProposal chain (set_prop_time t p) =
      MkCanonical (cn_Rest (CanonicalizeProposal chain p)) t /\
    cn_Timestamp (CanonicalizeProposal chain p) = pr_Timestamp p;
  Marshal_nonempty : forall c, MarshalVote c <> [] /\ MarshalProposal c <> [];
  Sign_nonempty : forall k m, PrivKey_Sign k m <> Ok [];
  lss_roundtrip : forall l, lss_stored l -> exists b, lss_Marshal l = Ok b /\ lss_Unmarshal b = Ok l;
}.

Definition voteToStep (v : Vote) : outcome Z :=
  if vt_Type v =? PrevoteType then Ok stepPrevote
  else if vt_Type v =? PrecommitType then Ok stepPrecommit
  else Panic.

Definition CheckHRS (lss : LastSignState) (height round step : Z) : outcome bool :=
  if height <? ls_Height lss then Err (From_ (GoError "height regression. Got %v, last height %v"))
  else if ls_Height lss =? height then
    if round <? ls_Round lss
    then Err (From_ (GoError "round regression at height %v. Got %v, last round %v"))
    else if ls_Round lss =? round then
      if step <? ls_Step lss
      then Err (From_ (GoError "step regression at height %v round %v. Got %v, last step %v"))
      else if ls_Step lss =? step then
        match ls_SignBytes lss with
        | Some _ => match ls_Signature lss with None => Panic | Some _ => Ok true end
        | None => Err (NewOrdinary "no SignBytes found")
        end
      else Ok false
    else Ok false
  else Ok false.

(** The validator in memory and its file. *)
Record SFilePV := MkSFilePV {
  pv_PrivKey : bytes;
  pv_LastSignState : LastSignState;
  pv_file : bytes;
}.

Section Signing.
Context `{PVLib}.
Abbreviation PM := (M SFilePV).

Definition VoteSignBytes (chainID : bytes) (v : Vote) : bytes := MarshalVote (CanonicalizeVote chainID v).
Definition ProposalSignBytes (chainID : bytes) (p : Proposal) : bytes :=
  MarshalProposal (CanonicalizeProposal chainID p).

(** [Save]: the file is replaced atomically; the path is set. *)
Definition lss_Save : PM unit :=
  fun pv =>
    match lss_Marshal (pv_LastSignState pv) with
    | Ok b => (Ok tt, MkSFilePV (pv_PrivKey pv) (pv_LastSignState pv) b)
    | _ => (Panic, pv)
    end.

Definition set_lss (l : LastSignState) (pv : SFilePV) : SFilePV := MkSFilePV (pv_PrivKey pv) l (pv_file pv).

Definition saveSigned (height round step : Z) (signBytes sg : bytes) : PM unit :=
  modify (set_lss (MkLastSignState height round step (Some sg) (Some signBytes))) ;;;
  lss_Save.

(** The timestamps are set to one value before the comparison. *)
Definition checkVotesOnlyDifferByTimestamp (lastSignBytes newSignBytes : bytes) : outcome (Z * bool) :=
  match UnmarshalVote lastSignBytes, UnmarshalVote newSignBytes with
  | Ok lastVote, Ok newVote => Ok (cn_Timestamp lastVote, bytes_Equal (cn_Rest newVote) (cn_Rest lastVote))
  | _, _ => Panic
  end.

Definition checkProposalsOnlyDifferByTimestamp (lastSignBytes newSignBytes : bytes) : outcome (Z * bool) :=
  match UnmarshalProposal lastSignBytes, UnmarshalProposal newSignBytes with
  | Ok lastProp, Ok newProp => Ok (cn_Timestamp lastProp, bytes_Equal (cn_Rest newProp) (cn_Rest lastProp))
  | _, _ => Panic
  end.

(** [signVote]: the vote with its signature, and its timestamp, set. *)
Definition signVote (chainID : bytes) (vote : Vote) : PM Vote :=
  let! step := lift (voteToStep vote) in
  let! lss := gets pv_LastSignState in
  let! sameHRS := lift (CheckHRS lss (vt_Height vote) (vt_Round vote) step) in
  let signBytes := VoteSignBytes chainID vote in
  if sameHRS : bool then
    let last := default [] (ls_SignBytes lss) in
    let sg := default [] (ls_Signature lss) in
    if bytes_Equal signBytes last then ret (set_vote_sig sg vote)
    else
      let! r := lift (checkVotesOnlyDifferByTimestamp last signBytes) in
      if snd r then ret (set_vote_sig sg (set_vote_time (fst r) vote))
      else throw (From_ (GoError "conflicting data"))
  else
    let! key := gets pv_PrivKey in
    let! sg := lift (PrivKey_Sign key signBytes) in
    saveSigned (vt_Height vote) (vt_Round vote) step signBytes sg ;;;
    ret (set_vote_sig sg vote).

Definition signProposal (chainID : bytes) (prop : Proposal) : PM Proposal :=
  let! lss := gets pv_LastSignState in
  let! sameHRS := lift (CheckHRS lss (pr_Height prop) (pr_Round prop) stepPropose) in
  let signBytes := ProposalSignBytes chainID prop in
  if sameHRS : bool then
    let last := default [] (ls_SignBytes lss) in
    let sg := default [] (ls_Signature lss) in
    if bytes_Equal signBytes last then ret (set_prop_sig sg prop)
    else
      let! r := lift (checkProposalsOnlyDifferByTimestamp last signBytes) in
      if snd r then ret (set_prop_sig sg (set_prop_time (fst r) prop))
      else throw (From_ (GoError "conflicting data"))
  else
    let! key := gets pv_PrivKey in
    let! sg := lift (PrivKey_Sign key signBytes) in
    saveSigned (pr_Height prop) (pr_Round prop) stepPropose signBytes sg ;;;
    ret (set_prop_sig sg prop).

Definition wrap_err {S A} (msg : string) (m : M S A) : M S A :=
  let! r := try m in
  match r with
  | inl a => ret a
  | inr _ => throw (From_ (GoError msg))
  end.

Definition SignVote (chainID : bytes) (vote : Vote) : PM Vote :=
  wrap_err "error signing vote: %v" (signVote chainID vote).

Definition SignProposal (chainID : bytes) (prop : Proposal) : PM Proposal :=
  wrap_err "error signing proposal: %v" (signProposal chainID prop).

(** [NewSFilePV]: nothing signed yet. *)
Definition NewLastSignState : LastSignState := MkLastSignState 0 0 stepNone None None.

(** ** The files of the key and of the state *)

Context `{CryptoLib, WalletLib}.

(** [tmos.Exit] and [panic] end the process. *)
Definition or_exit {A} (o : outcome A) : outcome A := match o with Ok a => Ok a | _ => Panic end.

(** [SFilePVKey.SaveWith]: what is written to the key file.  The bytes of a private
    key are a slice without spare capacity. *)
Definition SFilePVKey_SaveWith (key : bytes) (s : option bytes) (salt iv : bytes) : outcome bytes :=
  or_exit (obind (NewWalletKeyWith key (length key) s salt iv) Save).

Definition loadKey (keyFile s : option bytes) : outcome bytes :=
  match keyFile with
  | None => Panic
  | Some b =>
      obind (or_exit (wk_Unmarshal b)) (fun walKey =>
      obind (or_exit (Unlock walKey s)) (fun walKey =>
      Ok (default [] (wk_prvKey walKey))))
  end.

Definition loadSFilePV (keyFile stateFile : option bytes) (loadState : bool) (s : option bytes) : outcome SFilePV :=
  obind (loadKey keyFile s) (fun key =>
  if loadState then
    match stateFile with
    | None => Panic
    | Some b => obind (or_exit (lss_Unmarshal b)) (fun l => Ok (MkSFilePV key l b))
    end
  else Ok (MkSFilePV key NewLastSignState (default [] stateFile))).

Definition NewSFilePV (key : bytes) : SFilePV := MkSFilePV key NewLastSignState [].

(** [SFilePV.SaveWith], returning the new contents of the key file. *)
Definition pv_SaveWith (s : option bytes) (salt iv : bytes) : PM bytes :=
  let! key := gets pv_PrivKey in
  let! kf := lift (SFilePVKey_SaveWith key s salt iv) in
  lss_Save ;;;
  ret kf.

Definition ResetWith (s : option bytes) (salt iv : bytes) : PM bytes :=
  modify (set_lss NewLastSignState) ;;;
  pv_SaveWith s salt iv.

(** The key [fresh] is generated when there is no key file. *)
Definition LoadOrGenSFilePV (keyFile stateFile s : option bytes) (fresh salt iv : bytes) : outcome (bytes * SFilePV) :=
  obind (match keyFile with
         | Some _ => loadSFilePV keyFile stateFile true s
         | None => Ok (NewSFilePV fresh)
         end) (fun pv =>
  match pv_SaveWith s salt iv pv with
  | (Ok kf, pv') => Ok (kf, pv')
  | _ => Panic
  end).

End Signing.
