(* ===== verification/SFilePVProps.v ===== *)
(** * SFilePVProps: a validator never signs twice

    The validator as a machine: it signs votes and proposals, refuses some, may
    crash at any point of a call, before or after its file is written, and
    restarts from the file.  The signatures it gave out never cover two
    different messages of one height, round and step. *)
From stdpp Require Import base list strings.
From Stdlib Require Import ZArith Lia.
From S2P Require Import Prelude XErrors GoMonad Signer Wallet SFilePV.

Abbreviation HRS := (Z * Z * Z)%type.

Definition hrs (l : LastSignState) : HRS := (ls_Height l, ls_Round l, ls_Step l).

Definition hrs_lt (a b : HRS) : Prop :=
  let '(h, r, s) := a in let '(h', r', s') := b in
  h < h' \/ h = h' /\ (r < r' \/ r = r' /\ s < s').

Lemma hrs_lt_irrefl a : ~ hrs_lt a a.
Proof. destruct a as [[h r] s]. cbn. lia. Qed.

Lemma hrs_lt_trans a b c : hrs_lt a b -> hrs_lt b c -> hrs_lt a c.
Proof. destruct a as [[? ?] ?], b as [[? ?] ?], c as [[? ?] ?]. cbn. lia. Qed.

(** A call returns without signing only for the very same position. *)
Lemma CheckHRS_inv l h r s b :
  CheckHRS l h r s = Ok b ->
  if b then hrs l = (h, r, s) /\ exists m sg, ls_SignBytes l = Some m /\ ls_Signature l = Some sg
  else hrs_lt (hrs l) (h, r, s).
Proof.
  unfold CheckHRS, hrs, hrs_lt. destruct (Z.ltb_spec h (ls_Height l)); [done|].
  destruct (Z.eqb_spec (ls_Height l) h); [|intros [= <-]; lia].
  destruct (Z.ltb_spec r (ls_Round l)); [done|].
  destruct (Z.eqb_spec (ls_Round l) r); [|intros [= <-]; lia].
  destruct (Z.ltb_spec s (ls_Step l)); [done|].
  destruct (Z.eqb_spec (ls_Step l) s); [|intros [= <-]; lia].
  destruct (ls_SignBytes l) as [m|]; [|done]. destruct (ls_Signature l) as [sg|]; [|done].
  intros [= <-]. subst. eauto.
Qed.

Section Machine.
Context `{PVLib, CryptoLib, WalletLib}.

(** A signature given out: its position, the bytes it signs, and itself. *)
Record released := MkReleased {
  re_hrs : HRS;
  re_msg : bytes;
  re_sig : bytes;
}.

(** The process, unless it is down, and the files and signatures that outlive it. *)
Record machine := MkMachine {
  mc_pv : option SFilePV;
  mc_key : bytes;
  mc_file : bytes;
  mc_log : list released;
}.

Context (key : bytes) (pass : option bytes).

Definition vote_hrs (v : Vote) (step : Z) : HRS := (vt_Height v, vt_Round v, step).
Definition prop_hrs (p : Proposal) : HRS := (pr_Height p, pr_Round p, stepPropose).

Inductive mc_step : machine -> machine -> Prop :=
| step_vote pv kf log chain v v' pv' step :
    voteToStep v = Ok step -> signVote chain v pv = (Ok v', pv') ->
    mc_step (MkMachine (Some pv) kf (pv_file pv) log)
      (MkMachine (Some pv') kf (pv_file pv')
         (MkReleased (vote_hrs v' step) (VoteSignBytes chain v') (vt_Signature v') :: log))
| step_proposal pv kf log chain p p' pv' :
    signProposal chain p pv = (Ok p', pv') ->
    mc_step (MkMachine (Some pv) kf (pv_file pv) log)
      (MkMachine (Some pv') kf (pv_file pv')
         (MkReleased (prop_hrs p') (ProposalSignBytes chain p') (pr_Signature p') :: log))
| step_vote_refused pv kf log chain v e pv' :
    signVote chain v pv = (Err e, pv') ->
    mc_step (MkMachine (Some pv) kf (pv_file pv) log) (MkMachine (Some pv') kf (pv_file pv') log)
| step_proposal_refused pv kf log chain p e pv' :
    signProposal chain p pv = (Err e, pv') ->
    mc_step (MkMachine (Some pv) kf (pv_file pv) log) (MkMachine (Some pv') kf (pv_file pv') log)
| step_crash pv kf log :
    mc_step (MkMachine (Some pv) kf (pv_file pv) log) (MkMachine None kf (pv_file pv) log)
| step_vote_crash pv kf log chain v :       (* the file is written, nothing is given out *)
    mc_step (MkMachine (Some pv) kf (pv_file pv) log)
      (MkMachine None kf (pv_file (snd (signVote chain v pv))) log)
| step_proposal_crash pv kf log chain p :
    mc_step (MkMachine (Some pv) kf (pv_file pv) log)
      (MkMachine None kf (pv_file (snd (signProposal chain p pv))) log)
| step_restart kf file log fresh salt iv kf' pv :
    length iv = 16%nat -> LoadOrGenSFilePV (Some kf) (Some file) pass fresh salt iv = Ok (kf', pv) ->
    mc_step (MkMachine None kf file log) (MkMachine (Some pv) kf' (pv_file pv) log)
| step_restart_crash kf file log fresh salt iv kf' pv :    (* only the key file is written *)
    length iv = 16%nat -> LoadOrGenSFilePV (Some kf) (Some file) pass fresh salt iv = Ok (kf', pv) ->
    mc_step (MkMachine None kf file log) (MkMachine None kf' file log).

(** A new validator with the generated key [key]. *)
Inductive mc_reach : machine -> Prop :=
| reach_new salt iv kf pv :
    length iv = 16%nat -> LoadOrGenSFilePV None None pass key salt iv = Ok (kf, pv) ->
    mc_reach (MkMachine (Some pv) kf (pv_file pv) [])
| reach_step s s' : mc_reach s -> mc_step s s' -> mc_reach s'.

(** ** The last sign state *)

Record lss_ok (l : LastSignState) : Prop := {
  lo_stored : lss_stored l;
  lo_signed : forall m sg, ls_SignBytes l = Some m -> ls_Signature l = Some sg -> PrivKey_Sign key m = Ok sg;
  lo_prop : forall m, ls_SignBytes l = Some m -> ls_Step l = stepPropose -> exists c, m = MarshalProposal c;
  lo_vote : forall m, ls_SignBytes l = Some m -> ls_Step l = stepPrevote \/ ls_Step l = stepPrecommit ->
    exists c, m = MarshalVote c;
}.

(** The validator in memory agrees with its file. *)
Record pv_ok (pv : SFilePV) : Prop := {
  po_key : pv_PrivKey pv = key;
  po_file : lss_Unmarshal (pv_file pv) = Ok (pv_LastSignState pv);
  po_lss : lss_ok (pv_LastSignState pv);
}.

(** [l'] follows [l] at the position [p], with signature [sg] on [m]. *)
Definition signed_at (l l' : LastSignState) (p : HRS) (m sg : bytes) : Prop :=
  (l' = l \/ hrs_lt (hrs l) (hrs l')) /\ hrs l' = p /\
  ls_SignBytes l' = Some m /\ ls_Signature l' = Some sg.

Context `{!PVLaws, !WalletLaws} (Hkey : key <> []).

Lemma pv_ok_unique pv pv' : pv_file pv = pv_file pv' -> pv_ok pv -> pv_ok pv' -> pv = pv'.
Proof. destruct pv, pv'. intros Ef [Hk Hf _] [Hk' Hf' _]. cbn in *. congruence. Qed.

Lemma saveSigned_ok pv h r s m sg :
  pv_ok pv -> lss_ok (MkLastSignState h r s (Some sg) (Some m)) ->
  exists pv', saveSigned h r s m sg pv = (Ok tt, pv') /\ pv_ok pv' /\
    pv_LastSignState pv' = MkLastSignState h r s (Some sg) (Some m).
Proof.
  intros Hpv Hl. destruct (lss_roundtrip _ (lo_stored _ Hl)) as (b & Hm & Hu).
  unfold saveSigned, bind, modify, lss_Save. cbn. rewrite Hm. eexists. split; [done|]. split; [|done].
  split; cbn; [apply (po_key _ Hpv)|done|done].
Qed.

Lemma voteToStep_cases v s : voteToStep v = Ok s -> s = stepPrevote \/ s = stepPrecommit.
Proof. unfold voteToStep. destruct (vt_Type v =? PrevoteType), (vt_Type v =? PrecommitType); intros [= <-]; auto. Qed.

Lemma lss_ok_vote chain v step sg :
  step = stepPrevote \/ step = stepPrecommit -> PrivKey_Sign key (VoteSignBytes chain v) = Ok sg ->
  lss_ok (MkLastSignState (vt_Height v) (vt_Round v) step (Some sg) (Some (VoteSignBytes chain v))).
Proof.
  intros Hs Hsg. split; cbn.
  - split; intros [= E]; [subst; by apply (Sign_nonempty _ _ Hsg)|by apply (proj1 (Marshal_nonempty _) E)].
  - congruence.
  - intros m _ ->. destruct Hs; done.
  - intros m [= <-] _. by eexists.
Qed.

Lemma lss_ok_prop chain p sg :
  PrivKey_Sign key (ProposalSignBytes chain p) = Ok sg ->
  lss_ok (MkLastSignState (pr_Height p) (pr_Round p) stepPropose (Some sg) (Some (ProposalSignBytes chain p))).
Proof.
  intros Hsg. split; cbn.
  - split; intros [= E]; [subst; by apply (Sign_nonempty _ _ Hsg)|by apply (proj2 (Marshal_nonempty _) E)].
  - congruence.
  - intros m [= <-] _. by eexists.
  - by intros m _ [Hs|Hs].
Qed.

(** The bytes a vote signs do not depend on its signature, and a vote that
    takes the rest and the time of a canonical one signs the same bytes. *)
Lemma VoteSignBytes_sig chain v sg : VoteSignBytes chain (set_vote_sig sg v) = VoteSignBytes chain v.
Proof. unfold VoteSignBytes. by rewrite (proj1 (canonical_vote chain v sg 0)). Qed.

Lemma VoteSignBytes_time chain v c :
  cn_Rest (CanonicalizeVote chain v) = cn_Rest c -> VoteSignBytes chain (set_vote_time (cn_Timestamp c) v) = MarshalVote c.
Proof.
  intros E. unfold VoteSignBytes. destruct (canonical_vote chain v [] (cn_Timestamp c)) as (_ & -> & _).
  rewrite E. by destruct c.
Qed.

Lemma ProposalSignBytes_sig chain p sg : ProposalSignBytes chain (set_prop_sig sg p) = ProposalSignBytes chain p.
Proof. unfold ProposalSignBytes. by rewrite (proj1 (canonical_proposal chain p sg 0)). Qed.

Lemma ProposalSignBytes_time chain p c :
  cn_Rest (CanonicalizeProposal chain p) = cn_Rest c ->
  ProposalSignBytes chain (set_prop_time (cn_Timestamp c) p) = MarshalProposal c.
Proof.
  intros E. unfold ProposalSignBytes. destruct (canonical_proposal chain p [] (cn_Timestamp c)) as (_ & -> & _).
  rewrite E. by destruct c.
Qed.

Lemma signVote_spec chain v pv :
  pv_ok pv ->
  wp (signVote chain v) (fun o pv' => pv_ok pv' /\
    match o with
    | Ok v' => exists step, voteToStep v = Ok step /\
        signed_at (pv_LastSignState pv) (pv_LastSignState pv') (vote_hrs v' step)
          (VoteSignBytes chain v') (vt_Signature v')
    | _ => pv' = pv
    end) pv.
Proof.
  intros Hpv. unfold signVote. apply wp_bind, wp_lift. destruct (voteToStep v) as [step|e|] eqn:Est; [|done..].
  apply wp_bind, wp_gets, wp_bind, wp_lift. pose proof (po_lss _ Hpv) as Hl.
  destruct (CheckHRS _ _ _ _) as [same|e|] eqn:Ec; [|done..]. apply CheckHRS_inv in Ec. destruct same.
  - destruct Ec as (Eh & m & sg & Em & Esg). rewrite Em, Esg. cbn [from_option id].
    destruct (bytes_Equal _ _) eqn:Eb.
    + apply bytes_Equal_true in Eb. apply wp_ret. split; [done|]. exists step. split; [done|].
      split; [by left|]. rewrite VoteSignBytes_sig. split; [done|]. split; [congruence|done].
    + destruct (lo_vote _ Hl m Em) as [c ->]; [injection Eh as _ _ ->; by eapply voteToStep_cases|].
      apply wp_bind, wp_lift. unfold checkVotesOnlyDifferByTimestamp, VoteSignBytes at 1. rewrite !Unmarshal_vote.
      destruct (bytes_Equal (cn_Rest _) _) eqn:Er; cbn [fst snd]; [|done].
      apply bytes_Equal_true in Er. apply wp_ret. split; [done|]. exists step. split; [done|].
      split; [by left|]. rewrite VoteSignBytes_sig, VoteSignBytes_time by done. split; [done|]. split; [done|done].
  - apply wp_bind, wp_gets, wp_bind, wp_lift. rewrite (po_key _ Hpv).
    destruct (PrivKey_Sign key (VoteSignBytes chain v)) as [sg|e|] eqn:Es; [|done..].
    destruct (saveSigned_ok pv (vt_Height v) (vt_Round v) step (VoteSignBytes chain v) sg Hpv) as (pv' & E & Hpv' & El);
      [apply lss_ok_vote; [by eapply voteToStep_cases|done]|].
    apply wp_bind. unfold wp at 1. rewrite E. cbn [fst snd]. apply wp_ret. split; [done|]. exists step. split; [done|].
    unfold signed_at. rewrite El, VoteSignBytes_sig. split; [by right|]. done.
Qed.

Lemma signProposal_spec chain p pv :
  pv_ok pv ->
  wp (signProposal chain p) (fun o pv' => pv_ok pv' /\
    match o with
    | Ok p' => signed_at (pv_LastSignState pv) (pv_LastSignState pv') (prop_hrs p')
          (ProposalSignBytes chain p') (pr_Signature p')
    | _ => pv' = pv
    end) pv.
Proof.
  intros Hpv. unfold signProposal. apply wp_bind, wp_gets, wp_bind, wp_lift. pose proof (po_lss _ Hpv) as Hl.
  destruct (CheckHRS _ _ _ _) as [same|e|] eqn:Ec; [|done..]. apply CheckHRS_inv in Ec. destruct same.
  - destruct Ec as (Eh & m & sg & Em & Esg). rewrite Em, Esg. cbn [from_option id].
    destruct (bytes_Equal _ _) eqn:Eb.
    + apply bytes_Equal_true in Eb. apply wp_ret. split; [done|].
      split; [by left|]. rewrite ProposalSignBytes_sig. split; [done|]. split; [congruence|done].
    + destruct (lo_prop _ Hl m Em) as [c ->]; [by injection Eh|].
      apply wp_bind, wp_lift. unfold checkProposalsOnlyDifferByTimestamp, ProposalSignBytes at 1. rewrite !Unmarshal_proposal.
      destruct (bytes_Equal (cn_Rest _) _) eqn:Er; cbn [fst snd]; [|done].
      apply bytes_Equal_true in Er. apply wp_ret. split; [done|].
      split; [by left|]. rewrite ProposalSignBytes_sig, ProposalSignBytes_time by done. split; [done|]. split; [done|done].
  - apply wp_bind, wp_gets, wp_bind, wp_lift. rewrite (po_key _ Hpv).
    destruct (PrivKey_Sign key (ProposalSignBytes chain p)) as [sg|e|] eqn:Es; [|done..].
    destruct (saveSigned_ok pv (pr_Height p) (pr_Round p) stepPropose (ProposalSignBytes chain p) sg Hpv) as (pv' & E & Hpv' & El);
      [by apply lss_ok_prop|].
    apply wp_bind. unfold wp at 1. rewrite E. cbn [fst snd]. apply wp_ret. split; [done|].
    unfold signed_at. rewrite El, ProposalSignBytes_sig. split; [by right|]. done.
Qed.

(** ** The invariant of the machine *)

(** What was given out is at or before the last sign state, and is its signature
    when it is at it. *)
Record log_ok (l : LastSignState) (log : list released) : Prop := {
  lg_signed : forall e, e ∈ log -> PrivKey_Sign key (re_msg e) = Ok (re_sig e);
  lg_before : forall e, e ∈ log -> hrs_lt (re_hrs e) (hrs l) \/
    re_hrs e = hrs l /\ ls_SignBytes l = Some (re_msg e) /\ ls_Signature l = Some (re_sig e);
  lg_unique : forall e e', e ∈ log -> e' ∈ log -> re_hrs e = re_hrs e' -> e = e';
}.

Definition mc_ok (s : machine) : Prop :=
  exists pv, pv_ok pv /\ pv_file pv = mc_file s /\ log_ok (pv_LastSignState pv) (mc_log s) /\
    (mc_pv s = None \/ mc_pv s = Some pv) /\ loadKey (Some (mc_key s)) pass = Ok key.

(** ** Files *)

(** The key file that is written holds the key. *)
Lemma saved_key salt iv kf :
  length iv = 16%nat -> SFilePVKey_SaveWith key pass salt iv = Ok kf -> loadKey (Some kf) pass = Ok key.
Proof.
  intros Hiv. unfold SFilePVKey_SaveWith. destruct (NewWalletKeyWith _ _ _ _ _) as [wk|e|] eqn:En; [|done..]. cbn [obind].
  destruct (Save wk) as [b|e|] eqn:Es; [|done..]. intros [= <-]. unfold loadKey. rewrite (wk_json _ _ Es). cbn [or_exit obind].
  by rewrite (new_wallet_unlocks _ _ _ _ _ Hkey Hiv En).
Qed.

Lemma SaveWith_ok salt iv pv kf pv' :
  length iv = 16%nat -> pv_PrivKey pv = key -> lss_ok (pv_LastSignState pv) ->
  pv_SaveWith pass salt iv pv = (Ok kf, pv') ->
  pv_ok pv' /\ pv_LastSignState pv' = pv_LastSignState pv /\ loadKey (Some kf) pass = Ok key.
Proof.
  intros Hiv Hk Hl. unfold pv_SaveWith, bind, gets, lift, lss_Save, ret. cbn. rewrite Hk.
  destruct (SFilePVKey_SaveWith _ _ _ _) as [kf0|e|] eqn:Ek; [|done..].
  destruct (lss_roundtrip _ (lo_stored _ Hl)) as (b & -> & Hu). intros [= <- <-].
  split; [by split|]. split; [done|]. by apply (saved_key salt iv).
Qed.

(** A start on good files gives the state of the file. *)
Lemma restart_ok kf pv fresh salt iv kf' pv' :
  length iv = 16%nat -> pv_ok pv -> loadKey (Some kf) pass = Ok key ->
  LoadOrGenSFilePV (Some kf) (Some (pv_file pv)) pass fresh salt iv = Ok (kf', pv') ->
  pv_ok pv' /\ pv_LastSignState pv' = pv_LastSignState pv /\ loadKey (Some kf') pass = Ok key.
Proof.
  intros Hiv Hpv Hkf. unfold LoadOrGenSFilePV, loadSFilePV. rewrite Hkf. cbn [obind]. rewrite (po_file _ Hpv). cbn [or_exit obind].
  set (pv0 := MkSFilePV _ _ _). destruct (pv_SaveWith pass salt iv pv0) as [[kf0|e|] pv1] eqn:Es; [|done..].
  intros [= <- <-]. by apply (SaveWith_ok salt iv pv0); [| |apply Hpv|].
Qed.

Lemma log_ok_later l l' log : log_ok l log -> l' = l \/ hrs_lt (hrs l) (hrs l') -> log_ok l' log.
Proof.
  intros Hlog [-> | Hlt]; [done|]. split; [apply Hlog| |apply Hlog].
  intros e He. left. destruct (lg_before _ _ Hlog e He) as [Hb|[-> _]]; [by eapply hrs_lt_trans|done].
Qed.

Lemma log_ok_release l l' log p m sg :
  log_ok l log -> lss_ok l' -> signed_at l l' p m sg -> log_ok l' (MkReleased p m sg :: log).
Proof.
  intros Hlog Hl' (Hor & Hp & Hm & Hsg). pose proof (log_ok_later _ _ _ Hlog Hor) as Hlog'.
  assert (forall e, e ∈ log -> re_hrs e = p -> e = MkReleased p m sg) as Hsame.
  { intros [p' m' s'] He. cbn. intros ->. destruct (lg_before _ _ Hlog' _ He) as [Hb|(_ & E1 & E2)]; cbn in *.
    - rewrite Hp in Hb. by apply hrs_lt_irrefl in Hb.
    - congruence. }
  split.
  - intros e [-> | He]%elem_of_cons; [|by apply Hlog]. cbn. by apply (lo_signed _ Hl').
  - intros e [-> | He]%elem_of_cons; [right; auto|by apply Hlog'].
  - intros e e' [-> | He]%elem_of_cons [-> | He']%elem_of_cons; [done| | |by apply Hlog].
    + intros E. symmetry. apply Hsame; auto.
    + intros E. by apply Hsame.
Qed.

Lemma mc_ok_next pv pv' kf log :
  pv_ok pv' -> log_ok (pv_LastSignState pv') log -> loadKey (Some kf) pass = Ok key ->
  pv = None \/ pv = Some pv' -> mc_ok (MkMachine pv kf (pv_file pv') log).
Proof. intros Hpv Hlog Hkf Hor. exists pv'. auto. Qed.

(** A call that crashed: the file is the old one or the new one. *)
Lemma mc_ok_crash pv pv' kf log :
  pv_ok pv' -> log_ok (pv_LastSignState pv) log -> loadKey (Some kf) pass = Ok key ->
  pv' = pv \/ (exists p m sg, signed_at (pv_LastSignState pv) (pv_LastSignState pv') p m sg) ->
  mc_ok (MkMachine None kf (pv_file pv') log).
Proof.
  intros Hpv Hlog Hkf Hor. apply mc_ok_next; [done| |done|by left].
  destruct Hor as [-> | (p & m & sg & Hs)]; [done|]. eapply log_ok_later; [done|apply Hs].
Qed.

Lemma mc_step_ok s s' : mc_ok s -> mc_step s s' -> mc_ok s'.
Proof.
  intros (pv0 & Hpv & Hf & Hlog & Hm & Hkf) Hs.
  destruct Hs as [pv kf log chain v v' pv' step Est E|pv kf log chain p p' pv' E|pv kf log chain v e pv' E
    |pv kf log chain p e pv' E|pv kf log|pv kf log chain v|pv kf log chain p|kf file log fresh salt iv kf' pv Hiv E
    |kf file log fresh salt iv kf' pv Hiv E]; cbn [mc_pv mc_key mc_file mc_log] in *;
    try (destruct Hm as [Hm|Hm]; [done|injection Hm as ->]).
  - destruct (signVote_spec chain v pv0 Hpv) as [Hpv' Hw]. rewrite E in *. cbn in *.
    destruct Hw as (step' & Est' & Hsig). assert (step' = step) as -> by congruence.
    apply mc_ok_next; [done| |done|by right]. by apply (log_ok_release (pv_LastSignState pv0)); [|apply Hpv'|].
  - destruct (signProposal_spec chain p pv0 Hpv) as [Hpv' Hsig]. rewrite E in *. cbn in *.
    apply mc_ok_next; [done| |done|by right]. by apply (log_ok_release (pv_LastSignState pv0)); [|apply Hpv'|].
  - destruct (signVote_spec chain v pv0 Hpv) as [Hpv' Hw]. rewrite E in *. cbn in *. subst.
    apply mc_ok_next; auto.
  - destruct (signProposal_spec chain p pv0 Hpv) as [Hpv' Hw]. rewrite E in *. cbn in *. subst.
    apply mc_ok_next; auto.
  - apply mc_ok_next; auto.
  - destruct (signVote_spec chain v pv0 Hpv) as [Hpv' Hw]. apply (mc_ok_crash pv0); [done..|].
    destruct (fst _); [|auto..]. destruct Hw as (step & _ & Hsig). eauto.
  - destruct (signProposal_spec chain p pv0 Hpv) as [Hpv' Hw]. apply (mc_ok_crash pv0); [done..|].
    destruct (fst _); eauto.
  - subst file. destruct (restart_ok _ _ _ _ _ _ _ Hiv Hpv Hkf E) as (Hpv' & El & Hkf').
    apply mc_ok_next; [done|by rewrite El|done|by right].
  - subst file. destruct (restart_ok _ _ _ _ _ _ _ Hiv Hpv Hkf E) as (_ & _ & Hkf'). apply mc_ok_next; auto.
Qed.

Lemma mc_reach_ok s : mc_reach s -> mc_ok s.
Proof.
  induction 1 as [salt iv kf pv Hiv E|s s' Hr IH Hs]; [|by eapply mc_step_ok].
  unfold LoadOrGenSFilePV in E. cbn [obind] in E.
  destruct (pv_SaveWith pass salt iv (NewSFilePV key)) as [[kf0|e|] pv1] eqn:Es; [|done..]. injection E as <- <-.
  destruct (SaveWith_ok salt iv (NewSFilePV key) kf0 pv1 Hiv eq_refl ltac:(by split) Es) as (Hpv & El & Hkf).
  apply mc_ok_next; [done| |done|by right]. rewrite El.
  split; [intros e He|intros e He|intros e e' He]; by apply elem_of_nil in He.
Qed.

(** C21. The validator never signs twice: however it is asked to sign votes and
    proposals, and wherever it crashes, signing or starting, two signatures it gave out
    for one height, round and step are one signature on the same bytes, and
    every signature given out is the key's on the bytes of the message it was
    given out with. *)
Theorem never_signs_twice s e e' :
  mc_reach s -> e ∈ mc_log s -> e' ∈ mc_log s ->
  PrivKey_Sign key (re_msg e) = Ok (re_sig e) /\
  (re_hrs e = re_hrs e' -> re_msg e = re_msg e' /\ re_sig e = re_sig e').
Proof.
  intros Hr He He'. destruct (mc_reach_ok s Hr) as (pv & _ & _ & Hlog & _).
  split; [by apply (lg_signed _ _ Hlog)|]. intros E. by rewrite (lg_unique _ _ Hlog e e' He He' E).
Qed.

End Machine.

(** ** A validator that votes, crashes and votes again *)

Module PVWitness.

Definition enc (o : option bytes) : bytes :=
  match o with None => [-1] | Some b => Z.of_nat (length b) :: b end.

Definition dec (l : bytes) : option bytes * bytes :=
  match l with
  | n :: t => if n <? 0 then (None, t) else (Some (take (Z.to_nat n) t), drop (Z.to_nat n) t)
  | [] => (None, [])
  end.

Lemma dec_enc o t : dec (enc o ++ t) = (o, t).
Proof.
  destruct o as [b|]; [|done]. cbn. destruct (Z.ltb_spec (Z.of_nat (length b)) 0); [lia|].
  by rewrite Nat2Z.id, take_app_length, drop_app_length.
Qed.

Definition canon_bytes (tag : Z) (c : Canonical) : bytes := tag :: cn_Timestamp c :: cn_Rest c.
Definition uncanon (tag : Z) (b : bytes) : outcome Canonical :=
  match b with
  | g :: t :: r => if g =? tag then Ok (MkCanonical r t) else Err (GoError "unexpected message")
  | _ => Err (GoError "unexpected message")
  end.

Definition Toy_pv : PVLib := {|
  CanonicalizeVote chain v := MkCanonical (vt_Type v :: vt_Height v :: vt_Round v :: vt_BlockID v ++ chain) (vt_Timestamp v);
  CanonicalizeProposal chain p := MkCanonical (pr_Height p :: pr_Round p :: pr_BlockID p ++ chain) (pr_Timestamp p);
  MarshalVote := canon_bytes 1;
  MarshalProposal := canon_bytes 2;
  UnmarshalVote := uncanon 1;
  UnmarshalProposal := uncanon 2;
  PrivKey_Sign k m := Ok (k ++ 7 :: m);
  lss_Marshal l := Ok (ls_Height l :: ls_Round l :: ls_Step l :: enc (ls_Signature l) ++ enc (ls_SignBytes l) ++ []);
  lss_Unmarshal b :=
    match b with
    | h :: r :: s :: t =>
        let '(sg, t') := dec t in Ok (MkLastSignState h r s sg (fst (dec t')))
    | _ => Err (GoError "unexpected end of JSON input")
    end;
|}.

#[local] Existing Instance Toy_pv.

#[local] Instance Toy_pv_laws : PVLaws.
Proof.
  split; try done.
  - by intros [].
  - by intros [].
  - intros k m [= E]. by destruct k.
  - intros [h r s sg sb] _. eexists. split; [done|]. cbn [lss_Unmarshal Toy_pv]. by rewrite !dec_enc.
Qed.

#[local] Existing Instances WalletWitness.toy_crypto WalletWitness.toy_wallet WalletWitness.toy_wallet_laws.

(** The passphrase is [1; 2]; the salt and the vector are fixed. *)
Definition started : bytes * SFilePV :=
  match LoadOrGenSFilePV None None (Some [1; 2]) [5] [] WalletWitness.iv1 with Ok r => r | _ => ([], NewSFilePV []) end.
Definition kf0 : bytes := fst started.
Definition pv0 : SFilePV := snd started.
Definition vote_a : Vote := MkVote PrevoteType 10 0 [9] 100 [].
Definition vote_b : Vote := MkVote PrevoteType 10 0 [9] 105 [].
Definition pv1 : SFilePV := snd (signVote [3] vote_a pv0).
Definition rel_a : released :=
  MkReleased (10, 0, stepPrevote) (VoteSignBytes [3] vote_a) ([5; 7] ++ VoteSignBytes [3] vote_a).

(** The vote is signed and lost in a crash; after the restart it is asked for
    with another timestamp, twice. *)
Definition mc_end : machine := MkMachine (Some pv1) kf0 (pv_file pv1) [rel_a; rel_a].

Lemma mc_end_reach : mc_reach [5] (Some [1; 2]) mc_end.
Proof.
  assert (forall log, mc_step (Some [1; 2]) (MkMachine (Some pv1) kf0 (pv_file pv1) log)
    (MkMachine (Some pv1) kf0 (pv_file pv1) (rel_a :: log))) as Hstep.
  { intros log. exact (step_vote (Some [1; 2]) pv1 kf0 log [3] vote_b (set_vote_sig (re_sig rel_a) vote_a) pv1 stepPrevote eq_refl eq_refl). }
  eapply reach_step; [|apply Hstep]. eapply reach_step; [|apply Hstep].
  apply (reach_step _ _ (MkMachine None kf0 (pv_file pv1) [])).
  - eapply reach_step; [|apply (step_vote_crash (Some [1; 2]) pv0 kf0 [] [3] vote_a)].
    by apply (reach_new _ _ [] WalletWitness.iv1).
  - apply (step_restart _ _ _ _ [] [] WalletWitness.iv1 kf0 pv1); [done|]. by vm_compute.
Qed.

Lemma never_signs_twice_witness :
  PrivKey_Sign [5] (re_msg rel_a) = Ok (re_sig rel_a) /\
  (re_hrs rel_a = re_hrs rel_a -> re_msg rel_a = re_msg rel_a /\ re_sig rel_a = re_sig rel_a).
Proof.
  apply (never_signs_twice [5] (Some [1; 2]) ltac:(done) mc_end rel_a rel_a mc_end_reach); apply elem_of_cons; by left.
Defined.

End PVWitness.
