(* ===== verification/GoJson.v ===== *)
(** * GoJson: structs and their JSON texts

    [jsonx.Marshal] and [jsonx.Unmarshal] ([libs/jsonx/jsonx.go]) on the struct
    types of the code.  A type is described by its fields with their names and
    tags ([gtype]); the values of a struct become a tree of JSON values and back.
    What the tree looks like is decided by the tags as in [encoding/json], the
    names by the camel-case extension and the 64-bit integers by the integer
    extension of Jsonx.  The text of a tree, its parser and the way of a value
    through an [interface{}] are parameters ([JsonText]) with the laws that are
    used of them ([JsonTextOk]).

    Shown: a value of any such type is read back from the tree written for it into
    a new variable, and so from its text. *)
From stdpp Require Import base list strings.
From Stdlib Require Import ZArith Lia.
From S2P Require Import Prelude XErrors GoMonad HexBytes Jsonx.

(** ** [encoding/base64]: writing *)

Definition b64_char (n : Z) : Z :=
  if n <? 26 then 65 + n else if n <? 52 then 71 + n else if n <? 62 then n - 4 else if n =? 62 then 43 else 47.

Fixpoint base64_EncodeToString (b : bytes) : bytes :=
  match b with
  | [] => []
  | [x] => [b64_char (x / 4); b64_char (x mod 4 * 16); 61; 61]
  | [x; y] => [b64_char (x / 4); b64_char (x mod 4 * 16 + y / 16); b64_char (y mod 16 * 4); 61]
  | x :: y :: z :: b' =>
      b64_char (x / 4) :: b64_char (x mod 4 * 16 + y / 16) :: b64_char (y mod 16 * 4 + z / 64) :: b64_char (z mod 64) ::
      base64_EncodeToString b'
  end.

(** ** JSON values *)

(** Numbers are integers, or any other literal. *)
Inductive jval : Type :=
| JNull
| JBool (b : bool)
| JNum (n : Z)
| JReal (literal : bytes)
| JStr (s : bytes)
| JArr (vs : list jval)
| JObj (fs : list (bytes * jval)).

Definition cont (b : Z) : bool := (128 <=? b) && (b <=? 191).

(** [utf8.Valid] *)
Fixpoint utf8_Valid (s : bytes) : bool :=
  match s with
  | [] => true
  | a :: s1 =>
      if (0 <=? a) && (a <? 128) then utf8_Valid s1
      else if (194 <=? a) && (a <=? 223) then
        match s1 with b :: s2 => cont b && utf8_Valid s2 | _ => false end
      else if (224 <=? a) && (a <=? 239) then
        match s1 with
        | b :: c :: s3 =>
            cont b && cont c && (if a =? 224 then 160 <=? b else if a =? 237 then b <=? 159 else true) && utf8_Valid s3
        | _ => false
        end
      else if (240 <=? a) && (a <=? 244) then
        match s1 with
        | b :: c :: d :: s4 =>
            cont b && cont c && cont d && (if a =? 240 then 144 <=? b else if a =? 244 then b <=? 143 else true) && utf8_Valid s4
        | _ => false
        end
      else false
  end.

(** Values whose texts keep them: strings are valid, and there is no number but
    integers of 64 bits. *)
Fixpoint jval_ok (v : jval) : bool :=
  match v with
  | JNull | JBool _ => true
  | JNum n => (- 2 ^ 63 <=? n) && (n <? 2 ^ 64)
  | JReal _ => false
  | JStr s => utf8_Valid s
  | JArr vs => forallb jval_ok vs
  | JObj fs => forallb (fun f => utf8_Valid (fst f) && jval_ok (snd f)) fs
  end.

(** Characters a JSON string holds as they are. *)
Definition plain (c : Z) : bool :=
  (32 <=? c) && (c <? 127) && negb ((c =? 34) || (c =? 92) || (c =? 60) || (c =? 62) || (c =? 38)).

Class JsonText : Type := {
  json_Print : jval -> bytes;
  json_Parse : bytes -> outcome jval;
  json_any : jval -> jval;
}.

Class JsonTextOk `{JsonText} : Prop := {
  parse_print v : jval_ok v = true -> json_Parse (json_Print v) = Ok v;
  print_nonempty v : json_Print v <> [];
  parse_no_panic bz : json_Parse bz <> Panic;
  print_utf8 v : jval_ok v = true -> utf8_Valid (json_Print v) = true;
  print_plain s : forallb plain s = true -> json_Print (JStr s) = 34 :: s ++ [34];
  any_str s : json_any (JStr s) = JStr s;
  any_num n : - 2 ^ 53 <= n <= 2 ^ 53 -> json_any (JNum n) = JNum n;
  any_other v s : json_any v = JStr s -> v = JStr s;
}.

(** ** Types and their values *)

(** [TRaw] is a [json.RawMessage], or a value with methods of its own whose text
    is made before.  A raw message that is read stands for its JSON value: it is
    the text [json_Print] gives it, whatever the white space it was read with. *)
Inductive gtype : Type :=
| TInt (k : Kind)
| TStr
| TBytes
| THex
| TRaw
| TSlice (t : gtype)
| TPtr (t : gtype)
| TStruct (fs : list (string * string * gtype)).

Inductive gval : Type :=
| VInt (z : Z)
| VText (b : bytes)
| VNil
| VSlice (vs : list gval)
| VPtr (v : gval)
| VStruct (vs : list gval).

Fixpoint zero (t : gtype) : gval :=
  match t with
  | TInt _ => VInt 0
  | TStr | THex | TRaw => VText []
  | TBytes | TSlice _ | TPtr _ => VNil
  | TStruct fs => VStruct (map (fun f => zero (snd f)) fs)
  end.

(** What [omitempty] leaves out. *)
Definition is_empty (v : gval) : bool :=
  match v with
  | VInt z => z =? 0
  | VText b => bytes_Equal b []
  | VNil => true
  | VSlice vs => (length vs =? 0)%nat
  | VPtr _ | VStruct _ => false
  end.

(** ** Tags *)

Definition tag_name (name tag : string) : bytes :=
  match Split 44 (text tag) with
  | p :: _ => if bytes_Equal p [] then text name else p
  | [] => text name
  end.

Definition tag_option (option : string) (tag : string) : bool :=
  existsb (fun o => bytes_Equal o (text option)) (tail (Split 44 (text tag))).

Definition hidden (tag : string) : bool := bytes_Equal (text tag) (text "-").

(** What differs between packages: the name a field is written as, the names it is
    read from, the codec of an integer, the integers written as strings, and
    whether the option [string] applies to a string. *)
Record dialect := MkDialect {
  d_name : string -> string -> bytes;
  d_names : string -> string -> list bytes;
  d_codec : string -> Kind -> option Kind;
  d_quotes : string -> Kind -> bool;
  d_string : string -> bool;
}.

(** The names a field is read from. *)
Definition read_names (name tag : string) : list bytes :=
  match camel_binding (text name) (text tag) with
  | Some (_, from) => from
  | None => [tag_name name tag]
  end.

Definition jsonx : dialect := {|
  d_name name tag := match camel_binding (text name) (text tag) with
                     | Some (to :: _, _) => to
                     | _ => tag_name name tag
                     end;
  d_names := read_names;
  d_codec tag k := integer_binding [KInt64; KUint64] k (text tag);
  d_quotes tag k := bool_decide (is_Some (integer_binding [KInt64; KUint64] k (text tag))) || tag_option "string" tag;
  d_string := tag_option "string";
|}.

(** Tendermint's package ([libs/json]): names as in the tags, integers of 64 bits
    as strings, no option but [omitempty]. *)
Definition tmjson : dialect := {|
  d_name := tag_name;
  d_names name tag := [tag_name name tag];
  d_codec _ _ := None;
  d_quotes _ k := match k with KInt | KInt64 | KUint | KUint64 => true | _ => false end;
  d_string _ := false;
|}.

(** ** Writing *)

Section Codec.
Context `{JsonText}.

Definition int_text (k : Kind) (z : Z) : bytes := default [] (codec_Encode k z).

(** A field of a struct: integers and strings depend on the tag. *)
Definition encode_field (d : dialect) (tag : string) (t : gtype) (enc : gval -> jval) (v : gval) : jval :=
  match t, v with
  | TInt k, VInt z => if d_quotes d tag k then JStr (int_text k z) else JNum z
  | TStr, VText s => if d_string d tag then JStr (json_Print (JStr s)) else JStr s
  | _, _ => enc v
  end.

Definition skipped (tag : string) (v : gval) : bool := hidden tag || (tag_option "omitempty" tag && is_empty v).

(** A raw message that is no JSON text is written as [null]. *)
Fixpoint encode (d : dialect) (t : gtype) (v : gval) {struct t} : jval :=
  match t, v with
  | TInt _, VInt z => JNum z
  | TStr, VText s => JStr s
  | TBytes, VText b => JStr (base64_EncodeToString b)
  | THex, VText b => JStr (HexBytes_String b)
  | TRaw, VText b => match json_Parse b with Ok j => j | _ => JNull end
  | TSlice t, VSlice vs => JArr (map (encode d t) vs)
  | TPtr t, VPtr v => encode d t v
  | TStruct fs, VStruct vs =>
      JObj ((fix go (fs : list (string * string * gtype)) (vs : list gval) : list (bytes * jval) :=
        match fs, vs with
        | (name, tag, t) :: fs, v :: vs =>
            (if skipped tag v then [] else [(d_name d name tag, encode_field d tag t (encode d t) v)]) ++ go fs vs
        | _, _ => []
        end) fs vs)
  | _, _ => JNull
  end.

(** ** Reading *)

Definition bad_value : error := GoError "json: cannot unmarshal value into Go value".

Definition in_kindb (k : Kind) (z : Z) : bool :=
  if signed k then (- 2 ^ (width k - 1) <=? z) && (z <? 2 ^ (width k - 1)) else (0 <=? z) && (z <? 2 ^ width k).

Definition decode_int (k : Kind) (old : gval) (j : jval) : outcome gval :=
  match j with
  | JNum n => if in_kindb k n then Ok (VInt n) else Err bad_value
  | JNull => Ok old
  | _ => Err bad_value
  end.

(** The codec of the integer extension; [ReadInt64] and [ReadUint64] refuse
    numbers that do not fit. *)
Definition int_of (v : gval) : Z := match v with VInt z => z | _ => 0 end.

Definition decode_codec (k : Kind) (old : gval) (j : jval) : outcome gval :=
  match j with
  | JStr s => Ok (VInt (codec_Decode k (int_of old) (StringValue s)))
  | JNum n =>
      if in_kindb (if signed k then KInt64 else KUint64) n then Ok (VInt (codec_Decode k (int_of old) (NumberValue n n)))
      else Err bad_value
  | JReal _ => Err bad_value
  | _ => Ok (VInt (codec_Decode k (int_of old) OtherValue))
  end.

(** The option [string]. *)
Definition decode_quoted (k : Kind) (old : gval) (j : jval) : outcome gval :=
  match j with
  | JStr s => obind (if signed k then ParseInt s else ParseUint s) (fun n => decode_int k old (JNum n))
  | JNull => Ok old
  | _ => Err bad_value
  end.

Definition decode_field (d : dialect) (tag : string) (t : gtype) (dec : gval -> jval -> outcome gval) (old : gval) (j : jval) : outcome gval :=
  match t with
  | TInt k =>
      match d_codec d tag k with
      | Some k => decode_codec k old j
      | None => if d_quotes d tag k then decode_quoted k old j else dec old j
      end
  | TStr =>
      if d_string d tag then
        match j with
        | JStr s => obind (json_Parse s) (dec old)
        | JNull => Ok old
        | _ => Err bad_value
        end
      else dec old j
  | _ => dec old j
  end.

Fixpoint all_ok {A B} (f : A -> outcome B) (l : list A) : outcome (list B) :=
  match l with
  | [] => Ok []
  | x :: l => obind (f x) (fun y => obind (all_ok f l) (fun ys => Ok (y :: ys)))
  end.

Definition byte_of (j : jval) : outcome Z :=
  match j with
  | JNum n => if in_kindb KUint8 n then Ok n else Err bad_value
  | _ => Err bad_value
  end.

(** A field: the names it is read from, and how. *)
Definition reader : Type := list bytes * (gval -> jval -> outcome gval).

Definition ToLower (s : bytes) : bytes := map lower_char s.

(** The index of the field of a name, else of one that differs in case only. *)
Definition reads (key : bytes) (names : list bytes) : bool := existsb (bytes_Equal key) names.
Definition reads_case (key : bytes) (names : list bytes) : bool := existsb (fun n => bytes_Equal (ToLower key) (ToLower n)) names.

Definition find_name (names : list (list bytes)) (key : bytes) : option nat :=
  match list_find (fun ns => reads key ns = true) names with
  | Some (i, _) => Some i
  | None => fst <$> list_find (fun ns => reads_case key ns = true) names
  end.

(** The entries of an object in their order; unknown names are skipped. *)
Fixpoint read_entries (rs : list reader) (entries : list (bytes * jval)) (vs : list gval) : outcome (list gval) :=
  match entries with
  | [] => Ok vs
  | (key, j) :: entries =>
      match find_name (map fst rs) key with
      | None => read_entries rs entries vs
      | Some i =>
          match rs !! i, vs !! i with
          | Some r, Some old => obind (snd r old j) (fun v => read_entries rs entries (<[i := v]> vs))
          | _, _ => read_entries rs entries vs
          end
      end
  end.

Fixpoint decode (d : dialect) (t : gtype) (old : gval) (j : jval) {struct t} : outcome gval :=
  match t with
  | TInt k => decode_int k old j
  | TStr => match j with JStr s => Ok (VText s) | JNull => Ok old | _ => Err bad_value end
  | TBytes =>
      match j with
      | JStr s => obind (base64_DecodeString s) (fun b => Ok (VText b))
      | JArr js => obind (all_ok byte_of js) (fun b => Ok (VText b))
      | JNull => Ok VNil
      | _ => Err bad_value
      end
  | THex => obind (HexBytes_UnmarshalJSON (json_Print j)) (fun b => Ok (VText b))
  | TRaw => Ok (VText (json_Print j))
  | TSlice t =>
      match j with
      | JArr js => obind (all_ok (decode d t (zero t)) js) (fun vs => Ok (VSlice vs))
      | JNull => Ok VNil
      | _ => Err bad_value
      end
  | TPtr t =>
      match j with
      | JNull => Ok VNil
      | _ => obind (decode d t (match old with VPtr v => v | _ => zero t end) j) (fun v => Ok (VPtr v))
      end
  | TStruct fs =>
      match j, old with
      | JObj entries, VStruct vs =>
          obind (read_entries ((fix go (fs : list (string * string * gtype)) : list reader :=
            match fs with
            | [] => []
            | (name, tag, t) :: fs =>
                (if hidden tag then [] else d_names d name tag, decode_field d tag t (decode d t)) :: go fs
            end) fs) entries vs) (fun vs => Ok (VStruct vs))
      | JNull, _ => Ok old
      | _, _ => Err bad_value
      end
  end.

(** [jsonx.Marshal] and [jsonx.Unmarshal] into a variable that holds [old] *)
Definition jsonx_Marshal (t : gtype) (v : gval) : outcome bytes := Ok (json_Print (encode jsonx t v)).

Definition jsonx_Unmarshal (t : gtype) (old : gval) (bz : bytes) : outcome gval :=
  obind (json_Parse bz) (decode jsonx t old).

End Codec.

(** ** Round trip *)

Lemma b64_val_char n : 0 <= n < 64 -> b64_val (b64_char n) = Some n /\ plain (b64_char n) = true /\ b64_char n <> 61.
Proof.
  intros Hn. assert (forallb (fun n => bool_decide (b64_val (b64_char n) = Some n) && plain (b64_char n) && negb (b64_char n =? 61))
    (seqZ 0 64) = true) as Hall by reflexivity.
  rewrite forallb_forall in Hall. specialize (Hall n). rewrite <- list_elem_of_In, elem_of_seqZ in Hall.
  rewrite !andb_true_iff, negb_true_iff, Z.eqb_neq in Hall. destruct Hall as [[Hv Hp] Hq]; [lia|].
  split; [by apply bool_decide_eq_true in Hv|done].
Qed.

(** Induction by three bytes. *)
Lemma bytes_ind3 (P : bytes -> Prop) :
  P [] -> (forall x, P [x]) -> (forall x y, P [x; y]) -> (forall x y z b, P b -> P (x :: y :: z :: b)) -> forall b, P b.
Proof. intros H0 H1 H2 H3. fix IH 1. intros [|x [|y [|z b]]]; [exact H0|exact (H1 x)|exact (H2 x y)|exact (H3 x y z b (IH b))]. Qed.

Lemma base64_plain b : Forall is_byte b -> forallb plain (base64_EncodeToString b) = true.
Proof.
  induction b as [|x|x y|x y z b IH] using bytes_ind3; intros Hb; [done| | |]; rewrite ?Forall_cons in Hb; unfold is_byte in Hb;
    cbn [base64_EncodeToString forallb].
  - rewrite !(fun n Hn => proj1 (proj2 (b64_val_char n Hn))); [done| |]; Z.to_euclidean_division_equations; lia.
  - rewrite !(fun n Hn => proj1 (proj2 (b64_val_char n Hn))); [done| | |]; Z.to_euclidean_division_equations; lia.
  - rewrite !(fun n Hn => proj1 (proj2 (b64_val_char n Hn))), IH; [done|tauto| | | |]; Z.to_euclidean_division_equations; lia.
Qed.

Lemma filter_plain s : forallb plain s = true -> List.filter (fun c => negb ((c =? 10) || (c =? 13))) s = s.
Proof.
  induction s as [|c s IH]; [done|]. cbn [forallb List.filter]. intros [Hc Hs]%andb_true_iff. rewrite IH by done.
  unfold plain in Hc. destruct (Z.eqb_spec c 10), (Z.eqb_spec c 13); cbn; [lia..|done].
Qed.

Lemma b64_quads_encode b : Forall is_byte b -> b64_quads (base64_EncodeToString b) = Ok b.
Proof.
  induction b as [|x|x y|x y z b IH] using bytes_ind3; intros Hb; [done| | |]; rewrite ?Forall_cons in Hb; unfold is_byte in Hb;
    cbn [base64_EncodeToString b64_quads].
  - rewrite !(fun n Hn => proj1 (b64_val_char n Hn)) by (Z.to_euclidean_division_equations; lia). cbn.
    do 2 f_equal. Z.to_euclidean_division_equations; lia.
  - rewrite !(fun n Hn => proj1 (b64_val_char n Hn)) by (Z.to_euclidean_division_equations; lia).
    rewrite (proj2 (Z.eqb_neq _ _) (proj2 (proj2 (b64_val_char (y mod 16 * 4) ltac:(Z.to_euclidean_division_equations; lia))))).
    cbn. do 2 f_equal; [|f_equal]; Z.to_euclidean_division_equations; lia.
  - rewrite !(fun n Hn => proj1 (b64_val_char n Hn)) by (Z.to_euclidean_division_equations; lia).
    rewrite (proj2 (Z.eqb_neq _ _) (proj2 (proj2 (b64_val_char (y mod 16 * 4 + z / 64) ltac:(Z.to_euclidean_division_equations; lia))))).
    rewrite (proj2 (Z.eqb_neq _ _) (proj2 (proj2 (b64_val_char (z mod 64) ltac:(Z.to_euclidean_division_equations; lia))))).
    rewrite IH by tauto. cbn [obind]. do 2 f_equal; [|f_equal; [|f_equal]]; Z.to_euclidean_division_equations; lia.
Qed.

Lemma base64_roundtrip b : Forall is_byte b -> base64_DecodeString (base64_EncodeToString b) = Ok b.
Proof. intros Hb. unfold base64_DecodeString. rewrite filter_plain by (by apply base64_plain). by apply b64_quads_encode. Qed.

Lemma plain_utf8 s : forallb plain s = true -> utf8_Valid s = true.
Proof.
  induction s as [|c s IH]; [done|]. cbn [forallb utf8_Valid]. intros [Hc Hs]%andb_true_iff. unfold plain in Hc.
  destruct (Z.leb_spec 0 c), (Z.ltb_spec c 128); cbn; [by apply IH|lia..].
Qed.

Lemma hex_plain b : Forall is_byte b -> forallb plain (HexBytes_String b) = true.
Proof.
  intros Hb%String_upper_hex. induction Hb as [|c s Hc Hs IH]; [done|]. cbn [forallb]. rewrite IH, andb_true_r.
  unfold upper_hex in Hc. unfold plain. lia.
Qed.

Lemma digits_plain n : forallb plain (Dec_text n) = true.
Proof.
  pose proof (uint_text_digits (N.to_uint (Z.to_N n))) as Hd. fold (Dec_text n) in Hd.
  induction Hd as [|c s Hc Hs IH]; [done|]. cbn [forallb]. rewrite IH, andb_true_r. unfold plain. lia.
Qed.

Lemma int_plain k z : forallb plain (int_text k z) = true.
Proof.
  assert (forallb plain (FormatInt z) = true) as Hf.
  { unfold FormatInt. destruct (z <? 0); [cbn [forallb]|]; by rewrite digits_plain. }
  unfold int_text. destruct k; cbn; auto using digits_plain.
Qed.

Lemma in_kindb_true k z : in_kindb k z = true <-> in_kind k z.
Proof. unfold in_kindb, in_kind. destruct (signed k); lia. Qed.

(** Types whose written names are read as their own fields; pointers are to
    structs, and no field is hidden. *)
Definition names_ok (d : dialect) (fs : list (string * string * gtype)) : bool :=
  let names := map (fun f => d_names d (fst (fst f)) (snd (fst f))) fs in
  forallb id (imap (fun i f => bool_decide (find_name names (d_name d (fst (fst f)) (snd (fst f))) = Some i) &&
    utf8_Valid (d_name d (fst (fst f)) (snd (fst f))) && negb (hidden (snd (fst f)))) fs).

Fixpoint gtype_ok (d : dialect) (t : gtype) : bool :=
  match t with
  | TInt k => negb (bool_decide (k = KOther))
  | TStr | TBytes | THex | TRaw => true
  | TSlice t => gtype_ok d t
  | TPtr t => match t with TStruct _ => gtype_ok d t | _ => false end
  | TStruct fs => names_ok d fs && forallb (fun f => gtype_ok d (snd f)) fs
  end.

Lemma gtype_nested_ind (P : gtype -> Prop) :
  (forall k, P (TInt k)) -> P TStr -> P TBytes -> P THex -> P TRaw ->
  (forall t, P t -> P (TSlice t)) -> (forall t, P t -> P (TPtr t)) ->
  (forall fs, Forall (fun f => P (snd f)) fs -> P (TStruct fs)) -> forall t, P t.
Proof.
  intros Hi Hs Hb Hh Hr Hsl Hp Hst. fix IH 1.
  intros [k| | | | |t|t|fs]; [apply Hi|exact Hs|exact Hb|exact Hh|exact Hr|apply Hsl, IH|apply Hp, IH|].
  apply Hst. induction fs as [|f fs IHf]; constructor; [apply IH|exact IHf].
Qed.

(** A codec is of the kind of its field and writes strings. *)
Class DialectOk (d : dialect) : Prop :=
  codec_kind tag k k' : d_codec d tag k = Some k' -> k' = k /\ d_quotes d tag k = true.

Lemma integer_binding_kind ks k tag k' : integer_binding ks k tag = Some k' -> k' = k.
Proof. induction ks as [|t ks IH]; cbn; [done|]. repeat case_match; try done; auto. by intros [= ->]. Qed.

#[export] Instance jsonx_ok : DialectOk jsonx.
Proof.
  intros tag k k'. cbn [d_codec d_quotes jsonx]. intros E. rewrite E. apply integer_binding_kind in E as ->.
  by rewrite (bool_decide_eq_true_2 _ (mk_is_Some _ _ eq_refl)).
Qed.

#[export] Instance tmjson_ok : DialectOk tmjson.
Proof. done. Qed.

Section RoundTrip.
Context `{JsonTextOk} (d : dialect) `{!DialectOk d}.

(** The values of a type; one that is left out is zero. *)
Fixpoint typed (t : gtype) (v : gval) {struct t} : Prop :=
  match t, v with
  | TInt k, VInt z => in_kind k z
  | TStr, VText s => utf8_Valid s = true
  | TBytes, VText b | THex, VText b => Forall is_byte b
  | TRaw, VText b => exists j, jval_ok j = true /\ b = json_Print j
  | TBytes, VNil | TSlice _, VNil | TPtr _, VNil => True
  | TSlice t, VSlice vs => Forall (typed t) vs
  | TPtr t, VPtr v => typed t v
  | TStruct fs, VStruct vs =>
      (fix go (fs : list (string * string * gtype)) (vs : list gval) : Prop :=
         match fs, vs with
         | [], [] => True
         | (_, tag, t) :: fs, v :: vs => (if skipped tag v then v = zero t else typed t v) /\ go fs vs
         | _, _ => False
         end) fs vs
  | _, _ => False
  end.

Definition typed_fields (fs : list (string * string * gtype)) (vs : list gval) : Prop := typed (TStruct fs) (VStruct vs).

Definition entries_of (fs : list (string * string * gtype)) (vs : list gval) : list (bytes * jval) :=
  match encode d (TStruct fs) (VStruct vs) with JObj es => es | _ => [] end.

Definition readers (fs : list (string * string * gtype)) : list reader :=
  map (fun f => (if hidden (snd (fst f)) then [] else d_names d (fst (fst f)) (snd (fst f)),
                 decode_field d (snd (fst f)) (snd f) (decode d (snd f)))) fs.

Lemma decode_struct fs vs es :
  decode d (TStruct fs) (VStruct vs) (JObj es) = obind (read_entries (readers fs) es vs) (fun vs => Ok (VStruct vs)).
Proof.
  cbn [decode]. do 2 f_equal. clear. induction fs as [|[[name tag] t] fs IH]; [done|]. cbn [readers map fst snd]. f_equal. exact IH.
Qed.

(** A field is read back, and its tree has a text. *)
Definition kept (t : gtype) : Prop :=
  forall v, typed t v -> decode d t (zero t) (encode d t v) = Ok v /\ jval_ok (encode d t v) = true.

Lemma FormatInt_signed k z : signed k = true -> int_text k z = FormatInt z.
Proof. by destruct k. Qed.

Lemma Dec_unsigned k z : signed k = false -> k <> KOther -> int_text k z = Dec_text z.
Proof. by destruct k. Qed.

Lemma decode_quoted_text k z old : k <> KOther -> in_kind k z -> decode_quoted k old (JStr (int_text k z)) = Ok (VInt z).
Proof.
  intros Hk Hz. pose proof (in_kind_wide _ _ Hz) as Hw. unfold decode_quoted. destruct (signed k) eqn:E.
  - rewrite FormatInt_signed, ParseInt_FormatInt by done. cbn. by rewrite (proj2 (in_kindb_true k z)).
  - rewrite Dec_unsigned, ParseUint_Dec by done. cbn. by rewrite (proj2 (in_kindb_true k z)).
Qed.

Lemma decode_codec_text k z old : k <> KOther -> in_kind k z -> decode_codec k old (JStr (int_text k z)) = Ok (VInt z).
Proof.
  intros Hk Hz. destruct (integers_roundtrip k z (int_of old) Hk Hz) as (s & He & Hd).
  unfold decode_codec, int_text. rewrite He. cbn [default]. unfold id. by rewrite Hd.
Qed.

Lemma field_kept tag t v :
  gtype_ok d t = true -> kept t -> typed t v ->
  decode_field d tag t (decode d t) (zero t) (encode_field d tag t (encode d t) v) = Ok v /\
  jval_ok (encode_field d tag t (encode d t) v) = true.
Proof.
  intros Hok Hkept Hv. destruct (Hkept v Hv) as [Hd Hj]. destruct t as [k| | | | | | |]; try exact (conj Hd Hj).
  - destruct v as [z| | | | |]; try done. cbn in Hok, Hv. apply negb_true_iff, bool_decide_eq_false in Hok.
    unfold encode_field, decode_field. destruct (d_codec d tag k) as [k'|] eqn:Eb.
    + apply codec_kind in Eb as [-> ->]. split; [by apply decode_codec_text|]. cbn. apply plain_utf8, int_plain.
    + destruct (d_quotes d tag k); [|done]. split; [by apply decode_quoted_text|]. cbn. apply plain_utf8, int_plain.
  - destruct v as [|s| | | |]; try done. unfold encode_field, decode_field.
    destruct (d_string d tag); [|done]. rewrite parse_print by done. split; [done|]. cbn [jval_ok]. by apply print_utf8.
Qed.

Lemma names_ok_at fs i name tag t :
  names_ok d fs = true -> fs !! i = Some (name, tag, t) ->
  find_name (map fst (readers fs)) (d_name d name tag) = Some i /\ utf8_Valid (d_name d name tag) = true /\ hidden tag = false.
Proof.
  unfold names_ok. intros Hall%Is_true_true%forallb_True Hi. set (names := map _ fs) in Hall. rewrite Forall_lookup in Hall.
  assert (Hnames : forall j f, fs !! j = Some f -> hidden (snd (fst f)) = false).
  { intros j f Hj. specialize (Hall j). rewrite list_lookup_imap, Hj in Hall. specialize (Hall _ eq_refl). cbn in Hall.
    destruct (hidden _); [|done]. by rewrite andb_false_r in Hall. }
  assert (map fst (readers fs) = names) as ->.
  { unfold readers, names. rewrite map_map. apply map_ext_in. intros f Hf. cbn.
    apply list_elem_of_In, list_elem_of_lookup_1 in Hf as [j Hj]. by rewrite (Hnames j f Hj). }
  specialize (Hall i). rewrite list_lookup_imap, Hi in Hall. specialize (Hall _ eq_refl). cbn in Hall.
  apply Is_true_true in Hall. rewrite !andb_true_iff, bool_decide_eq_true, negb_true_iff in Hall. tauto.
Qed.

Lemma typed_cons name tag t fs v vs :
  typed_fields ((name, tag, t) :: fs) (v :: vs) <-> (if skipped tag v then v = zero t else typed t v) /\ typed_fields fs vs.
Proof. done. Qed.

Lemma entries_cons name tag t fs v vs :
  entries_of ((name, tag, t) :: fs) (v :: vs) =
  (if skipped tag v then [] else [(d_name d name tag, encode_field d tag t (encode d t) v)]) ++ entries_of fs vs.
Proof. done. Qed.

Lemma read_entries_kept all pre fs vs1 vs2 :
  all = pre ++ fs -> names_ok d all = true -> length vs1 = length pre ->
  Forall (fun f => gtype_ok d (snd f) = true /\ kept (snd f)) fs -> typed_fields fs vs2 ->
  read_entries (readers all) (entries_of fs vs2) (vs1 ++ map (fun f => zero (snd f)) fs) = Ok (vs1 ++ vs2) /\
  forallb (fun f => utf8_Valid (fst f) && jval_ok (snd f)) (entries_of fs vs2) = true.
Proof.
  intros Hall Hn. revert pre vs1 vs2 Hall. induction fs as [|[[name tag] t] fs IH]; intros pre vs1 vs2 Hall Hl Hk Hv.
  - by destruct vs2.
  - destruct vs2 as [|v vs2]; [done|]. apply typed_cons in Hv as [Hv Hvs]. apply Forall_cons in Hk as [[Hok Hkt] Hk].
    rewrite entries_cons. cbn [map snd].
    specialize (IH (pre ++ [(name, tag, t)]) (vs1 ++ [v]) vs2). rewrite <- !app_assoc in IH.
    destruct IH as [IH1 IH2]; [done|rewrite !length_app; cbn; lia|done|done|]. destruct (skipped tag v).
    + subst v. cbn [app]. split; [exact IH1|exact IH2].
    + assert (all !! length pre = Some (name, tag, t)) as Hi by (rewrite Hall; by apply list_lookup_middle).
      destruct (names_ok_at _ _ _ _ _ Hn Hi) as (Hf & Hu & Hh). destruct (field_kept tag t v Hok Hkt Hv) as [Hd Hj].
      cbn [app read_entries forallb fst snd]. rewrite Hf, Hu, Hj. split; [|exact IH2].
      replace (readers all !! length pre) with
        (Some (if hidden tag then [] else d_names d name tag, decode_field d tag t (decode d t)) : option reader)
        by (unfold readers; by rewrite list_lookup_fmap, Hi).
      rewrite list_lookup_middle by done. cbn [snd]. rewrite Hd. cbn [obind].
      rewrite <- Hl, <- (Nat.add_0_r (length vs1)), insert_app_r. exact IH1.
Qed.

Lemma all_ok_kept t vs : kept t -> Forall (typed t) vs ->
  all_ok (decode d t (zero t)) (map (encode d t) vs) = Ok vs /\ forallb jval_ok (map (encode d t) vs) = true.
Proof.
  intros Hk Hvs. induction Hvs as [|v vs Hv Hvs [IH1 IH2]]; [done|]. destruct (Hk v Hv) as [Hd Hj].
  cbn [map all_ok forallb]. by rewrite Hd, Hj, IH1, IH2.
Qed.

Lemma HexBytes_Unmarshal_text b : Forall is_byte b -> HexBytes_UnmarshalJSON (json_Print (JStr (HexBytes_String b))) = Ok b.
Proof. intros Hb. rewrite print_plain by (by apply hex_plain). exact (proj1 (hex_text_roundtrip b Hb)). Qed.

Lemma in_kind_json k z : in_kind k z -> jval_ok (JNum z) = true.
Proof. destruct k; cbn; lia. Qed.

Lemma gtype_kept t : gtype_ok d t = true -> kept t.
Proof.
  induction t as [k| | | | |t IH|t IH|fs IH] using gtype_nested_ind; intros Hok v Hv.
  - destruct v; try done. cbn in Hv. cbn [encode decode decode_int]. rewrite (proj2 (in_kindb_true _ _) Hv).
    split; [done|by apply in_kind_json with k].
  - by destruct v.
  - destruct v; try done. cbn [encode decode jval_ok]. rewrite base64_roundtrip by done. split; [done|].
    by apply plain_utf8, base64_plain.
  - destruct v; try done. cbn [encode decode jval_ok]. rewrite HexBytes_Unmarshal_text by done. split; [done|].
    by apply plain_utf8, hex_plain.
  - destruct v as [|b| | | |]; try done. destruct Hv as (j & Hj & ->). cbn [encode decode]. by rewrite parse_print.
  - destruct v as [| | |vs| |]; try done. destruct (all_ok_kept t vs (IH Hok) Hv) as [Hd Hj].
    cbn [encode decode jval_ok]. by rewrite Hd.
  - destruct v as [| | | |v|]; try done. destruct t as [| | | | | | |fs]; try done. destruct (IH Hok v Hv) as [Hd Hj].
    split; [|exact Hj]. destruct v as [| | | | |vs]; try done.
    change (obind (decode d (TStruct fs) (zero (TStruct fs)) (encode d (TStruct fs) (VStruct vs))) (fun v => Ok (VPtr v)) =
      Ok (VPtr (VStruct vs))). by rewrite Hd.
  - destruct v as [| | | | |vs]; try done. cbn in Hok. apply andb_true_iff in Hok as [Hn Hok].
    destruct (read_entries_kept fs [] fs [] vs) as [Hd Hj]; [done|done|done| |exact Hv|].
    { rewrite Forall_forall in IH |- *. intros f Hf. rewrite forallb_forall in Hok. specialize (Hok f (proj1 (list_elem_of_In _ _) Hf)).
      split; [done|by apply IH]. }
    change (zero (TStruct fs)) with (VStruct (map (fun f => zero (snd f)) fs)).
    change (encode d (TStruct fs) (VStruct vs)) with (JObj (entries_of fs vs)).
    rewrite decode_struct. cbn [app] in Hd. by rewrite Hd.
Qed.

(** ** The order of the entries *)

(** The entries of a struct are those of different fields. *)
Lemma entries_index all pre fs vs :
  all = pre ++ fs -> names_ok d all = true -> length fs = length vs ->
  Forall (fun e => exists i, find_name (map fst (readers all)) (fst e) = Some i /\ (length pre <= i)%nat) (entries_of fs vs) /\
  NoDup (map (fun e => find_name (map fst (readers all)) (fst e)) (entries_of fs vs)).
Proof.
  intros Hall Hn. revert pre vs Hall. induction fs as [|[[name tag] t] fs IH]; intros pre [|v vs] Hall Hl; try done.
  { by split; constructor. }
  rewrite entries_cons. destruct (IH (pre ++ [(name, tag, t)]) vs) as [IH1 IH2].
  { by rewrite <- app_assoc. }
  { cbn in Hl. lia. }
  assert (all !! length pre = Some (name, tag, t)) as Hi by (rewrite Hall; by apply list_lookup_middle).
  destruct (names_ok_at _ _ _ _ _ Hn Hi) as (Hf & _ & _). rewrite length_app in IH1. cbn in IH1.
  destruct (skipped tag v); cbn [app map fst].
  - split; [|exact IH2]. eapply Forall_impl; [exact IH1|]. intros e (i & He & Hle). exists i. split; [exact He|lia].
  - split.
    + constructor; [eauto|]. eapply Forall_impl; [exact IH1|]. intros e (i & He & Hle). exists i. split; [exact He|lia].
    + constructor; [|exact IH2]. rewrite Hf. intros (e & Heq & Hin)%list_elem_of_fmap. rewrite Forall_forall in IH1.
      destruct (IH1 e Hin) as (i & He & Hle). cbn in Heq. rewrite He in Heq. injection Heq as Heq. lia.
Qed.

Lemma read_entries_perm (rs : list reader) es es' vs r :
  es ≡ₚ es' -> NoDup (map (fun e => find_name (map fst rs) (fst e)) es) ->
  read_entries rs es vs = Ok r -> read_entries rs es' vs = Ok r.
Proof.
  intros Hp. revert vs r. induction Hp as [|[k j] es es' Hp IH|[k1 j1] [k2 j2] es|es1 es2 es3 H12 IH1 H23 IH2]; intros vs r Hn.
  - done.
  - cbn [read_entries]. cbn [map] in Hn. apply NoDup_cons in Hn as [_ Hn].
    destruct (find_name _ k) as [i|]; [|by apply IH]. destruct (rs !! i) as [rd|]; [|by apply IH].
    destruct (vs !! i) as [old|]; [|by apply IH]. destruct (snd rd old j); cbn; try done. by apply IH.
  - cbn [map fst] in Hn. apply NoDup_cons in Hn as [Hne _]. rewrite elem_of_cons in Hne. cbn [read_entries].
    destruct (find_name _ k1) as [i1|], (find_name _ k2) as [i2|]; try done.
    assert (i1 <> i2) as Hi by (intros ->; tauto).
    destruct (rs !! i1) as [r1|] eqn:E1, (rs !! i2) as [r2|] eqn:E2, (vs !! i1) as [o1|] eqn:V1, (vs !! i2) as [o2|] eqn:V2;
      rewrite ?E1, ?E2, ?V1, ?V2; try done;
      try destruct (snd r1 o1 j1) as [a1| |] eqn:D1; try destruct (snd r2 o2 j2) as [a2| |] eqn:D2; cbn [obind];
      rewrite ?list_lookup_insert_ne, ?V1, ?V2, ?D1, ?D2 by done; try done.
    cbn [obind]. by rewrite list_insert_insert_ne.
  - intros Hr. apply IH2; [|by apply IH1]. eapply NoDup_Permutation_proper; [|exact Hn]. symmetry. by apply fmap_Permutation.
Qed.

(** A struct is read back from its entries in any order. *)
Lemma struct_kept fs vs es :
  gtype_ok d (TStruct fs) = true -> typed (TStruct fs) (VStruct vs) -> entries_of fs vs ≡ₚ es ->
  decode d (TStruct fs) (zero (TStruct fs)) (JObj es) = Ok (VStruct vs).
Proof.
  intros Hok Hv Hp. destruct (gtype_kept _ Hok _ Hv) as [Hd _].
  change (zero (TStruct fs)) with (VStruct (map (fun f => zero (snd f)) fs)) in *.
  change (encode d (TStruct fs) (VStruct vs)) with (JObj (entries_of fs vs)) in Hd. rewrite decode_struct in *.
  cbn in Hok. apply andb_true_iff in Hok as [Hn _].
  assert (length fs = length vs) as Hl.
  { clear -Hv. revert vs Hv. induction fs as [|[[n tg] t] fs IH]; intros [|v vs] Hv; try done. cbn. f_equal. apply IH, Hv. }
  destruct (entries_index fs [] fs vs) as [_ Hnd]; [done|done|done|].
  destruct (read_entries (readers fs) (entries_of fs vs) _) as [r| |] eqn:Er; try done.
  by rewrite (read_entries_perm _ _ _ _ _ Hp Hnd Er).
Qed.

(** ** What is read has the type *)

(** Integers are in the range of their kinds. *)
Fixpoint shaped (t : gtype) (v : gval) {struct t} : Prop :=
  match t, v with
  | TInt k, VInt z => in_kind k z
  | TStr, VText _ | TBytes, VText _ | THex, VText _ | TRaw, VText _ => True
  | TBytes, VNil | TSlice _, VNil | TPtr _, VNil => True
  | TSlice t, VSlice vs => Forall (shaped t) vs
  | TPtr t, VPtr v => shaped t v
  | TStruct fs, VStruct vs =>
      (fix go (fs : list (string * string * gtype)) (vs : list gval) : Prop :=
         match fs, vs with
         | [], [] => True
         | (_, t) :: fs, v :: vs => shaped t v /\ go fs vs
         | _, _ => False
         end) fs vs
  | _, _ => False
  end.

Definition shaped_fields (fs : list (string * string * gtype)) (vs : list gval) : Prop :=
  Forall2 (fun f v => shaped (snd f) v) fs vs.

Lemma shaped_struct fs vs : shaped (TStruct fs) (VStruct vs) <-> shaped_fields fs vs.
Proof.
  unfold shaped_fields. revert vs. induction fs as [|[nt t] fs IH]; intros [|v vs]; cbn [shaped] in *.
  - split; [constructor|done].
  - split; [done|inversion 1].
  - split; [done|inversion 1].
  - rewrite Forall2_cons. cbn [snd]. specialize (IH vs). cbn [shaped] in IH. by rewrite <- IH.
Qed.

Lemma in_kind_zero k : k <> KOther -> in_kind k 0.
Proof. destruct k; cbn; intros; try done; lia. Qed.

Lemma convert_in_kind k i : k <> KOther -> in_kind k (convert k i).
Proof.
  unfold in_kind, convert. intros Hk. assert (1 <= width k) by (destruct k; cbn; try lia; done).
  pose proof (Z.mod_pos_bound (i + 2 ^ (width k - 1)) (2 ^ width k)). pose proof (Z.mod_pos_bound i (2 ^ width k)).
  assert (0 < 2 ^ width k) by (apply Z.pow_pos_nonneg; lia).
  assert (2 ^ width k = 2 * 2 ^ (width k - 1)) by (rewrite <- Z.pow_succ_r by lia; f_equal; lia).
  destruct (signed k); lia.
Qed.

Lemma codec_in_kind k old tok : k <> KOther -> in_kind k old -> in_kind k (codec_Decode k old tok).
Proof.
  intros Hk Ho. assert (forall dec, codec_Decode k old tok = dec k old tok -> in_kind k (dec k old tok) -> in_kind k (codec_Decode k old tok))
    as Hc by (intros dec ->; done).
  destruct (signed k) eqn:E.
  - apply (Hc decodeSigned); [by destruct k|]. unfold decodeSigned. destruct tok as [s| |]; [destruct (ParseInt s)| |];
      auto using convert_in_kind, in_kind_zero.
  - apply (Hc decodeUnsigned); [by destruct k|]. unfold decodeUnsigned. destruct tok as [s| |]; [destruct (ParseUint s)| |];
      auto using convert_in_kind, in_kind_zero.
Qed.

(** Reading keeps the shape of a type. *)
Definition stays (t : gtype) (dec : gval -> jval -> outcome gval) : Prop :=
  forall old j v, shaped t old -> dec old j = Ok v -> shaped t v.

Lemma decode_int_stays k : stays (TInt k) (decode_int k).
Proof.
  intros old j v Ho. unfold decode_int. destruct j; try done; [by intros [= <-]|].
  destruct (in_kindb k n) eqn:E; [|done]. intros [= <-]. by apply in_kindb_true.
Qed.

Lemma field_stays tag t : gtype_ok d t = true -> stays t (decode d t) -> stays t (decode_field d tag t (decode d t)).
Proof.
  intros Hok Hs. destruct t as [k| | | | | | |]; try done.
  - cbn in Hok. apply negb_true_iff, bool_decide_eq_false in Hok. intros old j v Ho. unfold decode_field.
    destruct (d_codec d tag k) as [k'|] eqn:Eb.
    + apply codec_kind in Eb as [-> _]. destruct old as [z| | | | |]; try done. unfold decode_codec, int_of.
      destruct j; try case_match; try done; intros [= <-]; by apply codec_in_kind.
    + destruct (d_quotes d tag k); [|by apply Hs]. unfold decode_quoted. destruct j as [| | | |s| |]; try done; [by intros [= <-]|].
      destruct (if signed k then ParseInt s else ParseUint s); cbn [obind]; try done. by apply decode_int_stays.
  - intros old j v Ho. unfold decode_field. destruct (d_string d tag); [|by apply Hs].
    destruct j as [| | | |s| |]; try done; [by intros [= <-]|]. destruct (json_Parse s); cbn [obind]; try done. by apply Hs.
Qed.

Lemma all_ok_forall {A B} (f : A -> outcome B) (P : B -> Prop) l r :
  (forall x y, f x = Ok y -> P y) -> all_ok f l = Ok r -> Forall P r.
Proof.
  intros Hf. revert r. induction l as [|x l IH]; intros r; cbn; [intros [= <-]; constructor|].
  destruct (f x) eqn:E; cbn; try done. destruct (all_ok f l); cbn; try done. intros [= <-]. constructor; eauto.
Qed.

Lemma read_entries_stays fs es vs r :
  Forall (fun f => stays (snd f) (decode_field d (snd (fst f)) (snd f) (decode d (snd f)))) fs ->
  shaped_fields fs vs -> read_entries (readers fs) es vs = Ok r -> shaped_fields fs r.
Proof.
  intros Hfs. revert vs. induction es as [|[k j] es IH]; intros vs Hvs; cbn [read_entries]; [by intros [= <-]|].
  destruct (find_name _ k) as [i|]; [|by apply IH]. destruct (readers fs !! i) as [rd|] eqn:Er; [|by apply IH].
  destruct (vs !! i) as [old|] eqn:Ev; [|by apply IH].
  unfold readers in Er. rewrite list_lookup_fmap in Er. destruct (fs !! i) as [f|] eqn:Ef; [|done]. injection Er as <-. cbn [snd].
  destruct (decode_field _ _ _ _ old j) as [v| |] eqn:Ed; cbn [obind]; try done. apply IH.
  assert (shaped (snd f) v) as Hv.
  { rewrite Forall_lookup in Hfs. refine (Hfs i f Ef old j v _ Ed). exact (Forall2_lookup_lr _ _ _ _ _ _ Hvs Ef Ev). }
  unfold shaped_fields. rewrite <- (list_insert_id fs i f Ef). by apply Forall2_insert.
Qed.

Lemma zero_shaped t : gtype_ok d t = true -> shaped t (zero t).
Proof.
  induction t as [k| | | | |t IH|t IH|fs IH] using gtype_nested_ind; intros Hok; try done.
  - cbn in *. apply in_kind_zero. by apply negb_true_iff, bool_decide_eq_false in Hok.
  - change (shaped (TStruct fs) (VStruct (map (fun f => zero (snd f)) fs))). apply shaped_struct. cbn in Hok.
    apply andb_true_iff in Hok as [_ Hok]. induction IH as [|f fs Hf IH IHfs]; [constructor|]. cbn in *.
    apply andb_true_iff in Hok as [Hokf Hok]. constructor; [by apply Hf|by apply IHfs].
Qed.

Lemma decode_stays t : gtype_ok d t = true -> stays t (decode d t).
Proof.
  induction t as [k| | | | |t IH|t IH|fs IH] using gtype_nested_ind; intros Hok old j v Ho.
  - by apply decode_int_stays.
  - cbn. destruct j; try done; by intros [= <-].
  - cbn. destruct j as [| | | |s|js|]; try done; [by intros [= <-]|destruct (base64_DecodeString s)|destruct (all_ok byte_of js)];
      cbn; try done; by intros [= <-].
  - cbn. destruct (HexBytes_UnmarshalJSON _); cbn; try done. by intros [= <-].
  - cbn. by intros [= <-].
  - cbn. destruct j as [| | | | |js|]; try done; [by intros [= <-]|]. destruct (all_ok _ js) as [vs| |] eqn:E; cbn; try done.
    intros [= <-]. apply (all_ok_forall _ (shaped t)) in E; [done|]. intros x y. apply IH; [done|by apply zero_shaped].
  - destruct t as [| | | | | | |fs]; try done. intros Hd.
    assert (v = VNil \/ exists w old', v = VPtr w /\ shaped (TStruct fs) old' /\ decode d (TStruct fs) old' j = Ok w) as [->|(w & old' & -> & Hs & Hw)].
    { cbn [decode] in Hd. set (old' := match old with VPtr v => v | _ => zero (TStruct fs) end).
      assert (shaped (TStruct fs) old') by (destruct old; try done; by apply zero_shaped).
      destruct j; [injection Hd as <-; by left|..]; right;
        match type of Hd with obind ?o _ = _ => destruct o as [w| |] eqn:Ew; cbn [obind] in Hd; try done end;
        injection Hd as <-; exists w, old'; done. }
    + done.
    + exact (IH Hok old' j w Hs Hw).
  - destruct old as [| | | | |vs]; try done. destruct j as [| | | | | |es]; try done; [by intros [= <-]|]. rewrite decode_struct.
    destruct (read_entries _ es vs) as [r| |] eqn:Er; cbn [obind]; try done. intros [= <-]. apply shaped_struct.
    eapply read_entries_stays; [|by apply shaped_struct|exact Er]. cbn in Hok. apply andb_true_iff in Hok as [_ Hok].
    rewrite forallb_forall in Hok. apply Forall_forall. intros f Hf. specialize (Hok f (proj1 (list_elem_of_In _ _) Hf)).
    apply field_stays; [done|]. rewrite Forall_forall in IH. by apply IH.
Qed.

End RoundTrip.

(** What [jsonx.Marshal] writes of a value, [jsonx.Unmarshal] reads into a new
    variable of the type. *)
Theorem jsonx_roundtrip `{JsonTextOk} t v bz :
  gtype_ok jsonx t = true -> typed t v -> jsonx_Marshal t v = Ok bz -> jsonx_Unmarshal t (zero t) bz = Ok v.
Proof.
  intros Hok Hv [= <-]. destruct (gtype_kept jsonx t Hok v Hv) as [Hd Hj]. unfold jsonx_Unmarshal. by rewrite parse_print.
Qed.
