(* ===== verification/JsonForms.v ===== *)
(** * JsonForms: the JSON forms of the program's data

    The methods [MarshalJSON] and [UnmarshalJSON] of the parameters
    ([ctrlers/types/gov_params.go]), of a proposal ([ctrlers/gov/proposal/proposal.go]),
    of a reward ([ctrlers/supply/reward.go]), of an answer to a query
    ([rpc/responses.go]) and of a genesis holder ([genesis/genesis_asset_holder.go]),
    with the anonymous structs of the answers in the [Query] methods of the
    controllers.  Each is a type of GoJson with the fields and tags of the code.
    Texts of 256-bit numbers are parameters, as elsewhere; [Dec] and [String] of
    them are decimal.

    These definitions implement the parameters of the controllers ([GovJson],
    [QueryJson], [GenesisJson], [GenesisWrite]).  Shown: what is written is read
    back; parameters read from any text are in the range of their fields; a number
    where the parameters have a text panics.  [ToyJson], at the end, is an instance of
    the text of JSON. *)
From stdpp Require Import base gmap list strings countable.
From Stdlib Require Import ZArith Lia.
From S2P Require Import Prelude XErrors GoMonad LedgerKeys Iavl Ledger Units HexBytes Proto GovParams.
From S2P Require Import Account TrxTypes Signer AcctCtrler VPowerItems ValSet VPowerCtrler Proposal GovCtrler.
From S2P Require Import SupplyCtrler TrxCtx MetaDB TrxExecutor App EvmTransition EvmCtrler Query.
From S2P Require Import GovInv Genesis Jsonx GoJson.

(** ** Structs *)

Definition accountT : gtype := TStruct
  [("Address", "address", THex); ("Name", "name,omitempty", TStr); ("Nonce", "nonce,string", TInt KInt64);
   ("Balance", "balance", TStr); ("Code", "code,omitempty", THex); ("DocURL", "docURL,omitempty", TStr)]%string.

Definition respStakeT : gtype := TStruct
  [("From", "owner", THex); ("To", "to", THex); ("TxHash", "txhash", THex);
   ("StartHeight", "startHeight,string", TInt KInt64); ("Power", "power,string", TInt KInt64)]%string.

(** The field [NotSignedHeights] is always nil. *)
Definition respDelegateeT : gtype := TStruct
  [("Addr", "address", THex); ("PubKey", "pubKey", THex); ("SelfPower", "selfPower,string", TInt KInt64);
   ("TotalPower", "totalPower,string", TInt KInt64); ("SlashedPower", "slashedPower,string", TInt KInt64);
   ("Delegators", "delegators", TSlice THex); ("NotSignedBlockCount", "notSingedBlockCount,string", TInt KInt64);
   ("Stakes", "stakes,omitempty", TSlice (TPtr respStakeT)); ("NotSignedHeights", "notSignedBlocks,omitempty", TRaw)]%string.

Definition respProposalT : gtype := TStruct [("Status", "status", TStr); ("Proposal", "proposal", TRaw)]%string.

Definition rewardT : gtype := TStruct
  [("Address", "address,omitempty", THex); ("Issued", "issued,omitempty", TStr); ("Withdrawn", "withdrawn,omitempty", TStr);
   ("Slashed", "slashed,omitempty", TStr); ("Cumulated", "cumulated,omitempty", TStr);
   ("Height", "height,omitempty", TInt KInt64)]%string.

Definition VMCallResultT : gtype := TStruct
  [("UsedGas", "usedGas,string,omitempty", TInt KInt64); ("Err", "vmErr,string,omitempty", TStr);
   ("ReturnData", "returnData,omitempty", TBytes)]%string.

Definition queryResultT : gtype := TStruct
  [("Code", "code,omitempty", TInt KUint32); ("Log", "log,omitempty", TStr); ("Info", "info,omitempty", TStr);
   ("Index", "index,omitempty", TInt KInt64); ("Key", "key,omitempty", THex); ("Value", "value,omitempty", TRaw);
   ("ProofOps", "proof_ops,omitempty", TRaw); ("Height", "height,omitempty", TInt KInt64);
   ("Codespace", "codespace,omitempty", TStr)]%string.

Definition voterObjT : gtype := TStruct
  [("Address", EmptyString, THex); ("Power", EmptyString, TInt KInt64); ("Choice", EmptyString, TInt KInt32)]%string.

Definition optionObjT : gtype := TStruct [("Option", EmptyString, TStr); ("Votes", EmptyString, TInt KInt64)]%string.

Definition proposalObjT : gtype := TStruct
  [("PropType", EmptyString, TInt KInt32); ("TxHash", EmptyString, THex); ("StartVotingHeight", EmptyString, TInt KInt64);
   ("EndVotingHeight", EmptyString, TInt KInt64); ("ApplyHeight", EmptyString, TInt KInt64);
   ("TotalVotingPower", EmptyString, TInt KInt64); ("MajorityPower", EmptyString, TInt KInt64);
   ("Voters", EmptyString, TSlice (TPtr voterObjT)); ("Options", EmptyString, TSlice (TPtr optionObjT));
   ("MajorOption", EmptyString, TPtr optionObjT)]%string.

Definition assetHolderT : gtype := TStruct [("Address", "address", THex); ("Balance", "balance", TStr)]%string.

Definition genesisAppStateT : gtype := TStruct
  [("AssetHolders", "assetHolders", TSlice TRaw); ("GovParams", "govParams", TRaw)]%string.

(** The message generated from [gov_params.proto]. *)
Definition govParamsT : gtype := TStruct
  [("Version", "version,omitempty", TInt KInt32);
   ("EmptyBlockIntervalSecs", "empty_block_interval_secs,omitempty", TInt KInt32);
   ("MaxValidatorCnt", "max_validator_cnt,omitempty", TInt KInt32);
   ("MinValidatorPower", "min_validator_power,omitempty", TInt KInt64);
   ("MinDelegatorPower", "min_delegator_power,omitempty", TInt KInt64);
   ("MaxValidatorsOfDelegator", "max_validators_of_delegator,omitempty", TInt KInt32);
   ("MaxDelegatorsOfValidator", "max_delegators_of_validator,omitempty", TInt KInt32);
   ("MinSelfPowerRate", "min_self_power_rate,omitempty", TInt KInt32);
   ("MaxUpdatablePowerRate", "max_updatable_power_rate,omitempty", TInt KInt32);
   ("MaxIndividualPowerRate", "max_individual_power_rate,omitempty", TInt KInt32);
   ("MinBondingBlocks", "min_bonding_blocks,omitempty", TInt KInt64);
   ("MinSignedBlocks", "min_signed_blocks,omitempty", TInt KInt64);
   ("LazyUnbondingBlocks", "lazy_unbonding_blocks,omitempty", TInt KInt64);
   ("XMaxTotalSupply", "_max_total_supply,omitempty", TBytes);
   ("InflationWeightPermil", "inflation_weight_permil,omitempty", TInt KInt32);
   ("InflationCycleBlocks", "inflation_cycle_blocks,omitempty", TInt KInt64);
   ("BondingBlocksWeightPermil", "bonding_blocks_weight_permil,omitempty", TInt KInt32);
   ("RipeningBlocks", "ripening_blocks,omitempty", TInt KInt64);
   ("XRewardPoolAddress", "_reward_pool_address,omitempty", TBytes);
   ("XDeadAddress", "_dead_address,omitempty", TBytes);
   ("ValidatorRewardRate", "validator_reward_rate,omitempty", TInt KInt32);
   ("TxFeeRewardRate", "tx_fee_reward_rate,omitempty", TInt KInt32);
   ("SlashRate", "slash_rate,omitempty", TInt KInt32);
   ("XGasPrice", "_gas_price,omitempty", TBytes);
   ("MinTrxGas", "min_trx_gas,omitempty", TInt KInt64);
   ("BlockSizeLimit", "block_size_limit,omitempty", TInt KInt64);
   ("BlockGasLimit", "block_gas_limit,omitempty", TInt KInt64);
   ("MinVotingPeriodBlocks", "min_voting_period_blocks,omitempty", TInt KInt64);
   ("MaxVotingPeriodBlocks", "max_voting_period_blocks,omitempty", TInt KInt64);
   ("LazyApplyingBlocks", "lazy_applying_blocks,omitempty", TInt KInt64)]%string.

Lemma forms_ok : forallb (gtype_ok jsonx)
  [accountT; respStakeT; respDelegateeT; respProposalT; rewardT; VMCallResultT; queryResultT; proposalObjT; assetHolderT;
   genesisAppStateT; govParamsT] = true.
Proof. vm_compute. reflexivity. Qed.

(** ** Methods *)

Section Forms.
Context `{JsonText, ChainIdText, InitText}.

(** [abcitypes.ResponseQuery] with its texts; the text of the proofs is empty when
    there are none. *)
Record QueryResult := MkQueryResult {
  qr_Code : Z;
  qr_Log : bytes;
  qr_Info : bytes;
  qr_Index : Z;
  qr_Key : bytes;
  qr_Value : bytes;
  qr_ProofOps : bytes;
  qr_Height : Z;
  qr_Codespace : bytes;
}.

(** The application sets no other fields. *)
Definition result_of (resp : ResponseQuery) : QueryResult :=
  MkQueryResult (rp_Code resp) (text (rp_Log resp)) [] 0 (rp_Key resp) (rp_Value resp) [] (rp_Height resp) [].

Definition QueryResult_MarshalJSON (qr : QueryResult) : outcome bytes :=
  jsonx_Marshal queryResultT (VStruct
    [VInt (qr_Code qr); VText (qr_Log qr); VText (qr_Info qr); VInt (qr_Index qr); VText (qr_Key qr); VText (qr_Value qr);
     VText (qr_ProofOps qr); VInt (qr_Height qr); VText (qr_Codespace qr)]).

Definition QueryResult_UnmarshalJSON (bz : bytes) : outcome QueryResult :=
  obind (jsonx_Unmarshal queryResultT (zero queryResultT) bz) (fun tmpQr =>
    match tmpQr with
    | VStruct [VInt code; VText log; VText info; VInt index; VText key; VText value; VText proofs; VInt height; VText codespace] =>
        Ok (MkQueryResult code log info index key value proofs height codespace)
    | _ => Panic
    end).

Definition Reward_MarshalJSON (rwd : Reward) : outcome bytes :=
  jsonx_Marshal rewardT (VStruct
    [VText (rw_Address rwd); VText (Dec_text (rw_issued rwd)); VText (Dec_text (rw_withdrawn rwd));
     VText (Dec_text (rw_slashed rwd)); VText (Dec_text (rw_cumulated rwd)); VInt (rw_Height rwd)]).

Definition Reward_UnmarshalJSON (d : bytes) : outcome Reward :=
  obind (jsonx_Unmarshal rewardT (zero rewardT) d) (fun tmp =>
    match tmp with
    | VStruct [VText address; VText tissued; VText twithdrawn; VText tslashed; VText tcumulated; VInt height] =>
        obind (u256_MustFromDecimal tissued) (fun issued =>
        obind (u256_MustFromDecimal twithdrawn) (fun withdrawn =>
        obind (u256_MustFromDecimal tslashed) (fun slashed =>
        obind (u256_MustFromDecimal tcumulated) (fun cumulated =>
        Ok (MkReward address height issued withdrawn slashed cumulated)))))
    | _ => Panic
    end).

(** *** Proposals *)

Definition voterObj (v : Voter) : gval := VPtr (VStruct [VText (vt_Address v); VInt (vt_Power v); VInt (vt_Choice v)]).
Definition optionObj (o : VoteOption) : gval := VPtr (VStruct [VText (vo_Option o); VInt (vo_Votes o)]).

Definition GovProposal_MarshalJSON (prop : GovProposal) : outcome bytes :=
  let h := gp_Header prop in
  jsonx_Marshal proposalObjT (VStruct
    [VInt (ph_PropType h); VText (ph_TxHash h); VInt (ph_StartVotingHeight h); VInt (ph_EndVotingHeight h);
     VInt (ph_ApplyHeight h); VInt (ph_TotalVotingPower h); VInt (ph_MajorityPower h);
     VSlice (map voterObj (ph_Voters h)); VSlice (map optionObj (gp_Options prop));
     match gp_MajorOption prop with Some o => optionObj o | None => VNil end]).

(** A nil element is dereferenced. *)
Definition voter_of (v : gval) : outcome Voter :=
  match v with
  | VPtr (VStruct [VText address; VInt power; VInt choice]) => Ok (MkVoter address power choice)
  | _ => Panic
  end.

Definition option_of (v : gval) : outcome VoteOption :=
  match v with
  | VPtr (VStruct [VText option; VInt votes]) => Ok (MkVoteOption option votes)
  | _ => Panic
  end.

Definition elements (v : gval) : list gval := match v with VSlice vs => vs | _ => [] end.

(** The major option of the receiver stays when the text has none. *)
Definition GovProposal_UnmarshalJSON (prop : GovProposal) (bz : bytes) : outcome GovProposal :=
  obind (jsonx_Unmarshal proposalObjT (zero proposalObjT) bz) (fun propObj =>
    match propObj with
    | VStruct [VInt propType; VText txHash; VInt start; VInt end_; VInt apply_; VInt total; VInt majority; voters; options; major] =>
        obind (all_ok voter_of (elements voters)) (fun vs =>
        obind (all_ok option_of (elements options)) (fun os =>
        obind (match major with VNil => Ok (gp_MajorOption prop) | _ => obind (option_of major) (fun o => Ok (Some o)) end)
          (fun mo =>
        Ok (MkGovProposal (MkProposalHeader propType txHash start end_ apply_ total majority vs) os mo))))
    | _ => Panic
    end).

(** *** Parameters *)

(** A [[]byte]: nil, or a slice that may be empty. *)
Definition slice_val (o : option bytes) : gval := match o with None => VNil | Some b => VText b end.
Definition slice_of (v : gval) : outcome (option bytes) :=
  match v with VNil => Ok None | VText b => Ok (Some b) | _ => Panic end.

Definition govParams_val (gp : GovParamsRead) : gval := VStruct
  [VInt (p_Version gp); VInt (p_EmptyBlockIntervalSecs gp); VInt (p_MaxValidatorCnt gp); VInt (p_MinValidatorPower gp);
   VInt (p_MinDelegatorPower gp); VInt (p_MaxValidatorsOfDelegator gp); VInt (p_MaxDelegatorsOfValidator gp);
   VInt (p_MinSelfPowerRate gp); VInt (p_MaxUpdatablePowerRate gp); VInt (p_MaxIndividualPowerRate gp);
   VInt (p_MinBondingBlocks gp); VInt (p_MinSignedBlocks gp); VInt (p_LazyUnbondingBlocks gp);
   slice_val (p_XMaxTotalSupply gp); VInt (p_InflationWeightPermil gp); VInt (p_InflationCycleBlocks gp);
   VInt (p_BondingBlocksWeightPermil gp); VInt (p_RipeningBlocks gp); slice_val (p_XRewardPoolAddress gp);
   slice_val (p_XDeadAddress gp); VInt (p_ValidatorRewardRate gp); VInt (p_TxFeeRewardRate gp); VInt (p_SlashRate gp);
   slice_val (p_XGasPrice gp); VInt (p_MinTrxGas gp); VInt (p_BlockSizeLimit gp); VInt (p_BlockGasLimit gp);
   VInt (p_MinVotingPeriodBlocks gp); VInt (p_MaxVotingPeriodBlocks gp); VInt (p_LazyApplyingBlocks gp)].

Definition govParams_of (v : gval) : outcome GovParamsRead :=
  match v with
  | VStruct [VInt a1; VInt a2; VInt a3; VInt a4; VInt a5; VInt a6; VInt a7; VInt a8; VInt a9; VInt a10; VInt a11; VInt a12;
      VInt a13; v14; VInt a15; VInt a16; VInt a17; VInt a18; v19; v20; VInt a21; VInt a22; VInt a23;
      v24; VInt a25; VInt a26; VInt a27; VInt a28; VInt a29; VInt a30] =>
      obind (slice_of v14) (fun a14 => obind (slice_of v19) (fun a19 => obind (slice_of v20) (fun a20 =>
      obind (slice_of v24) (fun a24 =>
      Ok (MkGovParams a1 a2 a3 a4 a5 a6 a7 a8 a9 a10 a11 a12 a13 a14 a15 a16 a17 a18 a19 a20 a21 a22 a23 a24 a25 a26 a27
        a28 a29 a30)))))
  | _ => Panic
  end.

(** A [map[string]interface{}] as its entries in the order of the keys, which is
    the order they are written in.  The loops of the methods change each entry
    by itself, whatever their order. *)
Fixpoint bytes_less (a b : bytes) : bool :=
  match a, b with
  | _, [] => false
  | [], _ :: _ => true
  | x :: a, y :: b => (x <? y) || ((x =? y) && bytes_less a b)
  end.

Fixpoint map_put (key : bytes) (v : jval) (m : list (bytes * jval)) : list (bytes * jval) :=
  match m with
  | [] => [(key, v)]
  | (k, w) :: m =>
      if bytes_Equal key k then (key, v) :: m
      else if bytes_less key k then (key, v) :: (k, w) :: m
      else (k, w) :: map_put key v m
  end.

Definition map_of (es : list (bytes * jval)) : list (bytes * jval) :=
  fold_left (fun m e => map_put (fst e) (json_any (snd e)) m) es [].

Definition Unmarshal_map (bz : bytes) : outcome (list (bytes * jval)) :=
  obind (json_Parse bz) (fun j =>
    match j with
    | JObj es => Ok (map_of es)
    | JNull => Ok []
    | _ => Err bad_value
    end).

Definition Marshal_map (m : list (bytes * jval)) : outcome bytes := Ok (json_Print (JObj m)).

(** [v.(string)] *)
Definition as_text (v : jval) : outcome bytes := match v with JStr s => Ok s | _ => Panic end.

Definition is_amount (k : bytes) : bool := bytes_Equal k (text "maxTotalSupply") || bytes_Equal k (text "gasPrice").
Definition is_address (k : bytes) : bool := bytes_Equal k (text "deadAddress") || bytes_Equal k (text "rewardPoolAddress").

Definition show_entry (e : bytes * jval) : outcome (bytes * jval) :=
  let '(k, v) := e in
  if is_amount k then
    obind (as_text v) (fun s => obind (base64_DecodeString s) (fun _v => Ok (k, JStr (Dec_text (uSetBytes _v)))))
  else if is_address k then
    obind (as_text v) (fun s => obind (base64_DecodeString s) (fun _v => Ok (k, JStr (HexBytes_String _v))))
  else Ok (k, v).

Definition read_entry (e : bytes * jval) : outcome (bytes * jval) :=
  let '(k, v) := e in
  if is_amount k then
    obind (as_text v) (fun s => obind (u256_MustFromDecimal s) (fun n => Ok (k, JStr (base64_EncodeToString (uBytes n)))))
  else if is_address k then
    obind (as_text v) (fun s => obind (hex_DecodeString s) (fun _v => Ok (k, JStr (base64_EncodeToString _v))))
  else Ok (k, v).

Definition GovParams_MarshalJSON (gp : GovParamsProto) : outcome bytes :=
  obind (jsonx_Marshal govParamsT (govParams_val (GovParams.in_memory gp))) (fun jz =>
  obind (Unmarshal_map jz) (fun tmp =>
  obind (all_ok show_entry tmp) (fun tmp =>
  Marshal_map tmp))).

Definition GovParams_UnmarshalJSON (gp : GovParamsRead) (d : bytes) : outcome GovParamsRead :=
  obind (Unmarshal_map d) (fun tmp =>
  obind (all_ok read_entry tmp) (fun tmp =>
  obind (Marshal_map tmp) (fun jz =>
  obind (jsonx_Unmarshal govParamsT (govParams_val gp) jz) govParams_of))).

(** *** Genesis *)

Definition AssetHolder_MarshalJSON (gh : Address * Z) : outcome bytes :=
  jsonx_Marshal assetHolderT (VStruct [VText (fst gh); VText (Dec_text (snd gh))]).

Definition AssetHolder_UnmarshalJSON (bz : bytes) : outcome (Address * Z) :=
  obind (jsonx_Unmarshal assetHolderT (zero assetHolderT) bz) (fun tm =>
    match tm with
    | VStruct [VText address; VText balance] => obind (u256_FromDecimal balance) (fun bal => Ok (address, bal))
    | _ => Panic
    end).

(** A pointer to a value with methods of its own: nil for [null]. *)
Definition nil_text : bytes := json_Print JNull.
Definition pointer {A} (unmarshal : bytes -> outcome A) (raw : bytes) : outcome (option A) :=
  if bytes_Equal raw [] || bytes_Equal raw nil_text then Ok None else obind (unmarshal raw) (fun a => Ok (Some a)).

Definition GenesisAppState_Marshal (ga : GenesisAppState) : outcome bytes :=
  obind (all_ok AssetHolder_MarshalJSON (ga_AssetHolders ga)) (fun holders =>
  obind (match ga_GovParams ga with Some gp => GovParams_MarshalJSON gp | None => Ok nil_text end) (fun gp =>
  jsonx_Marshal genesisAppStateT (VStruct [VSlice (map VText holders); VText gp]))).

(** A holder that is [null] is dereferenced by its first use. *)
Definition GenesisAppState_Unmarshal (bz : bytes) : outcome GenesisAppState :=
  obind (jsonx_Unmarshal genesisAppStateT (zero genesisAppStateT) bz) (fun ga =>
    match ga with
    | VStruct [holders; VText gp] =>
        obind (all_ok (fun h => match h with
                                | VText raw => obind (pointer AssetHolder_UnmarshalJSON raw) (fun o => if o is Some a then Ok a else Panic)
                                | _ => Panic
                                end) (elements holders)) (fun hs =>
        obind (pointer (GovParams_UnmarshalJSON GovParams.unset) gp) (fun gp =>
        Ok (MkGenesisAppState hs (option_map GovParams.plain gp))))
    | _ => Panic
    end).

(** *** Answers *)

Definition account_val (a : acctAnswer) : gval := VStruct
  [VText (aa_Address a); VText (aa_Name a); VInt (aa_Nonce a); VText (aa_Balance a); VText (default [] (aa_Code a)); VText (aa_DocURL a)].

(** In [node/query.go] the nonce is unsigned. *)
Definition accountT' : gtype := TStruct
  [("Address", "address", THex); ("Name", "name,omitempty", TStr); ("Nonce", "nonce,string", TInt KUint64);
   ("Balance", "balance", TStr); ("Code", "code,omitempty", THex); ("DocURL", "docURL,omitempty", TStr)]%string.

Definition account_of (v : gval) : outcome acctAnswer :=
  match v with
  | VStruct [VText address; VText name; VInt nonce; VText balance; VText code; VText url] =>
      Ok (MkAcctAnswer address name nonce balance (if bytes_Equal code [] then None else Some code) url)
  | _ => Panic
  end.

Definition stake_val (s : respStake) : gval :=
  VPtr (VStruct [VText (rs_From s); VText (rs_To s); VText (rs_TxHash s); VInt (rs_StartHeight s); VInt (rs_Power s)]).

(** A slice that was only appended to is nil when it is empty. *)
Definition appended (vs : list gval) : gval := match vs with [] => VNil | _ => VSlice vs end.

Definition delegatee_val (d : respDelegatee) : gval := VStruct
  [VText (rd_Addr d); VText (rd_PubKey d); VInt (rd_SelfPower d); VInt (rd_TotalPower d); VInt (rd_SlashedPower d);
   VSlice (map VText (rd_Delegators d)); VInt (rd_NotSignedBlockCount d); appended (map stake_val (rd_Stakes d)); VText []].

Definition proposal_val (r : respProposal) : outcome gval :=
  obind (match rpp_Proposal r with Some p => GovProposal_MarshalJSON p | None => Ok nil_text end) (fun p =>
  Ok (VStruct [VText (text (rpp_Status r)); VText p])).

Definition vmcall_val (r : VMCallResult) : gval := VStruct
  [VInt (vr_UsedGas r); VText (text (vr_Err r)); slice_val (GovParams.nilled (vr_ReturnData r))].

Definition jsonx_QueryJson : QueryJson := {|
  json_account a := jsonx_Marshal accountT (account_val a);
  unjson_account bz := obind (jsonx_Unmarshal accountT' (zero accountT') bz) account_of;
  json_account_code a := jsonx_Marshal accountT' (account_val a);
  json_stakes ss := jsonx_Marshal (TSlice (TPtr respStakeT)) (appended (map stake_val ss));
  json_delegatee d := jsonx_Marshal respDelegateeT (delegatee_val d);
  json_proposals rs := obind (all_ok proposal_val rs) (fun vs =>
    jsonx_Marshal (TSlice (TPtr respProposalT)) (appended (map VPtr vs)));
  json_proposal r := obind (proposal_val r) (jsonx_Marshal respProposalT);
  json_govItem i := match i with IGovParams gp => GovParams_MarshalJSON gp | IProposal p => GovProposal_MarshalJSON p end;
  json_reward := Reward_MarshalJSON;
  json_vmcall r := jsonx_Marshal VMCallResultT (vmcall_val r);
|}.

Definition jsonx_GovJson : GovJson := GovParams_UnmarshalJSON GovParams.unset.
Definition jsonx_GenesisJson : GenesisJson := GenesisAppState_Unmarshal.
Definition jsonx_GenesisWrite : GenesisWrite := GenesisAppState_Marshal.

End Forms.

(** ** ToyJson: a text for JSON values

    An instance of the parameters of GoJson, for the witnesses: a string of plain
    characters is itself between quotes, any other value is a letter followed by a
    number that stands for it.  The laws hold of it. *)

Module ToyJson.

Definition leaf : Type := Z + (bytes + bool).
Definition num (n : Z) : gen_tree leaf := GenLeaf (inl n).
Definition txt (s : bytes) : gen_tree leaf := GenLeaf (inr (inl s)).

Fixpoint to_tree (v : jval) : gen_tree leaf :=
  match v with
  | JNull => GenNode 0 []
  | JBool b => GenLeaf (inr (inr b))
  | JNum n => num n
  | JReal l => GenNode 1 [txt l]
  | JStr s => txt s
  | JArr vs => GenNode 2 (map to_tree vs)
  | JObj fs => GenNode 3 (map (fun f => GenNode 4 [txt (fst f); to_tree (snd f)]) fs)
  end.

Fixpoint of_tree (t : gen_tree leaf) : jval :=
  match t with
  | GenLeaf (inl n) => JNum n
  | GenLeaf (inr (inl s)) => JStr s
  | GenLeaf (inr (inr b)) => JBool b
  | GenNode 1 [GenLeaf (inr (inl l))] => JReal l
  | GenNode 2 ts => JArr (map of_tree ts)
  | GenNode 3 ts => JObj (map (fun t => match t with
                                        | GenNode 4 [GenLeaf (inr (inl k)); w] => (k, of_tree w)
                                        | _ => ([], JNull)
                                        end) ts)
  | _ => JNull
  end.

Fixpoint of_to_tree (v : jval) : of_tree (to_tree v) = v.
Proof.
  destruct v as [| | | | |vs|fs]; cbn [to_tree of_tree num txt]; try done.
  - f_equal. induction vs as [|v vs IH]; cbn [map]; f_equal; [apply of_to_tree|exact IH].
  - f_equal. induction fs as [|[k w] fs IH]; cbn [map fst snd]; f_equal; [f_equal; apply of_to_tree|exact IH].
Qed.

Definition number (v : jval) : Z := Z.pos (countable.encode (to_tree v)).

Definition toy_print (v : jval) : bytes :=
  match v with
  | JStr s => if forallb plain s then 34 :: s ++ [34] else 118 :: Dec_text (number v)
  | _ => 118 :: Dec_text (number v)
  end.

Definition toy_parse (bz : bytes) : outcome jval :=
  match bz with
  | 34 :: _ => if (2 <=? length bz)%nat then Ok (JStr (unquoted bz)) else Err (GoError "unexpected end of JSON input")
  | 118 :: s =>
      match parse_digits s with
      | Some (Z.pos p) =>
          match countable.decode p with Some t => Ok (of_tree t) | None => Err (GoError "invalid character") end
      | _ => Err (GoError "invalid character")
      end
  | _ => Err (GoError "unexpected end of JSON input")
  end.

#[export] Instance toy_json : JsonText := {| json_Print := toy_print; json_Parse := toy_parse; json_any v := v |}.

Lemma digits_parsed n : 0 <= n -> parse_digits (Dec_text n) = Some n.
Proof.
  intros Hn. unfold Dec_text, parse_digits. pose proof (text_uint_text (N.to_uint (Z.to_N n))) as Ht.
  destruct (uint_text (N.to_uint (Z.to_N n))) as [|c t] eqn:Eu.
  - exfalso. cbn in Ht. injection Ht as Ht. pose proof (DecimalN.Unsigned.of_to (Z.to_N n)) as Ho.
    rewrite <- Ht in Ho. cbn in Ho. assert (n = 0) as -> by lia. cbn in Eu. done.
  - rewrite Ht. cbn [option_map]. rewrite DecimalN.Unsigned.of_to. f_equal. lia.
Qed.

Lemma parse_number v : toy_parse (118 :: Dec_text (number v)) = Ok v.
Proof.
  unfold toy_parse, number. rewrite digits_parsed by lia. rewrite countable.decode_encode. by rewrite of_to_tree.
Qed.

Lemma number_utf8 v : utf8_Valid (118 :: Dec_text (number v)) = true.
Proof. apply plain_utf8. change (forallb plain (Dec_text (number v)) = true). apply digits_plain. Qed.

#[export] Instance toy_json_ok : JsonTextOk.
Proof.
  split.
  - intros v _. cbn. destruct v as [| | | |s| |]; try apply parse_number. unfold toy_print. destruct (forallb plain s) eqn:E; [|apply parse_number].
    unfold toy_parse. destruct (Nat.leb_spec 2 (length (34 :: s ++ [34]))) as [_|Hl]; [by rewrite unquoted_quote|].
    cbn in Hl. rewrite length_app in Hl. cbn in Hl. lia.
  - intros v. cbn. destruct v; try done. unfold toy_print. by destruct (forallb plain s).
  - intros bz. cbn. unfold toy_parse. repeat case_match; done.
  - intros v _. cbn. destruct v as [| | | |s| |]; try apply number_utf8. unfold toy_print. destruct (forallb plain s) eqn:E; [|apply number_utf8].
    cbn [utf8_Valid]. change ((0 <=? 34) && (34 <? 128)) with true. cbn iota. clear -E. induction s as [|c s IH]; [done|].
    cbn [forallb] in E. apply andb_true_iff in E as [Hc E]. cbn [app utf8_Valid]. unfold plain in Hc.
    destruct (Z.leb_spec 0 c), (Z.ltb_spec c 128); cbn; [by apply IH|lia..].
  - intros s Hs. cbn. unfold toy_print. by rewrite Hs.
  - done.
  - done.
  - done.
Qed.

End ToyJson.
