(* ===== verification/JsonProps.v ===== *)
(** * JsonProps: JSON forms are read back

    Round trips of the methods of JsonForms: what a node writes of a reward, a
    proposal, its parameters, a genesis state or the answer to a query is read back
    unchanged.  Parameters read from any text are in the range of their fields,
    which discharges what the governance controller assumes of them.  A proposal
    that gives a number where the parameters have a text stops the node. *)
From stdpp Require Import base gmap list strings.
From Stdlib Require Import ZArith Lia.
From S2P Require Import Prelude XErrors GoMonad LedgerKeys Iavl Ledger Units HexBytes Proto GovParams.
From S2P Require Import Account TrxTypes Signer AcctCtrler VPowerItems ValSet VPowerCtrler Proposal GovCtrler.
From S2P Require Import SupplyCtrler TrxCtx MetaDB TrxExecutor App EvmTransition EvmCtrler Query.
From S2P Require Import GovInv GovProps Genesis Jsonx GoJson JsonForms.

(** [uint256] reads the decimal text of a number. *)
Class U256TextOk `{ChainIdText, InitText} : Prop := {
  must_decimal n : in_u256 n -> u256_MustFromDecimal (Dec_text n) = Ok n;
  from_decimal n : in_u256 n -> u256_FromDecimal (Dec_text n) = Ok n;
}.

Section RoundTrips.
Context `{JsonTextOk, !ChainIdText, !InitText, !U256TextOk}.

(** ** Fields *)

Lemma field_ok tag t v :
  hidden tag = false -> (is_empty v = true -> v = zero t) -> typed t v -> if skipped tag v then v = zero t else typed t v.
Proof. intros Hh He Hv. unfold skipped. rewrite Hh. cbn [orb]. destruct (tag_option _ _); cbn; [|done]. destruct (is_empty v); auto. Qed.

Lemma full_field tag t v :
  hidden tag = false -> tag_option "omitempty" tag = false -> typed t v -> if skipped tag v then v = zero t else typed t v.
Proof. intros Hh Ho Hv. unfold skipped. by rewrite Hh, Ho. Qed.

Lemma int_field tag k z : hidden tag = false -> in_kind k z -> if skipped tag (VInt z) then VInt z = zero (TInt k) else typed (TInt k) (VInt z).
Proof. intros Hh Hz. apply field_ok; [done| |done]. cbn. intros ->%Z.eqb_eq. done. Qed.

Lemma bytes_empty b : bytes_Equal b [] = true -> b = [].
Proof. by intros Hb%bytes_Equal_true. Qed.

Lemma str_field tag s : hidden tag = false -> utf8_Valid s = true -> if skipped tag (VText s) then VText s = zero TStr else typed TStr (VText s).
Proof. intros Hh Hs. apply field_ok; [done| |done]. cbn. by intros ->%bytes_empty. Qed.

Lemma hex_field tag b : hidden tag = false -> Forall is_byte b -> if skipped tag (VText b) then VText b = zero THex else typed THex (VText b).
Proof. intros Hh Hb. apply field_ok; [done| |done]. cbn. by intros ->%bytes_empty. Qed.

Lemma bytes_field tag b :
  hidden tag = false -> Forall is_byte b ->
  let v := slice_val (GovParams.nilled b) in if skipped tag v then v = zero TBytes else typed TBytes v.
Proof.
  intros Hh Hb v. subst v. unfold GovParams.nilled. destruct (bytes_Equal b []) eqn:E; cbn [slice_val]; (apply field_ok; [done| |done]).
  - done.
  - cbn. by rewrite E.
Qed.

(** A raw message: a text, or nothing where that is left out. *)
Definition raw_ok (b : bytes) : Prop := exists j, jval_ok j = true /\ b = json_Print j.

Lemma raw_field tag b :
  hidden tag = false -> (b = [] /\ tag_option "omitempty" tag = true) \/ raw_ok b ->
  if skipped tag (VText b) then VText b = zero TRaw else typed TRaw (VText b).
Proof.
  intros Hh [[-> Ho]|Hb]; [|apply field_ok; [done| |done]; cbn; by intros ->%bytes_empty].
  unfold skipped. by rewrite Ho, orb_true_r.
Qed.

Lemma typed_struct fs vs : typed (TStruct fs) (VStruct vs) <-> typed_fields fs vs.
Proof. done. Qed.

Lemma dec_utf8 n : utf8_Valid (Dec_text n) = true.
Proof. apply plain_utf8, digits_plain. Qed.

End RoundTrips.

(** The fields of a struct one after the other; what is left is what the type asks
    of each. *)
Ltac field := lazymatch goal with
  | |- if skipped _ _ then _ else typed (TInt _) _ => apply int_field; [reflexivity|]
  | |- if skipped _ _ then _ else typed TStr _ => apply str_field; [reflexivity|]
  | |- if skipped _ _ then _ else typed THex _ => apply hex_field; [reflexivity|]
  | |- if skipped _ _ then _ else typed TBytes _ => apply bytes_field; [reflexivity|]
  | |- if skipped _ _ then _ else typed TRaw _ => apply raw_field; [reflexivity|]
  | |- if skipped _ _ then _ else typed _ _ => idtac
  end.
Ltac fields := apply typed_struct; repeat (apply typed_cons; split; [field|]); [..|exact I].

Ltac form := refine (proj1 (forallb_forall _ _) forms_ok _ _); cbn [In]; tauto.

Section Methods.
Context `{JsonTextOk, !ChainIdText, !InitText, !U256TextOk}.

Definition reward_ok (r : Reward) : Prop :=
  Forall is_byte (rw_Address r) /\ in_i64 (rw_Height r) /\
  Forall in_u256 [rw_issued r; rw_withdrawn r; rw_slashed r; rw_cumulated r].

Theorem reward_json_roundtrip r bz : reward_ok r -> Reward_MarshalJSON r = Ok bz -> Reward_UnmarshalJSON bz = Ok r.
Proof.
  intros (Ha & Hh & Hn) Hbz. rewrite !Forall_cons in Hn. unfold Reward_UnmarshalJSON.
  erewrite (jsonx_roundtrip rewardT); [|form| |exact Hbz].
  - cbn [obind]. rewrite !must_decimal by tauto. by destruct r.
  - fields; auto using dec_utf8.
Qed.

Definition result_ok (qr : QueryResult) : Prop :=
  in_kind KUint32 (qr_Code qr) /\ in_i64 (qr_Index qr) /\ in_i64 (qr_Height qr) /\ Forall is_byte (qr_Key qr) /\
  Forall (fun s => utf8_Valid s = true) [qr_Log qr; qr_Info qr; qr_Codespace qr] /\
  Forall (fun b => b = [] \/ raw_ok b) [qr_Value qr; qr_ProofOps qr].

Lemma omitted_or b : b = [] \/ raw_ok b -> (b = [] /\ true = true) \/ raw_ok b.
Proof. tauto. Qed.

Lemma result_typed qr : result_ok qr -> typed queryResultT (VStruct
  [VInt (qr_Code qr); VText (qr_Log qr); VText (qr_Info qr); VInt (qr_Index qr); VText (qr_Key qr); VText (qr_Value qr);
   VText (qr_ProofOps qr); VInt (qr_Height qr); VText (qr_Codespace qr)]).
Proof.
  intros (Hc & Hi & Hh & Hk & Hs & Hr). rewrite !Forall_cons in Hs. rewrite !Forall_cons in Hr.
  destruct Hs as (Hs1 & Hs2 & Hs3 & _), Hr as (Hr1 & Hr2 & _). fields; auto using omitted_or.
Qed.

Theorem result_json_roundtrip qr bz :
  result_ok qr -> QueryResult_MarshalJSON qr = Ok bz -> QueryResult_UnmarshalJSON bz = Ok qr.
Proof.
  intros Hok Hbz. unfold QueryResult_UnmarshalJSON.
  erewrite (jsonx_roundtrip queryResultT); [|form|by apply result_typed|exact Hbz]. by destruct qr.
Qed.

(** The text of a result is that of an object, and any text of it is read back. *)
Lemma result_tree qr : result_ok qr ->
  exists bz es, QueryResult_MarshalJSON qr = Ok bz /\ json_Parse bz = Ok (JObj es) /\
    forall txt, json_Parse txt = Ok (JObj es) -> QueryResult_UnmarshalJSON txt = Ok qr.
Proof.
  intros Hok. pose proof (result_json_roundtrip qr _ Hok eq_refl) as Hread.
  destruct (gtype_kept jsonx queryResultT ltac:(form) _ (result_typed qr Hok)) as [_ Hj].
  apply parse_print in Hj. do 2 eexists. split; [reflexivity|]. split; [exact Hj|]. intros txt Ht.
  rewrite <- Hread. unfold QueryResult_UnmarshalJSON, jsonx_Unmarshal. by rewrite Ht, Hj.
Qed.

(** ** Proposals *)

Definition voter_ok (v : Voter) : Prop := Forall is_byte (vt_Address v) /\ in_i64 (vt_Power v) /\ in_kind KInt32 (vt_Choice v).
Definition voption_ok (o : VoteOption) : Prop := utf8_Valid (vo_Option o) = true /\ in_i64 (vo_Votes o).

Definition proposal_text_ok (p : GovProposal) : Prop :=
  in_kind KInt32 (ph_PropType (gp_Header p)) /\ Forall is_byte (ph_TxHash (gp_Header p)) /\
  Forall in_i64 [ph_StartVotingHeight (gp_Header p); ph_EndVotingHeight (gp_Header p); ph_ApplyHeight (gp_Header p);
    ph_TotalVotingPower (gp_Header p); ph_MajorityPower (gp_Header p)] /\
  Forall voter_ok (ph_Voters (gp_Header p)) /\ Forall voption_ok (gp_Options p) /\
  (forall o, gp_MajorOption p = Some o -> voption_ok o).

Lemma voters_typed vs : Forall voter_ok vs -> typed (TSlice (TPtr voterObjT)) (VSlice (map voterObj vs)).
Proof. intros Hvs. cbn [typed]. apply Forall_fmap. eapply Forall_impl; [exact Hvs|]. intros v (Ha & Hp & Hc). fields; done. Qed.

Lemma option_typed o : voption_ok o -> typed (TPtr optionObjT) (optionObj o).
Proof. intros (Ho & Hv). cbn [typed optionObj]. fields; done. Qed.

Lemma options_typed os : Forall voption_ok os -> typed (TSlice (TPtr optionObjT)) (VSlice (map optionObj os)).
Proof. intros Hos. cbn [typed]. apply Forall_fmap. eapply Forall_impl; [exact Hos|]. intros o Ho. by apply option_typed. Qed.

Lemma all_ok_map {A B C} (f : B -> outcome C) (g : A -> B) (h : A -> C) l :
  (forall x, x ∈ l -> f (g x) = Ok (h x)) -> all_ok f (map g l) = Ok (map h l).
Proof.
  induction l as [|x l IH]; intros Hf; [done|]. cbn. rewrite (Hf x) by (by left). cbn. rewrite IH; [done|].
  intros y Hy. apply Hf. by right.
Qed.

(** A proposal is read back into a new one. *)
Theorem proposal_json_roundtrip p :
  proposal_text_ok p ->
  exists es, GovProposal_MarshalJSON p = Ok (json_Print (JObj es)) /\ jval_ok (JObj es) = true /\
    forall p0, gp_MajorOption p0 = None -> GovProposal_UnmarshalJSON p0 (json_Print (JObj es)) = Ok p.
Proof.
  intros (Ht & Hh & Hz & Hv & Ho & Hm). rewrite !Forall_cons in Hz. destruct Hz as (Hz1 & Hz2 & Hz3 & Hz4 & Hz5 & _).
  unfold GovProposal_MarshalJSON, GovProposal_UnmarshalJSON, jsonx_Marshal. set (v := VStruct _).
  assert (typed proposalObjT v) as Htyped.
  { fields; try done.
    + apply full_field; [done|done|by apply voters_typed].
    + apply full_field; [done|done|by apply options_typed].
    + apply full_field; [done|done|]. destruct (gp_MajorOption p); [by apply option_typed, Hm|done]. }
  assert (gtype_ok jsonx proposalObjT = true) as Hok by form.
  eexists. split; [reflexivity|]. split; [exact (proj2 (gtype_kept jsonx proposalObjT Hok v Htyped))|]. intros p0 H0p.
  erewrite (jsonx_roundtrip proposalObjT); [|exact Hok|exact Htyped|reflexivity]. subst v. clear Htyped Hok.
  cbn [obind elements]. rewrite (all_ok_map voter_of voterObj id), (all_ok_map option_of optionObj id), !map_id; cbn [obind].
  - rewrite H0p. destruct p as [[] os [[]|]]; done.
  - by intros [] _.
  - by intros [] _.
Qed.

(** ** Parameters *)

Lemma map_put_perm k v m : k ∉ map fst m -> map_put k v m ≡ₚ (k, v) :: m.
Proof.
  induction m as [|[k' w] m IH]; intros Hk; [done|]. cbn [map_put]. cbn in Hk. rewrite elem_of_cons in Hk.
  destruct (bytes_Equal k k') eqn:E; [apply bytes_Equal_true in E; tauto|]. destruct (bytes_less k k'); [done|].
  rewrite IH by tauto. constructor.
Qed.

Lemma map_of_perm es :
  NoDup (map fst es) -> Forall (fun e => json_any (snd e) = snd e) es -> map_of es ≡ₚ es.
Proof.
  intros Hn Ha. unfold map_of.
  cut (forall acc, NoDup (map fst es ++ map fst acc) ->
    fold_left (fun m e => map_put (fst e) (json_any (snd e)) m) es acc ≡ₚ es ++ acc).
  { intros Hc. rewrite Hc by (cbn; by rewrite app_nil_r). by rewrite app_nil_r. }
  clear Hn. induction Ha as [|[k v] es Hv Ha IH]; intros acc Hn; [done|]. cbn [fold_left fst snd] in *. rewrite Hv.
  apply NoDup_cons in Hn as [Hk Hn]. rewrite elem_of_app in Hk. cbn [map app].
  assert (map_put k v acc ≡ₚ (k, v) :: acc) as Hp by (apply map_put_perm; tauto).
  rewrite IH, Hp; [by rewrite Permutation_middle|].
  rewrite (fmap_Permutation fst _ _ Hp). change (NoDup (map fst es ++ k :: map fst acc)).
  rewrite <- Permutation_middle. constructor; [rewrite elem_of_app; tauto|done].
Qed.

Lemma all_ok_fun {A B} (f : A -> outcome B) (g : A -> B) l : Forall (fun x => f x = Ok (g x)) l -> all_ok f l = Ok (map g l).
Proof. induction 1 as [|x l Hx Hl IH]; [done|]. cbn. by rewrite Hx, IH. Qed.

(** An entry of the message: amounts and addresses in base64, other fields pass an
    [interface{}] unchanged. *)
Definition entry_ok (e : bytes * jval) : Prop :=
  utf8_Valid (fst e) = true /\
  if is_amount (fst e) then exists n, in_u256 n /\ snd e = JStr (base64_EncodeToString (uBytes n))
  else if is_address (fst e) then exists b, Forall is_byte b /\ snd e = JStr (base64_EncodeToString b)
  else json_any (snd e) = snd e /\ jval_ok (snd e) = true.

Definition shown (e : bytes * jval) : bytes * jval := match show_entry e with Ok e' => e' | _ => e end.
Definition unshown (e : bytes * jval) : bytes * jval := match read_entry e with Ok e' => e' | _ => e end.

Lemma uBytes_bytes n : Forall is_byte (uBytes n).
Proof.
  unfold uBytes. assert (Forall is_byte (put_be 32 n)) as Hp.
  { generalize 32%nat. intros k. revert n. induction k as [|k IH]; intros n; cbn; [constructor|]. apply Forall_app_2; [apply IH|].
    constructor; [apply Z.mod_pos_bound; lia|constructor]. }
  induction Hp as [|x l Hx Hl IHl]; cbn; [constructor|]. destruct (x =? 0); [done|by constructor].
Qed.

Lemma entry_shown e :
  entry_ok e ->
  show_entry e = Ok (shown e) /\ read_entry (shown e) = Ok e /\ unshown (shown e) = e /\ fst (shown e) = fst e /\
  json_any (snd e) = snd e /\ json_any (snd (shown e)) = snd (shown e) /\ jval_ok (snd e) = true /\ jval_ok (snd (shown e)) = true.
Proof.
  destruct e as [k v]. unfold entry_ok, shown, unshown. cbn [fst snd]. intros [Hu He]. unfold show_entry.
  destruct (is_amount k) eqn:Ea; [|destruct (is_address k) eqn:Ed].
  - destruct He as (n & Hn & ->). cbn [as_text obind]. rewrite base64_roundtrip by apply uBytes_bytes. cbn [obind].
    unfold read_entry. rewrite Ea. cbn [as_text obind snd fst jval_ok]. rewrite uSetBytes_uBytes, must_decimal by done.
    cbn. rewrite !any_str, dec_utf8, plain_utf8; [done|]. apply base64_plain, uBytes_bytes.
  - destruct He as (b & Hb & ->). cbn [as_text obind]. rewrite base64_roundtrip by done. cbn [obind].
    unfold read_entry. rewrite Ea, Ed. cbn [as_text obind snd fst jval_ok]. rewrite decode_String by done.
    cbn. rewrite !any_str, !plain_utf8; [done| |]; [by apply hex_plain|by apply base64_plain].
  - unfold read_entry. rewrite Ea, Ed. cbn. tauto.
Qed.

Lemma int_entry name tag k z enc :
  utf8_Valid (d_name jsonx name tag) = true -> is_amount (d_name jsonx name tag) = false -> is_address (d_name jsonx name tag) = false ->
  d_quotes jsonx tag k = true \/ k = KInt32 -> in_kind k z ->
  entry_ok (d_name jsonx name tag, encode_field jsonx tag (TInt k) enc (VInt z)).
Proof.
  intros Hu Ha Hd Hq Hz. unfold entry_ok. cbn [fst snd]. rewrite Ha, Hd. split; [done|]. unfold encode_field.
  destruct (d_quotes jsonx tag k).
  - rewrite any_str. split; [done|]. apply plain_utf8, int_plain.
  - destruct Hq as [Hq|Hq]; [done|subst k]. cbn in Hz. rewrite any_num by lia. split; [done|]. cbn. lia.
Qed.

Lemma bytes_entry name tag b :
  utf8_Valid (d_name jsonx name tag) = true -> tag_option "omitempty" tag = true ->
  (if is_amount (d_name jsonx name tag) then exists n, in_u256 n /\ b = uBytes n
   else is_address (d_name jsonx name tag) = true /\ Forall is_byte b) ->
  let v := slice_val (GovParams.nilled b) in
  Forall entry_ok (if skipped tag v then [] else [(d_name jsonx name tag, encode_field jsonx tag TBytes (encode jsonx TBytes) v)]).
Proof.
  intros Hu Ho Hb v. subst v. unfold GovParams.nilled, skipped. rewrite Ho. destruct (bytes_Equal b []) eqn:E; cbn [slice_val is_empty].
  - rewrite orb_true_r. constructor.
  - destruct (_ || _); [constructor|]. apply Forall_singleton. split; [done|]. cbn [fst snd encode_field encode].
    destruct (is_amount _); [destruct Hb as (n & Hn & ->); by exists n|]. destruct Hb as [-> Hb]. by exists b.
Qed.

Lemma slice_of_val o : slice_of (slice_val o) = Ok o.
Proof. by destruct o. Qed.

Lemma params_of_val gp : govParams_of (govParams_val gp) = Ok gp.
Proof. unfold govParams_val, govParams_of. rewrite !slice_of_val. by destruct gp. Qed.

Definition params_fields : list (string * string * gtype) := match govParamsT with TStruct fs => fs | _ => [] end.
Definition params_values (gp : GovParamsProto) : list gval := match govParams_val (GovParams.in_memory gp) with VStruct vs => vs | _ => [] end.

Ltac entry := lazymatch goal with
  | |- entry_ok (_, encode_field _ _ (TInt _) _ _) =>
      apply int_entry; [reflexivity..|first [left; reflexivity|right; reflexivity]|first [split; assumption|assumption]]
  end.

Lemma params_entries gp : params_text_ok gp -> Forall entry_ok (entries_of jsonx params_fields (params_values gp)).
Proof.
  intros ([H32 H64] & Hn & Hb). rewrite !Forall_cons in H32. rewrite !Forall_cons in H64. rewrite !Forall_cons in Hn.
  rewrite !Forall_cons in Hb. destruct Hn as ((n1 & Hn1 & Hs) & (n2 & Hn2 & Hg) & _). destruct_and!. unfold params_fields, params_values, govParamsT, govParams_val.
  repeat (rewrite entries_cons; apply Forall_app; split;
    [first [apply bytes_entry; [reflexivity..|]|destruct (skipped _ _); [apply Forall_nil_2|apply Forall_singleton; entry]]|]); [..|apply Forall_nil_2].
  - by exists n1.
  - split; [reflexivity|assumption].
  - split; [reflexivity|assumption].
  - by exists n2.
Qed.

Lemma params_typed gp : params_text_ok gp -> typed govParamsT (govParams_val (GovParams.in_memory gp)).
Proof.
  intros ([H32 H64] & Hn & Hb). rewrite !Forall_cons in H32. rewrite !Forall_cons in H64. rewrite !Forall_cons in Hn.
  rewrite !Forall_cons in Hb. destruct Hn as ((n1 & Hn1 & Hs) & (n2 & Hn2 & Hg) & _). destruct_and!.
  fields; try done; [rewrite Hs|rewrite Hg]; apply uBytes_bytes.
Qed.

Lemma entries_keys fs vs :
  gtype_ok jsonx (TStruct fs) = true -> length fs = length vs -> NoDup (map fst (entries_of jsonx fs vs)).
Proof.
  intros Hok Hl. cbn in Hok. apply andb_true_iff in Hok as [Hn _].
  destruct (entries_index jsonx fs [] fs vs) as [_ Hnd]; [done|done|done|]. revert Hnd. generalize (entries_of jsonx fs vs). intros es Hnd.
  apply (NoDup_fmap_1 (find_name (map fst (readers jsonx fs)))). change (NoDup (map (find_name (map fst (readers jsonx fs))) (map fst es))).
  by rewrite map_map.
Qed.

Lemma shown_map m :
  Forall entry_ok m ->
  all_ok show_entry m = Ok (map shown m) /\ Forall (fun e => json_any (snd e) = snd e) (map shown m) /\
  jval_ok (JObj m) = true /\ jval_ok (JObj (map shown m)) = true /\ map fst (map shown m) = map fst m /\
  map unshown (map shown m) = m.
Proof.
  intros Hm. split; [|split; [|split; [|split; [|split]]]].
  - apply all_ok_fun. eapply Forall_impl; [exact Hm|]. intros e He. apply entry_shown, He.
  - apply Forall_fmap. eapply Forall_impl; [exact Hm|]. intros e He. apply entry_shown, He.
  - cbn. induction Hm as [|e m He Hm IH]; [done|]. cbn. rewrite IH, (proj1 He). by destruct (entry_shown e He) as (_ & _ & _ & _ & _ & _ & -> & _).
  - cbn. induction Hm as [|e m He Hm IH]; [done|]. cbn. rewrite IH.
    destruct (entry_shown e He) as (_ & _ & _ & -> & _ & _ & _ & ->). by rewrite (proj1 He).
  - induction Hm as [|e m He Hm IH]; [done|]. cbn. rewrite IH. by destruct (entry_shown e He) as (_ & _ & _ & -> & _).
  - induction Hm as [|e m He Hm IH]; [done|]. cbn. rewrite IH. by destruct (entry_shown e He) as (_ & _ & -> & _).
Qed.

Lemma read_shown m m' :
  Forall entry_ok m -> map shown m ≡ₚ m' -> exists m4, all_ok read_entry m' = Ok m4 /\ m ≡ₚ m4 /\ Forall entry_ok m4.
Proof.
  intros Hm Hp. exists (map unshown m'). assert (map unshown m' ≡ₚ m) as Hback.
  { rewrite <- (fmap_Permutation unshown _ _ Hp). destruct (shown_map m Hm) as (_ & _ & _ & _ & _ & Hu).
    change (map unshown (map shown m) ≡ₚ m). by rewrite Hu. }
  split; [|split; [done|by rewrite Hback]].
  apply all_ok_fun. rewrite <- Hp. apply Forall_fmap. eapply Forall_impl; [exact Hm|]. intros e He. cbn.
  destruct (entry_shown e He) as (_ & Hr & Hu & _). by rewrite Hr, Hu.
Qed.

(** Through the map of the methods and back: the entries in some order. *)
Lemma shown_roundtrip es :
  Forall entry_ok es -> NoDup (map fst es) ->
  exists m m4, Unmarshal_map (json_Print (JObj es)) = Ok m /\ all_ok show_entry m = Ok (map shown m) /\
    jval_ok (JObj (map shown m)) = true /\
    obind (Unmarshal_map (json_Print (JObj (map shown m)))) (all_ok read_entry) = Ok m4 /\
    es ≡ₚ m4 /\ jval_ok (JObj m4) = true.
Proof.
  intros He Hnd. destruct (shown_map es He) as (_ & _ & Hjes & _). exists (map_of es).
  assert (Hm1 : map_of es ≡ₚ es).
  { apply map_of_perm; [done|]. eapply Forall_impl; [exact He|]. intros e Hx. by apply entry_shown in Hx as (_ & _ & _ & _ & Hx & _). }
  assert (He1 : Forall entry_ok (map_of es)) by (by rewrite Hm1).
  destruct (shown_map _ He1) as (Hshow & Hany & _ & Hj2 & Hk2 & _).
  assert (Hm3 : map_of (map shown (map_of es)) ≡ₚ map shown (map_of es)).
  { apply map_of_perm; [|done]. rewrite Hk2. change (NoDup (fst <$> map_of es)). by rewrite Hm1. }
  destruct (read_shown (map_of es) (map_of (map shown (map_of es)))) as (m4 & Hr & Hp & He4); [done|done|].
  destruct (shown_map m4 He4) as (_ & _ & Hj4 & _). exists m4.
  unfold Unmarshal_map. rewrite !parse_print by done. cbn [obind]. rewrite Hr.
  split; [done|]. split; [done|]. split; [done|]. split; [done|]. split; [|done]. by rewrite <- Hp, Hm1.
Qed.

(** The parameters are written with decimal amounts and hexadecimal addresses, and
    read back into new parameters. *)
Theorem params_json_roundtrip gp :
  params_text_ok gp ->
  exists j, GovParams_MarshalJSON gp = Ok (json_Print (JObj j)) /\ jval_ok (JObj j) = true /\
    GovParams_UnmarshalJSON GovParams.unset (json_Print (JObj j)) = Ok (GovParams.in_memory gp).
Proof.
  intros Hgp. pose proof (params_entries gp Hgp) as He. pose proof (params_typed gp Hgp) as Ht.
  assert (gtype_ok jsonx (TStruct params_fields) = true) as Hok by (vm_compute; reflexivity).
  pose proof (entries_keys params_fields (params_values gp) Hok eq_refl) as Hnd.
  destruct (shown_roundtrip _ He Hnd) as (m & m4 & Hm & Hs & Hj & Hr & Hp & Hj4).
  pose proof (struct_kept jsonx _ _ _ Hok Ht Hp) as Hd. exists (map shown m).
  unfold GovParams_MarshalJSON, GovParams_UnmarshalJSON, jsonx_Marshal, Marshal_map, jsonx_Unmarshal.
  change (encode jsonx govParamsT (govParams_val (GovParams.in_memory gp))) with (JObj (entries_of jsonx params_fields (params_values gp))).
  cbn [obind]. rewrite Hm. cbn [obind]. rewrite Hs. cbn [obind]. split; [reflexivity|]. split; [exact Hj|].
  destruct (Unmarshal_map (json_Print (JObj (map shown m)))) as [m'| |]; [|discriminate Hr..]. cbn [obind] in Hr |- *. rewrite Hr.
  cbn [obind]. rewrite parse_print by exact Hj4. cbn [obind]. change govParamsT with (TStruct params_fields).
  change (govParams_val GovParams.unset) with (zero (TStruct params_fields)). rewrite Hd. cbn [obind]. apply params_of_val.
Qed.

(** The value of a field of the message. *)
Lemma shaped_cases (f : string * string * gtype) v :
  shaped (snd f) v ->
  match snd f with
  | TInt k => exists z, v = VInt z /\ in_kind k z
  | TBytes => exists o, v = slice_val o /\ True
  | _ => True
  end.
Proof. destruct (snd f), v; cbn; try done; eauto; intros _; [exists (Some b)|exists None]; done. Qed.

(** Whatever the text, the parameters read from it are in the range of their
    fields; this is what the governance controller assumes of them. *)
Theorem params_in_range : GovJsonLaws (H := jsonx_GovJson).
Proof.
  intros bz gp. unfold json_GovParams, jsonx_GovJson, GovParams_UnmarshalJSON. destruct (Unmarshal_map bz) as [m| |]; cbn [obind]; try done.
  destruct (all_ok read_entry m) as [m'| |]; cbn [obind Marshal_map]; try done. unfold jsonx_Unmarshal.
  destruct (json_Parse _) as [j| |]; cbn [obind]; try done. destruct (decode jsonx govParamsT _ j) as [v| |] eqn:Ed; cbn [obind]; try done.
  assert (gtype_ok jsonx govParamsT = true) as Hok by (vm_compute; reflexivity).
  apply (decode_stays jsonx govParamsT Hok _ _ _ (zero_shaped jsonx govParamsT Hok)) in Ed. clear Hok.
  destruct v as [| | | | |vs]; try done. apply shaped_struct in Ed. unfold shaped_fields in Ed.
  repeat (apply Forall2_cons_inv_l in Ed as (? & ? & Hs & Ed & ->);
    apply shaped_cases in Hs as (? & -> & Hs); revert Hs). apply Forall2_nil_inv_l in Ed as ->.
  cbn [govParams_of in_kind signed width]. rewrite !slice_of_val. cbn [obind]. intros. simplify_eq.
  split; repeat apply Forall_cons_2; try apply Forall_nil_2; cbn; unfold in_i64; assumption.
Qed.

(** A number where the parameters have a text makes reading panic. *)
Lemma params_number_panics k n :
  is_amount k || is_address k = true -> jval_ok (JObj [(k, JNum n)]) = true ->
  GovParams_UnmarshalJSON GovParams.unset (json_Print (JObj [(k, JNum n)])) = Panic.
Proof.
  intros Hk Hj. unfold GovParams_UnmarshalJSON, Unmarshal_map. rewrite parse_print by done. cbn [obind map_of fold_left map_put fst snd all_ok].
  unfold read_entry. assert (as_text (json_any (JNum n)) = Panic) as ->.
  { destruct (json_any (JNum n)) eqn:E; try done. by apply any_other in E. }
  apply orb_true_iff in Hk as [-> | Hk]; [done|]. rewrite Hk. by destruct (is_amount k).
Qed.

(** ** Genesis *)

Lemma holder_roundtrip h : Forall is_byte (fst h) -> in_u256 (snd h) ->
  exists j, AssetHolder_MarshalJSON h = Ok (json_Print j) /\ jval_ok j = true /\ j <> JNull /\
    AssetHolder_UnmarshalJSON (json_Print j) = Ok h.
Proof.
  intros Ha Hn. exists (encode jsonx assetHolderT (VStruct [VText (fst h); VText (Dec_text (snd h))])).
  assert (typed assetHolderT (VStruct [VText (fst h); VText (Dec_text (snd h))])) as Ht by (fields; auto using dec_utf8).
  split; [done|]. split; [refine (proj2 (gtype_kept jsonx assetHolderT _ _ Ht)); form|]. split; [done|]. unfold AssetHolder_UnmarshalJSON.
  erewrite (jsonx_roundtrip assetHolderT); [|form|exact Ht|reflexivity]. cbn [obind]. rewrite from_decimal by done. by destruct h.
Qed.

Lemma print_inj v w : jval_ok v = true -> jval_ok w = true -> json_Print v = json_Print w -> v = w.
Proof. intros Hv Hw E. apply parse_print in Hv. rewrite E, parse_print in Hv by done. by injection Hv. Qed.

Lemma pointer_text {A} (unmarshal : bytes -> outcome A) j a :
  jval_ok j = true -> j <> JNull -> unmarshal (json_Print j) = Ok a -> pointer unmarshal (json_Print j) = Ok (Some a).
Proof.
  intros Hj Hn Ha. unfold pointer. destruct (bytes_Equal (json_Print j) []) eqn:E1.
  { apply bytes_Equal_true in E1. by apply print_nonempty in E1. }
  destruct (bytes_Equal (json_Print j) nil_text) eqn:E2; [|cbn; by rewrite Ha].
  apply bytes_Equal_true, print_inj in E2; done.
Qed.

Lemma holders_roundtrip hs :
  Forall (fun h => Forall is_byte (fst h) /\ in_u256 (snd h)) hs ->
  exists js, all_ok AssetHolder_MarshalJSON hs = Ok (map json_Print js) /\ Forall (fun j => jval_ok j = true) js /\
    all_ok (fun h => match h with
                     | VText raw => obind (pointer AssetHolder_UnmarshalJSON raw) (fun o => if o is Some a then Ok a else Panic)
                     | _ => Panic
                     end) (map VText (map json_Print js)) = Ok hs.
Proof.
  induction 1 as [|h hs [Ha Hn] Hhs (js & Hm & Hj & Hu)]; [by exists []|].
  destruct (holder_roundtrip h Ha Hn) as (j & Hmj & Hjj & Hnn & Huj). exists (j :: js). cbn [all_ok map].
  rewrite Hmj, Hm, (pointer_text _ j h) by done. cbn [obind]. rewrite Hu. cbn [obind]. split; [done|]. split; [by constructor|done].
Qed.

(** A genesis state is read back, as the command that makes it relies on. *)
Theorem genesis_json_roundtrip : GenesisWriteLaws (H := jsonx_GenesisWrite) (H0 := jsonx_GenesisJson).
Proof.
  intros [hs gpo] [Hhs Hgp]. cbn [ga_AssetHolders ga_GovParams] in *. destruct (holders_roundtrip hs Hhs) as (js & Hm & Hj & Hu).
  assert (exists j, match gpo with Some gp => GovParams_MarshalJSON gp | None => Ok nil_text end = Ok (json_Print j) /\
    jval_ok j = true /\ pointer (GovParams_UnmarshalJSON GovParams.unset) (json_Print j) = Ok (option_map GovParams.in_memory gpo)) as (j & Hmj & Hjj & Huj).
  { destruct gpo as [gp|].
    - destruct (params_json_roundtrip gp (Hgp gp eq_refl)) as (es & Hme & Hje & Hue). exists (JObj es). split; [done|]. split; [done|].
      by apply pointer_text.
    - exists JNull. split; [done|]. split; [done|]. unfold pointer, nil_text. by rewrite bytes_Equal_refl, orb_true_r. }
  unfold json_write, json_GenesisAppState, jsonx_GenesisWrite, jsonx_GenesisJson, GenesisAppState_Marshal, GenesisAppState_Unmarshal.
  cbn [ga_AssetHolders ga_GovParams]. rewrite Hm. cbn [obind]. rewrite Hmj. cbn [obind]. eexists. split; [reflexivity|].
  erewrite (jsonx_roundtrip genesisAppStateT); [|form| |reflexivity].
  - cbn [obind elements]. rewrite Hu. cbn [obind]. rewrite Huj. cbn [obind]. destruct gpo as [gp|]; cbn [option_map]; [by rewrite GovParams.plain_in_memory|done].
  - fields.
    + apply full_field; [done|done|]. cbn [typed]. rewrite map_map. apply Forall_fmap. eapply Forall_impl; [exact Hj|].
      intros x Hx. by exists x.
    + right. by exists j.
Qed.

End Methods.

(** ** Proposals that stop the node *)

Section Stops.
Context `{JsonTextOk, !ChainIdText} {T I : Type} `{Iavl T I, GovProtos}.
#[local] Instance stops_json : GovJson := jsonx_GovJson.

(** C36. A proposal on the parameters whose first option has a number where a gas
    price, a maximal supply or an address is expected makes the validation of the
    transaction panic: the controller asks for a text of the value without testing
    that it is one.  Any validator can send it, with a voting period the parameters
    allow, and every node that checks or delivers it stops. *)
Theorem number_option_panics isVal tx txhash height exec p k n rest (s s' : GovCtrler T I) :
  GetType tx = TRX_PROPOSAL -> tx_To tx = ZeroAddress -> isVal (tx_From tx) = true -> tx_Payload tx = Some (TrxPayloadProposal_ p) ->
  pp_OptType p = PROPOSAL_GOVPARAMS -> height < pp_StartVotingHeight p ->
  GovParams.MinVotingPeriodBlocks (govParams s') <= pp_VotingPeriodBlocks p <= GovParams.MaxVotingPeriodBlocks (govParams s') ->
  k ∈ map text ["maxTotalSupply"; "gasPrice"; "deadAddress"; "rewardPoolAddress"]%string -> in_i64 n ->
  pp_Options p = json_Print (JObj [(k, JNum n)]) :: rest ->
  gov_Get (LedgerKeyProposal txhash) exec s = (Err ErrNotFoundResult, s') ->
  gov_ValidateTrx isVal tx txhash height exec s = (Panic, s').
Proof.
  intros Hty Hto Hval Hpl Hopt Hst [Hmin Hmax] Hk Hn Hos Hget.
  assert (GovParams_UnmarshalJSON GovParams.unset (json_Print (JObj [(k, JNum n)])) = Panic) as Hpanic.
  { unfold in_i64 in Hn. cbn [map] in Hk. rewrite !elem_of_cons, elem_of_nil in Hk.
    apply params_number_panics; [by destruct Hk as [-> | [-> | [-> | [-> |]]]]|].
    assert (utf8_Valid k = true) as Hu by (by destruct Hk as [-> | [-> | [-> | [-> |]]]]). cbn [jval_ok forallb fst snd]. rewrite Hu. lia. }
  unfold gov_ValidateTrx. rewrite Hty. cbn [Z.eqb]. unfold validate_proposal. rewrite Hto, Hval, Hpl.
  change (bytes_Compare ZeroAddress ZeroAddress =? 0) with true. change (TRX_PROPOSAL =? TRX_PROPOSAL) with true. cbn [negb].
  unfold try, bind. rewrite Hget. rewrite bool_decide_eq_true_2 by done. unfold gets, lift. f_equal. unfold check_proposal.
  destruct (Z.leb_spec (pp_StartVotingHeight p) height); [lia|].
  destruct (Z.ltb_spec (GovParams.MaxVotingPeriodBlocks (govParams s')) (pp_VotingPeriodBlocks p)); [lia|].
  destruct (Z.ltb_spec (pp_VotingPeriodBlocks p) (GovParams.MinVotingPeriodBlocks (govParams s'))); [lia|]. cbn [orb].
  rewrite Hopt, Hos. change (PROPOSAL_GOVPARAMS =? PROPOSAL_GOVPARAMS) with true. cbn iota. cbn [check_options].
  unfold json_GovParams, stops_json, jsonx_GovJson. by rewrite Hpanic.
Qed.

End Stops.

Module JsonWitness.
Import ToyJson.

#[local] Existing Instances GovWitness.w_protos.
#[local] Instance w_chain : ChainIdText := {| u256_MustFromHex _ := Panic; u256_MustFromDecimal _ := Panic; u256_Hex _ := [] |}.

(** A proposal of a validator with a gas price of one, as a number. *)
Definition bad_proposal : TrxPayloadProposal :=
  MkTrxPayloadProposal [] 2 86400 200000 PROPOSAL_GOVPARAMS [json_Print (JObj [(text "gasPrice", JNum 1)])].
Definition bad_tx : Trx :=
  MkTrx 1 0 0 (repeat 1 20) ZeroAddress 0 4000 1 TRX_PROPOSAL (Some (TrxPayloadProposal_ bad_proposal)) [] [] [].
Lemma number_option_panics_witness :
  fst (gov_ValidateTrx (H1 := jsonx_GovJson) (fun _ => true) bad_tx (repeat 9 32) 1 true GovWitness.gov0) = Panic.
Proof.
  set (s' := snd (gov_Get (LedgerKeyProposal (repeat 9 32)) true GovWitness.gov0)).
  rewrite (number_option_panics (fun _ => true) bad_tx (repeat 9 32) 1 true bad_proposal (text "gasPrice") 1 [] GovWitness.gov0 s'); [reflexivity|..].
  all: try reflexivity.
  - vm_compute. split; congruence.
  - right. left.
  - unfold in_i64. lia.
Defined.

End JsonWitness.
