(* ===== verification/Web3.v ===== *)
(** * Web3: the client of the node

    [cmd/commands/web3]: requests and responses of JSON-RPC ([jsonrpc.go]), the
    provider over HTTP ([http_provider.go]), the client with its chain id and the
    number of its last call ([web3.go]), and its methods ([web3_rpc.go]).  A
    request carries the arguments of the method as a JSON array; the result is
    read by Tendermint's JSON package, which uses the [UnmarshalJSON] of a type
    that has one.  That package on plain structs, the types of Tendermint's results
    and the network are parameters. *)
From stdpp Require Import base gmap list strings.
From Stdlib Require Import ZArith Lia Ascii.
From S2P Require Import Prelude XErrors GoMonad LedgerKeys Iavl Ledger Units HexBytes Proto GovParams.
From S2P Require Import Account TrxTypes Signer AcctCtrler VPowerItems ValSet VPowerCtrler Proposal GovCtrler.
From S2P Require Import SupplyCtrler TrxCtx MetaDB TrxExecutor App EvmTransition EvmCtrler Query.
From S2P Require Import Genesis Jsonx GoJson JsonForms.

(** ** Requests *)

Record JSONRpcReq := MkJSONRpcReq {
  req_Version : bytes;
  req_Id : Z;
  req_Method : bytes;
  req_Params : bytes;
}.

(** No error is an empty text. *)
Record JSONRpcResp := MkJSONRpcResp {
  resp_Version : bytes;
  resp_Id : Z;
  resp_Result : bytes;
  resp_Error : bytes;
}.

Definition JSONRpcReqT : gtype := TStruct
  [("Version", "jsonrpc", TStr); ("Id", "id", TInt KInt64); ("Method", "method", TStr); ("Params", "params", TRaw)]%string.
Definition JSONRpcRespT : gtype := TStruct
  [("Version", "version", TStr); ("Id", "id", TInt KInt64); ("Result", "result", TRaw); ("Error", "error", TRaw)]%string.

(** The arguments the methods pass. *)
Inductive arg : Type :=
| AText (s : bytes)
| ABytes (b : bytes)
| AAddress (a : Address)
| ABool (b : bool).

Definition arg_json (a : arg) : jval :=
  match a with
  | AText s => JStr s
  | ABytes b => JStr (base64_EncodeToString b)
  | AAddress a => JStr (HexBytes_String a)
  | ABool b => JBool b
  end.

(** [string(b)] in the text of an error *)
Fixpoint string_of (b : bytes) : string :=
  match b with
  | [] => EmptyString
  | c :: b => String (ascii_of_nat (Z.to_nat c)) (string_of b)
  end.

(** [json.Unmarshal] of Tendermint into a new variable of a type without methods
    of its own. *)
Class TmJson : Type := tm_Unmarshal : gtype -> bytes -> outcome gval.

Section Client.
Context `{JsonText, TmJson, ChainIdText, InitText, TrxProtos}.

(** Without arguments the slice is nil. *)
Definition NewRequest (id : Z) (method : string) (args : list arg) : outcome JSONRpcReq :=
  let params := json_Print (match args with [] => JNull | _ => JArr (map arg_json args) end) in
  Ok (MkJSONRpcReq [] id (text method) params).

Context {W : Type}.

(** *** The provider over HTTP *)

(** [http.Post] with the body: the status, and the body of the response or the
    error of reading it. *)
Section Http.
Context (http_Post : bytes -> M W (Z * outcome bytes)).

Definition StatusOK : Z := 200.

Definition HttpProvider_Call (req : JSONRpcReq) : M W JSONRpcResp :=
  let reqbz := json_Print (encode tmjson JSONRpcReqT
    (VStruct [VText (req_Version req); VInt (req_Id req); VText (req_Method req); VText (req_Params req)])) in
  let! httpResp := http_Post reqbz in
  if negb (fst httpResp =? StatusOK) then throw (GoError "Bad HTTP Response: %v")
  else
    let! respBody := lift (snd httpResp) in
    let! res := lift (tm_Unmarshal JSONRpcRespT respBody) in
    match res with
    | VStruct [VText version; VInt id; VText result; VText err] => ret (MkJSONRpcResp version id result err)
    | _ => panic
    end.

End Http.

(** ** The client *)

Record BeatozWeb3 := MkBeatozWeb3 {
  w3_chainId : bytes;
  w3_callId : Z;
}.

Definition CM := M (BeatozWeb3 * W).

Context (provider_Call : JSONRpcReq -> M W JSONRpcResp).

Definition web3_ChainID (c : BeatozWeb3) : bytes := w3_chainId c.

Definition web3_ChainIDInt (c : BeatozWeb3) : outcome Z :=
  if HasPrefix0x (w3_chainId c) then u256_MustFromHex (w3_chainId c) else u256_MustFromDecimal (w3_chainId c).

Definition web3_SetChainID (cid : bytes) : CM unit :=
  modify (fun '(c, w) => (MkBeatozWeb3 cid (w3_callId c), w)).

Definition web3_NewRequest (method : string) (args : list arg) : CM JSONRpcReq :=
  modify (fun '(c, w) => (MkBeatozWeb3 (w3_chainId c) (i64 (w3_callId c + 1)), w)) ;;;
  let! callId := gets (fun s => w3_callId (fst s)) in
  lift (NewRequest callId method args).

(** The start of every method: a request, its call, and the error of the provider. *)
Definition call (method : string) (args : list arg) : CM JSONRpcResp :=
  let! req := web3_NewRequest method args in
  let! resp := zoom snd_lens (provider_Call req) in
  if negb (bytes_Equal (resp_Error resp) []) then throw (GoError ("provider error: " ++ string_of (resp_Error resp))%string)
  else ret resp.

(** The result of a query of the application. *)
Definition call_query (method : string) (args : list arg) : CM QueryResult :=
  let! resp := call method args in
  lift (QueryResult_UnmarshalJSON (resp_Result resp)).

(** *** Tendermint's results *)

Context {ResultStatus GenesisDoc ResultBroadcastTx ResultBroadcastTxCommit ResultTx ResultValidators : Type}.
Context (tm_Status : bytes -> outcome ResultStatus) (tm_Genesis : bytes -> outcome GenesisDoc).
Context (tm_BroadcastTx : bytes -> outcome ResultBroadcastTx) (tm_BroadcastTxCommit : bytes -> outcome ResultBroadcastTxCommit).
Context (tm_Tx : bytes -> outcome ResultTx) (tm_Validators : bytes -> outcome ResultValidators).
Context (gen_ChainID : GenesisDoc -> bytes) (result_tx : ResultTx -> bytes).

Definition web3_Status : CM ResultStatus := let! resp := call "status" [] in lift (tm_Status (resp_Result resp)).

Definition web3_Genesis : CM GenesisDoc := let! resp := call "genesis" [] in lift (tm_Genesis (resp_Result resp)).

(** [NewBeatozWeb3]: an error panics. *)
Definition NewBeatozWeb3 (w : W) : outcome unit * (BeatozWeb3 * W) :=
  (let! r := try web3_Genesis in
   match r with
   | inl gen => modify (fun '(c, w) => (MkBeatozWeb3 (gen_ChainID gen) (w3_callId c), w))
   | inr _ => panic
   end) (MkBeatozWeb3 [] 0, w).

Definition sendTransaction (tx : Trx) (method : string) : CM JSONRpcResp :=
  let! txbz := lift (tx_Encode tx) in
  call method [ABytes txbz].

Definition SendTransactionAsync (tx : Trx) : CM ResultBroadcastTx :=
  let! resp := sendTransaction tx "broadcast_tx_async" in lift (tm_BroadcastTx (resp_Result resp)).
Definition SendTransactionSync (tx : Trx) : CM ResultBroadcastTx :=
  let! resp := sendTransaction tx "broadcast_tx_sync" in lift (tm_BroadcastTx (resp_Result resp)).
Definition SendTransactionCommit (tx : Trx) : CM ResultBroadcastTxCommit :=
  let! resp := sendTransaction tx "broadcast_tx_commit" in lift (tm_BroadcastTxCommit (resp_Result resp)).

(** A [TrxResult] is the result with the transaction decoded. *)
Definition web3_QueryTransaction (txhash : bytes) : CM (ResultTx * Trx) :=
  let! resp := call "tx" [ABytes txhash; ABool false] in
  let! resultTx := lift (tm_Tx (resp_Result resp)) in
  let! txObj := lift (tx_Decode (result_tx resultTx)) in
  ret (resultTx, txObj).

Definition web3_QueryValidators (height page perPage : Z) : CM ResultValidators :=
  let _height := if 0 <? height then FormatInt height else text "0" in
  let page := if page =? 0 then 1 else page in
  let! resp := call "validators" [AText _height; AText (FormatInt page); AText (FormatInt perPage)] in
  lift (tm_Validators (resp_Result resp)).

(** *** Queries of the application *)

Definition web3_QueryGovParams : CM GovParamsProto :=
  let! queryResp := call_query "gov_params" [AText (FormatInt 0)] in
  lift (obind (GovParams_UnmarshalJSON GovParams.unset (qr_Value queryResp)) (fun gp => Ok (GovParams.plain gp))).

(** The balance of the answer. *)
Definition balance_of (balance : bytes) : outcome Z :=
  if HasPrefix0x balance then u256_MustFromHex balance else u256_MustFromDecimal balance.

Definition web3_QueryAccount (addr : Address) : CM Account :=
  let! queryResp := call_query "account" [AText (HexBytes_String addr); AText (FormatInt 0)] in
  let! _acct := lift (obind (tm_Unmarshal accountT (qr_Value queryResp)) account_of) in
  let! bal := lift (balance_of (aa_Balance _acct)) in
  ret (MkAccount (aa_Address _acct) (aa_Name _acct) (aa_Nonce _acct) bal (default [] (aa_Code _acct)) (aa_DocURL _acct)).

(** [RespQueryStake] and [RespQueryDelegatee] have the fields and tags of the
    structs of the node. *)
Definition RespQueryStakeT : gtype := TStruct
  [("From", "owner", THex); ("To", "to", THex); ("TxHash", "txhash", THex);
   ("StartHeight", "startHeight,string", TInt KInt64); ("Power", "power,string", TInt KInt64)]%string.

Definition RespQueryDelegateeT : gtype := TStruct
  [("Addr", "address", THex); ("PubKey", "pubKey", THex); ("SelfPower", "selfPower,string", TInt KInt64);
   ("TotalPower", "totalPower,string", TInt KInt64); ("SlashedPower", "slashedPower,string", TInt KInt64);
   ("Delegators", "delegators", TSlice THex); ("NotSignedBlockCount", "notSingedBlockCount,string", TInt KInt64);
   ("Stakes", "stakes,omitempty", TSlice (TPtr RespQueryStakeT)); ("NotSignedHeights", "notSignedBlocks,omitempty", TRaw)]%string.

Definition RespQueryRewardT : gtype := TStruct
  [("Address", "address,omitempty", THex); ("Issued", "issued,omitempty", TStr); ("Withdrawn", "withdrawn,omitempty", TStr);
   ("Slashed", "slashed,omitempty", TStr); ("Cumulated", "cumulated,omitempty", TStr);
   ("Height", "height,omitempty", TInt KInt64)]%string.

Definition stake_of (v : gval) : outcome respStake :=
  match v with
  | VPtr (VStruct [VText from; VText to; VText txhash; VInt height; VInt power]) => Ok (MkRespStake from to txhash height power)
  | _ => Panic
  end.

Definition address_of (v : gval) : outcome Address := match v with VText a => Ok a | _ => Panic end.

Definition delegatee_of (v : gval) : outcome respDelegatee :=
  match v with
  | VStruct [VText addr; VText pub; VInt self; VInt total; VInt slashed; delegators; VInt missed; stakes; _] =>
      obind (all_ok address_of (elements delegators)) (fun ds =>
      obind (all_ok stake_of (elements stakes)) (fun ss =>
      Ok (MkRespDelegatee addr pub self total slashed ds missed ss)))
  | _ => Panic
  end.

Definition web3_QueryDelegatee (addr : Address) : CM respDelegatee :=
  let! queryResp := call_query "delegatee" [AText (HexBytes_String addr); AText (FormatInt 0)] in
  lift (obind (tm_Unmarshal RespQueryDelegateeT (qr_Value queryResp)) delegatee_of).

Definition web3_QueryStakes (addr : Address) : CM (list respStake) :=
  let! queryResp := call_query "stakes" [AText (HexBytes_String addr); AText (FormatInt 0)] in
  lift (obind (tm_Unmarshal (TSlice (TPtr RespQueryStakeT)) (qr_Value queryResp)) (fun v => all_ok stake_of (elements v))).

(** The amounts of [RespQueryReward] stay texts. *)
Definition web3_QueryReward (addr : Address) (height : Z) : CM gval :=
  let! queryResp := call_query "reward" [AText (HexBytes_String addr); AText (FormatInt height)] in
  lift (tm_Unmarshal RespQueryRewardT (qr_Value queryResp)).

(** [strings.Trim] of the quotes on both sides *)
Fixpoint trim_left (s : bytes) : bytes :=
  match s with
  | 34 :: s' => trim_left s'
  | _ => s
  end.
Definition trim_quotes (s : bytes) : bytes := rev (trim_left (rev (trim_left s))).

Definition web3_power (method : string) (height : Z) : CM Z :=
  let! queryResp := call_query method [AText (FormatInt height)] in
  lift (ParseInt (trim_quotes (qr_Value queryResp))).

Definition web3_QueryTotalPower (height : Z) : CM Z := web3_power "stakes/total_power" height.
Definition web3_QueryVotingPower (height : Z) : CM Z := web3_power "stakes/voting_power" height.
Definition web3_QueryValidatorPower (height : Z) : CM Z := web3_QueryVotingPower height.

Definition no_proposal : GovProposal := MkGovProposal (MkProposalHeader 0 [] 0 0 0 0 0 []) [] None.

Definition web3_QueryProposal (txhash : bytes) (height : Z) : CM (bytes * option GovProposal) :=
  let! queryResp := call_query "proposal" [ABytes txhash; AText (FormatInt height)] in
  let! v := lift (tm_Unmarshal respProposalT (qr_Value queryResp)) in
  match v with
  | VStruct [VText status; VText raw] =>
      let! prop := lift (pointer (GovProposal_UnmarshalJSON no_proposal) raw) in
      ret (status, prop)
  | _ => panic
  end.

(** A result whose code is not zero is an error with its log. *)
Definition web3_vm (method : string) (from to : Address) (height : Z) (data : bytes) : CM (Z * bytes * bytes) :=
  let! qryResp := call_query method [AAddress from; AAddress to; AText (FormatInt height); ABytes data] in
  if negb (qr_Code qryResp =? 0) then throw (GoError (string_of (qr_Log qryResp)))
  else
    let! vmRet := lift (tm_Unmarshal VMCallResultT (qr_Value qryResp)) in
    match vmRet with
    | VStruct [VInt usedGas; VText err; data] =>
        let! returnData := lift (slice_of data) in
        ret (usedGas, err, default [] returnData)
    | _ => panic
    end.

Definition web3_VmCall : Address -> Address -> Z -> bytes -> CM (Z * bytes * bytes) := web3_vm "vm_call".
Definition web3_VmEstimateGas : Address -> Address -> Z -> bytes -> CM (Z * bytes * bytes) := web3_vm "vm_estimate_gas".

End Client.
