(* ===== verification/Web3Props.v ===== *)
(** * Web3Props: the client reads what the node answers

    The client of Web3 against the routes of Rpc and the queries of Query, with the
    JSON forms of JsonForms on both sides.  The client calls through its provider
    over HTTP ([HttpProvider_Call]).  The JSON-RPC service behind it is Tendermint's:
    it finds the function of the method of the request, reads its arguments by
    their types, calls it and writes the result into a response with the id of the
    request, formatted as it likes ([serves]).  A raw message of the client stands
    for its JSON value: texts that differ in white space are not told apart.

    Shown: each method of the client returns what the application answered to the
    query it stands for: parameters, accounts, stakes, delegatees, rewards, powers,
    proposals and calls of the virtual machine; the error of such a call comes back
    with quotes around it. *)
From stdpp Require Import base gmap list strings.
From Stdlib Require Import ZArith Lia Ascii.
From S2P Require Import Prelude XErrors GoMonad LedgerKeys Iavl Ledger Units HexBytes Proto GovParams.
From S2P Require Import Account TrxTypes Signer AcctCtrler VPowerItems ValSet VPowerCtrler Proposal GovCtrler.
From S2P Require Import Numbers Weights SupplyCtrler TrxCtx MetaDB TrxExecutor TrxPreparer App ToyNode.
From S2P Require Import EvmTransition EvmCtrler AppProps Query QueryProps Rpc.
From S2P Require Import Genesis Jsonx GoJson JsonForms JsonProps Web3.

(** The response of a JSON-RPC service to a call that succeeds. *)
Definition response_json (id result : jval) : jval :=
  JObj [(text "jsonrpc", JStr (text "2.0")); (text "id", id); (text "result", result)].

(** Tendermint's package reads what the dialect of its tags writes.  Of a response,
    however formatted, it reads the id and the text of the result; [jsonrpc] is
    not a field of the client's type. *)
Class TmJsonOk `{JsonText, TmJson} : Prop := {
  tm_reads t v : gtype_ok tmjson t = true -> typed t v -> tm_Unmarshal t (json_Print (encode tmjson t v)) = Ok v;
  tm_reads_response body id es : in_i64 id -> json_Parse body = Ok (response_json (JStr (FormatInt id)) (JObj es)) ->
    exists result, tm_Unmarshal JSONRpcRespT body = Ok (VStruct [VText []; VInt id; VText result; VText []]) /\
      json_Parse result = Ok (JObj es);
}.

(** ** The service *)

Section Service.
Context `{JsonText}.

(** The arguments of the functions by their types: [HexBytes], [*int64], [[]byte]. *)
Definition arg_hex (j : jval) : outcome bytes := HexBytes_UnmarshalJSON (json_Print j).

Definition arg_height (j : jval) : outcome (option Z) :=
  match j with
  | JNull => Ok None
  | JStr s => obind (ParseInt s) (fun h => Ok (Some h))
  | _ => Err bad_value
  end.

Definition arg_bytes (j : jval) : outcome bytes :=
  match j with
  | JStr s => base64_DecodeString s
  | _ => Err bad_value
  end.

Definition rpc_args (f : RpcFunc) (params : list jval) : outcome RpcArgs :=
  match f, params with
  | QueryAccount, [a; h] | QueryDelegatee, [a; h] | QueryStakes, [a; h] | QueryReward, [a; h] =>
      obind (arg_hex a) (fun addr => obind (arg_height h) (fun height => Ok (MkRpcArgs addr [] [] height [])))
  | QueryStakes1, [h] | QueryStakes2, [h] | QueryTotalSupply, [h] | QueryGovParams, [h] =>
      obind (arg_height h) (fun height => Ok (MkRpcArgs [] [] [] height []))
  | QueryProposal, [t; h] =>
      obind (arg_hex t) (fun txhash => obind (arg_height h) (fun height => Ok (MkRpcArgs [] [] txhash height [])))
  | QueryVM, [a; t; h; d] | QueryEstimateGas, [a; t; h; d] =>
      obind (arg_hex a) (fun addr => obind (arg_hex t) (fun to =>
      obind (arg_height h) (fun height => obind (arg_bytes d) (fun data => Ok (MkRpcArgs addr to [] height data)))))
  | _, _ => Err (GoError "expected %v parameters, got %v")
  end.

End Service.

(** ** Texts both sides agree on *)

Section Texts.
Context `{JsonTextOk}.

(** The base64 text of bytes that do not come in threes is padded, and so is not
    taken for a hexadecimal one. *)
Lemma base64_padded b : (length b mod 3)%nat <> 0%nat -> exists s, base64_EncodeToString b = s ++ [61] /\ (3 <= length s)%nat.
Proof.
  induction b as [|x|x y|x y z b IH] using bytes_ind3; intros Hl; [done| | |].
  - eexists [_; _; _]. split; [reflexivity|done].
  - eexists [_; _; _]. split; [reflexivity|done].
  - destruct IH as (s & Hs & Hlen).
    { intros Hb. apply Hl. change (length (x :: y :: z :: b)) with (3 + length b)%nat.
      rewrite <- Nat.Div0.add_mod_idemp_l. exact Hb. }
    eexists (_ :: _ :: _ :: _ :: s). cbn [base64_EncodeToString]. rewrite Hs. split; [reflexivity|cbn; lia].
Qed.

Lemma base64_not_hex b : (length b mod 3)%nat <> 0%nat -> isHex (base64_EncodeToString b) = false.
Proof.
  intros (s & -> & Hs)%base64_padded. unfold isHex. destruct (negb _); [done|].
  assert (exists s', (if HasPrefix0x (s ++ [61]) then drop 2 (s ++ [61]) else s ++ [61]) = s' ++ [61]) as [s' ->].
  { destruct (HasPrefix0x _); [|eauto]. exists (drop 2 s). by rewrite drop_app_le by lia. }
  rewrite forallb_app. cbn. by rewrite andb_false_r.
Qed.

Lemma quoted_text s : forallb plain s = true ->
  (length (json_Print (JStr s)) <? 2)%nat = false /\ head (json_Print (JStr s)) = Some 34 /\ last (json_Print (JStr s)) = Some 34 /\
  unquoted (json_Print (JStr s)) = s.
Proof.
  intros Hs. rewrite print_plain by done. split; [apply Nat.ltb_ge; cbn; rewrite length_app; cbn; lia|]. split; [done|].
  split; [by rewrite app_comm_cons, last_snoc|apply unquoted_quote].
Qed.

Lemma HexBytes_base64 b : Forall is_byte b -> (length b mod 3)%nat <> 0%nat ->
  HexBytes_UnmarshalJSON (json_Print (JStr (base64_EncodeToString b))) = Ok b.
Proof.
  intros Hb Hl. destruct (quoted_text _ (base64_plain b Hb)) as (H1 & H2 & H3 & H4). unfold HexBytes_UnmarshalJSON.
  rewrite H1, H2, H3, H4, base64_not_hex by done. cbn. by apply base64_roundtrip.
Qed.

Lemma digits_no_prefix n : HasPrefix0x (Dec_text n) = false.
Proof.
  pose proof (uint_text_digits (N.to_uint (Z.to_N n))) as Hd. fold (Dec_text n) in Hd.
  destruct (HasPrefix0x (Dec_text n)) eqn:E; [|done]. exfalso. destruct (Dec_text n) as [|a [|b s]]; try (cbn in E; repeat case_match; congruence).
  assert (b = 120) as -> by (cbn in E; repeat case_match; congruence).
  inversion Hd as [|? ? _ Ht]; subst. inversion Ht as [|? ? Hb _]; subst. lia.
Qed.

Lemma trim_quoted s : forallb plain s = true -> trim_quotes (34 :: s ++ [34]) = s.
Proof.
  assert (Hl : forall t, forallb plain t = true -> trim_left t = t).
  { intros [|c t] Ht; [done|]. cbn [forallb] in Ht. apply andb_true_iff in Ht as [Hc _]. unfold plain in Hc.
    destruct (decide (c = 34)) as [->|Hn]; [done|]. cbn. repeat case_match; congruence. }
  intros Hs. unfold trim_quotes. cbn [trim_left].
  destruct s as [|c s]; [done|]. assert (trim_left ((c :: s) ++ [34]) = (c :: s) ++ [34]) as ->.
  { cbn [forallb] in Hs. apply andb_true_iff in Hs as [Hc _]. unfold plain in Hc. destruct (decide (c = 34)) as [->|Hn]; [done|].
    cbn. repeat case_match; congruence. }
  rewrite rev_app_distr. cbn [rev app trim_left]. rewrite Hl, rev_app_distr, rev_involutive; [done|].
  change (forallb plain (rev (c :: s)) = true). rewrite forallb_forall in Hs |- *. intros x Hx. apply Hs. by apply in_rev.
Qed.

Lemma FormatInt_nonneg n : 0 <= n -> FormatInt n = Dec_text n.
Proof. intros Hn. unfold FormatInt. destruct (Z.ltb_spec n 0); [lia|done]. Qed.

Lemma FormatInt_plain n : forallb plain (FormatInt n) = true.
Proof. exact (int_plain KInt64 n). Qed.

(** *** Trees *)

(** The option [string] of the error of a call is not known to the client's
    package: it keeps the quotes. *)
Definition quoted_err (err : bytes) : bytes := if bytes_Equal err [] then [] else json_Print (JStr err).

Lemma vmcall_tree r :
  encode jsonx VMCallResultT (vmcall_val r) =
  encode tmjson VMCallResultT (VStruct [VInt (vr_UsedGas r); VText (quoted_err (text (vr_Err r)));
    slice_val (GovParams.nilled (vr_ReturnData r))]).
Proof.
  unfold quoted_err, vmcall_val. destruct (bytes_Equal (text (vr_Err r)) []) eqn:E.
  - apply bytes_Equal_true in E. rewrite E. reflexivity.
  - assert (bytes_Equal (json_Print (JStr (text (vr_Err r)))) [] = false) as En.
    { destruct (bytes_Equal (json_Print _) []) eqn:En; [|done]. apply bytes_Equal_true in En. by apply print_nonempty in En. }
    assert (forall t, skipped t (VText (json_Print (JStr (text (vr_Err r))))) = skipped t (VText (text (vr_Err r)))) as Hs.
    { intros t. unfold skipped. cbn [is_empty]. by rewrite E, En. }
    unfold VMCallResultT. cbn [encode]. rewrite Hs. reflexivity.
Qed.

(** *** Values that have a text *)

Definition acct_text_ok (a : Account) : Prop :=
  Forall is_byte (acct_Address a) /\ Forall is_byte (acct_Code a) /\ utf8_Valid (acct_Name a) = true /\
  utf8_Valid (acct_DocURL a) = true /\ in_i64 (acct_Nonce a) /\ in_u256 (acct_Balance a).

Definition stake_text_ok (s : respStake) : Prop :=
  Forall (Forall is_byte) [rs_From s; rs_To s; rs_TxHash s] /\ in_i64 (rs_StartHeight s) /\ in_i64 (rs_Power s).

Definition delegatee_text_ok (d : respDelegatee) : Prop :=
  Forall is_byte (rd_Addr d) /\ Forall is_byte (rd_PubKey d) /\
  Forall in_i64 [rd_SelfPower d; rd_TotalPower d; rd_SlashedPower d; rd_NotSignedBlockCount d] /\
  Forall (Forall is_byte) (rd_Delegators d) /\ Forall stake_text_ok (rd_Stakes d).

Definition vmcall_text_ok (r : VMCallResult) : Prop :=
  in_i64 (vr_UsedGas r) /\ utf8_Valid (text (vr_Err r)) = true /\ Forall is_byte (vr_ReturnData r).

Lemma account_typed a : acct_text_ok a -> typed accountT (account_val (answer_of a)).
Proof.
  intros (Ha & Hc & Hn & Hu & Hnc & Hb). fields; try done.
  - cbn. apply plain_utf8, FormatInt_plain.
  - cbn [answer_of aa_Code]. destruct (bytes_Equal (acct_Code a) []); cbn; [constructor|done].
Qed.

Lemma stake_typed s : stake_text_ok s -> typed (TPtr RespQueryStakeT) (stake_val s).
Proof. intros (Hb & Hh & Hp). rewrite !Forall_cons in Hb. cbn [typed stake_val]. fields; tauto. Qed.

Lemma stakes_typed ss : Forall stake_text_ok ss -> typed (TSlice (TPtr RespQueryStakeT)) (appended (map stake_val ss)).
Proof.
  intros Hss. assert (Forall (typed (TPtr RespQueryStakeT)) (map stake_val ss)) as Hall.
  { apply Forall_fmap. eapply Forall_impl; [exact Hss|]. apply stake_typed. }
  destruct (map stake_val ss); [exact I|exact Hall].
Qed.

Lemma delegatee_typed d : delegatee_text_ok d -> typed RespQueryDelegateeT (delegatee_val d).
Proof.
  intros (Ha & Hp & Hz & Hd & Hs). rewrite !Forall_cons in Hz. fields; try tauto.
  - apply full_field; [done|done|]. cbn [typed]. by apply Forall_fmap.
  - apply field_ok; [done| |by apply stakes_typed]. by destruct (rd_Stakes d).
Qed.

Lemma vmcall_typed r : vmcall_text_ok r ->
  typed VMCallResultT (VStruct [VInt (vr_UsedGas r); VText (quoted_err (text (vr_Err r)));
    slice_val (GovParams.nilled (vr_ReturnData r))]).
Proof.
  intros (Hg & He & Hd). fields; try done. unfold quoted_err. destruct (bytes_Equal _ []); [done|]. by apply print_utf8.
Qed.

(** *** Values from the fields *)

Lemma stakes_of ss : all_ok stake_of (elements (appended (map stake_val ss))) = Ok ss.
Proof.
  assert (elements (appended (map stake_val ss)) = map stake_val ss) as -> by (by destruct ss).
  rewrite (all_ok_map stake_of stake_val id), map_id; [done|]. by intros [] _.
Qed.

Lemma delegatee_of_val d : delegatee_of (delegatee_val d) = Ok d.
Proof.
  unfold delegatee_val, delegatee_of. rewrite stakes_of. cbn [elements].
  rewrite (all_ok_map address_of VText id), map_id by done. by destruct d.
Qed.

Lemma account_of_val a : account_of (account_val (answer_of a)) = Ok (answer_of a).
Proof. unfold account_val, account_of, answer_of. cbn. destruct (bytes_Equal (acct_Code a) []) eqn:E; cbn; [done|]. by rewrite E. Qed.

End Texts.

Section Reads.
Context `{JsonTextOk, !TmJson, !TmJsonOk, !ChainIdText, !InitText, !U256TextOk, TrxProtos}.
Context {T I : Type} `{Iavl T I}.
Context `{Proto AcctProto, GovProtos, VPowerProtos, SupplyProtos, CryptoLib, FeeText}.
Context {GP E D : Type} `{GasPoolLib GP} `{!IEVMQuery E (AcctCtrler T I)}.
#[local] Instance the_GovJson : GovJson := jsonx_GovJson.
#[local] Instance the_QueryJson : QueryJson := jsonx_QueryJson.
Abbreviation N := (Node T I E GP D).
Context (ABCIQuery : string -> bytes -> Z -> bool -> M N ResponseQuery) (cfg : Config).
Context (http_Post : bytes -> M N (Z * outcome bytes)).
Abbreviation provider := (HttpProvider_Call http_Post).

Definition entry (k : string) (es : list (bytes * jval)) : option jval :=
  option_map snd (List.find (fun e => bytes_Equal (fst e) (text k)) es).

(** A posted request for a route by its method is answered with the result of
    its function. *)
Definition serves : Prop :=
  forall reqbz es id name f params a m n resp n' bz j,
    json_Parse reqbz = Ok (JObj es) -> entry "id" es = Some id ->
    entry "method" es = Some (JStr (text name)) -> (name, f) ∈ Routes ->
    entry "params" es = Some (JArr params) -> rpc_args f params = Ok a ->
    rpc_query ABCIQuery (MkRpcContext (Some name) None false) f a = Some m -> m n = (Ok resp, n') ->
    QueryResult_MarshalJSON (result_of resp) = Ok bz -> json_Parse bz = Ok j ->
    exists body, http_Post reqbz n = (Ok (StatusOK, Ok body), n') /\ json_Parse body = Ok (response_json id j).

Context (Happ : forall path data h prove n, ABCIQuery path data h prove n = Query cfg (MkRequestQuery path data h) n).
Context (Hserves : serves).

(** The application answers a query with a value. *)
Definition answers (n : N) (path : string) (data : bytes) (h : Z) (value : bytes) (n' : N) : Prop :=
  exists key height, Query cfg (MkRequestQuery path data h) n = (Ok (MkResponseQuery 0 EmptyString key height value), n') /\
    Forall is_byte key /\ in_i64 height.

(** The client after one more call. *)
Definition called (c : BeatozWeb3) : BeatozWeb3 := MkBeatozWeb3 (w3_chainId c) (i64 (w3_callId c + 1)).

Lemma route_utf8 name f : (name, f) ∈ Routes -> utf8_Valid (text name) = true.
Proof.
  assert (Forall (fun nf : string * RpcFunc => utf8_Valid (text (fst nf)) = true) Routes) as Hall
    by (repeat (apply Forall_cons_2; [vm_compute; reflexivity|]); constructor).
  intros Hin. rewrite Forall_forall in Hall. exact (Hall _ Hin).
Qed.

(** The fields of the posted request. *)
Definition request_entries (id : Z) (name : string) (params : list jval) : list (bytes * jval) :=
  [(text "jsonrpc", JStr []); (text "id", JStr (FormatInt id)); (text "method", JStr (text name)); (text "params", JArr params)].

Lemma request_text id name params : jval_ok (JArr params) = true ->
  encode tmjson JSONRpcReqT (VStruct [VText []; VInt id; VText (text name); VText (json_Print (JArr params))]) =
  JObj (request_entries id name params).
Proof. intros Hp. unfold JSONRpcReqT. cbn [encode encode_field]. rewrite parse_print by done. reflexivity. Qed.

(** The provider returns the result of the function of a route. *)
Lemma provider_answer id name f params a m n resp n' bz es :
  in_i64 id -> (name, f) ∈ Routes -> jval_ok (JArr params) = true -> rpc_args f params = Ok a ->
  rpc_query ABCIQuery (MkRpcContext (Some name) None false) f a = Some m -> m n = (Ok resp, n') ->
  QueryResult_MarshalJSON (result_of resp) = Ok bz -> json_Parse bz = Ok (JObj es) ->
  exists result, provider (MkJSONRpcReq [] id (text name) (json_Print (JArr params))) n =
      (Ok (MkJSONRpcResp [] id result []), n') /\ json_Parse result = Ok (JObj es).
Proof.
  intros Hid Hin Hp Ha Hm Hmn Hbz Hes.
  assert (json_Parse (json_Print (JObj (request_entries id name params))) = Ok (JObj (request_entries id name params))) as Hparse.
  { apply parse_print. unfold request_entries. cbn [jval_ok forallb fst snd]. rewrite (route_utf8 name f Hin).
    rewrite (plain_utf8 _ (FormatInt_plain id)). cbn [jval_ok] in Hp. rewrite Hp. vm_compute. reflexivity. }
  destruct (Hserves _ _ (JStr (FormatInt id)) name f params a m n resp n' bz _ Hparse eq_refl eq_refl Hin eq_refl Ha Hm Hmn Hbz Hes)
    as (body & Hpost & Hbody).
  destruct (tm_reads_response body id es Hid Hbody) as (result & Hread & Hres). exists result. split; [|exact Hres].
  unfold HttpProvider_Call. cbn [req_Version req_Id req_Method req_Params]. rewrite request_text by done.
  unfold bind, lift. rewrite Hpost. cbn [fst snd StatusOK Z.eqb Pos.eqb negb]. by rewrite Hread.
Qed.

Lemma call_query_answer name f args a value c n n' :
  (name, f) ∈ Routes -> is_Some (rpc_query ABCIQuery (MkRpcContext (Some name) None false) f a) ->
  args <> [] -> forallb (fun x => jval_ok (arg_json x)) args = true ->
  rpc_args f (map arg_json args) = Ok a -> (value = [] \/ raw_ok value) ->
  answers n (asked_path name) (fst (asked f a)) (snd (asked f a)) value n' ->
  exists qr, call_query provider name args (c, n) = (Ok qr, (called c, n')) /\ qr_Value qr = value /\ qr_Code qr = 0.
Proof.
  intros Hin [m Hm] Hne Hargs Ha Hv (key & height & Hquery & Hkey & Hh).
  pose proof (route_asks ABCIQuery cfg (MkRpcContext (Some name) None false) name f a m n Happ Hin (or_introl eq_refl) Hm) as Hmn. rewrite Hquery in Hmn.
  set (resp := MkResponseQuery 0 EmptyString key height value) in *.
  assert (result_ok (result_of resp)) as Hok.
  { split; [cbn; lia|]. split; [cbn; unfold in_i64; lia|]. split; [exact Hh|]. split; [exact Hkey|].
    split; [by repeat constructor|]. constructor; [exact Hv|]. constructor; [by left|constructor]. }
  destruct (result_tree (result_of resp) Hok) as (bz & es & Hbz & Hes & Hread).
  assert (jval_ok (JArr (map arg_json args)) = true) as Hj.
  { cbn. clear -Hargs. induction args as [|x args IH]; [done|]. cbn in *.
    apply andb_true_iff in Hargs as [-> Hargs]. by apply IH. }
  destruct (provider_answer (i64 (w3_callId c + 1)) name f (map arg_json args) a m n resp n' bz es (i64_range _) Hin Hj Ha Hm Hmn Hbz Hes)
    as (result & Hcall & Hres).
  exists (result_of resp). split; [|done]. destruct args as [|x args]; [done|].
  unfold call_query, call, web3_NewRequest, NewRequest, bind at 1 2 3 4 5, modify, gets, lift, zoom. cbn [fst snd w3_callId].
  cbn [lget lset snd_lens fst snd]. rewrite Hcall. cbn [resp_Error resp_Result]. rewrite bytes_Equal_refl. cbn [negb]. unfold ret. cbn [resp_Result]. by rewrite Hread.
Qed.

Lemma tm_answer t v : gtype_ok tmjson t = true -> typed t v ->
  raw_ok (json_Print (encode tmjson t v)) /\ tm_Unmarshal t (json_Print (encode tmjson t v)) = Ok v.
Proof. intros Hok Hv. split; [|by apply tm_reads]. exists (encode tmjson t v). split; [by apply gtype_kept|done]. Qed.

Lemma hex_arg a : Forall is_byte a -> jval_ok (JStr (HexBytes_String a)) = true /\ arg_hex (JStr (HexBytes_String a)) = Ok a.
Proof. intros Ha. split; [by apply plain_utf8, hex_plain|by apply HexBytes_Unmarshal_text]. Qed.

Lemma height_arg h : in_i64 h -> jval_ok (JStr (FormatInt h)) = true /\ arg_height (JStr (FormatInt h)) = Ok (Some h).
Proof. intros Hh. split; [apply plain_utf8, FormatInt_plain|]. unfold arg_height. by rewrite ParseInt_FormatInt. Qed.

Lemma base64_arg b : Forall is_byte b -> jval_ok (JStr (base64_EncodeToString b)) = true /\ arg_bytes (JStr (base64_EncodeToString b)) = Ok b.
Proof. intros Hb. split; [by apply plain_utf8, base64_plain|by apply base64_roundtrip]. Qed.

(** The three shapes of a query: of an address, of a height alone, of a call. *)
Lemma query_address name f addr h value c n n' :
  (name, f) ∈ Routes -> asked_path name = name -> f ∈ [QueryAccount; QueryDelegatee; QueryStakes; QueryReward] ->
  Forall is_byte addr -> in_i64 h -> raw_ok value -> answers n name addr (parseHeight (Some h)) value n' ->
  exists qr, call_query provider name [AText (HexBytes_String addr); AText (FormatInt h)] (c, n) = (Ok qr, (called c, n')) /\
    qr_Value qr = value /\ qr_Code qr = 0.
Proof.
  intros Hin Hp Hf Ha Hh Hv Hans. destruct (hex_arg _ Ha) as [Hj1 Hd1], (height_arg _ Hh) as [Hj2 Hd2].
  apply call_query_answer with f (MkRpcArgs addr [] [] (Some h) []); [done| |done| | |by right|].
  - rewrite !elem_of_cons, elem_of_nil in Hf. destruct Hf as [-> | [-> | [-> | [-> | []]]]]; by eexists.
  - cbn [forallb arg_json]. by rewrite Hj1, Hj2.
  - rewrite !elem_of_cons, elem_of_nil in Hf. cbn [map arg_json].
    destruct Hf as [-> | [-> | [-> | [-> |]]]]; try done; unfold rpc_args; by rewrite Hd1, Hd2.
  - rewrite Hp. rewrite !elem_of_cons, elem_of_nil in Hf. by destruct Hf as [-> | [-> | [-> | [-> |]]]].
Qed.

Lemma query_height name f h value c n n' :
  (name, f) ∈ Routes -> asked_path name = name -> f ∈ [QueryStakes1; QueryStakes2; QueryTotalSupply; QueryGovParams] ->
  in_i64 h -> raw_ok value -> answers n name [] (parseHeight (Some h)) value n' ->
  exists qr, call_query provider name [AText (FormatInt h)] (c, n) = (Ok qr, (called c, n')) /\
    qr_Value qr = value /\ qr_Code qr = 0.
Proof.
  intros Hin Hp Hf Hh Hv Hans. destruct (height_arg _ Hh) as [Hj2 Hd2].
  apply call_query_answer with f (MkRpcArgs [] [] [] (Some h) []); [done| |done| | |by right|].
  - rewrite !elem_of_cons, elem_of_nil in Hf. destruct Hf as [-> | [-> | [-> | [-> | []]]]]; by eexists.
  - cbn [forallb arg_json]. by rewrite Hj2.
  - rewrite !elem_of_cons, elem_of_nil in Hf. cbn [map arg_json].
    destruct Hf as [-> | [-> | [-> | [-> |]]]]; try done; unfold rpc_args; by rewrite Hd2.
  - rewrite Hp. rewrite !elem_of_cons, elem_of_nil in Hf. by destruct Hf as [-> | [-> | [-> | [-> |]]]].
Qed.

Ltac among := repeat (apply elem_of_cons; first [left; reflexivity|right]).
Ltac route := unfold Routes; among.

Lemma zero_i64 : in_i64 0.
Proof. done. Qed.

Lemma reads_params gp bz c n n' :
  params_text_ok gp -> json_govItem (IGovParams gp) = Ok bz -> answers n "gov_params" [] 0 bz n' ->
  web3_QueryGovParams provider (c, n) = (Ok gp, (called c, n')).
Proof.
  intros Hgp Hbz Hans. destruct (params_json_roundtrip gp Hgp) as (j & Hm & Hj & Hu). cbn [json_govItem the_QueryJson jsonx_QueryJson] in Hbz.
  rewrite Hm in Hbz. injection Hbz as <-.
  destruct (query_height "gov_params" QueryGovParams 0 _ c n n' ltac:(route) eq_refl ltac:(among) zero_i64
    (ex_intro _ _ (conj Hj eq_refl)) Hans) as (qr & Hcall & Hv & _).
  unfold web3_QueryGovParams, bind, lift. rewrite Hcall, Hv, Hu. cbn [obind]. by rewrite GovParams.plain_in_memory.
Qed.

Lemma reads_account a bz c n n' :
  acct_text_ok a -> json_account (answer_of a) = Ok bz -> answers n "account" (acct_Address a) 0 bz n' ->
  web3_QueryAccount provider (acct_Address a) (c, n) = (Ok a, (called c, n')).
Proof.
  intros Ha Hbz Hans. assert (bz = json_Print (encode tmjson accountT (account_val (answer_of a)))) as -> by (by injection Hbz as <-). destruct (tm_answer accountT _ eq_refl (account_typed a Ha)) as [Hraw Hu].
  destruct (query_address "account" QueryAccount (acct_Address a) 0 _ c n n' ltac:(route) eq_refl ltac:(among) (proj1 Ha) zero_i64
    Hraw Hans) as (qr & Hcall & Hv & _).
  unfold web3_QueryAccount, bind, lift. rewrite Hcall, Hv, Hu. cbn [obind]. rewrite account_of_val.
  assert (balance_of (aa_Balance (answer_of a)) = Ok (acct_Balance a)) as ->.
  { destruct Ha as (_ & _ & _ & _ & _ & Hb). unfold balance_of, answer_of. cbn [aa_Balance].
    rewrite FormatInt_nonneg by apply Hb. by rewrite digits_no_prefix, must_decimal. }
  unfold ret. do 2 f_equal. destruct a as [ad nm nc bl cd ul]. cbn. destruct (bytes_Equal cd []) eqn:Ec; [|done].
  apply bytes_Equal_true in Ec as ->. done.
Qed.

Lemma reads_stakes addr ss bz c n n' :
  Forall is_byte addr -> Forall stake_text_ok ss -> json_stakes ss = Ok bz -> answers n "stakes" addr 0 bz n' ->
  web3_QueryStakes provider addr (c, n) = (Ok ss, (called c, n')).
Proof.
  intros Ha Hss Hbz Hans.
  assert (bz = json_Print (encode tmjson (TSlice (TPtr RespQueryStakeT)) (appended (map stake_val ss)))) as -> by (by injection Hbz as <-).
  destruct (tm_answer (TSlice (TPtr RespQueryStakeT)) _ eq_refl (stakes_typed ss Hss)) as [Hraw Hu].
  destruct (query_address "stakes" QueryStakes addr 0 _ c n n' ltac:(route) eq_refl ltac:(among) Ha zero_i64
    Hraw Hans) as (qr & Hcall & Hv & _).
  unfold web3_QueryStakes, bind, lift. rewrite Hcall, Hv, Hu. cbn [obind]. by rewrite stakes_of.
Qed.

Lemma reads_delegatee addr d bz c n n' :
  Forall is_byte addr -> delegatee_text_ok d -> json_delegatee d = Ok bz -> answers n "delegatee" addr 0 bz n' ->
  web3_QueryDelegatee provider addr (c, n) = (Ok d, (called c, n')).
Proof.
  intros Ha Hd Hbz Hans. assert (bz = json_Print (encode tmjson RespQueryDelegateeT (delegatee_val d))) as -> by (by injection Hbz as <-).
  destruct (tm_answer RespQueryDelegateeT _ eq_refl (delegatee_typed d Hd)) as [Hraw Hu].
  destruct (query_address "delegatee" QueryDelegatee addr 0 _ c n n' ltac:(route) eq_refl ltac:(among) Ha zero_i64
    Hraw Hans) as (qr & Hcall & Hv & _).
  unfold web3_QueryDelegatee, bind, lift. rewrite Hcall, Hv, Hu. cbn [obind]. by rewrite delegatee_of_val.
Qed.

Lemma reads_reward addr h r bz c n n' :
  Forall is_byte addr -> in_i64 h -> reward_ok r -> json_reward r = Ok bz -> answers n "reward" addr (parseHeight (Some h)) bz n' ->
  web3_QueryReward provider addr h (c, n) =
    (Ok (VStruct [VText (rw_Address r); VText (Dec_text (rw_issued r)); VText (Dec_text (rw_withdrawn r));
           VText (Dec_text (rw_slashed r)); VText (Dec_text (rw_cumulated r)); VInt (rw_Height r)]), (called c, n')).
Proof.
  intros Ha Hh (Hra & Hrh & Hrn) Hbz Hans. set (v := VStruct _).
  assert (bz = json_Print (encode tmjson RespQueryRewardT v)) as -> by (by injection Hbz as <-).
  destruct (tm_answer RespQueryRewardT v eq_refl) as [Hraw Hu]; [fields; [exact Hra|apply dec_utf8..|exact Hrh]|].
  destruct (query_address "reward" QueryReward addr h _ c n n' ltac:(route) eq_refl ltac:(among) Ha Hh Hraw Hans) as (qr & Hcall & Hv & _).
  unfold web3_QueryReward, bind, lift. by rewrite Hcall, Hv, Hu.
Qed.

Lemma reads_power name f h t c n n' :
  (name, f) ∈ Routes -> asked_path name = name -> f ∈ [QueryStakes1; QueryStakes2] -> in_i64 h -> in_i64 t ->
  answers n name [] (parseHeight (Some h)) (quoted t) n' -> web3_power provider name h (c, n) = (Ok t, (called c, n')).
Proof.
  intros Hin Hp Hf Hh Ht Hans. assert (raw_ok (quoted t)) as Hraw.
  { exists (JStr (FormatInt t)). split; [apply plain_utf8, FormatInt_plain|]. by rewrite print_plain by apply FormatInt_plain. }
  destruct (query_height name f h _ c n n' Hin Hp ltac:(set_solver) Hh Hraw Hans) as (qr & Hcall & Hv & _).
  unfold web3_power, bind, lift. rewrite Hcall, Hv. unfold quoted. rewrite trim_quoted by apply FormatInt_plain.
  by rewrite ParseInt_FormatInt.
Qed.

Lemma reads_proposal txhash h status p bz c n n' :
  Forall is_byte txhash -> (length txhash mod 3)%nat <> 0%nat -> in_i64 h -> utf8_Valid (text status) = true -> proposal_text_ok p ->
  json_proposal (MkRespProposal status (Some p)) = Ok bz -> answers n "proposal" txhash (parseHeight (Some h)) bz n' ->
  web3_QueryProposal provider txhash h (c, n) = (Ok (text status, Some p), (called c, n')).
Proof.
  intros Ha Hl Hh Hs Hp Hbz Hans. destruct (proposal_json_roundtrip p Hp) as (es & Hm & Hj & Hu).
  cbn [json_proposal the_QueryJson jsonx_QueryJson] in Hbz. unfold proposal_val in Hbz. cbn [rpp_Proposal rpp_Status] in Hbz.
  rewrite Hm in Hbz. cbn [obind] in Hbz. set (v := VStruct [VText (text status); VText (json_Print (JObj es))]) in Hbz.
  assert (bz = json_Print (encode tmjson respProposalT v)) as -> by (by injection Hbz as <-).
  assert (typed respProposalT v) as Htyped by (fields; [exact Hs|right; by exists (JObj es)]).
  destruct (tm_answer respProposalT v eq_refl Htyped) as [Hraw Hread]. destruct (height_arg _ Hh) as [Hj2 Hd2].
  destruct (call_query_answer "proposal" QueryProposal [ABytes txhash; AText (FormatInt h)] (MkRpcArgs [] [] txhash (Some h) [])
    (json_Print (encode tmjson respProposalT v)) c n n') as (qr & Hcall & Hv & _); [route|by eexists|done| | |by right|exact Hans|].
  - cbn [forallb arg_json]. rewrite Hj2, (proj1 (base64_arg _ Ha)). done.
  - cbn [map arg_json rpc_args]. unfold arg_hex. rewrite HexBytes_base64 by done. cbn [obind]. by rewrite Hd2.
  - unfold web3_QueryProposal, bind, lift. rewrite Hcall, Hv, Hread. subst v. clear Htyped Hraw Hread Hans Hbz. cbv beta iota.
    rewrite (pointer_text _ (JObj es) p); [done|done|done|]. by apply Hu.
Qed.

Lemma reads_vm name f from to h data r bz c n n' :
  (name, f) ∈ [("vm_call", QueryVM); ("vm_estimate_gas", QueryEstimateGas)]%string ->
  Forall is_byte from -> Forall is_byte to -> Forall is_byte data -> in_i64 h -> vmcall_text_ok r -> json_vmcall r = Ok bz ->
  answers n name (vm_params from to data) (parseHeight (Some h)) bz n' ->
  web3_vm provider name from to h data (c, n) =
    (Ok (vr_UsedGas r, quoted_err (text (vr_Err r)), vr_ReturnData r), (called c, n')).
Proof.
  intros Hf Ha Hb Hd Hh Hr Hbz Hans. set (v := VStruct [VInt (vr_UsedGas r); VText (quoted_err (text (vr_Err r))); slice_val (GovParams.nilled (vr_ReturnData r))]).
  assert (bz = json_Print (encode tmjson VMCallResultT v)) as ->.
  { unfold v. rewrite <- vmcall_tree. by injection Hbz as <-. }
  destruct (tm_answer VMCallResultT v eq_refl (vmcall_typed r Hr)) as [Hraw Hread].
  destruct (height_arg _ Hh) as [Hj1 Hd1], (hex_arg _ Ha) as [Hj2 Hd2], (hex_arg _ Hb) as [Hj3 Hd3], (base64_arg _ Hd) as [Hj4 Hd4].
  assert (f = QueryVM \/ f = QueryEstimateGas) as Hff.
  { rewrite !elem_of_cons, elem_of_nil in Hf. destruct Hf as [[= _ ->]|[[= _ ->]|[]]]; auto. }
  destruct (call_query_answer name f [AAddress from; AAddress to; AText (FormatInt h); ABytes data] (MkRpcArgs from to [] (Some h) data)
    (json_Print (encode tmjson VMCallResultT v)) c n n') as (qr & Hcall & Hv & Hc); [|destruct Hff as [-> | ->]; by eexists|done| | |by right| |].
  - rewrite !elem_of_cons, elem_of_nil in Hf. destruct Hf as [[= -> ->]|[[= -> ->]|[]]]; route.
  - cbn [forallb arg_json]. by rewrite Hj1, Hj2, Hj3, Hj4.
  - cbn [map arg_json]. destruct Hff as [-> | ->]; unfold rpc_args; rewrite Hd2, Hd3; cbn [obind]; rewrite Hd1; cbn [obind]; by rewrite Hd4.
  - rewrite !elem_of_cons, elem_of_nil in Hf. destruct Hf as [[= -> ->]|[[= -> ->]|[]]]; exact Hans.
  - unfold web3_vm, bind, lift. rewrite Hcall, Hc, Hv. cbn [Z.eqb negb]. rewrite Hread. unfold v. cbv beta iota.
    by rewrite slice_of_val, GovParams.default_nilled.
Qed.

(** C25. The client reads what the node answers.  When the application answers the
    query a method of the client stands for with the text of a value, the method
    returns that value through the provider over HTTP, and one more call is
    counted: the parameters, an account, the stakes of an address, a delegatee, a
    reward with the texts of its amounts, the total and the voting power, a
    proposal, and a call of the virtual machine, the error of which comes back with
    its quotes.  This holds for any server behind the provider that finds the
    function of the posted method, reads the arguments by their types and answers
    with the result and the id, in whatever formatting. *)
Theorem client_reads_node c n n' bz :
  (forall gp, params_text_ok gp -> json_govItem (IGovParams gp) = Ok bz -> answers n "gov_params" [] 0 bz n' ->
     web3_QueryGovParams provider (c, n) = (Ok gp, (called c, n'))) /\
  (forall a, acct_text_ok a -> json_account (answer_of a) = Ok bz -> answers n "account" (acct_Address a) 0 bz n' ->
     web3_QueryAccount provider (acct_Address a) (c, n) = (Ok a, (called c, n'))) /\
  (forall addr ss, Forall is_byte addr -> Forall stake_text_ok ss -> json_stakes ss = Ok bz -> answers n "stakes" addr 0 bz n' ->
     web3_QueryStakes provider addr (c, n) = (Ok ss, (called c, n'))) /\
  (forall addr d, Forall is_byte addr -> delegatee_text_ok d -> json_delegatee d = Ok bz -> answers n "delegatee" addr 0 bz n' ->
     web3_QueryDelegatee provider addr (c, n) = (Ok d, (called c, n'))) /\
  (forall addr h r, Forall is_byte addr -> in_i64 h -> reward_ok r -> json_reward r = Ok bz ->
     answers n "reward" addr (parseHeight (Some h)) bz n' ->
     web3_QueryReward provider addr h (c, n) =
       (Ok (VStruct [VText (rw_Address r); VText (Dec_text (rw_issued r)); VText (Dec_text (rw_withdrawn r));
              VText (Dec_text (rw_slashed r)); VText (Dec_text (rw_cumulated r)); VInt (rw_Height r)]), (called c, n'))) /\
  (forall h t, in_i64 h -> in_i64 t -> answers n "stakes/total_power" [] (parseHeight (Some h)) (quoted t) n' ->
     web3_QueryTotalPower provider h (c, n) = (Ok t, (called c, n'))) /\
  (forall h t, in_i64 h -> in_i64 t -> answers n "stakes/voting_power" [] (parseHeight (Some h)) (quoted t) n' ->
     web3_QueryVotingPower provider h (c, n) = (Ok t, (called c, n'))) /\
  (forall txhash h status p, Forall is_byte txhash -> length txhash = 32%nat -> in_i64 h -> utf8_Valid (text status) = true ->
     proposal_text_ok p -> json_proposal (MkRespProposal status (Some p)) = Ok bz ->
     answers n "proposal" txhash (parseHeight (Some h)) bz n' ->
     web3_QueryProposal provider txhash h (c, n) = (Ok (text status, Some p), (called c, n'))) /\
  (forall from to h data r, Forall is_byte from -> Forall is_byte to -> Forall is_byte data -> in_i64 h -> vmcall_text_ok r ->
     json_vmcall r = Ok bz -> answers n "vm_call" (vm_params from to data) (parseHeight (Some h)) bz n' ->
     web3_VmCall provider from to h data (c, n) =
       (Ok (vr_UsedGas r, quoted_err (text (vr_Err r)), vr_ReturnData r), (called c, n'))).
Proof.
  split; [intros; by eapply reads_params|]. split; [intros; by eapply reads_account|]. split; [intros; by eapply reads_stakes|].
  split; [intros; by eapply reads_delegatee|]. split; [intros; by eapply reads_reward|].
  split; [intros; eapply (reads_power _ QueryStakes1); [route|done|among|done..]|].
  split; [intros; eapply (reads_power _ QueryStakes2); [route|done|among|done..]|].
  split; [intros * Hb Hl; intros; eapply reads_proposal; [done|by rewrite Hl|done..]|].
  intros. eapply (reads_vm _ QueryVM); [among|done..].
Qed.

End Reads.

(** ** Witness *)

Module Web3Witness.
Import ToyNode RestartWitness ToyJson.

#[local] Instance w_tm : TmJson := fun t bz => obind (json_Parse bz) (decode tmjson t (zero t)).
Lemma toy_object es : toy_parse (toy_print (JObj es)) = Ok (JObj es).
Proof. apply parse_number. Qed.

Lemma response_read t es :
  decode tmjson JSONRpcRespT (zero JSONRpcRespT) (response_json (JStr t) (JObj es)) =
  obind (ParseInt t) (fun n => obind (decode_int KInt64 (VInt 0) (JNum n)) (fun v =>
    Ok (VStruct [VText []; v; VText (json_Print (JObj es)); VText []]))).
Proof.
  cbv -[ParseInt obind in_kindb toy_print]. destruct (ParseInt t) as [n| |]; cbn [obind]; try reflexivity.
  destruct (in_kindb _ n); reflexivity.
Qed.

#[local] Instance w_tm_ok : TmJsonOk.
Proof.
  split.
  - intros t v Hok Hv. destruct (gtype_kept tmjson t Hok v Hv) as [Hd Hj]. unfold tm_Unmarshal, w_tm. by rewrite parse_print.
  - intros body id es Hid Hb. exists (json_Print (JObj es)). split; [|apply toy_object].
    unfold tm_Unmarshal, w_tm. rewrite Hb. cbn [obind].
    rewrite response_read, ParseInt_FormatInt by done. cbn [obind decode_int]. by rewrite (proj2 (in_kindb_true KInt64 id)).
Qed.

Definition w_decimal (s : bytes) : outcome Z :=
  match parse_digits s with Some n => Ok n | None => Panic end.
#[local] Instance w_chain : ChainIdText := {| u256_MustFromHex _ := Panic; u256_MustFromDecimal := w_decimal; u256_Hex _ := [] |}.
#[local] Instance w_init : InitText := {| u256_FromHex _ := Panic; u256_FromDecimal := w_decimal; ParseDuration _ := Ok 0 |}.
#[local] Instance w_u256 : U256TextOk.
Proof. split; intros n Hn; cbn; unfold w_decimal; rewrite digits_parsed by apply Hn; done. Qed.

#[local] Existing Instances VPowerProps.VPowerWitness.w_protos.
#[local] Instance w_fee : FeeText := FormatInt.
#[local] Instance w_evm_query : IEVMQuery unit toy_accts := {| vm_Query _ := ret []; vm_GetCode _ _ := ret [] |}.
#[local] Instance w_gov : GovJson := jsonx_GovJson.
#[local] Instance w_queries : QueryJson := jsonx_QueryJson.

Abbreviation Nd := (Node RefTree.tree (gmap bytes bytes) unit Z (gmap bytes bytes)).
Definition abci (path : string) (data : bytes) (h : Z) (prove : bool) : M Nd ResponseQuery :=
  Query cfg (MkRequestQuery path data h).

(** A server that calls the node. *)
Definition respond (id : jval) (name : string) (f : RpcFunc) (params : list jval) : M Nd bytes := fun n =>
  let fail := (Err (GoError "invalid request"), n) in
  match rpc_args f params with
  | Ok a =>
      match rpc_query abci (MkRpcContext (Some name) None false) f a with
      | Some m =>
          match m n with
          | (Ok resp, n') =>
              match obind (QueryResult_MarshalJSON (result_of resp)) json_Parse with
              | Ok j => (Ok (json_Print (response_json id j)), n')
              | _ => fail
              end
          | _ => fail
          end
      | None => fail
      end
  | _ => fail
  end.

Definition server (reqbz : bytes) : M Nd (Z * outcome bytes) :=
  match json_Parse reqbz with
  | Ok (JObj es) =>
      match entry "id" es, entry "method" es, entry "params" es with
      | Some id, Some (JStr method), Some (JArr params) =>
          match List.find (fun nf => bytes_Equal (text (fst nf)) method) Routes with
          | Some (name, f) => let! body := respond id name f params in ret (StatusOK, Ok body)
          | None => ret (500, Ok [])
          end
      | _, _, _ => ret (500, Ok [])
      end
  | _ => ret (500, Ok [])
  end.

Lemma server_serves : serves abci server.
Proof.
  intros reqbz es id name f ps a m n resp n' bz j Hreq Hid Hm Hin Hps Ha Hq Hr Hbz Hj.
  assert (List.find (fun nf => bytes_Equal (text (fst nf)) (text name)) Routes = Some (name, f)) as Hf.
  { clear -Hin. unfold Routes in Hin. repeat (apply elem_of_cons in Hin as [[= -> ->]|Hin]; [vm_compute; reflexivity|]).
    by apply elem_of_nil in Hin. }
  exists (json_Print (response_json id j)). split; [|apply toy_object].
  unfold server. rewrite Hreq, Hid, Hm, Hps, Hf. unfold bind, respond. rewrite Ha, Hq, Hr, Hbz. cbn [obind]. by rewrite Hj.
Qed.

(** A node with two validators, after its first block. *)
Definition powers : outcome bytes * Nd := Commit cfg
  (MkNode (MkChain (ch_gov toy_chain) (ch_acct toy_chain) VPowerProps.VPowerWitness.vstart (ch_sup toy_chain) tt)
    None (Some ended_bctx) (MkMetaDB ∅ 0 0) (MkSigners [48] 1) 1).

(** Its total power is read by the client. *)
Lemma client_reads_node_witness :
  exists n', web3_QueryTotalPower (HttpProvider_Call server) 0 (MkBeatozWeb3 [] 0, snd powers) = (Ok 18000000, (MkBeatozWeb3 [] 1, n')).
Proof.
  set (n' := snd (Query cfg (MkRequestQuery "stakes/total_power" [] 0) (snd powers))). exists n'.
  destruct (client_reads_node abci cfg server (fun _ _ _ _ _ => eq_refl) server_serves (MkBeatozWeb3 [] 0) (snd powers) n' [])
    as (_ & _ & _ & _ & _ & Hp & _).
  apply (Hp 0 18000000); [done|done|]. exists [], 1. split; [|split; [constructor|done]]. vm_compute. reflexivity.
Defined.

End Web3Witness.
